(* ===== verification/_CoqProject ===== *)
-Q . S2P
Prelude.v
AccessTokenTypes.v
TokenId.v
Database.v
PermissionMap.v
CoreProps.v
Json.v
Validator.v
DataTranslator.v
PermissionDataBrief.v
PermissionDataBriefTheory.v
PermissionDataBriefProps.v
IdManager.v
IdManagerProps.v
UserPolicy.v
UserPolicyTheory.v
UserPolicyProps.v
ToggleManager.v
ConstraintCheck.v
HapTokenInfo.v
HapTokenInfoProps.v
PermissionRequest.v
PermissionRequestProps.v
PermissionInit.v
Kernel.v
Spm.v
SpmTheory.v
SpmTasks.v
SpmTaskTheory.v
SpmUndo.v
SpmUndoRemove.v
SpmTransactionTheory.v
SpmSamples.v
SpmProps.v
SpmBufferProps.v
InfoManager.v
InfoManagerOps.v
InfoManagerTheory.v
InfoManagerProps.v
PersistProps.v
PermissionManager.v
PermissionManagerProps.v
ClawTicket.v
ToolToken.v
ClawDecision.v
ClawTicketProps.v
ToolTokenProps.v
ClawDecisionProps.v
UserPolicyRefresh.v
UserPolicyRefreshTheory.v
ShortGrant.v
ShortGrantProps.v
AtmService.v
AtmServiceTheory.v
AtmServiceSamples.v
AtmServiceProps.v
AtmPolicyProps.v
PrivacyTypes.v
PrivacyRecordSet.v
PrivacyUsage.v
PrivacyUsageProps.v
PrivacyUseSpecs.v
PrivacyDb.v
PrivacyRecord.v
PrivacyDbTheory.v
PrivacyRecordTheory.v
PrivacyQueryTheory.v
PrivacyRecordProps.v
PrivacyRecordSpecs.v
PrivacyRemote.v
