(* ===== verification/Prelude.v ===== *)
(** * Access tokens and permission records: a verification library

    The repository is the access control of the system: it gives every application, native
    process and command-line tool a token, decides which permissions the token holds, answers
    every permission check, and keeps track of who uses a sensitive permission.  Two services
    carry the logic; both are modelled here from their C++ sources (paths below are under src/).

    ** The access token manager (services/accesstokenmanager/main/cpp/src)

    A token is created by the token information manager
    (permission/accesstoken_info_manager.cpp), which allocates its id, computes its initial
    permissions, stores them, writes the rows of the database and pushes the granted codes to the
    kernel.  The permission manager (permission/permission_manager.cpp) changes a permission in
    the store, the database and the kernel together and tells listeners.  User policies restrict
    permissions across tokens.  The clawtoken/ directory adds tokens for command-line tools,
    created from tickets that an application was authorised for.

    - Prelude: machine integers with their wrap-around, C++ strings and containers, tactics
      ([split_if], [breflect]) and the lemmas on lists, options and numbers shared by all files.
    - AccessTokenTypes, TokenId: enumerations, flag bits, error codes; the bit-fields of an id
      (frameworks/common/src/tokenid_attributes.cpp).
    - Database: GenericValues/VariantValue and AccessTokenDb over the class [RdbStore] with
      [RdbStoreLaws], which stand for the relational store outside the repository; [AtmDb] is
      the interface the managers are proved against, discharged for any lawful store.
    - PermissionMap: the permission definition table (frameworks/common/src/permission_map.cpp);
      the generated table is the class [PermTable] with [PermTableLaws].
    - Json, Validator, DataTranslator: cjson_utils.cpp, data_validator.cpp,
      permission_validator.cpp, constant_common.cpp, database/data_translator.cpp.
    - PermissionDataBrief: permission/permission_data_brief.cpp, state [Brief] (requested
      permissions, extended values, security-component grants).
    - IdManager: permission/accesstoken_id_manager.cpp, the three sets of token ids and the
      allocator of uids.
    - UserPolicy: permission/user_policy_manager.cpp, cache and persisted policies.
    - ToggleManager: permission/permission_request_toggle_manager.cpp.
    - ConstraintCheck: permission_constraint_check.cpp, dlp_permission_set_manager.cpp,
      permission_feature_manager.cpp.
    - HapTokenInfo: permission/hap_token_info_inner.cpp, one application token.
    - PermissionRequest, PermissionInit, PermissionManager: permission/permission_manager.cpp
      (answers to a request, initial permissions, grants and revokes).
    - Kernel: the permission bits of the kernel (innerkits token_setproc, kernel/
      permission_kernel_utils.cpp) over the class [TokenDevice] with its laws.
    - Spm, SpmTasks: the entries of the signed permission monitor in the kernel
      (token_setproc/src/spm_setproc.c, kernel/spm_data_kernel_common.cpp), the tasks that add,
      update and remove them (kernel/*_spm_data_task.cpp) and the transaction of kernel and
      database (transaction/kernel_and_db_transaction.cpp, kernel/kernel_and_db_lock.cpp), over
      the class [SpmDevice] with [SpmLaws]; SpmSamples holds devices in memory.  Any call of the
      device may fail, opening it included; [DeviceReopens] says only that a device that was
      opened for a batch can be opened again right after it.
    - InfoManager, InfoManagerOps: the state [World] of the token information manager, which
      contains the states of the components above, and its operations.
    - ClawTicket, ToolToken, ClawDecision: clawtoken/claw_ticket_manager.cpp,
      claw_token_info_manager.cpp, claw_permission_decision_engine.cpp and their helpers; the
      library that signs tickets is the class [AgentFence].
    - UserPolicyRefresh: the refresh of the restriction flags after a policy change, over the
      application tokens (accesstoken_info_manager.cpp) and the command-line tokens
      (claw_token_info_manager.cpp), with its snapshots and rollback.
    - ShortGrant: permission/short_grant_manager.cpp, grants for a few minutes, with the queue of
      tasks of the event handler.
    - AtmService: service/accesstoken_manager_service.cpp: the identity of the caller, the
      permission each request needs, and the requests over the state [ToolState] of all
      managers, in a small state monad [Op]; the caller is a record [Caller] and the other
      services asked are the class [ServiceEnv].

    ** The privacy manager (services/privacymanager/src)

    - PrivacyTypes, PrivacyRecordSet, PrivacyUsage: uses in progress
      (record/permission_record_set.cpp and the start/stop part of
      record/permission_record_manager.cpp), state [Using]; the answers of other services during a
      call are the class [Services], what listeners are told is the log [events].
    - PrivacyDb: database/permission_used_record_db.cpp and remote_permission_used_record_db.cpp;
      the prepared statements are values of [Sql], SQLite is the class [SqlStore] whose laws say
      that a step does to the rows what [run_sql] says, in whatever order the rows are kept, or
      fails and changes nothing.
    - PrivacyRecord, PrivacyRemote: records of past uses, state [Records]: the cache in which the
      uses of a minute are merged, its writing back, toggles, used types, disable policies,
      removal, aging, and the queries for local and remote records.

    ** How code becomes definitions

    One Definition or Fixpoint per function, composed as the code composes them; fallible code
    returns its error code, an option or a sum; state is passed explicitly.  Integers are [Z]
    with u32, i32, ... written where the code converts.  A lock that covers a whole method makes
    it one step; where a method releases its lock in between (loading a token, deleting a tool
    token) it is two definitions, and the theorems interleave them.  Log output, timing
    statistics and reports to the system event log (such as ReportPermissionVerifyEvent when a
    request is refused) are left out.  The clock, random numbers and answers of other
    services are arguments or classes.  Loops are structural recursions over the container they
    walk, except for these, which have fuel: printing a number has the number of its bits, which
    is more than its digits, so no digit is lost (read_print_digits); the batches of SPM entries
    have 256 rounds for at most 255 entries, the restoration of entries one round per entry, and
    the two readers of a buffer one round per byte, all of them enough whatever the device
    answers and whatever the buffer holds (spm_loops_end).

    ** What the theorems show

    - Permission state (PermissionDataBriefProps, ConstraintCheck, HapTokenInfoProps,
      PersistProps): the store stays well formed; fixed and restricted entries survive every
      change made for users; what is written to the database of a token and its permissions is
      what a restarted service loads.
    - Tokens (InfoManagerProps, IdManagerProps, PermissionInit, CoreProps): ids, names and active
      sets stay consistent in every history; creation is all or nothing; nothing is granted at
      installation that the package may not hold; uids are allocated soundly and completely; a
      database batch is atomic through failure and retry.
    - Decisions (PermissionManagerProps, PermissionRequestProps, UserPolicyProps, ToggleManager,
      Kernel): after a grant or revoke, checks in the store and in the kernel agree; policies belong to
      their controller, hold from creation on and survive a restart.
    - The kernel (SpmTheory, SpmTaskTheory, SpmUndo, SpmUndoRemove, SpmTransactionTheory,
      SpmProps, SpmBufferProps): a transaction of kernel and database is all or nothing, through
      every failure of the device that it does not report; what is written of an application is
      what is read; the loops end.
    - Grants for a time (ShortGrantProps): a short grant outlasts its total time by no more than
      the delay of its task (and one wrapped remaining time when the clock runs on between the two
      readings of one request), and always has a task that ends it.
    - Command-line tools (ClawTicketProps, ToolTokenProps, ClawDecisionProps): a tool holds exactly
      what its ticket authorised, whatever deletions interleave; the dialog agrees with the
      decisions.
    - The service (UserPolicyRefreshTheory, AtmServiceTheory, AtmServiceProps, AtmPolicyProps):
      a caller the rules do not name is refused and has changed nothing; after every successful
      policy request the flags of all tokens follow the policies and restricted permissions are
      denied, and a failed refresh is undone.  AtmServiceSamples holds the small system on which
      these are evaluated.
    - Uses in progress (PrivacyUsageProps, PrivacyUseSpecs): the set of uses is well formed in every
      history; start and stop are inverse; no use outlives its process; an administrator's mute
      holds.
    - Records of uses (PrivacyDbTheory, PrivacyRecordTheory, PrivacyQueryTheory,
      PrivacyRecordProps, PrivacyRecordSpecs): the rows and the cache together implement an
      abstract ledger; adding, merging, evicting, writing back and restarting refine adding to the
      ledger, and a query reports exactly its sums; switching recording off erases and stops it;
      aging keeps the table within its bounds.
    - Defects that the models show are theorems too, each a concrete run or a general fact:
      concurrent_load_drops_data, removal_undone_by_lookup, policy_skips_sandbox_clones,
      granted_list_after_user_refusal, location_forbidden_reported_as_pass,
      refused_start_drops_callback, camera_callback_lost, refused_record_hides_use,
      uninstalled_reported_as_zero, remote_devices_confused, failed_policy_never_applied,
      component_grant_survives_policy, restricted_grant_keeps_bit,
      stale_index_removes_entry, rollback_order_leaves_entry.

    ** Not modelled

    Of the service: registration of callbacks, requests about remote tokens, the settings
    pages, security-component keys, bulk status queries and start-up.  The front end of the
    privacy manager and the client proxies (privacy_manager_service.cpp,
    interfaces/innerkits/*/src: parcels, caller checks and delegation); the language bindings under frameworks/js and frameworks/ets;
    registration and dispatch of callbacks (remote objects, death recipients, threads); opening,
    creating and upgrading database files; signature verification of packages; tokens of remote
    devices and their synchronisation over the soft bus; temporary permissions of applications
    in the background; the EL5 key manager; dumps and statistics. *)

From Stdlib Require Import ZArith Lia Bool.
From stdpp Require Import base gmap sets list strings sorting.
#[local] Open Scope Z_scope.

(** ** Notations of the C++ bit operators, in a scope of their own. *)
Declare Scope cxx_scope.
Delimit Scope cxx_scope with cxx.
Infix ".&" := Z.land (at level 40, left associativity) : cxx_scope.
Infix ".|" := Z.lor (at level 50, left associativity) : cxx_scope.
Infix ".<<" := Z.shiftl (at level 40, left associativity) : cxx_scope.
Infix ".>>" := Z.shiftr (at level 40, left associativity) : cxx_scope.
#[local] Open Scope cxx_scope.

#[global] Arguments Z.testbit : simpl never.

Create HintDb atm discriminated.
Create Rewrite HintDb atm.
Create Rewrite HintDb bits.

(** ** Machine integers: a [w]-bit integer is a [Z]; these are the conversions
    (static_cast and implicit) to each width, with their wrap-around. *)
Definition u8 (x : Z) : Z := x mod 2 ^ 8.
Definition u16 (x : Z) : Z := x mod 2 ^ 16.
Definition u32 (x : Z) : Z := x mod 2 ^ 32.
Definition u64 (x : Z) : Z := x mod 2 ^ 64.
Definition i8 (x : Z) : Z := (x + 2 ^ 7) mod 2 ^ 8 - 2 ^ 7.
Definition i32 (x : Z) : Z := (x + 2 ^ 31) mod 2 ^ 32 - 2 ^ 31.
Definition i64 (x : Z) : Z := (x + 2 ^ 63) mod 2 ^ 64 - 2 ^ 63.

(** [~x] on [uint32_t]. *)
Definition u32_not (x : Z) : Z := u32 (Z.lnot x).

(** [x != 0] used as a condition. *)
Definition nz (x : Z) : bool := negb (x =? 0).

Definition is_u32 (x : Z) : Prop := 0 <= x < 2 ^ 32.
Definition is_i32 (x : Z) : Prop := - 2 ^ 31 <= x < 2 ^ 31.

Ltac unfold_int :=
  unfold u8, u16, u32, u64, i8, i32, i64, is_u32, is_i32 in *.

Lemma u16_small x : 0 <= x < 2 ^ 16 -> u16 x = x.
Proof. apply Z.mod_small. Qed.

Lemma u32_small x : is_u32 x -> u32 x = x.
Proof. apply Z.mod_small. Qed.

Lemma u32_range x : is_u32 (u32 x).
Proof. apply Z.mod_pos_bound. lia. Qed.

Lemma i32_small x : is_i32 x -> i32 x = x.
Proof. unfold_int. intros. rewrite Z.mod_small; lia. Qed.

Lemma i32_range x : is_i32 (i32 x).
Proof. unfold_int. pose proof (Z.mod_pos_bound (x + 2 ^ 31) (2 ^ 32)). lia. Qed.

Lemma u32_i32 x : u32 (i32 x) = u32 x.
Proof.
  unfold_int. rewrite Zminus_mod_idemp_l. f_equal. lia.
Qed.

Lemma i8_small x : -128 <= x < 128 -> i8 x = x.
Proof. unfold_int. intros. rewrite Z.mod_small; lia. Qed.

#[export] Hint Resolve u32_range i32_range : atm.
#[export] Hint Rewrite u32_i32 : atm.

(** ** Bits. *)
Lemma u32_testbit x n : 0 <= n -> Z.testbit (u32 x) n = (n <? 32) && Z.testbit x n.
Proof.
  intros. unfold u32. destruct (Z.ltb_spec n 32).
  - by rewrite Z.mod_pow2_bits_low by lia.
  - by rewrite Z.mod_pow2_bits_high by lia.
Qed.

Lemma u32_not_testbit x n :
  0 <= n -> Z.testbit (u32_not x) n = (n <? 32) && negb (Z.testbit x n).
Proof.
  intros. unfold u32_not. rewrite u32_testbit by done.
  destruct (n <? 32); [|done]. by rewrite Z.lnot_spec.
Qed.

(** A word is a [uint32_t] exactly when its high bits are clear. *)
Lemma is_u32_bits x : is_u32 x <-> 0 <= x /\ forall n, 32 <= n -> Z.testbit x n = false.
Proof.
  split.
  - intros [H0 H1]. split; [done|]. intros n Hn.
    rewrite <- (Z.mod_small x (2 ^ 32)) by done. by apply Z.mod_pow2_bits_high.
  - intros [H0 Hb]. split; [done|].
    assert (x = x mod 2 ^ 32) as ->; [|apply Z.mod_pos_bound; lia].
    apply Z.bits_inj'. intros n Hn. destruct (Z.ltb_spec n 32).
    + by rewrite Z.mod_pow2_bits_low by lia.
    + rewrite Z.mod_pow2_bits_high by lia. by apply Hb.
Qed.

Lemma land_is_u32 x y : is_u32 x -> 0 <= y -> is_u32 (x .& y).
Proof.
  rewrite !is_u32_bits. intros [H0 Hb] Hy. split; [by apply Z.land_nonneg; left|].
  intros n Hn. by rewrite Z.land_spec, Hb.
Qed.

Lemma lor_is_u32 x y : is_u32 x -> is_u32 y -> is_u32 (x .| y).
Proof.
  rewrite !is_u32_bits. intros [H0 Hb] [H1 Hc]. split; [by apply Z.lor_nonneg|].
  intros n Hn. by rewrite Z.lor_spec, Hb, Hc.
Qed.

Lemma u32_not_is_u32 x : is_u32 (u32_not x).
Proof. apply u32_range. Qed.

#[export] Hint Resolve land_is_u32 lor_is_u32 u32_not_is_u32 : atm.

(** A test of a single-bit mask reads that bit. *)
Lemma nz_land_bit x k : 0 <= k -> nz (x .& 2 ^ k) = Z.testbit x k.
Proof.
  intros Hk. unfold nz. destruct (Z.testbit x k) eqn:E.
  - apply negb_true_iff, Z.eqb_neq. intros H0.
    assert (Z.testbit (x .& 2 ^ k) k = true) as Hb.
    { rewrite Z.land_spec, E, Z.pow2_bits_eqb by lia. by rewrite Z.eqb_refl. }
    by rewrite H0, Z.bits_0 in Hb.
  - apply negb_false_iff, Z.eqb_eq. apply Z.bits_inj'. intros n Hn.
    rewrite Z.land_spec, Z.bits_0, Z.pow2_bits_eqb by lia.
    destruct (Z.eqb_spec k n) as [->|]; [by rewrite E|]. by rewrite andb_false_r.
Qed.

Lemma land_bit_eq x k : 0 <= k -> (x .& 2 ^ k =? 2 ^ k) = Z.testbit x k.
Proof.
  intros Hk. rewrite <- nz_land_bit by done. unfold nz.
  assert (x .& 2 ^ k = if Z.testbit x k then 2 ^ k else 0) as ->.
  { apply Z.bits_inj'. intros n Hn. rewrite Z.land_spec, Z.pow2_bits_eqb by lia.
    destruct (Z.eqb_spec k n) as [->|Hne].
    - rewrite andb_true_r. destruct (Z.testbit x n) eqn:E; [|by rewrite Z.bits_0].
      by rewrite Z.pow2_bits_eqb, Z.eqb_refl by lia.
    - rewrite andb_false_r. destruct (Z.testbit x k); [|by rewrite Z.bits_0].
      rewrite Z.pow2_bits_eqb by lia. symmetry. by apply Z.eqb_neq. }
  pose proof (Z.pow_pos_nonneg 2 k). destruct (Z.testbit x k).
  - rewrite Z.eqb_refl. symmetry. apply negb_true_iff, Z.eqb_neq. lia.
  - rewrite Z.eqb_refl. apply Z.eqb_neq. lia.
Qed.

#[export] Hint Rewrite Z.land_spec Z.lor_spec Z.lxor_spec Z.lnot_spec Z.bits_0
  Z.pow2_bits_eqb u32_testbit u32_not_testbit using lia : bits.

(** Equality of words, bit by bit. *)
Ltac bitwise :=
  apply Z.bits_inj'; intros ? ?; autorewrite with bits.

(** Case analysis on the boolean conditions of a hypothesis or of the goal. *)
Ltac split_if :=
  match goal with
  | |- context [if ?b then _ else _] => let E := fresh "E" in destruct b eqn:E
  end.
Ltac split_if_in H :=
  match type of H with
  | context [if ?b then _ else _] => let E := fresh "E" in destruct b eqn:E
  end.
Ltac split_match_in H :=
  match type of H with
  | context [match ?b with _ => _ end] => let E := fresh "E" in destruct b eqn:E
  end.

Ltac breflect :=
  repeat match goal with
  | H : _ && _ = true |- _ => apply andb_true_iff in H as [? ?]
  | H : _ || _ = false |- _ => apply orb_false_iff in H as [? ?]
  | H : negb _ = true |- _ => apply negb_true_iff in H
  | H : negb _ = false |- _ => apply negb_false_iff in H
  | H : (_ =? _) = true |- _ => apply Z.eqb_eq in H
  | H : (_ =? _) = false |- _ => apply Z.eqb_neq in H
  | H : (_ <? _) = true |- _ => apply Z.ltb_lt in H
  | H : (_ <? _) = false |- _ => apply Z.ltb_ge in H
  | H : (_ <=? _) = true |- _ => apply Z.leb_le in H
  | H : (_ <=? _) = false |- _ => apply Z.leb_gt in H
  | H : String.eqb _ _ = true |- _ => apply String.eqb_eq in H
  | H : String.eqb _ _ = false |- _ => apply String.eqb_neq in H
  | H : bool_decide _ = true |- _ => apply bool_decide_eq_true in H
  | H : bool_decide _ = false |- _ => apply bool_decide_eq_false in H
  end.

(** ** Vectors: [std::find_if] and the update of the element it finds. *)
Fixpoint find_if {A} (p : A -> bool) (l : list A) : option A :=
  match l with
  | [] => None
  | x :: l' => if p x then Some x else find_if p l'
  end.

Fixpoint update_first {A} (p : A -> bool) (f : A -> A) (l : list A) : list A :=
  match l with
  | [] => []
  | x :: l' => if p x then f x :: l' else x :: update_first p f l'
  end.

(** [list.erase(it)] at the first match. *)
Fixpoint erase_first {A} (p : A -> bool) (l : list A) : list A :=
  match l with
  | [] => []
  | x :: l' => if p x then l' else x :: erase_first p l'
  end.

Lemma find_if_Some {A} (p : A -> bool) l x : find_if p l = Some x -> x ∈ l /\ p x = true.
Proof.
  induction l as [|y l IH]; simpl; [done|].
  destruct (p y) eqn:E.
  - intros [= ->]. split; [left|done].
  - intros H. apply IH in H as [? ?]. split; [by right|done].
Qed.

Lemma find_if_None {A} (p : A -> bool) l :
  find_if p l = None <-> forall x, x ∈ l -> p x = false.
Proof.
  induction l as [|y l IH]; simpl.
  - split; [|done]. intros _ x Hx. by apply not_elem_of_nil in Hx.
  - destruct (p y) eqn:E.
    + split; [done|]. intros H. rewrite (H y) in E; [done|left].
    + rewrite IH. split; intros H x.
      * intros [->|Hx]%elem_of_cons; [done|by apply H].
      * intros Hx. apply H. by right.
Qed.

(** When both predicates select the same elements the update is what is found. *)
Lemma find_if_update_eq {A} (p : A -> bool) (f : A -> A) l x :
  (forall y, p y = true -> p (f y) = true) ->
  find_if p l = Some x -> find_if p (update_first p f l) = Some (f x).
Proof.
  intros Hf. induction l as [|y l IH]; simpl; [done|].
  destruct (p y) eqn:E; simpl.
  - intros [= ->]. by rewrite Hf.
  - rewrite E. exact IH.
Qed.

(** When they are disjoint the update is not seen. *)
Lemma find_if_update_ne {A} (p q : A -> bool) (f : A -> A) l :
  (forall y, p y = true -> q y = false /\ q (f y) = false) ->
  find_if q (update_first p f l) = find_if q l.
Proof.
  intros Hd. induction l as [|y l IH]; simpl; [done|].
  destruct (p y) eqn:E; simpl.
  - destruct (Hd _ E) as [-> ->]. done.
  - destruct (q y); [done|exact IH].
Qed.

Lemma find_if_map {A} (p : A -> bool) (f : A -> A) l :
  (forall x, p (f x) = p x) -> find_if p (map f l) = f <$> find_if p l.
Proof.
  intros Hf. induction l as [|y l IH]; cbn; [done|]. rewrite Hf. by destruct (p y).
Qed.

Lemma find_if_filter {A} (p : A -> bool) (P : A -> Prop) `{!forall x, Decision (P x)} l :
  (forall x, p x = true -> P x) -> find_if p (filter P l) = find_if p l.
Proof.
  intros Hp. induction l as [|y l IH]; [done|]. rewrite filter_cons. cbn.
  destruct (p y) eqn:E.
  - rewrite decide_True by auto. cbn. by rewrite E.
  - destruct (decide (P y)); cbn; [by rewrite E|done].
Qed.

Lemma find_if_filter_none {A} (p : A -> bool) (P : A -> Prop) `{!forall x, Decision (P x)} l :
  (forall x, P x -> p x = false) -> find_if p (filter P l) = None.
Proof. intros Hp. apply find_if_None. intros x [Hx _]%list_elem_of_filter. auto. Qed.

Lemma update_first_map {A B} (g : A -> B) (p : A -> bool) (f : A -> A) l :
  (forall x, g (f x) = g x) -> map g (update_first p f l) = map g l.
Proof.
  intros Hg. induction l as [|y l IH]; simpl; [done|].
  destruct (p y); simpl; [by rewrite Hg|by rewrite IH].
Qed.

Lemma update_first_Forall {A} (P : A -> Prop) (p : A -> bool) (f : A -> A) l :
  (forall x, P x -> P (f x)) -> Forall P l -> Forall P (update_first p f l).
Proof.
  intros Hf. induction 1 as [|y l Hy Hl IH]; simpl; [constructor|].
  destruct (p y); constructor; auto.
Qed.

Lemma update_first_length {A} (p : A -> bool) (f : A -> A) l :
  length (update_first p f l) = length l.
Proof. induction l as [|y l IH]; simpl; [done|]. destruct (p y); simpl; auto. Qed.

Lemma erase_first_sublist {A} (p : A -> bool) l : erase_first p l `sublist_of` l.
Proof.
  induction l as [|y l IH]; simpl; [constructor|].
  destruct (p y); by constructor.
Qed.

Lemma find_if_ext {A} (p q : A -> bool) l :
  (forall x, x ∈ l -> p x = q x) -> find_if p l = find_if q l.
Proof.
  intros H. induction l as [|y l IH]; simpl; [done|].
  rewrite <- (H y) by left. destruct (p y); [done|].
  apply IH. intros x Hx. apply H. by right.
Qed.

(** With distinct keys, [find_if] on the key returns the element carrying it. *)
Lemma find_if_key {A} (k : A -> Z) l x :
  NoDup (map k l) -> x ∈ l -> find_if (fun y => k y =? k x) l = Some x.
Proof.
  induction l as [|y l IH]; simpl; [by intros _ ?%not_elem_of_nil|].
  intros [Hn Hd]%NoDup_cons [->|Hx]%elem_of_cons.
  - by rewrite Z.eqb_refl.
  - destruct (Z.eqb_spec (k y) (k x)) as [E|]; [|by apply IH].
    exfalso. apply Hn. rewrite E. by apply (list_elem_of_fmap_2 k l x).
Qed.

(** ** [std::map]: the entries of a map in the order of its keys. *)
Definition key_le {A} (a b : Z * A) : Prop := a.1 <= b.1.
#[export] Instance key_le_dec {A} : RelDecision (@key_le A).
Proof. intros a b. unfold key_le. apply _. Defined.

Definition map_items {A} (m : gmap Z A) : list (Z * A) := merge_sort key_le (map_to_list m).

Lemma map_items_perm {A} (m : gmap Z A) : map_items m ≡ₚ map_to_list m.
Proof. apply merge_sort_Permutation. Qed.

Lemma elem_of_map_items {A} (m : gmap Z A) k v : (k, v) ∈ map_items m <-> m !! k = Some v.
Proof. rewrite map_items_perm. apply elem_of_map_to_list. Qed.

#[export] Hint Resolve update_first_length erase_first_sublist map_items_perm : atm.

Lemma NoDup_map_sublist {A B} (g : A -> B) (l1 l2 : list A) :
  l1 `sublist_of` l2 -> NoDup (map g l2) -> NoDup (map g l1).
Proof.
  intros Hs Hd. eapply sublist_NoDup; [exact Hd|]. exact (fmap_sublist g l1 l2 Hs).
Qed.

Lemma Forall_sublist {A} (P : A -> Prop) (l1 l2 : list A) :
  Forall P l2 -> l1 `sublist_of` l2 -> Forall P l1.
Proof. rewrite !Forall_forall. intros H Hs x Hx. by eapply H, elem_of_sublist. Qed.

Lemma list_omap_nil {A B} (f : A -> option B) (l : list A) :
  Forall (fun x => f x = None) l -> omap f l = [].
Proof. induction 1 as [|x l Hx _ IH]; cbn; [done|]. by rewrite Hx. Qed.

Lemma omap_ext_elem {A B} (f g : A -> option B) (l : list A) :
  (forall x, x ∈ l -> f x = g x) -> omap f l = omap g l.
Proof.
  induction l as [|x l IH]; intros Hf; cbn; [done|]. rewrite (Hf x) by left.
  rewrite IH; [done|]. intros y Hy. apply Hf. by right.
Qed.

Lemma omap_map {A B C} (f : A -> option B) (g : B -> C) (h : A -> option C) (l : list A) :
  (forall x, h x = g <$> f x) -> omap h l = map g (omap f l).
Proof.
  intros Hh. induction l as [|x l IH]; cbn; [done|]. rewrite Hh, IH. by destruct (f x).
Qed.

(** A partial map that keeps the key keeps the keys distinct. *)
Lemma NoDup_omap_key {A B K} (f : A -> option B) (ka : A -> K) (kb : B -> K) (l : list A) :
  (forall x y, f x = Some y -> kb y = ka x) -> NoDup (map ka l) -> NoDup (map kb (omap f l)).
Proof.
  intros Hk. induction l as [|x l IH]; cbn; [constructor|]. intros [Hn Hd]%NoDup_cons.
  destruct (f x) as [y|] eqn:E; [|auto]. cbn. constructor; [|auto].
  intros (z & Ez & (w & Hw & Ew)%list_elem_of_omap)%list_elem_of_fmap. apply Hn.
  rewrite (Hk _ _ E), (Hk _ _ Ew) in Ez. rewrite Ez. by apply (list_elem_of_fmap_2 ka).
Qed.

Lemma erase_first_absent {A} (p : A -> bool) (l : list A) :
  (forall x y, x ∈ l -> y ∈ l -> p x = true -> p y = true -> x = y) -> NoDup l -> find_if p (erase_first p l) = None.
Proof.
  intros Hu Hn. induction l as [|x l IH]; [done|]. apply NoDup_cons in Hn as [Hx Hn]. cbn. destruct (p x) eqn:P.
  - apply find_if_None. intros y Hy. destruct (p y) eqn:Py; [|done]. destruct Hx.
    rewrite (Hu x y); [done|left|by right|done..].
  - cbn. rewrite P. apply IH; [|done]. intros y z Hy Hz. apply Hu; by right.
Qed.

Lemma find_if_app {A} (p : A -> bool) (l1 l2 : list A) :
  find_if p (l1 ++ l2) = match find_if p l1 with Some x => Some x | None => find_if p l2 end.
Proof. induction l1 as [|x l1 IH]; cbn; [done|]. by destruct (p x). Qed.

Lemma find_if_erase_ne {A} (p q : A -> bool) (l : list A) :
  (forall x, q x = true -> p x = false) -> find_if p (erase_first q l) = find_if p l.
Proof. intros H. induction l as [|x l IH]; cbn; [done|]. destruct (q x) eqn:Q; cbn; [by rewrite H|]. by destruct (p x). Qed.

Lemma NoDup_map_inj {A B} (g : A -> B) (l : list A) x y :
  NoDup (map g l) -> x ∈ l -> y ∈ l -> g x = g y -> x = y.
Proof.
  induction l as [|z l IH]; [by intros _ ?%elem_of_nil|]. cbn. intros [Hz Hn]%NoDup_cons Hx Hy E.
  apply elem_of_cons in Hx as [->|Hx], Hy as [->|Hy]; [done| | |by apply IH].
  - destruct Hz. rewrite E. by apply (list_elem_of_fmap_2 g).
  - destruct Hz. rewrite <- E. by apply (list_elem_of_fmap_2 g).
Qed.

Lemma NoDup_of_map {A B} (g : A -> B) (l : list A) : NoDup (map g l) -> NoDup l.
Proof. apply NoDup_fmap_1. Qed.

Lemma filter_all {A} (P : A -> Prop) `{!forall x, Decision (P x)} (l : list A) :
  Forall P l -> filter P l = l.
Proof.
  induction 1 as [|x l Hx Hl IH]; [done|].
  by rewrite filter_cons_True, IH.
Qed.

Lemma filter_none {A} (P : A -> Prop) `{!forall x, Decision (P x)} (l : list A) :
  (forall x, x ∈ l -> ~ P x) -> filter P l = [].
Proof.
  induction l as [|x l IH]; intros Hl; [done|]. rewrite filter_cons_False by (apply Hl; left). apply IH.
  intros y Hy. apply Hl. by right.
Qed.

(** ** Decimal text: [std::to_string] and base-10 [std::from_chars]. *)
Definition minus_char : Ascii.ascii := Ascii.ascii_of_N 45.

Definition digit_char (d : N) : Ascii.ascii := Ascii.ascii_of_N (48 + d).

Definition char_digit (c : Ascii.ascii) : option N :=
  let k := Ascii.N_of_ascii c in
  if (48 <=? k)%N && (k <=? 57)%N then Some (k - 48)%N else None.

(** [print_digits fuel n acc]: the decimal digits of [n] before [acc]; [fuel]
    bounds the number of digits ([N.size n + 1] is always enough). *)
Fixpoint print_digits (fuel : nat) (n : N) (acc : string) : string :=
  match fuel with
  | O => acc
  | S fuel' =>
      let acc' := String (digit_char (n mod 10)) acc in
      if (n <? 10)%N then acc' else print_digits fuel' (n / 10) acc'
  end.

Definition print_N (n : N) : string := print_digits (S (N.to_nat (N.size n))) n EmptyString.

Definition to_string (z : Z) : string :=
  if z <? 0 then String minus_char (print_N (Z.to_N (- z))) else print_N (Z.to_N z).

(** The value of a string of digits read after the value [acc]; [None] when a
    character is not a digit. *)
Fixpoint read_digits (acc : N) (s : string) : option N :=
  match s with
  | EmptyString => Some acc
  | String c s' =>
      match char_digit c with
      | Some d => read_digits (acc * 10 + d) s'
      | None => None
      end
  end.

(** [std::from_chars] on the whole string: an optional minus sign when the
    target type is signed, then digits, with the result in range. *)
Definition from_chars (signed : bool) (lo hi : Z) (s : string) : option Z :=
  let check (z : Z) := if (lo <=? z) && (z <=? hi) then Some z else None in
  match s with
  | EmptyString => None
  | String c s' =>
      if signed && Ascii.eqb c minus_char then
        match s' with
        | EmptyString => None
        | _ => match read_digits 0 s' with Some n => check (- Z.of_N n) | None => None end
        end
      else match read_digits 0 s with Some n => check (Z.of_N n) | None => None end
  end.

Lemma char_digit_char d : (d < 10)%N -> char_digit (digit_char d) = Some d.
Proof.
  intros H. assert (d = 0 \/ d = 1 \/ d = 2 \/ d = 3 \/ d = 4 \/ d = 5 \/ d = 6 \/ d = 7
    \/ d = 8 \/ d = 9)%N as Hd by lia.
  by repeat (destruct Hd as [->|Hd]; [done|]); subst.
Qed.

Lemma read_print_digits fuel : forall n acc,
  (n < 2 ^ N.of_nat fuel)%N -> (0 < fuel)%nat ->
  read_digits 0 (print_digits fuel n acc) = read_digits n acc.
Proof.
  induction fuel as [|fuel IH]; [lia|]. intros n acc Hn _. cbn [print_digits].
  assert (char_digit (digit_char (n mod 10)) = Some (n mod 10))%N as Hd
    by (apply char_digit_char, N.mod_lt; lia).
  destruct (N.ltb_spec n 10).
  - cbn [read_digits]. rewrite Hd. f_equal. rewrite N.mod_small by lia. lia.
  - assert (0 < fuel)%nat as Hf.
    { destruct fuel; [|lia]. cbn in Hn. lia. }
    rewrite IH; [|clear IH|done].
    + cbn [read_digits]. rewrite Hd. f_equal. pose proof (N.div_mod n 10). lia.
    + rewrite Nat2N.inj_succ, N.pow_succ_r' in Hn.
      apply N.Div0.div_lt_upper_bound. lia.
Qed.

Lemma read_print_N n : read_digits 0 (print_N n) = Some n.
Proof.
  unfold print_N. rewrite read_print_digits; [done| |lia].
  rewrite Nat2N.inj_succ, N2Nat.id, N.pow_succ_r'.
  pose proof (N.size_gt n). lia.
Qed.

Lemma print_digits_cons fuel : forall n acc,
  (0 < fuel)%nat -> exists d s, print_digits fuel n acc = String (digit_char d) s /\ (d < 10)%N.
Proof.
  induction fuel as [|fuel IH]; [lia|]. intros n acc _. cbn [print_digits].
  destruct (n <? 10)%N.
  - eexists _, _. split; [done|]. apply N.mod_lt. lia.
  - destruct fuel; [|apply IH; lia]. eexists _, _. split; [done|]. apply N.mod_lt. lia.
Qed.

(** A printed number starts with a digit. *)
Lemma print_N_cons n : exists d s, print_N n = String (digit_char d) s /\ (d < 10)%N.
Proof. apply print_digits_cons. lia. Qed.

Lemma digit_char_range d : (d < 10)%N -> (48 <= Ascii.N_of_ascii (digit_char d) <= 57)%N.
Proof. intros. unfold digit_char. rewrite Ascii.N_ascii_embedding; lia. Qed.

Lemma digit_char_ne d c :
  (d < 10)%N -> (Ascii.N_of_ascii c < 48)%N -> Ascii.eqb (digit_char d) c = false.
Proof.
  intros Hd Hc. apply Ascii.eqb_neq. intros E. pose proof (digit_char_range d Hd) as H.
  rewrite E in H. lia.
Qed.

(** Reading back what [std::to_string] printed. *)
Lemma from_chars_to_string signed lo hi z :
  lo <= z <= hi -> (signed = true \/ 0 <= z) ->
  from_chars signed lo hi (to_string z) = Some z.
Proof.
  intros Hr Hs. unfold to_string, from_chars. destruct (Z.ltb_spec z 0).
  - destruct signed; [|lia]. rewrite Ascii.eqb_refl. cbn [andb].
    destruct (print_N_cons (Z.to_N (- z))) as (d & s & E & Hd).
    pose proof (read_print_N (Z.to_N (- z))) as R. rewrite E in *. rewrite R.
    rewrite Z2N.id by lia. rewrite Z.opp_involutive.
    destruct (Z.leb_spec lo z), (Z.leb_spec z hi); [done|lia..].
  - destruct (print_N_cons (Z.to_N z)) as (d & s & E & Hd).
    pose proof (read_print_N (Z.to_N z)) as R. rewrite E in *.
    rewrite (digit_char_ne d minus_char) by done. rewrite andb_false_r, R.
    rewrite Z2N.id by lia.
    destruct (Z.leb_spec lo z), (Z.leb_spec z hi); [done|lia..].
Qed.
