(* ===== verification/AccessTokenTypes.v ===== *)
(** * Shared types and constants

    The enumerations, flags and error numbers of
    interfaces/innerkits/accesstoken/include (access_token.h,
    access_token_basic_type.h, access_token_error.h), the value classes of
    hap_token_info.h and permission_status.h, and the build-time switches.
    Unscoped C++ enumerations take part in arithmetic and are [Z] constants;
    scoped ones ([enum class]) are inductive types of the file that uses them. *)

From stdpp Require Import base gmap list strings.
From S2P Require Import Prelude.
#[local] Open Scope Z_scope.
#[local] Open Scope cxx_scope.

(** ** Build switches: the [#ifdef]s the modelled sources test. *)
Class BuildConfig := {
  SUPPORT_SANDBOX_APP : bool;
  SPM_DATA_ENABLE : bool;
  SUPPORT_MANAGE_USER_POLICY : bool;
  ACCESS_TOKEN_SUPPORT_SUBPROFILE : bool;
  IS_SUPPORT_HAP_RUNNING : bool;
  X86_EMULATOR_MODE : bool;
  TOKEN_SYNC_ENABLE : bool;
}.

(** A build with every feature, as for a phone. *)
Definition full_config : BuildConfig := {|
  SUPPORT_SANDBOX_APP := true;
  SPM_DATA_ENABLE := true;
  SUPPORT_MANAGE_USER_POLICY := true;
  ACCESS_TOKEN_SUPPORT_SUBPROFILE := true;
  IS_SUPPORT_HAP_RUNNING := true;
  X86_EMULATOR_MODE := false;
  TOKEN_SYNC_ENABLE := true;
|}.

(** ** Return codes and error numbers. *)
Definition RET_FAILED : Z := -1.
Definition RET_SUCCESS : Z := 0.
Definition ERR_OK : Z := 0.
Definition ERR_PERMISSION_DENIED : Z := 201.
Definition ERR_PARAM_INVALID : Z := 12100001.
Definition ERR_TOKEN_INVALID : Z := 12100002.
Definition ERR_TOKENID_NOT_EXIST : Z := 12100004.
Definition ERR_TOKENID_HAS_EXISTED : Z := 12100005.
Definition ERR_TOKENID_CREATE_FAILED : Z := 12100006.
Definition ERR_PERMISSION_NOT_EXIST : Z := 12100007.
Definition ERR_IDENTITY_CHECK_FAILED : Z := 12100011.
Definition ERR_SERVICE_ABNORMAL : Z := 12100012.
Definition ERR_OVERSIZE : Z := 12100016.
Definition ERR_DATABASE_OPERATE_FAILED : Z := 12100022.
Definition ERR_LOAD_SO_FAILED : Z := 12100027.
Definition ERR_PARSE_RAW_DATA_FAILED : Z := 12100030.
Definition ERR_PERMISSION_WITHOUT_VALUE : Z := 12100031.
Definition ERR_PERMISSION_RESTRICTED : Z := 12100032.
Definition ERR_PERMISSION_REQUEST_TOGGLE_SUBPROFILE_NOT_EXIST : Z := 12100056.
Definition ERR_PERMISSION_REQUEST_TOGGLE_STORAGE_MODE_CONFLICT : Z := 12100057.
Definition ERR_PERMISSION_REQUEST_TOGGLE_LEGACY_QUERY_CONFLICT : Z := 12100058.
Definition ERR_PERM_POLICY_ALREADY_SET_BY_OTHER : Z := 12100100.
Definition ERR_PERM_POLICY_NOT_SET : Z := 12100101.
Definition ERR_TOKENID_ALREADY_IN_POLICY_WHITELIST : Z := 12100102.
Definition ERR_TOKENID_NOT_IN_POLICY_WHITELIST : Z := 12100103.
Definition ERR_TOKENID_NOT_IN_POLICY_USERLIST : Z := 12100104.
Definition ERR_PERM_POLICY_PERSISTENCE_FLAG_NOT_MATCH : Z := 12100105.
Definition ERR_IOCTL_UNSUPPORT : Z := 12100301.
Definition ERR_KERNEL_COMMON_FAILED : Z := 12100300.
Definition ERR_CAPABILITY_NOT_SUPPORT : Z := 12110000.

(** ** Tokens. *)
Definition DEFAULT_TOKEN_VERSION : Z := 1.
Definition INVALID_TOKENID : Z := 0.
Definition TOKEN_INVALID : Z := -1.
Definition TOKEN_HAP : Z := 0.
Definition TOKEN_NATIVE : Z := 1.
Definition TOKEN_SHELL : Z := 2.

(** ** Permission states, flags and modes. *)
Definition PERMISSION_DENIED : Z := -1.
Definition PERMISSION_GRANTED : Z := 0.

Definition PERMISSION_DEFAULT_FLAG : Z := 0.
Definition PERMISSION_USER_SET : Z := 2 ^ 0.
Definition PERMISSION_USER_FIXED : Z := 2 ^ 1.
Definition PERMISSION_SYSTEM_FIXED : Z := 2 ^ 2.
Definition PERMISSION_PRE_AUTHORIZED_CANCELABLE : Z := 2 ^ 3.
Definition PERMISSION_COMPONENT_SET : Z := 2 ^ 4.
Definition PERMISSION_FIXED_FOR_SECURITY_POLICY : Z := 2 ^ 5.
Definition PERMISSION_ALLOW_THIS_TIME : Z := 2 ^ 6.
Definition PERMISSION_FIXED_BY_ADMIN_POLICY : Z := 2 ^ 7.
Definition PERMISSION_ADMIN_POLICIES_CANCEL : Z := 2 ^ 8.
Definition PERMISSION_RESTRICTED_BY_ADMIN : Z := 2 ^ 9.

Definition APL_INVALID : Z := 0.
Definition APL_NORMAL : Z := 1.
Definition APL_SYSTEM_BASIC : Z := 2.
Definition APL_SYSTEM_CORE : Z := 3.

Definition AVAILABLE_NORMAL : Z := 0.
Definition AVAILABLE_SYSTEM : Z := 1.
Definition AVAILABLE_MDM : Z := 2.
Definition AVAILABLE_SYSTEM_AND_MDM : Z := 3.
Definition AVAILABLE_SERVICE : Z := 4.
Definition AVAILABLE_ENTERPRISE_NORMAL : Z := 5.

Definition CLOSED : Z := 0.
Definition OPEN : Z := 1.

Definition USER_GRANT : Z := 0.
Definition SYSTEM_GRANT : Z := 1.
Definition MANUAL_SETTINGS : Z := 2.

Definition USER_GRANTED_PERM : Z := 0.
Definition OPERABLE_PERM : Z := 1.

Definition SETTING_OPER : Z := -1.
Definition PASS_OPER : Z := 0.
Definition DYNAMIC_OPER : Z := 1.
Definition INVALID_OPER : Z := 2.
Definition FORBIDDEN_OPER : Z := 3.

Definition REQ_SUCCESS : Z := 0.
Definition PERM_INVALID : Z := 1.
Definition PERM_NOT_DECLEARED : Z := 2.
Definition CONDITIONS_NOT_MET : Z := 3.
Definition PRIVACY_STATEMENT_NOT_AGREED : Z := 4.
Definition UNABLE_POP_UP : Z := 5.
Definition MANUAL_SETTING_PERM : Z := 6.

Definition DLP_COMMON : Z := 0.
Definition DLP_READ : Z := 1.
Definition DLP_FULL_CONTROL : Z := 2.
Definition DLP_READ_PERM : Z := 3.
Definition DLP_FULL_PERM : Z := 4.

Definition ADD : Z := 0.
Definition DELETE : Z := 1.

Definition PERMISSION_EDM_RULE : Z := 0.
Definition PERMISSION_ACL_RULE : Z := 1.
Definition PERMISSION_ENTERPRISE_NORMAL_RULE : Z := 2.

Definition ACL_IGNORE_CHECK : Z := 1.

(** [enum class PermUsedTypeEnum]. *)
Inductive PermUsedTypeEnum := INVALID_USED_TYPE | NORMAL_TYPE | PICKER_TYPE | SEC_COMPONENT_TYPE.
#[export] Instance PermUsedTypeEnum_eq_dec : EqDecision PermUsedTypeEnum.
Proof. solve_decision. Defined.

(** ** Value classes. *)

(** [PermissionStatus]. *)
Record PermissionStatus := mkPermissionStatus {
  ps_tokenID : Z;
  ps_permissionName : string;
  ps_feature : string;
  ps_grantStatus : Z;
  ps_grantFlag : Z;
  ps_timestamp : Z;
}.

(** [PermissionWithValue]. *)
Record PermissionWithValue := mkPermissionWithValue {
  pwv_permissionName : string;
  pwv_value : string;
}.

(** [PreAuthorizationInfo]. *)
Record PreAuthorizationInfo := mkPreAuthorizationInfo {
  pre_permissionName : string;
  pre_userCancelable : bool;
}.

(** [UserPolicy] and [UserPermissionPolicy]. *)
Record UserPolicy := mkUserPolicy { up_userId : Z; up_isRestricted : bool }.
Record UserPermissionPolicy := mkUserPermissionPolicy {
  upp_permissionName : string;
  upp_userPolicyList : list UserPolicy;
  upp_isPersist : bool;
}.

Definition set_ps_status (s : Z) (p : PermissionStatus) : PermissionStatus :=
  mkPermissionStatus (ps_tokenID p) (ps_permissionName p) (ps_feature p) s
    (ps_grantFlag p) (ps_timestamp p).
Definition set_ps_flag (f : Z) (p : PermissionStatus) : PermissionStatus :=
  mkPermissionStatus (ps_tokenID p) (ps_permissionName p) (ps_feature p)
    (ps_grantStatus p) f (ps_timestamp p).
Definition set_ps_timestamp (t : Z) (p : PermissionStatus) : PermissionStatus :=
  mkPermissionStatus (ps_tokenID p) (ps_permissionName p) (ps_feature p)
    (ps_grantStatus p) (ps_grantFlag p) t.

#[export] Instance PermissionStatus_eq_dec : EqDecision PermissionStatus.
Proof. solve_decision. Defined.
#[export] Instance PermissionWithValue_eq_dec : EqDecision PermissionWithValue.
Proof. solve_decision. Defined.
