(* ===== verification/TokenId.v ===== *)
(** * Token identifiers

    The bit layout of an [AccessTokenID] (struct [AccessTokenIDInner] of
    access_token_basic_type.h, read and written with memcpy/reinterpret_cast on a
    little-endian ABI that allocates bit-fields from the least significant bit)
    and the attribute readers of frameworks/common/src/tokenid_attributes.cpp. *)

From stdpp Require Import base gmap list strings.
From S2P Require Import Prelude AccessTokenTypes.
#[local] Open Scope Z_scope.
#[local] Open Scope cxx_scope.

(** The bit-fields, in declaration order (least significant first). *)
Record AccessTokenIDInner := mkAccessTokenIDInner {
  tokenUniqueID : Z; (* 20 bits *)
  toolFlag : Z;      (* 1 *)
  res : Z;           (* 2 *)
  type_ext : Z;      (* 1 *)
  cloneFlag : Z;     (* 1 *)
  renderFlag : Z;    (* 1 *)
  dlpFlag : Z;       (* 1 *)
  type : Z;          (* 2 *)
  version : Z;       (* 3 *)
}.

(** A [w]-bit field at bit [s] of a word. *)
Definition field (s w id : Z) : Z := (id / 2 ^ s) mod 2 ^ w.

(** [memcpy] / [reinterpret_cast] from the word to the struct. *)
Definition inner_of_id (id : Z) : AccessTokenIDInner :=
  mkAccessTokenIDInner (field 0 20 id) (field 20 1 id) (field 21 2 id) (field 23 1 id)
    (field 24 1 id) (field 25 1 id) (field 26 1 id) (field 27 2 id) (field 29 3 id).

(** [memcpy] from the struct to the word; storing to a [w]-bit field keeps the
    value modulo [2 ^ w]. *)
Definition id_of_inner (x : AccessTokenIDInner) : Z :=
  tokenUniqueID x mod 2 ^ 20 + toolFlag x mod 2 * 2 ^ 20 + res x mod 2 ^ 2 * 2 ^ 21 +
  type_ext x mod 2 * 2 ^ 23 + cloneFlag x mod 2 * 2 ^ 24 + renderFlag x mod 2 * 2 ^ 25 +
  dlpFlag x mod 2 * 2 ^ 26 + type x mod 2 ^ 2 * 2 ^ 27 + version x mod 2 ^ 3 * 2 ^ 29.

(** Every field holds a value of its width. *)
Definition inner_wf (x : AccessTokenIDInner) : Prop :=
  0 <= tokenUniqueID x < 2 ^ 20 /\ 0 <= toolFlag x < 2 /\ 0 <= res x < 2 ^ 2 /\
  0 <= type_ext x < 2 /\ 0 <= cloneFlag x < 2 /\ 0 <= renderFlag x < 2 /\
  0 <= dlpFlag x < 2 /\ 0 <= type x < 2 ^ 2 /\ 0 <= version x < 2 ^ 3.

(** ** TokenIDAttributes. *)
Definition GetTokenIdTypeEnum (id : Z) : Z := type (inner_of_id id).
Definition IsBinTokenId (id : Z) : bool := type_ext (inner_of_id id) =? 1.
Definition IsToolTokenId (id : Z) : bool := toolFlag (inner_of_id id) =? 1.
Definition GetTokenIdDlpFlag (id : Z) : Z := dlpFlag (inner_of_id id).
Definition GetTokenIdCloneFlag (id : Z) : Z := cloneFlag (inner_of_id id).

Definition TOKEN_ID_LOW_BITS : Z := 32.
Definition SYSTEM_APP_ATTR_INDEX : Z := 0.
Definition DEBUG_APP_ATTR_INDEX : Z := 3.
Definition GetFullTokenAttrMask (attrIndex : Z) : Z := u64 (1 .<< (TOKEN_ID_LOW_BITS + attrIndex)).
Definition GetTokenAttrMask (attrIndex : Z) : Z := u32 (1 .<< attrIndex).
Definition SYSTEM_APP_MASK : Z := GetFullTokenAttrMask SYSTEM_APP_ATTR_INDEX.
Definition DEBUG_APP_MASK : Z := GetFullTokenAttrMask DEBUG_APP_ATTR_INDEX.
Definition DEBUG_APP_ATTR_MASK : Z := GetTokenAttrMask DEBUG_APP_ATTR_INDEX.

Definition IsDebugApp (fullTokenId : Z) : bool := fullTokenId .& DEBUG_APP_MASK =? DEBUG_APP_MASK.
Definition IsDebugAppAttr (tokenAttr : Z) : bool :=
  u32 tokenAttr .& DEBUG_APP_ATTR_MASK =? DEBUG_APP_ATTR_MASK.
Definition IsSystemApp (id : Z) : bool := id .& SYSTEM_APP_MASK =? SYSTEM_APP_MASK.

(** The union [AccessTokenIDEx]: the token id in the low word, its attributes in
    the high word. *)
Definition tokenIDEx (tokenID tokenAttr : Z) : Z := tokenAttr * 2 ^ 32 + tokenID.

(** ** Lemmas. *)
Lemma field_range s w id : 0 <= w -> 0 <= field s w id < 2 ^ w.
Proof. intros. apply Z.mod_pos_bound. by apply Z.pow_pos_nonneg. Qed.

Lemma inner_of_id_wf id : inner_wf (inner_of_id id).
Proof. repeat split; (apply Z.mod_pos_bound || apply field_range); lia. Qed.
#[export] Hint Resolve inner_of_id_wf : atm.

(** Peel the lowest [w] bits off a word. *)
Lemma field_peel id s w s' :
  0 <= s -> 0 <= w -> s' = s + w ->
  id / 2 ^ s = field s w id + 2 ^ w * (id / 2 ^ s').
Proof.
  intros Hs Hw ->. unfold field. rewrite Z.pow_add_r by done.
  assert (0 < 2 ^ s) by (by apply Z.pow_pos_nonneg).
  assert (0 < 2 ^ w) by (by apply Z.pow_pos_nonneg).
  rewrite <- Z.div_div by lia. pose proof (Z.div_mod (id / 2 ^ s) (2 ^ w)). lia.
Qed.

Lemma id_of_inner_of_id id : is_u32 id -> id_of_inner (inner_of_id id) = id.
Proof.
  intros [Hl Hh]. unfold id_of_inner, inner_of_id; cbn [tokenUniqueID toolFlag res
    type_ext cloneFlag renderFlag dlpFlag type version].
  rewrite !Z.mod_small by (apply field_range; lia).
  assert (id = id / 2 ^ 0) as E by (by rewrite Z.div_1_r).
  pose proof (field_peel id 0 20 20 ltac:(lia) ltac:(lia) eq_refl) as P0;
  pose proof (field_peel id 20 1 21 ltac:(lia) ltac:(lia) eq_refl) as P1;
  pose proof (field_peel id 21 2 23 ltac:(lia) ltac:(lia) eq_refl) as P2;
  pose proof (field_peel id 23 1 24 ltac:(lia) ltac:(lia) eq_refl) as P3;
  pose proof (field_peel id 24 1 25 ltac:(lia) ltac:(lia) eq_refl) as P4;
  pose proof (field_peel id 25 1 26 ltac:(lia) ltac:(lia) eq_refl) as P5;
  pose proof (field_peel id 26 1 27 ltac:(lia) ltac:(lia) eq_refl) as P6;
  pose proof (field_peel id 27 2 29 ltac:(lia) ltac:(lia) eq_refl) as P7;
  pose proof (field_peel id 29 3 32 ltac:(lia) ltac:(lia) eq_refl) as P8.
  assert (id / 2 ^ 32 = 0) as P9 by (apply Z.div_small; lia).
  rewrite P9 in P8. rewrite E at 10. rewrite P0, P1, P2, P3, P4, P5, P6, P7, P8.
  clear. lia.
Qed.

Lemma id_of_inner_u32 x : is_u32 (id_of_inner x).
Proof.
  unfold id_of_inner, is_u32.
  pose proof (Z.mod_pos_bound (tokenUniqueID x) (2 ^ 20)).
  pose proof (Z.mod_pos_bound (toolFlag x) 2).
  pose proof (Z.mod_pos_bound (res x) (2 ^ 2)).
  pose proof (Z.mod_pos_bound (type_ext x) 2).
  pose proof (Z.mod_pos_bound (cloneFlag x) 2).
  pose proof (Z.mod_pos_bound (renderFlag x) 2).
  pose proof (Z.mod_pos_bound (dlpFlag x) 2).
  pose proof (Z.mod_pos_bound (type x) (2 ^ 2)).
  pose proof (Z.mod_pos_bound (version x) (2 ^ 3)). lia.
Qed.

(** One field of a sum [low + v * 2 ^ s + high * 2 ^ (s + w)]. *)
Lemma field_of_sum s w low v high :
  0 <= s -> 0 <= w -> 0 <= low < 2 ^ s -> 0 <= v < 2 ^ w ->
  field s w (low + v * 2 ^ s + high * 2 ^ (s + w)) = v.
Proof.
  intros Hs Hw Hl Hv. unfold field. rewrite Z.pow_add_r by done.
  assert (0 < 2 ^ s) by (by apply Z.pow_pos_nonneg).
  replace (low + v * 2 ^ s + high * (2 ^ s * 2 ^ w))
    with (low + (v + high * 2 ^ w) * 2 ^ s) by lia.
  rewrite Z.div_add, (Z.div_small low) by lia.
  rewrite Z.add_0_l, Z.mod_add by lia. by apply Z.mod_small.
Qed.

Lemma inner_of_id_of_inner x : inner_wf x -> inner_of_id (id_of_inner x) = x.
Proof.
  destruct x as [a b c d e f g h k]. unfold inner_wf, id_of_inner, inner_of_id.
  cbn [tokenUniqueID toolFlag res type_ext cloneFlag renderFlag dlpFlag type version].
  intros (?&?&?&?&?&?&?&?&?). rewrite !Z.mod_small by lia.
  f_equal.
  - etrans; [|apply (field_of_sum 0 20 0 a
      (b + c * 2 + d * 2^3 + e * 2^4 + f * 2^5 + g * 2^6 + h * 2^7 + k * 2^9)); lia]. f_equal; lia.
  - etrans; [|apply (field_of_sum 20 1 a b
      (c + d * 2^2 + e * 2^3 + f * 2^4 + g * 2^5 + h * 2^6 + k * 2^8)); lia]. f_equal; lia.
  - etrans; [|apply (field_of_sum 21 2 (a + b * 2^20) c
      (d + e * 2 + f * 2^2 + g * 2^3 + h * 2^4 + k * 2^6)); lia]. f_equal; lia.
  - etrans; [|apply (field_of_sum 23 1 (a + b * 2^20 + c * 2^21) d
      (e + f * 2 + g * 2^2 + h * 2^3 + k * 2^5)); lia]. f_equal; lia.
  - etrans; [|apply (field_of_sum 24 1 (a + b * 2^20 + c * 2^21 + d * 2^23) e
      (f + g * 2 + h * 2^2 + k * 2^4)); lia]. f_equal; lia.
  - etrans; [|apply (field_of_sum 25 1 (a + b * 2^20 + c * 2^21 + d * 2^23 + e * 2^24) f
      (g + h * 2 + k * 2^3)); lia]. f_equal; lia.
  - etrans; [|apply (field_of_sum 26 1 (a + b * 2^20 + c * 2^21 + d * 2^23 + e * 2^24 + f * 2^25) g
      (h + k * 2^2)); lia]. f_equal; lia.
  - etrans; [|apply (field_of_sum 27 2 (a + b * 2^20 + c * 2^21 + d * 2^23 + e * 2^24 + f * 2^25
      + g * 2^26) h k); lia]. f_equal; lia.
  - etrans; [|apply (field_of_sum 29 3 (a + b * 2^20 + c * 2^21 + d * 2^23 + e * 2^24 + f * 2^25
      + g * 2^26 + h * 2^27) k 0); lia]. f_equal; lia.
Qed.

#[export] Hint Resolve id_of_inner_u32 : atm.
#[export] Hint Rewrite id_of_inner_of_id inner_of_id_of_inner using (eauto with atm) : atm.
