(* ===== verification/Database.v ===== *)
(** * The database layer

    [GenericValues] and [VariantValue] (services/common/database), the translation
    to and from relational values (access_token_db_util.cpp) and [AccessTokenDb]
    (access_token_db.cpp), the layer every manager persists through.  The
    relational store below it (NativeRdb) is not part of the repository: it is the
    parameter [RdbStore], with what the code relies on as [RdbStoreLaws].
    [AtmDb] is the interface the managers are verified against; the instance
    [AccessTokenDb_AtmDb] discharges it for [AccessTokenDb] over any store that
    satisfies the laws. *)

From stdpp Require Import base gmap list strings.
From S2P Require Import Prelude AccessTokenTypes.
#[local] Open Scope string_scope.
#[local] Open Scope list_scope.
#[local] Open Scope Z_scope.

(** ** VariantValue and GenericValues. *)
Inductive VariantValue :=
  | TYPE_NULL
  | TYPE_INT (v : Z)
  | TYPE_INT64 (v : Z)
  | TYPE_STRING (s : string)
  | TYPE_BLOB (b : list Z).

Definition DEFAULT_VALUE : Z := -1.

Definition variant_GetInt (v : VariantValue) : Z :=
  match v with TYPE_INT z => z | TYPE_INT64 z => i32 z | _ => DEFAULT_VALUE end.
Definition variant_GetInt64 (v : VariantValue) : Z :=
  match v with TYPE_INT64 z => z | _ => DEFAULT_VALUE end.
Definition variant_GetString (v : VariantValue) : string :=
  match v with TYPE_STRING s => s | _ => "" end.
Definition variant_GetBlob (v : VariantValue) : list Z :=
  match v with TYPE_BLOB b => b | _ => [] end.

Abbreviation GenericValues := (gmap string VariantValue).

(** [map_.emplace]: a key already present keeps its value. *)
Definition Put (key : string) (value : VariantValue) (m : GenericValues) : GenericValues :=
  match m !! key with Some _ => m | None => <[key := value]> m end.
Definition GetInt (key : string) (m : GenericValues) : Z :=
  match m !! key with Some v => variant_GetInt v | None => DEFAULT_VALUE end.
Definition GetInt64 (key : string) (m : GenericValues) : Z :=
  match m !! key with Some v => variant_GetInt64 v | None => DEFAULT_VALUE end.
Definition GetString (key : string) (m : GenericValues) : string :=
  match m !! key with Some v => variant_GetString v | None => "" end.
Definition Remove (key : string) (m : GenericValues) : GenericValues := delete key m.

(** ** Field names (TokenFiledConst). *)
Definition FIELD_TOKEN_ID := "token_id".
Definition FIELD_USER_ID := "user_id".
Definition FIELD_BUNDLE_NAME := "bundle_name".
Definition FIELD_GRANT_MODE := "grant_mode".
Definition FIELD_AVAILABLE_LEVEL := "available_level".
Definition FIELD_PROVISION_ENABLE := "provision_enable".
Definition FIELD_DISTRIBUTED_SCENE_ENABLE := "distributed_scene_enable".
Definition FIELD_LABEL := "label".
Definition FIELD_LABEL_ID := "label_id".
Definition FIELD_DESCRIPTION := "description".
Definition FIELD_DESCRIPTION_ID := "description_id".
Definition FIELD_AVAILABLE_TYPE := "available_type".
Definition FIELD_KERNEL_EFFECT := "kernel_effect".
Definition FIELD_HAS_VALUE := "has_value".
Definition FIELD_DEVICE_ID := "device_id".
Definition FIELD_PERMISSION_NAME := "permission_name".
Definition FIELD_GRANT_IS_GENERAL := "is_general".
Definition FIELD_GRANT_STATE := "grant_state".
Definition FIELD_GRANT_FLAG := "grant_flag".
Definition FIELD_TIMESTAMP := "timestamp".
Definition FIELD_REQUEST_TOGGLE_STATUS := "status".
Definition FIELD_SUB_PROFILE_ID := "sub_profile_id".
Definition FIELD_VALUE := "value".
Definition FIELD_ACL := "acl".
Definition FIELD_NAME := "name".
Definition FIELD_APP_DISTRIBUTION_TYPE := "app_distribution_type".
Definition FIELD_CONTROLLER_TOKENID := "controller_tokenid".
Definition FIELD_RESTRICTED_USER := "restricted_user".
Definition FIELD_WHITELIST := "whitelist".
Definition FIELD_API_VERSION := "api_version".
Definition FIELD_INST_INDEX := "inst_index".
Definition FIELD_DLP_TYPE := "dlp_type".
Definition FIELD_TOKEN_VERSION := "token_version".
Definition FIELD_TOKEN_ATTR := "token_attr".
Definition FIELD_FORBID_PERM_DIALOG := "perm_dialog_cap_state".
Definition FIELD_IS_SIDELOAD := "is_sideload".
Definition FIELD_UID := "uid".
Definition FIELD_RESERVED := "reserved".
Definition FIELD_MIGRATED := "migrated".
Definition FIELD_APP_ID := "app_id".
Definition FIELD_APL := "apl".

(** ** Tables and statements. *)
Inductive AtmDataType :=
  | ACCESSTOKEN_HAP_TOKEN_INFO
  | ACCESSTOKEN_NATIVE_INFO
  | ACCESSTOKEN_PERMISSION_DEF
  | ACCESSTOKEN_PERMISSION_STATE
  | ACCESSTOKEN_PERMISSION_REQUEST_TOGGLE_STATUS
  | ACCESSTOKEN_PERMISSION_EXTEND_VALUE
  | ACCESSTOKEN_HAP_UNDEFINE_INFO
  | ACCESSTOKEN_SYSTEM_CONFIG
  | ACCESSTOKEN_USER_POLICY
  | ACCESSTOKEN_HAP_PACKAGE_INFO.
#[export] Instance AtmDataType_eq_dec : EqDecision AtmDataType.
Proof. solve_decision. Defined.

Record DelInfo := mkDelInfo { delType : AtmDataType; delValue : GenericValues }.
Record AddInfo := mkAddInfo { addType : AtmDataType; addValues : list GenericValues }.

Definition GetTableNameByType (t : AtmDataType) : string :=
  match t with
  | ACCESSTOKEN_HAP_TOKEN_INFO => "hap_token_info_table"
  | ACCESSTOKEN_NATIVE_INFO => "native_token_info_table"
  | ACCESSTOKEN_PERMISSION_DEF => "permission_definition_table"
  | ACCESSTOKEN_PERMISSION_STATE => "permission_state_table"
  | ACCESSTOKEN_PERMISSION_REQUEST_TOGGLE_STATUS => "permission_request_toggle_status_table"
  | ACCESSTOKEN_PERMISSION_EXTEND_VALUE => "permission_extend_value_table"
  | ACCESSTOKEN_HAP_UNDEFINE_INFO => "hap_undefine_info_table"
  | ACCESSTOKEN_SYSTEM_CONFIG => "system_config_table"
  | ACCESSTOKEN_USER_POLICY => "user_policy_table"
  | ACCESSTOKEN_HAP_PACKAGE_INFO => "hap_info_table"
  end.

(** [NativeRdb::ValueObject]. *)
Inductive RdbValue := VInt (z : Z) | VString (s : string) | VBlob (b : list Z).
#[export] Instance RdbValue_eq_dec : EqDecision RdbValue.
Proof. solve_decision. Defined.

Abbreviation Row := (gmap string RdbValue).
(** A conjunction of [EqualTo] tests. *)
Abbreviation Predicates := (list (string * RdbValue)).

Definition g_StringTypeColumns : list string :=
  ["description"; "permission_name"; "device_id"; "bundle_name"; "app_id";
   "process_name"; "dcap"; "native_acls"; "label"; "value"; "name"; "app_distribution_type";
   "restricted_user"; "whitelist"; "module_name"; "path"; "hap_path"].

Definition IsColumnStringType (column : string) : bool := bool_decide (column ∈ g_StringTypeColumns).

(** One column of [ToRdbValueBucket]. *)
Definition ToRdbValue (column : string) (data : VariantValue) : RdbValue :=
  match data with
  | TYPE_BLOB b => VBlob b
  | TYPE_STRING s => VString s
  | _ =>
      if IsColumnStringType column then VString (variant_GetString data)
      else match data with
           | TYPE_INT64 z => VInt z
           | _ => if String.eqb column FIELD_TIMESTAMP then VInt (variant_GetInt64 data)
                  else VInt (variant_GetInt data)
           end
  end.

Definition ToRdbValueBucket (value : GenericValues) : Row :=
  map_imap (fun column data => Some (ToRdbValue column data)) value.

Definition ToRdbValueBuckets (values : list GenericValues) : list Row :=
  filter (fun b => b <> ∅) (map ToRdbValueBucket values).

Definition ToRdbPredicates (conditionValue : GenericValues) : Predicates :=
  map (fun '(column, v) =>
         if IsColumnStringType column then (column, VString (variant_GetString v))
         else (column, VInt (variant_GetInt v)))
    (map_to_list conditionValue).

Definition ResultToGenericValues (row : Row) : GenericValues :=
  (fun v => match v with VInt z => TYPE_INT64 z | VString s => TYPE_STRING s | VBlob b => TYPE_BLOB b end)
    <$> row.

Lemma Put_lookup k k' v (m : GenericValues) :
  Put k v m !! k' = if String.eqb k k' then Some (default v (m !! k)) else m !! k'.
Proof.
  unfold Put. destruct (String.eqb_spec k k') as [<-|Hne].
  - destruct (m !! k) eqn:E; cbn; [done|]. by rewrite lookup_insert_eq.
  - destruct (m !! k); [done|]. by rewrite lookup_insert_ne.
Qed.

Lemma Put_lookup_ne k k' v (m : GenericValues) : k <> k' -> Put k v m !! k' = m !! k'.
Proof. intros Hne. rewrite Put_lookup. by rewrite (proj2 (String.eqb_neq k k') Hne). Qed.

Lemma Put_lookup_fresh k v (m : GenericValues) : m !! k = None -> Put k v m !! k = Some v.
Proof. intros E. rewrite Put_lookup, String.eqb_refl, E. done. Qed.

(** The value of a field in a chain of [Put]s over the empty value. *)
Ltac put_lookup :=
  repeat (rewrite Put_lookup_ne by discriminate);
  first [ apply lookup_empty
        | apply Put_lookup_fresh; repeat (rewrite Put_lookup_ne by discriminate); apply lookup_empty ].

(** What comes back of a value stored in a row and read again. *)
Definition reload (v : GenericValues) : GenericValues := ResultToGenericValues (ToRdbValueBucket v).

Definition reload_value (column : string) (data : VariantValue) : VariantValue :=
  match ToRdbValue column data with
  | VInt z => TYPE_INT64 z | VString s => TYPE_STRING s | VBlob b => TYPE_BLOB b
  end.

Lemma reload_lookup v k : reload v !! k = reload_value k <$> v !! k.
Proof.
  unfold reload, ResultToGenericValues, ToRdbValueBucket.
  rewrite lookup_fmap, map_lookup_imap. by destruct (v !! k).
Qed.

(** ** What the statements mean on the rows of a table. *)
Definition row_matches (p : Predicates) (r : Row) : Prop := Forall (fun '(c, v) => r !! c = Some v) p.
#[export] Instance row_matches_dec p r : Decision (row_matches p r).
Proof. unfold row_matches. apply Forall_dec. intros [c v]. apply _. Defined.

(** The value a predicate compares a column with. *)
Definition predicate_value (column : string) (v : VariantValue) : RdbValue :=
  if IsColumnStringType column then VString (variant_GetString v) else VInt (variant_GetInt v).

Lemma row_matches_predicates c r :
  row_matches (ToRdbPredicates c) r <-> map_Forall (fun k v => r !! k = Some (predicate_value k v)) c.
Proof.
  unfold row_matches, ToRdbPredicates. rewrite Forall_map, map_Forall_to_list. unfold predicate_value.
  split; intros H; (eapply Forall_impl; [exact H|]); intros [k v]; cbn; by destruct (IsColumnStringType k).
Qed.

Lemma map_Forall_Put (P : string -> VariantValue -> Prop) k v (m : GenericValues) :
  m !! k = None -> (map_Forall P (Put k v m) <-> P k v /\ map_Forall P m).
Proof. intros E. unfold Put. rewrite E. by apply map_Forall_insert. Qed.

Definition select_rows (p : Predicates) (rows : list Row) : list Row := filter (row_matches p) rows.
Definition delete_rows (p : Predicates) (rows : list Row) : list Row :=
  filter (fun r => ~ row_matches p r) rows.
Definition update_rows (b : Row) (p : Predicates) (rows : list Row) : list Row :=
  map (fun r => if decide (row_matches p r) then b ∪ r else r) rows.

#[export] Instance select_rows_proper p : Proper ((≡ₚ) ==> (≡ₚ)) (select_rows p).
Proof. intros l1 l2 E. unfold select_rows. by rewrite E. Qed.
#[export] Instance delete_rows_proper p : Proper ((≡ₚ) ==> (≡ₚ)) (delete_rows p).
Proof. intros l1 l2 E. unfold delete_rows. by rewrite E. Qed.
#[export] Instance update_rows_proper b p : Proper ((≡ₚ) ==> (≡ₚ)) (update_rows b p).
Proof. intros l1 l2 E. unfold update_rows. apply (fmap_Permutation _ _ _ E). Qed.

(** ** The relational store (NativeRdb), a parameter.

    [D] is the store, [T] an open transaction.  The rows of a table are a
    multiset: nothing relies on their order.  [E_OK] is 0, as the sources that
    return 0 for it assume. *)
Definition E_OK : Z := 0.
Definition BATCH_QUERY_SIZE : nat := 512.
Definition QUERY_MAX_RETRY_TIMES : nat := 2.

(** A result set: the error of reading its column names, then the outcomes of the
    successive [GetRowsData] calls; past the last one there are no more rows. *)
Record ResultSet := mkResultSet { rs_namesErr : Z; rs_reads : list (Z * list Row) }.

Class RdbStore (D T : Type) := {
  E_SQLITE_CORRUPT : Z;
  rdb_rows : D -> string -> list Row;
  txn_rows : T -> string -> list Row;
  txn_origin : T -> string -> list Row;
  rdb_Update : D -> string -> Row -> Predicates -> Z * D;
  rdb_QueryByStep : D -> string -> Predicates -> option ResultSet * D;
  rdb_Restore : D -> Z * D;
  rdb_CreateTransaction : D -> Z * option T;
  txn_Delete : T -> string -> Predicates -> Z * T;
  txn_BatchInsert : T -> string -> list Row -> Z * Z * T;
  txn_Commit : T -> Z * D;
  txn_Rollback : T -> D;
}.

(** The reads of a result set deliver the rows [rows] in full batches followed by
    a short one, up to the first read that fails. *)
Inductive batches_of : list (Z * list Row) -> list Row -> Prop :=
  | batches_nil : batches_of [] []
  | batches_last rows reads :
      (length rows < BATCH_QUERY_SIZE)%nat -> batches_of ((E_OK, rows) :: reads) rows
  | batches_full b reads rows :
      length b = BATCH_QUERY_SIZE -> batches_of reads rows ->
      batches_of ((E_OK, b) :: reads) (b ++ rows)
  | batches_err e b reads rows : e <> E_OK -> batches_of ((e, b) :: reads) rows.

Definition same_rows (f g : string -> list Row) : Prop := forall t, f t ≡ₚ g t.

#[export] Instance same_rows_equivalence : Equivalence same_rows.
Proof.
  split.
  - intros f t. done.
  - intros f g H t. by rewrite (H t).
  - intros f g h H1 H2 t. by rewrite (H1 t).
Qed.

Class RdbStoreLaws (D T : Type) `{!RdbStore D T} := {
  law_corrupt : E_SQLITE_CORRUPT <> E_OK;
  law_Update d t b p e d' :
    rdb_Update d t b p = (e, d') ->
    if decide (e = E_OK) then
      rdb_rows d' t ≡ₚ update_rows b p (rdb_rows d t) /\
      forall t', t' <> t -> rdb_rows d' t' ≡ₚ rdb_rows d t'
    else same_rows (rdb_rows d') (rdb_rows d);
  law_QueryByStep d t p rs d' :
    rdb_QueryByStep d t p = (rs, d') ->
    same_rows (rdb_rows d') (rdb_rows d) /\
    match rs with
    | Some rs => exists rows, rows ≡ₚ select_rows p (rdb_rows d t) /\ batches_of (rs_reads rs) rows
    | None => True
    end;
  law_Restore d e d' : rdb_Restore d = (e, d') -> same_rows (rdb_rows d') (rdb_rows d);
  law_CreateTransaction d e x :
    rdb_CreateTransaction d = (e, Some x) ->
    same_rows (txn_rows x) (rdb_rows d) /\ same_rows (txn_origin x) (rdb_rows d);
  law_Delete x t p e x' :
    txn_Delete x t p = (e, x') ->
    same_rows (txn_origin x') (txn_origin x) /\
    (e = E_OK -> txn_rows x' t ≡ₚ delete_rows p (txn_rows x t) /\
                 forall t', t' <> t -> txn_rows x' t' ≡ₚ txn_rows x t');
  law_BatchInsert x t bs e n x' :
    txn_BatchInsert x t bs = (e, n, x') ->
    same_rows (txn_origin x') (txn_origin x) /\
    (e = E_OK -> 0 < n -> txn_rows x' t ≡ₚ txn_rows x t ++ bs /\
                 forall t', t' <> t -> txn_rows x' t' ≡ₚ txn_rows x t');
  law_Commit x d' : txn_Commit x = (E_OK, d') -> same_rows (rdb_rows d') (txn_rows x);
  law_Rollback x : same_rows (rdb_rows (txn_Rollback x)) (txn_origin x);
}.

(** ** AccessTokenDb. *)
Section AccessTokenDb.
Context {D T : Type} `{!RdbStore D T}.

(** The do-while loop over the batches of a result set. *)
Fixpoint ReadResultSetByStep (reads : list (Z * list Row)) (results : list GenericValues)
    : Z * list GenericValues :=
  match reads with
  | [] => (E_OK, results)
  | (code, rowsData) :: reads' =>
      if negb (code =? E_OK) || bool_decide (rowsData = []) then (code, results)
      else
        let results' :=
          results ++ filter (fun v : GenericValues => v <> ∅) (map ResultToGenericValues rowsData) in
        if bool_decide (length rowsData = BATCH_QUERY_SIZE) then ReadResultSetByStep reads' results'
        else (code, results')
  end.

Definition QueryByStepAndRead (db : D) (t : string) (p : Predicates) (results : list GenericValues)
    : Z * list GenericValues * D :=
  match rdb_QueryByStep db t p with
  | (None, db') => (ERR_DATABASE_OPERATE_FAILED, results, db')
  | (Some rs, db') =>
      if negb (rs_namesErr rs =? E_OK) then (ERR_DATABASE_OPERATE_FAILED, results, db')
      else let '(code, results') := ReadResultSetByStep (rs_reads rs) results in (code, results', db')
  end.

(** The retry loop of [FindByStep], at most [attempts] more queries. *)
Fixpoint FindByStep_loop (attempts : nat) (db : D) (t : string) (p : Predicates) (errCode : Z)
    : Z * list GenericValues * D :=
  match attempts with
  | O => (errCode, [], db)
  | S attempts' =>
      let '(errCode', results, db') := QueryByStepAndRead db t p [] in
      if errCode' =? E_OK then (E_OK, results, db')
      else if errCode' =? E_SQLITE_CORRUPT then (errCode', results, db')
      else match attempts' with
           | O => (errCode', results, db')
           | _ => FindByStep_loop attempts' db' t p errCode'
           end
  end.

Definition FindByStep (db : D) (t : string) (p : Predicates) : Z * list GenericValues * D :=
  let '(errCode, results, db1) :=
    FindByStep_loop QUERY_MAX_RETRY_TIMES db t p ERR_DATABASE_OPERATE_FAILED in
  if errCode =? E_OK then (E_OK, results, db1)
  else if negb (errCode =? E_SQLITE_CORRUPT) then (ERR_DATABASE_OPERATE_FAILED, results, db1)
  else
    let '(res, db2) := rdb_Restore db1 in
    if negb (res =? E_OK) then (res, [], db2)
    else
      let '(errCode', results', db3) := QueryByStepAndRead db2 t p [] in
      if negb (errCode' =? E_OK) then (ERR_DATABASE_OPERATE_FAILED, results', db3)
      else (E_OK, results', db3).

Definition Find (db : D) (ty : AtmDataType) (conditionValue : GenericValues)
    : Z * list GenericValues * D :=
  let tableName := GetTableNameByType ty in
  if String.eqb tableName "" then (ERR_PARAM_INVALID, [], db)
  else
    let '(res, results, db') := FindByStep db tableName (ToRdbPredicates conditionValue) in
    if negb (res =? E_OK) then (res, results, db') else (0, results, db').

Definition RestoreAndUpdateIfCorrupt (resultCode : Z) (b : Row) (t : string) (p : Predicates) (db : D)
    : Z * D :=
  if negb (resultCode =? E_SQLITE_CORRUPT) then (resultCode, db)
  else
    let '(res, db1) := rdb_Restore db in
    if negb (res =? E_OK) then (res, db1)
    else
      let '(res2, db2) := rdb_Update db1 t b p in
      if negb (res2 =? E_OK) then (res2, db2) else (0, db2).

Definition Modify (db : D) (ty : AtmDataType) (modifyValue conditionValue : GenericValues) : Z * D :=
  let tableName := GetTableNameByType ty in
  if String.eqb tableName "" then (ERR_PARAM_INVALID, db)
  else
    let bucket := ToRdbValueBucket modifyValue in
    if bool_decide (bucket = ∅) then (ERR_PARAM_INVALID, db)
    else
      let p := ToRdbPredicates conditionValue in
      let '(res, db1) := rdb_Update db tableName bucket p in
      if negb (res =? E_OK) then
        let '(result, db2) := RestoreAndUpdateIfCorrupt res bucket tableName p db1 in
        if negb (result =? E_OK) then (result, db2) else (0, db2)
      else (0, db1).

Fixpoint RemoveValues (delInfoVec : list DelInfo) (x : T) : Z * T :=
  match delInfoVec with
  | [] => (0, x)
  | info :: rest =>
      let tableName := GetTableNameByType (delType info) in
      if String.eqb tableName "" then (ERR_PARAM_INVALID, x)
      else
        let '(errCode, x') := txn_Delete x tableName (ToRdbPredicates (delValue info)) in
        if negb (errCode =? E_OK) then (errCode, x') else RemoveValues rest x'
  end.

Fixpoint AddValues (addInfoVec : list AddInfo) (x : T) : Z * T :=
  match addInfoVec with
  | [] => (0, x)
  | info :: rest =>
      let tableName := GetTableNameByType (addType info) in
      if String.eqb tableName "" then (ERR_PARAM_INVALID, x)
      else if bool_decide (addValues info = []) then AddValues rest x
      else
        let '(errCode, outInsertNum, x') :=
          txn_BatchInsert x tableName (ToRdbValueBuckets (addValues info)) in
        if negb (errCode =? E_OK) then (errCode, x')
        else if outInsertNum <=? 0 then (ERR_DATABASE_OPERATE_FAILED, x')
        else AddValues rest x'
  end.

Definition DeleteAndInsertValuesInner (db : D) (delInfoVec : list DelInfo) (addInfoVec : list AddInfo)
    : Z * D :=
  match rdb_CreateTransaction db with
  | (errcode, None) => (ERR_DATABASE_OPERATE_FAILED, db)
  | (errcode, Some x) =>
      if negb (errcode =? E_OK) then (ERR_DATABASE_OPERATE_FAILED, db)
      else
        let '(res, x1) := RemoveValues delInfoVec x in
        if negb (res =? E_OK) then (res, txn_Rollback x1)
        else
          let '(res, x2) := AddValues addInfoVec x1 in
          if negb (res =? E_OK) then (res, txn_Rollback x2)
          else
            let '(res, db') := txn_Commit x2 in
            if negb (res =? E_OK) then (res, txn_Rollback x2) else (0, db')
  end.

Definition RestoreDatabase (errCode : Z) (db : D) : D :=
  if negb (errCode =? E_SQLITE_CORRUPT) then db else (rdb_Restore db).2.

Definition DeleteAndInsertValues (db : D) (delInfoVec : list DelInfo) (addInfoVec : list AddInfo)
    : Z * D :=
  let '(res, db1) := DeleteAndInsertValuesInner db delInfoVec addInfoVec in
  if negb (res =? E_OK) then
    DeleteAndInsertValuesInner (RestoreDatabase res db1) delInfoVec addInfoVec
  else (res, db1).

End AccessTokenDb.

(** ** The interface of the database for the managers. *)

(** The reference meaning of a batch of deletions and of insertions. *)
Fixpoint apply_dels (dels : list DelInfo) (ty : AtmDataType) (rows : list Row) : list Row :=
  match dels with
  | [] => rows
  | info :: rest =>
      apply_dels rest ty
        (if decide (delType info = ty) then delete_rows (ToRdbPredicates (delValue info)) rows else rows)
  end.
Definition apply_adds (adds : list AddInfo) (ty : AtmDataType) (rows : list Row) : list Row :=
  rows ++ concat (map (fun info => if decide (addType info = ty)
                                   then ToRdbValueBuckets (addValues info) else []) adds).

Class AtmDb (S : Type) := {
  db_rows : S -> AtmDataType -> list Row;
  db_Find : S -> AtmDataType -> GenericValues -> Z * list GenericValues * S;
  db_Modify : S -> AtmDataType -> GenericValues -> GenericValues -> Z * S;
  db_DeleteAndInsertValues : S -> list DelInfo -> list AddInfo -> Z * S;
  db_Find_spec d ty c e results d' :
    db_Find d ty c = (e, results, d') ->
    (forall ty', db_rows d' ty' ≡ₚ db_rows d ty') /\
    (e = RET_SUCCESS -> exists rows, rows ≡ₚ select_rows (ToRdbPredicates c) (db_rows d ty) /\
       results = filter (fun v : GenericValues => v <> ∅) (map ResultToGenericValues rows));
  db_Modify_spec d ty v c e d' :
    db_Modify d ty v c = (e, d') ->
    if decide (e = RET_SUCCESS) then
      db_rows d' ty ≡ₚ update_rows (ToRdbValueBucket v) (ToRdbPredicates c) (db_rows d ty) /\
      forall ty', ty' <> ty -> db_rows d' ty' ≡ₚ db_rows d ty'
    else forall ty', db_rows d' ty' ≡ₚ db_rows d ty';
  db_DeleteAndInsertValues_spec d dels adds e d' :
    db_DeleteAndInsertValues d dels adds = (e, d') ->
    forall ty, db_rows d' ty ≡ₚ
      (if decide (e = RET_SUCCESS) then apply_adds adds ty (apply_dels dels ty (db_rows d ty))
       else db_rows d ty);
}.

(** ** AccessTokenDb implements the interface. *)
#[export] Instance GetTableNameByType_inj : Inj (=) (=) GetTableNameByType.
Proof. intros [] []; done. Qed.

Lemma table_name_nonempty ty : String.eqb (GetTableNameByType ty) "" = false.
Proof. by destruct ty. Qed.
#[export] Hint Rewrite table_name_nonempty : atm.

Lemma ResultToGenericValues_empty r : ResultToGenericValues r = ∅ <-> r = ∅.
Proof. apply fmap_empty_iff. Qed.

(** Reading a result set to its end yields all its rows, in order. *)
Lemma ReadResultSetByStep_spec reads rows results0 results :
  batches_of reads rows -> ReadResultSetByStep reads results0 = (E_OK, results) ->
  results = results0 ++ filter (fun v : GenericValues => v <> ∅) (map ResultToGenericValues rows).
Proof.
  intros Hb. revert results0. induction Hb as [|rows reads Hl|b reads rows Hl Hb IH|e b reads rows He];
    intros results0; cbn [ReadResultSetByStep].
  - intros [= <-]. by rewrite app_nil_r.
  - rewrite Z.eqb_refl. cbn [negb orb]. case_bool_decide as E.
    + subst. intros [= <-]. by rewrite app_nil_r.
    + rewrite bool_decide_false by lia. by intros [= <-].
  - rewrite Z.eqb_refl. cbn [negb orb]. rewrite bool_decide_false by (by intros ->).
    rewrite bool_decide_true by done. intros H. apply IH in H as ->.
    by rewrite map_app, filter_app, app_assoc.
  - apply Z.eqb_neq in He as E. rewrite E. cbn. intros [= -> _]. done.
Qed.

Section Refinement.
Context {D T : Type} `{!RdbStore D T} `{!RdbStoreLaws D T}.
Implicit Types (d : D) (x : T).

Lemma QueryByStepAndRead_spec d t p e results d' :
  QueryByStepAndRead d t p [] = (e, results, d') ->
  same_rows (rdb_rows d') (rdb_rows d) /\
  (e = E_OK -> exists rows, rows ≡ₚ select_rows p (rdb_rows d t) /\
     results = filter (fun v : GenericValues => v <> ∅) (map ResultToGenericValues rows)).
Proof.
  unfold QueryByStepAndRead. destruct (rdb_QueryByStep d t p) as [[rs|] d1] eqn:Q;
    apply law_QueryByStep in Q as [Hs Hq].
  - destruct (negb _) eqn:En; [intros [= <- <- <-]; done|].
    destruct (ReadResultSetByStep _ _) as [c rs'] eqn:R. intros [= <- <- <-].
    split; [done|]. intros ->. destruct Hq as (rows & Hp & Hb). exists rows. split; [done|].
    by apply (ReadResultSetByStep_spec _ _ _ _ Hb) in R.
  - intros [= <- <- <-]. done.
Qed.

Lemma FindByStep_loop_spec n : forall d t p e0 e results d',
  FindByStep_loop n d t p e0 = (e, results, d') -> e0 <> E_OK ->
  same_rows (rdb_rows d') (rdb_rows d) /\
  (e = E_OK -> exists rows, rows ≡ₚ select_rows p (rdb_rows d t) /\
     results = filter (fun v : GenericValues => v <> ∅) (map ResultToGenericValues rows)).
Proof.
  induction n as [|n IH]; cbn [FindByStep_loop]; intros d t p e0 e results d' H H0.
  { injection H as <- <- <-. done. }
  destruct (QueryByStepAndRead d t p []) as [[e1 rs1] d1] eqn:Q.
  apply QueryByStepAndRead_spec in Q as [Hs Hq].
  destruct (Z.eqb_spec e1 E_OK) as [->|Hne]; [injection H as <- <- <-; auto|].
  destruct (e1 =? E_SQLITE_CORRUPT); [injection H as <- <- <-; done|].
  destruct n; [injection H as <- <- <-; done|].
  apply IH in H as [Hs' Hq']; [|done]. split; [by rewrite Hs'|].
  intros He. destruct (Hq' He) as (rows & Hp & ->). exists rows. split; [|done].
  by rewrite Hp, (Hs t).
Qed.

Lemma FindByStep_spec d t p e results d' :
  FindByStep d t p = (e, results, d') ->
  same_rows (rdb_rows d') (rdb_rows d) /\
  (e = E_OK -> exists rows, rows ≡ₚ select_rows p (rdb_rows d t) /\
     results = filter (fun v : GenericValues => v <> ∅) (map ResultToGenericValues rows)).
Proof.
  unfold FindByStep. destruct (FindByStep_loop _ _ _ _ _) as [[e1 rs1] d1] eqn:L.
  apply FindByStep_loop_spec in L as [Hs Hq]; [|done].
  destruct (Z.eqb_spec e1 E_OK) as [->|Hne]; [intros [= <- <- <-]; auto|].
  destruct (negb _); [intros [= <- <- <-]; done|].
  destruct (rdb_Restore d1) as [r d2] eqn:R. apply law_Restore in R.
  destruct (negb (r =? E_OK)) eqn:Er.
  { intros [= <- <- <-]. split; [by rewrite R|]. intros ->. done. }
  destruct (QueryByStepAndRead d2 t p []) as [[e2 rs2] d3] eqn:Q.
  apply QueryByStepAndRead_spec in Q as [Hs2 Hq2].
  assert (same_rows (rdb_rows d3) (rdb_rows d)) as Hs3 by (by rewrite Hs2, R).
  destruct (Z.eqb_spec e2 E_OK) as [->|]; intros [= <- <- <-]; [|done].
  split; [done|]. intros _. destruct (Hq2 eq_refl) as (rows & Hp & ->).
  exists rows. split; [|done]. by rewrite Hp, (R t), (Hs t).
Qed.

Lemma Modify_update_spec d t b p e d' :
  rdb_Update d t b p = (e, d') -> e = E_OK ->
  rdb_rows d' t ≡ₚ update_rows b p (rdb_rows d t) /\
  forall t', t' <> t -> rdb_rows d' t' ≡ₚ rdb_rows d t'.
Proof. intros H ->. apply law_Update in H. by rewrite decide_True in H. Qed.

Lemma Modify_fail_spec d t b p e d' :
  rdb_Update d t b p = (e, d') -> e <> E_OK -> same_rows (rdb_rows d') (rdb_rows d).
Proof. intros H He. apply law_Update in H. by rewrite decide_False in H. Qed.

Lemma RestoreAndUpdate_spec e0 b t p d e d' :
  RestoreAndUpdateIfCorrupt e0 b t p d = (e, d') -> e0 <> E_OK ->
  if decide (e = E_OK) then
    rdb_rows d' t ≡ₚ update_rows b p (rdb_rows d t) /\
    forall t', t' <> t -> rdb_rows d' t' ≡ₚ rdb_rows d t'
  else same_rows (rdb_rows d') (rdb_rows d).
Proof.
  unfold RestoreAndUpdateIfCorrupt. intros H H0.
  destruct (negb _); [injection H as <- <-; by rewrite decide_False|].
  destruct (rdb_Restore d) as [r d1] eqn:R. apply law_Restore in R.
  destruct (Z.eqb_spec r E_OK) as [->|]; [|injection H as <- <-; by rewrite decide_False].
  destruct (rdb_Update d1 t b p) as [r2 d2] eqn:U. cbn in H.
  destruct (Z.eqb_spec r2 E_OK) as [->|Hr]; injection H as <- <-.
  - apply Modify_update_spec in U as [U1 U2]; [|done]. rewrite decide_True by done.
    split; [by rewrite U1, (R t)|]. intros t' Ht. by rewrite (U2 t' Ht), (R t').
  - rewrite decide_False by done. by rewrite (Modify_fail_spec _ _ _ _ _ _ U Hr), R.
Qed.

(** What a batch of deletions and insertions leaves in a transaction. *)
Lemma RemoveValues_spec dels : forall x e x',
  RemoveValues dels x = (e, x') ->
  same_rows (txn_origin x') (txn_origin x) /\
  (e = E_OK -> forall ty, txn_rows x' (GetTableNameByType ty) ≡ₚ
                 apply_dels dels ty (txn_rows x (GetTableNameByType ty))).
Proof.
  induction dels as [|info rest IH]; cbn [RemoveValues apply_dels]; intros x e x' H.
  { injection H as <- <-. done. }
  rewrite table_name_nonempty in H.
  destruct (txn_Delete _ _ _) as [e1 x1] eqn:Q. apply law_Delete in Q as [Ho Hd].
  destruct (Z.eqb_spec e1 E_OK) as [->|]; [|injection H as <- <-; done].
  destruct (Hd eq_refl) as [Hd1 Hd2]. apply IH in H as [Ho' Hd']. split; [by rewrite Ho'|].
  intros He ty. rewrite (Hd' He ty). clear Hd' IH.
  assert (forall l1 l2, l1 ≡ₚ l2 -> apply_dels rest ty l1 ≡ₚ apply_dels rest ty l2) as Hp.
  { clear. induction rest as [|i rest IH]; cbn; [done|]. intros l1 l2 E.
    apply IH. destruct (decide _); by rewrite E. }
  apply Hp. destruct (decide _) as [<-|Hne]; [done|].
  apply Hd2. by intros ?%(inj GetTableNameByType).
Qed.

Lemma AddValues_spec adds : forall x e x',
  AddValues adds x = (e, x') ->
  same_rows (txn_origin x') (txn_origin x) /\
  (e = E_OK -> forall ty, txn_rows x' (GetTableNameByType ty) ≡ₚ
                 apply_adds adds ty (txn_rows x (GetTableNameByType ty))).
Proof.
  unfold apply_adds.
  induction adds as [|info rest IH]; cbn [AddValues map concat]; intros x e x' H.
  { injection H as <- <-. split; [done|]. intros _ ty. by rewrite app_nil_r. }
  rewrite table_name_nonempty in H. case_bool_decide as En.
  { apply IH in H as [Ho Hr]. split; [done|]. intros He ty. rewrite (Hr He ty), En.
    by destruct (decide _). }
  destruct (txn_BatchInsert _ _ _) as [[e1 n] x1] eqn:Q. apply law_BatchInsert in Q as [Ho Hd].
  destruct (Z.eqb_spec e1 E_OK) as [->|]; [|injection H as <- <-; done]. cbn in H.
  destruct (Z.leb_spec n 0); [injection H as <- <-; done|].
  destruct (Hd eq_refl ltac:(lia)) as [Hd1 Hd2]. apply IH in H as [Ho' Hr].
  split; [by rewrite Ho'|]. intros He ty. rewrite (Hr He ty).
  destruct (decide _) as [<-|Hne].
  - by rewrite Hd1, <- app_assoc.
  - rewrite Hd2; [done|]. intros E%(inj GetTableNameByType). congruence.
Qed.

Lemma DeleteAndInsertValuesInner_spec d dels adds e d' :
  DeleteAndInsertValuesInner d dels adds = (e, d') ->
  if decide (e = E_OK) then
    forall ty, rdb_rows d' (GetTableNameByType ty) ≡ₚ
      apply_adds adds ty (apply_dels dels ty (rdb_rows d (GetTableNameByType ty)))
  else same_rows (rdb_rows d') (rdb_rows d).
Proof.
  unfold DeleteAndInsertValuesInner. intros H.
  destruct (rdb_CreateTransaction d) as [e0 [x|]] eqn:C;
    [|injection H as <- <-; by rewrite decide_False].
  apply law_CreateTransaction in C as [Hr Ho].
  destruct (negb (e0 =? E_OK)); [injection H as <- <-; by rewrite decide_False|].
  destruct (RemoveValues dels x) as [e1 x1] eqn:R. apply RemoveValues_spec in R as [Ho1 Hr1].
  assert (forall y : T, same_rows (txn_origin y) (txn_origin x) ->
            same_rows (rdb_rows (txn_Rollback y)) (rdb_rows d)) as Hrb.
  { intros y Hy. by rewrite law_Rollback, Hy. }
  destruct (Z.eqb_spec e1 E_OK) as [->|];
    [|injection H as <- <-; rewrite decide_False by done; by apply Hrb].
  cbn in H. destruct (AddValues adds x1) as [e2 x2] eqn:A. apply AddValues_spec in A as [Ho2 Hr2].
  assert (same_rows (txn_origin x2) (txn_origin x)) as Ho3 by (by rewrite Ho2).
  destruct (Z.eqb_spec e2 E_OK) as [->|];
    [|injection H as <- <-; rewrite decide_False by done; by apply Hrb].
  cbn in H. destruct (txn_Commit x2) as [e3 d3] eqn:C.
  destruct (Z.eqb_spec e3 E_OK) as [->|];
    [|injection H as <- <-; rewrite decide_False by done; by apply Hrb].
  injection H as <- <-. rewrite decide_True by done. intros ty.
  apply law_Commit in C. rewrite (C _), (Hr2 eq_refl ty). unfold apply_adds. f_equiv.
  rewrite (Hr1 eq_refl ty). clear -Hr. specialize (Hr (GetTableNameByType ty)).
  revert Hr. generalize (txn_rows x (GetTableNameByType ty)) (rdb_rows d (GetTableNameByType ty)).
  induction dels as [|i rest IH]; cbn; [done|]. intros l1 l2 E.
  apply IH. destruct (decide _); by rewrite E.
Qed.

Lemma RestoreDatabase_rows e d : same_rows (rdb_rows (RestoreDatabase e d)) (rdb_rows d).
Proof.
  unfold RestoreDatabase. split_if; [done|].
  destruct (rdb_Restore d) as [r d1] eqn:R. by apply law_Restore in R.
Qed.

Lemma apply_dels_perm dels ty l1 l2 : l1 ≡ₚ l2 -> apply_dels dels ty l1 ≡ₚ apply_dels dels ty l2.
Proof.
  revert l1 l2. induction dels as [|i rest IH]; cbn; [done|]. intros l1 l2 E.
  apply IH. destruct (decide _); by rewrite E.
Qed.

Lemma DeleteAndInsertValues_spec d dels adds e d' :
  DeleteAndInsertValues d dels adds = (e, d') ->
  forall ty, rdb_rows d' (GetTableNameByType ty) ≡ₚ
    (if decide (e = E_OK)
     then apply_adds adds ty (apply_dels dels ty (rdb_rows d (GetTableNameByType ty)))
     else rdb_rows d (GetTableNameByType ty)).
Proof.
  unfold DeleteAndInsertValues. intros H ty.
  destruct (DeleteAndInsertValuesInner d dels adds) as [e1 d1] eqn:I1.
  apply DeleteAndInsertValuesInner_spec in I1.
  destruct (Z.eqb_spec e1 E_OK) as [->|Hne]; cbn in H.
  { injection H as <- <-. rewrite decide_True in * by done. apply I1. }
  rewrite decide_False in I1 by done.
  apply DeleteAndInsertValuesInner_spec in H.
  assert (same_rows (rdb_rows (RestoreDatabase e1 d1)) (rdb_rows d)) as Hs
    by (by rewrite RestoreDatabase_rows).
  destruct (decide (e = E_OK)).
  - rewrite (H ty). unfold apply_adds. f_equiv. apply apply_dels_perm, Hs.
  - by rewrite (H _), (Hs _).
Qed.

Lemma Find_spec d ty c e results d' :
  Find d ty c = (e, results, d') ->
  same_rows (rdb_rows d') (rdb_rows d) /\
  (e = RET_SUCCESS -> exists rows,
     rows ≡ₚ select_rows (ToRdbPredicates c) (rdb_rows d (GetTableNameByType ty)) /\
     results = filter (fun v : GenericValues => v <> ∅) (map ResultToGenericValues rows)).
Proof.
  unfold Find. rewrite table_name_nonempty. intros H.
  destruct (FindByStep _ _ _) as [[e1 rs1] d1] eqn:F. apply FindByStep_spec in F.
  destruct (Z.eqb_spec e1 E_OK) as [->|Hne]; injection H as <- <- <-; [done|].
  split; [apply F|]. intros ->. done.
Qed.

Lemma Modify_spec d ty v c e d' :
  Modify d ty v c = (e, d') ->
  if decide (e = RET_SUCCESS) then
    rdb_rows d' (GetTableNameByType ty) ≡ₚ
      update_rows (ToRdbValueBucket v) (ToRdbPredicates c) (rdb_rows d (GetTableNameByType ty)) /\
    forall t', t' <> GetTableNameByType ty -> rdb_rows d' t' ≡ₚ rdb_rows d t'
  else same_rows (rdb_rows d') (rdb_rows d).
Proof.
  unfold Modify. rewrite table_name_nonempty. intros H. case_bool_decide.
  { injection H as <- <-. by rewrite decide_False. }
  destruct (rdb_Update _ _ _ _) as [e1 d1] eqn:U. pose proof (law_Update _ _ _ _ _ _ U) as L.
  destruct (Z.eqb_spec e1 E_OK) as [->|Hne]; cbn in H.
  { injection H as <- <-. by rewrite decide_True in * by done. }
  rewrite decide_False in L by done.
  destruct (RestoreAndUpdateIfCorrupt _ _ _ _ _) as [e2 d2] eqn:R.
  apply RestoreAndUpdate_spec in R; [|done].
  destruct (Z.eqb_spec e2 E_OK) as [->|Hne2]; injection H as <- <-.
  - rewrite decide_True in * by done. destruct R as [R1 R2]. split.
    + by rewrite R1, (L _).
    + intros t' Ht. by rewrite (R2 t' Ht), (L t').
  - rewrite decide_False in * by done. by rewrite R.
Qed.

(** [AccessTokenDb] keeps the promises of [AtmDb]. *)
#[export, program] Instance AccessTokenDb_AtmDb : AtmDb D := {|
  db_rows d ty := rdb_rows d (GetTableNameByType ty);
  db_Find := Find;
  db_Modify := Modify;
  db_DeleteAndInsertValues := DeleteAndInsertValues;
|}.
Next Obligation.
  intros d ty c e results d' H. apply Find_spec in H as [H1 H2]. split; [|done].
  intros ty'. apply H1.
Qed.
Next Obligation.
  intros d ty v c e d' H. apply Modify_spec in H. cbn. destruct (decide _).
  - destruct H as [H1 H2]. split; [done|]. intros ty' Hne. apply H2.
    by intros ?%(inj GetTableNameByType).
  - intros ty'. apply H.
Qed.
Next Obligation. intros d dels adds e d' H ty. by apply DeleteAndInsertValues_spec. Qed.

End Refinement.

(** ** A store held in memory.

    A concrete relational store, with a script of injected faults (each statement
    consumes one entry; a non-zero entry makes it fail with that code): it shows
    that the laws can hold together with failures. *)
Record MemRdb := mkMemRdb { mem_tables : gmap string (list Row); mem_faults : list Z }.
Record MemTxn := mkMemTxn {
  memtxn_tables : gmap string (list Row);
  memtxn_origin : gmap string (list Row);
  memtxn_faults : list Z;
}.

Definition mem_get (m : gmap string (list Row)) (t : string) : list Row := default [] (m !! t).
Definition next_fault (l : list Z) : Z * list Z := match l with [] => (E_OK, []) | f :: l' => (f, l') end.

(** The rows cut in batches; [fuel] exceeds the number of rows. *)
Fixpoint mem_batches (fuel : nat) (rows : list Row) : list (Z * list Row) :=
  match fuel with
  | O => []
  | S fuel' =>
      if decide (length rows < BATCH_QUERY_SIZE)%nat then [(E_OK, rows)]
      else (E_OK, take BATCH_QUERY_SIZE rows) :: mem_batches fuel' (drop BATCH_QUERY_SIZE rows)
  end.

#[export] Instance MemRdb_store : RdbStore MemRdb MemTxn := {|
  E_SQLITE_CORRUPT := 11;
  rdb_rows d := mem_get (mem_tables d);
  txn_rows x := mem_get (memtxn_tables x);
  txn_origin x := mem_get (memtxn_origin x);
  rdb_Update d t b p :=
    let '(f, fs) := next_fault (mem_faults d) in
    if f =? E_OK
    then (E_OK, mkMemRdb (<[t := update_rows b p (mem_get (mem_tables d) t)]> (mem_tables d)) fs)
    else (f, mkMemRdb (mem_tables d) fs);
  rdb_QueryByStep d t p :=
    let '(f, fs) := next_fault (mem_faults d) in
    let rows := select_rows p (mem_get (mem_tables d) t) in
    if f =? E_OK
    then (Some (mkResultSet E_OK (mem_batches (S (length rows)) rows)), mkMemRdb (mem_tables d) fs)
    else (None, mkMemRdb (mem_tables d) fs);
  rdb_Restore d := let '(f, fs) := next_fault (mem_faults d) in (f, mkMemRdb (mem_tables d) fs);
  rdb_CreateTransaction d := (E_OK, Some (mkMemTxn (mem_tables d) (mem_tables d) (mem_faults d)));
  txn_Delete x t p :=
    let '(f, fs) := next_fault (memtxn_faults x) in
    if f =? E_OK
    then (E_OK, mkMemTxn (<[t := delete_rows p (mem_get (memtxn_tables x) t)]> (memtxn_tables x))
                  (memtxn_origin x) fs)
    else (f, mkMemTxn (memtxn_tables x) (memtxn_origin x) fs);
  txn_BatchInsert x t bs :=
    let '(f, fs) := next_fault (memtxn_faults x) in
    if f =? E_OK
    then (E_OK, Z.of_nat (length bs),
          mkMemTxn (<[t := mem_get (memtxn_tables x) t ++ bs]> (memtxn_tables x)) (memtxn_origin x) fs)
    else (f, 0, mkMemTxn (memtxn_tables x) (memtxn_origin x) fs);
  txn_Commit x :=
    let '(f, fs) := next_fault (memtxn_faults x) in
    if f =? E_OK then (E_OK, mkMemRdb (memtxn_tables x) fs) else (f, mkMemRdb (memtxn_origin x) fs);
  txn_Rollback x := mkMemRdb (memtxn_origin x) (memtxn_faults x);
|}.

Lemma mem_get_insert m t rows : mem_get (<[t := rows]> m) t = rows.
Proof. unfold mem_get. by rewrite lookup_insert_eq. Qed.
Lemma mem_get_insert_ne m t t' rows : t' <> t -> mem_get (<[t := rows]> m) t' = mem_get m t'.
Proof. intros. unfold mem_get. by rewrite lookup_insert_ne. Qed.

Lemma mem_batches_spec fuel : forall rows,
  (length rows < fuel)%nat -> batches_of (mem_batches fuel rows) rows.
Proof.
  induction fuel as [|fuel IH]; [lia|]. intros rows Hl. cbn [mem_batches].
  destruct (decide _) as [H|H]; [by constructor|].
  rewrite <- (take_drop BATCH_QUERY_SIZE rows) at 3. apply batches_full.
  - rewrite length_take. lia.
  - apply IH. rewrite length_drop. unfold BATCH_QUERY_SIZE in *. lia.
Qed.

#[export] Instance MemRdb_laws : RdbStoreLaws MemRdb MemTxn.
Proof.
  split; cbn; try done.
  - intros d t b p e d'. destruct (next_fault _) as [f fs]. destruct (Z.eqb_spec f E_OK) as [->|Hf];
      intros [= <- <-]; cbn.
    + split; [by rewrite mem_get_insert|]. intros t' Ht. by rewrite mem_get_insert_ne.
    + by rewrite decide_False.
  - intros d t p rs d'. destruct (next_fault _) as [f fs].
    destruct (f =? E_OK); intros [= <- <-]; cbn; split; try done.
    eexists. split; [done|]. apply (mem_batches_spec (S (length (select_rows p (mem_get (mem_tables d) t))))).
    apply Nat.lt_succ_diag_r.
  - intros d e d'. destruct (next_fault _). by intros [= <- <-].
  - by intros d e x [= <- <-].
  - intros x t p e x'. destruct (next_fault _) as [f fs]. destruct (Z.eqb_spec f E_OK) as [->|Hf];
      intros [= <- <-]; cbn; (split; [done|]); [|done].
    intros _. split; [by rewrite mem_get_insert|]. intros t' Ht. by rewrite mem_get_insert_ne.
  - intros x t bs e n x'. destruct (next_fault _) as [f fs]. destruct (Z.eqb_spec f E_OK) as [->|Hf];
      intros [= <- <- <-]; cbn; (split; [done|]); [|done].
    intros _ _. split; [by rewrite mem_get_insert|]. intros t' Ht. by rewrite mem_get_insert_ne.
  - intros x d'. destruct (next_fault _) as [f fs]. destruct (Z.eqb_spec f E_OK) as [->|Hf].
    + by intros [= <-].
    + intros [= E _]. by destruct Hf.
Qed.
