(* ===== verification/PermissionMap.v ===== *)
(** * The permission definition table

    frameworks/common/src/permission_map.cpp: the table of defined permissions,
    the map from a name to its index (the opcode stored everywhere else) and the
    queries on a definition.  The table itself, [g_permList], is generated by the
    build from the permission definition files: it is the parameter [PermTable],
    with [PermTableLaws] for what the generator guarantees.  The table is mutable
    ([SetPermissionBriefEnabled] switches an entry on or off), so an update
    returns a new table. *)

From stdpp Require Import base gmap list strings.
From S2P Require Import Prelude AccessTokenTypes.
#[local] Open Scope Z_scope.

(** [PermissionBriefDef]. *)
Record PermissionBriefDef := mkPermissionBriefDef {
  pbd_permissionName : string;
  pbd_grantMode : Z;
  pbd_availableLevel : Z;
  pbd_availableType : Z;
  pbd_provisionEnable : bool;
  pbd_distributedSceneEnable : bool;
  pbd_isKernelEffect : bool;
  pbd_hasValue : bool;
  pbd_isEnable : bool;
  pbd_provisionBypassForSideload : bool;
}.

(** [PermissionDef]. *)
Record PermissionDef := mkPermissionDef {
  pd_permissionName : string;
  pd_bundleName : string;
  pd_grantMode : Z;
  pd_availableLevel : Z;
  pd_provisionEnable : bool;
  pd_distributedSceneEnable : bool;
  pd_label : string;
  pd_labelId : Z;
  pd_description : string;
  pd_descriptionId : Z;
  pd_availableType : Z;
  pd_isKernelEffect : bool;
  pd_hasValue : bool;
}.

Class PermTable := mkPermTable {
  g_permList : list PermissionBriefDef;
  g_cliPermissionMap : gmap string (list string);
}.

(** [std::string::c_str]: a C string ends at its first NUL. *)
Fixpoint c_str (s : string) : string :=
  match s with
  | EmptyString => EmptyString
  | String c s' => if Ascii.eqb c Ascii.zero then EmptyString else String c (c_str s')
  end.

Class PermTableLaws (PT : PermTable) := {
  permList_nodup : NoDup (map pbd_permissionName g_permList);
  permList_c_str d : d ∈ g_permList -> c_str (pbd_permissionName d) = pbd_permissionName d;
  permList_nonempty d : d ∈ g_permList -> pbd_permissionName d <> EmptyString;
  permList_length d : d ∈ g_permList -> Z.of_nat (String.length (pbd_permissionName d)) <= 256;
  permList_size : Z.of_nat (length g_permList) <= 2 ^ 16;
}.

Section PermissionMap.
Context {PT : PermTable}.

Definition MAX_PERM_SIZE : Z := Z.of_nat (length g_permList).

(** [InitMap]: the loop over the table, later entries overwriting earlier ones. *)
Fixpoint InitMap_loop (i : Z) (l : list PermissionBriefDef) (m : gmap string Z) : gmap string Z :=
  match l with
  | [] => m
  | d :: l' => InitMap_loop (i + 1) l' (<[pbd_permissionName d := i]> m)
  end.
Definition g_permMap : gmap string Z := InitMap_loop 0 g_permList ∅.

Definition TransferPermissionToOpcode (permission : string) : option Z := g_permMap !! c_str permission.

(** [g_permList[opCode]]; [None] is an access past the end of the table. *)
Definition permList_at (opCode : Z) : option PermissionBriefDef :=
  if opCode <? 0 then None else g_permList !! Z.to_nat opCode.

Definition TransferOpcodeToPermission (opCode : Z) : string :=
  if MAX_PERM_SIZE <=? opCode then EmptyString
  else match permList_at opCode with Some d => pbd_permissionName d | None => EmptyString end.

Definition QueryRequredPermissions (cliPermission : string) : option (list string) :=
  g_cliPermissionMap !! cliPermission.
Definition QueryMappedPermissionsByCliPermission (cliPermission : string) : option (list string) :=
  g_cliPermissionMap !! cliPermission.

(** A query on the definition of a permission, [false] when it is not defined. *)
Definition with_def (permission : string) (f : PermissionBriefDef -> bool) : bool :=
  match TransferPermissionToOpcode permission with
  | None => false
  | Some opCode => match permList_at opCode with Some d => f d | None => false end
  end.

Definition IsUserGrantPermission (permission : string) : bool :=
  with_def permission (fun d => pbd_isEnable d && (pbd_grantMode d =? USER_GRANT)).

Definition IsOperablePermission (permission : string) : bool :=
  with_def permission (fun d =>
    pbd_isEnable d && ((pbd_grantMode d =? USER_GRANT) || (pbd_grantMode d =? MANUAL_SETTINGS))).

Definition IsDefinedPermissionInner (permission : string) : bool := with_def permission pbd_isEnable.

Definition GetPermissionBriefDef_name (permission : string) : option PermissionBriefDef :=
  match TransferPermissionToOpcode permission with
  | None => None
  | Some opCode => permList_at opCode
  end.

Definition GetPermissionBriefDef_opcode (permission : string) : option (PermissionBriefDef * Z) :=
  match TransferPermissionToOpcode permission with
  | None => None
  | Some opCode => (fun d => (d, opCode)) <$> permList_at opCode
  end.

Definition GetPermissionBriefDef_code (opCode : Z) : option PermissionBriefDef := permList_at opCode.

(** The fields the brief definition does not have keep the value of [def]. *)
Definition ConvertPermissionBriefToDef (b : PermissionBriefDef) (def : PermissionDef) : PermissionDef :=
  mkPermissionDef (pbd_permissionName b) (pd_bundleName def) (pbd_grantMode b) (pbd_availableLevel b)
    (pbd_provisionEnable b) (pbd_distributedSceneEnable b) (pd_label def) (pd_labelId def)
    (pd_description def) (pd_descriptionId def) (pbd_availableType b) (pbd_isKernelEffect b)
    (pbd_hasValue b).

Definition IsPermissionValidForHap (permissionName : string) : bool :=
  with_def permissionName (fun d => pbd_isEnable d && negb (pbd_availableType d =? AVAILABLE_SERVICE)).

Definition set_isEnable (b : bool) (d : PermissionBriefDef) : PermissionBriefDef :=
  mkPermissionBriefDef (pbd_permissionName d) (pbd_grantMode d) (pbd_availableLevel d)
    (pbd_availableType d) (pbd_provisionEnable d) (pbd_distributedSceneEnable d)
    (pbd_isKernelEffect d) (pbd_hasValue d) b (pbd_provisionBypassForSideload d).

Definition SetPermissionBriefEnabled (permissionName : string) (isEnable : bool) : bool * PermTable :=
  match TransferPermissionToOpcode permissionName with
  | None => (false, PT)
  | Some opCode =>
      (true, mkPermTable (alter (set_isEnable isEnable) (Z.to_nat opCode) g_permList) g_cliPermissionMap)
  end.

End PermissionMap.

(** ** Lemmas. *)
Section Lemmas.
Context {PT : PermTable}.

Lemma InitMap_loop_spec l : forall i m name,
  NoDup (map pbd_permissionName l) ->
  InitMap_loop i l m !! name =
    match list_find (fun d => pbd_permissionName d = name) l with
    | Some (k, _) => Some (i + Z.of_nat k)
    | None => m !! name
    end.
Proof.
  induction l as [|d l IH]; cbn; [done|]. intros i m name [Hn Hd]%NoDup_cons.
  rewrite IH by done. destruct (decide (pbd_permissionName d = name)) as [<-|Hne].
  - destruct (list_find _ l) as [[k x]|] eqn:F.
    + apply list_find_Some in F as (Hx & E & _). exfalso. apply Hn. rewrite <- E.
      apply (list_elem_of_fmap_2 pbd_permissionName). by eapply list_elem_of_lookup_2.
    + rewrite lookup_insert_eq. f_equal. lia.
  - destruct (list_find _ l) as [[k x]|]; cbn; [f_equal; lia|].
    by rewrite lookup_insert_ne.
Qed.

Context `{!PermTableLaws PT}.

(** The map holds exactly the indices of the table. *)
Lemma permMap_lookup name code :
  g_permMap !! name = Some code <->
  0 <= code /\ exists d, g_permList !! Z.to_nat code = Some d /\ pbd_permissionName d = name.
Proof.
  unfold g_permMap. rewrite InitMap_loop_spec by apply permList_nodup. split.
  - destruct (list_find _ _) as [[k d]|] eqn:F; [|by rewrite lookup_empty].
    intros [= <-]. apply list_find_Some in F as (Hx & E & _).
    split; [lia|]. exists d. by rewrite Z.add_0_l, Nat2Z.id.
  - intros (Hc & d & Hd & E). destruct (list_find _ _) as [[k x]|] eqn:F.
    + apply list_find_Some in F as (Hx & Ex & _).
      assert (k = Z.to_nat code) as ->; [|f_equal; lia].
      eapply (NoDup_lookup (map pbd_permissionName g_permList)); [apply permList_nodup| |].
      * rewrite list_lookup_fmap. rewrite Hx. cbn. by rewrite Ex.
      * rewrite list_lookup_fmap. rewrite Hd. cbn. by rewrite E.
    + exfalso. apply list_find_None in F. rewrite Forall_forall in F.
      apply (F d); [|done]. by eapply list_elem_of_lookup_2.
Qed.

Lemma opcode_range permission code :
  TransferPermissionToOpcode permission = Some code -> 0 <= code < MAX_PERM_SIZE.
Proof.
  intros (Hc & d & Hd & _)%permMap_lookup. apply lookup_lt_Some in Hd.
  unfold MAX_PERM_SIZE. lia.
Qed.

Lemma opcode_u16 permission code :
  TransferPermissionToOpcode permission = Some code -> 0 <= code < 2 ^ 16.
Proof.
  intros H%opcode_range. pose proof permList_size. unfold MAX_PERM_SIZE in H. lia.
Qed.

Lemma opcode_def permission code :
  TransferPermissionToOpcode permission = Some code ->
  exists d, permList_at code = Some d /\ pbd_permissionName d = c_str permission.
Proof.
  intros (Hc & d & Hd & E)%permMap_lookup. exists d. unfold permList_at.
  by destruct (Z.ltb_spec code 0); [lia|].
Qed.

(** From a name to its code and back. *)
Lemma opcode_to_name permission code :
  TransferPermissionToOpcode permission = Some code ->
  TransferOpcodeToPermission code = c_str permission.
Proof.
  intros H. destruct (opcode_def _ _ H) as (d & Hd & E). apply opcode_range in H.
  unfold TransferOpcodeToPermission. rewrite Hd.
  by destruct (Z.leb_spec MAX_PERM_SIZE code); [lia|].
Qed.

(** From a code to its name and back. *)
Lemma name_to_opcode code :
  0 <= code < MAX_PERM_SIZE -> TransferPermissionToOpcode (TransferOpcodeToPermission code) = Some code.
Proof.
  intros [H0 H1]. unfold TransferOpcodeToPermission, permList_at.
  destruct (Z.leb_spec MAX_PERM_SIZE code); [lia|]. destruct (Z.ltb_spec code 0); [lia|].
  destruct (lookup_lt_is_Some_2 g_permList (Z.to_nat code)) as [d Hd];
    [unfold MAX_PERM_SIZE in H1; lia|].
  rewrite Hd. apply permMap_lookup. split; [done|]. exists d. split; [done|].
  symmetry. apply permList_c_str. by eapply list_elem_of_lookup_2.
Qed.

Lemma opcode_inj p q code :
  TransferPermissionToOpcode p = Some code -> TransferPermissionToOpcode q = Some code ->
  c_str p = c_str q.
Proof. intros Hp%opcode_to_name Hq%opcode_to_name. congruence. Qed.

(** Switching an entry changes that entry's switch and nothing else. *)
Lemma SetPermissionBriefEnabled_lookup p e code d :
  TransferPermissionToOpcode p = Some code -> permList_at code = Some d ->
  forall code', @permList_at (SetPermissionBriefEnabled p e).2 code' =
    if code' =? code then Some (set_isEnable e d) else permList_at code'.
Proof.
  intros Hp Hd code'. unfold SetPermissionBriefEnabled. rewrite Hp. cbn.
  unfold permList_at in *. cbn.
  destruct (Z.ltb_spec code 0); [done|].
  destruct (Z.eqb_spec code' code) as [->|Hne].
  - destruct (Z.ltb_spec code 0); [lia|]. rewrite list_lookup_alter_eq. by rewrite Hd.
  - destruct (Z.ltb_spec code' 0); [done|]. rewrite list_lookup_alter_ne; [done|lia].
Qed.

Lemma InitMap_loop_names l1 : forall l2 i m,
  map pbd_permissionName l1 = map pbd_permissionName l2 -> InitMap_loop i l1 m = InitMap_loop i l2 m.
Proof.
  induction l1 as [|d l1 IH]; intros [|d2 l2] i m; cbn; try done.
  intros [= -> E]. by apply IH.
Qed.

Lemma SetPermissionBriefEnabled_names p e :
  map pbd_permissionName (@g_permList (SetPermissionBriefEnabled p e).2) = map pbd_permissionName g_permList.
Proof.
  unfold SetPermissionBriefEnabled. destruct (TransferPermissionToOpcode p); [|done]. cbn.
  generalize (Z.to_nat z). generalize g_permList as l. induction l as [|d l IH]; intros [|n]; cbn; try done.
  f_equal. apply IH.
Qed.

End Lemmas.

(** ** A concrete table, used to evaluate the definitions. *)
Definition plain_def (name : string) (mode level atype : Z) : PermissionBriefDef :=
  mkPermissionBriefDef name mode level atype false false false false true false.

Definition CAMERA : string := "ohos.permission.CAMERA".
Definition LOCATION : string := "ohos.permission.LOCATION".
Definition APPROXIMATELY_LOCATION : string := "ohos.permission.APPROXIMATELY_LOCATION".
Definition LOCATION_IN_BACKGROUND : string := "ohos.permission.LOCATION_IN_BACKGROUND".
Definition INTERNET : string := "ohos.permission.INTERNET".
Definition KERNEL_VALUE : string := "ohos.permission.kernel.SUPPORT_PLUGIN".

Definition sample_table : PermTable := mkPermTable
  [ plain_def CAMERA USER_GRANT APL_NORMAL AVAILABLE_NORMAL;
    plain_def LOCATION USER_GRANT APL_NORMAL AVAILABLE_NORMAL;
    plain_def APPROXIMATELY_LOCATION USER_GRANT APL_NORMAL AVAILABLE_NORMAL;
    plain_def LOCATION_IN_BACKGROUND USER_GRANT APL_NORMAL AVAILABLE_NORMAL;
    plain_def INTERNET SYSTEM_GRANT APL_NORMAL AVAILABLE_NORMAL;
    mkPermissionBriefDef KERNEL_VALUE SYSTEM_GRANT APL_SYSTEM_BASIC AVAILABLE_NORMAL
      true false true true true false ]
  ∅.

Lemma sample_table_laws : PermTableLaws sample_table.
Proof.
  split.
  - vm_compute. repeat constructor; vm_compute; set_solver.
  - intros d Hd. repeat (apply elem_of_cons in Hd as [->|Hd]; [done|]). by apply not_elem_of_nil in Hd.
  - intros d Hd. repeat (apply elem_of_cons in Hd as [->|Hd]; [done|]). by apply not_elem_of_nil in Hd.
  - intros d Hd. repeat (apply elem_of_cons in Hd as [->|Hd]; [done|]). by apply not_elem_of_nil in Hd.
  - done.
Qed.
