(* ===== verification/CoreProps.v ===== *)
(** * What the shared layers guarantee

    The bit layout of token ids, the numbering of permissions, and the atomicity of the
    database batch every manager relies on. *)

From stdpp Require Import base gmap list strings.
From S2P Require Import Prelude AccessTokenTypes TokenId PermissionMap Database.
#[local] Open Scope string_scope.
#[local] Open Scope list_scope.
#[local] Open Scope Z_scope.

(** The bit-fields of a token id and the 32-bit id determine each other: unpacking and
    packing an id gives it back, packing and unpacking fields in their widths gives them
    back, and every unpacked field is within its width. *)
Theorem tokenid_roundtrip :
  (forall id, is_u32 id -> id_of_inner (inner_of_id id) = id /\ inner_wf (inner_of_id id)) /\
  (forall x, inner_wf x -> is_u32 (id_of_inner x) /\ inner_of_id (id_of_inner x) = x).
Proof.
  split.
  - intros id Hid. split; [by apply id_of_inner_of_id|apply inner_of_id_wf].
  - intros x Hx. split; [apply id_of_inner_u32|by apply inner_of_id_of_inner].
Qed.

Section Opcodes.
Context {PT : PermTable} `{!PermTableLaws PT}.

(** The permission table numbers the permissions one to one: a code below the table size
    names a permission whose code it is, a name's code is below the table size and names
    it back, and a name outside the table has no code. *)
Theorem opcode_roundtrip :
  (forall code, 0 <= code < MAX_PERM_SIZE ->
     TransferPermissionToOpcode (TransferOpcodeToPermission code) = Some code) /\
  (forall p code, TransferPermissionToOpcode p = Some code ->
     0 <= code < MAX_PERM_SIZE /\ TransferOpcodeToPermission code = c_str p) /\
  (forall p, TransferPermissionToOpcode p = None <->
     forall d, d ∈ g_permList -> pbd_permissionName d <> c_str p).
Proof.
  split_and!.
  - apply name_to_opcode.
  - intros p code H. split; [by eapply opcode_range|by apply opcode_to_name].
  - intros p. split.
    + intros H d Hd E. apply list_elem_of_lookup in Hd as [i Hi].
      assert (TransferPermissionToOpcode p = Some (Z.of_nat i)) as H'; [|congruence].
      apply permMap_lookup. split; [lia|]. exists d. by rewrite Nat2Z.id.
    + intros H. destruct (TransferPermissionToOpcode p) as [code|] eqn:E; [exfalso|done].
      apply permMap_lookup in E as (_ & d & Hd & E). apply (H d); [|done]. by eapply list_elem_of_lookup_2.
Qed.

End Opcodes.

Section Batches.
Context {D T : Type} `{!RdbStore D T, !RdbStoreLaws D T}.

(** C24: A batch of deletions and insertions is atomic, through the transaction, the rollback
    and the restore-and-retry of the database layer: when it reports success every table
    holds the deletions and then the insertions of its items, and when it reports an error
    no table has changed. *)
Theorem DeleteAndInsertValues_atomic (d : D) dels adds e (d' : D) :
  DeleteAndInsertValues d dels adds = (e, d') ->
  forall ty, rdb_rows d' (GetTableNameByType ty) ≡ₚ
    (if decide (e = E_OK)
     then apply_adds adds ty (apply_dels dels ty (rdb_rows d (GetTableNameByType ty)))
     else rdb_rows d (GetTableNameByType ty)).
Proof. apply DeleteAndInsertValues_spec. Qed.

End Batches.

(** A batch whose first attempt meets a corrupt database and whose retry succeeds, and one
    that fails twice. *)
Definition sample_add : AddInfo :=
  mkAddInfo ACCESSTOKEN_USER_POLICY [Put FIELD_PERMISSION_NAME (TYPE_STRING CAMERA) ∅].

Lemma DeleteAndInsertValues_atomic_witness :
  rdb_rows (DeleteAndInsertValues (mkMemRdb ∅ [11; 0; 0; 0]) [] [sample_add]).2
    (GetTableNameByType ACCESSTOKEN_USER_POLICY) ≡ₚ [{[FIELD_PERMISSION_NAME := VString CAMERA]}] /\
  rdb_rows (DeleteAndInsertValues (mkMemRdb ∅ [11; 0; 5]) [] [sample_add]).2
    (GetTableNameByType ACCESSTOKEN_USER_POLICY) ≡ₚ [].
Proof.
  set (d1 := mkMemRdb ∅ [11; 0; 0; 0]). set (d2 := mkMemRdb ∅ [11; 0; 5]). split.
  - assert (DeleteAndInsertValues d1 [] [sample_add] = (E_OK, (DeleteAndInsertValues d1 [] [sample_add]).2)) as E
      by (apply injective_projections; [vm_compute; reflexivity|reflexivity]).
    rewrite (DeleteAndInsertValues_atomic _ _ _ _ _ E). rewrite decide_True by reflexivity. vm_compute. reflexivity.
  - assert (DeleteAndInsertValues d2 [] [sample_add] = (5, (DeleteAndInsertValues d2 [] [sample_add]).2)) as E
      by (apply injective_projections; [vm_compute; reflexivity|reflexivity]).
    rewrite (DeleteAndInsertValues_atomic _ _ _ _ _ E). rewrite decide_False by discriminate. reflexivity.
Defined.

(** The permission of code 3 in the sample table. *)
Lemma opcode_roundtrip_witness :
  @TransferOpcodeToPermission sample_table 3 = LOCATION_IN_BACKGROUND /\
  @TransferPermissionToOpcode sample_table LOCATION_IN_BACKGROUND = Some 3 /\
  @TransferPermissionToOpcode sample_table "ohos.permission.UNKNOWN" = None.
Proof.
  destruct (@opcode_roundtrip sample_table sample_table_laws) as (H1 & _ & H3).
  split; [vm_compute; reflexivity|]. split.
  - exact (H1 3 ltac:(unfold MAX_PERM_SIZE; cbn; lia)).
  - apply H3. intros d Hd. repeat (apply elem_of_cons in Hd as [->|Hd]; [discriminate|]). by apply not_elem_of_nil in Hd.
Defined.

Lemma tokenid_roundtrip_witness :
  id_of_inner (inner_of_id 0x2810000a) = 0x2810000a.
Proof. apply tokenid_roundtrip. unfold is_u32. lia. Defined.
