(* ===== verification/Json.v ===== *)
(** * The JSON adapter

    frameworks/json_adapter/src/cjson_utils.cpp: the accessors and constructors the managers
    use on cJSON values.  The text form of a value is the library's: [JsonText] with its law.
    The allocations of the library are taken to succeed. *)

From stdpp Require Import base gmap countable list strings.
From S2P Require Import Prelude PermissionMap.
#[local] Open Scope string_scope.
#[local] Open Scope list_scope.
#[local] Open Scope Z_scope.

(** A [cJSON] value; an object keeps its members in order. *)
Inductive Json :=
  | JNull
  | JBool (b : bool)
  | JNumber (z : Z)
  | JString (s : string)
  | JArray (l : list Json)
  | JObject (l : list (string * Json)).

(** [cJSON_GetObjectItemCaseSensitive]: the first member of that name. *)
Definition GetObjectItem (j : Json) (key : string) : option Json :=
  match j with
  | JObject l => snd <$> find_if (fun kv : string * Json => String.eqb (c_str key) kv.1) l
  | _ => None
  end.

(** [cJSON_ReplaceItemInObjectCaseSensitive], of the first member of that name. *)
Definition ReplaceItem (j : Json) (key : string) (item : Json) : Json :=
  match j with
  | JObject l => JObject (update_first (fun kv : string * Json => String.eqb (c_str key) kv.1) (fun kv => (kv.1, item)) l)
  | _ => j
  end.
(** [cJSON_AddItemToObject]. *)
Definition AddItem (j : Json) (key : string) (item : Json) : Json :=
  match j with JObject l => JObject (l ++ [(c_str key, item)]) | _ => j end.

(** A member of a name is replaced, or added when there is none. *)
Definition put_item (jsonObj : Json) (key : string) (item : Json) : Json :=
  match GetObjectItem jsonObj key with
  | None => AddItem jsonObj key item
  | Some _ => ReplaceItem jsonObj key item
  end.

Definition CreateJson : Json := JObject [].
Definition CreateJsonArray : Json := JArray [].

Definition GetObjFromJson (jsonObj : Json) (key : string) : option Json :=
  if String.eqb key "" then None
  else match GetObjectItem jsonObj key with
       | Some (JObject l) => Some (JObject l)
       | _ => None
       end.
Definition GetArrayFromJson (jsonObj : Json) (key : string) : option (list Json) :=
  if String.eqb key "" then None
  else match GetObjectItem jsonObj key with
       | Some (JArray l) => Some l
       | _ => None
       end.
(** The out parameter is left as it was when there is no string. *)
Definition GetStringFromJson (jsonObj : Json) (key out : string) : bool * string :=
  if String.eqb key "" then (false, out)
  else match GetObjectItem jsonObj key with
       | Some (JString s) => (true, c_str s)
       | _ => (false, out)
       end.
Definition GetBoolFromJson (jsonObj : Json) (key : string) (value : bool) : bool * bool :=
  if String.eqb key "" then (false, value)
  else match GetObjectItem jsonObj key with
       | Some (JBool b) => (true, b)
       | _ => (false, value)
       end.

Definition AddObjToJson (jsonObj : Json) (key : string) (childObj : Json) : Json :=
  if String.eqb key "" then jsonObj else put_item jsonObj key childObj.
(** An empty string is not added. *)
Definition AddStringToJson (jsonObj : Json) (key value : string) : Json :=
  if String.eqb key "" || String.eqb value "" then jsonObj else put_item jsonObj key (JString (c_str value)).
Definition AddBoolToJson (jsonObj : Json) (key : string) (value : bool) : Json :=
  if String.eqb key "" then jsonObj else put_item jsonObj key (JBool value).
Definition AddStringToArray (jsonArr : Json) (value : string) : Json :=
  match jsonArr with JArray l => JArray (l ++ [JString (c_str value)]) | _ => jsonArr end.

(** ** The text form. *)
Class JsonText := {
  json_print : Json -> string;
  json_parse : string -> option Json;
}.

(** Values without numbers and without embedded NULs are read back as they were written, and
    the text is a C string that is not empty. *)
Fixpoint json_plain (j : Json) : bool :=
  match j with
  | JNull | JBool _ => true
  | JNumber _ => false
  | JString s => String.eqb (c_str s) s
  | JArray l => forallb json_plain l
  | JObject l => forallb (fun kv => String.eqb (c_str kv.1) kv.1 && json_plain kv.2) l
  end.
Class JsonTextLaws `{!JsonText} := {
  json_read_print j : json_plain j = true -> json_parse (json_print j) = Some j;
  json_print_c_str j : c_str (json_print j) = json_print j;
  json_print_nonempty j : json_print j <> "";
}.

Section JsonText.
Context `{!JsonText}.
Definition PackJsonToString (jsonObj : Json) : string := json_print jsonObj.
Definition CreateJsonFromString (jsonStr : string) : option Json :=
  if String.eqb jsonStr "" then None else json_parse (c_str jsonStr).
End JsonText.

(** ** Members after a change. *)
Lemma GetObjectItem_put l key item key' :
  GetObjectItem (put_item (JObject l) key item) key' =
    if String.eqb (c_str key') (c_str key) then Some item else GetObjectItem (JObject l) key'.
Proof.
  unfold put_item. cbn [GetObjectItem]. destruct (find_if (fun kv : string * Json => String.eqb (c_str key) kv.1) l) as [[k j]|] eqn:F; cbn.
  - destruct (String.eqb_spec (c_str key') (c_str key)) as [->|Hne].
    + erewrite find_if_update_eq; [|done|exact F]. done.
    + rewrite find_if_update_ne; [done|]. intros [k' j']; cbn. intros E%String.eqb_eq. subst k'.
      by destruct (String.eqb_spec (c_str key') (c_str key)).
  - rewrite find_if_app. destruct (String.eqb_spec (c_str key') (c_str key)) as [->|Hne].
    + rewrite F. cbn. by rewrite String.eqb_refl.
    + clear F. destruct (find_if _ l); [done|]. cbn. by destruct (String.eqb_spec (c_str key') (c_str key)).
Qed.

(** ** A text form that keeps the laws. *)
Fixpoint json_tree (j : Json) : gen_tree (string + Z + bool) :=
  match j with
  | JNull => GenNode 0 []
  | JBool b => GenLeaf (inr b)
  | JNumber z => GenLeaf (inl (inr z))
  | JString s => GenLeaf (inl (inl s))
  | JArray l => GenNode 1 (json_tree <$> l)
  | JObject l => GenNode 2 ((fun kv => GenNode 3 [GenLeaf (inl (inl kv.1)); json_tree kv.2]) <$> l)
  end.
Fixpoint tree_json (t : gen_tree (string + Z + bool)) : Json :=
  match t with
  | GenLeaf (inr b) => JBool b
  | GenLeaf (inl (inr z)) => JNumber z
  | GenLeaf (inl (inl s)) => JString s
  | GenNode 1 l => JArray (tree_json <$> l)
  | GenNode 2 l => JObject ((fun t => match t with GenNode 3 [GenLeaf (inl (inl k)); v] => (k, tree_json v) | _ => (EmptyString, JNull) end) <$> l)
  | GenNode _ _ => JNull
  end.
Lemma tree_json_tree j : tree_json (json_tree j) = j.
Proof.
  revert j. fix IH 1. intros [|b|z|s|l|l]; cbn; try done.
  - f_equal. induction l as [|x l IHl]; cbn; [done|]. by rewrite IH, IHl.
  - f_equal. induction l as [|[k x] l IHl]; cbn; [done|]. by rewrite IH, IHl.
Qed.

Definition sample_text : JsonText := {|
  json_print j := print_N (Npos (encode (json_tree j)));
  json_parse s := match read_digits 0 s with Some (Npos p) => tree_json <$> decode p | _ => None end;
|}.

Lemma print_digits_c_str fuel : forall n acc, c_str acc = acc -> c_str (print_digits fuel n acc) = print_digits fuel n acc.
Proof.
  induction fuel as [|fuel IH]; intros n acc H; cbn; [done|].
  assert (c_str (String (digit_char (n mod 10)) acc) = String (digit_char (n mod 10)) acc) as Hc.
  { cbn. rewrite H, digit_char_ne; [done|apply N.mod_lt; lia|done]. }
  destruct (n <? 10)%N; [done|]. by apply IH.
Qed.

Lemma sample_text_laws : @JsonTextLaws sample_text.
Proof.
  split; cbn [json_print json_parse sample_text].
  - intros j _. rewrite read_print_N, decode_encode. cbn. by rewrite tree_json_tree.
  - intros j. by apply print_digits_c_str.
  - intros j. destruct (print_N_cons (Npos (encode (json_tree j)))) as (d & s & -> & _). done.
Qed.
