(* ===== verification/Validator.v ===== *)
(** * Validators

    frameworks/common/src: the parameter checks of data_validator.cpp, the
    permission checks and filters of permission_validator.cpp and the flag
    helpers of constant_common.cpp. *)

From stdpp Require Import base gmap list strings.
From S2P Require Import Prelude AccessTokenTypes TokenId PermissionMap.
#[local] Open Scope string_scope.
#[local] Open Scope list_scope.
#[local] Open Scope Z_scope.
#[local] Open Scope cxx_scope.

(** ** Limits (data_validator.h). *)
Definition MAX_LENGTH : Z := 256.
Definition MAX_DEVICE_NAME_LENGTH : Z := 100.
Definition MAX_APPIDDESC_LENGTH : Z := 10240.
Definition MAX_ENHANCED_IDENTITY_LENGTH : Z := 48.
Definition MAX_EXTENDED_MAP_SIZE : Z := 512.
Definition MAX_VALUE_LENGTH : Z := 1024.
Definition MAX_LIST_SIZE : Z := 1024.
Definition MAX_FEATURE_SIZE : Z := 64.

Definition strlen (s : string) : Z := Z.of_nat (String.length s).
Definition str_empty (s : string) : bool := String.eqb s "".

(** ** ConstantCommon: flag helpers and device names. *)
Definition MINDEVICEIDLEN : nat := 8.
Definition ENCRYPTBEGIN : nat := 0.
Definition ENCRYPTLEN : nat := 4.

(** [s.replace(pos, len, t)]. *)
Definition str_replace (pos len : nat) (t s : string) : string :=
  String.substring 0 pos s +:+ t +:+ String.substring (pos + len) (String.length s - (pos + len)) s.

Definition EncryptDevId (deviceId : string) : string :=
  if str_empty deviceId then deviceId
  else if bool_decide (MINDEVICEIDLEN < String.length deviceId)%nat
  then str_replace (ENCRYPTBEGIN + ENCRYPTLEN) (String.length deviceId - MINDEVICEIDLEN) "****" deviceId
  else str_replace (ENCRYPTBEGIN + 1) (String.length deviceId - 1) "*******" deviceId.

Definition IsPermOperatedByUser (flag : Z) : bool :=
  let uFlag := u32 flag in nz (uFlag .& PERMISSION_USER_FIXED) || nz (uFlag .& PERMISSION_USER_SET).
Definition IsPermOperatedBySystem (flag : Z) : bool :=
  let uFlag := u32 flag in
  nz (uFlag .& PERMISSION_SYSTEM_FIXED) || nz (uFlag .& PERMISSION_PRE_AUTHORIZED_CANCELABLE).
Definition IsPermGrantedBySecComp (flag : Z) : bool :=
  let uFlag := u32 flag in nz (uFlag .& PERMISSION_COMPONENT_SET).
Definition GetFlagWithoutSpecifiedElement (fullFlag removedFlag : Z) : Z :=
  fullFlag .& u32_not removedFlag.

(** ** DataValidator. *)
Definition IsBundleNameValid (bundleName : string) : bool :=
  negb (str_empty bundleName) && (strlen bundleName <=? MAX_LENGTH).
Definition IsLabelValid (label : string) : bool := strlen label <=? MAX_LENGTH.
Definition IsDescValid (desc : string) : bool := strlen desc <=? MAX_LENGTH.
Definition IsPermissionNameValid (permissionName : string) : bool :=
  if str_empty permissionName || (MAX_LENGTH <? strlen permissionName) then false else true.
Definition IsUserIdValid (userId : Z) : bool := if userId <? 0 then false else true.
Definition IsAclExtendedMapSizeValid (aclExtendedMap : gmap string string) : bool :=
  if MAX_EXTENDED_MAP_SIZE <? Z.of_nat (size aclExtendedMap) then false else true.
Definition IsAclExtendedMapContentValid (permissionName value : string) : bool :=
  if negb (IsPermissionNameValid permissionName) then false
  else if str_empty value || (MAX_VALUE_LENGTH <? strlen value) then false else true.
Definition IsAppProvisionTypeValid (appProvisionType : string) : bool :=
  String.eqb appProvisionType "release" || String.eqb appProvisionType "debug".
Definition IsToggleStatusValid (status : Z) : bool := (status =? CLOSED) || (status =? OPEN).
Definition IsAppIDDescValid (appIDDesc : string) : bool :=
  negb (str_empty appIDDesc) && (strlen appIDDesc <=? MAX_APPIDDESC_LENGTH).
Definition IsDomainValid (domain : string) : bool :=
  negb (str_empty domain) && (strlen domain <=? MAX_LENGTH).
Definition IsAplNumValid (apl : Z) : bool :=
  (apl =? APL_NORMAL) || (apl =? APL_SYSTEM_BASIC) || (apl =? APL_SYSTEM_CORE).
Definition IsAvailableTypeValid (availableType : Z) : bool :=
  (availableType =? AVAILABLE_NORMAL) || (availableType =? AVAILABLE_MDM).
Definition IsProcessNameValid (processName : string) : bool :=
  negb (str_empty processName) && (strlen processName <=? MAX_LENGTH).
Definition IsDeviceIdValid (deviceId : string) : bool :=
  if str_empty deviceId || (MAX_LENGTH <? strlen deviceId) then false else true.
Definition IsDeviceNameValid (deviceName : string) : bool :=
  if str_empty deviceName || (MAX_DEVICE_NAME_LENGTH <? strlen deviceName) then false else true.
Definition IsDcapValid (dcap : string) : bool :=
  negb (str_empty dcap) && (strlen dcap <=? MAX_VALUE_LENGTH).

(** [additiveMask]: the flags that may accompany any base flag. *)
Definition additiveMask : Z :=
  PERMISSION_PRE_AUTHORIZED_CANCELABLE .| PERMISSION_COMPONENT_SET .| PERMISSION_RESTRICTED_BY_ADMIN.
Definition IsPermissionFlagValid (flag : Z) : bool :=
  let baseFlag := flag .& u32_not additiveMask in
  (baseFlag =? PERMISSION_DEFAULT_FLAG) || (baseFlag =? PERMISSION_USER_SET) ||
  (baseFlag =? PERMISSION_USER_FIXED) || (baseFlag =? PERMISSION_SYSTEM_FIXED) ||
  (baseFlag =? PERMISSION_FIXED_FOR_SECURITY_POLICY) || (baseFlag =? PERMISSION_ALLOW_THIS_TIME) ||
  (baseFlag =? PERMISSION_FIXED_BY_ADMIN_POLICY) || (baseFlag =? PERMISSION_ADMIN_POLICIES_CANCEL).
Definition IsPermissionFlagValidForAdmin (flag : Z) : bool :=
  (flag =? PERMISSION_FIXED_BY_ADMIN_POLICY) || (flag =? PERMISSION_ADMIN_POLICIES_CANCEL).
Definition IsAdminPermissionFlag (flag : Z) : bool :=
  nz (flag .& (PERMISSION_FIXED_BY_ADMIN_POLICY .| PERMISSION_ADMIN_POLICIES_CANCEL)).
Definition IsPermissionStatusValid (status : Z) : bool :=
  (status =? PERMISSION_GRANTED) || (status =? PERMISSION_DENIED).
Definition IsTokenIDValid (id : Z) : bool := if id =? 0 then false else true.
Definition IsDlpTypeValid (dlpType : Z) : bool :=
  (dlpType =? DLP_COMMON) || (dlpType =? DLP_READ) || (dlpType =? DLP_FULL_CONTROL) ||
  (dlpType =? DLP_READ_PERM) || (dlpType =? DLP_FULL_PERM).

(** [PermissionUsageFlag] 0..6, [PermissionUsedType] 0..2, [PolicyType], [CallerType]. *)
Definition IsPermissionUsedFlagValid (flag : Z) : bool :=
  (flag =? 0) || (flag =? 1) || (flag =? 2) || (flag =? 3) || (flag =? 4) || (flag =? 5) || (flag =? 6).
Definition IsPermissionUsedTypeValid (type : Z) : bool :=
  if negb (type =? 0) && negb (type =? 1) && negb (type =? 2) then false else true.
Definition IsEnhancedIdentityValid (enhancedIdentity : string) : bool :=
  if MAX_ENHANCED_IDENTITY_LENGTH <? strlen enhancedIdentity then false else true.
Definition IsUpdateWhiteListTypeValid (type : Z) : bool :=
  if negb (type =? ADD) && negb (type =? DELETE) then false else true.
Definition IsRemotePermissionUsedFlagValid (flag : Z) : bool := (flag =? 0) || (flag =? 1).
Definition IsPolicyTypeValid (type : Z) : bool :=
  if negb (type =? 0) && negb (type =? 1) && negb (type =? 2) then false else true.
Definition IsCallerTypeValid (type : Z) : bool :=
  if negb (type =? 0) && negb (type =? 1) then false else true.
Definition IsNativeCaller (id : Z) : bool :=
  if negb (type (inner_of_id id) =? TOKEN_NATIVE) then false else true.
Definition IsHapCaller (id : Z) : bool :=
  if negb (type (inner_of_id id) =? TOKEN_HAP) then false else true.
Definition IsListSizeValid (size : Z) : bool :=
  if (size =? 0) || (MAX_LIST_SIZE <? size) then false else true.
Definition IsPermFeatureValid (feature : string) : bool :=
  if MAX_FEATURE_SIZE <? strlen feature then false else true.

(** ** PermissionValidator. *)
Definition IsGrantModeValid (grantMode : Z) : bool :=
  (grantMode =? SYSTEM_GRANT) || (grantMode =? USER_GRANT) || (grantMode =? MANUAL_SETTINGS).
Definition IsGrantStatusValid (grantStatus : Z) : bool :=
  (grantStatus =? PERMISSION_GRANTED) || (grantStatus =? PERMISSION_DENIED).

Definition IsPermissionDefValid (permDef : PermissionDef) : bool :=
  if negb (IsLabelValid (pd_label permDef)) then false
  else if negb (IsDescValid (pd_description permDef)) then false
  else if negb (IsBundleNameValid (pd_bundleName permDef)) then false
  else if negb (IsPermissionNameValid (pd_permissionName permDef)) then false
  else if negb (IsGrantModeValid (pd_grantMode permDef)) then false
  else if negb (IsAvailableTypeValid (pd_availableType permDef)) then false
  else if negb (IsAplNumValid (pd_availableLevel permDef)) then false
  else true.

Section PermissionValidator.
Context {PT : PermTable}.

Definition IsPermissionAvailable (tokenType : Z) (permissionName : string) : bool :=
  if tokenType =? TOKEN_HAP then
    if negb (IsPermissionValidForHap permissionName) then false else true
  else true.

Definition IsPermissionStateValid (permState : PermissionStatus) : bool :=
  if negb (IsPermissionNameValid (ps_permissionName permState)) then false
  else if negb (IsGrantStatusValid (ps_grantStatus permState)) ||
          negb (IsPermissionFlagValid (ps_grantFlag permState)) then false
  else true.

(** The loop shared by the two filters: the names kept so far are in [seen]. *)
Fixpoint FilterInvalidPermissionDef_loop (seen : gset string) (permList : list PermissionDef)
    : list PermissionDef :=
  match permList with
  | [] => []
  | it :: rest =>
      if negb (IsPermissionDefValid it) || bool_decide (pd_permissionName it ∈ seen)
      then FilterInvalidPermissionDef_loop seen rest
      else it :: FilterInvalidPermissionDef_loop ({[pd_permissionName it]} ∪ seen) rest
  end.
Definition FilterInvalidPermissionDef (permList : list PermissionDef) : list PermissionDef :=
  FilterInvalidPermissionDef_loop ∅ permList.

Fixpoint FilterInvalidPermissionState_loop (tokenType : Z) (doPermAvailableCheck : bool)
    (permStateSet : gset string) (permList : list PermissionStatus) : list PermissionStatus :=
  match permList with
  | [] => []
  | it :: rest =>
      if negb (IsPermissionStateValid it) || bool_decide (ps_permissionName it ∈ permStateSet)
      then FilterInvalidPermissionState_loop tokenType doPermAvailableCheck permStateSet rest
      else if doPermAvailableCheck && negb (IsPermissionAvailable tokenType (ps_permissionName it))
      then FilterInvalidPermissionState_loop tokenType doPermAvailableCheck permStateSet rest
      else it :: FilterInvalidPermissionState_loop tokenType doPermAvailableCheck
                   ({[ps_permissionName it]} ∪ permStateSet) rest
  end.
Definition FilterInvalidPermissionState (tokenType : Z) (doPermAvailableCheck : bool)
    (permList : list PermissionStatus) : list PermissionStatus :=
  FilterInvalidPermissionState_loop tokenType doPermAvailableCheck ∅ permList.

(** What makes an entry acceptable to [FilterInvalidPermissionState]. *)
Definition state_acceptable (tokenType : Z) (check : bool) (s : PermissionStatus) : bool :=
  IsPermissionStateValid s && (negb check || IsPermissionAvailable tokenType (ps_permissionName s)).

(** ** Lemmas. *)
Lemma FilterInvalidPermissionState_loop_spec tt check l : forall seen,
  let r := FilterInvalidPermissionState_loop tt check seen l in
  sublist r l /\
  (forall s, s ∈ r -> ~ (ps_permissionName s ∈ seen) /\ state_acceptable tt check s = true) /\
  NoDup (map ps_permissionName r) /\
  (forall name : string, name ∉ seen ->
     find_if (fun s => String.eqb (ps_permissionName s) name) r =
     find_if (fun s => String.eqb (ps_permissionName s) name && state_acceptable tt check s) l).
Proof.
  unfold state_acceptable. induction l as [|it l IH]; intros seen; cbn.
  { split_and!; [constructor| |constructor|done]. by intros s ?%not_elem_of_nil. }
  destruct (IsPermissionStateValid it) eqn:V; cbn [negb orb andb].
  2:{ destruct (IH seen) as (H1 & H2 & H3 & H4). split_and!; try done; [by constructor|].
      intros name Hn. rewrite H4 by done. by rewrite andb_false_r. }
  case_bool_decide as Hs.
  { destruct (IH seen) as (H1 & H2 & H3 & H4). split_and!; try done; [by constructor|].
    intros name Hn. rewrite H4 by done. destruct (String.eqb_spec (ps_permissionName it) name) as [<-|]; [|done].
    by destruct Hn. }
  destruct (check && negb _) eqn:A.
  { destruct (IH seen) as (H1 & H2 & H3 & H4). split_and!; try done; [by constructor|].
    intros name Hn. rewrite H4 by done.
    replace (negb check || _) with false by (by destruct check, (IsPermissionAvailable _ _)).
    by rewrite andb_false_r. }
  destruct (IH ({[ps_permissionName it]} ∪ seen)) as (H1 & H2 & H3 & H4).
  assert (negb check || IsPermissionAvailable tt (ps_permissionName it) = true) as A'
    by (by destruct check, (IsPermissionAvailable _ _)).
  split_and!.
  - by constructor.
  - intros s [->|Hin]%elem_of_cons; [by rewrite V|]. destruct (H2 s Hin) as [? ?]. set_solver.
  - cbn. constructor; [|done]. intros (s & E & Hin)%list_elem_of_fmap. destruct (H2 s Hin). set_solver.
  - intros name Hn. cbn. rewrite A', andb_true_r.
    destruct (String.eqb_spec (ps_permissionName it) name) as [|Hne]; [done|].
    apply H4. set_solver.
Qed.

Lemma FilterInvalidPermissionState_NoDup tt check l :
  NoDup (map ps_permissionName (FilterInvalidPermissionState tt check l)).
Proof. apply FilterInvalidPermissionState_loop_spec. Qed.

Lemma FilterInvalidPermissionState_ok tt check l s :
  s ∈ FilterInvalidPermissionState tt check l -> s ∈ l /\ state_acceptable tt check s = true.
Proof.
  destruct (FilterInvalidPermissionState_loop_spec tt check l ∅) as (H1 & H2 & _). intros Hin. split.
  - by eapply elem_of_sublist.
  - by apply H2.
Qed.

(** [FilterInvalidPermissionState] returns a subsequence of its input, without
    repeated names, in which the entry of each name is the first acceptable entry
    of that name in the input (valid name, status and flag, and available to the
    token type when that is asked for); a name without an acceptable entry is absent. *)
Theorem FilterInvalidPermissionState_spec tokenType check permList :
  let result := FilterInvalidPermissionState tokenType check permList in
  result `sublist_of` permList /\
  NoDup (map ps_permissionName result) /\
  (forall name, find_if (fun s => String.eqb (ps_permissionName s) name) result =
     find_if (fun s => String.eqb (ps_permissionName s) name && state_acceptable tokenType check s)
       permList).
Proof.
  destruct (FilterInvalidPermissionState_loop_spec tokenType check permList ∅) as (H1 & H2 & H3 & H4).
  split_and!; try done. intros name. apply H4. set_solver.
Qed.

End PermissionValidator.

(** ** Flags, bit by bit. *)
Lemma GetFlagWithoutSpecifiedElement_testbit f r n :
  0 <= n -> Z.testbit (GetFlagWithoutSpecifiedElement f r) n =
            Z.testbit f n && ((n <? 32) && negb (Z.testbit r n)).
Proof. intros. unfold GetFlagWithoutSpecifiedElement. by rewrite Z.land_spec, u32_not_testbit. Qed.
#[export] Hint Rewrite GetFlagWithoutSpecifiedElement_testbit using lia : bits.

Lemma GetFlagWithoutSpecifiedElement_u32 f r : is_u32 f -> is_u32 (GetFlagWithoutSpecifiedElement f r).
Proof. intros. unfold GetFlagWithoutSpecifiedElement. apply land_is_u32; [done|]. apply u32_range. Qed.
#[export] Hint Resolve GetFlagWithoutSpecifiedElement_u32 : atm.

Lemma IsPermGrantedBySecComp_bit f : IsPermGrantedBySecComp f = Z.testbit f 4.
Proof.
  unfold IsPermGrantedBySecComp, PERMISSION_COMPONENT_SET. cbv zeta.
  by rewrite nz_land_bit, u32_testbit by lia.
Qed.
#[export] Hint Rewrite IsPermGrantedBySecComp_bit : bits.
