(* ===== verification/DataTranslator.v ===== *)
(** * Translation between values and database records

    services/accesstokenmanager/main/cpp/src/database/data_translator.cpp. *)

From stdpp Require Import base gmap list strings.
From S2P Require Import Prelude AccessTokenTypes TokenId PermissionMap Validator Database.
#[local] Open Scope string_scope.
#[local] Open Scope list_scope.
#[local] Open Scope Z_scope.
#[local] Open Scope cxx_scope.

Definition z_of_bool (b : bool) : Z := if b then 1 else 0.

Definition PermissionDef_TranslationIntoGenericValues (d : PermissionDef) (v : GenericValues)
    : GenericValues :=
  Put FIELD_HAS_VALUE (TYPE_INT (z_of_bool (pd_hasValue d))) (
  Put FIELD_KERNEL_EFFECT (TYPE_INT (z_of_bool (pd_isKernelEffect d))) (
  Put FIELD_AVAILABLE_TYPE (TYPE_INT (pd_availableType d)) (
  Put FIELD_DESCRIPTION_ID (TYPE_INT (pd_descriptionId d)) (
  Put FIELD_DESCRIPTION (TYPE_STRING (pd_description d)) (
  Put FIELD_LABEL_ID (TYPE_INT (pd_labelId d)) (
  Put FIELD_LABEL (TYPE_STRING (pd_label d)) (
  Put FIELD_DISTRIBUTED_SCENE_ENABLE (TYPE_INT (z_of_bool (pd_distributedSceneEnable d))) (
  Put FIELD_PROVISION_ENABLE (TYPE_INT (z_of_bool (pd_provisionEnable d))) (
  Put FIELD_AVAILABLE_LEVEL (TYPE_INT (pd_availableLevel d)) (
  Put FIELD_GRANT_MODE (TYPE_INT (pd_grantMode d)) (
  Put FIELD_BUNDLE_NAME (TYPE_STRING (pd_bundleName d)) (
  Put FIELD_PERMISSION_NAME (TYPE_STRING (pd_permissionName d)) v)))))))))))).

Definition TranslationIntoPermissionDef (v : GenericValues) : Z + PermissionDef :=
  let aplNum := GetInt FIELD_AVAILABLE_LEVEL v in
  if negb (IsAplNumValid aplNum) then inl ERR_PARAM_INVALID
  else inr (mkPermissionDef (GetString FIELD_PERMISSION_NAME v) (GetString FIELD_BUNDLE_NAME v)
    (GetInt FIELD_GRANT_MODE v) aplNum (GetInt FIELD_PROVISION_ENABLE v =? 1)
    (GetInt FIELD_DISTRIBUTED_SCENE_ENABLE v =? 1) (GetString FIELD_LABEL v) (GetInt FIELD_LABEL_ID v)
    (GetString FIELD_DESCRIPTION v) (GetInt FIELD_DESCRIPTION_ID v) (GetInt FIELD_AVAILABLE_TYPE v)
    (GetInt FIELD_KERNEL_EFFECT v =? 1) (GetInt FIELD_HAS_VALUE v =? 1)).

Definition TranslationIntoGenericValues (s : PermissionStatus) (v : GenericValues) : GenericValues :=
  Put FIELD_TIMESTAMP (TYPE_INT64 (i64 (ps_timestamp s))) (
  Put FIELD_GRANT_FLAG (TYPE_INT (i32 (ps_grantFlag s))) (
  Put FIELD_GRANT_STATE (TYPE_INT (ps_grantStatus s)) (
  Put FIELD_GRANT_IS_GENERAL (TYPE_INT 1) (
  Put FIELD_DEVICE_ID (TYPE_STRING "PHONE-001") (
  Put FIELD_PERMISSION_NAME (TYPE_STRING (ps_permissionName s)) v))))).

(** The fields the function does not write are those of a new [PermissionStatus]. *)
Definition TranslationIntoPermissionStatus (v : GenericValues) : Z + PermissionStatus :=
  let permissionName := GetString FIELD_PERMISSION_NAME v in
  if negb (IsPermissionNameValid permissionName) then inl ERR_PARAM_INVALID
  else
    let grantFlag := GetInt FIELD_GRANT_FLAG v in
    if negb (IsPermissionFlagValid (u32 grantFlag)) then inl ERR_PARAM_INVALID
    else
      let grantStatus := GetInt FIELD_GRANT_STATE v in
      if negb (IsGrantStatusValid grantStatus) then inl ERR_PARAM_INVALID
      else
        let grantStatus :=
          if nz (u32 grantFlag .& PERMISSION_ALLOW_THIS_TIME) then PERMISSION_DENIED else grantStatus in
        inr (mkPermissionStatus 0 permissionName "" grantStatus (u32 grantFlag)
               (u64 (GetInt64 FIELD_TIMESTAMP v))).

Definition TranslationIntoExtendedPermission (v : GenericValues) : Z + PermissionWithValue :=
  let permissionName := GetString FIELD_PERMISSION_NAME v in
  if negb (IsPermissionNameValid permissionName) then inl ERR_PARAM_INVALID
  else inr (mkPermissionWithValue permissionName (GetString FIELD_VALUE v)).

(** ** Lemmas. *)
Lemma u64_i64 x : u64 (i64 x) = u64 x.
Proof. unfold u64, i64. rewrite Zminus_mod_idemp_l. f_equal. lia. Qed.
Lemma i32_idem x : i32 (i32 x) = i32 x.
Proof. apply i32_small, i32_range. Qed.

(** A permission one-time grant is not restored as granted. *)
Definition reloaded_status (s : PermissionStatus) : Z :=
  if Z.testbit (ps_grantFlag s) 6 then PERMISSION_DENIED else ps_grantStatus s.

Lemma IsGrantStatusValid_iff x :
  IsGrantStatusValid x = true <-> x = PERMISSION_GRANTED \/ x = PERMISSION_DENIED.
Proof.
  unfold IsGrantStatusValid. rewrite orb_true_iff. by rewrite !Z.eqb_eq.
Qed.

Lemma reload_grant_int z :
  variant_GetInt (reload_value FIELD_GRANT_FLAG (TYPE_INT z)) = i32 z /\
  variant_GetInt (reload_value FIELD_GRANT_STATE (TYPE_INT z)) = i32 z /\
  variant_GetInt64 (reload_value FIELD_TIMESTAMP (TYPE_INT64 z)) = z.
Proof. done. Qed.

(** The record holds the name, flag and status of a permission state, as they
    were written or as they come back from the database. *)
Definition holds_status (v : GenericValues) (s : PermissionStatus) : Prop :=
  GetString FIELD_PERMISSION_NAME v = ps_permissionName s /\
  u32 (GetInt FIELD_GRANT_FLAG v) = ps_grantFlag s /\
  GetInt FIELD_GRANT_STATE v = ps_grantStatus s.

Definition status_keys : list string := [FIELD_GRANT_FLAG; FIELD_GRANT_STATE; FIELD_PERMISSION_NAME].

Lemma holds_status_written s v v' :
  is_u32 (ps_grantFlag s) -> is_i32 (ps_grantStatus s) ->
  (forall k, k ∈ status_keys -> v !! k = None) ->
  (forall k, k ∈ status_keys -> v' !! k = TranslationIntoGenericValues s v !! k) ->
  holds_status v' s /\ holds_status (reload v') s.
Proof.
  intros Hf Hs Hv Hv'. unfold status_keys in *.
  pose proof (Hv FIELD_GRANT_FLAG ltac:(set_solver)) as V2.
  pose proof (Hv FIELD_GRANT_STATE ltac:(set_solver)) as V3.
  pose proof (Hv FIELD_PERMISSION_NAME ltac:(set_solver)) as V4.
  unfold holds_status, GetString, GetInt. rewrite !reload_lookup, !Hv' by set_solver.
  unfold TranslationIntoGenericValues. rewrite !Put_lookup. cbn [String.eqb Ascii.eqb Bool.eqb FIELD_TIMESTAMP
    FIELD_GRANT_FLAG FIELD_GRANT_STATE FIELD_GRANT_IS_GENERAL FIELD_DEVICE_ID FIELD_PERMISSION_NAME] in *.
  rewrite V2, V3, V4. cbn.
  destruct (reload_grant_int (i32 (ps_grantFlag s))) as [-> _].
  destruct (reload_grant_int (ps_grantStatus s)) as (_ & -> & _).
  rewrite i32_idem, u32_i32, u32_small by done.
  rewrite (i32_small (ps_grantStatus s)) by done. done.
Qed.

Lemma TranslationIntoPermissionStatus_holds v s :
  holds_status v s ->
  TranslationIntoPermissionStatus v =
    if IsPermissionStateValid s
    then inr (mkPermissionStatus 0 (ps_permissionName s) "" (reloaded_status s) (ps_grantFlag s)
                (u64 (GetInt64 FIELD_TIMESTAMP v)))
    else inl ERR_PARAM_INVALID.
Proof.
  intros (H1 & H2 & H3). unfold TranslationIntoPermissionStatus, IsPermissionStateValid.
  cbv zeta. rewrite H1, H2, H3. destruct (IsPermissionNameValid _); cbn; [|done].
  unfold reloaded_status, PERMISSION_ALLOW_THIS_TIME. rewrite nz_land_bit by lia.
  by destruct (IsPermissionFlagValid _), (IsGrantStatusValid _).
Qed.
