(* ===== verification/PermissionDataBrief.v ===== *)
(** * The permission state store

    services/accesstokenmanager/main/cpp/src/permission/permission_data_brief.cpp:
    the in-memory table that answers every permission check.  For each token it
    keeps the permissions it requests with their grant status and flag
    ([requestedPermData_]), the values of the permissions that carry one
    ([extendedValue_]) and the permissions granted by a security component to any
    token ([secCompList_]).  Each method is a function on the store; the
    reader/writer lock makes the methods atomic, so they are sequential here. *)

From stdpp Require Import base gmap list strings.
From S2P Require Import Prelude AccessTokenTypes TokenId PermissionMap Validator Database DataTranslator.
#[local] Open Scope string_scope.
#[local] Open Scope list_scope.
#[local] Open Scope Z_scope.
#[local] Open Scope cxx_scope.

(** [BriefPermData]: int8_t status, uint8_t type, uint16_t permCode, uint32_t flag. *)
Record BriefPermData := mkBriefPermData {
  bpd_status : Z;
  bpd_type : Z;
  bpd_permCode : Z;
  bpd_flag : Z;
}.

(** [BriefSecCompData]. *)
Record BriefSecCompData := mkBriefSecCompData {
  sc_permCode : Z;
  sc_reserved : Z;
  sc_tokenId : Z;
}.

#[export] Instance BriefPermData_eq_dec : EqDecision BriefPermData.
Proof. solve_decision. Defined.
#[export] Instance BriefSecCompData_eq_dec : EqDecision BriefSecCompData.
Proof. solve_decision. Defined.

(** [PermissionStatusChangeType]. *)
Inductive PermissionStatusChangeType := NO_CHANGE | STATUS_ONLY | FLAG_ONLY | STATUS_AND_FLAG.
#[export] Instance PermissionStatusChangeType_eq_dec : EqDecision PermissionStatusChangeType.
Proof. solve_decision. Defined.

(** The members of [PermissionDataBrief]. *)
Record Brief := mkBrief {
  requestedPermData_ : gmap Z (list BriefPermData);
  extendedValue_ : gmap Z string;
  secCompList_ : list BriefSecCompData;
}.

Definition set_requested (m : gmap Z (list BriefPermData)) (st : Brief) : Brief :=
  mkBrief m (extendedValue_ st) (secCompList_ st).
Definition set_extended (m : gmap Z string) (st : Brief) : Brief :=
  mkBrief (requestedPermData_ st) m (secCompList_ st).
Definition set_secComp (l : list BriefSecCompData) (st : Brief) : Brief :=
  mkBrief (requestedPermData_ st) (extendedValue_ st) l.

Definition set_bpd_flag (f : Z) (d : BriefPermData) : BriefPermData :=
  mkBriefPermData (bpd_status d) (bpd_type d) (bpd_permCode d) f.
Definition set_bpd_status (s : Z) (d : BriefPermData) : BriefPermData :=
  mkBriefPermData s (bpd_type d) (bpd_permCode d) (bpd_flag d).

Definition TOKEN_ID_SHIFT : Z := 32.
Definition IS_KERNEL_EFFECT : Z := 1 .<< 0.
Definition HAS_VALUE : Z := 1 .<< 1.

(** The key of [extendedValue_]: the token in the high word, the code in the low. *)
Definition ext_key (tokenID permCode : Z) : Z := u64 (tokenID .<< TOKEN_ID_SHIFT) .| permCode.

(** ** Helpers of the anonymous namespace. *)
Definition GetPermissionTimestampFromStateValue (stateValue : GenericValues) : Z :=
  let timestamp := GetInt64 FIELD_TIMESTAMP stateValue in
  if timestamp <=? 0 then 0 else u64 timestamp.

Definition BuildPermissionStateKey (stateValue : GenericValues) : string :=
  GetString FIELD_PERMISSION_NAME stateValue +:+ "#" +:+ GetString FIELD_DEVICE_ID stateValue.

Definition GetEffectivePermissionStatus (permData : BriefPermData) : Z :=
  if nz (bpd_flag permData .& PERMISSION_RESTRICTED_BY_ADMIN) then PERMISSION_DENIED
  else if IsPermGrantedBySecComp (bpd_flag permData) then PERMISSION_GRANTED
  else bpd_status permData.

(** The lambda passed to [find_if] everywhere. *)
Definition has_code (code : Z) (d : BriefPermData) : bool := bpd_permCode d =? code.
Definition is_secComp (tokenID permCode : Z) (s : BriefSecCompData) : bool :=
  (sc_tokenId s =? tokenID) && (sc_permCode s =? permCode).

Section PermissionDataBrief.
Context {PT : PermTable}.
Implicit Types (st : Brief) (tokenID permCode opCode : Z).

(** ** Building entries. *)
Definition GetPermissionBriefData (tokenID : Z) (permState : PermissionStatus)
    (aclExtendedMap : gmap string string) (st : Brief) : option BriefPermData * Brief :=
  if negb (IsGrantStatusValid (ps_grantStatus permState)) then (None, st)
  else
    match TransferPermissionToOpcode (ps_permissionName permState) with
    | None => (None, st)
    | Some code =>
        match GetPermissionBriefDef_code code with
        | None => (None, st)
        | Some briefDef =>
            let permCode := u16 code in
            let ty := if pbd_isKernelEffect briefDef then IS_KERNEL_EFFECT else 0 in
            let ty' := if pbd_hasValue briefDef then ty .| HAS_VALUE else ty in
            let st' :=
              if pbd_hasValue briefDef then
                set_extended
                  (<[ext_key tokenID permCode :=
                       default "" (aclExtendedMap !! ps_permissionName permState)]> (extendedValue_ st)) st
              else st in
            (Some (mkBriefPermData (i8 (ps_grantStatus permState)) ty' permCode
                     (u32 (ps_grantFlag permState))), st')
        end
    end.

Definition DeleteExtendedValue (tokenID : Z) (st : Brief) : Brief :=
  set_extended (filter (fun kv => u32 (kv.1 .>> TOKEN_ID_SHIFT) <> tokenID) (extendedValue_ st)) st.

Fixpoint GetPermissionBriefDataList_loop (tokenID : Z) (permStateList : list PermissionStatus)
    (aclExtendedMap : gmap string string) (st : Brief) : list BriefPermData * Brief :=
  match permStateList with
  | [] => ([], st)
  | state :: rest =>
      let '(data, st1) := GetPermissionBriefData tokenID state aclExtendedMap st in
      let '(l, st2) := GetPermissionBriefDataList_loop tokenID rest aclExtendedMap st1 in
      (match data with Some d => d :: l | None => l end, st2)
  end.
Definition GetPermissionBriefDataList (tokenID : Z) (permStateList : list PermissionStatus)
    (aclExtendedMap : gmap string string) (st : Brief) : list BriefPermData * Brief :=
  GetPermissionBriefDataList_loop tokenID permStateList aclExtendedMap (DeleteExtendedValue tokenID st).

Definition AddBriefPermDataByTokenId (tokenID : Z) (listInput : list BriefPermData) (st : Brief) : Brief :=
  set_requested (<[tokenID := listInput]> (delete tokenID (requestedPermData_ st))) st.

Definition AddPermToBriefPermission (tokenId : Z) (permStateList : list PermissionStatus)
    (aclExtendedMap : gmap string string) (defCheck : bool) (st : Brief) : Brief :=
  let tokenType := GetTokenIdTypeEnum tokenId in
  let permStateListRes :=
    if defCheck then FilterInvalidPermissionState tokenType true permStateList else permStateList in
  let '(l, st1) := GetPermissionBriefDataList tokenId permStateListRes aclExtendedMap st in
  AddBriefPermDataByTokenId tokenId l st1.

(** ** Application update. *)
Definition UpdatePermStatus (permOld permNew : BriefPermData) : BriefPermData :=
  if (nz (bpd_flag permOld .& PERMISSION_FIXED_BY_ADMIN_POLICY) ||
      nz (bpd_flag permOld .& PERMISSION_ADMIN_POLICIES_CANCEL)) &&
     (bpd_flag permNew =? PERMISSION_SYSTEM_FIXED) then permNew
  else if nz (bpd_flag permOld .& PERMISSION_ADMIN_POLICIES_CANCEL) &&
          (bpd_flag permNew =? PERMISSION_PRE_AUTHORIZED_CANCELABLE) then permNew
  else if (bpd_flag permOld =? PERMISSION_DEFAULT_FLAG) && (bpd_status permOld =? PERMISSION_DENIED)
  then permNew
  else if (bpd_flag permOld =? PERMISSION_SYSTEM_FIXED) ||
          (bpd_flag permOld =? PERMISSION_PRE_AUTHORIZED_CANCELABLE) then permNew
  else
    let userPolicyFlag := bpd_flag permNew .& PERMISSION_RESTRICTED_BY_ADMIN in
    mkBriefPermData (bpd_status permOld) (bpd_type permNew) (bpd_permCode permNew)
      (GetFlagWithoutSpecifiedElement (bpd_flag permOld) PERMISSION_RESTRICTED_BY_ADMIN .| userPolicyFlag).

Definition GetBriefPermDataByTokenIdInner (tokenID : Z) (st : Brief) : Z * list BriefPermData :=
  match requestedPermData_ st !! tokenID with
  | None => (ERR_TOKEN_INVALID, [])
  | Some l => (RET_SUCCESS, l)
  end.

Definition Update_entry (briefPermDataList : list BriefPermData) (needUpdatePermByProvision : bool)
    (newPermData : BriefPermData) : BriefPermData :=
  match find_if (has_code (bpd_permCode newPermData)) briefPermDataList with
  | None => newPermData
  | Some old =>
      if needUpdatePermByProvision && negb (nz (bpd_flag old .& PERMISSION_FIXED_BY_ADMIN_POLICY))
      then newPermData
      else UpdatePermStatus old newPermData
  end.

Definition Update (tokenId : Z) (permStateList : list PermissionStatus)
    (aclExtendedMap : gmap string string) (needUpdatePermByProvision : bool) (st : Brief) : Brief :=
  let permStateFilterList := FilterInvalidPermissionState TOKEN_HAP true permStateList in
  let '(newList, st1) := GetPermissionBriefDataList tokenId permStateFilterList aclExtendedMap st in
  let briefPermDataList := (GetBriefPermDataByTokenIdInner tokenId st1).2 in
  AddBriefPermDataByTokenId tokenId
    (map (Update_entry briefPermDataList needUpdatePermByProvision) newList) st1.

(** ** Persistence. *)
Definition GetFlagWroteToDb (grantFlag : Z) : Z :=
  GetFlagWithoutSpecifiedElement grantFlag PERMISSION_COMPONENT_SET.

Fixpoint TranslationIntoAclExtendedMap_loop (l : list GenericValues) (aclExtendedMap : gmap string string)
    : Z * gmap string string :=
  match l with
  | [] => (RET_SUCCESS, aclExtendedMap)
  | permValue :: rest =>
      match TranslationIntoExtendedPermission permValue with
      | inl ret => (ret, aclExtendedMap)
      | inr perm =>
          TranslationIntoAclExtendedMap_loop rest
            (<[pwv_permissionName perm := pwv_value perm]> aclExtendedMap)
      end
  end.
Definition TranslationIntoAclExtendedMap (tokenId : Z) (extendedPermRes : gmap Z (list GenericValues))
    : Z * gmap string string :=
  match extendedPermRes !! tokenId with
  | None => (RET_SUCCESS, ∅)
  | Some l => TranslationIntoAclExtendedMap_loop l ∅
  end.

Definition MergePermBriefData (permBriefDataList : list BriefPermData) (data : BriefPermData)
    : list BriefPermData :=
  let data := set_bpd_flag (GetFlagWroteToDb (bpd_flag data)) data in
  match find_if (has_code (bpd_permCode data)) permBriefDataList with
  | Some _ =>
      update_first (has_code (bpd_permCode data))
        (fun d => set_bpd_status (bpd_status data) (set_bpd_flag (bpd_flag data) d)) permBriefDataList
  | None => permBriefDataList ++ [data]
  end.

Fixpoint RestorePermissionBriefData_loop (tokenId : Z) (states : list GenericValues)
    (aclExtendedMap : gmap string string) (l : list BriefPermData) (st : Brief)
    : list BriefPermData * Brief :=
  match states with
  | [] => (l, st)
  | stateValue :: rest =>
      match TranslationIntoPermissionStatus stateValue with
      | inl _ => RestorePermissionBriefData_loop tokenId rest aclExtendedMap l st
      | inr state =>
          match GetPermissionBriefData tokenId state aclExtendedMap st with
          | (None, st1) => RestorePermissionBriefData_loop tokenId rest aclExtendedMap l st1
          | (Some data, st1) =>
              RestorePermissionBriefData_loop tokenId rest aclExtendedMap (MergePermBriefData l data) st1
          end
      end
  end.

Definition RestorePermissionBriefData (tokenId : Z) (permStateRes extendedPermRes : gmap Z (list GenericValues))
    (st : Brief) : Brief :=
  let '(result, aclExtendedMap) := TranslationIntoAclExtendedMap tokenId extendedPermRes in
  if negb (result =? RET_SUCCESS) then st
  else
    let '(l, st1) :=
      match permStateRes !! tokenId with
      | None => ([], st)
      | Some states => RestorePermissionBriefData_loop tokenId states aclExtendedMap [] st
      end in
    AddBriefPermDataByTokenId tokenId l st1.

(** [now] is [TimeUtil::GetCurrentTimestamp()]. *)
Definition GetPermissionStatus (now : Z) (d : BriefPermData) : PermissionStatus :=
  mkPermissionStatus 0 (TransferOpcodeToPermission (bpd_permCode d)) "" (bpd_status d) (bpd_flag d) (u64 now).

(** [oldPermStateMap]: [emplace] keeps the first value of a key. *)
Definition oldPermStateMap (oldPermStateValues : list GenericValues) : gmap string GenericValues :=
  fold_left (fun m v => let k := BuildPermissionStateKey v in
                        match m !! k with Some _ => m | None => <[k := v]> m end)
    oldPermStateValues ∅.

Definition BuildPermissionStateValue (now tokenId : Z) (oldMap : gmap string GenericValues)
    (data : BriefPermData) : GenericValues :=
  let v0 := Put FIELD_TOKEN_ID (TYPE_INT (i32 tokenId)) ∅ in
  let v1 := TranslationIntoGenericValues (GetPermissionStatus now data) v0 in
  let v2 := Put FIELD_DEVICE_ID (TYPE_STRING "PHONE-001") v1 in
  match oldMap !! BuildPermissionStateKey v2 with
  | Some old =>
      if (GetInt FIELD_GRANT_STATE old =? GetInt FIELD_GRANT_STATE v2) &&
         (GetInt FIELD_GRANT_FLAG old =? GetInt FIELD_GRANT_FLAG v2)
      then Put FIELD_TIMESTAMP (TYPE_INT64 (i64 (GetPermissionTimestampFromStateValue old)))
             (Remove FIELD_TIMESTAMP v2)
      else v2
  | None => v2
  end.

(** [now i] is the clock when the [i]-th entry is translated. *)
Definition BuildPermissionStateValues (now : nat -> Z) (tokenId : Z) (oldPermStateValues : list GenericValues)
    (st : Brief) : Z * list GenericValues :=
  let '(ret, l) := GetBriefPermDataByTokenIdInner tokenId st in
  if negb (ret =? RET_SUCCESS) then (ret, [])
  else (RET_SUCCESS,
        imap (fun i data => BuildPermissionStateValue (now i) tokenId (oldPermStateMap oldPermStateValues) data) l).

(** ** Queries. *)
Definition GetExtendedValueList (tokenId : Z) (st : Brief) : list PermissionWithValue :=
  omap (fun '(key, value) =>
          let permCode := key .& 0xFFFFFFFF in
          let tmpTokenID := u32 (key .>> TOKEN_ID_SHIFT) in
          if negb (tmpTokenID =? tokenId) then None
          else Some (mkPermissionWithValue (TransferOpcodeToPermission permCode) value))
    (map_items (extendedValue_ st)).

(** On an error the permissions listed so far stay in the output. *)
Fixpoint GetKernelPermissions_loop (tokenId : Z) (st : Brief) (l : list BriefPermData)
    (kernelPermList : list PermissionWithValue) : Z * list PermissionWithValue :=
  match l with
  | [] => (RET_SUCCESS, kernelPermList)
  | data :: rest =>
      if negb (bpd_type data .& IS_KERNEL_EFFECT =? IS_KERNEL_EFFECT)
      then GetKernelPermissions_loop tokenId st rest kernelPermList
      else
        let permissionName := TransferOpcodeToPermission (bpd_permCode data) in
        if bpd_type data .& HAS_VALUE =? HAS_VALUE then
          match extendedValue_ st !! ext_key tokenId (bpd_permCode data) with
          | None => (ERR_PERMISSION_WITHOUT_VALUE, kernelPermList)
          | Some value =>
              GetKernelPermissions_loop tokenId st rest
                (kernelPermList ++ [mkPermissionWithValue permissionName
                                      (if str_empty value then "true" else value)])
          end
        else GetKernelPermissions_loop tokenId st rest
               (kernelPermList ++ [mkPermissionWithValue permissionName "true"])
  end.
Definition GetKernelPermissions (tokenId : Z) (st : Brief) : Z * list PermissionWithValue :=
  let '(ret, l) := GetBriefPermDataByTokenIdInner tokenId st in
  if negb (ret =? RET_SUCCESS) then (ret, []) else GetKernelPermissions_loop tokenId st l [].

Definition GetReqPermissionByName (tokenId : Z) (permissionName : string) (tokenIdCheck : bool)
    (st : Brief) : Z + string :=
  if tokenIdCheck && bool_decide (requestedPermData_ st !! tokenId = None) then inl ERR_TOKEN_INVALID
  else if negb (IsDefinedPermissionInner permissionName) then inl ERR_PERMISSION_NOT_EXIST
  else
    match TransferPermissionToOpcode permissionName with
    | None => inl ERR_PERMISSION_NOT_EXIST
    | Some permCode =>
        match extendedValue_ st !! ext_key tokenId permCode with
        | None => inl ERR_PERMISSION_WITHOUT_VALUE
        | Some value => inr value
        end
    end.

Definition GetGrantedPermCodeList (tokenID : Z) (st : Brief) : list Z :=
  match requestedPermData_ st !! tokenID with
  | None => []
  | Some l =>
      map bpd_permCode (filter (fun d => GetEffectivePermissionStatus d = PERMISSION_GRANTED) l) ++
      (if negb (type (inner_of_id tokenID) =? TOKEN_HAP) then []
       else map sc_permCode (filter (fun s => sc_tokenId s = tokenID) (secCompList_ st)))
  end.

Definition GetGrantedPermList (tokenID : Z) (st : Brief) : list string :=
  map TransferOpcodeToPermission (GetGrantedPermCodeList tokenID st).

Definition GetPermissionUsedType (tokenID opCode : Z) (st : Brief) : PermUsedTypeEnum :=
  match requestedPermData_ st !! tokenID with
  | None => INVALID_USED_TYPE
  | Some l =>
      match find_if (has_code opCode) l with
      | Some it =>
          if IsPermGrantedBySecComp (bpd_flag it) then SEC_COMPONENT_TYPE
          else if bpd_status it =? PERMISSION_DENIED then INVALID_USED_TYPE
          else NORMAL_TYPE
      | None =>
          match find_if (is_secComp tokenID opCode) (secCompList_ st) with
          | Some _ => SEC_COMPONENT_TYPE
          | None => INVALID_USED_TYPE
          end
      end
  end.

Definition VerifyPermissionStatus_code (tokenID permCode : Z) (st : Brief) : Z :=
  match requestedPermData_ st !! tokenID with
  | None => PERMISSION_DENIED
  | Some l =>
      match find_if (has_code permCode) l with
      | Some it => GetEffectivePermissionStatus it
      | None =>
          match find_if (is_secComp tokenID permCode) (secCompList_ st) with
          | Some _ => PERMISSION_GRANTED
          | None => PERMISSION_DENIED
          end
      end
  end.

Definition VerifyPermissionStatus (tokenID : Z) (permission : string) (st : Brief) : Z :=
  match TransferPermissionToOpcode permission with
  | None => PERMISSION_DENIED
  | Some opCode => VerifyPermissionStatus_code tokenID opCode st
  end.

Definition IsPermissionGrantedWithSecComp (tokenID : Z) (permissionName : string) (st : Brief) : bool :=
  match TransferPermissionToOpcode permissionName with
  | None => false
  | Some opCode =>
      match requestedPermData_ st !! tokenID with
      | None => false
      | Some l =>
          match find_if (has_code opCode) l with
          | None =>
              match find_if (is_secComp tokenID opCode) (secCompList_ st) with
              | Some _ => true
              | None => false
              end
          | Some it => if IsPermGrantedBySecComp (bpd_flag it) then true else false
          end
      end
  end.

Definition QueryPermissionStatusAndFlagInner (tokenID permCode : Z) (st : Brief) : Z + (Z * Z) :=
  match requestedPermData_ st !! tokenID with
  | None => inl ERR_TOKENID_NOT_EXIST
  | Some l =>
      match find_if (has_code permCode) l with
      | None => inl ERR_PERMISSION_NOT_EXIST
      | Some it => inr (GetEffectivePermissionStatus it, bpd_flag it)
      end
  end.

Definition QueryEffectivePermissionStatusAndFlag (tokenID permCode : Z) (st : Brief) : Z + (Z * Z) :=
  match QueryPermissionStatusAndFlagInner tokenID permCode st with
  | inl ret => inl ret
  | inr (status, flag) =>
      inr (status, GetFlagWithoutSpecifiedElement flag PERMISSION_PRE_AUTHORIZED_CANCELABLE)
  end.

Definition QueryStoredPermissionStatusAndFlag (tokenID permCode : Z) (st : Brief) : Z + (Z * Z) :=
  let '(ret, dataList) := GetBriefPermDataByTokenIdInner tokenID st in
  if negb (ret =? RET_SUCCESS) then inl ret
  else match find_if (has_code permCode) dataList with
       | None => inl ERR_PERMISSION_NOT_EXIST
       | Some it => inr (bpd_status it, bpd_flag it)
       end.

(** ** Updates of the state of a permission. *)
Definition UpdateWithNewFlag (oldFlag currFlag : Z) : Z :=
  currFlag .| (oldFlag .& (PERMISSION_PRE_AUTHORIZED_CANCELABLE .| PERMISSION_RESTRICTED_BY_ADMIN)).

Definition IsRestrictedPermission (oldFlag newFlag : Z) : bool :=
  let isFixedByAdmin := oldFlag .& PERMISSION_FIXED_BY_ADMIN_POLICY =? PERMISSION_FIXED_BY_ADMIN_POLICY in
  let newFlagDoesNotHaveFixedAdmin := newFlag .& PERMISSION_FIXED_BY_ADMIN_POLICY =? 0 in
  let newFlagHasNoSystemFixed := newFlag .& PERMISSION_SYSTEM_FIXED =? 0 in
  let newFlagHasNoAdminCancel := newFlag .& PERMISSION_ADMIN_POLICIES_CANCEL =? 0 in
  isFixedByAdmin && newFlagDoesNotHaveFixedAdmin && newFlagHasNoSystemFixed && newFlagHasNoAdminCancel.

Definition UpdatePermStateList (tokenId opCode : Z) (isGranted : bool) (flag : Z) (st : Brief) : Z * Brief :=
  match requestedPermData_ st !! tokenId with
  | None => (ERR_TOKEN_INVALID, st)
  | Some l =>
      match find_if (has_code opCode) l with
      | None => (ERR_PARAM_INVALID, st)
      | Some it =>
          if bpd_flag it .& PERMISSION_SYSTEM_FIXED =? PERMISSION_SYSTEM_FIXED then (ERR_PARAM_INVALID, st)
          else if IsRestrictedPermission (bpd_flag it) flag then (ERR_PERMISSION_RESTRICTED, st)
          else if (flag .& PERMISSION_ADMIN_POLICIES_CANCEL =? PERMISSION_ADMIN_POLICIES_CANCEL) &&
                  (bpd_flag it .& PERMISSION_FIXED_BY_ADMIN_POLICY =? 0) then (ERR_PARAM_INVALID, st)
          else
            let set_status d :=
              if flag .& PERMISSION_ADMIN_POLICIES_CANCEL =? 0
              then set_bpd_status (if isGranted then PERMISSION_GRANTED else PERMISSION_DENIED) d else d in
            let l' := update_first (has_code opCode)
                        (fun d => set_bpd_flag (UpdateWithNewFlag (bpd_flag d) flag) (set_status d)) l in
            (RET_SUCCESS, set_requested (<[tokenId := l']> (requestedPermData_ st)) st)
      end
  end.

Definition SecCompGrantedPermListUpdated (tokenID : Z) (permissionName : string) (isAdded : bool)
    (st : Brief) : Brief :=
  match TransferPermissionToOpcode permissionName with
  | None => st
  | Some opCode =>
      match requestedPermData_ st !! tokenID with
      | None => st
      | Some l =>
          let found := find_if (is_secComp tokenID opCode) (secCompList_ st) in
          let secComp' :=
            if isAdded then
              match found with
              | None => secCompList_ st ++ [mkBriefSecCompData (u16 opCode) 0 tokenID]
              | Some _ => secCompList_ st
              end
            else erase_first (is_secComp tokenID opCode) (secCompList_ st) in
          let newFlag oldFlag :=
            if isAdded then oldFlag .| PERMISSION_COMPONENT_SET
            else oldFlag .& u32_not PERMISSION_COMPONENT_SET in
          let l' := update_first (has_code opCode) (fun d => set_bpd_flag (newFlag (bpd_flag d)) d) l in
          mkBrief (<[tokenID := l']> (requestedPermData_ st)) (extendedValue_ st) secComp'
      end
  end.

(** The status and flag a caller has after [QueryPermissionStatusAndFlagInner]
    when it starts from [PERMISSION_DENIED] and 0. *)
Definition queried (r : Z + (Z * Z)) : Z * Z :=
  match r with inl _ => (PERMISSION_DENIED, 0) | inr p => p end.

Definition UpdateSecCompGrantedPermList (tokenId opCode : Z) (isToGrant : bool) (st : Brief) : Z * Brief :=
  let '(status, flag) := queried (QueryPermissionStatusAndFlagInner tokenId opCode st) in
  if nz (flag .& PERMISSION_FIXED_BY_ADMIN_POLICY) then (ERR_PERMISSION_RESTRICTED, st)
  else
    let permissionName := TransferOpcodeToPermission opCode in
    if IsPermOperatedByUser flag || IsPermOperatedBySystem flag then
      if isToGrant then
        if status =? PERMISSION_GRANTED then (RET_SUCCESS, st) else (ERR_PERMISSION_DENIED, st)
      else (RET_SUCCESS, SecCompGrantedPermListUpdated tokenId permissionName false st)
    else (RET_SUCCESS, SecCompGrantedPermListUpdated tokenId permissionName isToGrant st).

(** The change type is not written when the permission is not defined. *)
Definition UpdatePermissionStatus (tokenId : Z) (permissionName : string) (isGranted : bool) (flag : Z)
    (st : Brief) : Z * option PermissionStatusChangeType * Brief :=
  match TransferPermissionToOpcode permissionName with
  | None => (ERR_PARAM_INVALID, None, st)
  | Some opCode =>
      let oldStatus := VerifyPermissionStatus_code tokenId opCode st in
      let oldFlag := (queried (QueryPermissionStatusAndFlagInner tokenId opCode st)).2 in
      let '(ret, st') :=
        if negb (IsPermGrantedBySecComp flag) then UpdatePermStateList tokenId opCode isGranted flag st
        else UpdateSecCompGrantedPermList tokenId opCode isGranted st in
      let newStatus := VerifyPermissionStatus_code tokenId opCode st' in
      let newFlag := (queried (QueryPermissionStatusAndFlagInner tokenId opCode st')).2 in
      let changeType :=
        if negb (oldStatus =? newStatus) then
          if negb (oldFlag =? newFlag) then STATUS_AND_FLAG else STATUS_ONLY
        else if negb (oldFlag =? newFlag) then FLAG_ONLY
        else NO_CHANGE in
      (ret, Some changeType, st')
  end.

Definition UpdatePermissionFlag (tokenId permCode flagMask : Z) (addFlag : bool) (st : Brief)
    : Z * option PermissionStatusChangeType * Brief :=
  match requestedPermData_ st !! tokenId with
  | None => (ERR_TOKENID_NOT_EXIST, None, st)
  | Some l =>
      match find_if (has_code permCode) l with
      | None => (ERR_PERMISSION_NOT_EXIST, None, st)
      | Some it =>
          let oldFlag := bpd_flag it in
          let newFlag := if addFlag then oldFlag .| flagMask else oldFlag .& u32_not flagMask in
          (RET_SUCCESS, Some (if oldFlag =? newFlag then NO_CHANGE else FLAG_ONLY),
           set_requested (<[tokenId := update_first (has_code permCode) (set_bpd_flag newFlag) l]>
                            (requestedPermData_ st)) st)
      end
  end.

Definition ClearAllSecCompGrantedPermById (tokenID : Z) (st : Brief) : Brief :=
  set_secComp (filter (fun s => sc_tokenId s <> tokenID) (secCompList_ st)) st.

(** The body of the loop of [ResetUserGrantPermissionStatus]. *)
Definition ResetEntry (perm : BriefPermData) : BriefPermData :=
  let oldFlag := bpd_flag perm in
  let adminFlag := oldFlag .& (PERMISSION_FIXED_BY_ADMIN_POLICY .| PERMISSION_RESTRICTED_BY_ADMIN) in
  if nz (oldFlag .& PERMISSION_SYSTEM_FIXED) then perm
  else if nz (oldFlag .& PERMISSION_PRE_AUTHORIZED_CANCELABLE) then
    set_bpd_flag (PERMISSION_PRE_AUTHORIZED_CANCELABLE .| adminFlag)
      (set_bpd_status PERMISSION_GRANTED perm)
  else if nz (oldFlag .& PERMISSION_FIXED_BY_ADMIN_POLICY) then perm
  else if nz (oldFlag .& PERMISSION_RESTRICTED_BY_ADMIN) then perm
  else set_bpd_flag PERMISSION_DEFAULT_FLAG (set_bpd_status PERMISSION_DENIED perm).

Definition ResetUserGrantPermissionStatus (tokenID : Z) (st : Brief) : Z * Brief :=
  match requestedPermData_ st !! tokenID with
  | None => (ERR_TOKENID_NOT_EXIST, st)
  | Some l =>
      (RET_SUCCESS,
       ClearAllSecCompGrantedPermById tokenID
         (set_requested (<[tokenID := map ResetEntry l]> (requestedPermData_ st)) st))
  end.

(** ** Removal and replacement. *)
Definition DeleteBriefPermDataByTokenId (tokenID : Z) (st : Brief) : Z * Brief :=
  match requestedPermData_ st !! tokenID with
  | None => (ERR_TOKEN_INVALID, st)
  | Some _ =>
      (RET_SUCCESS,
       DeleteExtendedValue tokenID
         (mkBrief (delete tokenID (requestedPermData_ st)) (extendedValue_ st)
            (filter (fun s => sc_tokenId s <> tokenID) (secCompList_ st))))
  end.

Fixpoint ReplaceExtendedValue_loop (tokenID : Z) (data : list PermissionWithValue) (m : gmap Z string)
    : gmap Z string :=
  match data with
  | [] => m
  | it :: rest =>
      ReplaceExtendedValue_loop tokenID rest
        match GetPermissionBriefDef_opcode (pwv_permissionName it) with
        | Some (permDef, permCode) =>
            if negb (pbd_isEnable permDef) || negb (pbd_hasValue permDef) then m
            else <[ext_key tokenID permCode := pwv_value it]> m
        | None => m
        end
  end.
Definition ReplaceExtendedValueByTokenIdLocked (tokenID : Z) (data : list PermissionWithValue) (st : Brief)
    : Brief :=
  if bool_decide (length data = 0%nat) then st
  else
    let st1 := DeleteExtendedValue tokenID st in
    set_extended (ReplaceExtendedValue_loop tokenID data (extendedValue_ st1)) st1.

Definition ReplaceBriefPermDataByTokenId (tokenID : Z) (data : list BriefPermData)
    (aclExtendedList : list PermissionWithValue) (st : Brief) : Brief :=
  ReplaceExtendedValueByTokenIdLocked tokenID aclExtendedList (AddBriefPermDataByTokenId tokenID data st).

Definition ClearAllSecCompGrantedPerm (st : Brief) : list BriefSecCompData * Brief :=
  (secCompList_ st, set_secComp [] st).

Definition AddBriefPermData (tokenID : Z) (permissionName : string) (grantStatus grantFlag : Z)
    (value : string) (st : Brief) : Z * Brief :=
  let status := mkPermissionStatus 0 permissionName "" grantStatus (u32 grantFlag) 0 in
  let aclExtendedMap := {[permissionName := value]} in
  match GetPermissionBriefData tokenID status aclExtendedMap st with
  | (None, st1) => (ERR_PERMISSION_NOT_EXIST, st1)
  | (Some data, st1) =>
      let '(res, l) := GetBriefPermDataByTokenIdInner tokenID st1 in
      if negb (res =? RET_SUCCESS) then (res, DeleteExtendedValue tokenID st1)
      else (RET_SUCCESS, AddBriefPermDataByTokenId tokenID (MergePermBriefData l data) st1)
  end.

End PermissionDataBrief.

(** ** The extended-value keys. *)
Lemma ext_key_sum t c : is_u32 t -> 0 <= c < 2 ^ 16 -> ext_key t c = t * 2 ^ 32 + c.
Proof.
  intros Ht Hc. unfold ext_key, TOKEN_ID_SHIFT. unfold_int.
  rewrite Z.shiftl_mul_pow2, (Z.mod_small (t * _)) by lia.
  symmetry. apply Z.add_nocarry_lor.
  apply Z.bits_inj'; intros n Hn; rewrite Z.land_spec, Z.bits_0; destruct (Z.ltb_spec n 32);
    [rewrite Z.mul_pow2_bits_low by lia; done|];
    rewrite <- (Z.mod_small c (2 ^ 16)) by lia; rewrite (Z.mod_pow2_bits_high c) by lia; apply andb_false_r.
Qed.

Lemma ext_key_token t c : is_u32 t -> 0 <= c < 2 ^ 16 -> u32 (ext_key t c .>> TOKEN_ID_SHIFT) = t.
Proof.
  intros Ht Hc. rewrite ext_key_sum by done. unfold TOKEN_ID_SHIFT.
  rewrite Z.shiftr_div_pow2, Z.div_add_l, (Z.div_small c), Z.add_0_r by lia. by apply u32_small.
Qed.

Lemma ext_key_code t c : is_u32 t -> 0 <= c < 2 ^ 16 -> ext_key t c .& 0xFFFFFFFF = c.
Proof.
  intros Ht Hc. rewrite ext_key_sum by done. change 0xFFFFFFFF with (Z.ones 32).
  rewrite Z.land_ones, Z.add_comm, Z.mod_add by lia. apply Z.mod_small. lia.
Qed.

Lemma ext_key_inj t t' c c' :
  is_u32 t -> is_u32 t' -> 0 <= c < 2 ^ 16 -> 0 <= c' < 2 ^ 16 ->
  ext_key t c = ext_key t' c' -> t = t' /\ c = c'.
Proof.
  intros Ht Ht' Hc Hc' E. split.
  - rewrite <- (ext_key_token t c), <- (ext_key_token t' c') by done. by rewrite E.
  - rewrite <- (ext_key_code t c), <- (ext_key_code t' c') by done. by rewrite E.
Qed.
