(* ===== verification/PermissionDataBriefTheory.v ===== *)
(** * Properties of the permission state store

    The well-formedness invariant of [Brief] and that every public method keeps
    it, the behaviour of a permission check after each update, what protects the
    system-fixed, admin-fixed and restricted states, the application update, the
    reset, the deletion, and the persistence round trip. *)

From stdpp Require Import base gmap list strings.
From S2P Require Import Prelude AccessTokenTypes TokenId PermissionMap Validator Database DataTranslator PermissionDataBrief.
#[local] Open Scope string_scope.
#[local] Open Scope list_scope.
#[local] Open Scope Z_scope.
#[local] Open Scope cxx_scope.

Section Theory.
Context {PT : PermTable} `{!PermTableLaws PT}.
Implicit Types (st : Brief) (t c : Z) (d : BriefPermData) (l : list BriefPermData).

(** ** Well-formedness. *)
Definition def_type (c : Z) : Z :=
  match permList_at c with
  | Some def => (if pbd_hasValue def then
                   (if pbd_isKernelEffect def then IS_KERNEL_EFFECT else 0) .| HAS_VALUE
                 else if pbd_isKernelEffect def then IS_KERNEL_EFFECT else 0)
  | None => 0
  end.

Definition entry_wf (d : BriefPermData) : Prop :=
  (bpd_status d = PERMISSION_GRANTED \/ bpd_status d = PERMISSION_DENIED) /\
  0 <= bpd_permCode d < MAX_PERM_SIZE /\ is_u32 (bpd_flag d) /\ bpd_type d = def_type (bpd_permCode d).

Definition list_wf (l : list BriefPermData) : Prop := NoDup (map bpd_permCode l) /\ Forall entry_wf l.

Definition requested_wf (m : gmap Z (list BriefPermData)) : Prop :=
  map_Forall (fun t l => is_u32 t /\ list_wf l) m.

Definition sc_key (s : BriefSecCompData) : Z * Z := (sc_tokenId s, sc_permCode s).

Definition secComp_wf (m : gmap Z (list BriefPermData)) (l : list BriefSecCompData) : Prop :=
  NoDup (map sc_key l) /\
  Forall (fun s => is_Some (m !! sc_tokenId s) /\ 0 <= sc_permCode s < MAX_PERM_SIZE) l.

Definition extended_wf (m : gmap Z (list BriefPermData)) (e : gmap Z string) : Prop :=
  map_Forall (fun k _ => exists t c, k = ext_key t c /\ is_u32 t /\ 0 <= c < MAX_PERM_SIZE /\
                           is_Some (m !! t)) e.

(** The store: requested codes are distinct and defined, statuses are granted or
    denied, flags are 32-bit words, the type is the definition's; security-component
    grants are distinct and belong to tokens of the store, and so do the values. *)
Definition brief_wf (st : Brief) : Prop :=
  requested_wf (requestedPermData_ st) /\
  secComp_wf (requestedPermData_ st) (secCompList_ st) /\
  extended_wf (requestedPermData_ st) (extendedValue_ st).

Definition same_dom (m m' : gmap Z (list BriefPermData)) : Prop :=
  forall t, is_Some (m !! t) -> is_Some (m' !! t).

Lemma secComp_wf_mono m m' sl : same_dom m m' -> secComp_wf m sl -> secComp_wf m' sl.
Proof.
  intros Hd [H1 H2]. split; [done|]. eapply Forall_impl; [exact H2|].
  intros s [? ?]. split; [by apply Hd|done].
Qed.

Lemma extended_wf_mono m m' e : same_dom m m' -> extended_wf m e -> extended_wf m' e.
Proof.
  intros Hd H k v Hk. destruct (H k v Hk) as (t & c & ? & ? & ? & ?).
  exists t, c. by eauto.
Qed.

Lemma same_dom_insert m t l : same_dom m (<[t := l]> m).
Proof.
  intros t' H. destruct (decide (t = t')) as [->|].
  - by rewrite lookup_insert_eq.
  - by rewrite lookup_insert_ne.
Qed.

Lemma same_dom_trans m1 m2 m3 : same_dom m1 m2 -> same_dom m2 m3 -> same_dom m1 m3.
Proof. intros H1 H2 t H. by apply H2, H1. Qed.

Lemma MAX_PERM_SIZE_u16 c : 0 <= c < MAX_PERM_SIZE -> 0 <= c < 2 ^ 16.
Proof. intros. pose proof permList_size. unfold MAX_PERM_SIZE in *. lia. Qed.

#[local] Hint Resolve same_dom_insert same_dom_trans secComp_wf_mono extended_wf_mono MAX_PERM_SIZE_u16 : atm.

(** Replacing the list of one token. *)
Lemma brief_wf_set_list st t l :
  brief_wf st -> is_u32 t -> list_wf l ->
  brief_wf (set_requested (<[t := l]> (requestedPermData_ st)) st).
Proof.
  intros (H1 & H2 & H3) Ht Hl. split_and!; cbn.
  - by apply map_Forall_insert_2.
  - eauto with atm.
  - eauto with atm.
Qed.

Lemma brief_wf_lookup st t l :
  brief_wf st -> requestedPermData_ st !! t = Some l -> is_u32 t /\ list_wf l.
Proof. intros (H1 & _) H. apply (H1 _ _ H). Qed.

(** Changing the status and flag of the entries of a list. *)
Lemma list_wf_update_first p f l :
  list_wf l -> (forall d, bpd_permCode (f d) = bpd_permCode d) -> (forall d, entry_wf d -> entry_wf (f d)) ->
  list_wf (update_first p f l).
Proof.
  intros [H1 H2] Hc Hf. split.
  - by rewrite update_first_map.
  - by apply update_first_Forall.
Qed.

Lemma list_wf_map f l :
  list_wf l -> (forall d, bpd_permCode (f d) = bpd_permCode d) -> (forall d, entry_wf d -> entry_wf (f d)) ->
  list_wf (map f l).
Proof.
  intros [H1 H2] Hc Hf. split.
  - rewrite map_map. by erewrite map_ext.
  - apply Forall_fmap. eapply Forall_impl; [exact H2|done].
Qed.

Lemma entry_wf_flag f d : is_u32 f -> entry_wf d -> entry_wf (set_bpd_flag f d).
Proof. unfold entry_wf. cbn. tauto. Qed.
Lemma entry_wf_status s d :
  s = PERMISSION_GRANTED \/ s = PERMISSION_DENIED -> entry_wf d -> entry_wf (set_bpd_status s d).
Proof. unfold entry_wf. cbn. tauto. Qed.
Lemma entry_wf_u32 d : entry_wf d -> is_u32 (bpd_flag d).
Proof. by intros (?&?&?&?). Qed.
Lemma PERMISSION_GRANTED_or_DENIED b :
  (if b : bool then PERMISSION_GRANTED else PERMISSION_DENIED) = PERMISSION_GRANTED \/
  (if b then PERMISSION_GRANTED else PERMISSION_DENIED) = PERMISSION_DENIED.
Proof. destruct b; auto. Qed.
#[local] Hint Resolve entry_wf_flag entry_wf_status entry_wf_u32 PERMISSION_GRANTED_or_DENIED : atm.

(** ** Building entries. *)

(** The entry built from a state does not depend on the store. *)
Definition brief_of_state (s : PermissionStatus) : option BriefPermData :=
  if negb (IsGrantStatusValid (ps_grantStatus s)) then None
  else match TransferPermissionToOpcode (ps_permissionName s) with
       | None => None
       | Some c => Some (mkBriefPermData (ps_grantStatus s) (def_type c) c (u32 (ps_grantFlag s)))
       end.

Lemma GetPermissionBriefData_spec t s acl st :
  is_u32 t ->
  exists e, GetPermissionBriefData t s acl st = (brief_of_state s, set_extended e st) /\
    forall k v, e !! k = Some v ->
      extendedValue_ st !! k = Some v \/ exists c, k = ext_key t c /\ 0 <= c < MAX_PERM_SIZE.
Proof.
  intros Ht. unfold GetPermissionBriefData, brief_of_state.
  destruct (negb _) eqn:G.
  { exists (extendedValue_ st). split; [by destruct st|]. auto. }
  destruct (TransferPermissionToOpcode _) as [c|] eqn:T.
  2:{ exists (extendedValue_ st). split; [by destruct st|]. auto. }
  destruct (opcode_def _ _ T) as (def & Hd & _). pose proof (opcode_range _ _ T) as Hr.
  pose proof (opcode_u16 _ _ T) as Hu. unfold GetPermissionBriefDef_code, def_type. rewrite Hd.
  rewrite (u16_small c) by done. cbv zeta.
  assert (i8 (ps_grantStatus s) = ps_grantStatus s) as ->.
  { apply negb_false_iff, IsGrantStatusValid_iff in G. apply i8_small.
    unfold PERMISSION_GRANTED, PERMISSION_DENIED in G. lia. }
  destruct (pbd_hasValue def);
    [eexists; split; [reflexivity|]|exists (extendedValue_ st); split; [by destruct st|auto]].
  intros k v. destruct (decide (k = ext_key t c)) as [->|Hne]; [eauto|].
  rewrite lookup_insert_ne by done. auto.
Qed.

Lemma brief_of_state_wf s d : brief_of_state s = Some d -> entry_wf d.
Proof.
  unfold brief_of_state. destruct (negb _) eqn:G; [done|].
  destruct (TransferPermissionToOpcode _) as [c|] eqn:T; [|done]. intros [= <-].
  apply negb_false_iff, IsGrantStatusValid_iff in G. pose proof (opcode_range _ _ T).
  pose proof (u32_range (ps_grantFlag s)). unfold entry_wf. cbn. tauto.
Qed.

Lemma brief_of_state_name s d :
  brief_of_state s = Some d -> TransferPermissionToOpcode (ps_permissionName s) = Some (bpd_permCode d).
Proof.
  unfold brief_of_state. destruct (negb _); [done|].
  destruct (TransferPermissionToOpcode _) as [c|]; [|done]. by intros [= <-].
Qed.

Lemma GetPermissionBriefDataList_loop_spec t acl states : forall st,
  is_u32 t ->
  exists e, GetPermissionBriefDataList_loop t states acl st =
              (omap brief_of_state states, set_extended e st) /\
    forall k v, e !! k = Some v ->
      extendedValue_ st !! k = Some v \/ exists c, k = ext_key t c /\ 0 <= c < MAX_PERM_SIZE.
Proof.
  induction states as [|s states IH]; intros st Ht; cbn.
  { exists (extendedValue_ st). split; [by destruct st|]. auto. }
  destruct (GetPermissionBriefData_spec t s acl st Ht) as (e1 & -> & H1).
  destruct (IH (set_extended e1 st) Ht) as (e2 & -> & H2). exists e2. split.
  { by destruct (brief_of_state s). }
  intros k v Hk. destruct (H2 k v Hk) as [Hk'|Hk']; [|auto]. cbn in Hk'. by apply H1.
Qed.

Lemma omap_brief_NoDup states :
  NoDup (map (fun s => c_str (ps_permissionName s)) states) ->
  NoDup (map bpd_permCode (omap brief_of_state states)).
Proof.
  induction states as [|s states IH]; cbn; [constructor|]. intros [Hn Hd]%NoDup_cons.
  destruct (brief_of_state s) as [d|] eqn:B; [|auto]. cbn. constructor; [|auto].
  intros (d' & E & (s' & Hs' & Bs')%list_elem_of_omap)%list_elem_of_fmap.
  apply Hn. apply brief_of_state_name in B, Bs'. rewrite E in B. rewrite (opcode_inj _ _ _ B Bs').
  by apply (list_elem_of_fmap_2 (fun s => c_str (ps_permissionName s))).
Qed.

Lemma omap_brief_wf states :
  NoDup (map (fun s => c_str (ps_permissionName s)) states) -> list_wf (omap brief_of_state states).
Proof.
  intros H. split; [by apply omap_brief_NoDup|]. apply Forall_forall.
  intros d (s & _ & Hs)%list_elem_of_omap. by eapply brief_of_state_wf.
Qed.

(** ** Deleting the values of a token. *)
Lemma DeleteExtendedValue_lookup t st k :
  extendedValue_ (DeleteExtendedValue t st) !! k =
    if decide (u32 (k .>> TOKEN_ID_SHIFT) = t) then None else extendedValue_ st !! k.
Proof.
  cbn. rewrite map_lookup_filter. destruct (extendedValue_ st !! k) as [v|]; cbn.
  - destruct (decide _) as [E|E].
    + rewrite option_guard_False; [done|]. cbn. naive_solver.
    + by rewrite option_guard_True.
  - by destruct (decide _).
Qed.

Lemma DeleteExtendedValue_wf st t : brief_wf st -> brief_wf (DeleteExtendedValue t st).
Proof.
  intros (H1 & H2 & H3). split_and!; try done. intros k v Hk.
  rewrite DeleteExtendedValue_lookup in Hk. destruct (decide _); [done|]. by apply (H3 k v).
Qed.

(** ** Every method keeps the store well formed. *)
Lemma AddBriefPermDataByTokenId_eq t l st :
  AddBriefPermDataByTokenId t l st = set_requested (<[t := l]> (requestedPermData_ st)) st.
Proof. unfold AddBriefPermDataByTokenId. by rewrite insert_delete_eq. Qed.

(** A store whose extra values belong to [t], once [t] is stored. *)
Lemma add_built_wf st t l e :
  brief_wf st -> is_u32 t -> list_wf l ->
  (forall k v, e !! k = Some v ->
     extendedValue_ st !! k = Some v \/ exists c, k = ext_key t c /\ 0 <= c < MAX_PERM_SIZE) ->
  brief_wf (AddBriefPermDataByTokenId t l (set_extended e st)).
Proof.
  intros (H1 & H2 & H3) Ht Hl He. rewrite AddBriefPermDataByTokenId_eq. split_and!; cbn.
  - by apply map_Forall_insert_2.
  - eauto with atm.
  - intros k v Hk. destruct (He k v Hk) as [Hk'|(c & -> & Hc)].
    + destruct (H3 k v Hk') as (t' & c & ? & ? & ? & ?). exists t', c.
      do 3 (split; [done|]). by apply same_dom_insert.
    + exists t, c. by rewrite lookup_insert_eq.
Qed.

Lemma GetPermissionBriefDataList_wf st t states acl r f :
  brief_wf st -> is_u32 t -> (forall l, list_wf l -> list_wf (f l)) ->
  NoDup (map (fun s => c_str (ps_permissionName s)) states) ->
  GetPermissionBriefDataList t states acl st = r ->
  brief_wf (AddBriefPermDataByTokenId t (f r.1) r.2).
Proof.
  intros Hw Ht Hf Hn <-. unfold GetPermissionBriefDataList.
  destruct (GetPermissionBriefDataList_loop_spec t acl states (DeleteExtendedValue t st) Ht)
    as (e & -> & He).
  apply (add_built_wf (DeleteExtendedValue t st)); [by apply DeleteExtendedValue_wf|done| |done].
  by apply Hf, omap_brief_wf.
Qed.

(** Names without an embedded NUL. *)
Definition plain_names (states : list PermissionStatus) : Prop :=
  Forall (fun s => c_str (ps_permissionName s) = ps_permissionName s) states.

Lemma plain_NoDup states :
  plain_names states -> NoDup (map ps_permissionName states) ->
  NoDup (map (fun s => c_str (ps_permissionName s)) states).
Proof.
  intros Hp Hn. erewrite map_ext_in; [exact Hn|]. intros s Hs.
  unfold plain_names in Hp. rewrite Forall_forall in Hp. by apply Hp, list_elem_of_In.
Qed.

Lemma plain_filter tt check states :
  plain_names states -> NoDup (map (fun s => c_str (ps_permissionName s))
                                 (FilterInvalidPermissionState tt check states)).
Proof.
  intros Hp. apply plain_NoDup; [|apply FilterInvalidPermissionState_NoDup].
  apply Forall_forall. intros s [Hs _]%FilterInvalidPermissionState_ok.
  unfold plain_names in Hp. rewrite Forall_forall in Hp. by apply Hp.
Qed.

Lemma UpdateWithNewFlag_u32 o f : is_u32 o -> is_u32 f -> is_u32 (UpdateWithNewFlag o f).
Proof. intros. unfold UpdateWithNewFlag. apply lor_is_u32; [done|]. by apply land_is_u32. Qed.

Lemma UpdatePermStatus_wf o n : entry_wf o -> entry_wf n -> entry_wf (UpdatePermStatus o n).
Proof.
  intros Ho Hn. unfold UpdatePermStatus. repeat split_if; try done.
  destruct Ho as (?&?&?&?), Hn as (?&?&?&?). unfold entry_wf. cbn.
  assert (is_u32 (GetFlagWithoutSpecifiedElement (bpd_flag o) PERMISSION_RESTRICTED_BY_ADMIN
                  .| (bpd_flag n .& PERMISSION_RESTRICTED_BY_ADMIN))).
  { apply lor_is_u32; [by apply GetFlagWithoutSpecifiedElement_u32|by apply land_is_u32]. }
  tauto.
Qed.

(** An entry the user decided on, free of administrator policies, is carried over. *)
Lemma UpdatePermStatus_user o n :
  Z.testbit (bpd_flag o) 0 = true \/ Z.testbit (bpd_flag o) 1 = true ->
  Z.testbit (bpd_flag o) 7 = false -> Z.testbit (bpd_flag o) 8 = false ->
  UpdatePermStatus o n =
    mkBriefPermData (bpd_status o) (bpd_type n) (bpd_permCode n)
      (GetFlagWithoutSpecifiedElement (bpd_flag o) PERMISSION_RESTRICTED_BY_ADMIN .|
       (bpd_flag n .& PERMISSION_RESTRICTED_BY_ADMIN)).
Proof.
  intros Hu H7 H8. unfold UpdatePermStatus, PERMISSION_FIXED_BY_ADMIN_POLICY, PERMISSION_ADMIN_POLICIES_CANCEL.
  rewrite !nz_land_bit, H7, H8 by lia. cbn [orb andb].
  assert (forall k, Z.testbit k 0 = false -> Z.testbit k 1 = false -> (bpd_flag o =? k) = false) as Hk.
  { intros k K0 K1. apply Z.eqb_neq. intros E. rewrite E in Hu. destruct Hu; congruence. }
  by rewrite (Hk PERMISSION_DEFAULT_FLAG), (Hk PERMISSION_SYSTEM_FIXED),
    (Hk PERMISSION_PRE_AUTHORIZED_CANCELABLE).
Qed.

Lemma Update_entry_code old b n : bpd_permCode (Update_entry old b n) = bpd_permCode n.
Proof.
  unfold Update_entry. destruct (find_if _ _); [|done]. split_if; [done|].
  unfold UpdatePermStatus. by repeat split_if.
Qed.

Lemma Update_entry_wf old b n : list_wf old -> entry_wf n -> entry_wf (Update_entry old b n).
Proof.
  intros [_ Ho] Hn. unfold Update_entry. destruct (find_if _ _) as [o|] eqn:F; [|done]. split_if; [done|].
  apply UpdatePermStatus_wf; [|done]. apply find_if_Some in F as [Hin _].
  by apply (proj1 (Forall_forall _ _) Ho).
Qed.

Lemma inner_list_wf st t : brief_wf st -> list_wf (GetBriefPermDataByTokenIdInner t st).2.
Proof.
  intros Hw. unfold GetBriefPermDataByTokenIdInner.
  destruct (requestedPermData_ st !! t) as [l|] eqn:E.
  - by apply (brief_wf_lookup st t).
  - split; constructor.
Qed.

Lemma MergePermBriefData_wf l d : list_wf l -> entry_wf d -> list_wf (MergePermBriefData l d).
Proof.
  intros Hl Hd. unfold MergePermBriefData. cbv zeta.
  assert (is_u32 (GetFlagWroteToDb (bpd_flag d))) as Hf by (apply GetFlagWithoutSpecifiedElement_u32; eauto with atm).
  destruct (find_if _ _) eqn:F.
  - apply list_wf_update_first; [done..|]. intros d' Hd'. destruct Hd as (?&_). cbn. eauto with atm.
  - destruct Hl as [H1 H2]. split.
    + rewrite map_app. apply NoDup_app. split_and!; [done| |apply NoDup_singleton].
      intros c (d' & -> & Hin)%list_elem_of_fmap E%list_elem_of_singleton.
      rewrite find_if_None in F. specialize (F d' Hin). unfold has_code in F. breflect. done.
    + apply Forall_app. split; [done|]. constructor; [|constructor]. eauto with atm.
Qed.

Lemma RestorePermissionBriefData_loop_wf t acl states : forall l st (e0 : gmap Z string),
  is_u32 t -> list_wf l ->
  (forall k v, extendedValue_ st !! k = Some v ->
     e0 !! k = Some v \/ exists c, k = ext_key t c /\ 0 <= c < MAX_PERM_SIZE) ->
  exists l' e, RestorePermissionBriefData_loop t states acl l st = (l', set_extended e st) /\
    list_wf l' /\
    forall k v, e !! k = Some v ->
      e0 !! k = Some v \/ exists c, k = ext_key t c /\ 0 <= c < MAX_PERM_SIZE.
Proof.
  induction states as [|v states IH]; intros l st e0 Ht Hl He; cbn.
  { exists l, (extendedValue_ st). split; [by destruct st|done]. }
  destruct (TranslationIntoPermissionStatus v) as [?|s]; [by apply IH|].
  destruct (GetPermissionBriefData_spec t s acl st Ht) as (e1 & -> & H1).
  assert (forall k v, extendedValue_ (set_extended e1 st) !! k = Some v ->
     e0 !! k = Some v \/ exists c, k = ext_key t c /\ 0 <= c < MAX_PERM_SIZE) as He1.
  { intros k x Hk. cbn in Hk. destruct (H1 k x Hk) as [|]; auto. }
  destruct (brief_of_state s) as [d|] eqn:B.
  - destruct (IH (MergePermBriefData l d) (set_extended e1 st) e0) as (l' & e & -> & Hl' & He');
      [done|by eapply MergePermBriefData_wf, brief_of_state_wf|done|]. by exists l', e.
  - destruct (IH l (set_extended e1 st) e0) as (l' & e & -> & Hl' & He'); [done..|]. by exists l', e.
Qed.

Lemma RestorePermissionBriefData_wf t sr er st :
  brief_wf st -> is_u32 t -> brief_wf (RestorePermissionBriefData t sr er st).
Proof.
  intros Hw Ht. unfold RestorePermissionBriefData.
  destruct (TranslationIntoAclExtendedMap t er) as [ret acl]. split_if; [done|].
  assert (list_wf []) as Hn by (split; constructor).
  destruct (sr !! t) as [states|].
  - destruct (RestorePermissionBriefData_loop_wf t acl states [] st (extendedValue_ st))
      as (l' & e & -> & Hl' & He'); [done..|auto|]. by apply add_built_wf.
  - rewrite AddBriefPermDataByTokenId_eq. by apply brief_wf_set_list.
Qed.

Lemma UpdatePermStateList_wf t c b f st :
  brief_wf st -> is_u32 f -> brief_wf (UpdatePermStateList t c b f st).2.
Proof.
  intros Hw Hf. unfold UpdatePermStateList.
  destruct (requestedPermData_ st !! t) as [l|] eqn:E; [|done].
  destruct (brief_wf_lookup _ _ _ Hw E) as [Ht Hl].
  destruct (find_if _ _) as [d|]; [|done]. do 3 (split_if; [done|]). cbv zeta.
  apply brief_wf_set_list; [done..|]. apply list_wf_update_first; [done|by intros; cbn; split_if|].
  intros d' Hd'. apply entry_wf_flag; [apply UpdateWithNewFlag_u32; eauto with atm|].
  split_if; eauto with atm.
Qed.

Lemma sc_find_None t c sl :
  find_if (is_secComp t c) sl = None -> (t, c) ∉ map sc_key sl.
Proof.
  rewrite find_if_None. intros H (s & E & Hs)%list_elem_of_fmap. specialize (H s Hs).
  unfold is_secComp in H. unfold sc_key in E. injection E as -> ->. by rewrite !Z.eqb_refl in H.
Qed.

Lemma SecCompGrantedPermListUpdated_wf t p b st :
  brief_wf st -> brief_wf (SecCompGrantedPermListUpdated t p b st).
Proof.
  intros Hw. unfold SecCompGrantedPermListUpdated.
  destruct (TransferPermissionToOpcode p) as [c|] eqn:T; [|done].
  destruct (requestedPermData_ st !! t) as [l|] eqn:E; [|done]. cbv zeta.
  destruct (brief_wf_lookup _ _ _ Hw E) as [Ht Hl]. pose proof Hw as (H1 & H2 & H3).
  assert (list_wf (update_first (has_code c) (fun d => set_bpd_flag
    (if b then bpd_flag d .| PERMISSION_COMPONENT_SET
     else bpd_flag d .& u32_not PERMISSION_COMPONENT_SET) d) l)) as Hl'.
  { apply list_wf_update_first; [done..|]. intros d Hd. apply entry_wf_flag; [|done].
    destruct b; [apply lor_is_u32; [eauto with atm|done]|].
    apply land_is_u32; [eauto with atm|apply u32_range]. }
  assert (forall sl, secComp_wf (requestedPermData_ st) sl -> brief_wf (mkBrief
    (<[t := update_first (has_code c) (fun d => set_bpd_flag
      (if b then bpd_flag d .| PERMISSION_COMPONENT_SET
       else bpd_flag d .& u32_not PERMISSION_COMPONENT_SET) d) l]> (requestedPermData_ st))
    (extendedValue_ st) sl)) as Hk.
  { intros sl Hs. split_and!; cbn; [by apply map_Forall_insert_2|eauto with atm..]. }
  apply Hk. destruct H2 as [H2 H4]. destruct b.
  - destruct (find_if _ _) eqn:F; [done|]. split.
    + rewrite map_app. apply NoDup_app. split_and!; [done| |apply NoDup_singleton].
      intros k Hin E2%list_elem_of_singleton. apply sc_find_None in F. apply F.
      rewrite (u16_small c) in E2 by (by eapply opcode_u16). by rewrite E2 in Hin.
    + apply Forall_app. split; [done|]. constructor; [|constructor]. cbn. rewrite E.
      rewrite (u16_small c) by (by eapply opcode_u16). split; [done|]. by eapply opcode_range.
  - pose proof (erase_first_sublist (is_secComp t c) (secCompList_ st)) as Hs. split.
    + by eapply NoDup_map_sublist.
    + by eapply Forall_sublist.
Qed.

Lemma UpdatePermissionStatus_wf t p b f st :
  brief_wf st -> is_u32 f -> brief_wf (UpdatePermissionStatus t p b f st).2.
Proof.
  intros Hw Hf. unfold UpdatePermissionStatus. destruct (TransferPermissionToOpcode p) as [c|]; [|done].
  assert (brief_wf (UpdateSecCompGrantedPermList t c b st).2) as Hs.
  { unfold UpdateSecCompGrantedPermList. destruct (queried _) as [s g].
    repeat split_if; cbn; auto using SecCompGrantedPermListUpdated_wf. }
  pose proof (UpdatePermStateList_wf t c b f st Hw Hf).
  split_if; [destruct (UpdatePermStateList _ _ _ _ _)|destruct (UpdateSecCompGrantedPermList _ _ _ _)]; done.
Qed.

Lemma UpdatePermissionFlag_wf t c m b st :
  brief_wf st -> is_u32 m -> brief_wf (UpdatePermissionFlag t c m b st).2.
Proof.
  intros Hw Hm. unfold UpdatePermissionFlag.
  destruct (requestedPermData_ st !! t) as [l|] eqn:E; [|done].
  destruct (brief_wf_lookup _ _ _ Hw E) as [Ht Hl].
  destruct (find_if _ _) as [d|] eqn:F; [|done]. cbn.
  assert (entry_wf d) as Hd.
  { destruct Hl as [_ Hl]. apply find_if_Some in F as [Hin _]. by apply (proj1 (Forall_forall _ _) Hl). }
  apply brief_wf_set_list; [done..|]. apply list_wf_update_first; [done..|].
  intros d' Hd'. apply entry_wf_flag; [|done].
  destruct b; [apply lor_is_u32|apply land_is_u32]; eauto with atm. apply u32_range.
Qed.

Lemma ResetEntry_wf d : entry_wf d -> entry_wf (ResetEntry d).
Proof.
  intros Hd. unfold ResetEntry. cbv zeta. repeat split_if; try done.
  - apply entry_wf_flag, entry_wf_status; auto. apply lor_is_u32; [done|].
    apply land_is_u32; [eauto with atm|done].
  - apply entry_wf_flag, entry_wf_status; auto. done.
Qed.

Lemma ResetEntry_code d : bpd_permCode (ResetEntry d) = bpd_permCode d.
Proof. unfold ResetEntry. cbv zeta. by repeat split_if. Qed.

Lemma secComp_wf_filter m sl P `{!forall s, Decision (P s)} :
  secComp_wf m sl -> secComp_wf m (filter P sl).
Proof.
  intros [H1 H2]. split.
  - eapply NoDup_map_sublist; [apply sublist_filter|done].
  - eapply Forall_sublist; [done|apply sublist_filter].
Qed.

Lemma ResetUserGrantPermissionStatus_wf t st :
  brief_wf st -> brief_wf (ResetUserGrantPermissionStatus t st).2.
Proof.
  intros Hw. unfold ResetUserGrantPermissionStatus.
  destruct (requestedPermData_ st !! t) as [l|] eqn:E; [|done].
  destruct (brief_wf_lookup _ _ _ Hw E) as [Ht Hl].
  destruct (brief_wf_set_list st t (map ResetEntry l) Hw Ht) as (H1 & H2 & H3).
  { apply list_wf_map; [done|apply ResetEntry_code|apply ResetEntry_wf]. }
  split_and!; cbn; [done| |done]. by apply secComp_wf_filter.
Qed.

Lemma DeleteBriefPermDataByTokenId_wf t st :
  brief_wf st -> brief_wf (DeleteBriefPermDataByTokenId t st).2.
Proof.
  intros (H1 & [H2 H4] & H3). unfold DeleteBriefPermDataByTokenId.
  destruct (requestedPermData_ st !! t) as [l|] eqn:E; [|done]. split_and!.
  - by apply map_Forall_delete.
  - cbn. split; [eapply NoDup_map_sublist; [apply sublist_filter|done]|].
    apply Forall_forall. intros s [Hne Hin]%list_elem_of_filter.
    rewrite lookup_delete_ne by done. by apply (proj1 (Forall_forall _ _) H4).
  - intros k v Hk. cbn [snd] in Hk. rewrite DeleteExtendedValue_lookup in Hk.
    destruct (decide _) as [|Hne]; [done|].
    destruct (H3 k v Hk) as (t' & c & -> & Ht' & Hc & Hs). exists t', c. do 3 (split; [done|]). cbn.
    rewrite lookup_delete_ne; [done|]. intros <-. apply Hne, ext_key_token; eauto with atm.
Qed.

Lemma ReplaceExtendedValue_loop_spec t data : forall m k v,
  is_u32 t -> ReplaceExtendedValue_loop t data m !! k = Some v ->
  m !! k = Some v \/ exists c, k = ext_key t c /\ 0 <= c < MAX_PERM_SIZE.
Proof.
  induction data as [|it data IH]; cbn; intros m k v Ht Hk; [auto|].
  apply IH in Hk as [Hk|]; [|auto|done].
  unfold GetPermissionBriefDef_opcode in Hk.
  destruct (TransferPermissionToOpcode _) as [c|] eqn:T; cbn in Hk; [|auto].
  destruct (permList_at c) as [def|]; cbn in Hk; [|auto]. split_if_in Hk; [auto|].
  destruct (decide (k = ext_key t c)) as [->|]; [|rewrite lookup_insert_ne in Hk by done; auto].
  right. exists c. split; [done|]. by eapply opcode_range.
Qed.

Lemma ReplaceExtendedValueByTokenIdLocked_wf t data st :
  brief_wf st -> is_Some (requestedPermData_ st !! t) ->
  brief_wf (ReplaceExtendedValueByTokenIdLocked t data st).
Proof.
  intros Hw [l Hs]. unfold ReplaceExtendedValueByTokenIdLocked. case_bool_decide; [done|].
  destruct (brief_wf_lookup _ _ _ Hw Hs) as [Ht _].
  pose proof (DeleteExtendedValue_wf st t Hw) as (H1 & H2 & H3). split_and!; [done..|].
  intros k v Hk. cbn [set_extended extendedValue_] in Hk.
  apply ReplaceExtendedValue_loop_spec in Hk as [Hk|(c & -> & Hc)]; [|exists t, c; cbn; by rewrite Hs|done].
  by apply (H3 k v).
Qed.

Lemma AddBriefPermData_wf t p s f v st :
  brief_wf st -> is_u32 t -> brief_wf (AddBriefPermData t p s f v st).2.
Proof.
  intros Hw Ht. unfold AddBriefPermData. cbv zeta.
  destruct (GetPermissionBriefData_spec t (mkPermissionStatus 0 p "" s (u32 f) 0) {[p := v]} st Ht)
    as (e & Eq & He).
  rewrite Eq. destruct (brief_of_state _) as [d|] eqn:B.
  - unfold GetBriefPermDataByTokenIdInner. cbn [set_extended requestedPermData_].
    destruct (requestedPermData_ st !! t) as [l|] eqn:E; cbn.
    + destruct (brief_wf_lookup _ _ _ Hw E) as [_ Hl].
      apply add_built_wf; [done..| |done]. by eapply MergePermBriefData_wf, brief_of_state_wf.
    + destruct Hw as (H1 & H2 & H3). split_and!; [done..|]. intros k x Hk.
      rewrite DeleteExtendedValue_lookup in Hk. destruct (decide _) as [|Hne]; [done|].
      destruct (He k x Hk) as [Hk'|(c & -> & Hc)]; [by apply (H3 k x)|].
      destruct Hne. apply ext_key_token; eauto with atm.
  - assert (set_extended e st = st) as ->; [|done].
    revert Eq B. unfold GetPermissionBriefData, brief_of_state. split_if; [by intros [= <-]|].
    destruct (TransferPermissionToOpcode _) as [c|] eqn:T; [done|]. by intros [= <-].
Qed.

(** ** The public methods as steps, with the arguments under which they keep the store well
    formed: the methods do not check them.  Names without a NUL that are distinct when they are not filtered; a
    list of entries that is well formed itself when it replaces the stored one. *)
Inductive brief_step : Brief -> Brief -> Prop :=
  | step_AddPerm st t states acl defCheck :
      is_u32 t -> plain_names states ->
      (defCheck = false -> NoDup (map ps_permissionName states)) ->
      brief_step st (AddPermToBriefPermission t states acl defCheck st)
  | step_Update st t states acl b :
      is_u32 t -> plain_names states -> brief_step st (Update t states acl b st)
  | step_Restore st t sr er : is_u32 t -> brief_step st (RestorePermissionBriefData t sr er st)
  | step_UpdateStatus st t p b f :
      is_u32 f -> brief_step st (UpdatePermissionStatus t p b f st).2
  | step_UpdateFlag st t c m b : is_u32 m -> brief_step st (UpdatePermissionFlag t c m b st).2
  | step_Reset st t : brief_step st (ResetUserGrantPermissionStatus t st).2
  | step_Delete st t : brief_step st (DeleteBriefPermDataByTokenId t st).2
  | step_Replace st t l ext :
      is_u32 t -> list_wf l -> brief_step st (ReplaceBriefPermDataByTokenId t l ext st)
  | step_ReplaceExt st t ext :
      is_Some (requestedPermData_ st !! t) -> brief_step st (ReplaceExtendedValueByTokenIdLocked t ext st)
  | step_ClearSecComp st : brief_step st (ClearAllSecCompGrantedPerm st).2
  | step_AddBrief st t p s f v : is_u32 t -> brief_step st (AddBriefPermData t p s f v st).2.

Lemma brief_step_wf st st' : brief_step st st' -> brief_wf st -> brief_wf st'.
Proof.
  intros Hs Hw. destruct Hs.
  - unfold AddPermToBriefPermission. cbv zeta.
    destruct (GetPermissionBriefDataList _ _ _ _) as [l st1] eqn:G.
    eapply (GetPermissionBriefDataList_wf _ _ _ _ _ id) in G; [exact G|done..|].
    destruct defCheck; [by apply plain_filter|apply plain_NoDup; auto].
  - unfold Update. cbv zeta. destruct (GetPermissionBriefDataList _ _ _ _) as [l st1] eqn:G.
    assert (requestedPermData_ st1 = requestedPermData_ st) as E1.
    { unfold GetPermissionBriefDataList in G.
      edestruct GetPermissionBriefDataList_loop_spec as (e & Eq & _); [done|].
      rewrite Eq in G. by injection G as _ <-. }
    assert (list_wf (GetBriefPermDataByTokenIdInner t st1).2) as Hold.
    { unfold GetBriefPermDataByTokenIdInner. rewrite E1. by apply inner_list_wf. }
    eapply (GetPermissionBriefDataList_wf _ _ _ _ _ (map (Update_entry _ b))) in G;
      [exact G|done..| |by apply plain_filter].
    intros l' Hl'. apply list_wf_map; [done|apply Update_entry_code|]. intros. by apply Update_entry_wf.
  - by apply RestorePermissionBriefData_wf.
  - by apply UpdatePermissionStatus_wf.
  - by apply UpdatePermissionFlag_wf.
  - by apply ResetUserGrantPermissionStatus_wf.
  - by apply DeleteBriefPermDataByTokenId_wf.
  - apply ReplaceExtendedValueByTokenIdLocked_wf; rewrite AddBriefPermDataByTokenId_eq.
    + by apply brief_wf_set_list.
    + cbn. by rewrite lookup_insert_eq.
  - by apply ReplaceExtendedValueByTokenIdLocked_wf.
  - destruct Hw as (H1 & H2 & H3). split_and!; cbn; try done. split; constructor.
  - by apply AddBriefPermData_wf.
Qed.

Definition empty_brief : Brief := mkBrief ∅ ∅ [].

Lemma empty_brief_wf : brief_wf empty_brief.
Proof. split_and!; cbn; try apply map_Forall_empty. split; constructor. Qed.

(** ** The entry of a permission, and what a check returns. *)
Definition entry (st : Brief) (t c : Z) : option BriefPermData :=
  requestedPermData_ st !! t ≫= find_if (has_code c).

Lemma entry_insert st t l t' c :
  entry (set_requested (<[t := l]> (requestedPermData_ st)) st) t' c =
    if decide (t = t') then find_if (has_code c) l else entry st t' c.
Proof.
  unfold entry. cbn. destruct (decide (t = t')) as [->|].
  - by rewrite lookup_insert_eq.
  - by rewrite lookup_insert_ne.
Qed.

(** Updating the entry of [c] with [f]. *)
Lemma entry_update st t l c (f : BriefPermData -> BriefPermData) :
  requestedPermData_ st !! t = Some l -> (forall d, bpd_permCode (f d) = bpd_permCode d) ->
  forall t' c', entry (set_requested (<[t := update_first (has_code c) f l]> (requestedPermData_ st)) st) t' c' =
    if decide (t = t' /\ c = c') then f <$> entry st t c else entry st t' c'.
Proof.
  intros Hl Hf t' c'. rewrite entry_insert. destruct (decide (t = t')) as [<-|].
  2:{ by rewrite decide_False by naive_solver. }
  unfold entry. rewrite Hl. cbn. destruct (decide (c = c')) as [<-|Hne].
  - rewrite decide_True by done. destruct (find_if (has_code c) l) as [d|] eqn:F; cbn.
    + apply find_if_update_eq; [|done]. intros y. unfold has_code. by rewrite Hf.
    + rewrite find_if_None in *. intros x Hx. revert F. clear -Hx Hf. induction l as [|y l IH]; cbn in *.
      * by apply not_elem_of_nil in Hx.
      * intros F. rewrite (F y) in Hx by left. apply elem_of_cons in Hx as [->|Hx]; [apply F; left|].
        apply IH; [done|]. intros z Hz. apply F. by right.
  - rewrite decide_False by naive_solver. apply find_if_update_ne. intros y. unfold has_code.
    rewrite Hf. intros E. breflect. subst. split; by apply Z.eqb_neq.
Qed.

Definition secComp_granted (st : Brief) (t c : Z) : bool :=
  match find_if (is_secComp t c) (secCompList_ st) with Some _ => true | None => false end.

Lemma Verify_entry st t c :
  VerifyPermissionStatus_code t c st =
    match entry st t c with
    | Some d => GetEffectivePermissionStatus d
    | None => if bool_decide (is_Some (requestedPermData_ st !! t)) && secComp_granted st t c
              then PERMISSION_GRANTED else PERMISSION_DENIED
    end.
Proof.
  unfold VerifyPermissionStatus_code, entry, secComp_granted.
  destruct (requestedPermData_ st !! t) as [l|]; cbn; [|done].
  destruct (find_if (has_code c) l); [done|]. by destruct (find_if (is_secComp t c) _).
Qed.

(** The effective status, read from the flag bits. *)
Lemma effective_bits d :
  GetEffectivePermissionStatus d =
    if Z.testbit (bpd_flag d) 9 then PERMISSION_DENIED
    else if Z.testbit (bpd_flag d) 4 then PERMISSION_GRANTED else bpd_status d.
Proof.
  unfold GetEffectivePermissionStatus, PERMISSION_RESTRICTED_BY_ADMIN.
  by rewrite nz_land_bit, IsPermGrantedBySecComp_bit by lia.
Qed.

Lemma UpdateWithNewFlag_testbit o f n :
  0 <= n -> Z.testbit (UpdateWithNewFlag o f) n =
            Z.testbit f n || Z.testbit o n && ((n =? 3) || (n =? 9)).
Proof.
  intros. unfold UpdateWithNewFlag, PERMISSION_PRE_AUTHORIZED_CANCELABLE, PERMISSION_RESTRICTED_BY_ADMIN.
  autorewrite with bits. by rewrite (Z.eqb_sym 3), (Z.eqb_sym 9).
Qed.

(** What [UpdatePermStateList] does to the entry it accepts. *)
Definition updated_entry (b : bool) (f : Z) (d : BriefPermData) : BriefPermData :=
  mkBriefPermData
    (if Z.testbit f 8 then bpd_status d else if b then PERMISSION_GRANTED else PERMISSION_DENIED)
    (bpd_type d) (bpd_permCode d) (UpdateWithNewFlag (bpd_flag d) f).

Definition update_refused (f : Z) (d : BriefPermData) : bool :=
  Z.testbit (bpd_flag d) 2 ||
  (Z.testbit (bpd_flag d) 7 && negb (Z.testbit f 7 || Z.testbit f 2 || Z.testbit f 8)) ||
  (Z.testbit f 8 && negb (Z.testbit (bpd_flag d) 7)).

Lemma eqb_0_bit x k : 0 <= k -> (x .& 2 ^ k =? 0) = negb (Z.testbit x k).
Proof. intros Hk. rewrite <- nz_land_bit by done. unfold nz. by rewrite negb_involutive. Qed.

Lemma UpdatePermStateList_spec t c b f st ret st' :
  UpdatePermStateList t c b f st = (ret, st') ->
  if decide (ret = RET_SUCCESS) then
    (exists d, entry st t c = Some d /\ update_refused f d = false) /\
    secCompList_ st' = secCompList_ st /\ extendedValue_ st' = extendedValue_ st /\
    (forall t', is_Some (requestedPermData_ st' !! t') <-> is_Some (requestedPermData_ st !! t')) /\
    (forall t' c', entry st' t' c' =
       if decide (t = t' /\ c = c') then updated_entry b f <$> entry st t c else entry st t' c')
  else st' = st /\ match entry st t c with Some d => update_refused f d = true | None => True end.
Proof.
  unfold UpdatePermStateList, update_refused, IsRestrictedPermission, PERMISSION_SYSTEM_FIXED,
    PERMISSION_FIXED_BY_ADMIN_POLICY, PERMISSION_ADMIN_POLICIES_CANCEL.
  destruct (requestedPermData_ st !! t) as [l|] eqn:E;
    [|intros [= <- <-]; split; [done|]; unfold entry; by rewrite E].
  assert (entry st t c = find_if (has_code c) l) as En by (unfold entry; by rewrite E).
  rewrite En. destruct (find_if (has_code c) l) as [d|] eqn:F; [|intros [= <- <-]; done]. cbv zeta.
  rewrite !land_bit_eq, !eqb_0_bit by lia.
  destruct (Z.testbit (bpd_flag d) 2) eqn:B2; [intros [= <- <-]; done|].
  destruct (Z.testbit (bpd_flag d) 7) eqn:B7, (Z.testbit f 7), (Z.testbit f 2), (Z.testbit f 8) eqn:F8;
    cbn [negb andb orb]; intros [= <- <-]; first [rewrite decide_False by done; done|rewrite decide_True by done].
  all: split_and!; try done; [eexists; split; [done|]; by rewrite ?B2, ?B7| |].
  all: try (intros t'; cbn; destruct (decide (t = t')) as [<-|];
    [rewrite lookup_insert_eq, E; by split|by rewrite lookup_insert_ne]).
  all: intros t' c'; rewrite (entry_update st t l c) by done; rewrite En; destruct (decide _); [|done];
    cbn; unfold updated_entry; by rewrite F8.
Qed.

(** ** Security-component grants. *)
Definition secComp_flag (b : bool) (d : BriefPermData) : BriefPermData :=
  set_bpd_flag (if b then bpd_flag d .| PERMISSION_COMPONENT_SET
                else bpd_flag d .& u32_not PERMISSION_COMPONENT_SET) d.

Lemma secComp_flag_testbit b d n :
  is_u32 (bpd_flag d) -> 0 <= n ->
  Z.testbit (bpd_flag (secComp_flag b d)) n =
    if n =? 4 then b else Z.testbit (bpd_flag d) n.
Proof.
  intros [H0 H]%is_u32_bits Hn. unfold secComp_flag, PERMISSION_COMPONENT_SET. cbn [bpd_flag set_bpd_flag].
  destruct b; autorewrite with bits; rewrite (Z.eqb_sym 4).
  - destruct (n =? 4); [apply orb_true_r|apply orb_false_r].
  - destruct (Z.ltb_spec n 32); cbn.
    + destruct (n =? 4); [apply andb_false_r|apply andb_true_r].
    + rewrite H by done. destruct (Z.eqb_spec n 4); [lia|done].
Qed.

Lemma SecCompUpdated_entry t p c b st :
  TransferPermissionToOpcode p = Some c ->
  (forall t' c', entry (SecCompGrantedPermListUpdated t p b st) t' c' =
     if decide (t = t' /\ c = c') then secComp_flag b <$> entry st t c else entry st t' c') /\
  extendedValue_ (SecCompGrantedPermListUpdated t p b st) = extendedValue_ st /\
  (forall t', is_Some (requestedPermData_ (SecCompGrantedPermListUpdated t p b st) !! t') <->
              is_Some (requestedPermData_ st !! t')).
Proof.
  intros T. unfold SecCompGrantedPermListUpdated. rewrite T.
  destruct (requestedPermData_ st !! t) as [l|] eqn:E.
  - split_and!; [|done|].
    + intros t' c'. cbn [requestedPermData_]. etrans; [|apply (entry_update st t l c); done]. done.
    + intros t'. cbn. destruct (decide (t = t')) as [<-|].
      * rewrite lookup_insert_eq, E. by split.
      * by rewrite lookup_insert_ne.
  - split_and!; [|done|done]. intros t' c'. destruct (decide _) as [[<- <-]|]; [|done].
    unfold entry. by rewrite E.
Qed.

(** [UpdateSecCompGrantedPermList] leaves the store or records (removes) the grant. *)
Lemma UpdateSecComp_cases t p c b st :
  TransferPermissionToOpcode p = Some c ->
  (UpdateSecCompGrantedPermList t c b st).2 = st \/
  (exists q, TransferPermissionToOpcode q = Some c /\
     (UpdateSecCompGrantedPermList t c b st).2 = SecCompGrantedPermListUpdated t q b st /\
     (forall d, entry st t c = Some d -> is_u32 (bpd_flag d) -> Z.testbit (bpd_flag d) 7 = false /\
        (b = true -> Z.testbit (bpd_flag d) 2 = false))).
Proof.
  intros T. unfold UpdateSecCompGrantedPermList.
  assert (queried (QueryPermissionStatusAndFlagInner t c st) =
    match entry st t c with
    | Some d => (GetEffectivePermissionStatus d, bpd_flag d)
    | None => (PERMISSION_DENIED, 0)
    end) as ->.
  { unfold QueryPermissionStatusAndFlagInner, entry.
    destruct (requestedPermData_ st !! t) as [l|]; cbn; [|done]. by destruct (find_if _ l). }
  assert (TransferPermissionToOpcode (TransferOpcodeToPermission c) = Some c) as Tq
    by (apply name_to_opcode; by eapply opcode_range).
  destruct (entry st t c) as [d|].
  2:{ cbn. right. exists (TransferOpcodeToPermission c). done. }
  unfold PERMISSION_FIXED_BY_ADMIN_POLICY. rewrite nz_land_bit by lia.
  destruct (Z.testbit (bpd_flag d) 7) eqn:B7; [by left|]. cbv zeta.
  destruct (IsPermOperatedByUser (bpd_flag d) || IsPermOperatedBySystem (bpd_flag d)) eqn:Op.
  - destruct b; [left; by split_if|]. right. exists (TransferOpcodeToPermission c).
    split_and!; [done..|]. intros d' [= <-] _. done.
  - right. exists (TransferOpcodeToPermission c). split_and!; [done..|]. intros d' [= <-] _.
    split; [done|]. intros _. apply orb_false_iff in Op as [_ Op].
    unfold IsPermOperatedBySystem, PERMISSION_SYSTEM_FIXED in Op.
    apply orb_false_iff in Op as [Op _]. by rewrite nz_land_bit, u32_testbit in Op by lia.
Qed.

(** What any call of [UpdatePermissionStatus] can do to the entries. *)
Lemma UpdatePermissionStatus_entry t p b f st :
  (UpdatePermissionStatus t p b f st).2 = st \/
  (exists c g, TransferPermissionToOpcode p = Some c /\
     (forall t' c', entry (UpdatePermissionStatus t p b f st).2 t' c' =
        if decide (t = t' /\ c = c') then g <$> entry st t c else entry st t' c') /\
     (forall t', is_Some (requestedPermData_ (UpdatePermissionStatus t p b f st).2 !! t') <->
                 is_Some (requestedPermData_ st !! t')) /\
     forall d, entry st t c = Some d -> is_u32 (bpd_flag d) ->
       (update_refused f d = false /\ g d = updated_entry b f d) \/
       (Z.testbit (bpd_flag d) 7 = false /\ exists b', g d = secComp_flag b' d /\
          (b' = true -> Z.testbit (bpd_flag d) 2 = false))).
Proof.
  unfold UpdatePermissionStatus. destruct (TransferPermissionToOpcode p) as [c|] eqn:T; [|by left].
  destruct (negb (IsPermGrantedBySecComp f)).
  - destruct (UpdatePermStateList t c b f st) as [ret st'] eqn:U.
    apply UpdatePermStateList_spec in U. cbn. destruct (decide (ret = RET_SUCCESS)).
    + right. destruct U as ((d & En & Hr) & _ & _ & Hd & He). exists c, (updated_entry b f).
      split_and!; [done..|]. intros d' En' _. left. split; [congruence|done].
    + left. apply U.
  - destruct (UpdateSecComp_cases t p c b st T) as [E|(q & Tq & E & Hd)];
      destruct (UpdateSecCompGrantedPermList t c b st) as [ret st']; cbn in *; subst st'; [by left|].
    right. exists c, (secComp_flag b). destruct (SecCompUpdated_entry t q c b st Tq) as (He & _ & Hdom).
    split_and!; [done..|]. intros d En Hu. right. destruct (Hd d En Hu) as [H7 H2]. eauto.
Qed.

Lemma entry_of_wf st t c d : brief_wf st -> entry st t c = Some d -> entry_wf d /\ bpd_permCode d = c.
Proof.
  intros Hw En. unfold entry in En. destruct (requestedPermData_ st !! t) as [l|] eqn:E; [|done]. cbn in En.
  destruct (brief_wf_lookup _ _ _ Hw E) as [_ [_ Hl]]. apply find_if_Some in En as [Hin Hc].
  split; [by apply (proj1 (Forall_forall _ _) Hl)|]. unfold has_code in Hc. by breflect.
Qed.

(** ** Reset. *)
Lemma Reset_spec t st ret st' :
  ResetUserGrantPermissionStatus t st = (ret, st') ->
  if decide (ret = RET_SUCCESS) then
    is_Some (requestedPermData_ st !! t) /\
    (forall t' c, entry st' t' c = if decide (t = t') then ResetEntry <$> entry st t c else entry st t' c) /\
    secCompList_ st' = filter (fun s => sc_tokenId s <> t) (secCompList_ st) /\
    (forall t', is_Some (requestedPermData_ st' !! t') <-> is_Some (requestedPermData_ st !! t'))
  else st' = st /\ requestedPermData_ st !! t = None.
Proof.
  unfold ResetUserGrantPermissionStatus. destruct (requestedPermData_ st !! t) as [l|] eqn:E;
    intros [= <- <-]; [|done]. rewrite decide_True by done. split_and!; [done| |done|].
  - intros t' c. transitivity (entry (set_requested (<[t := map ResetEntry l]> (requestedPermData_ st)) st) t' c);
      [done|]. rewrite entry_insert. destruct (decide (t = t')); [|done].
    unfold entry. rewrite E. cbn. apply find_if_map. intros d. unfold has_code. by rewrite ResetEntry_code.
  - intros t'. cbn. destruct (decide (t = t')) as [<-|].
    + rewrite lookup_insert_eq, E. by split.
    + by rewrite lookup_insert_ne.
Qed.

Definition admin_bits (f : Z) : Z :=
  f .& (PERMISSION_FIXED_BY_ADMIN_POLICY .| PERMISSION_RESTRICTED_BY_ADMIN).

Lemma pre_admin_testbit f n :
  0 <= n -> Z.testbit (PERMISSION_PRE_AUTHORIZED_CANCELABLE .| admin_bits f) n =
    (n =? 3) || Z.testbit f n && ((n =? 7) || (n =? 9)).
Proof.
  intros. unfold admin_bits, PERMISSION_PRE_AUTHORIZED_CANCELABLE, PERMISSION_FIXED_BY_ADMIN_POLICY,
    PERMISSION_RESTRICTED_BY_ADMIN.
  autorewrite with bits. by rewrite (Z.eqb_sym 3), (Z.eqb_sym 7), (Z.eqb_sym 9).
Qed.

(** [ResetEntry], read from the flag bits. *)
Lemma ResetEntry_bits d :
  ResetEntry d =
    if Z.testbit (bpd_flag d) 2 then d
    else if Z.testbit (bpd_flag d) 3 then
      set_bpd_flag (PERMISSION_PRE_AUTHORIZED_CANCELABLE .| admin_bits (bpd_flag d))
        (set_bpd_status PERMISSION_GRANTED d)
    else if Z.testbit (bpd_flag d) 7 || Z.testbit (bpd_flag d) 9 then d
    else set_bpd_flag PERMISSION_DEFAULT_FLAG (set_bpd_status PERMISSION_DENIED d).
Proof.
  unfold ResetEntry, admin_bits, PERMISSION_SYSTEM_FIXED, PERMISSION_PRE_AUTHORIZED_CANCELABLE,
    PERMISSION_FIXED_BY_ADMIN_POLICY, PERMISSION_RESTRICTED_BY_ADMIN. cbv zeta.
  rewrite !nz_land_bit by lia.
  by destruct (Z.testbit (bpd_flag d) 2), (Z.testbit (bpd_flag d) 3), (Z.testbit (bpd_flag d) 7),
    (Z.testbit (bpd_flag d) 9).
Qed.

Lemma ResetEntry_idem d : ResetEntry (ResetEntry d) = ResetEntry d.
Proof.
  destruct (Z.testbit (bpd_flag d) 2) eqn:B2.
  { assert (ResetEntry d = d) as -> by (by rewrite ResetEntry_bits, B2). by rewrite ResetEntry_bits, B2. }
  destruct (Z.testbit (bpd_flag d) 3) eqn:B3.
  { rewrite (ResetEntry_bits d), B2, B3. rewrite ResetEntry_bits. cbn [bpd_flag set_bpd_flag].
    rewrite !pre_admin_testbit by lia. cbn [Z.eqb Pos.eqb orb]. rewrite andb_false_r.
    unfold set_bpd_flag, set_bpd_status. cbn. f_equal. apply Z.bits_inj'. intros n Hn.
    rewrite !pre_admin_testbit by lia. destruct (n =? 3), (n =? 7), (n =? 9), (Z.testbit (bpd_flag d) n); done. }
  destruct (Z.testbit (bpd_flag d) 7 || Z.testbit (bpd_flag d) 9) eqn:B7.
  { assert (ResetEntry d = d) as -> by (by rewrite ResetEntry_bits, B2, B3, B7).
    by rewrite ResetEntry_bits, B2, B3, B7. }
  by rewrite (ResetEntry_bits d), B2, B3, B7.
Qed.

(** ** Application update, entry by entry. *)
Lemma GetPermissionBriefDataList_spec t states acl st :
  is_u32 t -> exists e, GetPermissionBriefDataList t states acl st =
    (omap brief_of_state states, set_extended e st).
Proof.
  intros Ht. unfold GetPermissionBriefDataList.
  destruct (GetPermissionBriefDataList_loop_spec t acl states (DeleteExtendedValue t st) Ht) as (e & -> & _).
  by exists e.
Qed.

Lemma Update_entries t states acl b st t' c :
  is_u32 t ->
  entry (Update t states acl b st) t' c =
    if decide (t = t') then
      Update_entry (GetBriefPermDataByTokenIdInner t st).2 b <$>
        find_if (has_code c) (omap brief_of_state (FilterInvalidPermissionState TOKEN_HAP true states))
    else entry st t' c.
Proof.
  intros Ht. unfold Update. cbv zeta.
  destruct (GetPermissionBriefDataList_spec t (FilterInvalidPermissionState TOKEN_HAP true states) acl st Ht)
    as (e & ->).
  rewrite AddBriefPermDataByTokenId_eq, entry_insert. destruct (decide (t = t')); [|done].
  rewrite find_if_map; [done|]. intros d. unfold has_code. by rewrite Update_entry_code.
Qed.

(** Finding an entry by its code is finding the state by its name. *)
Lemma find_code_name p c states :
  TransferPermissionToOpcode p = Some c -> c_str p = p -> plain_names states ->
  Forall (fun s => is_Some (brief_of_state s)) states ->
  find_if (has_code c) (omap brief_of_state states) =
    find_if (fun s => String.eqb (ps_permissionName s) p) states ≫= brief_of_state.
Proof.
  intros T Hp. induction 1 as [|s states Hs Hpl IH]; [done|].
  intros [[d Hd] Hall]%Forall_cons. cbn. rewrite Hd. cbn [find_if].
  pose proof (brief_of_state_name _ _ Hd) as Td. unfold has_code at 1.
  destruct (String.eqb_spec (ps_permissionName s) p) as [E|Hne].
  - rewrite E, T in Td. injection Td as ->. by rewrite Z.eqb_refl.
  - destruct (Z.eqb_spec (bpd_permCode d) c) as [E|]; [|by apply IH].
    exfalso. apply Hne. rewrite E in Td. pose proof (opcode_inj _ _ _ Td T). congruence.
Qed.

Lemma acceptable_hap_brief s : state_acceptable TOKEN_HAP true s = true -> is_Some (brief_of_state s).
Proof.
  unfold state_acceptable, IsPermissionStateValid, IsPermissionAvailable, brief_of_state,
    IsPermissionValidForHap, with_def. cbn.
  destruct (IsPermissionNameValid _), (IsGrantStatusValid _), (IsPermissionFlagValid _); cbn; try done.
  by destruct (TransferPermissionToOpcode _).
Qed.

Lemma Update_requested p c states :
  TransferPermissionToOpcode p = Some c -> c_str p = p -> plain_names states ->
  find_if (has_code c) (omap brief_of_state (FilterInvalidPermissionState TOKEN_HAP true states)) =
    find_if (fun s => String.eqb (ps_permissionName s) p && state_acceptable TOKEN_HAP true s) states
      ≫= brief_of_state.
Proof.
  intros T Hp Hpl. destruct (FilterInvalidPermissionState_loop_spec TOKEN_HAP true states ∅)
    as (H1 & H2 & _ & H4).
  rewrite (find_code_name p c); [|done..| |].
  - unfold FilterInvalidPermissionState. rewrite H4; [done|set_solver].
  - by eapply Forall_sublist.
  - apply Forall_forall. intros s Hs. apply acceptable_hap_brief. by apply H2.
Qed.

(** ** Persistence. *)

(** What a restart keeps of an entry: the security-component bit is not stored
    and a one-time grant is not restored. *)
Definition restored_entry (d : BriefPermData) : BriefPermData :=
  mkBriefPermData (if Z.testbit (bpd_flag d) 6 then PERMISSION_DENIED else bpd_status d)
    (bpd_type d) (bpd_permCode d) (GetFlagWroteToDb (bpd_flag d)).

(** The reader passes over a row whose flag has an unknown bit. *)
Definition flag_readable (d : BriefPermData) : Prop := IsPermissionFlagValid (bpd_flag d) = true.
#[export] Instance flag_readable_dec d : Decision (flag_readable d).
Proof. unfold flag_readable. apply _. Defined.

Lemma BuildPermissionStateValue_holds now t old d :
  entry_wf d -> holds_status (BuildPermissionStateValue now t old d) (GetPermissionStatus now d) /\
    holds_status (reload (BuildPermissionStateValue now t old d)) (GetPermissionStatus now d).
Proof.
  intros (Hs & _ & Hf & _). eapply (holds_status_written _ (Put FIELD_TOKEN_ID (TYPE_INT (i32 t)) ∅)).
  - done.
  - cbn. unfold PERMISSION_GRANTED, PERMISSION_DENIED, is_i32 in *. lia.
  - intros k Hk. repeat (apply elem_of_cons in Hk as [->|Hk]; [done|]). by apply not_elem_of_nil in Hk.
  - intros k Hk. assert (k <> FIELD_TIMESTAMP /\ k <> FIELD_DEVICE_ID) as [N1 N2].
    { repeat (apply elem_of_cons in Hk as [->|Hk]; [done|]). by apply not_elem_of_nil in Hk. }
    unfold BuildPermissionStateValue. cbv zeta.
    assert (forall v w : GenericValues, Put FIELD_DEVICE_ID (TYPE_STRING "PHONE-001") v = w -> w !! k = v !! k) as P1.
    { intros v w <-. rewrite Put_lookup. destruct (String.eqb_spec FIELD_DEVICE_ID k); congruence. }
    destruct (old !! BuildPermissionStateKey _) as [o|]; [|by apply (P1 _ _ eq_refl)].
    split_if; [|by apply (P1 _ _ eq_refl)]. rewrite (Put_lookup FIELD_TIMESTAMP).
    destruct (String.eqb_spec FIELD_TIMESTAMP k); [congruence|]. unfold Remove.
    rewrite lookup_delete_ne by done. by apply (P1 _ _ eq_refl).
Qed.

Lemma opcode_name_valid c : 0 <= c < MAX_PERM_SIZE -> IsPermissionNameValid (TransferOpcodeToPermission c) = true.
Proof.
  intros Hc. destruct (opcode_def _ _ (name_to_opcode c Hc)) as (def & Hd & E).
  assert (def ∈ g_permList) as Hin.
  { unfold permList_at in Hd. destruct (c <? 0); [done|]. by eapply list_elem_of_lookup_2. }
  rewrite <- (opcode_to_name _ _ (name_to_opcode c Hc)) in E. rewrite <- E.
  unfold IsPermissionNameValid, str_empty, strlen, MAX_LENGTH.
  destruct (String.eqb_spec (pbd_permissionName def) "") as [E0|]; [by apply permList_nonempty in Hin|].
  pose proof (permList_length _ Hin). by destruct (Z.ltb_spec 256 (Z.of_nat (String.length (pbd_permissionName def)))); [lia|].
Qed.

Lemma restore_value v now t d acl st l :
  entry_wf d -> holds_status v (GetPermissionStatus now d) -> is_u32 t ->
  bpd_permCode d ∉ map bpd_permCode l ->
  forall rest, exists e, RestorePermissionBriefData_loop t (v :: rest) acl l st =
    RestorePermissionBriefData_loop t rest acl (l ++ if decide (flag_readable d) then [restored_entry d] else []) (set_extended e st).
Proof.
  intros Hw Hv Ht Hl rest. cbn [RestorePermissionBriefData_loop].
  rewrite (TranslationIntoPermissionStatus_holds _ _ Hv). pose proof Hw as (Hs & Hc & Hu & Hty).
  assert (IsPermissionStateValid (GetPermissionStatus now d) = IsPermissionFlagValid (bpd_flag d)) as ->.
  { unfold IsPermissionStateValid. cbn. rewrite opcode_name_valid by done.
    rewrite (proj2 (IsGrantStatusValid_iff _) Hs). by destruct (IsPermissionFlagValid _). }
  case_decide as Hf; [rewrite Hf|rewrite (not_true_is_false _ Hf)].
  2: { exists (extendedValue_ st). rewrite app_nil_r. by destruct st. }
  edestruct (GetPermissionBriefData_spec t) as (e & -> & _); [done|]. exists e.
  unfold brief_of_state, reloaded_status. cbn [ps_grantStatus ps_permissionName ps_grantFlag GetPermissionStatus].
  rewrite name_to_opcode by done. rewrite u32_small by done.
  assert (IsGrantStatusValid (if Z.testbit (bpd_flag d) 6 then PERMISSION_DENIED else bpd_status d) = true) as ->.
  { apply IsGrantStatusValid_iff. destruct (Z.testbit _ 6); auto. }
  cbn [negb]. unfold MergePermBriefData. cbn [bpd_permCode set_bpd_flag bpd_flag bpd_status].
  destruct (find_if _ l) as [d'|] eqn:F.
  - exfalso. apply find_if_Some in F as [Hin Hc']. unfold has_code in Hc'. cbn in Hc'. breflect. apply Hl.
    rewrite <- Hc'. by apply (list_elem_of_fmap_2 bpd_permCode).
  - unfold restored_entry. by rewrite Hty.
Qed.

(** Restoring the rows of distinct entries restores the readable ones, in the order of the rows. *)
Lemma restore_values t acl ps : forall l st,
  Forall (fun p : GenericValues * BriefPermData => exists now, holds_status p.1 (GetPermissionStatus now p.2)) ps ->
  NoDup (map bpd_permCode (l ++ map snd ps)) -> Forall entry_wf (map snd ps) -> is_u32 t ->
  exists e, RestorePermissionBriefData_loop t (map fst ps) acl (map restored_entry l) st =
    (map restored_entry (l ++ filter flag_readable (map snd ps)), set_extended e st).
Proof.
  induction ps as [|[v d] ps IH]; intros l st Hv Hn Hw Ht; cbn [map fst snd].
  { exists (extendedValue_ st). rewrite filter_nil, app_nil_r. by destruct st. }
  apply Forall_cons in Hv as [(now & Hv) Hvs]. cbn [map snd fst] in Hn, Hw, Hv. apply Forall_cons in Hw as [Hd Hw].
  edestruct (restore_value v now t d acl st (map restored_entry l)) as (e & ->); [done..| |].
  { rewrite map_map. cbn. rewrite map_app, NoDup_app in Hn. destruct Hn as (_ & Hn & _).
    intros Hin. apply (Hn _ Hin). left. }
  rewrite filter_cons. destruct (decide (flag_readable d)).
  - replace (map restored_entry l ++ [restored_entry d]) with (map restored_entry (l ++ [d])) by (by rewrite map_app).
    destruct (IH (l ++ [d]) (set_extended e st)) as (e' & ->); [done|by rewrite <- app_assoc|done..|].
    exists e'. by rewrite <- app_assoc.
  - rewrite app_nil_r. destruct (IH l (set_extended e st)) as (e' & ->); [done| |done..|by exists e'].
    eapply sublist_NoDup; [exact Hn|]. apply fmap_sublist, sublist_app; [done|]. by apply sublist_cons.
Qed.

(** ** A change of the answer is the change asked for. *)
Lemma SecComp_recorded t q c b st :
  brief_wf st -> TransferPermissionToOpcode q = Some c -> is_Some (requestedPermData_ st !! t) ->
  secComp_granted (SecCompGrantedPermListUpdated t q b st) t c = b.
Proof.
  intros (_ & [Hnd _] & _) T [l E]. unfold SecCompGrantedPermListUpdated, secComp_granted. rewrite T, E. cbn.
  pose proof (opcode_u16 _ _ T) as Hc. destruct b.
  - destruct (find_if (is_secComp t c) (secCompList_ st)) as [x|] eqn:F; [by rewrite F|].
    destruct (find_if _ (_ ++ _)) as [y|] eqn:F2; [done|]. rewrite find_if_None in F2.
    specialize (F2 (mkBriefSecCompData (u16 c) 0 t) ltac:(apply elem_of_app; right; left)).
    unfold is_secComp in F2. cbn in F2. by rewrite u16_small, !Z.eqb_refl in F2.
  - rewrite erase_first_absent; [done| |by eapply NoDup_of_map].
    intros x y Hx Hy Px Py. unfold is_secComp in Px, Py. breflect.
    eapply (NoDup_map_inj sc_key); [exact Hnd|done..|]. unfold sc_key. congruence.
Qed.

Lemma SecComp_other t q c b st t' c' :
  TransferPermissionToOpcode q = Some c -> ~ (t' = t /\ c' = c) ->
  secComp_granted (SecCompGrantedPermListUpdated t q b st) t' c' = secComp_granted st t' c'.
Proof.
  intros T Hne. unfold SecCompGrantedPermListUpdated. rewrite T. destruct (requestedPermData_ st !! t); [|done].
  pose proof (opcode_u16 _ _ T) as Hc. unfold secComp_granted. cbn.
  assert (forall x, is_secComp t c x = true -> is_secComp t' c' x = false) as Hdis.
  { intros x. unfold is_secComp. intros Hx. destruct (is_secComp t' c' x) eqn:Hy; [|done]. unfold is_secComp in Hy.
    breflect. destruct Hne. split; congruence. }
  destruct b; [destruct (find_if (is_secComp t c) _); [done|]|].
  - rewrite find_if_app. destruct (find_if (is_secComp t' c') (secCompList_ st)); [done|]. cbn.
    rewrite Hdis; [done|]. unfold is_secComp. cbn. by rewrite u16_small, !Z.eqb_refl.
  - rewrite find_if_erase_ne; [done|]. done.
Qed.

Lemma answer_follows t p c b f st :
  brief_wf st -> TransferPermissionToOpcode p = Some c -> Z.testbit f 8 = false -> (b = true -> Z.testbit f 9 = false) ->
  let st' := (UpdatePermissionStatus t p b f st).2 in
  VerifyPermissionStatus_code t c st' <> VerifyPermissionStatus_code t c st ->
  VerifyPermissionStatus_code t c st' = if b then PERMISSION_GRANTED else PERMISSION_DENIED.
Proof.
  intros Hw T F8 F9 st'. subst st'. unfold UpdatePermissionStatus. rewrite T, IsPermGrantedBySecComp_bit.
  destruct (Z.testbit f 4) eqn:F4; cbn [negb].
  - destruct (UpdateSecComp_cases t p c b st T) as [E|(q & Tq & E & _)];
      destruct (UpdateSecCompGrantedPermList t c b st) as [ret st']; cbn in *; subst st'; [done|].
    destruct (SecCompUpdated_entry t q c b st Tq) as (He & _ & Hdom). rewrite !Verify_entry, He, decide_True by done.
    destruct (entry st t c) as [d|] eqn:En; cbn [fmap option_fmap option_map].
    + destruct (entry_of_wf _ _ _ _ Hw En) as [(Hs & _ & Hu & _) _]. rewrite !effective_bits, !secComp_flag_testbit by (done || lia).
      cbn [Z.eqb Pos.eqb secComp_flag set_bpd_flag bpd_status].
      destruct (Z.testbit (bpd_flag d) 9), b, (Z.testbit (bpd_flag d) 4); try done; destruct Hs as [-> | ->]; done.
    + rewrite (bool_decide_ext _ _ (Hdom t)). case_bool_decide as Hs; [|done]. by rewrite (SecComp_recorded _ _ _ _ _ Hw Tq Hs), andb_true_l.
  - destruct (UpdatePermStateList t c b f st) as [ret st'] eqn:U. apply UpdatePermStateList_spec in U. cbn [snd].
    destruct (decide (ret = RET_SUCCESS)); [|by destruct U as [-> _]].
    destruct U as ((d & En & _) & _ & _ & _ & He). rewrite !Verify_entry, He, decide_True, En by done. cbn [fmap option_fmap option_map].
    rewrite !effective_bits. cbn [updated_entry bpd_flag bpd_status]. rewrite !UpdateWithNewFlag_testbit, F4, F8 by lia.
    cbn. rewrite andb_true_r, andb_false_r. destruct b; [rewrite F9 by done; by destruct (Z.testbit (bpd_flag d) 9)|].
    by destruct (Z.testbit f 9 || Z.testbit (bpd_flag d) 9).
Qed.

(** ** The granted codes, and checks of the other tokens after a deletion. *)
Lemma granted_codes t c st :
  brief_wf st -> is_Some (requestedPermData_ st !! t) -> GetTokenIdTypeEnum t = TOKEN_HAP ->
  c ∈ GetGrantedPermCodeList t st <->
  VerifyPermissionStatus_code t c st = PERMISSION_GRANTED \/ secComp_granted st t c = true.
Proof.
  intros Hw [l E] Hty. unfold GetGrantedPermCodeList, GetTokenIdTypeEnum in *. rewrite E, Hty, Z.eqb_refl.
  cbn [negb]. rewrite elem_of_app. destruct (brief_wf_lookup _ _ _ Hw E) as [_ [Hnd _]].
  assert (c ∈ map sc_permCode (filter (fun s => sc_tokenId s = t) (secCompList_ st)) <->
          secComp_granted st t c = true) as ->.
  { unfold secComp_granted. destruct (find_if _ _) as [s|] eqn:F.
    - apply find_if_Some in F as [Hin Hs]. unfold is_secComp in Hs. breflect. split; [done|]. intros _.
      subst. apply (list_elem_of_fmap_2 sc_permCode). by apply list_elem_of_filter.
    - split; [|done]. intros (s & -> & [Hs Hin]%list_elem_of_filter)%list_elem_of_fmap.
      rewrite find_if_None in F. specialize (F s Hin). unfold is_secComp in F.
      by rewrite Hs, !Z.eqb_refl in F. }
  rewrite Verify_entry. unfold entry. rewrite E. cbn [mbind option_bind].
  rewrite bool_decide_true by done. cbn [andb]. split.
  - intros [(d & -> & [Hg Hin]%list_elem_of_filter)%list_elem_of_fmap|]; [left|by right].
    unfold has_code. by rewrite find_if_key.
  - intros [Hv|]; [|by right]. destruct (find_if (has_code c) l) as [d|] eqn:F.
    + left. apply find_if_Some in F as [Hin Hc]. unfold has_code in Hc. breflect. subst.
      apply (list_elem_of_fmap_2 bpd_permCode). by apply list_elem_of_filter.
    + right. by destruct (secComp_granted st t c).
Qed.

Lemma delete_other_checks t st t' c :
  t' <> t -> VerifyPermissionStatus_code t' c (DeleteBriefPermDataByTokenId t st).2 = VerifyPermissionStatus_code t' c st.
Proof.
  intros Hne. unfold DeleteBriefPermDataByTokenId. destruct (requestedPermData_ st !! t) as [l|] eqn:E; [|done].
  unfold VerifyPermissionStatus_code. cbn. rewrite lookup_delete_ne by done.
  destruct (requestedPermData_ st !! t'); [|done]. rewrite find_if_filter; [done|].
  intros s. unfold is_secComp. intros Hs. breflect. congruence.
Qed.

End Theory.
