(* ===== verification/PermissionDataBriefProps.v ===== *)
(** * What the permission state store guarantees

    The properties of permission_data_brief.cpp, each with a concrete instance
    on the sample permission table. *)

From stdpp Require Import base gmap list strings.
From S2P Require Import Prelude AccessTokenTypes TokenId PermissionMap Validator Database DataTranslator PermissionDataBrief PermissionDataBriefTheory.
#[local] Open Scope string_scope.
#[local] Open Scope list_scope.
#[local] Open Scope Z_scope.
#[local] Open Scope cxx_scope.

Section Props.
Context {PT : PermTable} `{!PermTableLaws PT}.
Implicit Types (st : Brief) (t c : Z) (d : BriefPermData).

(** Every store reached from the empty one by the public methods, in any order and with the
    arguments that [brief_step] allows, is well formed: the codes requested by a token are distinct and defined, the
    statuses are granted or denied, the flags are 32-bit words, and the
    security-component grants and permission values belong to stored tokens. *)
Theorem brief_reachable_wf st : rtc brief_step empty_brief st -> brief_wf st.
Proof.
  intros H. assert (brief_wf empty_brief) as Hw by apply empty_brief_wf.
  induction H as [|st1 st2 st3 Hs _ IH]; [done|]. by apply IH, (brief_step_wf st1).
Qed.

(** C21: a grant or revoke of a defined permission that is not for a security component
    (the flag without COMPONENT_SET) either fails and leaves the store as it was, or concerns a
    requested permission that is not system-fixed, and then: a check of that
    permission answers what was asked, except that it is denied while the
    permission is restricted by the administrator and keeps the old status when
    the administrator's policy is being cancelled; the stored flag is the new flag
    with the old pre-authorization and restriction bits; and no other check of any
    token changes. *)
Theorem UpdatePermissionStatus_spec t p c b f st ret ct st' :
  TransferPermissionToOpcode p = Some c -> Z.testbit f 4 = false ->
  UpdatePermissionStatus t p b f st = (ret, ct, st') ->
  if decide (ret = RET_SUCCESS) then
    exists d, entry st t c = Some d /\ Z.testbit (bpd_flag d) 2 = false /\
      (exists d', entry st' t c = Some d' /\ bpd_flag d' = UpdateWithNewFlag (bpd_flag d) f) /\
      VerifyPermissionStatus t p st' =
        (if Z.testbit f 9 || Z.testbit (bpd_flag d) 9 then PERMISSION_DENIED
         else if Z.testbit f 8 then bpd_status d
         else if b then PERMISSION_GRANTED else PERMISSION_DENIED) /\
      (forall t' q c', TransferPermissionToOpcode q = Some c' -> ~ (t' = t /\ c' = c) ->
         VerifyPermissionStatus t' q st' = VerifyPermissionStatus t' q st)
  else st' = st.
Proof.
  intros T F4 U. unfold UpdatePermissionStatus in U. rewrite T, IsPermGrantedBySecComp_bit, F4 in U.
  cbn in U. destruct (UpdatePermStateList t c b f st) as [r s1] eqn:L. injection U as <- _ <-.
  apply UpdatePermStateList_spec in L. destruct (decide _); [|apply L].
  destruct L as ((d & En & Hr) & Hsc & _ & Hdom & He). exists d.
  unfold update_refused in Hr. rewrite !orb_false_iff in Hr. destruct Hr as [[H2 _] _].
  assert (entry s1 t c = Some (updated_entry b f d)) as En'.
  { rewrite He, decide_True by done. by rewrite En. }
  split_and!; [done..| | |].
  - by exists (updated_entry b f d).
  - unfold VerifyPermissionStatus. rewrite T, Verify_entry, En', effective_bits.
    cbn [bpd_flag bpd_status updated_entry]. rewrite !UpdateWithNewFlag_testbit by lia.
    rewrite F4. cbn [Z.eqb Pos.eqb orb]. rewrite andb_true_r, andb_false_r.
    by destruct (Z.testbit f 9 || _).
  - intros t' q c' Tq Hne. unfold VerifyPermissionStatus. rewrite Tq, !Verify_entry.
    rewrite He, decide_False by naive_solver. unfold secComp_granted. rewrite Hsc.
    by rewrite (bool_decide_ext _ _ (Hdom t')).
Qed.

(** A grant or revoke on behalf of a user or an application: its flag carries
    neither the system-fixed nor an administrator bit. *)
Inductive user_step : Brief -> Brief -> Prop :=
  | user_update st t p b f :
      is_u32 f -> Z.testbit f 2 = false -> Z.testbit f 7 = false -> Z.testbit f 8 = false ->
      user_step st (UpdatePermissionStatus t p b f st).2.

(** The entry without the mark of a security component. *)
Definition unmarked (d : BriefPermData) : BriefPermData := set_bpd_flag (bpd_flag d .& u32_not PERMISSION_COMPONENT_SET) d.

Lemma unmarked_testbit d n : is_u32 (bpd_flag d) -> 0 <= n ->
  Z.testbit (bpd_flag (unmarked d)) n = if n =? 4 then false else Z.testbit (bpd_flag d) n.
Proof. apply (secComp_flag_testbit false). Qed.

Lemma unmarked_id d : is_u32 (bpd_flag d) -> Z.testbit (bpd_flag d) 4 = false -> unmarked d = d.
Proof.
  intros Hu H4. assert (bpd_flag (unmarked d) = bpd_flag d) as E; [|by destruct d; cbn in *; unfold unmarked; cbn; rewrite E].
  apply Z.bits_inj'. intros n Hn. rewrite unmarked_testbit by done. by destruct (Z.eqb_spec n 4) as [->|].
Qed.

Lemma unmarked_idem d : is_u32 (bpd_flag d) -> unmarked (unmarked d) = unmarked d.
Proof. intros Hu. apply unmarked_id; [apply land_is_u32; [done|apply u32_not_is_u32]|by rewrite unmarked_testbit]. Qed.

Lemma user_step_fixed st st' t c d :
  user_step st st' -> entry st t c = Some d -> is_u32 (bpd_flag d) ->
  Z.testbit (bpd_flag d) 2 = true \/ Z.testbit (bpd_flag d) 7 = true ->
  entry st' t c = Some d \/ Z.testbit (bpd_flag d) 7 = false /\ entry st' t c = Some (unmarked d).
Proof.
  intros Hs En Hu Hfix. destruct Hs as [st t1 p b f Hf F2 F7 F8].
  destruct (UpdatePermissionStatus_entry t1 p b f st) as [->|(c1 & g & T & He & _ & Hg)]; [by left|].
  rewrite He. destruct (decide _) as [[-> ->]|]; [|by left]. rewrite En. cbn.
  destruct (Hg d En Hu) as [[Hr _]|(H7 & b' & -> & Hb)].
  - exfalso. unfold update_refused in Hr. rewrite F2, F7, F8 in Hr. cbn in Hr.
    rewrite andb_true_r, orb_false_r in Hr. apply orb_false_iff in Hr as [? ?]. naive_solver congruence.
  - destruct Hfix as [H2|H7']; [|congruence]. destruct b'; [by rewrite Hb in H2|]. by right.
Qed.

(** C23: in a well-formed store, no sequence of grants and revokes made for users or
    applications (their flags carry neither the system-fixed bit nor a bit of the
    administrator's policy), through settings or through security components and on any
    tokens, changes an entry that is fixed by the system or by an administrator's policy, with
    one exception: an entry fixed by the system only that carries the mark of a security
    component (PERMISSION_COMPONENT_SET) may lose that mark, and nothing else of it changes. *)
Theorem fixed_entry_preserved st st' t c d :
  brief_wf st -> rtc user_step st st' -> entry st t c = Some d ->
  Z.testbit (bpd_flag d) 2 = true \/ Z.testbit (bpd_flag d) 7 = true ->
  entry st' t c = Some d \/
  Z.testbit (bpd_flag d) 4 = true /\ Z.testbit (bpd_flag d) 7 = false /\ entry st' t c = Some (unmarked d).
Proof.
  intros Hw Hs En Hfix. assert (is_u32 (bpd_flag d)) as Hu by (eapply entry_wf_u32, entry_of_wf; eauto).
  assert (entry st' t c = Some d \/ Z.testbit (bpd_flag d) 7 = false /\ entry st' t c = Some (unmarked d)) as [?|[H7 E]].
  - clear Hw. induction Hs as [|s1 s2 s3 H1 _ IH] in d, En, Hfix, Hu |- *; [by left|].
    destruct (user_step_fixed _ _ _ _ _ H1 En Hu Hfix) as [E|[H7 E]]; [by apply IH|].
    destruct (IH (unmarked d) E) as [?|[_ E']]; [by rewrite !unmarked_testbit|apply land_is_u32; [done|apply u32_not_is_u32]|by right|].
    right. split; [done|]. by rewrite unmarked_idem in E'.
  - by left.
  - destruct (Z.testbit (bpd_flag d) 4) eqn:H4; [by right|]. left. by rewrite unmarked_id in E.
Qed.

(** The updates that are not the administrator's lifting of a restriction. *)
Inductive unlifted_step : Brief -> Brief -> Prop :=
  | unlifted_status st t p b f : is_u32 f -> unlifted_step st (UpdatePermissionStatus t p b f st).2
  | unlifted_flag st t c m b :
      is_u32 m -> b = true \/ Z.testbit m 9 = false ->
      unlifted_step st (UpdatePermissionFlag t c m b st).2
  | unlifted_reset st t : unlifted_step st (ResetUserGrantPermissionStatus t st).2
  | unlifted_clear st : unlifted_step st (ClearAllSecCompGrantedPerm st).2.

Lemma unlifted_brief st st' : unlifted_step st st' -> brief_step st st'.
Proof. by destruct 1; constructor. Qed.

Lemma UpdatePermissionFlag_entry t c m b st t' c' d :
  brief_wf st -> entry st t' c' = Some d ->
  exists d', entry (UpdatePermissionFlag t c m b st).2 t' c' = Some d' /\
    forall n, 0 <= n < 32 -> Z.testbit (bpd_flag d) n = true -> b = true \/ Z.testbit m n = false ->
              Z.testbit (bpd_flag d') n = true.
Proof.
  intros Hw En. unfold UpdatePermissionFlag.
  destruct (requestedPermData_ st !! t) as [l|] eqn:E; [|eauto].
  destruct (find_if (has_code c) l) as [d0|] eqn:F; [|eauto].
  cbn [snd]. rewrite (entry_update st t l c) by done.
  destruct (decide _) as [[<- <-]|]; [|eauto]. rewrite En. eexists. split; [done|].
  assert (d0 = d) as -> by (unfold entry in En; rewrite E in En; cbn in En; congruence).
  intros n Hn Hd Hb. cbn [set_bpd_flag bpd_flag]. destruct b.
  - by rewrite Z.lor_spec, Hd.
  - destruct Hb as [|Hb]; [done|]. rewrite Z.land_spec, u32_not_testbit, Hd, Hb by lia.
    cbn. rewrite andb_true_r. apply Z.ltb_lt. lia.
Qed.

Lemma unlifted_restricted st st' t c d :
  brief_wf st -> unlifted_step st st' -> entry st t c = Some d -> Z.testbit (bpd_flag d) 9 = true ->
  exists d', entry st' t c = Some d' /\ Z.testbit (bpd_flag d') 9 = true.
Proof.
  intros Hw Hs En H9. destruct (entry_of_wf _ _ _ _ Hw En) as [Hd _]. destruct Hs as [st t1 p b f Hf|st t1 c1 m b Hm Hb|st t1|st].
  - destruct (UpdatePermissionStatus_entry t1 p b f st) as [->|(c1 & g & T & He & _ & Hg)]; [eauto|].
    rewrite He. destruct (decide _) as [[-> ->]|]; [|eauto]. rewrite En. cbn. eexists. split; [done|].
    destruct (Hg d En (entry_wf_u32 _ Hd)) as [[_ ->]|(_ & b' & -> & _)].
    + cbn [bpd_flag updated_entry]. rewrite UpdateWithNewFlag_testbit, H9 by lia. apply orb_true_r.
    + rewrite secComp_flag_testbit; [done|by apply entry_wf_u32|lia].
  - destruct (UpdatePermissionFlag_entry t1 c1 m b st t c d Hw En) as (d' & -> & Hk).
    exists d'. split; [done|]. apply Hk; [lia|done|done].
  - destruct (ResetUserGrantPermissionStatus t1 st) as [r st1] eqn:R. apply Reset_spec in R. cbn.
    destruct (decide (r = RET_SUCCESS)); [|destruct R as [-> _]; eauto].
    destruct R as (_ & He & _). rewrite He. destruct (decide _) as [->|]; [|eauto].
    rewrite En. cbn. eexists. split; [done|]. rewrite ResetEntry_bits, H9, orb_true_r.
    destruct (Z.testbit (bpd_flag d) 2); [done|]. destruct (Z.testbit (bpd_flag d) 3); [|done].
    cbn [bpd_flag set_bpd_flag]. by rewrite pre_admin_testbit, H9 by lia.
  - eauto.
Qed.

(** C20: a permission restricted by the administrator stays denied, whatever grants,
    revokes, resets, security-component clicks and flag updates follow, until a flag
    update clears the restriction itself. *)
Theorem restricted_stays_denied st st' t p c d :
  brief_wf st -> TransferPermissionToOpcode p = Some c ->
  entry st t c = Some d -> Z.testbit (bpd_flag d) 9 = true -> rtc unlifted_step st st' ->
  VerifyPermissionStatus t p st' = PERMISSION_DENIED.
Proof.
  intros Hw T En H9 Hs. assert (exists d', entry st' t c = Some d' /\ Z.testbit (bpd_flag d') 9 = true)
    as (d' & En' & H9').
  { revert d En H9. induction Hs as [|s1 s2 s3 H1 _ IH]; [eauto|]. intros d En H9.
    destruct (unlifted_restricted _ _ _ _ _ Hw H1 En H9) as (d2 & En2 & H92).
    apply (IH (brief_step_wf _ _ (unlifted_brief _ _ H1) Hw) d2 En2 H92). }
  unfold VerifyPermissionStatus. by rewrite T, Verify_entry, En', effective_bits, H9'.
Qed.


(** Deleting a token leaves no trace of it: every check of it is denied, it has
    no granted permission, no permission value and no security-component grant, and
    the checks and values of the other tokens are as before.  It succeeds exactly
    when the token was stored. *)
Theorem DeleteBriefPermDataByTokenId_spec t st ret st' :
  brief_wf st -> DeleteBriefPermDataByTokenId t st = (ret, st') ->
  (ret = RET_SUCCESS <-> is_Some (requestedPermData_ st !! t)) /\
  (forall c, VerifyPermissionStatus_code t c st' = PERMISSION_DENIED) /\
  GetGrantedPermCodeList t st' = [] /\ GetExtendedValueList t st' = [] /\
  Forall (fun s => sc_tokenId s <> t) (secCompList_ st') /\
  (forall t' c, t' <> t -> is_u32 t' -> 0 <= c < 2 ^ 16 ->
     VerifyPermissionStatus_code t' c st' = VerifyPermissionStatus_code t' c st /\
     extendedValue_ st' !! ext_key t' c = extendedValue_ st !! ext_key t' c).
Proof.
  intros Hw D.
  assert (brief_wf st') as Hw' by (replace st' with (DeleteBriefPermDataByTokenId t st).2
    by (by rewrite D); by apply DeleteBriefPermDataByTokenId_wf).
  assert (requestedPermData_ st' !! t = None) as Hn.
  { unfold DeleteBriefPermDataByTokenId in D.
    destruct (requestedPermData_ st !! t) eqn:E; injection D as _ <-; [cbn; by rewrite lookup_delete_eq|done]. }
  pose proof Hw' as (_ & [_ Hsc] & Hex). split_and!.
  - unfold DeleteBriefPermDataByTokenId in D.
    destruct (requestedPermData_ st !! t); injection D as <- _; [by split|]. split; [done|by intros []].
  - intros c. unfold VerifyPermissionStatus_code. by rewrite Hn.
  - unfold GetGrantedPermCodeList. by rewrite Hn.
  - unfold GetExtendedValueList. apply list_omap_nil. apply Forall_forall. intros [k v] Hk%elem_of_map_items.
    destruct (Hex k v Hk) as (t' & c & -> & Ht' & Hc & Hs). cbv zeta.
    rewrite ext_key_token by (done || by apply MAX_PERM_SIZE_u16).
    destruct (Z.eqb_spec t' t) as [->|]; [|done]. rewrite Hn in Hs. by destruct Hs.
  - eapply Forall_impl; [exact Hsc|]. intros s [Hs _] E. rewrite E, Hn in Hs. by destruct Hs.
  - intros t' c Hne Ht' Hc. unfold DeleteBriefPermDataByTokenId in D.
    destruct (requestedPermData_ st !! t) as [l|] eqn:E; injection D as _ <-; [|done]. split.
    + pose proof (delete_other_checks t st t' c Hne) as Hd. unfold DeleteBriefPermDataByTokenId in Hd.
      by rewrite E in Hd.
    + rewrite DeleteExtendedValue_lookup. rewrite ext_key_token by done. by rewrite decide_False.
Qed.

(** C33: for a stored application, the list of granted codes holds exactly the codes
    a check grants, together with those recorded as granted by a security component. *)
Theorem GetGrantedPermCodeList_spec t c st :
  brief_wf st -> is_Some (requestedPermData_ st !! t) -> GetTokenIdTypeEnum t = TOKEN_HAP ->
  c ∈ GetGrantedPermCodeList t st <->
  VerifyPermissionStatus_code t c st = PERMISSION_GRANTED \/ secComp_granted st t c = true.
Proof. apply granted_codes. Qed.

(** An application update keeps the user's decision: if the user had granted or
    refused a permission (USER_SET or USER_FIXED, no administrator policy involved)
    and the updated application still requests it with an acceptable state [s], a
    check answers as before the update, unless the new state is restricted by the
    administrator; a permission the update no longer requests has no entry left. *)
Theorem Update_keeps_user_decision t p c states acl st o :
  is_u32 t -> brief_wf st -> TransferPermissionToOpcode p = Some c -> c_str p = p -> plain_names states ->
  entry st t c = Some o -> Z.testbit (bpd_flag o) 0 = true \/ Z.testbit (bpd_flag o) 1 = true ->
  Z.testbit (bpd_flag o) 7 = false -> Z.testbit (bpd_flag o) 8 = false -> Z.testbit (bpd_flag o) 9 = false ->
  match find_if (fun s => String.eqb (ps_permissionName s) p && state_acceptable TOKEN_HAP true s) states with
  | Some s =>
      VerifyPermissionStatus t p (Update t states acl false st) =
        if Z.testbit (ps_grantFlag s) 9 then PERMISSION_DENIED else VerifyPermissionStatus t p st
  | None => entry (Update t states acl false st) t c = None
  end.
Proof.
  intros Ht Hw T Hp Hpl En Hu H7 H8 H9. destruct (entry_of_wf _ _ _ _ Hw En) as [Ho Hoc].
  pose proof (Update_entries t states acl false st t c Ht) as He.
  rewrite decide_True, (Update_requested p c) in He by done.
  destruct (find_if _ states) as [s|] eqn:F; [|by rewrite He].
  apply find_if_Some in F as [_ F]. apply andb_true_iff in F as [Fn Fa]. breflect.
  destruct (acceptable_hap_brief _ Fa) as [n Hn]. cbn in He. rewrite Hn in He. cbn in He.
  assert (bpd_permCode n = c) as Hnc.
  { apply brief_of_state_name in Hn. rewrite Fn, T in Hn. by injection Hn. }
  assert (Z.testbit (bpd_flag n) 9 = Z.testbit (ps_grantFlag s) 9) as Hn9.
  { clear -Hn. unfold brief_of_state in Hn. destruct (negb _); [done|].
    destruct (TransferPermissionToOpcode _); [|done]. injection Hn as <-. cbn. by rewrite u32_testbit. }
  assert (Update_entry (GetBriefPermDataByTokenIdInner t st).2 false n = UpdatePermStatus o n) as Eu.
  { unfold Update_entry, GetBriefPermDataByTokenIdInner. unfold entry in En.
    destruct (requestedPermData_ st !! t) as [l|]; [|done]. cbn in En |- *. by rewrite Hnc, En. }
  rewrite UpdatePermStatus_user in Eu by done.
  unfold VerifyPermissionStatus. rewrite T, !Verify_entry, He, En, Eu, !effective_bits.
  cbn [bpd_flag bpd_status]. unfold PERMISSION_RESTRICTED_BY_ADMIN. rewrite H9.
  autorewrite with bits. rewrite Hn9, H9. cbn [Z.eqb Pos.eqb negb andb orb Z.ltb Z.compare Pos.compare Pos.compare_cont].
  by rewrite !andb_true_r, andb_false_r, orb_false_r.
Qed.

(** The value given with a permission that carries one is the value a later
    query of that permission returns, and the values of other permissions and
    tokens are untouched. *)
Theorem AddBriefPermData_value t p c def s f v st ret st' :
  is_u32 t -> TransferPermissionToOpcode p = Some c -> permList_at c = Some def ->
  pbd_hasValue def = true -> pbd_isEnable def = true ->
  AddBriefPermData t p s f v st = (ret, st') -> ret = RET_SUCCESS ->
  GetReqPermissionByName t p true st' = inr v /\
  (forall t' c', is_u32 t' -> 0 <= c' < 2 ^ 16 -> ~ (t' = t /\ c' = c) ->
     extendedValue_ st' !! ext_key t' c' = extendedValue_ st !! ext_key t' c').
Proof.
  intros Ht T Hd Hv Hen A Hret. unfold AddBriefPermData, GetPermissionBriefData in A.
  cbn [ps_grantStatus ps_permissionName] in A. pose proof (opcode_u16 _ _ T) as Hc.
  destruct (negb (IsGrantStatusValid s)); [injection A as <- <-; done|].
  rewrite T in A. unfold GetPermissionBriefDef_code in A. rewrite Hd, Hv in A. cbv zeta in A.
  unfold GetBriefPermDataByTokenIdInner in A. cbn [requestedPermData_ set_extended] in A.
  destruct (requestedPermData_ st !! t) as [l|] eqn:E; cbn in A; [|injection A as <- <-; done].
  injection A as _ <-. split.
  - unfold GetReqPermissionByName. rewrite AddBriefPermDataByTokenId_eq. cbn.
    rewrite lookup_insert_eq, bool_decide_false by done.
    unfold IsDefinedPermissionInner, with_def. rewrite T, Hd, Hen. cbn.
    rewrite (u16_small c) by done. by rewrite lookup_insert_eq, lookup_singleton_eq.
  - intros t' c' Ht' Hc' Hne. rewrite AddBriefPermDataByTokenId_eq. cbn.
    rewrite (u16_small c) by done. apply lookup_insert_ne. intros Ek.
    apply ext_key_inj in Ek; [|done..]. naive_solver.
Qed.

End Props.

(** ** Instances on the sample table. *)
#[local] Existing Instance sample_table.
#[local] Existing Instance sample_table_laws.

Definition app1 : Z := 0x20000001.
Definition app2 : Z := 0x20000002.
Definition request (p : string) (status flag : Z) : PermissionStatus :=
  mkPermissionStatus app1 p "" status flag 0.
Definition sample_requests : list PermissionStatus :=
  [ request CAMERA PERMISSION_DENIED PERMISSION_DEFAULT_FLAG;
    request LOCATION PERMISSION_GRANTED PERMISSION_USER_SET;
    request APPROXIMATELY_LOCATION PERMISSION_GRANTED
      (PERMISSION_USER_SET .| PERMISSION_RESTRICTED_BY_ADMIN);
    request INTERNET PERMISSION_GRANTED PERMISSION_SYSTEM_FIXED;
    request KERNEL_VALUE PERMISSION_GRANTED PERMISSION_SYSTEM_FIXED ].
Definition sample_brief : Brief :=
  AddPermToBriefPermission app1 sample_requests {[KERNEL_VALUE := "42"]} true empty_brief.

Lemma sample_plain : plain_names sample_requests.
Proof. repeat constructor. Qed.

Lemma sample_reach : rtc brief_step empty_brief sample_brief.
Proof. apply rtc_once, step_AddPerm; [done|apply sample_plain|done]. Qed.

Lemma sample_wf : brief_wf sample_brief.
Proof.
  apply (brief_step_wf empty_brief); [|apply empty_brief_wf].
  apply step_AddPerm; [done|apply sample_plain|done].
Qed.

Lemma user_fixed_u32 : is_u32 PERMISSION_USER_FIXED.
Proof. unfold is_u32, PERMISSION_USER_FIXED. lia. Qed.
Lemma component_set_u32 : is_u32 PERMISSION_COMPONENT_SET.
Proof. unfold is_u32, PERMISSION_COMPONENT_SET. lia. Qed.
Lemma app1_u32 : is_u32 app1.
Proof. unfold is_u32, app1. lia. Qed.

Lemma brief_reachable_wf_witness : brief_wf sample_brief.
Proof. exact (brief_reachable_wf sample_brief sample_reach). Defined.

Lemma UpdatePermissionStatus_spec_witness :
  VerifyPermissionStatus app1 CAMERA sample_brief = PERMISSION_DENIED /\
  VerifyPermissionStatus app1 CAMERA
    (UpdatePermissionStatus app1 CAMERA true PERMISSION_USER_FIXED sample_brief).2 = PERMISSION_GRANTED.
Proof.
  split; [vm_compute; reflexivity|].
  pose proof (UpdatePermissionStatus_spec (PT := sample_table) app1 CAMERA 0 true PERMISSION_USER_FIXED sample_brief
    RET_SUCCESS (Some STATUS_AND_FLAG)
    (UpdatePermissionStatus app1 CAMERA true PERMISSION_USER_FIXED sample_brief).2
    ltac:(vm_compute; reflexivity) ltac:(vm_compute; reflexivity) ltac:(vm_compute; reflexivity)) as H.
  rewrite decide_True in H by reflexivity. destruct H as (d & En & _ & _ & Hv & _).
  vm_compute in En. injection En as <-. exact Hv.
Defined.

Lemma fixed_entry_preserved_witness :
  entry (UpdatePermissionStatus app1 INTERNET false PERMISSION_USER_FIXED sample_brief).2 app1 4 =
    entry sample_brief app1 4.
Proof.
  assert (exists d, entry sample_brief app1 4 = Some d /\ bpd_flag d = 4) as (d & En & Hf)
    by (eexists; split; vm_compute; reflexivity).
  rewrite En. destruct (fixed_entry_preserved sample_brief
    (UpdatePermissionStatus app1 INTERNET false PERMISSION_USER_FIXED sample_brief).2 app1 4 d sample_wf) as [H|[H4 _]].
  - exact (rtc_once _ _ (user_update sample_brief app1 INTERNET false PERMISSION_USER_FIXED
      user_fixed_u32 eq_refl eq_refl eq_refl)).
  - exact En.
  - left. rewrite Hf. reflexivity.
  - exact H.
  - rewrite Hf in H4. discriminate H4.
Defined.

Lemma restricted_stays_denied_witness :
  VerifyPermissionStatus app1 APPROXIMATELY_LOCATION
    (ResetUserGrantPermissionStatus app1
      (UpdatePermissionStatus app1 APPROXIMATELY_LOCATION true PERMISSION_USER_FIXED sample_brief).2).2 =
  PERMISSION_DENIED.
Proof.
  assert (exists d, entry sample_brief app1 2 = Some d /\ bpd_flag d = 513) as (d & En & Hf)
    by (eexists; split; vm_compute; reflexivity).
  apply (restricted_stays_denied sample_brief _ app1 APPROXIMATELY_LOCATION 2 d sample_wf).
  - vm_compute. reflexivity.
  - exact En.
  - rewrite Hf. reflexivity.
  - eapply rtc_l; [exact (unlifted_status sample_brief app1 APPROXIMATELY_LOCATION true PERMISSION_USER_FIXED user_fixed_u32)|].
    apply rtc_once. exact (unlifted_reset _ app1).
Defined.


Lemma DeleteBriefPermDataByTokenId_spec_witness :
  VerifyPermissionStatus_code app1 1 sample_brief = PERMISSION_GRANTED /\
  VerifyPermissionStatus_code app1 1 (DeleteBriefPermDataByTokenId app1 sample_brief).2 =
    PERMISSION_DENIED.
Proof.
  split; [vm_compute; reflexivity|].
  destruct (DeleteBriefPermDataByTokenId_spec (PT := sample_table) app1 sample_brief RET_SUCCESS
    (DeleteBriefPermDataByTokenId app1 sample_brief).2 sample_wf ltac:(vm_compute; reflexivity))
    as (_ & H & _). apply H.
Defined.

Lemma GetGrantedPermCodeList_spec_witness : 1 ∈ GetGrantedPermCodeList app1 sample_brief.
Proof.
  apply (GetGrantedPermCodeList_spec app1 1 sample_brief sample_wf);
    [eexists; vm_compute; reflexivity|vm_compute; reflexivity|left; vm_compute; reflexivity].
Defined.

Lemma Update_keeps_user_decision_witness :
  VerifyPermissionStatus app1 LOCATION
    (Update app1 [request LOCATION PERMISSION_DENIED PERMISSION_DEFAULT_FLAG] ∅ false sample_brief) =
  PERMISSION_GRANTED.
Proof.
  assert (exists d, entry sample_brief app1 1 = Some d /\ bpd_flag d = 1) as (d & En & Hf)
    by (eexists; split; vm_compute; reflexivity).
  pose proof (Update_keeps_user_decision app1 LOCATION 1
    [request LOCATION PERMISSION_DENIED PERMISSION_DEFAULT_FLAG] ∅ sample_brief d app1_u32 sample_wf
    eq_refl eq_refl ltac:(repeat constructor) En ltac:(left; rewrite Hf; reflexivity)
    ltac:(rewrite Hf; reflexivity) ltac:(rewrite Hf; reflexivity) ltac:(rewrite Hf; reflexivity)) as H.
  assert (find_if (fun s => String.eqb (ps_permissionName s) LOCATION && state_acceptable TOKEN_HAP true s)
    [request LOCATION PERMISSION_DENIED PERMISSION_DEFAULT_FLAG] =
    Some (request LOCATION PERMISSION_DENIED PERMISSION_DEFAULT_FLAG)) as F by (vm_compute; reflexivity).
  rewrite F in H. rewrite H. vm_compute. reflexivity.
Defined.

Lemma AddBriefPermData_value_witness :
  GetReqPermissionByName app1 KERNEL_VALUE true
    (AddBriefPermData app1 KERNEL_VALUE PERMISSION_GRANTED PERMISSION_SYSTEM_FIXED "64" sample_brief).2 =
  inr "64".
Proof.
  refine (proj1 (AddBriefPermData_value app1 KERNEL_VALUE 5 _ PERMISSION_GRANTED PERMISSION_SYSTEM_FIXED "64"
    sample_brief RET_SUCCESS _ _ _ _ _ _ _ eq_refl)); try (vm_compute; reflexivity). done.
Defined.

(** The list of granted codes can hold a code that a check denies: a permission
    granted by a security component and then refused by the user stays in the list,
    because the refusal does not remove the component's grant. *)
Theorem granted_list_after_user_refusal :
  let st1 := (UpdatePermissionStatus app1 CAMERA true PERMISSION_COMPONENT_SET sample_brief).2 in
  let st2 := (UpdatePermissionStatus app1 CAMERA false PERMISSION_USER_FIXED st1).2 in
  rtc brief_step empty_brief st2 /\
  VerifyPermissionStatus app1 CAMERA st2 = PERMISSION_DENIED /\
  In CAMERA (GetGrantedPermList app1 st2).
Proof.
  cbv zeta. split_and!.
  - etransitivity; [apply sample_reach|].
    eapply rtc_l; [exact (step_UpdateStatus _ app1 CAMERA true PERMISSION_COMPONENT_SET component_set_u32)|].
    apply rtc_once. exact (step_UpdateStatus _ app1 CAMERA false PERMISSION_USER_FIXED user_fixed_u32).
  - vm_compute. reflexivity.
  - vm_compute. tauto.
Qed.
