(* ===== verification/IdManager.v ===== *)
(** * Token and bundle identifiers

    services/accesstokenmanager/main/cpp/src/permission/accesstoken_id_manager.cpp:
    the registry of token ids (active, reserved, untrusted) and the allocator of
    application uids.  The random source, the kernel's uid reference counts, the
    system parameter and the JSON text of the reserved list (cJSON) are
    parameters; the database is used through [AtmDb]. *)

From stdpp Require Import base gmap list strings list_numbers.
From S2P Require Import Prelude AccessTokenTypes TokenId Database.
#[local] Open Scope string_scope.
#[local] Open Scope list_scope.
#[local] Open Scope Z_scope.
#[local] Open Scope cxx_scope.

Definition BUNDLE_ID_MIN : Z := 10000.
Definition BUNDLE_ID_MAX : Z := 65535.
Definition UID_TRANSFORM_DIVISOR : Z := 200000.
Definition RESERVED_BUNDLE_ID_LIST_KEY : string := "reserved_bundle_id_list".
Definition TOKEN_RANDOM_MASK : Z := (1 .<< 20) - 1.
Definition MAX_CREATE_TOKEN_ID_RETRY : nat := 1000.

Inductive TokenIdStatus := ACTIVE | RESERVED | UNTRUSTED.
#[export] Instance TokenIdStatus_eq_dec : EqDecision TokenIdStatus.
Proof. solve_decision. Defined.

(** The members of [AccessTokenIDManager] and the static [g_bundleIdMin]. *)
Record IdMgr := mkIdMgr {
  tokenIdSet_ : gset Z;
  reservedTokenIdSet_ : gset Z;
  untrustedTokenIdSet_ : gset Z;
  bundleIdSet_ : gset Z;
  reservedBundleIdSet_ : gset Z;
  scanStartBundleId_ : Z;
  migrationDone_ : bool;
  g_bundleIdMin : Z;
}.

Definition set_tokens (a r u : gset Z) (m : IdMgr) : IdMgr :=
  mkIdMgr a r u (bundleIdSet_ m) (reservedBundleIdSet_ m) (scanStartBundleId_ m) (migrationDone_ m)
    (g_bundleIdMin m).
Definition set_bundles (b r : gset Z) (s : Z) (m : IdMgr) : IdMgr :=
  mkIdMgr (tokenIdSet_ m) (reservedTokenIdSet_ m) (untrustedTokenIdSet_ m) b r s (migrationDone_ m)
    (g_bundleIdMin m).
Definition set_g_bundleIdMin (v : Z) (m : IdMgr) : IdMgr :=
  mkIdMgr (tokenIdSet_ m) (reservedTokenIdSet_ m) (untrustedTokenIdSet_ m) (bundleIdSet_ m)
    (reservedBundleIdSet_ m) (scanStartBundleId_ m) (migrationDone_ m) v.

Definition initial_IdMgr : IdMgr := mkIdMgr ∅ ∅ ∅ ∅ ∅ (-1) false (-1).

(** ** What the manager gets from outside.

    [baseappid] is the system parameter const.product.baseappid as [std::atoll]
    reads it ([None] when it is not set); [uid_refcnt] the kernel's reference count
    of a uid, or the error of the query; [json_*] the JSON loader, [None] when its
    library cannot be loaded. *)
Class IdEnv := {
  baseappid : option Z;
  uid_refcnt : Z -> Z + Z;
  json_GetReservedBundleIdList : option (string -> Z * gset Z);
  json_BuildReservedBundleIdList : option (gset Z -> string);
}.

Section IdManager.
Context {BC : BuildConfig} {EN : IdEnv}.

(** ** Token ids. *)
Definition GetTokenIdStatusLocked (id : Z) (m : IdMgr) : option TokenIdStatus :=
  if bool_decide (id ∈ tokenIdSet_ m) then Some ACTIVE
  else if bool_decide (id ∈ reservedTokenIdSet_ m) then Some RESERVED
  else if bool_decide (id ∈ untrustedTokenIdSet_ m) then Some UNTRUSTED
  else None.

Definition GetTokenIdStatus (id : Z) (m : IdMgr) : Z * option TokenIdStatus :=
  match GetTokenIdStatusLocked id m with
  | Some s => (RET_SUCCESS, Some s)
  | None => (ERR_TOKENID_NOT_EXIST, None)
  end.

Definition GetTokenIdType (id : Z) (m : IdMgr) : Z :=
  if bool_decide (id ∈ tokenIdSet_ m) then GetTokenIdTypeEnum id else TOKEN_INVALID.

Definition RegisterTokenId (id ty : Z) (m : IdMgr) : Z * IdMgr :=
  let idInner := inner_of_id id in
  if negb (version idInner =? DEFAULT_TOKEN_VERSION) || negb (type idInner =? ty) ||
     negb (type_ext idInner =? 0) then (ERR_PARAM_INVALID, m)
  else match GetTokenIdStatusLocked id m with
       | Some _ => (ERR_TOKENID_HAS_EXISTED, m)
       | None =>
           (RET_SUCCESS,
            set_tokens ({[id]} ∪ tokenIdSet_ m) (reservedTokenIdSet_ m) (untrustedTokenIdSet_ m) m)
       end.

(** [rand] is what [GetRandomUint32FromUrandom] returns (0 when it fails). *)
Definition CreateTokenId (rand ty dlpFlag cloneFlag toolFlag : Z) : Z :=
  if rand =? 0 then 0
  else id_of_inner (mkAccessTokenIDInner (rand .& TOKEN_RANDOM_MASK) (u32 toolFlag) 0 0 (u32 cloneFlag) 0
                      (u32 dlpFlag) ty DEFAULT_TOKEN_VERSION).

(** The retry loop; [rands i] is the random number of the [i]-th attempt. *)
Fixpoint CreateAndRegisterTokenId_loop (n : nat) (rands : nat -> Z) (ty dlpFlag cloneFlag toolFlag : Z)
    (m : IdMgr) : Z * IdMgr :=
  match n with
  | O => (INVALID_TOKENID, m)
  | S n' =>
      let tokenId := CreateTokenId (rands O) ty dlpFlag cloneFlag toolFlag in
      if tokenId =? INVALID_TOKENID then (INVALID_TOKENID, m)
      else
        let '(ret, m') := RegisterTokenId tokenId ty m in
        if ret =? RET_SUCCESS then (tokenId, m')
        else CreateAndRegisterTokenId_loop n' (fun i => rands (S i)) ty dlpFlag cloneFlag toolFlag m'
  end.
Definition CreateAndRegisterTokenId (rands : nat -> Z) (ty dlpFlag cloneFlag toolFlag : Z) (m : IdMgr)
    : Z * IdMgr :=
  CreateAndRegisterTokenId_loop MAX_CREATE_TOKEN_ID_RETRY rands ty dlpFlag cloneFlag toolFlag m.

Definition ReleaseTokenId (id : Z) (m : IdMgr) : IdMgr :=
  if bool_decide (id ∈ tokenIdSet_ m)
  then set_tokens (tokenIdSet_ m ∖ {[id]}) (reservedTokenIdSet_ m) (untrustedTokenIdSet_ m) m
  else m.

Definition IsReservedTokenId (id : Z) (m : IdMgr) : bool := bool_decide (id ∈ reservedTokenIdSet_ m).

Definition AddReservedTokenId (id : Z) (m : IdMgr) : IdMgr :=
  match GetTokenIdStatusLocked id m with
  | Some _ => m
  | None => set_tokens (tokenIdSet_ m) ({[id]} ∪ reservedTokenIdSet_ m) (untrustedTokenIdSet_ m) m
  end.

Definition RemoveReservedTokenId (id : Z) (m : IdMgr) : IdMgr :=
  set_tokens (tokenIdSet_ m) (reservedTokenIdSet_ m ∖ {[id]}) (untrustedTokenIdSet_ m) m.

Definition ChangeTokenIdStatus (id : Z) (targetStatus : TokenIdStatus) (m : IdMgr) : Z * IdMgr :=
  match GetTokenIdStatusLocked id m with
  | None => (ERR_TOKENID_NOT_EXIST, m)
  | Some currentStatus =>
      if decide (currentStatus = targetStatus) then (RET_SUCCESS, m)
      else
        let m1 :=
          match currentStatus with
          | ACTIVE => set_tokens (tokenIdSet_ m ∖ {[id]}) (reservedTokenIdSet_ m) (untrustedTokenIdSet_ m) m
          | RESERVED => set_tokens (tokenIdSet_ m) (reservedTokenIdSet_ m ∖ {[id]}) (untrustedTokenIdSet_ m) m
          | UNTRUSTED => set_tokens (tokenIdSet_ m) (reservedTokenIdSet_ m) (untrustedTokenIdSet_ m ∖ {[id]}) m
          end in
        (RET_SUCCESS,
         match targetStatus with
         | ACTIVE => set_tokens ({[id]} ∪ tokenIdSet_ m1) (reservedTokenIdSet_ m1) (untrustedTokenIdSet_ m1) m1
         | RESERVED => set_tokens (tokenIdSet_ m1) ({[id]} ∪ reservedTokenIdSet_ m1) (untrustedTokenIdSet_ m1) m1
         | UNTRUSTED => set_tokens (tokenIdSet_ m1) (reservedTokenIdSet_ m1) ({[id]} ∪ untrustedTokenIdSet_ m1) m1
         end)
  end.

(** ** Bundle ids and uids. *)
Definition GetBundleIdMin (m : IdMgr) : Z * IdMgr :=
  if negb (g_bundleIdMin m =? -1) then (g_bundleIdMin m, m)
  else
    let v :=
      match baseappid with
      | None => BUNDLE_ID_MIN
      | Some x =>
          let bundleIdMin := i32 x in
          if (bundleIdMin <? BUNDLE_ID_MIN) || (BUNDLE_ID_MAX <=? bundleIdMin) then BUNDLE_ID_MIN
          else bundleIdMin
      end in
    (v, set_g_bundleIdMin v m).

(** [uid % d] of a non-negative [int32_t]. *)
Definition ExtractBundleId (uid : Z) : option Z :=
  if uid <? 0 then None
  else
    let extracted := Z.rem uid UID_TRANSFORM_DIVISOR in
    if (extracted <? BUNDLE_ID_MIN) || (BUNDLE_ID_MAX <? extracted) then None else Some extracted.

Definition IsUidReusable (uid : Z) (m : IdMgr) : Z * bool :=
  match ExtractBundleId uid with
  | None => (ERR_PARAM_INVALID, false)
  | Some bundleId =>
      if bool_decide (bundleId ∈ bundleIdSet_ m) && negb (bool_decide (bundleId ∈ reservedBundleIdSet_ m))
      then (RET_SUCCESS, false)
      else match uid_refcnt (u32 uid) with
           | inl _ => (ERR_KERNEL_COMMON_FAILED, false)
           | inr refcnt => if negb (refcnt =? 0) then (RET_SUCCESS, false) else (RET_SUCCESS, true)
           end
  end.

Definition InitSingleBundleIdCache (uid : Z) (m : IdMgr) : Z * IdMgr :=
  match ExtractBundleId uid with
  | None => (ERR_PARAM_INVALID, m)
  | Some bundleId =>
      (RET_SUCCESS, set_bundles ({[bundleId]} ∪ bundleIdSet_ m) (reservedBundleIdSet_ m) (scanStartBundleId_ m) m)
  end.

(** [*set.rbegin()]: the largest element of a non-empty set. *)
Definition set_max (X : gset Z) : option Z :=
  match elements X with
  | [] => None
  | x :: l => Some (fold_left Z.max l x)
  end.

Definition InitScanStartBundleIdFromCache (m : IdMgr) : Z * IdMgr :=
  match set_max (bundleIdSet_ m) with
  | None => GetBundleIdMin m
  | Some mx =>
      let nextBundleId := i32 (mx + 1) in
      let '(mn, m1) := GetBundleIdMin m in
      if (nextBundleId <? mn) || (BUNDLE_ID_MAX <? nextBundleId) then GetBundleIdMin m1
      else (nextBundleId, m1)
  end.

Definition ReservedBundleIdSetFromJson (value : string) : Z * gset Z :=
  if String.eqb value "" then (RET_SUCCESS, ∅)
  else match json_GetReservedBundleIdList with
       | None => (ERR_LOAD_SO_FAILED, ∅)
       | Some f => f value
       end.

Definition ReservedBundleIdSetToJson (bundleList : gset Z) : Z * string :=
  if bool_decide (bundleList = ∅) then (RET_SUCCESS, "")
  else match json_BuildReservedBundleIdList with
       | None => (ERR_LOAD_SO_FAILED, "")
       | Some f =>
           let value := f bundleList in
           if String.eqb value "" then (ERR_PARSE_RAW_DATA_FAILED, value) else (RET_SUCCESS, value)
       end.

Definition reserved_key_value : GenericValues :=
  Put FIELD_NAME (TYPE_STRING RESERVED_BUNDLE_ID_LIST_KEY) ∅.
Definition reserved_row_value (value : string) : GenericValues :=
  Put FIELD_VALUE (TYPE_STRING value) (Put FIELD_NAME (TYPE_STRING RESERVED_BUNDLE_ID_LIST_KEY) ∅).

Section WithDb.
Context {S : Type} `{!AtmDb S}.

Definition LoadReservedBundleIdSetFromDb (db : S) : Z * gset Z * S :=
  let '(ret, results, db') := db_Find db ACCESSTOKEN_SYSTEM_CONFIG reserved_key_value in
  if negb (ret =? RET_SUCCESS) then (ret, ∅, db')
  else match results with
       | [] => (RET_SUCCESS, ∅, db')
       | r :: _ => let '(e, l) := ReservedBundleIdSetFromJson (GetString FIELD_VALUE r) in (e, l, db')
       end.

Definition InitReservedBundleIdSet (m : IdMgr) (db : S) : Z * IdMgr * S :=
  let '(ret, reservedSet, db') := LoadReservedBundleIdSetFromDb db in
  if negb (ret =? RET_SUCCESS) then (ret, m, db')
  else (RET_SUCCESS, set_bundles (bundleIdSet_ m ∪ reservedSet) reservedSet (scanStartBundleId_ m) m, db').

Definition InitBundleIdConfig (m : IdMgr) (db : S) : Z * IdMgr * S :=
  let '(ret, m1, db') := InitReservedBundleIdSet m db in
  if negb (ret =? RET_SUCCESS) then (ret, m1, db')
  else
    let '(start, m2) := InitScanStartBundleIdFromCache m1 in
    (RET_SUCCESS, set_bundles (bundleIdSet_ m2) (reservedBundleIdSet_ m2) start m2, db').

Definition PersistReservedBundleIdSetLocked (bundleList : gset Z) (db : S) : Z * S :=
  let '(ret, value) := ReservedBundleIdSetToJson bundleList in
  if negb (ret =? RET_SUCCESS) then (ret, db)
  else db_DeleteAndInsertValues db [mkDelInfo ACCESSTOKEN_SYSTEM_CONFIG reserved_key_value]
         [mkAddInfo ACCESSTOKEN_SYSTEM_CONFIG [reserved_row_value value]].

Definition RefreshReservedBundleIdSet (bundleList : gset Z) (m : IdMgr) (db : S) : Z * IdMgr * S :=
  let '(ret, db') := PersistReservedBundleIdSetLocked bundleList db in
  if negb (ret =? RET_SUCCESS) then (ret, m, db')
  else (RET_SUCCESS,
        set_bundles (bundleIdSet_ m ∖ reservedBundleIdSet_ m ∪ bundleList) bundleList (scanStartBundleId_ m) m,
        db').

End WithDb.

Definition GetReservedBundleIdSetPersistInfo (bundleId : Z) (m : IdMgr)
    (delInfoVec : list DelInfo) (addInfoVec : list AddInfo) : Z * list DelInfo * list AddInfo :=
  if negb (bool_decide (bundleId ∈ reservedBundleIdSet_ m)) then (RET_SUCCESS, delInfoVec, addInfoVec)
  else
    let updatedSet := reservedBundleIdSet_ m ∖ {[bundleId]} in
    let delInfoVec' := delInfoVec ++ [mkDelInfo ACCESSTOKEN_SYSTEM_CONFIG reserved_key_value] in
    if bool_decide (updatedSet = ∅) then (RET_SUCCESS, delInfoVec', addInfoVec)
    else
      let '(ret, value) := ReservedBundleIdSetToJson updatedSet in
      if negb (ret =? RET_SUCCESS) then (ret, delInfoVec', addInfoVec)
      else (RET_SUCCESS, delInfoVec',
            addInfoVec ++ [mkAddInfo ACCESSTOKEN_SYSTEM_CONFIG [reserved_row_value value]]).

Definition GetScanStartLocked (m : IdMgr) : Z * IdMgr :=
  let '(mn, m1) := GetBundleIdMin m in
  let m2 := if scanStartBundleId_ m1 <? mn
            then set_bundles (bundleIdSet_ m1) (reservedBundleIdSet_ m1) mn m1 else m1 in
  if BUNDLE_ID_MAX <? scanStartBundleId_ m2 then GetBundleIdMin m2 else (scanStartBundleId_ m2, m2).

Definition IsMigrationDone (m : IdMgr) : bool := negb SPM_DATA_ENABLE || migrationDone_ m.
Definition SetMigrationDone (m : IdMgr) : IdMgr :=
  mkIdMgr (tokenIdSet_ m) (reservedTokenIdSet_ m) (untrustedTokenIdSet_ m) (bundleIdSet_ m)
    (reservedBundleIdSet_ m) (scanStartBundleId_ m) true (g_bundleIdMin m).

(** [localId * UID_TRANSFORM_DIVISOR + bundleId % UID_TRANSFORM_DIVISOR] in [int32_t]. *)
Definition uid_of (localId bundleId : Z) : Z :=
  i32 (i32 (localId * UID_TRANSFORM_DIVISOR) + Z.rem bundleId UID_TRANSFORM_DIVISOR).

(** The scan over candidates; [None] when none of them is free. *)
Fixpoint AllocUid_scan (candidates : list Z) (localId : Z) (m : IdMgr) : option (Z + Z * IdMgr) :=
  match candidates with
  | [] => None
  | candidate :: rest =>
      if bool_decide (candidate ∈ bundleIdSet_ m) then AllocUid_scan rest localId m
      else
        let uid := uid_of localId candidate in
        match uid_refcnt (u32 uid) with
        | inl _ => Some (inl ERR_KERNEL_COMMON_FAILED)
        | inr refcnt =>
            if negb (refcnt =? 0) then AllocUid_scan rest localId m
            else Some (inr (uid, set_bundles ({[candidate]} ∪ bundleIdSet_ m) (reservedBundleIdSet_ m)
                                   (candidate + 1) m))
        end
  end.

(** [for (candidate = lo; candidate <= hi; ++candidate)]. *)
Fixpoint count_up (n : nat) (z : Z) : list Z :=
  match n with O => [] | S n' => z :: count_up n' (z + 1) end.
Definition range (lo hi : Z) : list Z := count_up (Z.to_nat (hi - lo + 1)) lo.

(** The error, or the uid and the new state. *)
Definition AllocUid (localId : Z) (m : IdMgr) : (Z * IdMgr) + (Z * IdMgr) :=
  if negb (IsMigrationDone m) then inl (ERR_PARAM_INVALID, m)
  else
    let '(startId, m1) := GetScanStartLocked m in
    let '(mn, m2) := GetBundleIdMin m1 in
    match AllocUid_scan (range startId BUNDLE_ID_MAX ++ range mn (startId - 1)) localId m2 with
    | None => inl (ERR_OVERSIZE, m2)
    | Some (inl e) => inl (e, m2)
    | Some (inr r) => inr r
    end.

Definition RemoveBundleId (uid : Z) (rollbackScanStart : bool) (m : IdMgr) : Z * IdMgr :=
  match ExtractBundleId uid with
  | None => (ERR_PARAM_INVALID, m)
  | Some bundleId =>
      let start :=
        if rollbackScanStart && (bundleId <? scanStartBundleId_ m) && (scanStartBundleId_ m - bundleId =? 1)
        then bundleId else scanStartBundleId_ m in
      (RET_SUCCESS, set_bundles (bundleIdSet_ m ∖ {[bundleId]}) (reservedBundleIdSet_ m) start m)
  end.

Definition TranslateUid (srcUid dstLocalId : Z) : Z + Z :=
  match ExtractBundleId srcUid with
  | None => inl ERR_PARAM_INVALID
  | Some bundleId => inr (uid_of dstLocalId bundleId)
  end.

Definition ImportInitialUids (uids : list Z) (m : IdMgr) : Z * IdMgr :=
  (RET_SUCCESS,
   fold_left (fun m uid =>
                match ExtractBundleId uid with
                | Some bundleId =>
                    set_bundles ({[bundleId]} ∪ bundleIdSet_ m) (reservedBundleIdSet_ m) (scanStartBundleId_ m) m
                | None => m
                end) uids m).

Definition RemoveReservedBundleId (uid : Z) (m : IdMgr) : Z * IdMgr :=
  match ExtractBundleId uid with
  | None => (ERR_PARAM_INVALID, m)
  | Some bundleId =>
      (RET_SUCCESS, set_bundles (bundleIdSet_ m ∖ {[bundleId]}) (reservedBundleIdSet_ m ∖ {[bundleId]})
                      (scanStartBundleId_ m) m)
  end.

Definition IsReservedBundleId (uid : Z) (m : IdMgr) : bool :=
  match ExtractBundleId uid with
  | None => false
  | Some bundleId => bool_decide (bundleId ∈ reservedBundleIdSet_ m)
  end.

End IdManager.
