(* ===== verification/IdManagerProps.v ===== *)
(** * What the identifier manager guarantees

    Exclusivity of the three token sets, freshness and attributes of created
    token ids, and the allocator of uids: soundness, completeness, rollback and
    the persistence of the reserved list. *)

From stdpp Require Import base gmap list strings list_numbers.
From S2P Require Import Prelude AccessTokenTypes TokenId Database IdManager.
#[local] Open Scope string_scope.
#[local] Open Scope list_scope.
#[local] Open Scope Z_scope.
#[local] Open Scope cxx_scope.

(** ** Token ids. *)
Definition sets_disjoint (m : IdMgr) : Prop :=
  tokenIdSet_ m ## reservedTokenIdSet_ m /\ tokenIdSet_ m ## untrustedTokenIdSet_ m /\
  reservedTokenIdSet_ m ## untrustedTokenIdSet_ m.

(** The operations on token ids. *)
Inductive token_step : IdMgr -> IdMgr -> Prop :=
  | step_Register m id ty : token_step m (RegisterTokenId id ty m).2
  | step_Create m rands ty d c t : token_step m (CreateAndRegisterTokenId rands ty d c t m).2
  | step_Release m id : token_step m (ReleaseTokenId id m)
  | step_AddReserved m id : token_step m (AddReservedTokenId id m)
  | step_RemoveReserved m id : token_step m (RemoveReservedTokenId id m)
  | step_ChangeStatus m id s : token_step m (ChangeTokenIdStatus id s m).2.

Lemma status_None id m :
  GetTokenIdStatusLocked id m = None <->
  id ∉ tokenIdSet_ m /\ id ∉ reservedTokenIdSet_ m /\ id ∉ untrustedTokenIdSet_ m.
Proof. unfold GetTokenIdStatusLocked. repeat case_bool_decide; naive_solver. Qed.

Lemma RegisterTokenId_disjoint id ty m : sets_disjoint m -> sets_disjoint (RegisterTokenId id ty m).2.
Proof.
  intros (H1 & H2 & H3). unfold RegisterTokenId. cbv zeta. split_if; [done|].
  destruct (GetTokenIdStatusLocked id m) eqn:St; [done|]. apply status_None in St as (?&?&?).
  unfold sets_disjoint. cbn. set_solver.
Qed.

Lemma Create_loop_disjoint n : forall rands ty d c t m,
  sets_disjoint m -> sets_disjoint (CreateAndRegisterTokenId_loop n rands ty d c t m).2.
Proof.
  induction n as [|n IH]; intros rands ty d c t m Hm; [done|]. cbn. split_if; [done|].
  pose proof (RegisterTokenId_disjoint (CreateTokenId (rands 0%nat) ty d c t) ty m Hm) as Hr.
  destruct (RegisterTokenId _ _ _) as [r m']. split_if; [done|]. by apply IH.
Qed.

Lemma token_step_disjoint m m' : token_step m m' -> sets_disjoint m -> sets_disjoint m'.
Proof.
  intros Hs Hm. pose proof Hm as (H1 & H2 & H3). destruct Hs as [|m rands| | | |m id s].
  - by apply RegisterTokenId_disjoint.
  - by apply Create_loop_disjoint.
  - unfold ReleaseTokenId. case_bool_decide; [|done]. unfold sets_disjoint. cbn. set_solver.
  - unfold AddReservedTokenId. destruct (GetTokenIdStatusLocked id m) eqn:St; [done|].
    apply status_None in St as (?&?&?). unfold sets_disjoint. cbn. set_solver.
  - unfold RemoveReservedTokenId, sets_disjoint. cbn. set_solver.
  - unfold ChangeTokenIdStatus. destruct (GetTokenIdStatusLocked id m) as [cur|] eqn:St; [|done].
    destruct (decide _); [done|]. unfold GetTokenIdStatusLocked in St.
    unfold sets_disjoint. destruct cur, s; cbn; repeat case_bool_decide; try done; set_solver.
Qed.

(** Whatever operations are run on token ids, an id belongs to at most one of the
    active, reserved and untrusted sets. *)
Theorem token_sets_disjoint m : rtc token_step initial_IdMgr m -> sets_disjoint m.
Proof.
  intros H. assert (sets_disjoint initial_IdMgr) as Hm by (unfold sets_disjoint; cbn; set_solver).
  induction H as [|m1 m2 m3 Hs _ IH]; [done|]. by apply IH, (token_step_disjoint m1).
Qed.

(** Changing the status of a known id succeeds and gives it exactly the target
    status; the status of every other id is unchanged; an unknown id is an error
    that changes nothing. *)
Theorem ChangeTokenIdStatus_spec id s m ret m' :
  sets_disjoint m -> ChangeTokenIdStatus id s m = (ret, m') ->
  (ret = RET_SUCCESS <-> is_Some (GetTokenIdStatusLocked id m)) /\
  (ret <> RET_SUCCESS -> m' = m) /\
  (ret = RET_SUCCESS -> GetTokenIdStatusLocked id m' = Some s /\ sets_disjoint m') /\
  (forall id', id' <> id -> GetTokenIdStatusLocked id' m' = GetTokenIdStatusLocked id' m).
Proof.
  intros Hd C. assert (sets_disjoint m') as Hd'.
  { replace m' with (ChangeTokenIdStatus id s m).2 by (by rewrite C).
    by apply (token_step_disjoint m); [constructor|]. }
  unfold ChangeTokenIdStatus in C. destruct (GetTokenIdStatusLocked id m) as [cur|] eqn:St.
  2:{ injection C as <- <-. split_and!; done. }
  destruct (decide (cur = s)) as [->|Hne]; injection C as <- <-.
  { split_and!; try done. }
  split_and!; try done; intros; (split; [|done]) || idtac; revert St; destruct Hd as (D1 & D2 & D3);
    unfold GetTokenIdStatusLocked; destruct cur, s; cbn; repeat case_bool_decide; try done; set_solver.
Qed.

(** The fields of an id rebuilt from fields of any width. *)
Definition normal_inner (x : AccessTokenIDInner) : AccessTokenIDInner :=
  mkAccessTokenIDInner (tokenUniqueID x mod 2 ^ 20) (toolFlag x mod 2) (res x mod 2 ^ 2) (type_ext x mod 2)
    (cloneFlag x mod 2) (renderFlag x mod 2) (dlpFlag x mod 2) (type x mod 2 ^ 2) (version x mod 2 ^ 3).

Lemma inner_of_id_normal x : inner_of_id (id_of_inner x) = normal_inner x.
Proof.
  assert (inner_wf (normal_inner x)) as Hw by (repeat split; apply Z.mod_pos_bound; lia).
  rewrite <- (inner_of_id_of_inner (normal_inner x) Hw). f_equal.
  unfold id_of_inner, normal_inner. cbn [tokenUniqueID toolFlag res type_ext cloneFlag renderFlag dlpFlag
    type version]. by rewrite !Z.mod_mod by lia.
Qed.

(** What a created id says of itself. *)
Definition created_inner (rand ty d c t : Z) : AccessTokenIDInner :=
  mkAccessTokenIDInner (rand .& TOKEN_RANDOM_MASK) (t mod 2) 0 0 (c mod 2) 0 (d mod 2) ty
    DEFAULT_TOKEN_VERSION.

Lemma u32_mod2 x : u32 x mod 2 = x mod 2.
Proof. unfold u32. rewrite <- (Znumtheory.Zmod_div_mod 2 (2 ^ 32)); [done|lia|lia|]. by exists (2 ^ 31). Qed.

Lemma CreateTokenId_inner rand ty d c t :
  rand <> 0 -> 0 <= ty < 4 -> inner_of_id (CreateTokenId rand ty d c t) = created_inner rand ty d c t.
Proof.
  intros Hr Hty. unfold CreateTokenId. apply Z.eqb_neq in Hr as ->. rewrite inner_of_id_normal.
  unfold normal_inner, created_inner. cbn [tokenUniqueID toolFlag res type_ext cloneFlag renderFlag dlpFlag
    type version]. rewrite !u32_mod2. f_equal; [|apply Z.mod_small; lia].
  change TOKEN_RANDOM_MASK with (Z.ones 20). rewrite Z.land_ones, Z.mod_mod by lia. done.
Qed.

Lemma CreateTokenId_nonzero rand ty d c t : rand <> 0 -> 0 <= ty < 4 -> CreateTokenId rand ty d c t <> 0.
Proof.
  intros Hr Hty E. pose proof (CreateTokenId_inner rand ty d c t Hr Hty) as H. rewrite E in H.
  apply (f_equal version) in H. done.
Qed.

Lemma RegisterTokenId_created rand ty d c t m :
  rand <> 0 -> 0 <= ty < 4 ->
  RegisterTokenId (CreateTokenId rand ty d c t) ty m =
    match GetTokenIdStatusLocked (CreateTokenId rand ty d c t) m with
    | Some _ => (ERR_TOKENID_HAS_EXISTED, m)
    | None => (RET_SUCCESS, set_tokens ({[CreateTokenId rand ty d c t]} ∪ tokenIdSet_ m)
                 (reservedTokenIdSet_ m) (untrustedTokenIdSet_ m) m)
    end.
Proof.
  intros Hr Hty. unfold RegisterTokenId. rewrite CreateTokenId_inner by done. cbn. by rewrite Z.eqb_refl.
Qed.

(** Outcome of the retry loop with [n] attempts left. *)
Lemma Create_loop_spec n : forall rands ty d c t m id m',
  0 <= ty < 4 -> CreateAndRegisterTokenId_loop n rands ty d c t m = (id, m') ->
  if decide (id = INVALID_TOKENID) then
    m' = m /\ forall i, (i < n)%nat -> (forall j, (j <= i)%nat -> rands j <> 0) ->
      is_Some (GetTokenIdStatusLocked (CreateTokenId (rands i) ty d c t) m)
  else
    GetTokenIdStatusLocked id m = None /\
    m' = set_tokens ({[id]} ∪ tokenIdSet_ m) (reservedTokenIdSet_ m) (untrustedTokenIdSet_ m) m /\
    exists i, (i < n)%nat /\ rands i <> 0 /\ id = CreateTokenId (rands i) ty d c t.
Proof.
  induction n as [|n IH]; intros rands ty d c t m id m' Hty; cbn.
  { intros [= <- <-]. split; [done|]. lia. }
  destruct (decide (rands 0%nat = 0)) as [Hz|Hz].
  { unfold CreateTokenId at 1. rewrite Hz. cbn. intros [= <- <-]. rewrite decide_True by done.
    split; [done|]. intros i _ Hj. by destruct (Hj 0%nat ltac:(lia)). }
  pose proof (CreateTokenId_nonzero _ ty d c t Hz Hty) as Hnz. apply Z.eqb_neq in Hnz as Hnz'.
  unfold INVALID_TOKENID in *. rewrite Hnz', RegisterTokenId_created by done.
  destruct (GetTokenIdStatusLocked _ m) as [s|] eqn:St; cbn.
  - intros H. apply IH in H; [|done]. destruct (decide (id = 0)).
    + destruct H as [-> H]. split; [done|]. intros [|i] Hi Hj; [by rewrite St|].
      apply (H i); [lia|]. intros j Hj'. apply Hj. lia.
    + destruct H as (H1 & H2 & i & Hi & Hr & E). split_and!; try done. exists (S i). split_and!; [lia|done..].
  - intros [= <- <-]. rewrite decide_False by done. split_and!; try done. exists 0%nat. split_and!; [lia|done..].
Qed.

(** Creating a token id.  Either the id returned is new (in none of the three
    sets), it becomes active, no other id changes status, and reading its bits back
    gives the version, the type and the tool, clone and DLP flags it was made with;
    or the invalid id is returned, nothing has changed, and every attempt made before
    the random source failed produced an id already taken. *)
Theorem CreateAndRegisterTokenId_spec rands ty d c t m id m' :
  0 <= ty < 4 -> CreateAndRegisterTokenId rands ty d c t m = (id, m') ->
  if decide (id = INVALID_TOKENID) then
    m' = m /\ forall i, (i < MAX_CREATE_TOKEN_ID_RETRY)%nat -> (forall j, (j <= i)%nat -> rands j <> 0) ->
      is_Some (GetTokenIdStatusLocked (CreateTokenId (rands i) ty d c t) m)
  else
    GetTokenIdStatusLocked id m = None /\ GetTokenIdStatusLocked id m' = Some ACTIVE /\
    (forall id', id' <> id -> GetTokenIdStatusLocked id' m' = GetTokenIdStatusLocked id' m) /\
    is_u32 id /\ exists rand, inner_of_id id = created_inner rand ty d c t.
Proof.
  intros Hty H. apply Create_loop_spec in H; [|done]. destruct (decide _); [done|].
  destruct H as (H1 & -> & i & _ & Hr & ->). split_and!; [done| | | |].
  - unfold GetTokenIdStatusLocked. cbn. by rewrite bool_decide_true by set_solver.
  - intros id' Hne. unfold GetTokenIdStatusLocked. cbn.
    by rewrite (bool_decide_ext _ (id' ∈ tokenIdSet_ m)) by set_solver.
  - unfold CreateTokenId. apply Z.eqb_neq in Hr as ->. apply id_of_inner_u32.
  - exists (rands i). by apply CreateTokenId_inner.
Qed.

(** ** Uids. *)
Section Uids.
Context {BC : BuildConfig} {EN : IdEnv}.

(** The cached lower bound is not set yet or is a valid one. *)
Definition min_wf (m : IdMgr) : Prop :=
  g_bundleIdMin m = -1 \/ BUNDLE_ID_MIN <= g_bundleIdMin m < BUNDLE_ID_MAX.

Lemma GetBundleIdMin_spec m :
  min_wf m ->
  let '(mn, m1) := GetBundleIdMin m in
  BUNDLE_ID_MIN <= mn < BUNDLE_ID_MAX /\ m1 = set_g_bundleIdMin mn m /\ GetBundleIdMin m1 = (mn, m1) /\
  min_wf m1.
Proof.
  intros Hm. unfold GetBundleIdMin. destruct (Z.eqb_spec (g_bundleIdMin m) (-1)) as [E|E]; cbn [negb].
  - set (v := match baseappid with None => _ | _ => _ end).
    assert (BUNDLE_ID_MIN <= v < BUNDLE_ID_MAX) as Hv.
    { subst v. unfold BUNDLE_ID_MIN, BUNDLE_ID_MAX. destruct baseappid as [x|]; [|lia].
      destruct (Z.ltb_spec (i32 x) 10000); cbn [orb]; [lia|].
      destruct (Z.leb_spec 65535 (i32 x)); lia. }
    split_and!; try lia; [done| |by right]. cbn.
    destruct (Z.eqb_spec v (-1)); [unfold BUNDLE_ID_MIN in *; lia|done].
  - destruct Hm as [|Hm]; [done|]. split_and!; try lia; [by destruct m| |by right].
    by destruct (Z.eqb_spec (g_bundleIdMin m) (-1)).
Qed.

Lemma GetBundleIdMin_cached m : g_bundleIdMin m <> -1 -> GetBundleIdMin m = (g_bundleIdMin m, m).
Proof. intros Hm. unfold GetBundleIdMin. by apply Z.eqb_neq in Hm as ->. Qed.

(** The scan start is in the allocation range. *)
Lemma GetScanStartLocked_spec m :
  min_wf m ->
  let '(start, m1) := GetScanStartLocked m in
  let mn := (GetBundleIdMin m).1 in
  mn <= start <= BUNDLE_ID_MAX /\ bundleIdSet_ m1 = bundleIdSet_ m /\
  reservedBundleIdSet_ m1 = reservedBundleIdSet_ m /\ migrationDone_ m1 = migrationDone_ m /\
  GetBundleIdMin m1 = (mn, m1) /\
  (mn <= scanStartBundleId_ m <= BUNDLE_ID_MAX -> start = scanStartBundleId_ m).
Proof.
  intros Hm. unfold GetScanStartLocked. pose proof (GetBundleIdMin_spec m Hm) as H.
  destruct (GetBundleIdMin m) as [mn m1]. destruct H as (Hr & -> & Hg & Hw).
  cbn [scanStartBundleId_ set_g_bundleIdMin bundleIdSet_ reservedBundleIdSet_].
  destruct (Z.ltb_spec (scanStartBundleId_ m) mn) as [Hlt|Hge]; cbn [scanStartBundleId_ set_bundles].
  - destruct (Z.ltb_spec BUNDLE_ID_MAX mn); [lia|]. cbn [fst].
    split_and!; try done; try lia. apply GetBundleIdMin_cached. cbn. unfold BUNDLE_ID_MIN in *. lia.
  - cbn. destruct (Z.ltb_spec BUNDLE_ID_MAX (scanStartBundleId_ m)).
    + rewrite Hg. cbn. split_and!; try done; try lia.
    + split_and!; try done; lia.
Qed.

Lemma elem_of_count_up n : forall z b, b ∈ count_up n z <-> z <= b < z + Z.of_nat n.
Proof.
  induction n as [|n IH]; intros z b; cbn [count_up]; [rewrite elem_of_nil; lia|].
  rewrite elem_of_cons, IH. lia.
Qed.
Lemma elem_of_range b lo hi : b ∈ range lo hi <-> lo <= b <= hi.
Proof. unfold range. rewrite elem_of_count_up. lia. Qed.
Lemma range_cons lo hi : lo <= hi -> range lo hi = lo :: range (lo + 1) hi.
Proof.
  intros H. unfold range. replace (Z.to_nat (hi - lo + 1)) with (S (Z.to_nat (hi - (lo + 1) + 1))) by lia. done.
Qed.

Lemma AllocUid_scan_spec localId cands m :
  match AllocUid_scan cands localId m with
  | None => forall b, b ∈ cands -> b ∉ bundleIdSet_ m ->
              exists n, uid_refcnt (u32 (uid_of localId b)) = inr n /\ n <> 0
  | Some (inl e) => e = ERR_KERNEL_COMMON_FAILED /\
              exists b err, b ∈ cands /\ b ∉ bundleIdSet_ m /\ uid_refcnt (u32 (uid_of localId b)) = inl err
  | Some (inr (uid, m')) => exists b, b ∈ cands /\ b ∉ bundleIdSet_ m /\ uid = uid_of localId b /\
              uid_refcnt (u32 uid) = inr 0 /\
              m' = set_bundles ({[b]} ∪ bundleIdSet_ m) (reservedBundleIdSet_ m) (b + 1) m
  end.
Proof.
  induction cands as [|b cands IH]; cbn [AllocUid_scan].
  { by intros b ?%not_elem_of_nil. }
  case_bool_decide as Hb.
  - destruct (AllocUid_scan cands localId m) as [[e|[uid m']]|].
    + destruct IH as (-> & b' & err & ? & ? & ?). split; [done|]. exists b', err. split_and!; [by right|done..].
    + destruct IH as (b' & ? & ?). exists b'. split; [by right|done].
    + intros b' [->|Hin]%elem_of_cons Hn; [done|]. by apply IH.
  - cbv zeta. destruct (uid_refcnt _) as [err|n] eqn:R.
    + split; [done|]. exists b, err. split_and!; [left|done..].
    + destruct (Z.eqb_spec n 0) as [->|Hn]; cbn [negb].
      * exists b. split_and!; [left|done..].
      * destruct (AllocUid_scan cands localId m) as [[e|[uid m']]|].
        -- destruct IH as (-> & b' & err & ? & ? & ?). split; [done|]. exists b', err. split_and!; [by right|done..].
        -- destruct IH as (b' & ? & ?). exists b'. split; [by right|done].
        -- intros b' [->|Hin]%elem_of_cons Hnb; [eauto|]. by apply IH.
Qed.

(** Uids are not truncated for the user ids of the system. *)
Lemma uid_of_spec localId b :
  0 <= localId <= 10737 -> BUNDLE_ID_MIN <= b <= BUNDLE_ID_MAX ->
  uid_of localId b = localId * UID_TRANSFORM_DIVISOR + b /\ 0 <= uid_of localId b < 2 ^ 31 /\
  ExtractBundleId (uid_of localId b) = Some b.
Proof.
  unfold BUNDLE_ID_MIN, BUNDLE_ID_MAX. intros Hl Hb.
  assert (uid_of localId b = localId * UID_TRANSFORM_DIVISOR + b) as E.
  { unfold uid_of, UID_TRANSFORM_DIVISOR. rewrite Z.rem_small by lia. rewrite !i32_small; [done|..];
      rewrite ?i32_small; unfold is_i32; lia. }
  rewrite E. unfold UID_TRANSFORM_DIVISOR. split_and!; try lia. unfold ExtractBundleId, UID_TRANSFORM_DIVISOR.
  destruct (Z.ltb_spec (localId * 200000 + b) 0); [lia|].
  rewrite Z.rem_mod_nonneg, Z.add_comm, Z.mod_add, Z.mod_small by lia. unfold BUNDLE_ID_MIN, BUNDLE_ID_MAX.
  destruct (Z.ltb_spec b 10000); [lia|]. destruct (Z.ltb_spec 65535 b); [lia|]. done.
Qed.

(** C25: uid allocation is sound and complete.  A uid it returns belongs to the
    requested user, its bundle id lies in the allowed range, was not in use, is not
    referenced by the kernel, and is recorded as used, and nothing else is; it reports
    that the ids are exhausted only when every id of the range is in use or
    referenced; it reports a kernel error only when the kernel did. *)
Theorem AllocUid_spec localId m :
  0 <= localId <= 10737 -> min_wf m -> IsMigrationDone m = true ->
  let mn := (GetBundleIdMin m).1 in
  match AllocUid localId m with
  | inr (uid, m') => exists b,
      mn <= b <= BUNDLE_ID_MAX /\ b ∉ bundleIdSet_ m /\ uid = localId * UID_TRANSFORM_DIVISOR + b /\
      ExtractBundleId uid = Some b /\ uid_refcnt uid = inr 0 /\
      bundleIdSet_ m' = {[b]} ∪ bundleIdSet_ m /\ reservedBundleIdSet_ m' = reservedBundleIdSet_ m
  | inl (e, m') =>
      bundleIdSet_ m' = bundleIdSet_ m /\
      ((e = ERR_OVERSIZE /\ forall b, mn <= b <= BUNDLE_ID_MAX -> b ∉ bundleIdSet_ m ->
         exists n, uid_refcnt (localId * UID_TRANSFORM_DIVISOR + b) = inr n /\ n <> 0) \/
       (e = ERR_KERNEL_COMMON_FAILED /\ exists b err, b ∉ bundleIdSet_ m /\
         uid_refcnt (localId * UID_TRANSFORM_DIVISOR + b) = inl err))
  end.
Proof.
  intros Hl Hm Hmig mn. subst mn. unfold AllocUid. rewrite Hmig. cbn [negb].
  pose proof (GetBundleIdMin_spec m Hm) as Hmn.
  pose proof (GetScanStartLocked_spec m Hm) as Hs. destruct (GetScanStartLocked m) as [start m1].
  destruct (GetBundleIdMin m) as [mn m0]. cbn [fst] in *. destruct Hmn as (Hmn & _).
  destruct Hs as (Hst & Hb & Hr & _ & Hg & _). rewrite Hg.
  assert (forall b, b ∈ range start BUNDLE_ID_MAX ++ range mn (start - 1) <-> mn <= b <= BUNDLE_ID_MAX) as Hc.
  { intros b. rewrite elem_of_app, !elem_of_range. lia. }
  assert (forall b, mn <= b <= BUNDLE_ID_MAX -> u32 (uid_of localId b) = localId * UID_TRANSFORM_DIVISOR + b /\
    uid_of localId b = localId * UID_TRANSFORM_DIVISOR + b /\ ExtractBundleId (uid_of localId b) = Some b) as Hu.
  { intros b Hb'. destruct (uid_of_spec localId b Hl ltac:(lia)) as (E & H1 & H2).
    rewrite u32_small by (unfold is_u32; lia). done. }
  pose proof (AllocUid_scan_spec localId (range start BUNDLE_ID_MAX ++ range mn (start - 1)) m1) as Sc.
  destruct (AllocUid_scan _ _ _) as [[e|[uid m']]|].
  - destruct Sc as (-> & b & err & Hin & Hn & R). split; [done|]. right. split; [done|]. exists b, err.
    apply Hc in Hin. destruct (Hu b Hin) as (E & _). rewrite <- E, <- Hb. done.
  - destruct Sc as (b & Hin & Hn & -> & R & ->). apply Hc in Hin. destruct (Hu b Hin) as (E & E2 & E3).
    exists b. rewrite <- Hb, <- Hr. rewrite E in R. rewrite E2 in *. done.
  - split; [done|]. left. split; [done|]. intros b Hb' Hn. destruct (Hu b Hb') as (E & _).
    rewrite <- E. apply Sc; [by apply Hc|by rewrite Hb].
Qed.

(** The allocation succeeds at once when the scan starts at a free id. *)
Lemma AllocUid_at localId m b :
  min_wf m -> IsMigrationDone m = true -> scanStartBundleId_ m = b ->
  (GetBundleIdMin m).1 <= b <= BUNDLE_ID_MAX -> b ∉ bundleIdSet_ m ->
  uid_refcnt (u32 (uid_of localId b)) = inr 0 ->
  exists m', AllocUid localId m = inr (uid_of localId b, m').
Proof.
  intros Hm Hmig Hs Hb Hn R. unfold AllocUid. rewrite Hmig. cbn [negb].
  pose proof (GetScanStartLocked_spec m Hm) as H. destruct (GetScanStartLocked m) as [start m1].
  destruct H as (_ & Hb1 & _ & _ & Hg & Hst). rewrite Hst, Hs by lia. rewrite Hg.
  assert (range b BUNDLE_ID_MAX = b :: range (b + 1) BUNDLE_ID_MAX) as ->.
  { apply range_cons. lia. }
  cbn [AllocUid_scan app]. rewrite bool_decide_false by (by rewrite Hb1). rewrite R. cbn. eauto.
Qed.

(** Undoing an allocation.  Removing the uid just allocated, with rollback, gives
    back the set of used ids, and the next allocation for the same user returns the
    same uid. *)
Theorem AllocUid_rollback localId m uid m' :
  0 <= localId <= 10737 -> min_wf m -> IsMigrationDone m = true -> AllocUid localId m = inr (uid, m') ->
  exists m'', RemoveBundleId uid true m' = (RET_SUCCESS, m'') /\
    bundleIdSet_ m'' = bundleIdSet_ m /\ exists m3, AllocUid localId m'' = inr (uid, m3).
Proof.
  intros Hl Hm Hmig A. unfold AllocUid in A. rewrite Hmig in A. cbn [negb] in A.
  pose proof (GetBundleIdMin_spec m Hm) as Hmn.
  pose proof (GetScanStartLocked_spec m Hm) as Hs. destruct (GetScanStartLocked m) as [start m1].
  destruct (GetBundleIdMin m) as [mn m0]. cbn [fst] in *. destruct Hmn as (Hmn & _).
  destruct Hs as (Hst & Hb & _ & Hmd & Hg & _). rewrite Hg in A.
  pose proof (AllocUid_scan_spec localId (range start BUNDLE_ID_MAX ++ range mn (start - 1)) m1) as Sc.
  destruct (AllocUid_scan _ _ _) as [[e|[uid1 m2]]|]; try done. injection A as -> ->.
  destruct Sc as (b & Hin & Hn & -> & R & ->). rewrite elem_of_app, !elem_of_range in Hin.
  destruct (uid_of_spec localId b Hl ltac:(lia)) as (E & _ & Ex). unfold RemoveBundleId. rewrite Ex.
  cbn [scanStartBundleId_ set_bundles]. rewrite (proj2 (Z.ltb_lt _ _)) by lia.
  rewrite (proj2 (Z.eqb_eq _ _)) by lia. cbn [andb]. eexists. split; [done|].
  assert ((({[b]} ∪ bundleIdSet_ m1) ∖ {[b]} : gset Z) = bundleIdSet_ m1) as Es by set_solver.
  cbn [bundleIdSet_ set_bundles reservedBundleIdSet_]. rewrite Es. split; [done|].
  assert (g_bundleIdMin m1 = mn) as Gm.
  { unfold GetBundleIdMin in Hg. destruct (negb _); [by injection Hg|].
    injection Hg as Hg1 Hg2. apply (f_equal g_bundleIdMin) in Hg2. cbn in Hg2. congruence. }
  apply AllocUid_at; cbn; try done.
  - right. cbn. lia.
  - unfold IsMigrationDone in *. cbn. by rewrite Hmd.
  - rewrite GetBundleIdMin_cached by (cbn; unfold BUNDLE_ID_MIN in *; lia). cbn. lia.
Qed.

(** ** The reserved list. *)
Context {S : Type} `{!AtmDb S}.

Lemma reserved_predicates :
  ToRdbPredicates reserved_key_value = [(FIELD_NAME, VString RESERVED_BUNDLE_ID_LIST_KEY)].
Proof. vm_compute. reflexivity. Qed.

Lemma reserved_row_reload value :
  GetString FIELD_VALUE (reload (reserved_row_value value)) = value /\ reload (reserved_row_value value) <> ∅.
Proof.
  assert (reload (reserved_row_value value) !! FIELD_VALUE = Some (TYPE_STRING value)) as H.
  { rewrite reload_lookup. unfold reserved_row_value. rewrite !Put_lookup. reflexivity. }
  split; [unfold GetString; by rewrite H|]. intros E. rewrite E, lookup_empty in H. discriminate H.
Qed.

(** The row that holds the reserved list, in the table. *)
Lemma select_after_replace value rows :
  select_rows (ToRdbPredicates reserved_key_value)
    (delete_rows (ToRdbPredicates reserved_key_value) rows ++ ToRdbValueBuckets [reserved_row_value value]) =
  [ToRdbValueBucket (reserved_row_value value)].
Proof.
  unfold select_rows, delete_rows. rewrite filter_app.
  assert (filter (row_matches (ToRdbPredicates reserved_key_value))
            (filter (fun r => ~ row_matches (ToRdbPredicates reserved_key_value) r) rows) = []) as ->.
  { induction rows as [|r rows IH]; [done|]. rewrite filter_cons. destruct (decide _); [|done].
    rewrite filter_cons. by rewrite decide_False. }
  unfold ToRdbValueBuckets. cbn [map app].
  assert (forall r : Row, r !! FIELD_NAME = Some (VString RESERVED_BUNDLE_ID_LIST_KEY) ->
    filter (row_matches (ToRdbPredicates reserved_key_value)) (filter (fun b : Row => b <> ∅) [r]) = [r]) as H.
  { intros r Hr. rewrite filter_cons_True by (intros ->; done). rewrite filter_nil.
    rewrite filter_cons_True; [done|]. rewrite reserved_predicates. constructor; [exact Hr|constructor]. }
  apply H. done.
Qed.

Lemma reserved_json_roundtrip bundleList value
    (json_ok : forall l, l <> ∅ -> exists get build, json_GetReservedBundleIdList = Some get /\
       json_BuildReservedBundleIdList = Some build /\ get (build l) = (RET_SUCCESS, l)) :
  ReservedBundleIdSetToJson bundleList = (RET_SUCCESS, value) ->
  ReservedBundleIdSetFromJson value = (RET_SUCCESS, bundleList).
Proof.
  unfold ReservedBundleIdSetToJson, ReservedBundleIdSetFromJson. intros J. case_bool_decide as Hemp.
  - injection J as <-. by rewrite Hemp.
  - destruct (json_ok bundleList Hemp) as (get & build & Hg & Hb & Ejs). rewrite Hb in J. rewrite Hg.
    destruct (String.eqb (build bundleList) "") eqn:E0; [discriminate J|]. injection J as <-. by rewrite E0.
Qed.

(** The reserved bundle ids survive a restart: when refreshing the list succeeds,
    a service that starts from the resulting database, with any previous state, loads
    exactly that list and counts all its ids as used.  [json_ok] is the round trip of
    the JSON library. *)
Theorem reserved_list_survives_restart bundleList m db m1 db1 m0 ret m2 db2
    (json_ok : forall l, l <> ∅ -> exists get build, json_GetReservedBundleIdList = Some get /\
       json_BuildReservedBundleIdList = Some build /\ get (build l) = (RET_SUCCESS, l)) :
  RefreshReservedBundleIdSet bundleList m db = (RET_SUCCESS, m1, db1) ->
  InitReservedBundleIdSet m0 db1 = (ret, m2, db2) -> ret = RET_SUCCESS ->
  reservedBundleIdSet_ m2 = bundleList /\ reservedBundleIdSet_ m2 = reservedBundleIdSet_ m1 /\
  bundleList ⊆ bundleIdSet_ m2.
Proof.
  unfold RefreshReservedBundleIdSet, PersistReservedBundleIdSetLocked. intros R I ->.
  destruct (ReservedBundleIdSetToJson bundleList) as [e value] eqn:J.
  destruct (Z.eqb_spec e RET_SUCCESS) as [->|]; cbn [negb] in R;
    [|rewrite (proj2 (Z.eqb_neq _ _)) in R by done; injection R; congruence].
  destruct (db_DeleteAndInsertValues db _ _) as [e1 d1] eqn:W.
  destruct (Z.eqb_spec e1 RET_SUCCESS) as [->|]; cbn [negb] in R; [|injection R; congruence].
  injection R as <- <-. pose proof (db_DeleteAndInsertValues_spec _ _ _ _ _ W ACCESSTOKEN_SYSTEM_CONFIG) as Hr.
  rewrite decide_True in Hr by done. unfold apply_adds, apply_dels in Hr. cbn [delType addType addValues
    delValue map concat] in Hr. rewrite !decide_True in Hr by done. rewrite app_nil_r in Hr.
  unfold InitReservedBundleIdSet, LoadReservedBundleIdSetFromDb in I.
  destruct (db_Find d1 ACCESSTOKEN_SYSTEM_CONFIG reserved_key_value) as [[e2 results] d2] eqn:F.
  apply db_Find_spec in F as [_ F].
  destruct (Z.eqb_spec e2 RET_SUCCESS) as [->|]; cbn [negb] in I;
    [|rewrite (proj2 (Z.eqb_neq _ _)) in I by done; injection I; congruence].
  destruct (F eq_refl) as (rows & Hp & ->). rewrite Hr, select_after_replace in Hp.
  apply Permutation_singleton_r in Hp as ->. cbn [map] in I.
  change (ResultToGenericValues (ToRdbValueBucket (reserved_row_value value)))
    with (reload (reserved_row_value value)) in I.
  destruct (reserved_row_reload value) as [Ev Hne]. rewrite filter_cons_True in I by done.
  rewrite Ev in I.
  pose proof (reserved_json_roundtrip bundleList value json_ok J) as Jf.
  rewrite Jf in I. cbn [negb Z.eqb RET_SUCCESS] in I. injection I as <- _.
  cbn [reservedBundleIdSet_ bundleIdSet_ set_bundles]. split_and!; [reflexivity..|].
  apply union_subseteq_r.
Qed.

End Uids.

(** ** Instances. *)
#[local] Existing Instance full_config.

(** The JSON text is any injective encoding here. *)
Definition sample_json_build (l : gset Z) : string := print_N (Npos (encode l)).
Definition sample_json_get (s : string) : Z * gset Z :=
  match read_digits 0 s with
  | Some (Npos p) => (RET_SUCCESS, default ∅ (decode p))
  | _ => (ERR_PARAM_INVALID, ∅)
  end.

(** The first two uids of user 100 are referenced by the kernel. *)
Definition sample_env : IdEnv := {|
  baseappid := None;
  uid_refcnt uid := if (uid =? 20010000) || (uid =? 20010001) then inr 3 else inr 0;
  json_GetReservedBundleIdList := Some sample_json_get;
  json_BuildReservedBundleIdList := Some sample_json_build;
|}.
#[local] Existing Instance sample_env.

Lemma sample_json_ok l : l <> ∅ -> exists get build, json_GetReservedBundleIdList = Some get /\
  json_BuildReservedBundleIdList = Some build /\ get (build l) = (RET_SUCCESS, l).
Proof.
  intros _. exists sample_json_get, sample_json_build. split_and!; [done..|].
  unfold sample_json_get, sample_json_build. by rewrite read_print_N, decode_encode.
Qed.

(** Bundle id 10002 is in use. *)
Definition sample_ids : IdMgr := mkIdMgr ∅ ∅ ∅ {[10002]} ∅ (-1) true (-1).

Lemma token_sets_disjoint_witness :
  sets_disjoint (ChangeTokenIdStatus 0x20000001 RESERVED (RegisterTokenId 0x20000001 TOKEN_HAP initial_IdMgr).2).2.
Proof.
  apply token_sets_disjoint.
  eapply rtc_l; [exact (step_Register initial_IdMgr 0x20000001 TOKEN_HAP)|].
  apply rtc_once. exact (step_ChangeStatus _ 0x20000001 RESERVED).
Defined.

Lemma ChangeTokenIdStatus_spec_witness :
  GetTokenIdStatusLocked 0x20000001
    (ChangeTokenIdStatus 0x20000001 UNTRUSTED (AddReservedTokenId 0x20000001 initial_IdMgr)).2 = Some UNTRUSTED.
Proof.
  destruct (ChangeTokenIdStatus_spec 0x20000001 UNTRUSTED (AddReservedTokenId 0x20000001 initial_IdMgr)
    RET_SUCCESS (ChangeTokenIdStatus 0x20000001 UNTRUSTED (AddReservedTokenId 0x20000001 initial_IdMgr)).2)
    as (_ & _ & H & _).
  - apply (token_step_disjoint initial_IdMgr); [constructor|]. unfold sets_disjoint. cbn. set_solver.
  - vm_compute. reflexivity.
  - apply H. reflexivity.
Defined.

Lemma CreateAndRegisterTokenId_spec_witness :
  GetTokenIdStatusLocked 0x3c100005
    (CreateAndRegisterTokenId (fun _ => 5) TOKEN_HAP 1 0 1 initial_IdMgr).2 = None /\
  GetTokenIdStatusLocked (CreateAndRegisterTokenId (fun _ => 5) TOKEN_HAP 1 0 1 initial_IdMgr).1
    (CreateAndRegisterTokenId (fun _ => 5) TOKEN_HAP 1 0 1 initial_IdMgr).2 = Some ACTIVE.
Proof.
  split; [vm_compute; reflexivity|].
  pose proof (CreateAndRegisterTokenId_spec (fun _ => 5) TOKEN_HAP 1 0 1 initial_IdMgr
    (CreateAndRegisterTokenId (fun _ => 5) TOKEN_HAP 1 0 1 initial_IdMgr).1
    (CreateAndRegisterTokenId (fun _ => 5) TOKEN_HAP 1 0 1 initial_IdMgr).2
    ltac:(unfold TOKEN_HAP; lia) ltac:(vm_compute; reflexivity)) as H.
  rewrite decide_False in H by (vm_compute; discriminate). apply H.
Defined.

Lemma AllocUid_spec_witness :
  exists m', AllocUid 100 sample_ids = inr (20010003, m') /\ bundleIdSet_ m' = {[10003]} ∪ bundleIdSet_ sample_ids.
Proof.
  pose proof (AllocUid_spec 100 sample_ids ltac:(lia) ltac:(left; reflexivity) ltac:(reflexivity)) as H.
  cbv zeta in H. destruct (AllocUid 100 sample_ids) as [[e m']|[uid m']] eqn:A.
  - exfalso. revert A. vm_compute. discriminate.
  - exists m'. destruct H as (b & _ & _ & Hu & _ & _ & Hb & _).
    assert (uid = 20010003) as ->.
    { apply (f_equal (fun r => match r with inr (u, _) => u | _ => 0 end)) in A. vm_compute in A. congruence. }
    split; [reflexivity|]. assert (b = 10003) as -> by (unfold UID_TRANSFORM_DIVISOR in Hu; lia). exact Hb.
Defined.

Lemma AllocUid_rollback_witness :
  exists m'' m3, bundleIdSet_ m'' = {[10002]} /\ AllocUid 100 m'' = inr (20010003, m3).
Proof.
  destruct (AllocUid 100 sample_ids) as [[e m']|[uid m']] eqn:A; [exfalso; revert A; vm_compute; discriminate|].
  destruct (AllocUid_rollback 100 sample_ids uid m' ltac:(lia) ltac:(left; reflexivity) ltac:(reflexivity) A)
    as (m'' & _ & Hb & m3 & A2).
  exists m'', m3. split; [exact Hb|]. assert (uid = 20010003) as <-; [|exact A2].
  apply (f_equal (fun r => match r with inr (u, _) => u | _ => 0 end)) in A. vm_compute in A. congruence.
Defined.

Lemma reserved_list_survives_restart_witness :
  exists m2 db2, reservedBundleIdSet_ m2 = {[10100; 10200]} /\
    InitReservedBundleIdSet initial_IdMgr
      (RefreshReservedBundleIdSet {[10100; 10200]} sample_ids (mkMemRdb ∅ [])).2 = (RET_SUCCESS, m2, db2).
Proof.
  set (db1 := (RefreshReservedBundleIdSet {[10100; 10200]} sample_ids (mkMemRdb ∅ [])).2).
  destruct (InitReservedBundleIdSet initial_IdMgr db1) as [[r m2] db2] eqn:I.
  exists m2, db2. assert (r = RET_SUCCESS) as ->.
  { apply (f_equal (fun x => x.1.1)) in I. vm_compute in I. symmetry. exact I. }
  split; [|reflexivity].
  refine (proj1 (reserved_list_survives_restart {[10100; 10200]} sample_ids (mkMemRdb ∅ [])
    (RefreshReservedBundleIdSet {[10100; 10200]} sample_ids (mkMemRdb ∅ [])).1.2 db1 initial_IdMgr
    RET_SUCCESS m2 db2 sample_json_ok _ I eq_refl)).
  vm_compute. reflexivity.
Defined.
