(* ===== verification/UserPolicy.v ===== *)
(** * User policies

    services/accesstokenmanager/main/cpp/src/permission/user_policy_manager.cpp: an
    administrator restricts a permission for some users, with a white list of
    tokens that keep it.  The records are cached in memory and, when persistent,
    stored in the database as text lists.  Both branches of the build switch
    SUPPORT_MANAGE_USER_POLICY are modelled. *)

From stdpp Require Import base gmap list strings sorting.
From S2P Require Import Prelude AccessTokenTypes TokenId PermissionMap Validator Database.
#[local] Open Scope string_scope.
#[local] Open Scope list_scope.
#[local] Open Scope Z_scope.
#[local] Open Scope cxx_scope.

(** [UserPolicyRecord]. *)
Record UserPolicyRecord := mkUserPolicyRecord {
  upr_userList : list Z;
  upr_controllerToken : Z;
  upr_whiteList : gset Z;
  upr_isPersist : bool;
}.

(** [UserPolicyChange]. *)
Record UserPolicyChange := mkUserPolicyChange {
  upc_permCode : Z;
  upc_isPersist : bool;
  upc_changedUserList : gset Z;
}.

(** [PolicyWhiteListUpdateInfo]. *)
Record PolicyWhiteListUpdateInfo := mkPolicyWhiteListUpdateInfo {
  pwl_tokenId : Z;
  pwl_userId : Z;
  pwl_permCode : Z;
  pwl_type : Z;
  pwl_callerToken : Z;
}.

(** [userPolicyRecords_]. *)
Abbreviation Records := (gmap Z UserPolicyRecord).

Definition set_upr_whiteList (w : gset Z) (r : UserPolicyRecord) : UserPolicyRecord :=
  mkUserPolicyRecord (upr_userList r) (upr_controllerToken r) w (upr_isPersist r).

Definition USER_POLICY_SEPARATOR : Ascii.ascii := Ascii.ascii_of_N 44.
Definition USER_POLICY_MAX_LIST_SIZE : Z := 1024.

(** ** Text lists. *)
Definition is_space (c : Ascii.ascii) : bool :=
  Ascii.eqb c (Ascii.ascii_of_N 32) || Ascii.eqb c (Ascii.ascii_of_N 9).

Fixpoint trim_front (s : string) : string :=
  match s with
  | EmptyString => EmptyString
  | String c s' => if is_space c then trim_front s' else s
  end.
Fixpoint trim_back (s : string) : string :=
  match s with
  | EmptyString => EmptyString
  | String c s' =>
      match trim_back s' with
      | EmptyString => if is_space c then EmptyString else String c EmptyString
      | r => String c r
      end
  end.
(** From the first to the last character that is not a space. *)
Definition Trim (value : string) : string := trim_back (trim_front value).

Definition ParseInt32Value (value : string) : option Z :=
  let trimmedValue := Trim value in
  if str_empty trimmedValue then None else from_chars true (- 2 ^ 31) (2 ^ 31 - 1) trimmedValue.

Definition ParseTokenIdValue (value : string) : option Z :=
  let trimmedValue := Trim value in
  if str_empty trimmedValue then None else from_chars false 0 (2 ^ 32 - 1) trimmedValue.

(** The items between separators, in order: what the find/substr loop visits. *)
Fixpoint split_items (s : string) : list string :=
  match s with
  | EmptyString => [EmptyString]
  | String c s' =>
      if Ascii.eqb c USER_POLICY_SEPARATOR then EmptyString :: split_items s'
      else match split_items s' with
           | [] => [String c EmptyString]
           | item :: rest => String c item :: rest
           end
  end.

Fixpoint ParseUserList_loop (items : list string) (userList : list Z) : option (list Z) :=
  match items with
  | [] => Some userList
  | item :: rest =>
      if negb (str_empty (Trim item)) then
        match ParseInt32Value item with
        | None => None
        | Some userId =>
            if USER_POLICY_MAX_LIST_SIZE <=? Z.of_nat (length userList) then None
            else ParseUserList_loop rest (userList ++ [userId])
        end
      else ParseUserList_loop rest userList
  end.
Definition ParseUserList (value : string) : option (list Z) :=
  if str_empty value then Some [] else ParseUserList_loop (split_items value) [].

Fixpoint ParseWhiteTokenList_loop (items : list string) (tokenCount : Z) (whiteList : gset Z)
    : option (gset Z) :=
  match items with
  | [] => Some whiteList
  | item :: rest =>
      if negb (str_empty (Trim item)) then
        match ParseTokenIdValue item with
        | None => None
        | Some tokenId =>
            if USER_POLICY_MAX_LIST_SIZE <=? tokenCount then None
            else ParseWhiteTokenList_loop rest (tokenCount + 1) ({[tokenId]} ∪ whiteList)
        end
      else ParseWhiteTokenList_loop rest tokenCount whiteList
  end.
Definition ParseWhiteTokenList (value : string) : option (gset Z) :=
  if str_empty value then Some ∅ else ParseWhiteTokenList_loop (split_items value) 0 ∅.

Definition SerializeList (valueList : list Z) : string :=
  fold_left (fun result v =>
      (if str_empty result then result else result +:+ String USER_POLICY_SEPARATOR EmptyString)
        +:+ to_string v) valueList EmptyString.

Definition SerializeWhiteTokenList (whiteList : gset Z) : string :=
  SerializeList (merge_sort Z.le (elements whiteList)).

Definition IsSupportedPolicyApl (apl : Z) : bool := (apl =? APL_NORMAL) || (apl =? APL_SYSTEM_BASIC).

Definition BuildUserPolicyCondition (permissionName : string) : GenericValues :=
  Put FIELD_PERMISSION_NAME (TYPE_STRING permissionName) ∅.

Definition BuildUserPolicyValue (permissionName : string) (record : UserPolicyRecord) : GenericValues :=
  Put FIELD_WHITELIST (TYPE_STRING (SerializeWhiteTokenList (upr_whiteList record))) (
  Put FIELD_RESTRICTED_USER (TYPE_STRING (SerializeList (upr_userList record))) (
  Put FIELD_CONTROLLER_TOKENID (TYPE_INT (i32 (upr_controllerToken record))) (
  Put FIELD_PERMISSION_NAME (TYPE_STRING permissionName) ∅))).

(** The changed users and the new list; [erase] removes the first occurrence. *)
Fixpoint UpdateRestrictedUserList (requested : list UserPolicy) (restrictedUserList : list Z)
    (changedUserList : gset Z) : gset Z * list Z :=
  match requested with
  | [] => (changedUserList, restrictedUserList)
  | item :: rest =>
      let found := bool_decide (up_userId item ∈ restrictedUserList) in
      if found && negb (up_isRestricted item) then
        UpdateRestrictedUserList rest
          (erase_first (fun u => u =? up_userId item) restrictedUserList)
          ({[up_userId item]} ∪ changedUserList)
      else if negb found && up_isRestricted item then
        UpdateRestrictedUserList rest (restrictedUserList ++ [up_userId item])
          ({[up_userId item]} ∪ changedUserList)
      else UpdateRestrictedUserList rest restrictedUserList changedUserList
  end.

Definition IsUserPolicyRecordSizeValid (record : UserPolicyRecord) : bool :=
  negb (bool_decide (length (upr_userList record) = 0%nat)) &&
  (Z.of_nat (length (upr_userList record)) <=? USER_POLICY_MAX_LIST_SIZE) &&
  (Z.of_nat (size (upr_whiteList record)) <=? USER_POLICY_MAX_LIST_SIZE).

Definition IsUserPolicyRecordsSizeValid (records : Records) : bool :=
  if USER_POLICY_MAX_LIST_SIZE <? Z.of_nat (size records) then false
  else forallb (fun item => IsUserPolicyRecordSizeValid item.2) (map_items records).

Section UserPolicyManager.
Context {PT : PermTable} {BC : BuildConfig} {S : Type} `{!AtmDb S}.

(** ** Validation. *)
Fixpoint ValidateSetUserPolicy_loop (userPermissionList : list UserPermissionPolicy) (callerToken : Z)
    (records : Records) (batchPolicyPersistFlags : gmap Z bool) (permCodeList : list Z) : Z + list Z :=
  match userPermissionList with
  | [] => inr permCodeList
  | policy :: rest =>
      match GetPermissionBriefDef_opcode (upp_permissionName policy) with
      | None => inl ERR_PARAM_INVALID
      | Some (briefDef, code) =>
          if negb (IsSupportedPolicyApl (pbd_availableLevel briefDef)) then inl ERR_PARAM_INVALID
          else if bool_decide (length (upp_userPolicyList policy) = 0%nat) then inl ERR_PARAM_INVALID
          else
            match batchPolicyPersistFlags !! code with
            | Some persist =>
                if negb (Bool.eqb persist (upp_isPersist policy))
                then inl ERR_PERM_POLICY_PERSISTENCE_FLAG_NOT_MATCH
                else inl ERR_PARAM_INVALID
            | None =>
                let recordCheck :=
                  match records !! code with
                  | None => RET_SUCCESS
                  | Some record =>
                      if negb (upr_controllerToken record =? callerToken)
                      then ERR_PERM_POLICY_ALREADY_SET_BY_OTHER
                      else if negb (Bool.eqb (upr_isPersist record) (upp_isPersist policy))
                      then ERR_PERM_POLICY_PERSISTENCE_FLAG_NOT_MATCH
                      else RET_SUCCESS
                  end in
                if negb (recordCheck =? RET_SUCCESS) then inl recordCheck
                else if negb (forallb (fun up => IsUserIdValid (up_userId up)) (upp_userPolicyList policy))
                then inl ERR_PARAM_INVALID
                else ValidateSetUserPolicy_loop rest callerToken records
                       (<[code := upp_isPersist policy]> batchPolicyPersistFlags) (permCodeList ++ [code])
            end
      end
  end.
Definition ValidateSetUserPolicy (userPermissionList : list UserPermissionPolicy) (callerToken : Z)
    (records : Records) : Z + list Z :=
  ValidateSetUserPolicy_loop userPermissionList callerToken records ∅ [].

Fixpoint ValidateClearUserPolicy_loop (permissionList : list string) (callerToken : Z) (records : Records)
    (permCodeList : list Z) : Z + list Z :=
  match permissionList with
  | [] => inr permCodeList
  | permission :: rest =>
      match TransferPermissionToOpcode permission with
      | None => inl ERR_PARAM_INVALID
      | Some permCode =>
          match records !! permCode with
          | None => inl ERR_PERM_POLICY_NOT_SET
          | Some record =>
              if negb (upr_controllerToken record =? callerToken) then inl ERR_PERM_POLICY_ALREADY_SET_BY_OTHER
              else ValidateClearUserPolicy_loop rest callerToken records (permCodeList ++ [permCode])
          end
      end
  end.
Definition ValidateClearUserPolicy (permissionList : list string) (callerToken : Z) (records : Records)
    : Z + list Z :=
  ValidateClearUserPolicy_loop permissionList callerToken records [].

(** ** Setting policies. *)
Definition UpdateUserPolicyCache_step (callerToken : Z) (policy : UserPermissionPolicy) (permCode : Z)
    (acc : Records * list UserPolicyChange) : Records * list UserPolicyChange :=
  let '(next, changes) := acc in
  let hasPolicyRecord := bool_decide (is_Some (next !! permCode)) in
  let oldRecord :=
    match next !! permCode with
    | Some r => r
    | None => mkUserPolicyRecord [] INVALID_TOKENID ∅ (upp_isPersist policy)
    end in
  let '(changedUserList, userList) :=
    UpdateRestrictedUserList (upp_userPolicyList policy) (upr_userList oldRecord) ∅ in
  let hasChangedUser := negb (bool_decide (changedUserList = ∅)) in
  let change := mkUserPolicyChange permCode (upr_isPersist oldRecord) changedUserList in
  if bool_decide (userList = []) then
    ((if hasPolicyRecord then delete permCode next else next),
     (if negb hasChangedUser then changes else changes ++ [change]))
  else
    (<[permCode := mkUserPolicyRecord userList callerToken (upr_whiteList oldRecord)
                     (upr_isPersist oldRecord)]> next,
     (if negb hasChangedUser then changes else changes ++ [change])).

Fixpoint UpdateUserPolicyCache_loop (callerToken : Z) (l : list (UserPermissionPolicy * Z))
    (acc : Records * list UserPolicyChange) : Records * list UserPolicyChange :=
  match l with
  | [] => acc
  | (policy, permCode) :: rest =>
      UpdateUserPolicyCache_loop callerToken rest (UpdateUserPolicyCache_step callerToken policy permCode acc)
  end.
Definition UpdateUserPolicyCache (userPermissionList : list UserPermissionPolicy) (permCodeList : list Z)
    (callerToken : Z) (records : Records) : Records * list UserPolicyChange :=
  UpdateUserPolicyCache_loop callerToken (combine userPermissionList permCodeList) (records, []).

Definition policy_del (permCode : Z) : DelInfo :=
  mkDelInfo ACCESSTOKEN_USER_POLICY (BuildUserPolicyCondition (TransferOpcodeToPermission permCode)).
Definition policy_add (permCode : Z) (record : UserPolicyRecord) : AddInfo :=
  mkAddInfo ACCESSTOKEN_USER_POLICY [BuildUserPolicyValue (TransferOpcodeToPermission permCode) record].

Definition UpdateUserPolicyDatabase (userPolicyChanges : list UserPolicyChange) (records next : Records)
    (db : S) : Z * S :=
  let delInfoVec := omap (fun change =>
      match records !! upc_permCode change with
      | Some r => if upr_isPersist r then Some (policy_del (upc_permCode change)) else None
      | None => None
      end) userPolicyChanges in
  let addInfoVec := omap (fun change =>
      match next !! upc_permCode change with
      | Some r => if upr_isPersist r then Some (policy_add (upc_permCode change) r) else None
      | None => None
      end) userPolicyChanges in
  if bool_decide (length delInfoVec = 0%nat) && bool_decide (length addInfoVec = 0%nat) then (RET_SUCCESS, db)
  else
    let '(ret, db') := db_DeleteAndInsertValues db delInfoVec addInfoVec in
    (if ret =? RET_SUCCESS then RET_SUCCESS else ERR_DATABASE_OPERATE_FAILED, db').

Definition SetUserPolicy (userPermissionList : list UserPermissionPolicy) (callerToken : Z)
    (records : Records) (db : S) : Z * list UserPolicyChange * Records * S :=
  if negb SUPPORT_MANAGE_USER_POLICY then (ERR_CAPABILITY_NOT_SUPPORT, [], records, db)
  else
    match ValidateSetUserPolicy userPermissionList callerToken records with
    | inl ret => (ret, [], records, db)
    | inr permCodeList =>
        let '(next, changes) := UpdateUserPolicyCache userPermissionList permCodeList callerToken records in
        if negb (bool_decide (next = ∅)) && negb (IsUserPolicyRecordsSizeValid next)
        then (ERR_OVERSIZE, [], records, db)
        else
          let '(ret, db') := UpdateUserPolicyDatabase changes records next db in
          if negb (ret =? RET_SUCCESS) then (ret, [], records, db')
          else (RET_SUCCESS, changes, next, db')
    end.

(** ** Clearing policies. *)
Fixpoint ClearUserPolicy_loop (permCodeList : list Z) (staged : Records) (changes : list UserPolicyChange)
    (dels : list DelInfo) : Records * list UserPolicyChange * list DelInfo :=
  match permCodeList with
  | [] => (staged, changes, dels)
  | permCode :: rest =>
      match staged !! permCode with
      | None => ClearUserPolicy_loop rest staged changes dels
      | Some record =>
          ClearUserPolicy_loop rest (delete permCode staged)
            (changes ++ [mkUserPolicyChange permCode (upr_isPersist record)
                           (list_to_set (upr_userList record))])
            (if upr_isPersist record then dels ++ [policy_del permCode] else dels)
      end
  end.

Definition ClearUserPolicy (permissionList : list string) (callerToken : Z) (records : Records) (db : S)
    : Z * list UserPolicyChange * Records * S :=
  if negb SUPPORT_MANAGE_USER_POLICY then (ERR_CAPABILITY_NOT_SUPPORT, [], records, db)
  else
    match ValidateClearUserPolicy permissionList callerToken records with
    | inl ret => (ret, [], records, db)
    | inr permCodeList =>
        let '(staged, changes, dels) := ClearUserPolicy_loop permCodeList records [] [] in
        let '(ret, db') :=
          if bool_decide (length dels = 0%nat) then (RET_SUCCESS, db)
          else db_DeleteAndInsertValues db dels [] in
        if negb (ret =? RET_SUCCESS) then (ERR_DATABASE_OPERATE_FAILED, [], records, db')
        else (RET_SUCCESS, changes, staged, db')
    end.

(** ** White lists. *)
Definition ValidatePolicyWhiteListUpdateLocked (context : PolicyWhiteListUpdateInfo) (records : Records)
    : Z + UserPolicyRecord :=
  match records !! pwl_permCode context with
  | None => inl ERR_PERM_POLICY_NOT_SET
  | Some record =>
      if negb (upr_controllerToken record =? pwl_callerToken context)
      then inl ERR_PERM_POLICY_ALREADY_SET_BY_OTHER
      else if negb (bool_decide (pwl_userId context ∈ upr_userList record))
      then inl ERR_TOKENID_NOT_IN_POLICY_USERLIST
      else if pwl_type context =? ADD then
        if bool_decide (pwl_tokenId context ∈ upr_whiteList record)
        then inl ERR_TOKENID_ALREADY_IN_POLICY_WHITELIST
        else if USER_POLICY_MAX_LIST_SIZE <? Z.of_nat (size (upr_whiteList record)) + 1 then inl ERR_OVERSIZE
        else inr record
      else if negb (bool_decide (pwl_tokenId context ∈ upr_whiteList record))
      then inl ERR_TOKENID_NOT_IN_POLICY_WHITELIST
      else inr record
  end.

(** Returns also [isPersist], when it is written. *)
Definition UpdatePolicyWhiteList (context : PolicyWhiteListUpdateInfo) (records : Records) (db : S)
    : Z * option bool * Records * S :=
  if negb SUPPORT_MANAGE_USER_POLICY then (ERR_CAPABILITY_NOT_SUPPORT, Some false, records, db)
  else
    let permission := TransferOpcodeToPermission (pwl_permCode context) in
    if str_empty permission then (ERR_PARAM_INVALID, None, records, db)
    else
      match ValidatePolicyWhiteListUpdateLocked context records with
      | inl ret => (ret, None, records, db)
      | inr staged =>
          let isPersist := upr_isPersist staged in
          let whiteList :=
            if pwl_type context =? ADD then {[pwl_tokenId context]} ∪ upr_whiteList staged
            else upr_whiteList staged ∖ {[pwl_tokenId context]} in
          let '(ret, db') :=
            if isPersist then
              db_Modify db ACCESSTOKEN_USER_POLICY
                (Put FIELD_WHITELIST (TYPE_STRING (SerializeWhiteTokenList whiteList)) ∅)
                (BuildUserPolicyCondition permission)
            else (RET_SUCCESS, db) in
          if negb (ret =? RET_SUCCESS) then (ERR_DATABASE_OPERATE_FAILED, Some isPersist, records, db')
          else (RET_SUCCESS, Some isPersist,
                <[pwl_permCode context := set_upr_whiteList whiteList staged]> records, db')
      end.

(** The loop of [RemoveTokenFromPolicyWhiteList] over the records, in key order:
    the records touched, and the statements for the persistent ones. *)
Definition touched_records (tokenId : Z) (records : Records) : list (Z * UserPolicyRecord) :=
  filter (fun item => tokenId ∈ upr_whiteList item.2) (map_items records).
Definition remove_token (tokenId : Z) (r : UserPolicyRecord) : UserPolicyRecord :=
  set_upr_whiteList (upr_whiteList r ∖ {[tokenId]}) r.

Definition RemoveTokenFromPolicyWhiteList (tokenId : Z) (records : Records) (db : S) : Z * Records * S :=
  if negb SUPPORT_MANAGE_USER_POLICY then (RET_SUCCESS, records, db)
  else
    let touched := touched_records tokenId records in
    let persisted := filter (fun item => upr_isPersist item.2 = true) touched in
    let dels := map (fun item => policy_del item.1) persisted in
    let adds := map (fun item => policy_add item.1 (remove_token tokenId item.2)) persisted in
    if bool_decide (length touched = 0%nat) then (RET_SUCCESS, records, db)
    else
      let '(ret, db') :=
        if bool_decide (length dels = 0%nat) && bool_decide (length adds = 0%nat) then (RET_SUCCESS, db)
        else db_DeleteAndInsertValues db dels adds in
      if negb (ret =? RET_SUCCESS) then (ERR_DATABASE_OPERATE_FAILED, records, db')
      else (RET_SUCCESS, remove_token tokenId <$> records, db').

(** ** Queries. *)
Definition GetPolicyWhiteList (permCode : Z) (records : Records) : Z * list Z :=
  if negb SUPPORT_MANAGE_USER_POLICY then (ERR_CAPABILITY_NOT_SUPPORT, [])
  else if str_empty (TransferOpcodeToPermission permCode) then (ERR_PARAM_INVALID, [])
  else (RET_SUCCESS, match records !! permCode with Some r => elements (upr_whiteList r) | None => [] end).

Definition IsInPolicyWhiteList (tokenId : Z) (record : UserPolicyRecord) : bool :=
  bool_decide (tokenId ∈ upr_whiteList record).

Definition IsPermissionRestricted (tokenId userId permCode : Z) (records : Records) : bool :=
  if negb SUPPORT_MANAGE_USER_POLICY then false
  else match records !! permCode with
       | None => false
       | Some record =>
           if IsInPolicyWhiteList tokenId record then false
           else if bool_decide (userId ∈ upr_userList record) then true else false
       end.

Definition UpdatePermissionStatusListForUserPolicy (tokenId userId : Z) (records : Records)
    (permStateList : list PermissionStatus) : list PermissionStatus :=
  if negb SUPPORT_MANAGE_USER_POLICY then permStateList
  else map (fun permState =>
      match TransferPermissionToOpcode (ps_permissionName permState) with
      | None => permState
      | Some permCode =>
          if IsPermissionRestricted tokenId userId permCode records
          then set_ps_flag (ps_grantFlag permState .| PERMISSION_RESTRICTED_BY_ADMIN) permState
          else set_ps_flag (GetFlagWithoutSpecifiedElement (ps_grantFlag permState)
                              PERMISSION_RESTRICTED_BY_ADMIN) permState
      end) permStateList.

Definition GetRestrictedPermListByUserId (userId : Z) (records : Records) : list Z :=
  if negb SUPPORT_MANAGE_USER_POLICY then []
  else map fst (filter (fun item => userId ∈ upr_userList item.2) (map_items records)).

Definition IsPolicyPersisted (permCode : Z) (records : Records) : bool :=
  if negb SUPPORT_MANAGE_USER_POLICY then false
  else match records !! permCode with Some r => upr_isPersist r | None => false end.

(** ** Loading at start-up. *)
Definition LoadPersistedPolicies_item (records : Records) (item : GenericValues) : Records :=
  match TransferPermissionToOpcode (GetString FIELD_PERMISSION_NAME item) with
  | None => records
  | Some permCode =>
      match ParseUserList (GetString FIELD_RESTRICTED_USER item) with
      | None => records
      | Some userList =>
          match ParseWhiteTokenList (GetString FIELD_WHITELIST item) with
          | None => records
          | Some whiteList =>
              if bool_decide (userList = []) then records
              else <[permCode := mkUserPolicyRecord userList
                                   (u32 (GetInt FIELD_CONTROLLER_TOKENID item)) whiteList true]> records
          end
      end
  end.

Definition LoadPersistedPolicies (records : Records) (db : S) : Z * Records * S :=
  if negb SUPPORT_MANAGE_USER_POLICY then (RET_SUCCESS, records, db)
  else
    let '(ret, results, db') := db_Find db ACCESSTOKEN_USER_POLICY ∅ in
    if negb (ret =? RET_SUCCESS) then (ret, records, db')
    else (RET_SUCCESS,
          fold_left LoadPersistedPolicies_item results
            (filter (fun kv => upr_isPersist kv.2 = false) records), db').

End UserPolicyManager.
