(* ===== verification/UserPolicyTheory.v ===== *)
(** * Lemmas on user policies

    The text round trip of the persisted lists, the correspondence between the
    cached records and the rows of the database, and the effect of each
    operation on the records. *)

From stdpp Require Import base gmap list strings sorting.
From S2P Require Import Prelude AccessTokenTypes TokenId PermissionMap Validator Database UserPolicy.
#[local] Open Scope string_scope.
#[local] Open Scope list_scope.
#[local] Open Scope Z_scope.
#[local] Open Scope cxx_scope.
#[local] Arguments String.append : simpl nomatch.

(** ** Text. *)
Fixpoint all_chars (p : Ascii.ascii -> bool) (s : string) : bool :=
  match s with EmptyString => true | String c s' => p c && all_chars p s' end.

(** Characters that are neither a space nor the separator. *)
Definition plain_char (c : Ascii.ascii) : bool :=
  negb (is_space c) && negb (Ascii.eqb c USER_POLICY_SEPARATOR).

Lemma trim_back_id s : all_chars plain_char s = true -> trim_back s = s.
Proof.
  induction s as [|c s IH]; cbn; [done|]. intros [Hc Hs]%andb_true_iff. rewrite IH by done.
  unfold plain_char in Hc. apply andb_true_iff in Hc as [Hc _]. apply negb_true_iff in Hc.
  destruct s; [by rewrite Hc|done].
Qed.

Lemma Trim_id s : all_chars plain_char s = true -> Trim s = s.
Proof.
  intros H. unfold Trim. assert (trim_front s = s) as ->; [|by apply trim_back_id].
  destruct s as [|c s]; cbn in *; [done|]. apply andb_true_iff in H as [Hc _].
  unfold plain_char in Hc. apply andb_true_iff in Hc as [Hc _]. apply negb_true_iff in Hc. by rewrite Hc.
Qed.

Lemma digit_plain d : (d < 10)%N -> plain_char (digit_char d) = true.
Proof.
  intros Hd. pose proof (digit_char_range d Hd) as Hr. unfold plain_char, is_space.
  assert (forall n, (n < 48)%N -> Ascii.eqb (digit_char d) (Ascii.ascii_of_N n) = false) as H.
  { intros n Hn. apply digit_char_ne; [done|]. rewrite Ascii.N_ascii_embedding; lia. }
  unfold USER_POLICY_SEPARATOR. by rewrite !H.
Qed.

Lemma print_digits_plain fuel : forall n acc,
  all_chars plain_char acc = true -> all_chars plain_char (print_digits fuel n acc) = true.
Proof.
  induction fuel as [|fuel IH]; intros n acc Ha; [done|]. cbn [print_digits].
  assert (all_chars plain_char (String (digit_char (n mod 10)) acc) = true) as H.
  { cbn. rewrite digit_plain by (apply N.mod_lt; lia). done. }
  destruct (n <? 10)%N; [done|]. by apply IH.
Qed.

Lemma to_string_plain z : all_chars plain_char (to_string z) = true.
Proof.
  unfold to_string, print_N. destruct (z <? 0); [|by apply print_digits_plain].
  cbn [all_chars]. by rewrite print_digits_plain.
Qed.

Lemma to_string_nonempty z : str_empty (to_string z) = false.
Proof.
  unfold to_string. destruct (z <? 0); [done|].
  destruct (print_N_cons (Z.to_N z)) as (d & s & -> & _). done.
Qed.

(** The separator and the remaining items. *)
Fixpoint tail_text (l : list Z) : string :=
  match l with
  | [] => EmptyString
  | v :: l' => String USER_POLICY_SEPARATOR (to_string v +:+ tail_text l')
  end.

Lemma app_str_nil s : s +:+ EmptyString = s.
Proof. induction s as [|c s IH]; [done|]. cbn. f_equal. exact IH. Qed.
Lemma app_str_assoc s t u : s +:+ (t +:+ u) = (s +:+ t) +:+ u.
Proof. induction s as [|c s IH]; [done|]. cbn. f_equal. exact IH. Qed.
Lemma app_str_nonempty s t : str_empty s = false -> str_empty (s +:+ t) = false.
Proof. by destruct s. Qed.

Lemma SerializeList_cons v l : SerializeList (v :: l) = to_string v +:+ tail_text l.
Proof.
  unfold SerializeList. cbn [fold_left].
  change ((if str_empty EmptyString then EmptyString else _) +:+ to_string v) with (to_string v).
  assert (str_empty (to_string v) = false) as Hv by apply to_string_nonempty.
  revert Hv. generalize (to_string v) as acc. induction l as [|w l IH]; intros acc Ha; cbn [fold_left tail_text].
  { by rewrite app_str_nil. }
  rewrite Ha, IH.
  - rewrite <- !app_str_assoc. done.
  - destruct acc; done.
Qed.

Lemma split_items_plain s r :
  all_chars plain_char s = true -> split_items (s +:+ String USER_POLICY_SEPARATOR r) = s :: split_items r.
Proof.
  induction s as [|c s IH]; [done|]. cbn [all_chars split_items String.append]. intros [Hc Hs]%andb_true_iff. rewrite IH by done.
  unfold plain_char in Hc. apply andb_true_iff in Hc as [_ Hc]. apply negb_true_iff in Hc. by rewrite Hc.
Qed.
Lemma split_items_last s : all_chars plain_char s = true -> split_items s = [s].
Proof.
  induction s as [|c s IH]; [done|]. cbn [all_chars split_items String.append]. intros [Hc Hs]%andb_true_iff. rewrite IH by done.
  unfold plain_char in Hc. apply andb_true_iff in Hc as [_ Hc]. apply negb_true_iff in Hc. by rewrite Hc.
Qed.

Lemma split_serialized l : forall v, split_items (to_string v +:+ tail_text l) = to_string v :: map to_string l.
Proof.
  induction l as [|w l IH]; intros v; cbn [tail_text map].
  - by rewrite app_str_nil, split_items_last by apply to_string_plain.
  - rewrite split_items_plain by apply to_string_plain. by rewrite IH.
Qed.

Lemma ParseInt32Value_to_string z : is_i32 z -> ParseInt32Value (to_string z) = Some z.
Proof.
  intros Hz. unfold ParseInt32Value. cbv zeta. rewrite Trim_id by apply to_string_plain.
  rewrite to_string_nonempty. apply from_chars_to_string; [unfold is_i32 in Hz; lia|by left].
Qed.

Lemma ParseTokenIdValue_to_string z : is_u32 z -> ParseTokenIdValue (to_string z) = Some z.
Proof.
  intros Hz. unfold ParseTokenIdValue. cbv zeta. rewrite Trim_id by apply to_string_plain.
  rewrite to_string_nonempty. apply from_chars_to_string; unfold is_u32 in Hz; [lia|right; lia].
Qed.

Lemma ParseUserList_loop_serialized l : forall acc,
  Forall is_i32 l -> Z.of_nat (length acc + length l) <= USER_POLICY_MAX_LIST_SIZE ->
  ParseUserList_loop (map to_string l) acc = Some (acc ++ l).
Proof.
  induction l as [|v l IH]; intros acc Hl Hsz; cbn [map ParseUserList_loop]; [by rewrite app_nil_r|].
  apply Forall_cons in Hl as [Hv Hl]. rewrite Trim_id by apply to_string_plain.
  rewrite to_string_nonempty. cbn [negb]. rewrite ParseInt32Value_to_string by done. cbn in Hsz.
  destruct (Z.leb_spec USER_POLICY_MAX_LIST_SIZE (Z.of_nat (length acc))); [lia|].
  rewrite IH; [by rewrite <- app_assoc|done|]. rewrite length_app. cbn. lia.
Qed.

Lemma ParseUserList_serialize l :
  Forall is_i32 l -> Z.of_nat (length l) <= USER_POLICY_MAX_LIST_SIZE ->
  ParseUserList (SerializeList l) = Some l.
Proof.
  intros Hl Hsz. destruct l as [|v l]; [done|]. unfold ParseUserList. rewrite SerializeList_cons.
  rewrite app_str_nonempty by apply to_string_nonempty. rewrite split_serialized.
  by apply (ParseUserList_loop_serialized (v :: l) []).
Qed.

Lemma ParseWhiteTokenList_loop_serialized l : forall n w,
  Forall is_u32 l -> n + Z.of_nat (length l) <= USER_POLICY_MAX_LIST_SIZE ->
  ParseWhiteTokenList_loop (map to_string l) n w = Some (list_to_set l ∪ w).
Proof.
  induction l as [|v l IH]; intros n w Hl Hsz; cbn [map ParseWhiteTokenList_loop].
  { f_equal. set_solver. }
  apply Forall_cons in Hl as [Hv Hl]. rewrite Trim_id by apply to_string_plain.
  rewrite to_string_nonempty. cbn [negb]. rewrite ParseTokenIdValue_to_string by done. cbn in Hsz.
  destruct (Z.leb_spec USER_POLICY_MAX_LIST_SIZE n); [lia|].
  rewrite IH; [|done|lia]. f_equal. cbn. set_solver.
Qed.

Lemma ParseWhiteTokenList_serialize w :
  (forall t, t ∈ w -> is_u32 t) -> Z.of_nat (size w) <= USER_POLICY_MAX_LIST_SIZE ->
  ParseWhiteTokenList (SerializeWhiteTokenList w) = Some w.
Proof.
  intros Hw Hsz. unfold SerializeWhiteTokenList.
  pose proof (merge_sort_Permutation Z.le (elements w)) as Hp.
  assert (list_to_set (merge_sort Z.le (elements w)) = w) as Hs.
  { apply set_eq. intros x. rewrite elem_of_list_to_set, Hp. apply elem_of_elements. }
  assert (Forall is_u32 (merge_sort Z.le (elements w))) as Hf.
  { rewrite Hp. apply Forall_forall. intros t Ht. by apply Hw, elem_of_elements. }
  assert (Z.of_nat (length (merge_sort Z.le (elements w))) <= USER_POLICY_MAX_LIST_SIZE) as Hl
    by (by rewrite Hp).
  revert Hs Hf Hl. generalize (merge_sort Z.le (elements w)) as l. intros l Hs Hf Hl.
  destruct l as [|v l]; [cbn in Hs; by rewrite <- Hs|]. unfold ParseWhiteTokenList. rewrite SerializeList_cons.
  rewrite app_str_nonempty by apply to_string_nonempty. rewrite split_serialized.
  rewrite (ParseWhiteTokenList_loop_serialized (v :: l) 0 ∅) by done. f_equal. rewrite Hs. set_solver.
Qed.

Section Policies.
Context {PT : PermTable} `{!PermTableLaws PT} {BC : BuildConfig} {S : Type} `{!AtmDb S}.
Implicit Types (recs next : Records) (db : S) (c : Z) (r : UserPolicyRecord).

(** ** Records and rows. *)
Definition record_wf (r : UserPolicyRecord) : Prop :=
  upr_userList r <> [] /\ NoDup (upr_userList r) /\ Forall is_i32 (upr_userList r) /\
  Z.of_nat (length (upr_userList r)) <= USER_POLICY_MAX_LIST_SIZE /\
  (forall t, t ∈ upr_whiteList r -> is_u32 t) /\
  Z.of_nat (size (upr_whiteList r)) <= USER_POLICY_MAX_LIST_SIZE /\ is_u32 (upr_controllerToken r).

Definition recs_wf (recs : Records) : Prop :=
  map_Forall (fun c r => 0 <= c < MAX_PERM_SIZE /\ record_wf r) recs.

Definition row_of (item : Z * UserPolicyRecord) : Row :=
  ToRdbValueBucket (BuildUserPolicyValue (TransferOpcodeToPermission item.1) item.2).

Definition persisted (recs : Records) : list (Z * UserPolicyRecord) :=
  filter (fun item => upr_isPersist item.2 = true) (map_to_list recs).

(** The table holds exactly the rows of the persistent records. *)
Definition consistent (recs : Records) (db : S) : Prop :=
  db_rows db ACCESSTOKEN_USER_POLICY ≡ₚ map row_of (persisted recs).

Lemma elem_of_persisted recs c r :
  (c, r) ∈ persisted recs <-> recs !! c = Some r /\ upr_isPersist r = true.
Proof. unfold persisted. rewrite list_elem_of_filter, elem_of_map_to_list. cbn. tauto. Qed.

Lemma persisted_NoDup recs : NoDup (persisted recs).
Proof. apply NoDup_filter, NoDup_map_to_list. Qed.

Lemma opcode_name_inj c c' :
  0 <= c < MAX_PERM_SIZE -> 0 <= c' < MAX_PERM_SIZE ->
  TransferOpcodeToPermission c = TransferOpcodeToPermission c' -> c = c'.
Proof. intros Hc Hc' E. apply name_to_opcode in Hc, Hc'. rewrite E in Hc. congruence. Qed.

Lemma policy_value_lookup name r :
  BuildUserPolicyValue name r !! FIELD_PERMISSION_NAME = Some (TYPE_STRING name) /\
  BuildUserPolicyValue name r !! FIELD_CONTROLLER_TOKENID = Some (TYPE_INT (i32 (upr_controllerToken r))) /\
  BuildUserPolicyValue name r !! FIELD_RESTRICTED_USER = Some (TYPE_STRING (SerializeList (upr_userList r))) /\
  BuildUserPolicyValue name r !! FIELD_WHITELIST =
    Some (TYPE_STRING (SerializeWhiteTokenList (upr_whiteList r))).
Proof. unfold BuildUserPolicyValue. rewrite !Put_lookup. done. Qed.

Lemma bucket_lookup (v : GenericValues) k : ToRdbValueBucket v !! k = ToRdbValue k <$> v !! k.
Proof. unfold ToRdbValueBucket. rewrite map_lookup_imap. by destruct (v !! k). Qed.

Lemma row_of_name item :
  row_of item !! FIELD_PERMISSION_NAME = Some (VString (TransferOpcodeToPermission item.1)).
Proof. unfold row_of. rewrite bucket_lookup. by rewrite (proj1 (policy_value_lookup _ _)). Qed.

Lemma condition_predicates name :
  ToRdbPredicates (BuildUserPolicyCondition name) = [(FIELD_PERMISSION_NAME, VString name)].
Proof.
  unfold ToRdbPredicates, BuildUserPolicyCondition, Put. rewrite lookup_empty, insert_empty.
  by rewrite map_to_list_singleton.
Qed.

Lemma row_matches_code c item :
  0 <= c < MAX_PERM_SIZE -> 0 <= item.1 < MAX_PERM_SIZE ->
  row_matches (ToRdbPredicates (BuildUserPolicyCondition (TransferOpcodeToPermission c))) (row_of item) <->
  item.1 = c.
Proof.
  intros Hc Hi. rewrite condition_predicates. unfold row_matches. rewrite Forall_singleton, row_of_name.
  split; [|by intros ->]. intros [= E]. by apply opcode_name_inj.
Qed.

Definition codes_ok (l : list (Z * UserPolicyRecord)) : Prop := Forall (fun i => 0 <= i.1 < MAX_PERM_SIZE) l.

Lemma delete_code c l :
  0 <= c < MAX_PERM_SIZE -> codes_ok l ->
  delete_rows (ToRdbPredicates (BuildUserPolicyCondition (TransferOpcodeToPermission c))) (map row_of l) =
  map row_of (filter (fun i => i.1 <> c) l).
Proof.
  intros Hc Hl. unfold delete_rows. induction Hl as [|i l Hi Hl IH]; [done|]. cbn [map].
  rewrite !filter_cons. pose proof (row_matches_code c i Hc Hi) as Hm.
  destruct (decide (i.1 <> c)); destruct (decide (~ row_matches _ _)); try (cbn; by rewrite IH); tauto.
Qed.

Lemma codes_ok_filter l P `{!forall i, Decision (P i)} : codes_ok l -> codes_ok (filter P l).
Proof. intros Hl. eapply Forall_sublist; [exact Hl|apply sublist_filter]. Qed.

Lemma apply_dels_codes cs : forall l,
  Forall (fun c => 0 <= c < MAX_PERM_SIZE) cs -> codes_ok l ->
  apply_dels (map policy_del cs) ACCESSTOKEN_USER_POLICY (map row_of l) =
  map row_of (filter (fun i => i.1 ∉ cs) l).
Proof.
  induction cs as [|c cs IH]; intros l Hcs Hl; cbn [map apply_dels].
  { rewrite filter_all; [done|]. apply Forall_forall. set_solver. }
  apply Forall_cons in Hcs as [Hc Hcs]. cbn [delType delValue policy_del]. rewrite decide_True by done.
  rewrite delete_code, IH by (done || by apply codes_ok_filter). f_equal. rewrite list_filter_filter.
  apply list_filter_iff. intros i. set_solver.
Qed.

Lemma row_of_nonempty item : row_of item <> ∅.
Proof. intros E. pose proof (row_of_name item) as H. rewrite E, lookup_empty in H. discriminate H. Qed.

Lemma apply_adds_items items rows :
  apply_adds (map (fun i => policy_add i.1 i.2) items) ACCESSTOKEN_USER_POLICY rows = rows ++ map row_of items.
Proof.
  unfold apply_adds. f_equal. induction items as [|i items IH]; [done|]. cbn [map concat addType addValues policy_add].
  rewrite decide_True by done. rewrite IH. change (row_of i :: map row_of items) with ([row_of i] ++ map row_of items).
  f_equal.
Qed.

Lemma persisted_codes_ok recs : recs_wf recs -> codes_ok (persisted recs).
Proof. intros Hw. apply Forall_forall. intros [c r] [Hl _]%elem_of_persisted. apply (Hw c r Hl). Qed.

(** A successful batch that deletes the rows of [cs] and inserts those of [items]
    leaves the table consistent with [next]. *)
Lemma consistent_batch recs next db db' cs items :
  recs_wf recs -> consistent recs db -> Forall (fun c => 0 <= c < MAX_PERM_SIZE) cs -> NoDup items ->
  (forall c r, (c, r) ∈ items -> ~ ((c, r) ∈ persisted recs /\ c ∉ cs)) ->
  (forall c r, (c, r) ∈ persisted next <-> ((c, r) ∈ persisted recs /\ c ∉ cs) \/ (c, r) ∈ items) ->
  db_DeleteAndInsertValues db (map policy_del cs) (map (fun i => policy_add i.1 i.2) items) = (RET_SUCCESS, db') ->
  consistent next db'.
Proof.
  intros Hw Hc Hcs Hn Hd Hnext W. unfold consistent in *.
  rewrite (db_DeleteAndInsertValues_spec _ _ _ _ _ W ACCESSTOKEN_USER_POLICY), decide_True by done.
  rewrite apply_adds_items.
  assert (apply_dels (map policy_del cs) ACCESSTOKEN_USER_POLICY (db_rows db ACCESSTOKEN_USER_POLICY) ≡ₚ
          map row_of (filter (fun i => i.1 ∉ cs) (persisted recs))) as ->.
  { rewrite <- apply_dels_codes by (done || by apply persisted_codes_ok). by apply apply_dels_perm. }
  rewrite <- map_app. apply (fmap_Permutation row_of). apply NoDup_Permutation.
  - apply NoDup_app. split_and!; [apply NoDup_filter, persisted_NoDup| |done].
    intros [c r] [H1 H2]%list_elem_of_filter H3. by apply (Hd c r).
  - apply persisted_NoDup.
  - intros [c r]. rewrite elem_of_app, list_elem_of_filter, Hnext. cbn. tauto.
Qed.

(** A failed batch keeps the table as it was. *)
Lemma consistent_failed recs db db' dels adds e :
  consistent recs db -> db_DeleteAndInsertValues db dels adds = (e, db') -> e <> RET_SUCCESS ->
  consistent recs db'.
Proof.
  intros Hc W He. unfold consistent in *.
  by rewrite (db_DeleteAndInsertValues_spec _ _ _ _ _ W ACCESSTOKEN_USER_POLICY), decide_False.
Qed.

(** ** The effect of a request on the restricted users. *)

(** Whether [u] is restricted after the requests: the last one for [u] decides. *)
Definition restricted_after (u : Z) (requested : list UserPolicy) (b : bool) : bool :=
  fold_left (fun b item => if up_userId item =? u then up_isRestricted item else b) requested b.

Lemma erase_first_elem u v (l : list Z) :
  NoDup l -> (u ∈ erase_first (fun x => x =? v) l <-> u ∈ l /\ u <> v).
Proof.
  induction 1 as [|x l Hx Hn IH]; cbn; [set_solver|].
  destruct (Z.eqb_spec x v) as [->|]; set_solver.
Qed.

Lemma UpdateRestrictedUserList_spec requested : forall l ch,
  NoDup l -> Forall is_i32 l -> Forall (fun i => is_i32 (up_userId i)) requested ->
  let '(ch', l') := UpdateRestrictedUserList requested l ch in
  NoDup l' /\ Forall is_i32 l' /\
  (forall u, u ∈ l' <-> restricted_after u requested (bool_decide (u ∈ l)) = true) /\
  ch ⊆ ch' /\ (ch' = ∅ -> l' = l).
Proof.
  induction requested as [|item rest IH]; intros l ch Hn Hi Hr; cbn [UpdateRestrictedUserList].
  { split_and!; try done. intros u. cbn. by rewrite bool_decide_eq_true. }
  apply Forall_cons in Hr as [Hit Hr]. cbv zeta. unfold restricted_after. cbn [fold_left].
  fold (restricted_after). destruct (bool_decide (up_userId item ∈ l)) eqn:Bf, (up_isRestricted item) eqn:Br;
    cbn [andb negb]; breflect.
  - specialize (IH l ch Hn Hi Hr). destruct (UpdateRestrictedUserList rest l ch) as [ch' l'].
    destruct IH as (H1 & H2 & H3 & H4 & H5). split_and!; try done. intros u. rewrite H3.
    unfold restricted_after. destruct (Z.eqb_spec (up_userId item) u) as [<-|]; [|done].
    by rewrite bool_decide_true.
  - assert (NoDup (erase_first (fun x => x =? up_userId item) l)) as Hn'
      by (eapply sublist_NoDup; [exact Hn|apply erase_first_sublist]).
    assert (Forall is_i32 (erase_first (fun x => x =? up_userId item) l)) as Hi'
      by (eapply Forall_sublist; [exact Hi|apply erase_first_sublist]).
    specialize (IH _ ({[up_userId item]} ∪ ch) Hn' Hi' Hr).
    destruct (UpdateRestrictedUserList rest _ _) as [ch' l'].
    destruct IH as (H1 & H2 & H3 & H4 & H5). split_and!; try done; [|set_solver|set_solver].
    intros u. rewrite H3. unfold restricted_after. pose proof (erase_first_elem u (up_userId item) l Hn) as He.
    destruct (Z.eqb_spec (up_userId item) u) as [<-|].
    + rewrite bool_decide_false by naive_solver. done.
    + by rewrite (bool_decide_ext _ (u ∈ l)) by naive_solver.
  - assert (NoDup (l ++ [up_userId item])) as Hn'.
    { apply NoDup_app. split_and!; [done|set_solver|apply NoDup_singleton]. }
    assert (Forall is_i32 (l ++ [up_userId item])) as Hi' by (apply Forall_app; by split; [|constructor]).
    specialize (IH _ ({[up_userId item]} ∪ ch) Hn' Hi' Hr).
    destruct (UpdateRestrictedUserList rest _ _) as [ch' l'].
    destruct IH as (H1 & H2 & H3 & H4 & H5). split_and!; try done; [|set_solver|set_solver].
    intros u. rewrite H3. unfold restricted_after.
    destruct (Z.eqb_spec (up_userId item) u) as [<-|].
    + rewrite bool_decide_true by set_solver. done.
    + by rewrite (bool_decide_ext _ (u ∈ l)) by set_solver.
  - specialize (IH l ch Hn Hi Hr). destruct (UpdateRestrictedUserList rest l ch) as [ch' l'].
    destruct IH as (H1 & H2 & H3 & H4 & H5). split_and!; try done. intros u. rewrite H3.
    unfold restricted_after. destruct (Z.eqb_spec (up_userId item) u) as [<-|]; [|done].
    by rewrite bool_decide_false.
Qed.

(** ** The cache update, one permission at a time. *)
Definition old_record (policy : UserPermissionPolicy) (old : option UserPolicyRecord) : UserPolicyRecord :=
  match old with Some r => r | None => mkUserPolicyRecord [] INVALID_TOKENID ∅ (upp_isPersist policy) end.

Definition changed_users (policy : UserPermissionPolicy) (old : option UserPolicyRecord) : gset Z :=
  (UpdateRestrictedUserList (upp_userPolicyList policy) (upr_userList (old_record policy old)) ∅).1.

Definition next_record (callerToken : Z) (policy : UserPermissionPolicy) (old : option UserPolicyRecord)
    : option UserPolicyRecord :=
  let l := (UpdateRestrictedUserList (upp_userPolicyList policy) (upr_userList (old_record policy old)) ∅).2 in
  if bool_decide (l = []) then None
  else Some (mkUserPolicyRecord l callerToken (upr_whiteList (old_record policy old))
               (upr_isPersist (old_record policy old))).

Definition change_of (records : Records) (item : UserPermissionPolicy * Z) : option UserPolicyChange :=
  let old := records !! item.2 in
  if bool_decide (changed_users item.1 old = ∅) then None
  else Some (mkUserPolicyChange item.2 (upr_isPersist (old_record item.1 old)) (changed_users item.1 old)).

Lemma UpdateUserPolicyCache_step_eq caller policy code next changes :
  UpdateUserPolicyCache_step caller policy code (next, changes) =
    (partial_alter (next_record caller policy) code next,
     changes ++ match change_of next (policy, code) with Some ch => [ch] | None => [] end).
Proof.
  unfold UpdateUserPolicyCache_step, change_of, changed_users. cbn [fst snd].
  fold (old_record policy (next !! code)).
  destruct (UpdateRestrictedUserList (upp_userPolicyList policy) _ ∅) as [ch l] eqn:U. cbn [fst].
  assert (next_record caller policy (next !! code) = if bool_decide (l = []) then None else
    Some (mkUserPolicyRecord l caller (upr_whiteList (old_record policy (next !! code)))
            (upr_isPersist (old_record policy (next !! code))))) as Hn.
  { unfold next_record. by rewrite U. }
  assert (forall (x : list UserPolicyChange) y, (if negb (negb (bool_decide (ch = ∅))) then x else x ++ [y]) =
    x ++ match (if bool_decide (ch = ∅) then None else Some y) with Some z => [z] | None => [] end) as Hch.
  { intros x y. destruct (bool_decide (ch = ∅)); cbn [negb]; [by rewrite app_nil_r|done]. }
  rewrite Hch. destruct (bool_decide (l = [])); f_equal.
  - assert (partial_alter (next_record caller policy) code next = delete code next) as ->.
    { apply partial_alter_ext. by intros x <-. }
    clear Hch. case_bool_decide as Hs; [done|]. symmetry. apply delete_id. by apply eq_None_not_Some.
  - symmetry. apply partial_alter_ext. by intros x <-.
Qed.

Lemma UpdateUserPolicyCache_loop_spec caller l : forall next changes,
  NoDup (map snd l) ->
  exists next', UpdateUserPolicyCache_loop caller l (next, changes) = (next', changes ++ omap (change_of next) l) /\
    forall c, next' !! c =
      match find_if (fun p => p.2 =? c) l with
      | Some p => next_record caller p.1 (next !! c)
      | None => next !! c
      end.
Proof.
  induction l as [|[policy code] l IH]; intros next changes Hn; cbn [UpdateUserPolicyCache_loop].
  { exists next. split; [by rewrite app_nil_r|done]. }
  apply NoDup_cons in Hn as [Hc Hn]. rewrite UpdateUserPolicyCache_step_eq.
  destruct (IH (partial_alter (next_record caller policy) code next)
    (changes ++ match change_of next (policy, code) with Some ch => [ch] | None => [] end) Hn) as (next' & -> & Hl).
  exists next'. split.
  - f_equal. rewrite <- app_assoc. f_equal. cbn [omap list_omap].
    assert (omap (change_of (partial_alter (next_record caller policy) code next)) l = omap (change_of next) l) as ->.
    { apply omap_ext_elem. intros [p k] Hin. unfold change_of. cbn [snd].
      rewrite lookup_partial_alter_ne; [done|]. intros <-. apply Hc. by apply (list_elem_of_fmap_2 snd l (p, code)). }
    by destruct (change_of next (policy, code)).
  - intros c. rewrite Hl. cbn [find_if fst snd]. destruct (Z.eqb_spec code c) as [<-|Hne].
    + assert (find_if (fun p => p.2 =? code) l = None) as ->.
      { apply find_if_None. intros [p k] Hin. cbn. apply Z.eqb_neq. intros ->. apply Hc.
        by apply (list_elem_of_fmap_2 snd l (p, code)). }
      by rewrite lookup_partial_alter_eq.
    + by rewrite !lookup_partial_alter_ne.
Qed.

(** What a successful validation guarantees of a policy and its code. *)
Definition policy_ok (callerToken : Z) (recs : Records) (policy : UserPermissionPolicy) (c : Z) : Prop :=
  TransferPermissionToOpcode (upp_permissionName policy) = Some c /\ 0 <= c < MAX_PERM_SIZE /\
  forall r, recs !! c = Some r -> upr_controllerToken r = callerToken /\ upr_isPersist r = upp_isPersist policy.

Lemma ValidateSetUserPolicy_loop_spec caller recs pl : forall batch acc codes,
  ValidateSetUserPolicy_loop pl caller recs batch acc = inr codes ->
  exists new, codes = acc ++ new /\ NoDup new /\ (forall c, c ∈ new -> batch !! c = None) /\
    Forall2 (policy_ok caller recs) pl new.
Proof.
  induction pl as [|policy pl IH]; intros batch acc codes H; cbn [ValidateSetUserPolicy_loop] in H.
  { injection H as <-. exists []. split_and!; [by rewrite app_nil_r|constructor| |constructor].
    by intros c ?%not_elem_of_nil. }
  unfold GetPermissionBriefDef_opcode in H.
  destruct (TransferPermissionToOpcode (upp_permissionName policy)) as [code|] eqn:T; [|done].
  destruct (permList_at code) as [def|]; [|done]. cbn [fmap option_fmap option_map] in H.
  destruct (negb (IsSupportedPolicyApl _)); [done|]. case_bool_decide; [done|].
  destruct (batch !! code) as [b|] eqn:Hb; [by destruct (negb (Bool.eqb b _))|]. cbv zeta in H.
  destruct (negb (_ =? RET_SUCCESS)) eqn:Hr; [done|]. destruct (negb (forallb _ _)); [done|].
  apply IH in H as (new & -> & Hn & Hd & Hf). exists (code :: new). split_and!.
  - by rewrite <- app_assoc.
  - constructor; [|done]. intros Hin. specialize (Hd code Hin). by rewrite lookup_insert_eq in Hd.
  - intros c [->|Hin]%elem_of_cons; [done|]. specialize (Hd c Hin).
    destruct (decide (c = code)) as [->|]; [by rewrite lookup_insert_eq in Hd|by rewrite lookup_insert_ne in Hd].
  - constructor; [|done]. split_and!; [done|by eapply opcode_range..|]. intros r Hrec. rewrite Hrec in Hr.
    destruct (Z.eqb_spec (upr_controllerToken r) caller) as [->|]; cbn [negb] in Hr; [|done]. split; [done|].
    destruct (Bool.eqb (upr_isPersist r) (upp_isPersist policy)) eqn:Eb; [by apply Bool.eqb_prop|done].
Qed.

Lemma Forall2_combine {A B} (P : A -> B -> Prop) la lb :
  Forall2 P la lb -> map snd (combine la lb) = lb /\ Forall (fun p => P p.1 p.2) (combine la lb).
Proof. induction 1 as [|a b la lb Hab _ [IH1 IH2]]; cbn; [done|]. rewrite IH1. split; [done|by constructor]. Qed.

(** A request whose user ids are [int32_t]s. *)
Definition policy_typed (policy : UserPermissionPolicy) : Prop :=
  Forall (fun i => is_i32 (up_userId i)) (upp_userPolicyList policy).

Lemma old_record_wf recs policy c :
  recs_wf recs ->
  let o := old_record policy (recs !! c) in
  NoDup (upr_userList o) /\ Forall is_i32 (upr_userList o) /\ (forall t, t ∈ upr_whiteList o -> is_u32 t).
Proof.
  intros Hw. unfold old_record. destruct (recs !! c) as [r|] eqn:E; cbn.
  - destruct (Hw c r E) as (_ & H). unfold record_wf in H. tauto.
  - split_and!; [constructor|constructor|]. set_solver.
Qed.

(** What a cache update leaves unchanged when no user changes. *)
Lemma next_record_unchanged caller recs policy c :
  recs_wf recs -> policy_typed policy -> policy_ok caller recs policy c ->
  changed_users policy (recs !! c) = ∅ -> next_record caller policy (recs !! c) = recs !! c.
Proof.
  intros Hw Ht (_ & _ & Hok) Hc. destruct (old_record_wf recs policy c Hw) as (H1 & H2 & _).
  pose proof (UpdateRestrictedUserList_spec (upp_userPolicyList policy) _ ∅ H1 H2 Ht) as Hs.
  unfold next_record, changed_users in *. destruct (UpdateRestrictedUserList _ _ _) as [ch l]. cbn [fst snd] in *.
  destruct Hs as (_ & _ & _ & _ & Hl). rewrite (Hl Hc). unfold old_record.
  destruct (recs !! c) as [r|] eqn:E; [|done]. destruct (Hw c r E) as (_ & Hne & _).
  rewrite bool_decide_false by done. destruct (Hok r eq_refl) as [<- _]. by destruct r.
Qed.

(** The cache after an update, for a batch of policies with distinct codes. *)
Definition updated_records caller (items : list (UserPermissionPolicy * Z)) recs next : Prop :=
  forall c, next !! c = match find_if (fun p => p.2 =? c) items with
                        | Some p => next_record caller p.1 (recs !! c)
                        | None => recs !! c
                        end.

Lemma find_code_elem (items : list (UserPermissionPolicy * Z)) c p :
  find_if (fun q => q.2 =? c) items = Some p -> p ∈ items /\ p.2 = c.
Proof. intros [Hin Hc]%find_if_Some. split; [done|]. by apply Z.eqb_eq in Hc. Qed.

Lemma change_of_code recs p ch : change_of recs p = Some ch -> upc_permCode ch = p.2.
Proof. unfold change_of. case_bool_decide; [done|]. by intros [= <-]. Qed.

(** A code without a change keeps its record. *)
Lemma unchanged_code caller items recs next c :
  recs_wf recs -> updated_records caller items recs next ->
  Forall (fun p => policy_typed p.1 /\ policy_ok caller recs p.1 p.2) items ->
  c ∉ map upc_permCode (omap (change_of recs) items) -> next !! c = recs !! c.
Proof.
  intros Hw Hu Hall Hc. rewrite Hu. destruct (find_if _ items) as [p|] eqn:F; [|done].
  apply find_code_elem in F as [Hin <-]. rewrite Forall_forall in Hall. destruct (Hall p Hin) as [Ht Hok].
  apply next_record_unchanged; [done..|]. destruct (decide (changed_users p.1 (recs !! p.2) = ∅)) as [|Hne]; [done|].
  exfalso. apply Hc. apply list_elem_of_fmap. eexists. split.
  2:{ apply list_elem_of_omap. exists p. split; [done|]. unfold change_of. by rewrite bool_decide_false. }
  done.
Qed.

Definition deleted_codes recs (changes : list UserPolicyChange) : list Z :=
  omap (fun ch => match recs !! upc_permCode ch with
                  | Some r => if upr_isPersist r then Some (upc_permCode ch) else None
                  | None => None
                  end) changes.
Definition added_items next (changes : list UserPolicyChange) : list (Z * UserPolicyRecord) :=
  omap (fun ch => match next !! upc_permCode ch with
                  | Some r => if upr_isPersist r then Some (upc_permCode ch, r) else None
                  | None => None
                  end) changes.

Lemma elem_of_added next changes c r :
  (c, r) ∈ added_items next changes <-> c ∈ map upc_permCode changes /\ (c, r) ∈ persisted next.
Proof.
  unfold added_items. rewrite list_elem_of_omap, elem_of_persisted. split.
  - intros (ch & Hin & E). destruct (next !! upc_permCode ch) as [r'|] eqn:L; [|done].
    destruct (upr_isPersist r') eqn:P; [|done]. injection E as <- <-. split; [|done].
    by apply (list_elem_of_fmap_2 upc_permCode).
  - intros [(ch & -> & Hin)%list_elem_of_fmap [L P]]. exists ch. split; [done|]. by rewrite L, P.
Qed.

Lemma elem_of_deleted recs changes c :
  c ∈ deleted_codes recs changes <->
  c ∈ map upc_permCode changes /\ exists r, (c, r) ∈ persisted recs.
Proof.
  unfold deleted_codes. rewrite list_elem_of_omap. setoid_rewrite elem_of_persisted. split.
  - intros (ch & Hin & E). destruct (recs !! upc_permCode ch) as [r'|] eqn:L; [|done].
    destruct (upr_isPersist r') eqn:P; [|done]. injection E as <-. split; [|eauto].
    by apply (list_elem_of_fmap_2 upc_permCode).
  - intros [(ch & -> & Hin)%list_elem_of_fmap (r & L & P)]. exists ch. split; [done|]. by rewrite L, P.
Qed.

Lemma UpdateUserPolicyDatabase_consistent caller items recs next db ret db' :
  recs_wf recs -> consistent recs db -> NoDup (map snd items) ->
  updated_records caller items recs next ->
  Forall (fun p => policy_typed p.1 /\ policy_ok caller recs p.1 p.2) items ->
  UpdateUserPolicyDatabase (omap (change_of recs) items) recs next db = (ret, db') ->
  (ret = RET_SUCCESS \/ ret = ERR_DATABASE_OPERATE_FAILED) /\
  consistent (if decide (ret = RET_SUCCESS) then next else recs) db'.
Proof.
  intros Hw Hc Hn Hu Hall. set (changes := omap (change_of recs) items). unfold UpdateUserPolicyDatabase.
  rewrite (omap_map (fun ch => match recs !! upc_permCode ch with
    | Some r => if upr_isPersist r then Some (upc_permCode ch) else None | None => None end) policy_del)
    by (intros ch; destruct (recs !! upc_permCode ch) as [r|]; [by destruct (upr_isPersist r)|done]).
  rewrite (omap_map (fun ch => match next !! upc_permCode ch with
    | Some r => if upr_isPersist r then Some (upc_permCode ch, r) else None | None => None end)
    (fun i => policy_add i.1 i.2))
    by (intros ch; destruct (next !! upc_permCode ch) as [r|]; [by destruct (upr_isPersist r)|done]).
  fold (deleted_codes recs changes) (added_items next changes).
  assert (forall c r, (c, r) ∈ persisted next <->
    ((c, r) ∈ persisted recs /\ c ∉ deleted_codes recs changes) \/ (c, r) ∈ added_items next changes) as Hp.
  { intros c r. rewrite elem_of_added, elem_of_deleted.
    destruct (decide (c ∈ map upc_permCode changes)) as [Hin|Hin]; [naive_solver|].
    pose proof (unchanged_code _ _ _ _ _ Hw Hu Hall Hin) as E. rewrite !elem_of_persisted, E. naive_solver. }
  destruct (bool_decide _ && bool_decide _) eqn:Bn.
  - intros [= <- <-]. split; [by left|]. rewrite decide_True by done.
    breflect. assert (deleted_codes recs changes = []) as E1 by (apply length_zero_iff_nil; by rewrite length_map in *).
    assert (added_items next changes = []) as E2 by (apply length_zero_iff_nil; by rewrite length_map in *).
    unfold consistent in *. rewrite Hc. apply (fmap_Permutation row_of). apply NoDup_Permutation;
      [apply persisted_NoDup..|]. intros [c r]. rewrite Hp, E1, E2. set_solver.
  - destruct (db_DeleteAndInsertValues db _ _) as [e d] eqn:W. intros [= <- <-].
    destruct (Z.eqb_spec e RET_SUCCESS) as [->|He].
    + split; [by left|]. rewrite decide_True by done. eapply (consistent_batch recs next); [done..| | | | |exact W].
      * apply Forall_forall. intros c [Hin (r & Hr)]%elem_of_deleted. apply elem_of_persisted in Hr as [Hr _].
        apply (Hw c r Hr).
      * apply (NoDup_of_map fst). apply (NoDup_omap_key _ upc_permCode).
        { intros ch [c r]. destruct (next !! upc_permCode ch) as [r'|]; [|done]. destruct (upr_isPersist r'); [|done].
          by intros [= <- _]. }
        apply (NoDup_omap_key _ snd); [|done]. intros p ch. apply change_of_code.
      * intros c r [Hin _]%elem_of_added [Hr Hd]. apply Hd, elem_of_deleted. eauto.
      * exact Hp.
    + split; [by right|]. rewrite decide_False by done. by eapply consistent_failed.
Qed.

Lemma sizes_valid next :
  next = ∅ \/ IsUserPolicyRecordsSizeValid next = true ->
  forall c r, next !! c = Some r -> Z.of_nat (length (upr_userList r)) <= USER_POLICY_MAX_LIST_SIZE /\
    Z.of_nat (size (upr_whiteList r)) <= USER_POLICY_MAX_LIST_SIZE /\ upr_userList r <> [].
Proof.
  intros [->|Hv] c r Hl; [done|]. unfold IsUserPolicyRecordsSizeValid in Hv. split_if_in Hv; [done|].
  rewrite forallb_forall in Hv. specialize (Hv (c, r)). rewrite <- list_elem_of_In, elem_of_map_items in Hv.
  specialize (Hv Hl). unfold IsUserPolicyRecordSizeValid in Hv. cbn in Hv. breflect. split_and!; [done..|].
  by intros Enil; rewrite Enil in *.
Qed.

Lemma next_records_wf caller items recs next :
  recs_wf recs -> is_u32 caller -> updated_records caller items recs next ->
  Forall (fun p => policy_typed p.1 /\ policy_ok caller recs p.1 p.2) items ->
  next = ∅ \/ IsUserPolicyRecordsSizeValid next = true -> recs_wf next.
Proof.
  intros Hw Hca Hu Hall Hsz c r Hl. destruct (sizes_valid next Hsz c r Hl) as (S1 & S2 & S3).
  rewrite Hu in Hl. destruct (find_if _ items) as [p|] eqn:F; [|by apply (Hw c r)].
  apply find_code_elem in F as [Hin <-]. rewrite Forall_forall in Hall. destruct (Hall p Hin) as [Ht (_ & Hr & _)].
  split; [done|]. destruct (old_record_wf recs p.1 p.2 Hw) as (H1 & H2 & H3).
  pose proof (UpdateRestrictedUserList_spec (upp_userPolicyList p.1) _ ∅ H1 H2 Ht) as Hs.
  unfold next_record in Hl. destruct (UpdateRestrictedUserList _ _ _) as [ch l]. cbn [snd] in Hl.
  destruct Hs as (N1 & N2 & _). split_if_in Hl; [done|]. injection Hl as <-. unfold record_wf. cbn in *. tauto.
Qed.

(** ** Clearing. *)
Lemma consistent_same recs next db :
  consistent recs db -> (forall c r, (c, r) ∈ persisted next <-> (c, r) ∈ persisted recs) -> consistent next db.
Proof.
  unfold consistent. intros -> Hp. apply (fmap_Permutation row_of).
  apply NoDup_Permutation; [apply persisted_NoDup..|]. intros [c r]. by rewrite Hp.
Qed.

Lemma ClearUserPolicy_loop_spec codes : forall staged changes dels,
  exists staged' changes' cs,
    ClearUserPolicy_loop codes staged changes dels = (staged', changes', dels ++ map policy_del cs) /\
    (forall c, staged' !! c = if decide (c ∈ codes) then None else staged !! c) /\
    (forall c, c ∈ cs <-> c ∈ codes /\ exists r, (c, r) ∈ persisted staged).
Proof.
  induction codes as [|code codes IH]; intros staged changes dels; cbn [ClearUserPolicy_loop].
  { exists staged, changes, []. split_and!; [by rewrite app_nil_r| |set_solver].
    intros c. rewrite decide_False by set_solver. done. }
  destruct (staged !! code) as [r|] eqn:E.
  - destruct (IH (delete code staged) (changes ++ [mkUserPolicyChange code (upr_isPersist r)
      (list_to_set (upr_userList r))]) (if upr_isPersist r then dels ++ [policy_del code] else dels))
      as (staged' & changes' & cs & -> & Hl & Hcs).
    exists staged', changes', (if upr_isPersist r then code :: cs else cs). split_and!.
    + f_equal. destruct (upr_isPersist r); [by rewrite <- app_assoc|done].
    + intros c. rewrite Hl. destruct (decide (c ∈ codes)) as [H|H].
      * rewrite decide_True by (by right). done.
      * destruct (decide (c = code)) as [->|Hne].
        -- rewrite lookup_delete_eq, decide_True by left. done.
        -- rewrite lookup_delete_ne by done. rewrite decide_False by set_solver. done.
    + intros c. assert (c ∈ cs <-> c ∈ codes /\ c <> code /\ exists r, (c, r) ∈ persisted staged) as Hc.
      { rewrite Hcs. setoid_rewrite elem_of_persisted. setoid_rewrite lookup_delete_Some. naive_solver. }
      assert ((exists r', (code, r') ∈ persisted staged) <-> upr_isPersist r = true) as Hr.
      { setoid_rewrite elem_of_persisted. rewrite E. naive_solver. }
      destruct (decide (c = code)) as [->|]; destruct (upr_isPersist r); set_solver.
  - destruct (IH staged changes dels) as (staged' & changes' & cs & -> & Hl & Hcs).
    exists staged', changes', cs. split_and!; [done| |].
    + intros c. rewrite Hl. destruct (decide (c ∈ codes)), (decide (c ∈ code :: codes)) as [Hc|Hc]; try done.
      * set_solver.
      * apply elem_of_cons in Hc as [->|]; done.
    + intros c. rewrite Hcs. split; [set_solver|]. intros [[->|Hin]%elem_of_cons (r & Hr)]; [|eauto].
      apply elem_of_persisted in Hr as [Hr _]. congruence.
Qed.

Lemma ValidateClearUserPolicy_error names caller recs e :
  ValidateClearUserPolicy names caller recs = inl e -> e <> RET_SUCCESS.
Proof.
  unfold ValidateClearUserPolicy. generalize (@nil Z). induction names as [|n names IH]; intros acc; cbn; [done|].
  destruct (TransferPermissionToOpcode n) as [c|]; [|by intros [= <-]].
  destruct (recs !! c) as [r|]; [|by intros [= <-]]. split_if; [by intros [= <-]|]. apply IH.
Qed.

Lemma ValidateClearUserPolicy_ok names caller recs codes :
  ValidateClearUserPolicy names caller recs = inr codes ->
  (forall name, name ∈ names -> exists c r, TransferPermissionToOpcode name = Some c /\ c ∈ codes /\
     recs !! c = Some r /\ upr_controllerToken r = caller) /\
  (forall c, c ∈ codes -> exists name, name ∈ names /\ TransferPermissionToOpcode name = Some c).
Proof.
  unfold ValidateClearUserPolicy. intros H.
  assert (exists new, codes = [] ++ new /\ Forall2 (fun name c => TransferPermissionToOpcode name = Some c /\
    exists r, recs !! c = Some r /\ upr_controllerToken r = caller) names new) as (new & -> & Hf).
  { revert H. generalize (@nil Z). induction names as [|n names IH]; intros acc; cbn.
    { intros [= <-]. exists []. by rewrite app_nil_r. }
    destruct (TransferPermissionToOpcode n) as [c|] eqn:T; [|done].
    destruct (recs !! c) as [r|] eqn:R; [|done]. split_if; [done|]. intros (new & -> & Hf)%IH.
    exists (c :: new). split; [by rewrite <- app_assoc|]. constructor; [|done]. breflect. eauto. }
  cbn [app]. split.
  - intros name [i Hi]%list_elem_of_lookup. destruct (Forall2_lookup_l _ _ _ _ _ Hf Hi) as (c & Hc & T & r & R & C).
    exists c, r. split_and!; try done. by eapply list_elem_of_lookup_2.
  - intros c [i Hi]%list_elem_of_lookup. destruct (Forall2_lookup_r _ _ _ _ _ Hf Hi) as (n & Hn & T & _).
    exists n. split; [by eapply list_elem_of_lookup_2|done].
Qed.

Lemma ClearUserPolicy_inv pl caller recs db ret ch next db' :
  recs_wf recs -> consistent recs db -> ClearUserPolicy pl caller recs db = (ret, ch, next, db') ->
  recs_wf next /\ consistent next db' /\ (ret <> RET_SUCCESS -> next = recs /\ ch = []).
Proof.
  intros Hw Hc. unfold ClearUserPolicy. split_if; [by intros [= <- <- <- <-]|].
  destruct (ValidateClearUserPolicy _ _ _) as [e|codes] eqn:V; [by intros [= <- <- <- <-]|].
  destruct (ClearUserPolicy_loop_spec codes recs [] []) as (staged & changes & cs & -> & Hl & Hcs). cbn [app].
  assert (recs_wf staged) as Hws.
  { intros c r Hr. rewrite Hl in Hr. destruct (decide _); [done|]. by apply (Hw c r). }
  assert (forall c r, (c, r) ∈ persisted staged <-> (c, r) ∈ persisted recs /\ c ∉ cs) as Hp.
  { intros c r. rewrite Hcs, !elem_of_persisted, Hl. destruct (decide (c ∈ codes)); [|naive_solver].
    split; [naive_solver|]. intros [[H1 H2] Hn]. destruct Hn. split; [done|]. exists r. by apply elem_of_persisted. }
  destruct (bool_decide _) eqn:Bn.
  - cbn [negb Z.eqb RET_SUCCESS]. intros [= <- <- <- <-]. split_and!; [done| |done]. breflect. rewrite length_map in Bn.
    apply length_zero_iff_nil in Bn as ->. eapply consistent_same; [exact Hc|]. set_solver.
  - destruct (db_DeleteAndInsertValues db _ _) as [e d] eqn:W. destruct (Z.eqb_spec e RET_SUCCESS) as [->|He];
      cbn [negb]; intros [= <- <- <- <-]; split_and!; try done; [|by eapply consistent_failed].
    eapply (consistent_batch recs staged db d cs []); [done..| |constructor|set_solver| |exact W].
    + apply Forall_forall. intros c [_ (r & Hr)]%Hcs. apply elem_of_persisted in Hr as [Hr _]. apply (Hw c r Hr).
    + intros c r. rewrite Hp. set_solver.
Qed.

(** ** Removing a token from every white list. *)
Lemma remove_token_id t r : t ∉ upr_whiteList r -> remove_token t r = r.
Proof.
  intros H. unfold remove_token, set_upr_whiteList. destruct r as [u k w p]. cbn in *. f_equal. set_solver.
Qed.

Lemma remove_token_wf t recs : recs_wf recs -> recs_wf (remove_token t <$> recs).
Proof.
  intros Hw c r Hr. rewrite lookup_fmap in Hr. destruct (recs !! c) as [r0|] eqn:E; [|done]. injection Hr as <-.
  destruct (Hw c r0 E) as (Hc & H1 & H2 & H3 & H4 & H5 & H6 & H7). split; [done|].
  unfold record_wf, remove_token. cbn. split_and!; try done; [set_solver|].
  pose proof (subseteq_size (upr_whiteList r0 ∖ {[t]}) (upr_whiteList r0)). set_solver by lia.
Qed.

Lemma elem_of_touched t recs c r :
  (c, r) ∈ touched_records t recs <-> recs !! c = Some r /\ t ∈ upr_whiteList r.
Proof. unfold touched_records. rewrite list_elem_of_filter, elem_of_map_items. cbn. tauto. Qed.

Lemma touched_NoDup t recs : NoDup (map fst (touched_records t recs)).
Proof.
  unfold touched_records. eapply NoDup_map_sublist; [apply sublist_filter|].
  rewrite map_items_perm. apply NoDup_fst_map_to_list.
Qed.

Lemma RemoveToken_inv t recs db ret next db' :
  recs_wf recs -> consistent recs db -> RemoveTokenFromPolicyWhiteList t recs db = (ret, next, db') ->
  recs_wf next /\ consistent next db' /\ (ret <> RET_SUCCESS -> next = recs).
Proof.
  intros Hw Hc. unfold RemoveTokenFromPolicyWhiteList. split_if; [by intros [= <- <- <-]|].
  destruct (bool_decide _); [by intros [= <- <- <-]|].
  set (ps := filter (fun item => upr_isPersist item.2 = true) (touched_records t recs)).
  assert (forall c r, (c, r) ∈ ps <-> (c, r) ∈ persisted recs /\ t ∈ upr_whiteList r) as Hps.
  { intros c r. unfold ps. rewrite list_elem_of_filter, elem_of_touched, elem_of_persisted. cbn. tauto. }
  assert (map (fun item => policy_del item.1) ps = map policy_del (map fst ps)) as -> by (by rewrite map_map).
  set (items := map (fun i => (i.1, remove_token t i.2)) ps).
  assert (map (fun item => policy_add item.1 (remove_token t item.2)) ps = map (fun i => policy_add i.1 i.2) items)
    as -> by (unfold items; by rewrite map_map).
  assert (forall c r, (c, r) ∈ items <-> exists r0, (c, r0) ∈ ps /\ r = remove_token t r0) as Hit.
  { intros c r. unfold items. rewrite list_elem_of_fmap. split.
    - intros ([c0 r0] & [= -> ->] & Hin). eauto.
    - intros (r0 & Hin & ->). by exists (c, r0). }
  assert (forall c, c ∈ map fst ps <-> exists r, (c, r) ∈ ps) as Hcs.
  { intros c. rewrite list_elem_of_fmap. split; [intros ([c0 r0] & -> & Hin); eauto|]. intros (r & Hin). by exists (c, r). }
  assert (forall c r, (c, r) ∈ persisted (remove_token t <$> recs) <->
    ((c, r) ∈ persisted recs /\ c ∉ map fst ps) \/ (c, r) ∈ items) as Hp.
  { intros c r. rewrite Hit, Hcs. setoid_rewrite Hps. setoid_rewrite elem_of_persisted. rewrite lookup_fmap.
    destruct (recs !! c) as [r0|] eqn:Er; cbn; [|naive_solver].
    destruct (decide (t ∈ upr_whiteList r0)) as [Hin|Hin].
    - split; [|naive_solver]. intros [[= <-] Hpe]. right. exists r0. done.
    - rewrite remove_token_id by done. split; [|naive_solver]. intros [[= <-] Hpe]. left. split; [done|].
      intros (r & [[= <-] _] & Ht). done. }
  destruct (bool_decide _ && bool_decide _) eqn:Bn.
  - cbn [negb Z.eqb RET_SUCCESS]. intros [= <- <- <-]. split_and!; [by apply remove_token_wf| |done]. breflect.
    assert (ps = []) as E0 by (apply length_zero_iff_nil; by rewrite !length_map in *).
    eapply consistent_same; [exact Hc|]. intros c r. rewrite Hp. unfold items. rewrite E0. set_solver.
  - destruct (db_DeleteAndInsertValues db _ _) as [e d] eqn:W. destruct (Z.eqb_spec e RET_SUCCESS) as [->|He];
      cbn [negb]; intros [= <- <- <-]; split_and!; try done; [by apply remove_token_wf| |by eapply consistent_failed].
    eapply (consistent_batch recs (remove_token t <$> recs)); [done..| | | |exact Hp|exact W].
    + apply Forall_forall. intros c [r Hr]%Hcs. apply Hps in Hr as [[Hr _]%elem_of_persisted _]. apply (Hw c r Hr).
    + apply (NoDup_of_map fst). unfold items. rewrite map_map. cbn.
      eapply NoDup_map_sublist; [apply sublist_filter|apply touched_NoDup].
    + intros c r (r0 & Hin & ->)%Hit [_ Hn]. apply Hn, Hcs. eauto.
Qed.

(** ** Setting. *)
Lemma SetUserPolicy_cases pl caller recs db :
  SUPPORT_MANAGE_USER_POLICY = true -> Forall policy_typed pl ->
  (exists e, SetUserPolicy pl caller recs db = (e, [], recs, db) /\ e <> RET_SUCCESS) \/
  exists items next ret db', map fst items = pl /\ NoDup (map snd items) /\
    Forall (fun p => policy_typed p.1 /\ policy_ok caller recs p.1 p.2) items /\
    updated_records caller items recs next /\ (next = ∅ \/ IsUserPolicyRecordsSizeValid next = true) /\
    UpdateUserPolicyDatabase (omap (change_of recs) items) recs next db = (ret, db') /\
    SetUserPolicy pl caller recs db =
      if decide (ret = RET_SUCCESS) then (RET_SUCCESS, omap (change_of recs) items, next, db')
      else (ret, [], recs, db').
Proof.
  intros Hsup Ht. unfold SetUserPolicy. rewrite Hsup. cbn [negb].
  destruct (ValidateSetUserPolicy pl caller recs) as [e|codes] eqn:V.
  { left. exists e. split; [done|]. unfold ValidateSetUserPolicy in V. revert V.
    generalize (∅ : gmap Z bool) ([] : list Z). clear. induction pl as [|p pl IH]; intros m acc; cbn; [done|].
    destruct (GetPermissionBriefDef_opcode _) as [[def code]|]; [|by intros [= <-]].
    repeat (split_if; [by intros [= <-]|]). destruct (m !! code); [split_if; by intros [= <-]|].
    cbv zeta. destruct (_ =? RET_SUCCESS) eqn:Er; cbn [negb].
    - split_if; [by intros [= <-]|]. apply IH.
    - intros [= <-]. by apply Z.eqb_neq in Er. }
  apply ValidateSetUserPolicy_loop_spec in V as (new & -> & Hn & _ & Hf). cbn [app].
  destruct (Forall2_combine _ _ _ Hf) as [Hsnd Hall]. unfold UpdateUserPolicyCache.
  destruct (UpdateUserPolicyCache_loop_spec caller (combine pl new) recs []) as (next & -> & Hu); [by rewrite Hsnd|].
  cbn [app]. destruct (negb (bool_decide (next = ∅)) && negb (IsUserPolicyRecordsSizeValid next)) eqn:Bs.
  { left. exists ERR_OVERSIZE. done. }
  right. destruct (UpdateUserPolicyDatabase _ _ _ _) as [ret db'] eqn:U.
  exists (combine pl new), next, ret, db'. split_and!; try done.
  - clear -Hf. induction Hf as [|p c pl new _ _ IH]; cbn; [done|]. by rewrite IH.
  - by rewrite Hsnd.
  - clear Hu. apply Forall_forall. intros p Hin. split.
    + rewrite Forall_forall in Ht. apply Ht. apply list_elem_of_In in Hin. destruct p as [p c].
      apply in_combine_l in Hin. by apply list_elem_of_In.
    + by apply (proj1 (Forall_forall _ _) Hall).
  - apply andb_false_iff in Bs as [Bs|Bs]; breflect; auto.
  - destruct (Z.eqb_spec ret RET_SUCCESS) as [->|]; cbn [negb]; [by rewrite decide_True|by rewrite decide_False].
Qed.

Lemma SetUserPolicy_inv pl caller recs db ret ch next db' :
  recs_wf recs -> consistent recs db -> is_u32 caller -> Forall policy_typed pl ->
  SetUserPolicy pl caller recs db = (ret, ch, next, db') ->
  recs_wf next /\ consistent next db' /\ (ret <> RET_SUCCESS -> next = recs /\ ch = []).
Proof.
  intros Hw Hc Hca Ht Hs. destruct SUPPORT_MANAGE_USER_POLICY eqn:Hsup.
  2:{ unfold SetUserPolicy in Hs. rewrite Hsup in Hs. by injection Hs as <- <- <- <-. }
  destruct (SetUserPolicy_cases pl caller recs db Hsup Ht) as [(e & E & He)|(items & nx & r & d & H1 & H2 & H3 & H4 & H5 & H6 & E)];
    rewrite Hs in E.
  { by injection E as -> -> -> ->. }
  destruct (UpdateUserPolicyDatabase_consistent _ _ _ _ _ _ _ Hw Hc H2 H4 H3 H6) as [_ Hcd].
  destruct (decide (r = RET_SUCCESS)); injection E as -> -> -> ->; [|done].
  split_and!; [by eapply next_records_wf|done|done].
Qed.

(** ** White-list updates. *)
Lemma row_update_whitelist c r w :
  ToRdbValueBucket (Put FIELD_WHITELIST (TYPE_STRING (SerializeWhiteTokenList w)) ∅) ∪ row_of (c, r) =
  row_of (c, set_upr_whiteList w r).
Proof.
  apply map_eq. intros k. unfold row_of. rewrite lookup_union, !bucket_lookup.
  unfold BuildUserPolicyValue. rewrite !Put_lookup, lookup_empty. cbn [fst snd].
  destruct (String.eqb_spec FIELD_WHITELIST k) as [<-|Hne]; [done|].
  apply (left_id_L None (∪)).
Qed.

Lemma UpdatePolicyWhiteList_inv context recs db ret p next db' :
  recs_wf recs -> consistent recs db -> is_u32 (pwl_tokenId context) ->
  UpdatePolicyWhiteList context recs db = (ret, p, next, db') ->
  recs_wf next /\ consistent next db' /\ (ret <> RET_SUCCESS -> next = recs).
Proof.
  intros Hw Hc Ht. unfold UpdatePolicyWhiteList. split_if; [by intros [= <- <- <- <-]|].
  split_if; [by intros [= <- <- <- <-]|].
  destruct (ValidatePolicyWhiteListUpdateLocked context recs) as [e|r] eqn:V; [by intros [= <- <- <- <-]|].
  cbv zeta. set (w := if pwl_type context =? ADD then _ else _). set (c := pwl_permCode context) in *.
  assert (recs !! c = Some r /\ (forall t, t ∈ w -> is_u32 t) /\
    Z.of_nat (size w) <= USER_POLICY_MAX_LIST_SIZE) as (Er & Hwt & Hws).
  { unfold ValidatePolicyWhiteListUpdateLocked in V. fold c in V. destruct (recs !! c) as [r0|] eqn:Er; [|done].
    destruct (Hw c r0 Er) as (_ & _ & _ & _ & _ & H5 & H6 & _).
    do 2 (split_if_in V; [done|]). unfold w. destruct (pwl_type context =? ADD).
    - case_bool_decide; [done|]. split_if_in V; [done|]. injection V as <-. split_and!; [done|set_solver|].
      breflect. rewrite size_union, size_singleton by set_solver. lia.
    - split_if_in V; [done|]. injection V as <-. split_and!; [done|set_solver|].
      pose proof (subseteq_size (upr_whiteList r0 ∖ {[pwl_tokenId context]}) (upr_whiteList r0)). set_solver by lia. }
  destruct (Hw c r Er) as (Hcr & Hwr).
  assert (recs_wf (<[c := set_upr_whiteList w r]> recs)) as Hwn.
  { apply map_Forall_insert_2; [|done]. split; [done|]. unfold record_wf in *. cbn. tauto. }
  destruct (upr_isPersist r) eqn:P.
  - destruct (db_Modify _ _ _ _) as [e d] eqn:M. apply db_Modify_spec in M.
    destruct (Z.eqb_spec e RET_SUCCESS) as [->|He]; cbn [negb]; intros [= <- <- <- <-]; split_and!; try done.
    + rewrite decide_True in M by done. destruct M as [M _]. unfold consistent. rewrite M, Hc.
      unfold update_rows. rewrite map_map.
      assert (map (fun x => if decide (row_matches (ToRdbPredicates (BuildUserPolicyCondition
          (TransferOpcodeToPermission c))) (row_of x))
          then ToRdbValueBucket (Put FIELD_WHITELIST (TYPE_STRING (SerializeWhiteTokenList w)) ∅) ∪ row_of x
          else row_of x) (persisted recs) =
        map row_of (map (fun i => if decide (i.1 = c) then (i.1, set_upr_whiteList w i.2) else i) (persisted recs))) as ->.
      { rewrite map_map. apply map_ext_in. intros [k x] Hin%list_elem_of_In.
        apply elem_of_persisted in Hin as [Hk _]. destruct (Hw k x Hk) as [Hkr _].
        pose proof (row_matches_code c (k, x) Hcr Hkr) as Hm. cbn in Hm. cbn [fst snd].
        destruct (decide (row_matches _ _)), (decide (k = c)); first [tauto | apply row_update_whitelist]. }
      apply (fmap_Permutation row_of). apply NoDup_Permutation; [|apply persisted_NoDup|].
      * apply (NoDup_of_map fst). rewrite map_map. rewrite (map_ext _ fst) by (intros [k x]; cbn; by case_decide).
        eapply (NoDup_map_sublist fst); [apply sublist_filter|apply NoDup_fst_map_to_list].
      * intros [k x]. rewrite list_elem_of_fmap, elem_of_persisted, lookup_insert_Some. split.
        -- intros ([k0 x0] & E1 & [Hk Hp]%elem_of_persisted). cbn [fst snd] in E1.
           destruct (decide (k0 = c)) as [->|]; injection E1 as -> ->; [|naive_solver].
           assert (x0 = r) as -> by congruence. by split; [left|].
        -- intros [[[<- <-]|[Hne Hk]] Hp].
           ++ exists (c, r). rewrite elem_of_persisted. cbn. by rewrite decide_True.
           ++ exists (k, x). rewrite elem_of_persisted. cbn. by rewrite decide_False.
    + rewrite decide_False in M by done. unfold consistent. by rewrite M.
  - cbn [negb Z.eqb RET_SUCCESS]. intros [= <- <- <- <-]. split_and!; try done.
    eapply consistent_same; [exact Hc|]. intros k x. rewrite !elem_of_persisted, lookup_insert_Some.
    split.
    + intros [[[<- <-]|[Hne Hk]] Hp]; [|done]. cbn in Hp. congruence.
    + intros [Hk Hp]. destruct (decide (c = k)) as [<-|]; [congruence|]. split; [by right|done].
Qed.

(** ** Loading. *)
Definition persistent_part (recs : Records) : Records := filter (fun kv => upr_isPersist kv.2 = true) recs.
Definition volatile_part (recs : Records) : Records := filter (fun kv => upr_isPersist kv.2 = false) recs.

(** A stored record reads back as itself. *)
Lemma LoadPersistedPolicies_item_row recs c r :
  0 <= c < MAX_PERM_SIZE -> record_wf r -> upr_isPersist r = true ->
  LoadPersistedPolicies_item recs (ResultToGenericValues (row_of (c, r))) = <[c := r]> recs.
Proof.
  intros Hc (Hne & _ & Hi & Hl & Hwt & Hws & Hct) Hp. unfold row_of. cbn [fst snd].
  fold (reload (BuildUserPolicyValue (TransferOpcodeToPermission c) r)).
  unfold LoadPersistedPolicies_item, GetString, GetInt. rewrite !reload_lookup.
  destruct (policy_value_lookup (TransferOpcodeToPermission c) r) as (-> & -> & -> & ->).
  assert (u32 (variant_GetInt (reload_value FIELD_CONTROLLER_TOKENID (TYPE_INT (i32 (upr_controllerToken r))))) =
    upr_controllerToken r) as E.
  { change (u32 (i32 (i32 (upr_controllerToken r))) = upr_controllerToken r).
    rewrite !u32_i32. by apply u32_small. }
  cbn [fmap option_fmap option_map]. rewrite E.
  cbn [reload_value ToRdbValue variant_GetString].
  rewrite name_to_opcode, ParseUserList_serialize, ParseWhiteTokenList_serialize by done.
  rewrite bool_decide_false by done. destruct r; cbn in *. by rewrite Hp.
Qed.

Lemma fold_insert_map (items : list (Z * UserPolicyRecord)) : forall m : Records,
  NoDup (map fst items) -> fold_left (fun m i => <[i.1 := i.2]> m) items m = list_to_map items ∪ m.
Proof.
  induction items as [|[c r] items IH]; intros m Hn; cbn [fold_left fst snd]; cbn [map] in Hn; [symmetry; apply (left_id_L ∅ (∪))|].
  apply NoDup_cons in Hn as [Hc Hn]. rewrite IH by done. cbn [list_to_map foldr fst snd].
  rewrite <- insert_union_l. symmetry. apply insert_union_r. by apply not_elem_of_list_to_map_1.
Qed.

Lemma list_to_map_persisted recs items : items ≡ₚ persisted recs -> list_to_map items = persistent_part recs.
Proof.
  intros Hp. assert (NoDup (map fst items)) as Hn.
  { rewrite Hp. eapply (NoDup_map_sublist fst); [apply sublist_filter|apply NoDup_fst_map_to_list]. }
  apply map_eq. intros c. apply option_eq. intros r. unfold persistent_part.
  rewrite <- elem_of_list_to_map by done. rewrite Hp, elem_of_persisted, map_lookup_filter_Some. done.
Qed.

Lemma LoadPersistedPolicies_spec recs0 recs db ret next db' :
  SUPPORT_MANAGE_USER_POLICY = true -> recs_wf recs -> consistent recs db ->
  LoadPersistedPolicies recs0 db = (ret, next, db') ->
  consistent recs db' /\ next = (if decide (ret = RET_SUCCESS) then persistent_part recs ∪ volatile_part recs0 else recs0).
Proof.
  intros Hsup Hw Hc. unfold LoadPersistedPolicies. rewrite Hsup. cbn [negb].
  destruct (db_Find db _ _) as [[e results] d] eqn:F. apply db_Find_spec in F as [Hrows Hres].
  assert (consistent recs d) as Hcd by (unfold consistent; by rewrite Hrows).
  destruct (Z.eqb_spec e RET_SUCCESS) as [->|He]; cbn [negb]; intros [= <- <- <-]; split; try done.
  2:{ by rewrite decide_False. }
  rewrite decide_True by done. destruct (Hres eq_refl) as (rows & Hr & ->).
  assert (select_rows (ToRdbPredicates ∅) (db_rows db ACCESSTOKEN_USER_POLICY) =
          db_rows db ACCESSTOKEN_USER_POLICY) as E.
  { unfold select_rows. apply filter_all. apply Forall_forall. intros row _. constructor. }
  rewrite E, Hc in Hr. apply Permutation_map_inv in Hr as (items & -> & Hitems).
  assert (codes_ok items /\ Forall (fun i => record_wf i.2 /\ upr_isPersist i.2 = true) items) as [Hok Hwf].
  { split; apply Forall_forall; intros [c r]; rewrite <- Hitems; intros [Hl Hp]%elem_of_persisted;
      destruct (Hw c r Hl); done. }
  rewrite filter_all.
  2:{ rewrite map_map. apply Forall_map, Forall_true. intros i Hi. by apply ResultToGenericValues_empty, row_of_nonempty in Hi. }
  fold (volatile_part recs0). generalize (volatile_part recs0). intros m.
  rewrite <- (list_to_map_persisted recs items) by (symmetry; exact Hitems).
  rewrite <- fold_insert_map.
  - rewrite map_map. clear -Hok Hwf PermTableLaws0. revert m. induction items as [|[c r] items IH]; intros m; cbn; [done|].
    apply Forall_cons in Hok as [Hc Hok]. apply Forall_cons in Hwf as [[Hr Hp] Hwf].
    rewrite LoadPersistedPolicies_item_row by done. by apply IH.
  - rewrite <- Hitems. eapply (NoDup_map_sublist fst); [apply sublist_filter|apply NoDup_fst_map_to_list].
Qed.

End Policies.
