(* ===== verification/UserPolicyProps.v ===== *)
(** * What the user-policy manager guarantees

    The records and the database stay consistent over any sequence of operations,
    database failures included; a restart restores exactly the persistent policies;
    a request takes effect user by user and only for the caller that controls the
    policy. *)

From stdpp Require Import base gmap list strings.
From S2P Require Import Prelude AccessTokenTypes TokenId PermissionMap Database UserPolicy UserPolicyTheory.
#[local] Open Scope string_scope.
#[local] Open Scope list_scope.
#[local] Open Scope Z_scope.
#[local] Open Scope cxx_scope.

Section Reachable.
Context {PT : PermTable} {BC : BuildConfig} {S : Type} `{!AtmDb S}.

(** One operation of the manager: the cached records and the database before and
    after, whatever the operation returns.  [policy_restart] is the service starting
    again with an empty cache; it serves requests once the policies are loaded. *)
Inductive policy_step : Records * S -> Records * S -> Prop :=
  | policy_set recs db pl caller ret ch next db' :
      Forall policy_typed pl -> is_u32 caller ->
      SetUserPolicy pl caller recs db = (ret, ch, next, db') -> policy_step (recs, db) (next, db')
  | policy_clear recs db names caller ret ch next db' :
      ClearUserPolicy names caller recs db = (ret, ch, next, db') -> policy_step (recs, db) (next, db')
  | policy_white recs db context ret p next db' :
      is_u32 (pwl_tokenId context) ->
      UpdatePolicyWhiteList context recs db = (ret, p, next, db') -> policy_step (recs, db) (next, db')
  | policy_remove recs db t ret next db' :
      RemoveTokenFromPolicyWhiteList t recs db = (ret, next, db') -> policy_step (recs, db) (next, db')
  | policy_restart recs db next db' :
      LoadPersistedPolicies ∅ db = (RET_SUCCESS, next, db') -> policy_step (recs, db) (next, db').

(** The policy a batch holds for a permission code. *)
Definition requested (pl : list UserPermissionPolicy) (c : Z) : option UserPermissionPolicy :=
  find_if (fun p => bool_decide (TransferPermissionToOpcode (upp_permissionName p) = Some c)) pl.

End Reachable.

Section Properties.
Context {PT : PermTable} `{!PermTableLaws PT} {BC : BuildConfig} {S : Type} `{!AtmDb S}.
Implicit Types (recs next : Records) (db : S).

Lemma persistent_part_spec recs c r :
  persistent_part recs !! c = Some r <-> recs !! c = Some r /\ upr_isPersist r = true.
Proof. unfold persistent_part. by rewrite map_lookup_filter_Some. Qed.

Lemma persistent_part_union_empty recs : persistent_part recs ∪ volatile_part ∅ = persistent_part recs.
Proof. unfold volatile_part. rewrite map_filter_empty. apply (right_id_L ∅ (∪)). Qed.

Lemma persistent_part_inv recs db :
  recs_wf recs -> consistent recs db -> recs_wf (persistent_part recs) /\ consistent (persistent_part recs) db.
Proof.
  intros Hw Hc. split.
  - intros c r [Hl _]%persistent_part_spec. by apply (Hw c r).
  - eapply consistent_same; [exact Hc|]. intros c r. rewrite !elem_of_persisted, persistent_part_spec. tauto.
Qed.

Lemma policy_step_inv recs db next db' :
  SUPPORT_MANAGE_USER_POLICY = true -> policy_step (recs, db) (next, db') ->
  recs_wf recs -> consistent recs db -> recs_wf next /\ consistent next db'.
Proof.
  intros Hsup Hs Hw Hc. inversion Hs; subst.
  - destruct (SetUserPolicy_inv pl caller recs db ret ch next db') as (? & ? & _); done.
  - destruct (ClearUserPolicy_inv names caller recs db ret ch next db') as (? & ? & _); done.
  - destruct (UpdatePolicyWhiteList_inv context recs db ret p next db') as (? & ? & _); done.
  - destruct (RemoveToken_inv t recs db ret next db') as (? & ? & _); done.
  - destruct (LoadPersistedPolicies_spec ∅ recs db RET_SUCCESS next db') as [Hc' ->]; [done..|].
    rewrite decide_True by done. rewrite persistent_part_union_empty. by apply persistent_part_inv.
Qed.

Lemma policy_steps_inv s s' :
  SUPPORT_MANAGE_USER_POLICY = true -> rtc policy_step s s' ->
  recs_wf s.1 /\ consistent s.1 s.2 -> recs_wf s'.1 /\ consistent s'.1 s'.2.
Proof.
  intros Hsup. induction 1 as [|[r1 d1] [r2 d2] s3 Hs _ IH]; [done|]. intros [Hw Hc]. apply IH. cbn in *.
  by eapply policy_step_inv.
Qed.

(** The policy of the batch for a code, by the code the validation resolved. *)
Lemma find_requested caller recs items c :
  Forall (fun p => policy_typed p.1 /\ policy_ok caller recs p.1 p.2) items ->
  requested (map fst items) c = fst <$> find_if (fun p : UserPermissionPolicy * Z => p.2 =? c) items.
Proof.
  unfold requested. induction 1 as [|[p k] items [_ [Hk _]] _ IH]; [done|]. cbn [map find_if fst snd] in *.
  rewrite Hk. destruct (Z.eqb_spec k c) as [->|Hne].
  - by rewrite bool_decide_true.
  - by rewrite bool_decide_false by congruence.
Qed.

(** Who is restricted by the record an update leaves. *)
Lemma next_record_restricts caller p old t u :
  policy_typed p -> (forall r, old = Some r -> record_wf r) ->
  match next_record caller p old with
  | Some r => negb (bool_decide (t ∈ upr_whiteList r)) && bool_decide (u ∈ upr_userList r)
  | None => false
  end = negb (bool_decide (t ∈ upr_whiteList (old_record p old))) &&
        restricted_after u (upp_userPolicyList p) (bool_decide (u ∈ upr_userList (old_record p old))).
Proof.
  intros Ht Hw. unfold next_record.
  assert (NoDup (upr_userList (old_record p old)) /\ Forall is_i32 (upr_userList (old_record p old))) as [Hn Hi].
  { destruct old as [r|]; cbn; [|split; constructor]. destruct (Hw r eq_refl) as (_ & ? & ? & _). done. }
  pose proof (UpdateRestrictedUserList_spec (upp_userPolicyList p) (upr_userList (old_record p old)) ∅ Hn Hi Ht) as Hs.
  destruct (UpdateRestrictedUserList _ _ _) as [ch l]. cbn [snd]. destruct Hs as (_ & _ & Hs & _).
  specialize (Hs u). destruct (decide (l = [])) as [->|Hl].
  - rewrite bool_decide_true by done. destruct (restricted_after _ _ _); [|by rewrite andb_false_r].
    exfalso. by apply (not_elem_of_nil u), Hs.
  - rewrite bool_decide_false by done. cbn [upr_whiteList upr_userList]. f_equal.
    destruct (restricted_after _ _ _); [apply bool_decide_eq_true|apply bool_decide_eq_false]; intuition congruence.
Qed.

Lemma IsPermissionRestricted_eq t u c recs :
  SUPPORT_MANAGE_USER_POLICY = true ->
  IsPermissionRestricted t u c recs =
  match recs !! c with
  | Some r => negb (bool_decide (t ∈ upr_whiteList r)) && bool_decide (u ∈ upr_userList r)
  | None => false
  end.
Proof.
  intros Hsup. unfold IsPermissionRestricted, IsInPolicyWhiteList. rewrite Hsup. cbn [negb].
  destruct (recs !! c) as [r|]; [|done]. destruct (bool_decide (t ∈ _)); [done|]. by destruct (bool_decide (u ∈ _)).
Qed.

(** From an empty policy table, whatever sequence of set, clear, white-list, remove
    and restart operations runs, with whatever database failures, every cached record is
    well formed (a non-empty duplicate-free user list and a white list within
    the size limits, a known permission code) and the database table holds exactly the
    rows of the persistent records. *)
Theorem policy_reachable_inv db0 recs db :
  SUPPORT_MANAGE_USER_POLICY = true -> db_rows db0 ACCESSTOKEN_USER_POLICY = [] ->
  rtc policy_step (∅, db0) (recs, db) -> recs_wf recs /\ consistent recs db.
Proof.
  intros Hsup H0 Hr. apply (policy_steps_inv _ _ Hsup Hr). cbn.
  split; [apply map_Forall_empty|]. unfold consistent. by rewrite H0.
Qed.

(** C26: A restart restores the persistent policies and only them: after any history,
    loading into an empty cache yields the persistent records unchanged, so every
    permission with a persistent policy restricts the same users and tokens as before,
    and no other permission is restricted. *)
Theorem policies_survive_restart db0 recs db next db' :
  SUPPORT_MANAGE_USER_POLICY = true -> db_rows db0 ACCESSTOKEN_USER_POLICY = [] ->
  rtc policy_step (∅, db0) (recs, db) ->
  LoadPersistedPolicies ∅ db = (RET_SUCCESS, next, db') ->
  (forall c r, next !! c = Some r <-> recs !! c = Some r /\ upr_isPersist r = true) /\
  forall t u c, IsPermissionRestricted t u c next =
    IsPolicyPersisted c recs && IsPermissionRestricted t u c recs.
Proof.
  intros Hsup H0 Hr L. destruct (policy_steps_inv _ _ Hsup Hr) as [Hw Hc].
  { cbn. split; [apply map_Forall_empty|]. unfold consistent. by rewrite H0. }
  destruct (LoadPersistedPolicies_spec ∅ recs db RET_SUCCESS next db' Hsup Hw Hc L) as [_ ->].
  rewrite decide_True by done. rewrite persistent_part_union_empty. split; [apply persistent_part_spec|].
  intros t u c. rewrite !IsPermissionRestricted_eq by done. unfold IsPolicyPersisted. rewrite Hsup. cbn [negb].
  destruct (persistent_part recs !! c) as [r|] eqn:P.
  - apply persistent_part_spec in P as [-> ->]. done.
  - destruct (recs !! c) as [r|] eqn:R; [|done]. destruct (upr_isPersist r) eqn:Pr; [|done].
    assert (persistent_part recs !! c = Some r) by (by apply persistent_part_spec). congruence.
Qed.

(** A successful request takes effect permission by permission and user by user: for a
    permission the batch names, the last entry for a user decides whether the user is
    restricted, users without an entry keep their restriction and white-listed tokens stay
    exempt; other permissions are untouched.  A failed request changes no record and
    reports no change. *)
Theorem SetUserPolicy_spec pl caller recs db ret ch next db' :
  SUPPORT_MANAGE_USER_POLICY = true -> recs_wf recs -> Forall policy_typed pl ->
  SetUserPolicy pl caller recs db = (ret, ch, next, db') ->
  if decide (ret = RET_SUCCESS) then
    (forall c, requested pl c = None -> next !! c = recs !! c) /\
    (forall c p t u, requested pl c = Some p ->
       IsPermissionRestricted t u c next =
       negb (bool_decide (t ∈ upr_whiteList (old_record p (recs !! c)))) &&
       restricted_after u (upp_userPolicyList p) (bool_decide (u ∈ upr_userList (old_record p (recs !! c)))))
  else next = recs /\ ch = [].
Proof.
  intros Hsup Hw Ht Hs.
  destruct (SetUserPolicy_cases pl caller recs db Hsup Ht)
    as [(e & E & He)|(items & nx & r & d & <- & H2 & H3 & H4 & H5 & H6 & E)]; rewrite Hs in E.
  { injection E as -> -> -> ->. by rewrite decide_False. }
  destruct (decide (r = RET_SUCCESS)); injection E as -> -> -> ->; [|by rewrite decide_False].
  rewrite decide_True by done. split.
  - intros c. rewrite (find_requested _ _ _ _ H3), H4. by destruct (find_if _ items).
  - intros c p t u. rewrite (find_requested _ _ _ _ H3), IsPermissionRestricted_eq, H4 by done.
    destruct (find_if _ items) as [[p' k]|] eqn:F; [|done]. cbn. intros [= ->].
    apply find_code_elem in F as [Hin <-]. rewrite Forall_forall in H3. destruct (H3 _ Hin) as [Hty _].
    apply next_record_restricts; [done|]. intros r0 Hr0. apply (Hw _ _ Hr0).
Qed.

(** Clearing succeeds only as a whole and only for policies the caller controls: on
    success the named policies are gone and the others untouched; on failure no record
    changes and no change is reported. *)
Theorem ClearUserPolicy_spec names caller recs db ret ch next db' :
  SUPPORT_MANAGE_USER_POLICY = true ->
  ClearUserPolicy names caller recs db = (ret, ch, next, db') ->
  if decide (ret = RET_SUCCESS) then
    (forall name, name ∈ names -> exists c r, TransferPermissionToOpcode name = Some c /\
       recs !! c = Some r /\ upr_controllerToken r = caller /\ next !! c = None) /\
    (forall c, (forall name, name ∈ names -> TransferPermissionToOpcode name <> Some c) -> next !! c = recs !! c)
  else next = recs /\ ch = [].
Proof.
  intros Hsup. unfold ClearUserPolicy. rewrite Hsup. cbn [negb].
  destruct (ValidateClearUserPolicy names caller recs) as [e|codes] eqn:V.
  { intros [= <- <- <- <-]. rewrite decide_False; [done|]. intros ->. by apply ValidateClearUserPolicy_error in V. }
  apply ValidateClearUserPolicy_ok in V as [V1 V2].
  destruct (ClearUserPolicy_loop_spec codes recs [] []) as (staged & changes & cs & -> & Hl & _). cbn [app].
  destruct (if bool_decide _ then _ else _) as [e d]. destruct (Z.eqb_spec e RET_SUCCESS) as [->|He]; cbn [negb];
    intros [= <- <- <- <-]; [rewrite decide_True by done|by rewrite decide_False].
  split.
  - intros name Hn. destruct (V1 name Hn) as (c & r & Hc & Hcs & Hr & Hct). exists c, r. split_and!; try done.
    by rewrite Hl, decide_True.
  - intros c Hc. rewrite Hl, decide_False; [done|]. intros (name & Hn & E)%V2. by apply (Hc name Hn).
Qed.

(** C32: A policy belongs to the token that set it: no request by another token, to set,
    to clear or to edit its white list, changes its record. *)
Theorem policy_controller_exclusive c r recs db :
  SUPPORT_MANAGE_USER_POLICY = true -> recs !! c = Some r ->
  (forall pl caller ret ch next db', Forall policy_typed pl -> caller <> upr_controllerToken r ->
     SetUserPolicy pl caller recs db = (ret, ch, next, db') -> next !! c = Some r) /\
  (forall names caller ret ch next db', caller <> upr_controllerToken r ->
     ClearUserPolicy names caller recs db = (ret, ch, next, db') -> next !! c = Some r) /\
  (forall context ret p next db', pwl_callerToken context <> upr_controllerToken r ->
     UpdatePolicyWhiteList context recs db = (ret, p, next, db') -> next !! c = Some r).
Proof.
  intros Hsup Hr. split_and!.
  - intros pl caller ret ch next db' Ht Hne Hs.
    destruct (SetUserPolicy_cases pl caller recs db Hsup Ht)
      as [(e & E & He)|(items & nx & r' & d & <- & H2 & H3 & H4 & H5 & H6 & E)]; rewrite Hs in E.
    { by injection E as -> -> -> ->. }
    destruct (decide (r' = RET_SUCCESS)); injection E as -> -> -> ->; [|done].
    rewrite H4. destruct (find_if _ items) as [[p k]|] eqn:F; [|done]. exfalso.
    apply find_code_elem in F as [Hin <-]. rewrite Forall_forall in H3. destruct (H3 _ Hin) as [_ (_ & _ & Hok)].
    destruct (Hok r Hr). congruence.
  - intros names caller ret ch next db' Hne. unfold ClearUserPolicy. rewrite Hsup. cbn [negb].
    destruct (ValidateClearUserPolicy names caller recs) as [e|codes] eqn:V; [by intros [= <- <- <- <-]|].
    apply ValidateClearUserPolicy_ok in V as [V1 V2].
    destruct (ClearUserPolicy_loop_spec codes recs [] []) as (staged & changes & cs & -> & Hl & _). cbn [app].
    destruct (if bool_decide _ then _ else _) as [e d]. split_if; intros [= <- <- <- <-]; [done|].
    rewrite Hl, decide_False; [done|]. intros (name & Hn & E')%V2.
    destruct (V1 name Hn) as (c' & r' & Hc & Hcs & Hr' & Hct). congruence.
  - intros context ret p next db' Hne. unfold UpdatePolicyWhiteList. rewrite Hsup. cbn [negb].
    split_if; [by intros [= <- <- <- <-]|]. cbv zeta.
    destruct (ValidatePolicyWhiteListUpdateLocked context recs) as [e|r'] eqn:V; [by intros [= <- <- <- <-]|].
    destruct (if upr_isPersist r' then _ else _) as [e d]. split_if; intros [= <- <- <- <-]; [done|].
    rewrite lookup_insert_ne; [done|]. intros <-. unfold ValidatePolicyWhiteListUpdateLocked in V. rewrite Hr in V.
    split_if_in V; [done|]. breflect. congruence.
Qed.

End Properties.

(** ** A concrete history: token 5 restricts the camera for user 100, persistently,
    and the location for users 100 and 101, until the next restart. *)
#[local] Existing Instance sample_table.
#[local] Existing Instance sample_table_laws.
#[local] Existing Instance full_config.

Definition sample_policies : list UserPermissionPolicy :=
  [ mkUserPermissionPolicy CAMERA [mkUserPolicy 100 true] true;
    mkUserPermissionPolicy LOCATION [mkUserPolicy 100 true; mkUserPolicy 101 true] false ].
Definition sample_db : MemRdb := mkMemRdb ∅ [].
Definition sample_set : Z * list UserPolicyChange * Records * MemRdb := SetUserPolicy sample_policies 5 ∅ sample_db.

Lemma sample_policies_typed : Forall policy_typed sample_policies.
Proof. repeat constructor; cbn; lia. Qed.

Lemma sample_set_eq : SetUserPolicy sample_policies 5 ∅ sample_db =
  (sample_set.1.1.1, sample_set.1.1.2, sample_set.1.2, sample_set.2).
Proof. unfold sample_set. by destruct (SetUserPolicy _ _ _ _) as [[[? ?] ?] ?]. Qed.

Lemma sample_step : policy_step (∅, sample_db) (sample_set.1.2, sample_set.2).
Proof. eapply policy_set; [apply sample_policies_typed| |apply sample_set_eq]. unfold is_u32. lia. Qed.

Lemma policy_reachable_inv_witness :
  size sample_set.1.2 = 2%nat /\ recs_wf sample_set.1.2 /\ consistent sample_set.1.2 sample_set.2.
Proof.
  split; [vm_compute; reflexivity|].
  apply (policy_reachable_inv sample_db); [reflexivity|reflexivity|]. apply rtc_once, sample_step.
Defined.

Lemma policies_survive_restart_witness :
  exists next db', LoadPersistedPolicies ∅ sample_set.2 = (RET_SUCCESS, next, db') /\
    IsPermissionRestricted 7 100 0 next = true /\ IsPermissionRestricted 7 100 1 next = false /\
    IsPermissionRestricted 7 100 1 sample_set.1.2 = true.
Proof.
  destruct (LoadPersistedPolicies ∅ sample_set.2) as [[ret next] db'] eqn:L. exists next, db'.
  assert (ret = RET_SUCCESS) as ->.
  { apply (f_equal (fun x => x.1.1)) in L. vm_compute in L. symmetry. exact L. }
  destruct (policies_survive_restart sample_db sample_set.1.2 sample_set.2 next db') as [_ H].
  - reflexivity.
  - reflexivity.
  - apply rtc_once, sample_step.
  - exact L.
  - rewrite !H. repeat split; vm_compute; reflexivity.
Defined.

Lemma SetUserPolicy_spec_witness :
  IsPermissionRestricted 7 101 1 sample_set.1.2 = true /\ sample_set.1.2 !! 4 = None.
Proof.
  pose proof (SetUserPolicy_spec (BC := full_config) sample_policies 5 ∅ sample_db _ _ _ _ ltac:(reflexivity)
    ltac:(apply map_Forall_empty) sample_policies_typed sample_set_eq) as H.
  rewrite decide_True in H by (vm_compute; reflexivity). destruct H as [H1 H2]. split.
  - erewrite H2; [|vm_compute; reflexivity]. vm_compute. reflexivity.
  - rewrite H1 by (vm_compute; reflexivity). apply lookup_empty.
Defined.

Lemma ClearUserPolicy_spec_witness :
  exists ch next db', ClearUserPolicy [CAMERA] 5 sample_set.1.2 sample_set.2 = (RET_SUCCESS, ch, next, db') /\
    next !! 1 = sample_set.1.2 !! 1.
Proof.
  destruct (ClearUserPolicy [CAMERA] 5 sample_set.1.2 sample_set.2) as [[[ret ch] next] db'] eqn:C.
  exists ch, next, db'. assert (ret = RET_SUCCESS) as ->.
  { apply (f_equal (fun x => x.1.1.1)) in C. vm_compute in C. symmetry. exact C. }
  split; [reflexivity|].
  pose proof (ClearUserPolicy_spec (BC := full_config) [CAMERA] 5 sample_set.1.2 sample_set.2 _ _ _ _ ltac:(reflexivity) C) as H.
  rewrite decide_True in H by reflexivity. apply H. intros name Hn%list_elem_of_singleton. subst name.
  vm_compute. discriminate.
Defined.

Lemma policy_controller_exclusive_witness :
  exists r, sample_set.1.2 !! 0 = Some r /\
    (ClearUserPolicy [CAMERA] 6 sample_set.1.2 sample_set.2).1.2 !! 0 = Some r.
Proof.
  set (r := mkUserPolicyRecord [100] 5 ∅ true). exists r.
  assert (sample_set.1.2 !! 0 = Some r) as Hr by (vm_compute; reflexivity). split; [exact Hr|].
  destruct (policy_controller_exclusive (BC := full_config) 0 r sample_set.1.2 sample_set.2 ltac:(reflexivity) Hr) as (_ & H & _).
  destruct (ClearUserPolicy [CAMERA] 6 sample_set.1.2 sample_set.2) as [[[ret ch] next] db'] eqn:C.
  cbn [fst snd]. apply (H [CAMERA] 6 ret ch next db'); [discriminate|exact C].
Defined.
