(* ===== verification/ToggleManager.v ===== *)
(** * Permission request toggles

    services/accesstokenmanager/main/cpp/src/permission/permission_request_toggle_manager.cpp:
    per user and permission, and per sub-profile where the build has them, whether the
    permission dialog may be shown.  The manager keeps no state of its own: the table
    holds the toggles that differ from the default.  The account service is a
    parameter. *)

From stdpp Require Import base gmap list strings.
From S2P Require Import Prelude AccessTokenTypes PermissionMap Validator Database.
#[local] Open Scope string_scope.
#[local] Open Scope list_scope.
#[local] Open Scope Z_scope.

Definition APP_TRACKING_CONSENT : string := "ohos.permission.APP_TRACKING_CONSENT".
Definition LEGACY_SUBPROFILE_ID : Z := -1.

(** [OsAccountManagerLite::GetOsAccountLocalIdForSubProfile]: its return code and the
    local user id it writes. *)
Class OsAccount := {
  ERR_OS_ACCOUNT_SUBPROFILE_NOT_FOUND : Z;
  GetOsAccountLocalIdForSubProfile : Z -> Z * Z;
}.

(** [AccessTokenInfoUtils::GenerateAddInfoToVec] and [GenerateDelInfoToVec]. *)
Definition GenerateAddInfoToVec (type : AtmDataType) (addValues : list GenericValues) (addInfoVec : list AddInfo)
    : list AddInfo := addInfoVec ++ [mkAddInfo type addValues].
Definition GenerateDelInfoToVec (type : AtmDataType) (delValue : GenericValues) (delInfoVec : list DelInfo)
    : list DelInfo := delInfoVec ++ [mkDelInfo type delValue].

Definition GetDefaultToggleStatus (permissionName : string) : Z :=
  if String.eqb permissionName APP_TRACKING_CONSENT then CLOSED else OPEN.

Definition GetToggleStatusFromRecord (record : GenericValues) : Z + Z :=
  let storedStatus := GetInt FIELD_REQUEST_TOGGLE_STATUS record in
  if (storedStatus <? 0) || negb (IsToggleStatusValid (u32 storedStatus)) then inl ERR_DATABASE_OPERATE_FAILED
  else inr (u32 storedStatus).

Definition toggle_condition (userID : Z) (permissionName : string) (subProfileId : Z) : GenericValues :=
  Put FIELD_SUB_PROFILE_ID (TYPE_INT subProfileId) (
  Put FIELD_PERMISSION_NAME (TYPE_STRING permissionName) (
  Put FIELD_USER_ID (TYPE_INT userID) ∅)).

(** The loop of [FindPermRequestToggleStatusFromDb]. *)
Fixpoint find_toggle_loop (records : list GenericValues) (subProfileId legacyStatus : Z) : Z + Z :=
  match records with
  | [] => inr legacyStatus
  | item :: rest =>
      let currentSubProfileId := GetInt FIELD_SUB_PROFILE_ID item in
      match GetToggleStatusFromRecord item with
      | inl ret => inl ret
      | inr currentStatus =>
          if currentSubProfileId =? subProfileId then inr currentStatus
          else find_toggle_loop rest subProfileId
                 (if currentSubProfileId =? LEGACY_SUBPROFILE_ID then currentStatus else legacyStatus)
      end
  end.

Section ToggleManager.
Context {PT : PermTable} {BC : BuildConfig} {OA : OsAccount} {S : Type} `{!AtmDb S}.

Definition ValidateSubProfileIdForToggle (userID subProfileId : Z) : Z :=
  if subProfileId <? 0 then RET_SUCCESS
  else
    let '(ret, localUserId) := GetOsAccountLocalIdForSubProfile subProfileId in
    if ret =? ERR_OS_ACCOUNT_SUBPROFILE_NOT_FOUND then ERR_PERMISSION_REQUEST_TOGGLE_SUBPROFILE_NOT_EXIST
    else if negb (ret =? ERR_OK) then ERR_SERVICE_ABNORMAL
    else if localUserId =? userID then RET_SUCCESS else ERR_PERMISSION_REQUEST_TOGGLE_SUBPROFILE_NOT_EXIST.

Definition ValidatePermissionForToggle (permissionName : string) (userID : Z) : Z :=
  if negb (IsUserIdValid userID) || negb (IsPermissionNameValid permissionName) then ERR_PARAM_INVALID
  else if negb (IsDefinedPermissionInner permissionName) then ERR_PERMISSION_NOT_EXIST
  else if negb (IsUserGrantPermission permissionName) then ERR_PARAM_INVALID
  else RET_SUCCESS.

Definition FindPermRequestToggleStatusRecordsFromDb (userID : Z) (permissionName : string) (subProfileId : Z)
    (queryAllSubProfileRecords : bool) (db : S) : Z * list GenericValues * S :=
  let conditionValue :=
    Put FIELD_PERMISSION_NAME (TYPE_STRING permissionName) (Put FIELD_USER_ID (TYPE_INT userID) ∅) in
  let conditionValue :=
    if negb queryAllSubProfileRecords && (LEGACY_SUBPROFILE_ID <? subProfileId)
    then Put FIELD_SUB_PROFILE_ID (TYPE_INT subProfileId) conditionValue else conditionValue in
  db_Find db ACCESSTOKEN_PERMISSION_REQUEST_TOGGLE_STATUS conditionValue.

Definition ValidateStorageModeConflict (userID : Z) (permissionName : string) (subProfileId : Z) (db : S) : Z * S :=
  let '(ret, records, db') :=
    FindPermRequestToggleStatusRecordsFromDb userID permissionName LEGACY_SUBPROFILE_ID false db in
  if negb (ret =? RET_SUCCESS) then (ret, db')
  else
    let targetSubProfileId := if 0 <=? subProfileId then LEGACY_SUBPROFILE_ID else 0 in
    (if existsb (fun item =>
          let recordSubProfileId := GetInt FIELD_SUB_PROFILE_ID item in
          if 0 <=? subProfileId then recordSubProfileId =? targetSubProfileId
          else targetSubProfileId <=? recordSubProfileId) records
     then ERR_PERMISSION_REQUEST_TOGGLE_STORAGE_MODE_CONFLICT else RET_SUCCESS, db').

Definition AddPermRequestToggleStatusToDb (userID : Z) (permissionName : string) (subProfileId status : Z) (db : S)
    : Z * S :=
  let condition := toggle_condition userID permissionName subProfileId in
  let delInfoVec := GenerateDelInfoToVec ACCESSTOKEN_PERMISSION_REQUEST_TOGGLE_STATUS condition [] in
  let condition := Put FIELD_REQUEST_TOGGLE_STATUS (TYPE_INT (i32 status)) condition in
  let addInfoVec := GenerateAddInfoToVec ACCESSTOKEN_PERMISSION_REQUEST_TOGGLE_STATUS [condition] [] in
  db_DeleteAndInsertValues db delInfoVec addInfoVec.

Definition DeletePermRequestToggleStatusFromDb (userID : Z) (permissionName : string) (subProfileId : Z) (db : S)
    : Z * S :=
  let condition := toggle_condition userID permissionName subProfileId in
  let delInfoVec := GenerateDelInfoToVec ACCESSTOKEN_PERMISSION_REQUEST_TOGGLE_STATUS condition [] in
  db_DeleteAndInsertValues db delInfoVec [].

(** The sub-profile a request addresses, or the error of its validation. *)
Definition toggle_subprofile (userID subProfileId : Z) : Z + Z :=
  if ACCESS_TOKEN_SUPPORT_SUBPROFILE then
    let subProfileId := if subProfileId <? 0 then LEGACY_SUBPROFILE_ID else subProfileId in
    let ret := ValidateSubProfileIdForToggle userID subProfileId in
    if negb (ret =? RET_SUCCESS) then inl ret else inr subProfileId
  else inr LEGACY_SUBPROFILE_ID.

Definition SetPermissionRequestToggleStatus (permissionName : string) (status userID subProfileId : Z) (db : S)
    : Z * S :=
  let ret := ValidatePermissionForToggle permissionName userID in
  if negb (ret =? RET_SUCCESS) then (ret, db)
  else if negb (IsToggleStatusValid status) then (ERR_PARAM_INVALID, db)
  else
    match toggle_subprofile userID subProfileId with
    | inl ret => (ret, db)
    | inr subProfileId =>
        let '(ret, db1) :=
          if ACCESS_TOKEN_SUPPORT_SUBPROFILE then ValidateStorageModeConflict userID permissionName subProfileId db
          else (RET_SUCCESS, db) in
        if negb (ret =? RET_SUCCESS) then (ret, db1)
        else
          let defaultStatus := GetDefaultToggleStatus permissionName in
          if status =? defaultStatus
          then DeletePermRequestToggleStatusFromDb userID permissionName subProfileId db1
          else AddPermRequestToggleStatusToDb userID permissionName subProfileId status db1
    end.

Definition FindPermRequestToggleStatusFromDb (userID : Z) (permissionName : string) (subProfileId : Z) (db : S)
    : (Z + Z) * S :=
  let defaultStatus := GetDefaultToggleStatus permissionName in
  let '(ret, records, db') := FindPermRequestToggleStatusRecordsFromDb userID permissionName subProfileId
      (negb (subProfileId =? LEGACY_SUBPROFILE_ID)) db in
  if negb (ret =? RET_SUCCESS) then (inl ret, db')
  else
    match records with
    | [] => (inr defaultStatus, db')
    | record0 :: _ =>
        if subProfileId =? LEGACY_SUBPROFILE_ID then
          if (1 <? Z.of_nat (length records)) || negb (GetInt FIELD_SUB_PROFILE_ID record0 =? LEGACY_SUBPROFILE_ID)
          then (inl ERR_PERMISSION_REQUEST_TOGGLE_LEGACY_QUERY_CONFLICT, db')
          else (GetToggleStatusFromRecord record0, db')
        else (find_toggle_loop records subProfileId defaultStatus, db')
    end.

Definition GetPermissionRequestToggleStatus (permissionName : string) (userID subProfileId : Z) (db : S)
    : (Z + Z) * S :=
  let ret := ValidatePermissionForToggle permissionName userID in
  if negb (ret =? RET_SUCCESS) then (inl ret, db)
  else match toggle_subprofile userID subProfileId with
       | inl ret => (inl ret, db)
       | inr subProfileId => FindPermRequestToggleStatusFromDb userID permissionName subProfileId db
       end.

End ToggleManager.

(** ** The table as a map.

    The abstract state is a partial map from user, permission and sub-profile to the
    stored status. *)
Abbreviation ToggleKey := (Z * string * Z)%type.
Abbreviation Toggles := (gmap ToggleKey Z).

Definition toggle_row (item : ToggleKey * Z) : Row :=
  let '((u, n, s), status) := item in
  ToRdbValueBucket (Put FIELD_REQUEST_TOGGLE_STATUS (TYPE_INT (i32 status)) (toggle_condition u n s)).

(** The status of a user, permission and sub-profile: the stored one, or the one stored
    for the whole user, or the default. *)
Definition toggle_status (T : Toggles) (u : Z) (n : string) (s : Z) : Z :=
  default (default (GetDefaultToggleStatus n) (T !! (u, n, LEGACY_SUBPROFILE_ID))) (T !! (u, n, s)).

Definition toggle_update (u : Z) (n : string) (s status : Z) (T : Toggles) : Toggles :=
  if status =? GetDefaultToggleStatus n then delete (u, n, s) T else <[(u, n, s) := status]> T.

(** ** Rows and conditions. *)
Definition user_condition (u : Z) (n : string) : GenericValues :=
  Put FIELD_PERMISSION_NAME (TYPE_STRING n) (Put FIELD_USER_ID (TYPE_INT u) ∅).

Definition toggle_record (item : ToggleKey * Z) : GenericValues := ResultToGenericValues (toggle_row item).

Lemma toggle_row_lookup u n s st :
  toggle_row ((u, n, s), st) !! FIELD_USER_ID = Some (VInt u) /\
  toggle_row ((u, n, s), st) !! FIELD_PERMISSION_NAME = Some (VString n) /\
  toggle_row ((u, n, s), st) !! FIELD_SUB_PROFILE_ID = Some (VInt s) /\
  toggle_row ((u, n, s), st) !! FIELD_REQUEST_TOGGLE_STATUS = Some (VInt (i32 st)).
Proof.
  unfold toggle_row, ToRdbValueBucket, toggle_condition. rewrite !map_lookup_imap, !Put_lookup. done.
Qed.

Lemma user_condition_matches u n u' n' s st :
  row_matches (ToRdbPredicates (user_condition u n)) (toggle_row ((u', n', s), st)) <-> u' = u /\ n' = n.
Proof.
  rewrite row_matches_predicates. unfold user_condition. rewrite !map_Forall_Put by done.
  destruct (toggle_row_lookup u' n' s st) as (-> & -> & _). cbn. split; [|by intros [-> ->]].
  intros ([= ->] & [= ->] & _). done.
Qed.

Lemma toggle_condition_matches u n s u' n' s' st :
  row_matches (ToRdbPredicates (toggle_condition u n s)) (toggle_row ((u', n', s'), st)) <-> (u', n', s') = (u, n, s).
Proof.
  rewrite row_matches_predicates. unfold toggle_condition. rewrite !map_Forall_Put by done.
  destruct (toggle_row_lookup u' n' s' st) as (-> & -> & -> & _). cbn. split; [|by intros [= -> -> ->]].
  intros ([= ->] & [= ->] & [= ->] & _). done.
Qed.

Lemma select_user_rows u n items :
  select_rows (ToRdbPredicates (user_condition u n)) (map toggle_row items) =
  map toggle_row (filter (fun i : ToggleKey * Z => i.1.1 = (u, n)) items).
Proof.
  unfold select_rows. induction items as [|[[[u' n'] s'] st'] items IH]; [reflexivity|]. cbn [map].
  rewrite !filter_cons. pose proof (user_condition_matches u n u' n' s' st') as Hm.
  destruct (decide (row_matches _ _)) as [M|M], (decide (_ = _)) as [H|H].
  - cbn [map]. by rewrite IH.
  - exfalso. apply H. apply Hm in M as [-> ->]. reflexivity.
  - exfalso. apply M, Hm. injection H. tauto.
  - exact IH.
Qed.

Lemma delete_toggle_rows u n s items :
  delete_rows (ToRdbPredicates (toggle_condition u n s)) (map toggle_row items) =
  map toggle_row (filter (fun i : ToggleKey * Z => i.1 <> (u, n, s)) items).
Proof.
  unfold delete_rows. induction items as [|[[[u' n'] s'] st'] items IH]; [reflexivity|]. cbn [map].
  rewrite !filter_cons. pose proof (toggle_condition_matches u n s u' n' s' st') as Hm. cbn [fst].
  destruct (decide (~ row_matches _ _)) as [M|M], (decide (_ <> _)) as [H|H].
  - cbn [map]. by rewrite IH.
  - exfalso. apply H. intros E. by apply M, Hm.
  - exfalso. apply M. intros E. by apply H, Hm.
  - exact IH.
Qed.

Lemma toggle_record_lookup u n s st :
  is_i32 s -> st = 0 \/ st = 1 ->
  GetInt FIELD_SUB_PROFILE_ID (toggle_record ((u, n, s), st)) = s /\
  GetToggleStatusFromRecord (toggle_record ((u, n, s), st)) = inr st.
Proof.
  intros Hs Hst. destruct (toggle_row_lookup u n s st) as (_ & _ & E1 & E2).
  unfold GetToggleStatusFromRecord, GetInt, toggle_record, ResultToGenericValues.
  rewrite !lookup_fmap, E1, E2. cbn [fmap option_fmap option_map variant_GetInt].
  rewrite i32_small by done. split; [done|]. by destruct Hst as [-> | ->].
Qed.

Lemma toggle_row_nonempty item : toggle_row item <> ∅.
Proof.
  destruct item as [[[u n] s] st]. intros E.
  destruct (toggle_row_lookup u n s st) as [H _]. rewrite E, lookup_empty in H. discriminate H.
Qed.

Lemma toggle_record_nonempty item : toggle_record item <> ∅.
Proof. unfold toggle_record. rewrite ResultToGenericValues_empty. apply toggle_row_nonempty. Qed.

Lemma map_to_list_delete_filter (T : Toggles) k :
  map_to_list (delete k T) ≡ₚ filter (fun i => i.1 <> k) (map_to_list T).
Proof.
  apply NoDup_Permutation; [apply NoDup_map_to_list|apply NoDup_filter, NoDup_map_to_list|].
  intros [k' v]. rewrite list_elem_of_filter, !elem_of_map_to_list, lookup_delete_Some. cbn. naive_solver.
Qed.

(** The statuses a search over the rows of one user and permission may return. *)
Lemma find_toggle_loop_spec u n sub items : forall legacy,
  Forall (fun i : ToggleKey * Z => exists s st, i = ((u, n, s), st) /\ is_i32 s /\ (st = 0 \/ st = 1)) items ->
  (exists st, ((u, n, sub), st) ∈ items /\ find_toggle_loop (map toggle_record items) sub legacy = inr st) \/
  (forall st, ((u, n, sub), st) ∉ items) /\
  ((exists st, ((u, n, LEGACY_SUBPROFILE_ID), st) ∈ items /\
      find_toggle_loop (map toggle_record items) sub legacy = inr st) \/
   (forall st, ((u, n, LEGACY_SUBPROFILE_ID), st) ∉ items) /\
   find_toggle_loop (map toggle_record items) sub legacy = inr legacy).
Proof.
  induction items as [|i items IH]; intros legacy Hi; cbn [map find_toggle_loop].
  { right. split; [set_solver|]. right. split; [set_solver|done]. }
  apply Forall_cons in Hi as [(s & st & -> & Hs & Hst) Hi].
  destruct (toggle_record_lookup u n s st Hs Hst) as [-> ->].
  destruct (Z.eqb_spec s sub) as [->|Hne]; [left; exists st; split; [by left|done]|].
  destruct (IH (if s =? LEGACY_SUBPROFILE_ID then st else legacy) Hi) as
    [(st' & Hin & ->)|(Hn & [(st' & Hin & ->)|(Hn' & ->)])].
  - left. exists st'. split; [by right|done].
  - right. split; [set_solver|]. left. exists st'. split; [by right|done].
  - right. split; [set_solver|]. destruct (Z.eqb_spec s LEGACY_SUBPROFILE_ID) as [->|Hl].
    + left. exists st. split; [by left|done].
    + right. split; [set_solver|done].
Qed.

Section Refinement.
Context {PT : PermTable} {BC : BuildConfig} {OA : OsAccount} {S : Type} `{!AtmDb S}.
Implicit Types (T : Toggles) (db : S).

(** Only valid statuses other than the default are stored, under the legacy id or a
    sub-profile, and never under both for the same user and permission; without
    sub-profiles, only under the legacy id. *)
Definition toggles_wf T : Prop :=
  (forall u n s st, T !! (u, n, s) = Some st ->
     LEGACY_SUBPROFILE_ID <= s < 2 ^ 31 /\ (st = 0 \/ st = 1) /\ st <> GetDefaultToggleStatus n /\
     (ACCESS_TOKEN_SUPPORT_SUBPROFILE = false -> s = LEGACY_SUBPROFILE_ID)) /\
  forall u n s, is_Some (T !! (u, n, LEGACY_SUBPROFILE_ID)) -> is_Some (T !! (u, n, s)) -> s = LEGACY_SUBPROFILE_ID.

Definition holds_toggles T db : Prop :=
  db_rows db ACCESSTOKEN_PERMISSION_REQUEST_TOGGLE_STATUS ≡ₚ map toggle_row (map_to_list T).

(** The rows of a user and permission, in some order. *)
Lemma find_records_spec T db u n s all e records db' :
  toggles_wf T -> holds_toggles T db -> (all = true \/ s = LEGACY_SUBPROFILE_ID) ->
  FindPermRequestToggleStatusRecordsFromDb u n s all db = (e, records, db') ->
  holds_toggles T db' /\
  (e = RET_SUCCESS -> exists items, records = map toggle_record items /\ NoDup items /\
     (forall i, i ∈ items <-> exists s st, i = ((u, n, s), st) /\ T !! (u, n, s) = Some st) /\
     Forall (fun i : ToggleKey * Z => exists s st, i = ((u, n, s), st) /\ is_i32 s /\ (st = 0 \/ st = 1)) items).
Proof.
  intros Hw Hh Hall F. unfold FindPermRequestToggleStatusRecordsFromDb in F.
  assert (negb all && (LEGACY_SUBPROFILE_ID <? s) = false) as E by (by destruct Hall as [-> | ->]; [|destruct all]).
  rewrite E in F. fold (user_condition u n) in F. apply db_Find_spec in F as [Hrows Hres]. unfold holds_toggles.
  split; [by rewrite Hrows|]. intros He. destruct (Hres He) as (rows & Hr & ->).
  unfold holds_toggles in Hh. unfold select_rows in Hr. rewrite Hh in Hr.
  fold (select_rows (ToRdbPredicates (user_condition u n)) (map toggle_row (map_to_list T))) in Hr.
  rewrite select_user_rows in Hr.
  apply Permutation_map_inv in Hr as (items & -> & Hitems). exists items.
  assert (forall i, i ∈ items <-> exists s st, i = ((u, n, s), st) /\ T !! (u, n, s) = Some st) as Hel.
  { intros [[[u' n'] s'] st']. rewrite <- Hitems, list_elem_of_filter, elem_of_map_to_list. cbn. naive_solver. }
  split_and!; [|rewrite <- Hitems; apply NoDup_filter, NoDup_map_to_list|done|].
  - rewrite map_map, filter_all; [done|]. apply Forall_map, Forall_true. intros i. apply toggle_record_nonempty.
  - apply Forall_forall. intros i (s' & st & -> & Hl)%Hel. exists s', st. destruct Hw as [Hw _].
    destruct (Hw _ _ _ _ Hl) as (? & ? & _). unfold is_i32, LEGACY_SUBPROFILE_ID in *. split_and!; [done|lia|lia|done].
Qed.

(** ** The two writes. *)
Lemma toggle_write_spec T db u n s st adds e db' :
  holds_toggles T db ->
  adds = (if st =? GetDefaultToggleStatus n then [] else
    [mkAddInfo ACCESSTOKEN_PERMISSION_REQUEST_TOGGLE_STATUS
       [Put FIELD_REQUEST_TOGGLE_STATUS (TYPE_INT (i32 st)) (toggle_condition u n s)]]) ->
  db_DeleteAndInsertValues db
    [mkDelInfo ACCESSTOKEN_PERMISSION_REQUEST_TOGGLE_STATUS (toggle_condition u n s)] adds = (e, db') ->
  holds_toggles (if decide (e = RET_SUCCESS) then toggle_update u n s st T else T) db'.
Proof.
  intros Hh -> W. unfold holds_toggles in *.
  rewrite (db_DeleteAndInsertValues_spec _ _ _ _ _ W ACCESSTOKEN_PERMISSION_REQUEST_TOGGLE_STATUS).
  destruct (decide (e = RET_SUCCESS)); [|exact Hh].
  assert (apply_dels [mkDelInfo ACCESSTOKEN_PERMISSION_REQUEST_TOGGLE_STATUS (toggle_condition u n s)]
    ACCESSTOKEN_PERMISSION_REQUEST_TOGGLE_STATUS (db_rows db ACCESSTOKEN_PERMISSION_REQUEST_TOGGLE_STATUS) ≡ₚ
    map toggle_row (map_to_list (delete (u, n, s) T))) as Hd.
  { rewrite (apply_dels_perm _ _ _ _ Hh). cbn [apply_dels delType delValue]. rewrite decide_True by reflexivity.
    rewrite delete_toggle_rows. apply (fmap_Permutation toggle_row). symmetry. apply map_to_list_delete_filter. }
  unfold toggle_update. destruct (st =? GetDefaultToggleStatus n).
  - unfold apply_adds. cbn [map concat]. rewrite app_nil_r. exact Hd.
  - rewrite <- insert_delete_eq, map_to_list_insert by apply lookup_delete_eq.
    unfold apply_adds. cbn [map concat addType addValues]. rewrite decide_True by reflexivity. rewrite app_nil_r.
    assert (ToRdbValueBuckets [Put FIELD_REQUEST_TOGGLE_STATUS (TYPE_INT (i32 st)) (toggle_condition u n s)] =
      [toggle_row ((u, n, s), st)]) as ->.
    { unfold ToRdbValueBuckets. cbn [map]. apply filter_all. apply Forall_singleton.
      apply (toggle_row_nonempty ((u, n, s), st)). }
    rewrite Hd. symmetry. apply Permutation_cons_append.
Qed.

(** What a passed validation says of the sub-profile. *)
Lemma toggle_subprofile_range u sub s :
  is_i32 sub -> toggle_subprofile u sub = inr s ->
  LEGACY_SUBPROFILE_ID <= s < 2 ^ 31 /\ (ACCESS_TOKEN_SUPPORT_SUBPROFILE = false -> s = LEGACY_SUBPROFILE_ID).
Proof.
  unfold toggle_subprofile, is_i32, LEGACY_SUBPROFILE_ID. intros Hs.
  destruct ACCESS_TOKEN_SUPPORT_SUBPROFILE; [|intros [= <-]; lia].
  cbv zeta. destruct (Z.ltb_spec sub 0); split_if; try done; intros [= <-]; split; (lia || done).
Qed.

(** The mode check passes only when the other storage mode holds nothing. *)
Lemma ValidateStorageModeConflict_spec T db u n s e db' :
  toggles_wf T -> holds_toggles T db -> LEGACY_SUBPROFILE_ID <= s ->
  ValidateStorageModeConflict u n s db = (e, db') ->
  holds_toggles T db' /\
  (e = RET_SUCCESS -> forall s', is_Some (T !! (u, n, s')) -> (s = LEGACY_SUBPROFILE_ID <-> s' = LEGACY_SUBPROFILE_ID)).
Proof.
  intros Hw Hh Hs. unfold ValidateStorageModeConflict.
  destruct (FindPermRequestToggleStatusRecordsFromDb u n LEGACY_SUBPROFILE_ID false db) as [[r records] d] eqn:F.
  apply (find_records_spec T) in F as [Hd Hrec]; [|done..|by right].
  destruct (Z.eqb_spec r RET_SUCCESS) as [Hr|Hr]; cbn [negb]; intros [= <- <-]; (split; [done|]); [|done].
  destruct (Hrec Hr) as (items & -> & _ & Hel & Hall). intros He s' [st Hst].
  assert (((u, n, s'), st) ∈ items) as Hin by (apply Hel; eauto).
  destruct (existsb _ _) eqn:X; [discriminate He|]. clear He.
  assert (In (toggle_record ((u, n, s'), st)) (map toggle_record items)) as Hin'.
  { apply in_map. by apply list_elem_of_In. }
  destruct (proj1 Hw _ _ _ _ Hst) as (Hs' & Hv & _).
  destruct (toggle_record_lookup u n s' st) as [E _]; [unfold is_i32, LEGACY_SUBPROFILE_ID in *; lia|done|].
  rewrite <- not_true_iff_false, existsb_exists in X. unfold LEGACY_SUBPROFILE_ID in *.
  destruct (Z.leb_spec 0 s).
  - split; [lia|]. intros ->. exfalso. apply X. eexists. split; [exact Hin'|]. by rewrite E.
  - split; [|lia]. intros _. destruct (Z.leb_spec 0 s'); [|lia]. exfalso. apply X. eexists. split; [exact Hin'|].
    rewrite E. by apply Z.leb_le.
Qed.

Lemma toggle_update_wf T u n s st :
  toggles_wf T -> LEGACY_SUBPROFILE_ID <= s < 2 ^ 31 -> (st = 0 \/ st = 1) ->
  (ACCESS_TOKEN_SUPPORT_SUBPROFILE = false -> s = LEGACY_SUBPROFILE_ID) ->
  (forall s', is_Some (T !! (u, n, s')) -> (s = LEGACY_SUBPROFILE_ID <-> s' = LEGACY_SUBPROFILE_ID)) ->
  toggles_wf (toggle_update u n s st T).
Proof.
  intros [H1 H2] Hs Hst Hb Hm. unfold toggle_update. destruct (Z.eqb_spec st (GetDefaultToggleStatus n)).
  - split.
    + intros u' n' s' st' [_ Hl]%lookup_delete_Some. eauto.
    + intros u' n' s' [x [_ Hx]%lookup_delete_Some] [y [_ Hy]%lookup_delete_Some]. eauto.
  - split.
    + intros u' n' s' st' [[[= -> -> ->] <-]|[_ Hl]]%lookup_insert_Some; [done|eauto].
    + intros u' n' s' [x Hx] [y Hy]. apply lookup_insert_Some in Hx, Hy.
      destruct Hx as [[Ex _]|[Nx Hx]], Hy as [[Ey _]|[Ny Hy]].
      * congruence.
      * injection Ex as -> -> ->. by apply (proj1 (Hm s' (mk_is_Some _ _ Hy))).
      * injection Ey as -> -> ->. by apply (proj2 (Hm LEGACY_SUBPROFILE_ID (mk_is_Some _ _ Hx))).
      * apply (H2 u' n' s'); eauto.
Qed.

(** ** Set and Get on the abstract map. *)
Lemma Set_refines T db n st u sub ret db' :
  toggles_wf T -> holds_toggles T db -> is_i32 sub ->
  SetPermissionRequestToggleStatus n st u sub db = (ret, db') ->
  if decide (ret = RET_SUCCESS) then
    ValidatePermissionForToggle n u = RET_SUCCESS /\
    exists s, toggle_subprofile u sub = inr s /\ LEGACY_SUBPROFILE_ID <= s < 2 ^ 31 /\
      (forall s', is_Some (T !! (u, n, s')) -> (s = LEGACY_SUBPROFILE_ID <-> s' = LEGACY_SUBPROFILE_ID)) /\
      toggles_wf (toggle_update u n s st T) /\ holds_toggles (toggle_update u n s st T) db'
  else holds_toggles T db'.
Proof.
  intros Hw Hh Hsub. unfold SetPermissionRequestToggleStatus. cbv zeta.
  destruct (Z.eqb_spec (ValidatePermissionForToggle n u) RET_SUCCESS) as [Hv|Hv]; cbn [negb];
    [|intros [= <- <-]; by rewrite decide_False].
  destruct (IsToggleStatusValid st) eqn:Hst; cbn [negb]; [|intros [= <- <-]; by rewrite decide_False].
  assert (st = 0 \/ st = 1) as Hst'.
  { unfold IsToggleStatusValid, CLOSED, OPEN in Hst. breflect. lia. }
  destruct (toggle_subprofile u sub) as [e|s] eqn:Hs.
  { intros [= <- <-]. rewrite decide_False; [done|]. intros ->. revert Hs. unfold toggle_subprofile.
    destruct ACCESS_TOKEN_SUPPORT_SUBPROFILE; [|done]. cbv zeta. split_if; [|done]. intros [= E']. rewrite E' in E. done. }
  destruct (toggle_subprofile_range u sub s Hsub Hs) as [Hr Hb].
  destruct (if ACCESS_TOKEN_SUPPORT_SUBPROFILE then _ else _) as [e db1] eqn:C.
  assert (holds_toggles T db1 /\ (e = RET_SUCCESS -> forall s', is_Some (T !! (u, n, s')) ->
    (s = LEGACY_SUBPROFILE_ID <-> s' = LEGACY_SUBPROFILE_ID))) as [Hh1 Hm].
  { destruct ACCESS_TOKEN_SUPPORT_SUBPROFILE eqn:B.
    - eapply ValidateStorageModeConflict_spec; [exact Hw|exact Hh|lia|exact C].
    - injection C as <- <-. split; [done|]. intros _ s' [x Hx]. destruct (proj1 Hw _ _ _ _ Hx) as (_ & _ & _ & Hl).
      rewrite (Hl B), (Hb eq_refl). done. }
  destruct (Z.eqb_spec e RET_SUCCESS) as [He|He]; cbn [negb]; [|intros [= <- <-]; by rewrite decide_False].
  specialize (Hm He). intros W.
  assert (holds_toggles (if decide (ret = RET_SUCCESS) then toggle_update u n s st T else T) db') as Hh'.
  { eapply (toggle_write_spec T db1 u n s st); [exact Hh1|reflexivity|].
    rewrite <- W. unfold DeletePermRequestToggleStatusFromDb, AddPermRequestToggleStatusToDb.
    destruct (st =? GetDefaultToggleStatus n); reflexivity. }
  destruct (decide (ret = RET_SUCCESS)); [|done]. split; [exact Hv|]. exists s.
  split; [reflexivity|]. split; [exact Hr|]. split; [exact Hm|].
  split; [by apply toggle_update_wf|exact Hh'].
Qed.

(** A query for the whole user. *)
Lemma Get_legacy T u n items (res : Z + Z) db :
  Forall (fun i : ToggleKey * Z => exists s st, i = ((u, n, s), st) /\ is_i32 s /\ (st = 0 \/ st = 1)) items ->
  NoDup items -> (forall s st, ((u, n, s), st) ∈ items <-> T !! (u, n, s) = Some st) ->
  match map toggle_record items with
  | [] => (inr (GetDefaultToggleStatus n), db)
  | record0 :: _ =>
      if (1 <? Z.of_nat (length (map toggle_record items))) ||
         negb (GetInt FIELD_SUB_PROFILE_ID record0 =? LEGACY_SUBPROFILE_ID)
      then (inl ERR_PERMISSION_REQUEST_TOGGLE_LEGACY_QUERY_CONFLICT, db)
      else (GetToggleStatusFromRecord record0, db)
  end = (res, db) ->
  (LEGACY_SUBPROFILE_ID = LEGACY_SUBPROFILE_ID /\
   (exists s, s <> LEGACY_SUBPROFILE_ID /\ is_Some (T !! (u, n, s))) /\
   res = inl ERR_PERMISSION_REQUEST_TOGGLE_LEGACY_QUERY_CONFLICT) \/
  ((LEGACY_SUBPROFILE_ID = LEGACY_SUBPROFILE_ID -> forall s, is_Some (T !! (u, n, s)) -> s = LEGACY_SUBPROFILE_ID) /\
   res = inr (toggle_status T u n LEGACY_SUBPROFILE_ID)).
Proof.
  intros Hall Hnd HT. unfold toggle_status. destruct items as [|i items]; cbn [map].
  { intros [= <-]. right. assert (forall s, T !! (u, n, s) = None) as Hn.
    { intros s. apply eq_None_not_Some. intros [x Hx%HT]. by apply not_elem_of_nil in Hx. }
    split; [intros _ s [x Hx]; by rewrite Hn in Hx|]. by rewrite !Hn. }
  pose proof Hall as Hall'. apply Forall_cons in Hall' as [(s & st & -> & Hs & Hst) Hrest].
  destruct (toggle_record_lookup u n s st Hs Hst) as [-> ->].
  assert (T !! (u, n, s) = Some st) as Hl by (apply HT; by left).
  destruct (Z.eqb_spec s LEGACY_SUBPROFILE_ID) as [->|Hne]; cbn [negb].
  2:{ rewrite orb_true_r. intros [= <-]. left. split_and!; eauto. }
  rewrite orb_false_r. destruct items as [|i2 items]; cbn [map length].
  - intros [= <-]. right. rewrite Hl. split; [|done]. intros _ s [x [[= ->]|Hx%not_elem_of_nil]%HT%elem_of_cons]; done.
  - rewrite (proj2 (Z.ltb_lt _ _)) by lia. intros [= <-]. left. split_and!; [done| |done].
    apply Forall_cons in Hrest as [(s2 & st2 & -> & _) _]. exists s2.
    assert (T !! (u, n, s2) = Some st2) as Hl2 by (apply HT; right; left). split; [|eauto].
    intros ->. assert (st2 = st) as -> by congruence. apply NoDup_cons in Hnd as [Hnd _]. apply Hnd. left.
Qed.

Lemma Get_refines T db n u sub s res db' :
  toggles_wf T -> holds_toggles T db -> ValidatePermissionForToggle n u = RET_SUCCESS ->
  toggle_subprofile u sub = inr s ->
  GetPermissionRequestToggleStatus n u sub db = (res, db') ->
  holds_toggles T db' /\
  ((exists e, res = inl e /\ e <> RET_SUCCESS /\ exists records,
      FindPermRequestToggleStatusRecordsFromDb u n s (negb (s =? LEGACY_SUBPROFILE_ID)) db = (e, records, db')) \/
   (s = LEGACY_SUBPROFILE_ID /\ (exists s', s' <> LEGACY_SUBPROFILE_ID /\ is_Some (T !! (u, n, s'))) /\
      res = inl ERR_PERMISSION_REQUEST_TOGGLE_LEGACY_QUERY_CONFLICT) \/
   (s = LEGACY_SUBPROFILE_ID -> forall s', is_Some (T !! (u, n, s')) -> s' = LEGACY_SUBPROFILE_ID) /\
     res = inr (toggle_status T u n s)).
Proof.
  intros Hw Hh Hv Hs. unfold GetPermissionRequestToggleStatus. cbv zeta. rewrite Hv, Hs. cbn [negb Z.eqb RET_SUCCESS].
  unfold FindPermRequestToggleStatusFromDb.
  destruct (FindPermRequestToggleStatusRecordsFromDb u n s _ db) as [[r records] d] eqn:F. pose proof F as F'.
  apply (find_records_spec T) in F as [Hd Hrec]; [|done..|destruct (Z.eqb_spec s LEGACY_SUBPROFILE_ID); auto].
  destruct (Z.eqb_spec r RET_SUCCESS) as [Hr|Hr]; cbn [negb].
  2:{ intros [= <- <-]. split; [done|]. left. exists r. split_and!; try done. eauto. }
  destruct (Hrec Hr) as (items & -> & Hnd & Hel & Hall). intros G.
  assert (d = db') as ->.
  { clear -G. destruct items; cbn [map] in G; [congruence|]. repeat split_if_in G; congruence. }
  split; [done|]. right. assert (forall s' st, ((u, n, s'), st) ∈ items <-> T !! (u, n, s') = Some st) as HT.
  { intros s' st. rewrite Hel. naive_solver. }
  destruct (Z.eqb_spec s LEGACY_SUBPROFILE_ID) as [->|Hne].
  - by apply (Get_legacy T u n items res db').
  - right. split; [done|]. unfold toggle_status.
    assert (res = find_toggle_loop (map toggle_record items) s (GetDefaultToggleStatus n)) as ->
      by (destruct items; by injection G).
    destruct (find_toggle_loop_spec u n s items (GetDefaultToggleStatus n) Hall) as
      [(st & Hin%HT & ->)|(Hn & [(st & Hin%HT & ->)|(Hn' & ->)])]; [by rewrite Hin|..].
    + assert (T !! (u, n, s) = None) as ->.
      { apply eq_None_not_Some. intros [x Hx%HT]. by apply (Hn x). }
      by rewrite Hin.
    + assert (T !! (u, n, s) = None) as ->.
      { apply eq_None_not_Some. intros [x Hx%HT]. by apply (Hn x). }
      assert (T !! (u, n, LEGACY_SUBPROFILE_ID) = None) as ->; [|done].
      apply eq_None_not_Some. intros [x Hx%HT]. by apply (Hn' x).
Qed.

(** The status after an update that passed the mode check. *)
Lemma toggle_status_update T u n s st u' n' s' :
  (forall x, is_Some (T !! (u, n, x)) -> (s = LEGACY_SUBPROFILE_ID <-> x = LEGACY_SUBPROFILE_ID)) ->
  toggle_status (toggle_update u n s st T) u' n' s' =
  if decide ((u', n') = (u, n) /\ (s' = s \/ s = LEGACY_SUBPROFILE_ID)) then st else toggle_status T u' n' s'.
Proof.
  intros Hm. unfold toggle_status, toggle_update.
  assert (forall k, (if st =? GetDefaultToggleStatus n then delete (u, n, s) T else <[(u, n, s):=st]> T) !! k =
    if decide (k = (u, n, s)) then (if st =? GetDefaultToggleStatus n then None else Some st) else T !! k) as Hl.
  { intros k. destruct (decide (k = (u, n, s))) as [->|Hk]; destruct (st =? _);
      rewrite ?lookup_delete_eq, ?lookup_insert_eq, ?lookup_delete_ne, ?lookup_insert_ne by done; done. }
  rewrite !Hl. clear Hl. destruct (decide ((u', n') = (u, n))) as [[= -> ->]|Hne].
  2:{ rewrite !decide_False by naive_solver. done. }
  assert (s <> LEGACY_SUBPROFILE_ID -> T !! (u, n, LEGACY_SUBPROFILE_ID) = None) as H1.
  { intros Hs. apply eq_None_not_Some. intros Hx%Hm. tauto. }
  assert (s = LEGACY_SUBPROFILE_ID -> s' <> s -> T !! (u, n, s') = None) as H2.
  { intros Hs Hs'. apply eq_None_not_Some. intros Hx%Hm. intuition congruence. }
  destruct (decide (s' = s)) as [->|Hs'].
  - rewrite (decide_True (P := (u, n, s) = (u, n, s))) by done. rewrite (decide_True (P := _ /\ _)) by auto.
    destruct (Z.eqb_spec st (GetDefaultToggleStatus n)) as [->|]; [|done]. case_decide; [done|].
    rewrite H1 by congruence. done.
  - rewrite (decide_False (P := (u, n, s') = (u, n, s))) by congruence. destruct (decide (s = LEGACY_SUBPROFILE_ID)) as [->|Hs].
    + rewrite H2, (decide_True (P := _ /\ _)), decide_True by auto.
      by destruct (Z.eqb_spec st (GetDefaultToggleStatus n)) as [->|].
    + rewrite !decide_False by (intuition congruence). done.
Qed.

(** C34: Setting a toggle and reading it back returns the status set, unless the read itself
    fails in the database; and the write is local: another user's or another permission's
    toggles are as before, and so are the other sub-profiles' unless the toggle is set for
    the whole user, which then holds for all its sub-profiles. *)
Theorem toggle_set_get T db n st u sub db1 :
  toggles_wf T -> holds_toggles T db -> is_i32 sub ->
  SetPermissionRequestToggleStatus n st u sub db = (RET_SUCCESS, db1) ->
  (forall res db2, GetPermissionRequestToggleStatus n u sub db1 = (res, db2) ->
     res = inr st \/ exists e s records, res = inl e /\ e <> RET_SUCCESS /\ toggle_subprofile u sub = inr s /\
       FindPermRequestToggleStatusRecordsFromDb u n s (negb (s =? LEGACY_SUBPROFILE_ID)) db1 = (e, records, db2)) /\
  exists T1 s, toggles_wf T1 /\ holds_toggles T1 db1 /\ toggle_subprofile u sub = inr s /\
    forall u' n' s', toggle_status T1 u' n' s' =
      if decide ((u', n') = (u, n) /\ (s' = s \/ s = LEGACY_SUBPROFILE_ID)) then st else toggle_status T u' n' s'.
Proof.
  intros Hw Hh Hsub Hset. apply (Set_refines T) in Hset; [|done..]. rewrite decide_True in Hset by done.
  destruct Hset as (Hv & s & Hs & Hr & Hm & Hw1 & Hh1). split.
  - intros res db2 G. apply (Get_refines _ _ _ _ _ _ _ _ Hw1 Hh1 Hv Hs) in G as [_ [(e & -> & He & rs & F)|[(-> & (s' & Hs' & Hx) & _)|(_ & ->)]]].
    + right. exists e, s, rs. done.
    + exfalso. apply Hs'. unfold toggle_update in Hx. destruct Hx as [x Hx]. destruct (st =? _).
      * apply lookup_delete_Some in Hx as [_ Hx]. by apply (proj1 (Hm s' (mk_is_Some _ _ Hx))).
      * apply lookup_insert_Some in Hx as [[[= <-] _]|[_ Hx]]; [done|]. by apply (proj1 (Hm s' (mk_is_Some _ _ Hx))).
    + left. by rewrite toggle_status_update, decide_True by auto.
  - exists (toggle_update u n s st T), s. split; [done|]. split; [done|]. split; [done|].
    intros u' n' s'. by apply toggle_status_update.
Qed.

(** One request to set or read a toggle, with whatever result. *)
Inductive toggle_step : S -> S -> Prop :=
  | toggle_step_set db n st u sub ret db' :
      is_i32 sub -> SetPermissionRequestToggleStatus n st u sub db = (ret, db') -> toggle_step db db'
  | toggle_step_get db n u sub res db' :
      is_i32 sub -> GetPermissionRequestToggleStatus n u sub db = (res, db') -> toggle_step db db'.

(** From an empty table, whatever requests run and whatever fails, the table holds one
    row per stored toggle, each status valid and different from the default, and a user's
    toggle of a permission is stored either for the whole user or per sub-profile, never
    both. *)
Theorem toggle_table_inv db0 db :
  db_rows db0 ACCESSTOKEN_PERMISSION_REQUEST_TOGGLE_STATUS = [] -> rtc toggle_step db0 db ->
  exists T, toggles_wf T /\ holds_toggles T db.
Proof.
  intros H0 Hr. assert (exists T, toggles_wf T /\ holds_toggles T db0) as HT.
  { exists ∅. split; [|unfold holds_toggles; by rewrite H0, map_to_list_empty].
    split; [intros ???? Hx|intros ??? [? Hx]]; rewrite lookup_empty in Hx; discriminate Hx. }
  clear H0. induction Hr as [|db0 db1 db Hs _ IH]; [done|]. apply IH. destruct HT as (T & Hw & Hh). destruct Hs as
    [db0 n st u sub ret db1 Hsub Hset|db0 n u sub res db1 Hsub Hget].
  - apply (Set_refines T) in Hset; [|done..]. destruct (decide _); [|eauto].
    destruct Hset as (_ & s & _ & _ & _ & Hw1 & Hh1). eauto.
  - exists T. split; [done|]. unfold GetPermissionRequestToggleStatus in Hget. cbv zeta in Hget.
    destruct (Z.eqb_spec (ValidatePermissionForToggle n u) RET_SUCCESS) as [Hv|Hv]; cbn [negb] in Hget;
      [|by injection Hget as <- <-].
    destruct (toggle_subprofile u sub) as [e|s] eqn:Hs; [by injection Hget as <- <-|].
    apply (Get_refines T db0 n u sub s res db1 Hw Hh Hv Hs). unfold GetPermissionRequestToggleStatus. cbv zeta.
    rewrite Hv, Hs. exact Hget.
Qed.

End Refinement.

(** ** A concrete run. *)
#[local] Existing Instance sample_table.
#[local] Existing Instance full_config.

(** Sub-profile 7 belongs to user 100; there are no others. *)
#[local] Instance sample_accounts : OsAccount := {|
  ERR_OS_ACCOUNT_SUBPROFILE_NOT_FOUND := 12300010;
  GetOsAccountLocalIdForSubProfile s := if s =? 7 then (ERR_OK, 100) else (12300010, -1);
|}.

Definition toggles_after_set : MemRdb :=
  (SetPermissionRequestToggleStatus CAMERA CLOSED 100 7 (mkMemRdb ∅ [])).2.

Lemma toggle_set_get_witness :
  (GetPermissionRequestToggleStatus CAMERA 100 7 toggles_after_set).1 = inr CLOSED.
Proof.
  destruct (toggle_set_get ∅ (mkMemRdb ∅ []) CAMERA CLOSED 100 7 toggles_after_set) as [H _].
  - split; [intros ???? Hx|intros ??? [? Hx]]; rewrite lookup_empty in Hx; discriminate Hx.
  - unfold holds_toggles. rewrite map_to_list_empty. reflexivity.
  - unfold is_i32. lia.
  - vm_compute. reflexivity.
  - destruct (GetPermissionRequestToggleStatus CAMERA 100 7 toggles_after_set) as [res db2] eqn:G.
    destruct (H res db2 eq_refl) as [E|(e & s & rs & -> & _)]; [exact E|].
    exfalso. apply (f_equal fst) in G. revert G. vm_compute. discriminate.
Defined.

Lemma toggle_table_inv_witness :
  length (db_rows toggles_after_set ACCESSTOKEN_PERMISSION_REQUEST_TOGGLE_STATUS) = 1%nat /\
  exists T, toggles_wf T /\ holds_toggles T toggles_after_set.
Proof.
  split; [vm_compute; reflexivity|].
  apply (toggle_table_inv (mkMemRdb ∅ [])); [reflexivity|]. apply rtc_once.
  apply (toggle_step_set (mkMemRdb ∅ []) CAMERA CLOSED 100 7 RET_SUCCESS); [unfold is_i32; lia|].
  vm_compute. reflexivity.
Defined.
