(* ===== verification/ConstraintCheck.v ===== *)
(** * What a bundle may request

    dlp_permission_set_manager.cpp (which permissions a DLP sandbox may hold),
    permission_feature_manager.cpp, and permission_constraint_check.cpp (the ACL, MDM and
    enterprise rules, and the repair of a token's permission data against its bundle),
    all under services/accesstokenmanager/main/cpp/src/permission. *)

From stdpp Require Import base gmap list strings.
From S2P Require Import Prelude AccessTokenTypes PermissionMap Validator Database PermissionDataBrief.
#[local] Open Scope string_scope.
#[local] Open Scope list_scope.
#[local] Open Scope Z_scope.
#[local] Open Scope cxx_scope.

(** ** DLP modes. *)
Definition DLP_PERM_ALL : Z := 0.
Definition DLP_PERM_FULL_CONTROL : Z := 1.
Definition DLP_PERM_NONE : Z := 2.

Record PermissionDlpMode := mkPermissionDlpMode { pdm_permissionName : string; pdm_dlpMode : Z }.

(** [dlpPermissionModeMap_]. *)
Abbreviation DlpModes := (gmap string Z).

Fixpoint ProcessDlpPermInfos (dlpPermInfos : list PermissionDlpMode) (m : DlpModes) : DlpModes :=
  match dlpPermInfos with
  | [] => m
  | info :: rest =>
      match m !! pdm_permissionName info with
      | Some _ => ProcessDlpPermInfos rest m
      | None => ProcessDlpPermInfos rest (<[pdm_permissionName info := pdm_dlpMode info]> m)
      end
  end.

Definition GetPermDlpMode (permissionName : string) (m : DlpModes) : Z :=
  match m !! permissionName with None => DLP_PERM_ALL | Some mode => mode end.

Definition IsPermDlpModeAvailableToDlpHap (hapDlpType permDlpMode : Z) : bool :=
  if (hapDlpType =? DLP_COMMON) || (permDlpMode =? DLP_PERM_ALL) then true
  else if hapDlpType =? DLP_READ_PERM then negb (permDlpMode =? DLP_PERM_FULL_CONTROL)
  else if hapDlpType =? DLP_FULL_PERM then true
  else if (permDlpMode =? DLP_PERM_FULL_CONTROL) && (hapDlpType =? DLP_FULL_CONTROL) then true
  else false.

Definition IsPermissionAvailableToDlpHap (hapDlpType : Z) (permissionName : string) (m : DlpModes) : bool :=
  IsPermDlpModeAvailableToDlpHap hapDlpType (GetPermDlpMode permissionName m).

Definition UpdatePermStateWithDlpInfo (hapDlpType : Z) (m : DlpModes) (permStateList : list PermissionStatus)
    : list PermissionStatus :=
  map (fun perm =>
         if ps_grantStatus perm =? PERMISSION_DENIED then perm
         else
           let permissionDlpMode := GetPermDlpMode (ps_permissionName perm) m in
           if negb (IsPermDlpModeAvailableToDlpHap hapDlpType permissionDlpMode)
           then set_ps_status PERMISSION_DENIED perm else perm) permStateList.

Definition IsPermissionAvailableToDlpHap_code {PT : PermTable} (hapDlpType permCode : Z) (m : DlpModes) : bool :=
  let permissionName := TransferOpcodeToPermission permCode in
  if str_empty permissionName then false else IsPermissionAvailableToDlpHap hapDlpType permissionName m.

(** ** Features: [features_] of [PermissionFeatureManager]. *)
Definition IsSupportFeature (features_ : gset string) (status : PermissionStatus) : bool :=
  if str_empty (ps_feature status) then true else bool_decide (ps_feature status ∈ features_).

(** ** Bundles and policies. *)

(** [BundleParam]. *)
Record BundleParam := mkBundleParam {
  bp_bundleName : string;
  bp_appId : string;
  bp_appIdentifier : Z;
  bp_idType : Z;
  bp_apiVersion : Z;
  bp_distributionType : Z;
  bp_isSystem : bool;
  bp_isAtomicService : bool;
  bp_isDebug : bool;
  bp_isSideloadApp : bool;
}.

(** [HapPolicy]. *)
Record HapPolicy := mkHapPolicy {
  hp_apl : Z;
  hp_domain : string;
  hp_permList : list PermissionDef;
  hp_permStateList : list PermissionStatus;
  hp_aclRequestedList : list string;
  hp_preAuthorizationInfo : list PreAuthorizationInfo;
  hp_checkIgnore : Z;
  hp_aclExtendedMap : gmap string string;
  hp_isDebugGrant : bool;
}.

(** [PermissionInfoCheckResult], the only member of [HapInfoCheckResult]. *)
Record HapInfoCheckResult := mkHapInfoCheckResult { hicr_permissionName : string; hicr_rule : Z }.

(** The distribution types of the bundle verifier ([Verify::AppDistType]) and the system
    parameter accesstoken.enterprise_normal_check. *)
Class VerifyEnv := {
  ENTERPRISE_MDM : Z;
  ENTERPRISE_NORMAL : Z;
  AppDistTypeToString : Z -> string;
  enterprise_normal_check : bool;
}.

Definition IsSideloadAclExempt (isSideloadApp : bool) (briefDef : PermissionBriefDef) : bool :=
  isSideloadApp && pbd_provisionEnable briefDef && pbd_provisionBypassForSideload briefDef.

Section ConstraintCheck.
Context {PT : PermTable} {BC : BuildConfig} {VE : VerifyEnv}.

Definition IsAclSatisfied (isSideloadApp : bool) (briefDef : PermissionBriefDef) (policy : HapPolicy) : bool :=
  if X86_EMULATOR_MODE && (hp_checkIgnore policy =? ACL_IGNORE_CHECK) then true
  else if hp_apl policy <? pbd_availableLevel briefDef then
    if negb (pbd_provisionEnable briefDef) then false
    else if IsSideloadAclExempt isSideloadApp briefDef then true
    else
      let isAclExist :=
        if pbd_hasValue briefDef
        then bool_decide (is_Some (hp_aclExtendedMap policy !! pbd_permissionName briefDef))
        else existsb (fun perm => String.eqb (pbd_permissionName briefDef) perm) (hp_aclRequestedList policy) in
      if negb isAclExist then false else true
  else true.

(** The answer, and [rule] when the check writes it. *)
Definition IsPermAvailableRangeSatisfied (param : BundleParam) (briefDef : PermissionBriefDef) (rule : Z) : bool * Z :=
  let enterprise :=
    if pbd_availableType briefDef =? AVAILABLE_ENTERPRISE_NORMAL then
      if IS_SUPPORT_HAP_RUNNING &&
         ((bp_distributionType param =? ENTERPRISE_MDM) || (bp_distributionType param =? ENTERPRISE_NORMAL) ||
          bp_isSystem param || bp_isDebug param)
      then (true, rule)
      else if enterprise_normal_check then (false, PERMISSION_ENTERPRISE_NORMAL_RULE)
      else (true, PERMISSION_ENTERPRISE_NORMAL_RULE)
    else (true, rule) in
  if pbd_availableType briefDef =? AVAILABLE_MDM then
    if bp_isDebug param then (true, rule)
    else if IS_SUPPORT_HAP_RUNNING && negb (bp_distributionType param =? ENTERPRISE_MDM)
    then (false, PERMISSION_EDM_RULE)
    else enterprise
  else enterprise.

Definition AclAndEdmCheck (param : BundleParam) (briefDef : PermissionBriefDef) (policy : HapPolicy)
    (result : HapInfoCheckResult) : bool * HapInfoCheckResult :=
  if negb (IsAclSatisfied (bp_isSideloadApp param) briefDef policy)
  then (false, mkHapInfoCheckResult (pbd_permissionName briefDef) PERMISSION_ACL_RULE)
  else
    let '(ok, rule) := IsPermAvailableRangeSatisfied param briefDef PERMISSION_ACL_RULE in
    if ok then (true, result) else (false, mkHapInfoCheckResult (pbd_permissionName briefDef) rule).

Definition TEMP_JIT_ALLOW_PERMISSION : string := "TEMPJITALLOW".
Definition PROCESS_OWNERID_APP : Z := 2.
Definition PROCESS_OWNERID_DEBUG : Z := 3.
Definition PROCESS_OWNERID_COMPAT : Z := 5.
Definition PROCESS_OWNERID_APP_TEMP_ALLOW : Z := 10.

Definition BuildIdType (param : BundleParam) (policy : HapPolicy) : Z :=
  if bp_isDebug param then PROCESS_OWNERID_DEBUG
  else if bp_appIdentifier param =? 0 then PROCESS_OWNERID_COMPAT
  else if existsb (fun s => String.eqb (ps_permissionName s) TEMP_JIT_ALLOW_PERMISSION) (hp_permStateList policy)
  then PROCESS_OWNERID_APP_TEMP_ALLOW
  else PROCESS_OWNERID_APP.

(** ** Repairing permission data. *)

(** [expectedPermCodes]. *)
Definition expected_codes (permCodeList : list Z) (dlpType : Z) (m : DlpModes) : gset Z :=
  list_to_set (filter (fun c =>
    negb (SUPPORT_SANDBOX_APP && negb (dlpType =? DLP_COMMON) && negb (IsPermissionAvailableToDlpHap_code dlpType c m))
      = true) permCodeList).

(** The last loop; [None] is the read of [g_permList] past its end. *)
Fixpoint FixBriefPermData_add (permCodeList : list Z) (expected current : gset Z) (data : list BriefPermData)
    (isFixed : bool) : option (list BriefPermData * bool) :=
  match permCodeList with
  | [] => Some (data, isFixed)
  | permCode :: rest =>
      if negb (bool_decide (permCode ∈ expected)) then FixBriefPermData_add rest expected current data isFixed
      else if bool_decide (permCode ∈ current) then FixBriefPermData_add rest expected current data isFixed
      else
        match GetPermissionBriefDef_code permCode with
        | None => None
        | Some briefDef =>
            if negb (pbd_isEnable briefDef) then FixBriefPermData_add rest expected current data isFixed
            else
              let initPermData :=
                if pbd_grantMode briefDef =? SYSTEM_GRANT
                then mkBriefPermData PERMISSION_GRANTED 0 (u16 permCode) PERMISSION_SYSTEM_FIXED
                else mkBriefPermData PERMISSION_DENIED 0 (u16 permCode) PERMISSION_DEFAULT_FLAG in
              FixBriefPermData_add rest expected current (data ++ [initPermData]) true
        end
  end.

Definition FixBriefPermData (permCodeList : list Z) (dlpType : Z) (m : DlpModes) (data : list BriefPermData)
    : option (list BriefPermData * bool) :=
  let expectedPermCodes := expected_codes permCodeList dlpType m in
  let data1 := filter (fun item => bpd_permCode item ∈ expectedPermCodes) data in
  let isFixed := negb (bool_decide (length data1 = length data)) in
  let currentPermCodes : gset Z := list_to_set (map bpd_permCode data1) in
  FixBriefPermData_add permCodeList expectedPermCodes currentPermCodes data1 isFixed.

End ConstraintCheck.

(** ** Properties. *)

(** Applying the DLP rules to a permission list keeps its length, names and flags, and
    denies exactly the permissions the sandbox type may not hold: a denied permission is
    never granted, an available one keeps its status; applying them again changes
    nothing, and a common hap is not affected. *)
Theorem UpdatePermStateWithDlpInfo_spec ty m l :
  length (UpdatePermStateWithDlpInfo ty m l) = length l /\
  (forall i p, l !! i = Some p ->
     UpdatePermStateWithDlpInfo ty m l !! i =
     Some (set_ps_status (if IsPermissionAvailableToDlpHap ty (ps_permissionName p) m then ps_grantStatus p
                          else PERMISSION_DENIED) p)) /\
  UpdatePermStateWithDlpInfo ty m (UpdatePermStateWithDlpInfo ty m l) = UpdatePermStateWithDlpInfo ty m l /\
  (ty = DLP_COMMON -> UpdatePermStateWithDlpInfo ty m l = l).
Proof.
  assert (forall p, (if ps_grantStatus p =? PERMISSION_DENIED then p else
      let permissionDlpMode := GetPermDlpMode (ps_permissionName p) m in
      if negb (IsPermDlpModeAvailableToDlpHap ty permissionDlpMode) then set_ps_status PERMISSION_DENIED p else p) =
    set_ps_status (if IsPermissionAvailableToDlpHap ty (ps_permissionName p) m then ps_grantStatus p
                   else PERMISSION_DENIED) p) as Hp.
  { intros [t n f s fl ts]. unfold IsPermissionAvailableToDlpHap, set_ps_status. cbn.
    destruct (Z.eqb_spec s PERMISSION_DENIED) as [->|]; destruct (IsPermDlpModeAvailableToDlpHap _ _); done. }
  unfold UpdatePermStateWithDlpInfo. rewrite !(map_ext _ _ Hp). split_and!.
  - apply length_map.
  - intros i p Hl. change (map ?f l !! i) with ((f <$> l) !! i). by rewrite list_lookup_fmap, Hl.
  - rewrite map_map. apply map_ext. intros p. unfold set_ps_status. cbn. by destruct (IsPermissionAvailableToDlpHap _ _ _).
  - intros ->. rewrite <- (map_id l) at 2. apply map_ext. intros []. done.
Qed.

Section FixProps.
Context {PT : PermTable} `{!PermTableLaws PT} {BC : BuildConfig}.
Implicit Types (c : Z) (d : BriefPermData).

(** The entry created for a code that has none. *)
Definition init_entry c (def : PermissionBriefDef) : BriefPermData :=
  if pbd_grantMode def =? SYSTEM_GRANT then mkBriefPermData PERMISSION_GRANTED 0 (u16 c) PERMISSION_SYSTEM_FIXED
  else mkBriefPermData PERMISSION_DENIED 0 (u16 c) PERMISSION_DEFAULT_FLAG.

Definition missing_entry (expected current : gset Z) c : option BriefPermData :=
  match GetPermissionBriefDef_code c with
  | Some def => if bool_decide (c ∈ expected) && negb (bool_decide (c ∈ current)) && pbd_isEnable def
                then Some (init_entry c def) else None
  | None => None
  end.

Lemma code_has_def c : 0 <= c < MAX_PERM_SIZE -> exists def, GetPermissionBriefDef_code c = Some def.
Proof.
  intros Hc. apply name_to_opcode in Hc. apply opcode_def in Hc as (def & Hd & _). by exists def.
Qed.

Lemma FixBriefPermData_add_spec l expected current : forall data fixed,
  Forall (fun c => 0 <= c < MAX_PERM_SIZE) l ->
  FixBriefPermData_add l expected current data fixed =
  Some (data ++ omap (missing_entry expected current) l,
        fixed || negb (bool_decide (omap (missing_entry expected current) l = []))).
Proof.
  induction l as [|c l IH]; intros data fixed Hl; cbn [FixBriefPermData_add].
  { cbn. by rewrite app_nil_r, orb_false_r. }
  apply Forall_cons in Hl as [Hc Hl]. destruct (code_has_def c Hc) as (def & Hd).
  assert (omap (missing_entry expected current) (c :: l) =
    match missing_entry expected current c with
    | Some d => d :: omap (missing_entry expected current) l
    | None => omap (missing_entry expected current) l
    end) as -> by done.
  assert (missing_entry expected current c =
    if bool_decide (c ∈ expected) && negb (bool_decide (c ∈ current)) && pbd_isEnable def
    then Some (init_entry c def) else None) as -> by (unfold missing_entry; by rewrite Hd).
  rewrite Hd. destruct (bool_decide (c ∈ expected)), (bool_decide (c ∈ current)), (pbd_isEnable def); cbn [negb andb];
    rewrite IH by done; try done.
  rewrite <- app_assoc. cbn [app]. fold (init_entry c def).
  rewrite (bool_decide_false (_ :: _ = _)) by done. by rewrite orb_true_r.
Qed.

Lemma elem_of_expected c l ty m :
  c ∈ expected_codes l ty m <-> c ∈ l /\
    (SUPPORT_SANDBOX_APP = true -> ty <> DLP_COMMON -> IsPermissionAvailableToDlpHap_code ty c m = true).
Proof.
  unfold expected_codes. rewrite elem_of_list_to_set, list_elem_of_filter.
  destruct SUPPORT_SANDBOX_APP, (Z.eqb_spec ty DLP_COMMON), (IsPermissionAvailableToDlpHap_code ty c m); cbn;
    intuition congruence.
Qed.

Lemma missing_entry_code expected current c d :
  missing_entry expected current c = Some d -> 0 <= c < MAX_PERM_SIZE ->
  bpd_permCode d = c /\ c ∈ expected /\ c ∉ current.
Proof.
  intros H Hc. unfold missing_entry in H. destruct (GetPermissionBriefDef_code c) as [def|]; [|done].
  split_if_in H; [|done]. injection H as <-. breflect. split_and!; try done.
  assert (u16 c = c) as E'. { unfold u16. apply Z.mod_small. pose proof permList_size. unfold MAX_PERM_SIZE in Hc. lia. }
  unfold init_entry. by destruct (pbd_grantMode def =? SYSTEM_GRANT).
Qed.

Definition kept (l : list Z) (ty : Z) (m : DlpModes) (data : list BriefPermData) : list BriefPermData :=
  filter (fun item => bpd_permCode item ∈ expected_codes l ty m) data.
Definition added (l : list Z) (ty : Z) (m : DlpModes) (data : list BriefPermData) : list BriefPermData :=
  omap (missing_entry (expected_codes l ty m) (list_to_set (map bpd_permCode (kept l ty m data)))) l.

Lemma FixBriefPermData_eq l ty m data :
  Forall (fun c => 0 <= c < MAX_PERM_SIZE) l ->
  FixBriefPermData l ty m data =
  Some (kept l ty m data ++ added l ty m data,
        negb (bool_decide (length (kept l ty m data) = length data)) || negb (bool_decide (added l ty m data = []))).
Proof. intros Hl. unfold FixBriefPermData. cbv zeta. by rewrite FixBriefPermData_add_spec. Qed.

Lemma kept_all l ty m data :
  (forall d, d ∈ data -> bpd_permCode d ∈ expected_codes l ty m) -> kept l ty m data = data.
Proof. intros H. apply filter_all. by apply Forall_forall. Qed.

Lemma kept_length l ty m data : length (kept l ty m data) = length data -> kept l ty m data = data.
Proof.
  unfold kept. induction data as [|d data IH]; [done|]. rewrite filter_cons. case_decide; cbn [length].
  - intros E. f_equal. apply IH. lia.
  - intros E. pose proof (sublist_length _ _ (sublist_filter (fun x => bpd_permCode x ∈ expected_codes l ty m) data)).
    lia.
Qed.

Lemma elem_of_repaired d l ty m data :
  Forall (fun c => 0 <= c < MAX_PERM_SIZE) l -> d ∈ added l ty m data ->
  bpd_permCode d ∈ expected_codes l ty m /\ bpd_permCode d ∉ map bpd_permCode (kept l ty m data) /\
  exists def, GetPermissionBriefDef_code (bpd_permCode d) = Some def /\ pbd_isEnable def = true /\
    d = init_entry (bpd_permCode d) def.
Proof.
  intros Hl. unfold added. rewrite list_elem_of_omap. intros (c & Hin & Hm).
  rewrite Forall_forall in Hl. pose proof (missing_entry_code _ _ _ _ Hm (Hl c Hin)) as (-> & He & Hc).
  split; [done|]. split; [set_solver|]. unfold missing_entry in Hm.
  destruct (GetPermissionBriefDef_code c) as [def|]; [|done]. split_if_in Hm; [|done]. injection Hm as <-.
  exists def. breflect. done.
Qed.

Lemma added_covers l ty m data c def :
  c ∈ expected_codes l ty m -> GetPermissionBriefDef_code c = Some def -> pbd_isEnable def = true ->
  c ∈ map bpd_permCode (kept l ty m data) \/ init_entry c def ∈ added l ty m data.
Proof.
  intros He Hd Hen. destruct (decide (c ∈ map bpd_permCode (kept l ty m data))) as [|Hn]; [by left|right].
  unfold added. apply list_elem_of_omap. exists c. split; [by apply elem_of_expected in He as [? _]|].
  unfold missing_entry. rewrite Hd, bool_decide_true, bool_decide_false by set_solver. by rewrite Hen.
Qed.

Lemma added_none l ty m data :
  Forall (fun c => 0 <= c < MAX_PERM_SIZE) l ->
  (forall c def, c ∈ expected_codes l ty m -> GetPermissionBriefDef_code c = Some def -> pbd_isEnable def = true ->
     c ∈ map bpd_permCode (kept l ty m data)) -> added l ty m data = [].
Proof.
  intros Hl H. destruct (added l ty m data) as [|d rest] eqn:E; [done|]. exfalso.
  assert (d ∈ added l ty m data) as Hd by (rewrite E; left).
  apply elem_of_repaired in Hd as (He & Hn & def & Hdef & Hen & _); [|done]. by apply Hn, (H _ def).
Qed.

(** Repairing a token's permission data against its bundle: entries of permissions the
    bundle does not declare (or that its DLP type may not hold) are dropped, the others are
    kept as they are, every expected enabled permission without an entry gets a fresh one
    (granted only when it is a system grant), the change flag says whether anything
    changed, and a second repair changes nothing. *)
Theorem FixBriefPermData_spec l ty m data :
  Forall (fun c => 0 <= c < MAX_PERM_SIZE) l ->
  exists data' fixed, FixBriefPermData l ty m data = Some (data', fixed) /\
    (forall d, d ∈ data -> (d ∈ data' <-> bpd_permCode d ∈ expected_codes l ty m)) /\
    (forall d, d ∈ data' -> bpd_permCode d ∈ expected_codes l ty m /\
       (d ∈ data \/ exists def, GetPermissionBriefDef_code (bpd_permCode d) = Some def /\
          pbd_isEnable def = true /\ d = init_entry (bpd_permCode d) def)) /\
    (forall c def, c ∈ expected_codes l ty m -> GetPermissionBriefDef_code c = Some def -> pbd_isEnable def = true ->
       c ∈ map bpd_permCode data') /\
    (fixed = false <-> data' = data) /\ FixBriefPermData l ty m data' = Some (data', false).
Proof.
  intros Hl. exists (kept l ty m data ++ added l ty m data). eexists. split; [by apply FixBriefPermData_eq|].
  set (data' := kept l ty m data ++ added l ty m data).
  assert (forall d, d ∈ data' -> bpd_permCode d ∈ expected_codes l ty m) as Hexp.
  { intros d [Hd|Hd]%elem_of_app; [by apply list_elem_of_filter in Hd as [? _]|by apply elem_of_repaired in Hd as [? _]]. }
  assert (forall c def, c ∈ expected_codes l ty m -> GetPermissionBriefDef_code c = Some def ->
    pbd_isEnable def = true -> c ∈ map bpd_permCode data') as Hcov.
  { intros c def He Hd Hen. unfold data'. rewrite map_app, elem_of_app.
    destruct (added_covers l ty m data c def He Hd Hen) as [|Ha]; [by left|right].
    apply list_elem_of_fmap. eexists. split; [|exact Ha].
    assert (u16 c = c) as Eu.
    { unfold u16. apply Z.mod_small. pose proof permList_size. apply elem_of_expected in He as [Hin _].
      rewrite Forall_forall in Hl. specialize (Hl c Hin). unfold MAX_PERM_SIZE in Hl. lia. }
    unfold init_entry. by destruct (pbd_grantMode def =? SYSTEM_GRANT). }
  split_and!; [| |exact Hcov| |].
  - intros d Hd. split; [apply Hexp|]. intros He. apply elem_of_app. left. by apply list_elem_of_filter.
  - intros d Hd. split; [by apply Hexp|]. apply elem_of_app in Hd as [Hd|Hd].
    + left. by apply list_elem_of_filter in Hd as [_ ?].
    + right. by apply elem_of_repaired in Hd as (_ & _ & ?).
  - rewrite orb_false_iff, !negb_false_iff, !bool_decide_eq_true. unfold data'. split.
    + intros [Hk ->]. rewrite app_nil_r. by apply kept_length.
    + intros E. assert (length (kept l ty m data) + length (added l ty m data) = length data)%nat as El
        by (by rewrite <- length_app, E).
      pose proof (sublist_length _ _ (sublist_filter (fun item => bpd_permCode item ∈ expected_codes l ty m) data)) as Hs.
      fold (kept l ty m data) in Hs. assert (kept l ty m data = data) as Ek.
      { apply kept_all. intros d Hd. apply Hexp. unfold data'. by rewrite E. }
      rewrite Ek in El |- *. split; [done|]. apply length_zero_iff_nil. lia.
  - rewrite FixBriefPermData_eq by done. assert (kept l ty m data' = data') as Ek by (by apply kept_all).
    assert (added l ty m data' = []) as Ea.
    { apply added_none; [done|]. rewrite Ek. exact Hcov. }
    rewrite Ek, Ea, app_nil_r. rewrite !bool_decide_true by done. done.
Qed.

End FixProps.

(** The bundle declares the camera and the internet; the stored data has the camera, granted
    by the user, and a location entry the bundle does not declare. *)
Definition sample_entry (c s f : Z) : BriefPermData := mkBriefPermData s 0 c f.

Lemma FixBriefPermData_spec_witness :
  exists data', @FixBriefPermData sample_table full_config [0; 4] DLP_COMMON ∅
      [sample_entry 0 PERMISSION_GRANTED PERMISSION_USER_FIXED; sample_entry 1 PERMISSION_GRANTED 0] =
    Some (data', true) /\
    data' = [sample_entry 0 PERMISSION_GRANTED PERMISSION_USER_FIXED;
             sample_entry 4 PERMISSION_GRANTED PERMISSION_SYSTEM_FIXED] /\
    @FixBriefPermData sample_table full_config [0; 4] DLP_COMMON ∅ data' = Some (data', false).
Proof.
  destruct (@FixBriefPermData_spec sample_table sample_table_laws full_config [0; 4] DLP_COMMON ∅
    [sample_entry 0 PERMISSION_GRANTED PERMISSION_USER_FIXED; sample_entry 1 PERMISSION_GRANTED 0])
    as (data' & fixed & E & _ & _ & _ & _ & H).
  - repeat constructor; unfold MAX_PERM_SIZE; cbn; lia.
  - exists data'. assert (Some (data', fixed) = Some ([sample_entry 0 PERMISSION_GRANTED PERMISSION_USER_FIXED;
             sample_entry 4 PERMISSION_GRANTED PERMISSION_SYSTEM_FIXED], true)) as E2.
    { rewrite <- E. vm_compute. reflexivity. }
    injection E2 as E3 E4. rewrite E4 in E. split; [exact E|]. split; [exact E3|exact H].
Defined.
