(* ===== verification/HapTokenInfo.v ===== *)
(** * Hap tokens

    services/accesstokenmanager/main/cpp/src/permission/hap_token_info_inner.cpp: the
    identity of an application (bundle, user, instance, version, attributes) and the
    operations on its permissions, which go to the permission state store and, for a
    local token, to the database.  The object's lock makes each method atomic. *)

From stdpp Require Import base gmap list strings.
From S2P Require Import Prelude AccessTokenTypes TokenId PermissionMap Validator Database DataTranslator PermissionDataBrief ConstraintCheck.
#[local] Open Scope string_scope.
#[local] Open Scope list_scope.
#[local] Open Scope Z_scope.
#[local] Open Scope cxx_scope.

(** [HapTokenInfo]. *)
Record HapTokenInfo := mkHapTokenInfo {
  hti_ver : Z;
  hti_userID : Z;
  hti_bundleName : string;
  hti_apiVersion : Z;
  hti_instIndex : Z;
  hti_dlpType : Z;
  hti_tokenID : Z;
  hti_tokenAttr : Z;
  hti_uid : Z;
}.

(** [HapInfoParams] and [UpdateHapInfoParams]: the members the managers read. *)
Record HapInfoParams := mkHapInfoParams {
  hip_userID : Z;
  hip_bundleName : string;
  hip_instIndex : Z;
  hip_dlpType : Z;
  hip_appIDDesc : string;
  hip_apiVersion : Z;
  hip_isSystemApp : bool;
  hip_isRestore : bool;
  hip_tokenID : Z;
  hip_isAtomicService : bool;
  hip_appProvisionType : string;
  hip_isSideloadApp : bool;
}.
Record UpdateHapInfoParams := mkUpdateHapInfoParams {
  uhip_appIDDesc : string;
  uhip_apiVersion : Z;
  uhip_isSystemApp : bool;
  uhip_isAtomicService : bool;
  uhip_appProvisionType : string;
  uhip_isSideloadApp : bool;
}.

(** [HapTokenInfoItem]: the columns the class reads. *)
Record HapTokenInfoItem := mkHapTokenInfoItem {
  item_tokenId : Z;
  item_userId : Z;
  item_bundleName : string;
  item_instIndex : Z;
  item_dlpType : Z;
  item_tokenAttr : Z;
  item_apiVersion : Z;
  item_permDialogCapState : bool;
  item_uid : Z;
  item_migrated : bool;
  item_isSideload : bool;
}.

(** The members of [HapTokenInfoInner]. *)
Record HapTokenInfoInner := mkHapTokenInfoInner {
  tokenInfoBasic_ : HapTokenInfo;
  isRemote_ : bool;
  isPermDialogForbidden_ : bool;
  isMigrated_ : bool;
  isSideloadApp_ : bool;
  permUpdateTimestamp_ : Z;
}.

Definition set_basic (b : HapTokenInfo) (h : HapTokenInfoInner) : HapTokenInfoInner :=
  mkHapTokenInfoInner b (isRemote_ h) (isPermDialogForbidden_ h) (isMigrated_ h) (isSideloadApp_ h)
    (permUpdateTimestamp_ h).
Definition set_sideload (b : bool) (h : HapTokenInfoInner) : HapTokenInfoInner :=
  mkHapTokenInfoInner (tokenInfoBasic_ h) (isRemote_ h) (isPermDialogForbidden_ h) (isMigrated_ h) b
    (permUpdateTimestamp_ h).
Definition set_permUpdateTimestamp (t : Z) (h : HapTokenInfoInner) : HapTokenInfoInner :=
  mkHapTokenInfoInner (tokenInfoBasic_ h) (isRemote_ h) (isPermDialogForbidden_ h) (isMigrated_ h)
    (isSideloadApp_ h) t.

Definition SYSTEM_APP_FLAG : Z := 0x0001.
Definition ATOMIC_SERVICE_FLAG : Z := 0x0002.
Definition TOKEN_RESERVED_FLAG : Z := 0x0004.
Definition DEBUG_APP_FLAG : Z := 0x0008.
Definition INVALID_UID : Z := -1.

(** ** [GetApiVersion]: the last three characters of the decimal text. *)
Fixpoint str_drop (n : nat) (s : string) : string :=
  match n, s with
  | O, _ => s
  | S n', String _ s' => str_drop n' s'
  | S _, EmptyString => EmptyString
  end.

(** [std::atoi] on a text of digits: the digits up to the first other character. *)
Fixpoint atoi_digits (acc : Z) (s : string) : Z :=
  match s with
  | EmptyString => acc
  | String c s' => match char_digit c with Some d => atoi_digits (acc * 10 + Z.of_N d) s' | None => acc end
  end.
Definition atoi (s : string) : Z :=
  match s with
  | String c s' => if Ascii.eqb c minus_char then - atoi_digits 0 s' else atoi_digits 0 s
  | EmptyString => 0
  end.

Definition GetApiVersion (apiVersion : Z) : Z :=
  let apiSize := 3%nat in
  let apiStr := to_string apiVersion in
  let inputSize := String.length apiStr in
  if (inputSize <=? apiSize)%nat then apiVersion
  else atoi (str_drop (inputSize - apiSize) apiStr).

(** ** Construction. *)
Definition default_HapTokenInfoInner : HapTokenInfoInner :=
  mkHapTokenInfoInner (mkHapTokenInfo DEFAULT_TOKEN_VERSION 0 "" 0 0 0 0 0 INVALID_UID) false false false false 0.

Definition provision_attr (appProvisionType : string) (attr : Z) : Z :=
  if String.eqb appProvisionType "release" then attr .& u32_not DEBUG_APP_FLAG
  else if String.eqb appProvisionType "debug" then attr .| DEBUG_APP_FLAG
  else attr.

Section HapTokenInfoInner.
Context {PT : PermTable} {BC : BuildConfig}.

Definition new_HapTokenInfoInner (id : Z) (info : HapInfoParams) (policy : HapPolicy) (st : Brief)
    : HapTokenInfoInner * Brief :=
  let attr := 0 in
  let attr := if hip_isSystemApp info then attr .| SYSTEM_APP_FLAG else attr in
  let attr := if hip_isAtomicService info then attr .| ATOMIC_SERVICE_FLAG else attr in
  let attr := provision_attr (hip_appProvisionType info) attr in
  (mkHapTokenInfoInner
     (mkHapTokenInfo DEFAULT_TOKEN_VERSION (hip_userID info) (hip_bundleName info) (GetApiVersion (hip_apiVersion info))
        (hip_instIndex info) (hip_dlpType info) id attr INVALID_UID)
     false false false (hip_isSideloadApp info) 0,
   AddPermToBriefPermission id (hp_permStateList policy) (hp_aclExtendedMap policy) true st).

Definition new_from_HapTokenInfo (id : Z) (info : HapTokenInfo) (permStateList : list PermissionStatus) (st : Brief)
    : HapTokenInfoInner * Brief :=
  (mkHapTokenInfoInner info false false false false 0, AddPermToBriefPermission id permStateList ∅ true st).

Definition new_from_item (item : HapTokenInfoItem) : HapTokenInfoInner :=
  mkHapTokenInfoInner
    (mkHapTokenInfo DEFAULT_TOKEN_VERSION (i32 (item_userId item)) (item_bundleName item) (item_apiVersion item)
       (i32 (item_instIndex item)) (item_dlpType item) (item_tokenId item) (item_tokenAttr item) (item_uid item))
    false (item_permDialogCapState item) (item_migrated item) (item_isSideload item) 0.

Definition new_from_sync (id : Z) (baseInfo : HapTokenInfo) (permStateList : list PermissionStatus) (st : Brief)
    : HapTokenInfoInner * Brief :=
  (mkHapTokenInfoInner baseInfo true false false false 0, AddPermToBriefPermission id permStateList ∅ false st).

(** The destructor. *)
Definition destroy_HapTokenInfoInner (h : HapTokenInfoInner) (st : Brief) : Brief :=
  (DeleteBriefPermDataByTokenId (hti_tokenID (tokenInfoBasic_ h)) st).2.

(** ** Update. *)
Definition set_attr_api (attr api : Z) (b : HapTokenInfo) : HapTokenInfo :=
  mkHapTokenInfo (hti_ver b) (hti_userID b) (hti_bundleName b) api (hti_instIndex b) (hti_dlpType b)
    (hti_tokenID b) attr (hti_uid b).

Definition HapUpdate (info : UpdateHapInfoParams) (permStateList : list PermissionStatus) (hapPolicy : HapPolicy)
    (h : HapTokenInfoInner) (st : Brief) : HapTokenInfoInner * Brief :=
  let b := tokenInfoBasic_ h in
  let attr := hti_tokenAttr b in
  let attr := if uhip_isSystemApp info then attr .| SYSTEM_APP_FLAG else attr .& u32_not SYSTEM_APP_FLAG in
  let attr := if uhip_isAtomicService info then attr .| ATOMIC_SERVICE_FLAG
              else attr .& u32_not ATOMIC_SERVICE_FLAG in
  let isDebugProvision := String.eqb (uhip_appProvisionType info) "debug" in
  let needUpdatePermByProvision := (isDebugProvision && hp_isDebugGrant hapPolicy) ||
    (negb isDebugProvision && nz (attr .& DEBUG_APP_FLAG)) in
  let st' := Update (hti_tokenID b) permStateList (hp_aclExtendedMap hapPolicy) needUpdatePermByProvision st in
  let attr := provision_attr (uhip_appProvisionType info) attr in
  (set_sideload (uhip_isSideloadApp info)
     (set_basic (set_attr_api attr (GetApiVersion (uhip_apiVersion info)) b) h), st').

(** ** The database row. *)
Definition HapTranslationIntoGenericValues (h : HapTokenInfoInner) (v : GenericValues) : GenericValues :=
  let b := tokenInfoBasic_ h in
  let v := Put FIELD_TOKEN_ID (TYPE_INT (i32 (hti_tokenID b))) v in
  let v := Put FIELD_USER_ID (TYPE_INT (hti_userID b)) v in
  let v := Put FIELD_BUNDLE_NAME (TYPE_STRING (hti_bundleName b)) v in
  let v := Put FIELD_API_VERSION (TYPE_INT (hti_apiVersion b)) v in
  let v := Put FIELD_INST_INDEX (TYPE_INT (hti_instIndex b)) v in
  let v := Put FIELD_DLP_TYPE (TYPE_INT (hti_dlpType b)) v in
  let v := Put FIELD_TOKEN_VERSION (TYPE_INT (hti_ver b)) v in
  let v := Put FIELD_TOKEN_ATTR (TYPE_INT (i32 (hti_tokenAttr b))) v in
  let v := Put FIELD_FORBID_PERM_DIALOG (TYPE_INT (z_of_bool (isPermDialogForbidden_ h))) v in
  let v := Put FIELD_IS_SIDELOAD (TYPE_INT (z_of_bool (isSideloadApp_ h))) v in
  if SPM_DATA_ENABLE then
    let v := Put FIELD_UID (TYPE_INT (hti_uid b)) v in
    let v := Put FIELD_RESERVED (TYPE_INT (z_of_bool (nz (hti_tokenAttr b .& TOKEN_RESERVED_FLAG)))) v in
    Put FIELD_MIGRATED (TYPE_INT (z_of_bool (isMigrated_ h))) v
  else v.

(** The members written before an error stay written. *)
Definition RestoreHapTokenBasicInfo (v : GenericValues) (h : HapTokenInfoInner) : Z * HapTokenInfoInner :=
  let b := tokenInfoBasic_ h in
  let b1 := mkHapTokenInfo (hti_ver b) (GetInt FIELD_USER_ID v) (GetString FIELD_BUNDLE_NAME v) (hti_apiVersion b)
              (hti_instIndex b) (hti_dlpType b) (hti_tokenID b) (hti_tokenAttr b) (hti_uid b) in
  if negb (IsBundleNameValid (hti_bundleName b1)) then (ERR_PARAM_INVALID, set_basic b1 h)
  else
    let b2 := mkHapTokenInfo (i8 (GetInt FIELD_TOKEN_VERSION v)) (hti_userID b1) (hti_bundleName b1)
                (GetApiVersion (GetInt FIELD_API_VERSION v)) (GetInt FIELD_INST_INDEX v) (GetInt FIELD_DLP_TYPE v)
                (hti_tokenID b) (hti_tokenAttr b) (hti_uid b) in
    if negb (hti_ver b2 =? DEFAULT_TOKEN_VERSION) then (ERR_PARAM_INVALID, set_basic b2 h)
    else
      let b3 := mkHapTokenInfo (hti_ver b2) (hti_userID b2) (hti_bundleName b2) (hti_apiVersion b2) (hti_instIndex b2)
                  (hti_dlpType b2) (hti_tokenID b2) (u32 (GetInt FIELD_TOKEN_ATTR v))
                  (if SPM_DATA_ENABLE then GetInt FIELD_UID v else hti_uid b2) in
      (RET_SUCCESS,
       mkHapTokenInfoInner b3 (isRemote_ h) (nz (GetInt FIELD_FORBID_PERM_DIALOG v))
         (if SPM_DATA_ENABLE then nz (GetInt FIELD_MIGRATED v) else isMigrated_ h)
         (nz (GetInt FIELD_IS_SIDELOAD v)) (permUpdateTimestamp_ h)).

Definition set_tokenID (id : Z) (b : HapTokenInfo) : HapTokenInfo :=
  mkHapTokenInfo (hti_ver b) (hti_userID b) (hti_bundleName b) (hti_apiVersion b) (hti_instIndex b) (hti_dlpType b)
    id (hti_tokenAttr b) (hti_uid b).

Definition RestoreHapTokenInfo (tokenId : Z) (tokenValue : GenericValues)
    (permStateRes extendedPermRes : gmap Z (list GenericValues)) (h : HapTokenInfoInner) (st : Brief)
    : Z * HapTokenInfoInner * Brief :=
  let h0 := set_basic (set_tokenID tokenId (tokenInfoBasic_ h)) h in
  let '(ret, h1) := RestoreHapTokenBasicInfo tokenValue h0 in
  if negb (ret =? RET_SUCCESS) then (ret, h1, st)
  else (RET_SUCCESS, h1, RestorePermissionBriefData tokenId permStateRes extendedPermRes st).

Definition GenerateHapInfoValues (appId : string) (apl : Z) (h : HapTokenInfoInner) (valueList : list GenericValues)
    : list GenericValues :=
  if isRemote_ h then valueList
  else
    let v := HapTranslationIntoGenericValues h ∅ in
    let v := Put FIELD_APP_ID (TYPE_STRING appId) v in
    let v := Put FIELD_APL (TYPE_INT apl) v in
    valueList ++ [Put FIELD_DEVICE_ID (TYPE_STRING "0") v].

Definition GeneratePermStateValues (now : nat -> Z) (oldPermStateValues : list GenericValues) (h : HapTokenInfoInner)
    (st : Brief) : list GenericValues :=
  if isRemote_ h then []
  else (BuildPermissionStateValues now (hti_tokenID (tokenInfoBasic_ h)) oldPermStateValues st).2.

Definition GetReqPermissionSize (h : HapTokenInfoInner) (st : Brief) : Z :=
  let '(ret, l) := GetBriefPermDataByTokenIdInner (hti_tokenID (tokenInfoBasic_ h)) st in
  if negb (ret =? RET_SUCCESS) then 0 else Z.of_nat (length l).

Definition UpdateRemoteHapTokenInfo (baseInfo : HapTokenInfo) (permStateList : list PermissionStatus)
    (h : HapTokenInfoInner) (st : Brief) : HapTokenInfoInner * Brief :=
  (set_basic baseInfo h, AddPermToBriefPermission (hti_tokenID baseInfo) permStateList ∅ false st).

(** [GetPermissionStateListInner], from an empty list. *)
Definition GetPermissionStateList (h : HapTokenInfoInner) (st : Brief) : Z * list PermissionStatus :=
  let '(ret, l) := GetBriefPermDataByTokenIdInner (hti_tokenID (tokenInfoBasic_ h)) st in
  if negb (ret =? RET_SUCCESS) then (ret, [])
  else (RET_SUCCESS,
        map (fun perm => mkPermissionStatus 0 (TransferOpcodeToPermission (bpd_permCode perm)) "" (bpd_status perm)
                           (bpd_flag perm) 0) l).

(** [ShortGrantManager::IsShortGrantPermission]. *)
Definition g_shortGrantPermission : list string := ["ohos.permission.SHORT_TERM_WRITE_IMAGEVIDEO"].
Definition IsShortGrantPermission (permissionName : string) : bool :=
  bool_decide (permissionName ∈ g_shortGrantPermission).

Context {S : Type} `{!AtmDb S}.

Definition state_condition (tokenID : Z) (permissionName : string) : GenericValues :=
  Put FIELD_PERMISSION_NAME (TYPE_STRING permissionName) (Put FIELD_TOKEN_ID (TYPE_INT (i32 tokenID)) ∅).

(** The loop over [permStateValues]; the result of [Modify] is ignored. *)
Fixpoint store_state_loop (now : Z) (tokenID : Z) (permissionName : string) (values : list GenericValues)
    (h : HapTokenInfoInner) (db : S) : HapTokenInfoInner * S :=
  match values with
  | [] => (h, db)
  | v :: rest =>
      if negb (String.eqb (GetString FIELD_PERMISSION_NAME v) permissionName)
      then store_state_loop now tokenID permissionName rest h db
      else
        let '(_, db') := db_Modify db ACCESSTOKEN_PERMISSION_STATE v (state_condition tokenID permissionName) in
        store_state_loop now tokenID permissionName rest (set_permUpdateTimestamp (u64 now) h) db'
  end.

(** Returns the code, whether the status changed, and the new states; [clock] is the
    time seen by the translation of the values and [now] the one stored in the object. *)
Definition HapUpdatePermissionStatus (clock : nat -> Z) (now : Z) (permissionName : string) (isGranted : bool)
    (flag : Z) (h : HapTokenInfoInner) (st : Brief) (db : S) : Z * bool * HapTokenInfoInner * Brief * S :=
  let tokenID := hti_tokenID (tokenInfoBasic_ h) in
  let '(ret, changeType, st') := UpdatePermissionStatus tokenID permissionName isGranted flag st in
  let changeType := default NO_CHANGE changeType in
  if negb (ret =? RET_SUCCESS) then (ret, false, h, st', db)
  else
    let statusChanged := match changeType with STATUS_ONLY | STATUS_AND_FLAG => true | _ => false end in
    if IsShortGrantPermission permissionName then (RET_SUCCESS, statusChanged, h, st', db)
    else if isRemote_ h then (RET_SUCCESS, statusChanged, h, st', db)
    else
      match changeType with
      | NO_CHANGE => (RET_SUCCESS, statusChanged, h, st', db)
      | _ =>
          let '(ret, permStateValues) := BuildPermissionStateValues clock tokenID [] st' in
          if negb (ret =? RET_SUCCESS) then (ret, statusChanged, h, st', db)
          else
            let '(h', db') := store_state_loop now tokenID permissionName permStateValues h db in
            (RET_SUCCESS, statusChanged, h', st', db')
      end.

Fixpoint UpdateStatesToDB (tokenID : Z) (stateChangeList : list PermissionStatus) (db : S) : bool * S :=
  match stateChangeList with
  | [] => (true, db)
  | state :: rest =>
      let modifyValue :=
        Put FIELD_TIMESTAMP (TYPE_INT64 (i64 (ps_timestamp state))) (
        Put FIELD_GRANT_FLAG (TYPE_INT (i32 (ps_grantFlag state))) (
        Put FIELD_GRANT_STATE (TYPE_INT (ps_grantStatus state)) ∅)) in
      let '(res, db') := db_Modify db ACCESSTOKEN_PERMISSION_STATE modifyValue
                           (state_condition tokenID (ps_permissionName state)) in
      if negb (res =? 0) then (false, db') else UpdateStatesToDB tokenID rest db'
  end.

(** [modes] is the DLP configuration. *)
Definition HapResetUserGrantPermissionStatus (modes : DlpModes) (now : Z) (h : HapTokenInfoInner) (st : Brief) (db : S)
    : Z * Brief * S :=
  let tokenID := hti_tokenID (tokenInfoBasic_ h) in
  let '(ret, st1) := ResetUserGrantPermissionStatus tokenID st in
  if negb (ret =? RET_SUCCESS) then (ret, st1, db)
  else
    let '(ret, permListOfHap) := GetPermissionStateList h st1 in
    if negb (ret =? RET_SUCCESS) then (ret, st1, db)
    else
      let '(permListOfHap, st2) :=
        if SUPPORT_SANDBOX_APP then
          let l := UpdatePermStateWithDlpInfo (hti_dlpType (tokenInfoBasic_ h)) modes permListOfHap in
          let aclExtendedMap :=
            fold_left (fun m e => <[pwv_permissionName e := pwv_value e]> m) (GetExtendedValueList tokenID st1) ∅ in
          (l, Update tokenID l aclExtendedMap false st1)
        else (permListOfHap, st1) in
      let permListOfHap := map (set_ps_timestamp (u64 now)) permListOfHap in
      let '(ok, db') := UpdateStatesToDB tokenID permListOfHap db in
      (if negb ok then ERR_DATABASE_OPERATE_FAILED else RET_SUCCESS, st2, db').

Definition HapVerifyPermissionStatus (tokenID : Z) (permissionName : string) (st : Brief) : Z :=
  VerifyPermissionStatus tokenID permissionName st.

Definition HapGetPermissionUsedType (tokenID : Z) (permissionName : string) (st : Brief) : PermUsedTypeEnum :=
  match TransferPermissionToOpcode permissionName with
  | None => INVALID_USED_TYPE
  | Some code => GetPermissionUsedType tokenID code st
  end.

Definition HapQueryPermissionStatusAndFlag (tokenID permCode : Z) (st : Brief) : Z + (Z * Z) :=
  QueryEffectivePermissionStatusAndFlag tokenID permCode st.

(** [SetPermissionToKernel] for each grant cleared; [set_kernel] is the kernel call. *)
Definition HapClearAllSecCompGrantedPerm {K : Type} (set_kernel : Z -> Z -> bool -> K -> K) (st : Brief) (k : K)
    : Brief * K :=
  let '(cleared, st') := ClearAllSecCompGrantedPerm st in
  (st', fold_left (fun k sc => set_kernel (sc_tokenId sc) (sc_permCode sc) false k) cleared k).

End HapTokenInfoInner.
