(* ===== verification/HapTokenInfoProps.v ===== *)
(** * What hap tokens guarantee

    The normalised API version, the database row of a token and its reload, and the
    storing of a changed permission. *)

From stdpp Require Import base gmap list strings.
From S2P Require Import Prelude AccessTokenTypes TokenId PermissionMap Validator Database DataTranslator PermissionDataBrief PermissionDataBriefTheory ConstraintCheck HapTokenInfo.
#[local] Open Scope string_scope.
#[local] Open Scope list_scope.
#[local] Open Scope Z_scope.
#[local] Open Scope cxx_scope.

(** ** The API version. *)
Lemma str_drop_app s t : str_drop (String.length s) (s +:+ t) = t.
Proof. induction s as [|c s IH]; [by destruct t|]. exact IH. Qed.

Lemma length_str_app s t : String.length (s +:+ t) = (String.length s + String.length t)%nat.
Proof. induction s as [|c s IH]; [done|]. change (S (String.length (s +:+ t)) = S (String.length s + String.length t)). by rewrite IH. Qed.

Lemma print_digits_app fuel : forall n acc,
  exists s, print_digits fuel n acc = s +:+ acc /\ ((0 < fuel)%nat -> (0 < String.length s)%nat).
Proof.
  induction fuel as [|fuel IH]; intros n acc; cbn [print_digits]; [exists ""; by split; [|lia]|].
  destruct (n <? 10)%N.
  - exists (String (digit_char (n mod 10)) ""). split; [done|]. cbn. lia.
  - destruct (IH (n / 10)%N (String (digit_char (n mod 10)) acc)) as (s & -> & _).
    exists (s +:+ String (digit_char (n mod 10)) ""). split.
    + clear. induction s as [|c s IH]; [done|].
      change (String c (s +:+ String (digit_char (n mod 10)) acc) =
        String c ((s +:+ String (digit_char (n mod 10)) "") +:+ acc)). by rewrite IH.
    + rewrite length_str_app. cbn. lia.
Qed.

Definition three_digits (n : N) : string :=
  String (digit_char (n / 10 / 10 mod 10)) (String (digit_char (n / 10 mod 10)) (String (digit_char (n mod 10)) "")).

(** A printed number of three or more digits ends in its last three. *)
Lemma print_N_last3 n : (100 <= n)%N ->
  exists s, print_N n = s +:+ three_digits n /\ (s = "" <-> (n < 1000)%N).
Proof.
  intros Hn. unfold print_N. assert (exists f, N.to_nat (N.size n) = S (S (S f))) as (f & ->).
  { exists (N.to_nat (N.size n) - 3)%nat. assert (3 <= N.size n)%N as H3; [|clear -H3; lia].
    pose proof (N.size_gt n) as Hs. destruct (N.le_gt_cases 3 (N.size n)) as [|Hlt]; [done|].
    assert (2 ^ N.size n <= 2 ^ 2)%N by (apply N.pow_le_mono_r; lia). lia. }
  remember (S f) as f' eqn:Hf. cbn [print_digits]. rewrite (proj2 (N.ltb_ge n 10)) by lia.
  assert (10 <= n / 10)%N as H1. { apply N.div_le_lower_bound; lia. }
  rewrite (proj2 (N.ltb_ge (n / 10) 10)) by lia. fold (three_digits n).
  pose proof (N.Div0.div_mod n (10 * 10)) as Hd. pose proof (N.mod_lt n (10 * 10) ltac:(lia)) as Hm.
  assert (n / 10 / 10 = n / (10 * 10))%N as Ed by apply N.Div0.div_div.
  change (10 * 10)%N with 100%N in *. rewrite Ed.
  destruct (N.ltb_spec (n / 100) 10) as [Hlt|Hge].
  - exists "". split; [done|]. split; [|done]. intros _. lia.
  - destruct (print_digits_app f' (n / 100 / 10) (three_digits n)) as (s & E & Hs).
    exists s. split; [exact E|]. split; [|intros ?; exfalso; pose proof (N.Div0.mul_div_le n 100); lia]. intros ->. specialize (Hs ltac:(lia)). cbn in Hs. lia.
Qed.

Lemma atoi_three_digits n : atoi (three_digits n) = Z.of_N n mod 1000.
Proof.
  unfold atoi, three_digits. rewrite digit_char_ne by (first [by apply N.mod_lt|reflexivity]). cbn [atoi_digits].
  rewrite !char_digit_char by (by apply N.mod_lt).
  pose proof (N.Div0.div_mod n 10). pose proof (N.Div0.div_mod (n / 10) 10). pose proof (N.Div0.div_mod (n / 10 / 10) 10).
  pose proof (N.mod_lt n 10 ltac:(lia)). pose proof (N.mod_lt (n / 10) 10 ltac:(lia)).
  pose proof (N.mod_lt (n / 10 / 10) 10 ltac:(lia)).
  apply (Z.mod_unique_pos _ _ (Z.of_N (n / 10 / 10 / 10))); revert H H0 H1 H2 H3 H4;
    generalize (n / 10)%N (n / 10 / 10)%N (n / 10 / 10 / 10)%N (n / 10 / 10 mod 10)%N (n / 10 mod 10)%N (n mod 10)%N;
    lia.
Qed.

Lemma print_N_short n : (n < 100)%N -> (String.length (print_N n) <= 2)%nat.
Proof.
  intros Hn. unfold print_N. destruct (N.to_nat (N.size n)) as [|f]; cbn [print_digits].
  { destruct (n <? 10)%N; cbn; lia. }
  destruct (N.ltb_spec n 10); [cbn; lia|]. rewrite (proj2 (N.ltb_lt (n / 10) 10)); [cbn; lia|].
  apply N.Div0.div_lt_upper_bound. lia.
Qed.

(** The normalised API version is the last three decimal digits: a version
    from -99 to 999 is kept, the magnitude of any other is taken modulo 1000, and
    normalising again changes nothing. *)
Theorem GetApiVersion_spec v :
  GetApiVersion v = (if (- 100 <? v) && (v <? 1000) then v else Z.abs v mod 1000) /\
  GetApiVersion (GetApiVersion v) = GetApiVersion v.
Proof.
  assert (forall v, GetApiVersion v = if (- 100 <? v) && (v <? 1000) then v else Z.abs v mod 1000) as H.
  { clear v. intros v. unfold GetApiVersion, to_string. cbv zeta. destruct (Z.ltb_spec v 0) as [Hn|Hp].
    - cbn [String.length]. destruct (N.lt_ge_cases (Z.to_N (- v)) 100) as [Hs|Hs].
      + pose proof (print_N_short _ Hs). rewrite (proj2 (Nat.leb_le _ _)) by lia.
        rewrite (proj2 (Z.ltb_lt (- 100) v)), (proj2 (Z.ltb_lt v 1000)) by lia. done.
      + destruct (print_N_last3 _ Hs) as (s & E & _). rewrite E, length_str_app. cbn [String.length three_digits].
        rewrite (proj2 (Nat.leb_gt _ _)) by lia.
        replace (S (String.length s + 3) - 3)%nat with (String.length (String minus_char s)) by (cbn; lia).
        change (String minus_char (s +:+ three_digits (Z.to_N (- v)))) with
          (String minus_char s +:+ three_digits (Z.to_N (- v))).
        rewrite str_drop_app, atoi_three_digits. rewrite (proj2 (Z.ltb_ge (- 100) v)) by lia. cbn [andb].
        f_equal. lia.
    - rewrite (proj2 (Z.ltb_lt (- 100) v)) by lia. cbn [andb]. destruct (N.lt_ge_cases (Z.to_N v) 100) as [Hs|Hs].
      + pose proof (print_N_short _ Hs). rewrite (proj2 (Nat.leb_le _ _)) by lia.
        by rewrite (proj2 (Z.ltb_lt v 1000)) by lia.
      + destruct (print_N_last3 _ Hs) as (s & E & Hs'). rewrite E, length_str_app. cbn [String.length three_digits].
        destruct (Z.ltb_spec v 1000) as [Hlt|Hge].
        * assert (s = "") as -> by (apply Hs'; lia). cbn. done.
        * assert (0 < String.length s)%nat as Hl. { destruct s; [|cbn; lia]. pose proof (proj1 Hs' eq_refl). lia. }
          rewrite (proj2 (Nat.leb_gt _ _)) by lia.
          replace (String.length s + 3 - 3)%nat with (String.length s) by lia.
          rewrite str_drop_app, atoi_three_digits. f_equal. lia. }
  split; [apply H|]. rewrite !H. destruct ((- 100 <? v) && (v <? 1000)) eqn:B; [by rewrite B|].
  pose proof (Z.mod_pos_bound (Z.abs v) 1000 ltac:(lia)).
  by rewrite (proj2 (Z.ltb_lt (- 100) _)), (proj2 (Z.ltb_lt _ 1000)) by lia.
Qed.

(** ** The row of a token. *)
Section Row.
Context {PT : PermTable} {BC : BuildConfig}.
Implicit Types (h : HapTokenInfoInner).

(** A local token with members in their types' ranges, its API version normalised. *)
Definition hap_wf h : Prop :=
  let b := tokenInfoBasic_ h in
  isRemote_ h = false /\ hti_ver b = DEFAULT_TOKEN_VERSION /\ IsBundleNameValid (hti_bundleName b) = true /\
  is_i32 (hti_userID b) /\ is_i32 (hti_apiVersion b) /\ GetApiVersion (hti_apiVersion b) = hti_apiVersion b /\
  is_i32 (hti_instIndex b) /\ is_i32 (hti_dlpType b) /\ is_u32 (hti_tokenAttr b) /\ is_i32 (hti_uid b).

Definition hap_value (appId : string) (apl : Z) h : GenericValues :=
  Put FIELD_DEVICE_ID (TYPE_STRING "0") (Put FIELD_APL (TYPE_INT apl) (Put FIELD_APP_ID (TYPE_STRING appId)
    (HapTranslationIntoGenericValues h ∅))).

Lemma hap_value_lookup appId apl h :
  let v := hap_value appId apl h in
  let b := tokenInfoBasic_ h in
  v !! FIELD_USER_ID = Some (TYPE_INT (hti_userID b)) /\
  v !! FIELD_BUNDLE_NAME = Some (TYPE_STRING (hti_bundleName b)) /\
  v !! FIELD_API_VERSION = Some (TYPE_INT (hti_apiVersion b)) /\
  v !! FIELD_INST_INDEX = Some (TYPE_INT (hti_instIndex b)) /\
  v !! FIELD_DLP_TYPE = Some (TYPE_INT (hti_dlpType b)) /\
  v !! FIELD_TOKEN_VERSION = Some (TYPE_INT (hti_ver b)) /\
  v !! FIELD_TOKEN_ATTR = Some (TYPE_INT (i32 (hti_tokenAttr b))) /\
  v !! FIELD_FORBID_PERM_DIALOG = Some (TYPE_INT (z_of_bool (isPermDialogForbidden_ h))) /\
  v !! FIELD_IS_SIDELOAD = Some (TYPE_INT (z_of_bool (isSideloadApp_ h))) /\
  (SPM_DATA_ENABLE = true -> v !! FIELD_UID = Some (TYPE_INT (hti_uid b)) /\
     v !! FIELD_MIGRATED = Some (TYPE_INT (z_of_bool (isMigrated_ h)))).
Proof.
  cbv zeta. unfold hap_value, HapTranslationIntoGenericValues. cbv zeta. destruct SPM_DATA_ENABLE.
  - do 9 (split; [put_lookup|]). intros _. split; put_lookup.
  - do 9 (split; [put_lookup|]). discriminate.
Qed.

Lemma reload_int v k z :
  v !! k = Some (TYPE_INT z) -> IsColumnStringType k = false -> k <> FIELD_TIMESTAMP -> is_i32 z ->
  GetInt k (reload v) = z.
Proof.
  intros Hk Hs Ht Hz. unfold GetInt. rewrite reload_lookup, Hk. cbn [fmap option_fmap option_map].
  unfold reload_value, ToRdbValue. rewrite Hs. rewrite (proj2 (String.eqb_neq _ _) Ht). cbn. by apply i32_small.
Qed.

Lemma z_of_bool_i32 b : is_i32 (z_of_bool b).
Proof. unfold is_i32. destruct b; cbn; lia. Qed.

Lemma nz_z_of_bool b : nz (z_of_bool b) = b.
Proof. by destruct b. Qed.

(** The database row of a token, read back at start-up, restores the token: the bundle,
    user, instance, DLP type, API version, attributes, dialog and sideload switches, and
    (when the build stores them) the uid and the migration mark. *)
Theorem hap_row_roundtrip h appId apl permRes extRes st :
  hap_wf h ->
  exists v, GenerateHapInfoValues appId apl h [] = [v] /\
    RestoreHapTokenInfo (hti_tokenID (tokenInfoBasic_ h)) (reload v) permRes extRes default_HapTokenInfoInner st =
    (RET_SUCCESS,
     mkHapTokenInfoInner
       (if SPM_DATA_ENABLE then tokenInfoBasic_ h
        else let b := tokenInfoBasic_ h in
             mkHapTokenInfo (hti_ver b) (hti_userID b) (hti_bundleName b) (hti_apiVersion b) (hti_instIndex b)
               (hti_dlpType b) (hti_tokenID b) (hti_tokenAttr b) INVALID_UID)
       false (isPermDialogForbidden_ h) (SPM_DATA_ENABLE && isMigrated_ h) (isSideloadApp_ h) 0,
     RestorePermissionBriefData (hti_tokenID (tokenInfoBasic_ h)) permRes extRes st).
Proof.
  intros (Hr & Hver & Hb & Hu & Ha & Han & Hi & Hd & Hat & Huid). exists (hap_value appId apl h).
  split; [unfold GenerateHapInfoValues; by rewrite Hr|].
  pose proof (hap_value_lookup appId apl h) as Hv. cbv zeta in Hv. set (v := hap_value appId apl h) in *.
  destruct Hv as (E1 & E2 & E3 & E4 & E5 & E6 & E7 & E8 & E9 & E10).
  assert (GetString FIELD_BUNDLE_NAME (reload v) = hti_bundleName (tokenInfoBasic_ h)) as Es.
  { unfold GetString. rewrite reload_lookup, E2. reflexivity. }
  assert (is_i32 (hti_ver (tokenInfoBasic_ h))) as Hv32.
  { rewrite Hver. unfold is_i32, DEFAULT_TOKEN_VERSION. lia. }
  apply reload_int in E1; [|reflexivity|discriminate|done]. apply reload_int in E3; [|reflexivity|discriminate|done].
  apply reload_int in E4; [|reflexivity|discriminate|done]. apply reload_int in E5; [|reflexivity|discriminate|done].
  apply reload_int in E6; [|reflexivity|discriminate|done].
  apply reload_int in E7; [|reflexivity|discriminate|apply i32_range].
  apply reload_int in E8; [|reflexivity|discriminate|apply z_of_bool_i32].
  apply reload_int in E9; [|reflexivity|discriminate|apply z_of_bool_i32].
  unfold RestoreHapTokenInfo. cbv zeta. unfold RestoreHapTokenBasicInfo. cbv zeta. cbn [hti_bundleName hti_ver].
  rewrite Es, Hb. cbn [negb]. rewrite E6, Hver. cbn [i8 Z.eqb negb DEFAULT_TOKEN_VERSION].
  change (i8 1) with 1. cbn [Z.eqb Pos.eqb negb RET_SUCCESS].
  rewrite E1, E3, E4, E5, E7, E8, E9, Han, u32_i32, u32_small, !nz_z_of_bool by done.
  assert (SPM_DATA_ENABLE = true -> GetInt FIELD_UID (reload v) = hti_uid (tokenInfoBasic_ h) /\
    GetInt FIELD_MIGRATED (reload v) = z_of_bool (isMigrated_ h)) as Espm.
  { intros Hs. destruct (E10 Hs) as [U M]. split; (eapply reload_int; [eassumption|reflexivity|discriminate|]);
      [done|apply z_of_bool_i32]. }
  destruct SPM_DATA_ENABLE.
  - destruct (Espm eq_refl) as [-> ->]. rewrite nz_z_of_bool. destruct (tokenInfoBasic_ h); cbn in *. by subst.
  - destruct (tokenInfoBasic_ h); cbn in *. by subst.
Qed.

End Row.

(** ** Storing a changed permission. *)
Section Store.
Context {PT : PermTable} `{!PermTableLaws PT} {BC : BuildConfig} {S : Type} `{!AtmDb S}.
Implicit Types (h : HapTokenInfoInner) (db : S) (st : Brief).

Lemma state_value_name now t d :
  entry_wf d -> GetString FIELD_PERMISSION_NAME (BuildPermissionStateValue now t ∅ d) =
    TransferOpcodeToPermission (bpd_permCode d).
Proof.
  intros _. unfold BuildPermissionStateValue. cbv zeta. rewrite lookup_empty. unfold GetString.
  rewrite Put_lookup_ne by discriminate. unfold TranslationIntoGenericValues.
  do 5 (rewrite Put_lookup_ne by discriminate). rewrite Put_lookup_fresh; [done|]. put_lookup.
Qed.

Lemma store_state_loop_skip now t p vals h db :
  Forall (fun v => GetString FIELD_PERMISSION_NAME v <> p) vals -> store_state_loop now t p vals h db = (h, db).
Proof.
  induction 1 as [|v vals Hv _ IH]; [done|]. cbn [store_state_loop].
  rewrite (proj2 (String.eqb_neq _ _) Hv). exact IH.
Qed.

(** With distinct codes exactly the value of the permission's own entry is stored. *)
Lemma store_state_loop_one now t p c d clock h db l : forall k,
  list_wf l -> 0 <= c < MAX_PERM_SIZE -> TransferOpcodeToPermission c = p -> find_if (has_code c) l = Some d ->
  exists i, store_state_loop now t p (imap (fun i x => BuildPermissionStateValue (clock (k + i)%nat) t ∅ x) l) h db =
    (set_permUpdateTimestamp (u64 now) h,
     (db_Modify db ACCESSTOKEN_PERMISSION_STATE (BuildPermissionStateValue (clock i) t ∅ d) (state_condition t p)).2).
Proof.
  induction l as [|x l IH]; intros k [Hn Hw] Hc Hp F; [done|]. cbn [imap map] in *. apply NoDup_cons in Hn as [Hx Hn].
  apply Forall_cons in Hw as [Hwx Hw]. cbn [find_if] in F. cbn [store_state_loop].
  rewrite (state_value_name _ _ _ Hwx), Nat.add_0_r. unfold has_code in F at 1.
  destruct (Z.eqb_spec (bpd_permCode x) c) as [Ex|Hne].
  - injection F as <-. rewrite Ex, Hp, String.eqb_refl. cbn [negb]. exists k.
    destruct (db_Modify db _ _ _) as [e db1]. rewrite store_state_loop_skip; [done|].
    apply Forall_forall. intros v (i & y & -> & Hy)%elem_of_lookup_imap.
    assert (y ∈ l) as Hin by (by eapply list_elem_of_lookup_2).
    rewrite Forall_forall in Hw. unfold compose. rewrite state_value_name by (by apply Hw). intros E.
    apply Hx. rewrite Ex. apply list_elem_of_fmap. exists y. split; [|done].
    rewrite <- Hp in E. destruct (Hw y Hin) as (_ & Hcy & _).
    apply name_to_opcode in Hc. apply name_to_opcode in Hcy. rewrite E in Hcy. congruence.
  - assert (TransferOpcodeToPermission (bpd_permCode x) <> p) as Hnp.
    { intros E. rewrite <- Hp in E. destruct Hwx as (_ & Hcx & _). apply Hne.
      apply name_to_opcode in Hc. apply name_to_opcode in Hcx. rewrite E in Hcx. congruence. }
    rewrite (proj2 (String.eqb_neq _ _) Hnp). cbn [negb].
    destruct (IH (Datatypes.S k)) as (i & E); [done..|]. exists i. rewrite <- E. f_equal.
    apply imap_ext. intros j y _. cbn. f_equal. f_equal. lia.
Qed.

(** What the stored value leaves in the rows it matches. *)
Lemma stored_row_holds v s (r : Row) :
  holds_status (reload v) s -> (forall k, k ∈ status_keys -> is_Some (v !! k)) ->
  holds_status (ResultToGenericValues (ToRdbValueBucket v ∪ r)) s.
Proof.
  intros (H1 & H2 & H3) Hk.
  assert (forall k, k ∈ status_keys ->
    ResultToGenericValues (ToRdbValueBucket v ∪ r) !! k = reload v !! k) as E.
  { intros k Hin. unfold reload, ResultToGenericValues. rewrite !lookup_fmap, lookup_union.
    destruct (Hk k Hin) as [x Hx]. unfold ToRdbValueBucket. rewrite map_lookup_imap, Hx. cbn.
    by destruct (r !! k). }
  unfold holds_status, GetString, GetInt in *. rewrite !E by (unfold status_keys; set_solver). done.
Qed.

Lemma state_value_keys now t d k :
  k ∈ status_keys -> is_Some (BuildPermissionStateValue now t ∅ d !! k).
Proof.
  intros Hk. unfold BuildPermissionStateValue. cbv zeta. rewrite lookup_empty.
  unfold TranslationIntoGenericValues, status_keys in *.
  repeat (apply elem_of_cons in Hk as [->|Hk]; [eexists; put_lookup|]). by apply not_elem_of_nil in Hk.
Qed.

Lemma oldPermStateMap_nil : oldPermStateMap [] = ∅.
Proof. done. Qed.

(** The rows the statement addresses read back what was stored. *)
Lemma stored_state_rows clock t p d db e db' :
  entry_wf d -> TransferOpcodeToPermission (bpd_permCode d) = p ->
  db_Modify db ACCESSTOKEN_PERMISSION_STATE (BuildPermissionStateValue clock t ∅ d) (state_condition t p) = (e, db') ->
  e = RET_SUCCESS ->
  forall r, r ∈ db_rows db' ACCESSTOKEN_PERMISSION_STATE -> row_matches (ToRdbPredicates (state_condition t p)) r ->
    holds_status (ResultToGenericValues r) (GetPermissionStatus clock d).
Proof.
  intros Hw Hp M He r Hr Hm. apply db_Modify_spec in M. rewrite decide_True in M by done. destruct M as [M _].
  rewrite M in Hr. unfold update_rows in Hr. apply list_elem_of_fmap in Hr as (r0 & -> & Hr0).
  destruct (decide (row_matches _ r0)); [|done].
  apply stored_row_holds; [by apply BuildPermissionStateValue_holds|]. intros k. apply state_value_keys.
Qed.

(** A permission change on a local token reaches the database: unless nothing changed or
    the permission is a short-term grant, the permission's row is rewritten from the new
    entry, and when the write succeeds every row of that token and permission reads back
    the entry's status and flag; a remote token's rows are never written. *)
Theorem hap_update_stored clock now p c b f h st db changed h' st' db' :
  brief_wf st -> is_u32 f -> TransferPermissionToOpcode p = Some c -> c_str p = p ->
  HapUpdatePermissionStatus clock now p b f h st db = (RET_SUCCESS, changed, h', st', db') ->
  let t := hti_tokenID (tokenInfoBasic_ h) in
  (UpdatePermissionStatus t p b f st).1.1 = RET_SUCCESS /\ st' = (UpdatePermissionStatus t p b f st).2 /\
  (IsShortGrantPermission p = true \/ isRemote_ h = true \/
     (UpdatePermissionStatus t p b f st).1.2 = Some NO_CHANGE -> db' = db) /\
  (IsShortGrantPermission p = false -> isRemote_ h = false ->
   (UpdatePermissionStatus t p b f st).1.2 <> Some NO_CHANGE ->
   forall d, entry st' t c = Some d -> exists i e,
     db_Modify db ACCESSTOKEN_PERMISSION_STATE (BuildPermissionStateValue (clock i) t ∅ d) (state_condition t p) =
       (e, db') /\
     (e = RET_SUCCESS -> forall r, r ∈ db_rows db' ACCESSTOKEN_PERMISSION_STATE ->
        row_matches (ToRdbPredicates (state_condition t p)) r ->
        holds_status (ResultToGenericValues r) (GetPermissionStatus (clock i) d))).
Proof.
  intros Hw Hf T Hp H t. unfold HapUpdatePermissionStatus in H. fold t in H.
  pose proof (UpdatePermissionStatus_wf t p b f st Hw Hf) as Hw'.
  assert (exists ct, (UpdatePermissionStatus t p b f st).1.2 = Some ct) as (ct & Hct).
  { unfold UpdatePermissionStatus. rewrite T. destruct (if negb _ then _ else _). eexists. done. }
  destruct (UpdatePermissionStatus t p b f st) as [[ret cto] st1]. cbn [fst snd] in *. subst cto. cbn [default] in H.
  cbv zeta in H. destruct (Z.eqb_spec ret RET_SUCCESS) as [->|Hr]; cbn [negb] in H; [|congruence]. split; [done|].
  destruct (IsShortGrantPermission p) eqn:Hs.
  { injection H as <- <- <- <-. split; [done|]. split; [done|]. done. }
  destruct (isRemote_ h) eqn:Hrm.
  { injection H as <- <- <- <-. split; [done|]. split; [done|]. done. }
  destruct (decide (ct = NO_CHANGE)) as [->|Hne].
  { injection H as <- <- <- <-. split; [done|]. split; [done|]. done. }
  assert (exists hx dbx vals, BuildPermissionStateValues clock t [] st1 = (RET_SUCCESS, vals) /\
    store_state_loop now t p vals h db = (hx, dbx) /\ st' = st1 /\ db' = dbx) as (hx & dbx & vals & Hb & Hl & -> & ->).
  { destruct ct; try done; destruct (BuildPermissionStateValues clock t [] st1) as [rb vals];
      (destruct (Z.eqb_spec rb RET_SUCCESS) as [->|Hrb]; cbn [negb] in H; [|exfalso; injection H; intros; by apply Hrb]);
      destruct (store_state_loop now t p vals h db) as [hx dbx] eqn:L; injection H as _ <- <- <-; eauto 10. }
  split; [done|]. split; [intros [?|[?|?]]; congruence|]. intros _ _ _ d En.
  unfold BuildPermissionStateValues, GetBriefPermDataByTokenIdInner in Hb. unfold entry in En.
  destruct (requestedPermData_ st1 !! t) as [l|] eqn:El; [|done]. cbn [negb Z.eqb RET_SUCCESS] in Hb. cbn in En.
  injection Hb as <-. rewrite oldPermStateMap_nil in Hl.
  assert (list_wf l) as Hlw by (by apply (brief_wf_lookup st1 t l)).
  assert (TransferOpcodeToPermission c = p) as Hcp by (rewrite (opcode_to_name _ _ T); done).
  destruct (store_state_loop_one now t p c d clock h db l 0 Hlw (opcode_range _ _ T) Hcp En) as (i & E).
  cbn [Nat.add] in E. rewrite E in Hl. injection Hl as <- <-.
  destruct (db_Modify db ACCESSTOKEN_PERMISSION_STATE _ _) as [e dbx] eqn:M. exists i, e. split; [done|].
  assert (entry_wf d /\ bpd_permCode d = c) as [Hdw Hdc].
  { apply (entry_of_wf st1 t c d Hw'). unfold entry. by rewrite El. }
  apply (stored_state_rows (clock i) t p d db e dbx Hdw); [by rewrite Hdc|exact M].
Qed.

End Store.

(** A sideloaded debug application of user 100. *)
Definition sample_hap : HapTokenInfoInner :=
  mkHapTokenInfoInner (mkHapTokenInfo DEFAULT_TOKEN_VERSION 100 "com.example.app" 20 0 DLP_COMMON 0x20000001
    DEBUG_APP_FLAG 20010003) false true true true 0.

Lemma hap_row_roundtrip_witness :
  exists v, @GenerateHapInfoValues full_config "id" APL_NORMAL sample_hap [] = [v] /\
    (@RestoreHapTokenInfo sample_table full_config 0x20000001 (reload v) ∅ ∅ default_HapTokenInfoInner empty_brief).1.2 =
    sample_hap.
Proof.
  destruct (@hap_row_roundtrip sample_table full_config sample_hap "id" APL_NORMAL ∅ ∅ empty_brief)
    as (v & Hv & Hr).
  - unfold hap_wf, is_i32, is_u32. cbv zeta. split_and!; vm_compute; first [reflexivity|discriminate].
  - exists v. split; [exact Hv|]. cbn [sample_hap tokenInfoBasic_ hti_tokenID] in Hr. rewrite Hr. reflexivity.
Defined.

Section StoreWitness.
#[local] Existing Instance sample_table.
#[local] Existing Instance sample_table_laws.
#[local] Existing Instance full_config.

Definition hap_request (p : string) : PermissionStatus :=
  mkPermissionStatus 0x20000001 p "" PERMISSION_DENIED PERMISSION_DEFAULT_FLAG 0.
Definition hap_brief : Brief := AddPermToBriefPermission 0x20000001 [hap_request CAMERA] ∅ true empty_brief.
(** The database of the application's requests. *)
Definition hap_db : MemRdb :=
  (db_DeleteAndInsertValues (mkMemRdb ∅ []) []
     [mkAddInfo ACCESSTOKEN_PERMISSION_STATE (GeneratePermStateValues (fun _ => 1) [] sample_hap hap_brief)]).2.

Lemma hap_brief_wf : brief_wf hap_brief.
Proof.
  apply (brief_step_wf empty_brief); [|apply empty_brief_wf].
  apply step_AddPerm; [unfold is_u32; lia|repeat constructor|done].
Qed.

Lemma user_set_u32 : is_u32 PERMISSION_USER_SET.
Proof. unfold is_u32, PERMISSION_USER_SET. lia. Qed.

Definition hap_granted : Z * bool * HapTokenInfoInner * Brief * MemRdb :=
  HapUpdatePermissionStatus (fun _ => 2) 2 CAMERA true PERMISSION_USER_SET sample_hap hap_brief hap_db.

(** The stored row reads back as granted by the user. *)
Lemma hap_update_stored_witness :
  length (db_rows hap_granted.2 ACCESSTOKEN_PERMISSION_STATE) = 1%nat /\
  forall r, r ∈ db_rows hap_granted.2 ACCESSTOKEN_PERMISSION_STATE ->
    row_matches (ToRdbPredicates (state_condition 0x20000001 CAMERA)) r ->
    GetInt FIELD_GRANT_STATE (ResultToGenericValues r) = PERMISSION_GRANTED.
Proof.
  split; [vm_compute; reflexivity|].
  destruct (hap_update_stored (fun _ => 2) 2 CAMERA 0 true PERMISSION_USER_SET sample_hap hap_brief hap_db
    hap_granted.1.1.1.2 hap_granted.1.1.2 hap_granted.1.2 hap_granted.2 hap_brief_wf user_set_u32 eq_refl eq_refl)
    as (_ & _ & _ & H).
  - apply injective_projections; [|reflexivity]. apply injective_projections; [|reflexivity].
    apply injective_projections; [|reflexivity]. apply injective_projections; [|reflexivity]. vm_compute. reflexivity.
  - destruct (H eq_refl eq_refl ltac:(vm_compute; discriminate)
      (mkBriefPermData PERMISSION_GRANTED 0 0 PERMISSION_USER_SET) ltac:(vm_compute; reflexivity)) as (i & e & M & R).
    assert (e = RET_SUCCESS) as He.
    { apply (f_equal fst) in M. vm_compute in M. symmetry. exact M. }
    intros r Hr Hm. destruct (R He r Hr Hm) as (_ & _ & G). exact G.
Defined.
End StoreWitness.
