(* ===== verification/PermissionRequest.v ===== *)
(** * Permission requests

    What an application is told when it asks for permissions: the classification of one
    permission (GetSelfPermissionState and its helpers of permission_manager.cpp), the
    rules that tie the three location permissions together, and the answer for a whole
    request (GetPermissionsState of accesstoken_manager_service.cpp). *)

From stdpp Require Import base gmap list strings.
From S2P Require Import Prelude AccessTokenTypes PermissionMap Validator ConstraintCheck.
#[local] Open Scope string_scope.
#[local] Open Scope list_scope.
#[local] Open Scope Z_scope.
#[local] Open Scope cxx_scope.

(** [PermissionListState]: the name asked for, the answer and its reason. *)
Record PermissionListState := mkPermissionListState {
  pls_permissionName : string;
  pls_state : Z;
  pls_errorReason : Z;
}.

Definition set_answer (state reason : Z) (p : PermissionListState) : PermissionListState :=
  mkPermissionListState (pls_permissionName p) state reason.

Definition g_notDisplayedPerms : list string :=
  [ "ohos.permission.ANSWER_CALL"; "ohos.permission.MANAGE_VOICEMAIL"; "ohos.permission.READ_CELL_MESSAGES";
    "ohos.permission.RECEIVE_MMS"; "ohos.permission.RECEIVE_SMS"; "ohos.permission.RECEIVE_WAP_MESSAGES";
    "ohos.permission.SEND_MESSAGES"; "ohos.permission.WRITE_CALL_LOG";
    "ohos.permission.SHORT_TERM_WRITE_IMAGEVIDEO" ].

Definition VAGUE_LOCATION_PERMISSION_NAME : string := "ohos.permission.APPROXIMATELY_LOCATION".
Definition ACCURATE_LOCATION_PERMISSION_NAME : string := "ohos.permission.LOCATION".
Definition BACKGROUND_LOCATION_PERMISSION_NAME : string := "ohos.permission.LOCATION_IN_BACKGROUND".
Definition ACCURATE_LOCATION_API_VERSION : Z := 9.
Definition BACKGROUND_LOCATION_API_VERSION : Z := 11.

(** [const uint32_t PERMISSION_NOT_REQUSET = -1]. *)
Definition PERMISSION_NOT_REQUSET : Z := u32 (-1).

Record LocationIndex := mkLocationIndex { vagueIndex : Z; accurateIndex : Z; backIndex : Z }.

Definition default_LocationIndex : LocationIndex :=
  mkLocationIndex PERMISSION_NOT_REQUSET PERMISSION_NOT_REQUSET PERMISSION_NOT_REQUSET.

Section Request.
Context {PT : PermTable} {BC : BuildConfig}.

(** ** One permission. *)

(** The status and flag of the declared permission, or the state with its reason. *)
Definition IsPermissionRequestedInHap (permsList : list PermissionStatus) (permState : PermissionListState)
    : (Z * Z) + PermissionListState :=
  let permission := pls_permissionName permState in
  if negb (IsPermissionValidForHap permission)
  then inr (set_answer (pls_state permState) PERM_INVALID permState)
  else
    match find (fun perm => String.eqb permission (ps_permissionName perm)) permsList with
    | None => inr (set_answer (pls_state permState) PERM_NOT_DECLEARED permState)
    | Some iter => inl (ps_grantStatus iter, u32 (ps_grantFlag iter))
    end.

(** [dlpType] is the type of the calling token. *)
Definition IsPermissionRestrictedByRules (dlpType : Z) (modes : DlpModes) (permission : string) : bool :=
  if bool_decide (permission ∈ g_notDisplayedPerms) then true
  else SUPPORT_SANDBOX_APP && negb (dlpType =? DLP_COMMON) &&
       negb (IsPermissionAvailableToDlpHap dlpType permission modes).

(** Whether the case is handled, and the state with its answer. *)
Definition HandlePermissionDeniedCase (goalGrantFlag : Z) (permState : PermissionListState)
    : bool * PermissionListState :=
  let isManual :=
    match GetPermissionBriefDef_name (pls_permissionName permState) with
    | Some briefDef => pbd_grantMode briefDef =? MANUAL_SETTINGS
    | None => false
    end in
  if isManual then (true, set_answer INVALID_OPER MANUAL_SETTING_PERM permState)
  else if nz (goalGrantFlag .& PERMISSION_FIXED_BY_ADMIN_POLICY)
  then (true, set_answer FORBIDDEN_OPER UNABLE_POP_UP permState)
  else if nz (goalGrantFlag .& PERMISSION_ADMIN_POLICIES_CANCEL)
  then (true, set_answer SETTING_OPER REQ_SUCCESS permState)
  else if nz (goalGrantFlag .& PERMISSION_FIXED_FOR_SECURITY_POLICY)
  then (true, set_answer SETTING_OPER REQ_SUCCESS permState)
  else if (goalGrantFlag =? PERMISSION_DEFAULT_FLAG) || nz (goalGrantFlag .& PERMISSION_USER_SET) ||
          nz (goalGrantFlag .& PERMISSION_COMPONENT_SET) || nz (goalGrantFlag .& PERMISSION_ALLOW_THIS_TIME)
  then (true, set_answer DYNAMIC_OPER REQ_SUCCESS permState)
  else if nz (goalGrantFlag .& PERMISSION_USER_FIXED)
  then (true, set_answer SETTING_OPER REQ_SUCCESS permState)
  else (false, permState).

(** The calling application: its DLP type and the DLP configuration. *)
Context (dlpType : Z) (modes : DlpModes).

Definition GetSelfPermissionState (permsList : list PermissionStatus) (permState : PermissionListState)
    (apiVersion : Z) : PermissionListState :=
  if String.eqb (pls_permissionName permState) VAGUE_LOCATION_PERMISSION_NAME &&
     (apiVersion <? ACCURATE_LOCATION_API_VERSION)
  then set_answer INVALID_OPER CONDITIONS_NOT_MET permState
  else
    match IsPermissionRequestedInHap permsList permState with
    | inr permState => set_answer INVALID_OPER (pls_errorReason permState) permState
    | inl (goalGrantStatus, goalGrantFlag) =>
        if IsPermissionRestrictedByRules dlpType modes (pls_permissionName permState)
        then set_answer INVALID_OPER UNABLE_POP_UP permState
        else
          let pass := set_answer PASS_OPER REQ_SUCCESS permState in
          if goalGrantStatus =? PERMISSION_DENIED then
            let '(handled, permState') := HandlePermissionDeniedCase goalGrantFlag permState in
            if handled then permState' else pass
          else pass
    end.

(** ** Location permissions. *)
Fixpoint GetLocationPermissionIndex_loop (index : Z) (reqPermList : list PermissionListState)
    (loc : LocationIndex) (hasFound : bool) : bool * LocationIndex :=
  match reqPermList with
  | [] => (hasFound, loc)
  | perm :: rest =>
      let '(loc, hasFound) :=
        if String.eqb (pls_permissionName perm) VAGUE_LOCATION_PERMISSION_NAME
        then (mkLocationIndex index (accurateIndex loc) (backIndex loc), true)
        else if String.eqb (pls_permissionName perm) ACCURATE_LOCATION_PERMISSION_NAME
        then (mkLocationIndex (vagueIndex loc) index (backIndex loc), true)
        else if String.eqb (pls_permissionName perm) BACKGROUND_LOCATION_PERMISSION_NAME
        then (mkLocationIndex (vagueIndex loc) (accurateIndex loc) index, true)
        else (loc, hasFound) in
      if negb (vagueIndex loc =? PERMISSION_NOT_REQUSET) && negb (accurateIndex loc =? PERMISSION_NOT_REQUSET) &&
         negb (backIndex loc =? PERMISSION_NOT_REQUSET)
      then (hasFound, loc)
      else GetLocationPermissionIndex_loop (u32 (index + 1)) rest loc hasFound
  end.

Definition GetLocationPermissionIndex (reqPermList : list PermissionListState) : bool * LocationIndex :=
  GetLocationPermissionIndex_loop 0 reqPermList default_LocationIndex false.

(** [reqPermList[i]] read and written. *)
Definition at_index (i : Z) (l : list PermissionListState) : option PermissionListState := l !! Z.to_nat i.
Definition update_at (i : Z) (f : PermissionListState -> PermissionListState) (l : list PermissionListState)
    : list PermissionListState := alter f (Z.to_nat i) l.
Definition state_is (i : Z) (s : Z) (l : list PermissionListState) : bool :=
  match at_index i l with Some p => pls_state p =? s | None => false end.

(** [isVagueGranted] is VerifyHapAccessToken on the vague permission. *)
Definition GetLocationPermissionState (isVagueGranted : bool) (reqPermList : list PermissionListState)
    (permsList : list PermissionStatus) (apiVersion : Z) (loc : LocationIndex) : bool * list PermissionListState :=
  let self := fun p => GetSelfPermissionState permsList p apiVersion in
  let refuse := set_answer INVALID_OPER CONDITIONS_NOT_MET in
  let hasVague := negb (vagueIndex loc =? PERMISSION_NOT_REQUSET) in
  let hasAccurate := negb (accurateIndex loc =? PERMISSION_NOT_REQUSET) in
  let '(needVagueDynamic, l) :=
    if hasVague then
      let l := update_at (vagueIndex loc) self reqPermList in
      (state_is (vagueIndex loc) DYNAMIC_OPER l, l)
    else (false, reqPermList) in
  let '(needAccurateDynamic, l) :=
    if hasAccurate then
      let l := update_at (accurateIndex loc) self l in
      let needAccurateDynamic := state_is (accurateIndex loc) DYNAMIC_OPER l in
      if needAccurateDynamic && negb needVagueDynamic && negb isVagueGranted
      then (false, update_at (accurateIndex loc) refuse l)
      else (needAccurateDynamic, l)
    else (false, l) in
  if negb (backIndex loc =? PERMISSION_NOT_REQUSET) then
    if BACKGROUND_LOCATION_API_VERSION <=? apiVersion then
      let l := if hasVague then update_at (vagueIndex loc) refuse l else l in
      let l := if hasAccurate then update_at (accurateIndex loc) refuse l else l in
      (false, update_at (backIndex loc) refuse l)
    else
      let l := update_at (backIndex loc) self l in
      let l :=
        if state_is (backIndex loc) DYNAMIC_OPER l then
          if needAccurateDynamic || needVagueDynamic
          then update_at (backIndex loc) (set_answer SETTING_OPER REQ_SUCCESS) l
          else update_at (backIndex loc) refuse l
        else l in
      (needVagueDynamic || needAccurateDynamic, l)
  else (needVagueDynamic || needAccurateDynamic, l).

Definition LocationPermissionSpecialHandle (isVagueGranted : bool) (reqPermList : list PermissionListState)
    (permsList : list PermissionStatus) (apiVersion : Z) : bool * list PermissionListState :=
  let '(found, loc) := GetLocationPermissionIndex reqPermList in
  if negb found then (false, reqPermList)
  else GetLocationPermissionState isVagueGranted reqPermList permsList apiVersion loc.

(** ** The whole request. *)
Definition IsLocationPermSpecialHandle (permissionName : string) (apiVersion : Z) : bool :=
  (String.eqb permissionName VAGUE_LOCATION_PERMISSION_NAME ||
   String.eqb permissionName ACCURATE_LOCATION_PERMISSION_NAME ||
   String.eqb permissionName BACKGROUND_LOCATION_PERMISSION_NAME) && (ACCURATE_LOCATION_API_VERSION <=? apiVersion).

(** The loop over the request: [needRes], [fixedByPolicyRes] and the answers. *)
Fixpoint GetPermissionsState_loop (permsList : list PermissionStatus) (apiVersion : Z) (needRes fixedByPolicyRes : bool)
    (reqPermList : list PermissionListState) : bool * bool * list PermissionListState :=
  match reqPermList with
  | [] => (needRes, fixedByPolicyRes, [])
  | p :: rest =>
      if IsLocationPermSpecialHandle (pls_permissionName p) apiVersion then
        let '(n, f, l) := GetPermissionsState_loop permsList apiVersion needRes fixedByPolicyRes rest in (n, f, p :: l)
      else
        let p := GetSelfPermissionState permsList p apiVersion in
        let needRes := if pls_state p =? DYNAMIC_OPER then true else needRes in
        let fixedByPolicyRes := if pls_state p =? FORBIDDEN_OPER then true else fixedByPolicyRes in
        let '(n, f, l) := GetPermissionsState_loop permsList apiVersion needRes fixedByPolicyRes rest in (n, f, p :: l)
  end.

(** [GetPermissionsState] once the API version [apiVersion] and the declared permissions
    [permsList] of the token are known; [isControlled] is GetPermDialogCap on an
    application token. *)
Definition GetPermissionsState (isVagueGranted isControlled : bool) (permsList : list PermissionStatus) (apiVersion : Z)
    (reqPermList : list PermissionListState) : Z * list PermissionListState :=
  let '(needRes, l) :=
    if ACCURATE_LOCATION_API_VERSION <=? apiVersion
    then LocationPermissionSpecialHandle isVagueGranted reqPermList permsList apiVersion
    else (false, reqPermList) in
  let '(needRes, fixedByPolicyRes, l) := GetPermissionsState_loop permsList apiVersion needRes false l in
  if isControlled then
    (FORBIDDEN_OPER,
     map (fun p => if negb (pls_state p =? INVALID_OPER)
                   then set_answer FORBIDDEN_OPER PRIVACY_STATEMENT_NOT_AGREED p else p) l)
  else if needRes then (DYNAMIC_OPER, l)
  else if fixedByPolicyRes then (FORBIDDEN_OPER, l)
  else (PASS_OPER, l).

End Request.
