(* ===== verification/PermissionRequestProps.v ===== *)
(** * Permission requests: properties

    The code answers the location permissions through indices into the request and
    updates in place; for a request that names a permission at most once it computes a
    plain map over the names.  The safety of the answers follows from that form. *)

From stdpp Require Import base gmap list strings.
From S2P Require Import Prelude AccessTokenTypes PermissionMap Validator ConstraintCheck PermissionRequest.
#[local] Open Scope string_scope.
#[local] Open Scope list_scope.
#[local] Open Scope Z_scope.
#[local] Open Scope cxx_scope.

Abbreviation names l := (map pls_permissionName l).
Abbreviation VAGUE := VAGUE_LOCATION_PERMISSION_NAME.
Abbreviation ACCURATE := ACCURATE_LOCATION_PERMISSION_NAME.
Abbreviation BACKGROUND := BACKGROUND_LOCATION_PERMISSION_NAME.

(** The three names are distinct. *)
Lemma NVA : String.eqb VAGUE ACCURATE = false. Proof. reflexivity. Qed.
Lemma NVB : String.eqb VAGUE BACKGROUND = false. Proof. reflexivity. Qed.
Lemma NAB : String.eqb ACCURATE BACKGROUND = false. Proof. reflexivity. Qed.
Lemma NAV : String.eqb ACCURATE VAGUE = false. Proof. reflexivity. Qed.
Lemma NBV : String.eqb BACKGROUND VAGUE = false. Proof. reflexivity. Qed.
Lemma NBA : String.eqb BACKGROUND ACCURATE = false. Proof. reflexivity. Qed.

#[local] Opaque VAGUE_LOCATION_PERMISSION_NAME ACCURATE_LOCATION_PERMISSION_NAME BACKGROUND_LOCATION_PERMISSION_NAME.

(** Splits on which location permission a name is. *)
Ltac location_cases n :=
  destruct (String.eqb_spec n VAGUE) as [->|NV];
    [|destruct (String.eqb_spec n ACCURATE) as [->|NA];
      [|destruct (String.eqb_spec n BACKGROUND) as [->|NB]]];
  rewrite ?NVA, ?NVB, ?NAB, ?NAV, ?NBV, ?NBA, ?String.eqb_refl.

Ltac location_simpl :=
  repeat (progress (rewrite ?NVA, ?NVB, ?NAB, ?NAV, ?NBV, ?NBA, ?String.eqb_refl; cbn [pls_permissionName orb])).

(** ** Updates by index and updates by name. *)
Definition upd (n : string) (f : PermissionListState -> PermissionListState) (p : PermissionListState)
    : PermissionListState := if String.eqb (pls_permissionName p) n then f p else p.

Definition keeps_name (f : PermissionListState -> PermissionListState) : Prop :=
  forall p, pls_permissionName (f p) = pls_permissionName p.

Fixpoint ref_index (k : Z) (n : string) (l : list PermissionListState) (cur : Z) : Z :=
  match l with
  | [] => cur
  | p :: r => if String.eqb (pls_permissionName p) n then k else ref_index (k + 1) n r cur
  end.

Lemma upd_keeps_name n f : keeps_name f -> keeps_name (upd n f).
Proof. intros Hf p. unfold upd. destruct (String.eqb _ _); [apply Hf|done]. Qed.

Lemma map_keeps_names f l : keeps_name f -> names (map f l) = names l.
Proof. intros Hf. rewrite map_map. by apply map_ext. Qed.

Lemma set_answer_keeps s r : keeps_name (set_answer s r).
Proof. by intros []. Qed.

#[local] Hint Resolve upd_keeps_name set_answer_keeps : core.

Lemma upd_absent n f l : n ∉ names l -> map (upd n f) l = l.
Proof.
  intros Hn. rewrite <- (map_id l) at 2. apply map_ext_in. intros p Hp. unfold upd.
  destruct (String.eqb_spec (pls_permissionName p) n) as [<-|]; [|done].
  destruct Hn. apply list_elem_of_In. by apply in_map.
Qed.

Lemma ref_index_absent n l : forall k cur, n ∉ names l -> ref_index k n l cur = cur.
Proof.
  induction l as [|p l IH]; intros k cur Hn; cbn in *; [done|].
  apply not_elem_of_cons in Hn as [Hp Hn].
  destruct (String.eqb_spec (pls_permissionName p) n); [congruence|]. by apply IH.
Qed.

Lemma ref_index_bounds n l : forall k cur, n ∈ names l -> k <= ref_index k n l cur < k + Z.of_nat (length l).
Proof.
  induction l as [|p l IH]; intros k cur Hn; cbn in *; [by apply not_elem_of_nil in Hn|].
  destruct (String.eqb_spec (pls_permissionName p) n); [lia|].
  apply elem_of_cons in Hn as [?|Hn]; [congruence|]. specialize (IH (k + 1) cur Hn). lia.
Qed.

Lemma ref_index_lookup n l : forall k cur, n ∈ names l ->
  exists p, l !! Z.to_nat (ref_index k n l cur - k) = Some p /\ pls_permissionName p = n.
Proof.
  induction l as [|p l IH]; intros k cur Hn; cbn in *; [by apply not_elem_of_nil in Hn|].
  destruct (String.eqb_spec (pls_permissionName p) n) as [E|].
  { exists p. by replace (k - k) with 0 by lia. }
  apply elem_of_cons in Hn as [?|Hn]; [congruence|].
  destruct (IH (k + 1) cur Hn) as (q & Hq & Hqn). exists q. split; [|done].
  pose proof (ref_index_bounds n l (k + 1) cur Hn).
  replace (Z.to_nat (ref_index (k + 1) n l cur - k)) with (S (Z.to_nat (ref_index (k + 1) n l cur - (k + 1)))) by lia.
  done.
Qed.

Lemma alter_by_name f i : forall l p, NoDup (names l) -> l !! i = Some p -> alter f i l = map (upd (pls_permissionName p) f) l.
Proof.
  induction i as [|i IH]; intros [|q l] p Hnd Hi; try done; cbn in *; apply NoDup_cons in Hnd as [Hq Hnd].
  - injection Hi as ->. unfold upd at 1. rewrite String.eqb_refl. by rewrite upd_absent.
  - rewrite (IH l p Hnd Hi). f_equal. unfold upd. destruct (String.eqb_spec (pls_permissionName q) (pls_permissionName p)) as [E|]; [|done].
    destruct Hq. rewrite E. apply list_elem_of_In, in_map, list_elem_of_In. by eapply list_elem_of_lookup_2.
Qed.

(** The index of a name, as the code keeps it. *)
Definition index_of (n : string) (l : list PermissionListState) : Z := ref_index 0 n l PERMISSION_NOT_REQUSET.

Definition fits (l : list PermissionListState) : Prop := Z.of_nat (length l) <= PERMISSION_NOT_REQUSET.

Lemma index_of_present n l : fits l -> (index_of n l =? PERMISSION_NOT_REQUSET) = negb (bool_decide (n ∈ names l)).
Proof.
  intros Hf. unfold index_of. case_bool_decide as Hn; cbn.
  - apply Z.eqb_neq. pose proof (ref_index_bounds n l 0 PERMISSION_NOT_REQUSET Hn). unfold fits in Hf. lia.
  - apply Z.eqb_eq. by apply ref_index_absent.
Qed.

Lemma index_of_lookup n l : n ∈ names l -> exists p, l !! Z.to_nat (index_of n l) = Some p /\ pls_permissionName p = n.
Proof.
  intros Hn. destruct (ref_index_lookup n l 0 PERMISSION_NOT_REQUSET Hn) as (p & Hp & E).
  exists p. by rewrite Z.sub_0_r in Hp.
Qed.

Lemma update_at_name n f l : NoDup (names l) -> n ∈ names l -> update_at (index_of n l) f l = map (upd n f) l.
Proof.
  intros Hnd Hn. destruct (index_of_lookup n l Hn) as (p & Hp & <-). by apply alter_by_name.
Qed.

Lemma index_of_map n f l : keeps_name f -> index_of n (map f l) = index_of n l.
Proof.
  intros Hf. unfold index_of. generalize 0, PERMISSION_NOT_REQUSET. induction l as [|p l IH]; intros k c; cbn; [done|].
  rewrite Hf. by destruct (String.eqb _ _).
Qed.

Lemma state_is_name n s f l :
  keeps_name f -> n ∈ names l -> exists p, pls_permissionName p = n /\
  state_is (index_of n l) s (map f l) = (pls_state (f p) =? s).
Proof.
  intros Hf Hn. destruct (index_of_lookup n l Hn) as (p & Hp & E). exists p. split; [done|].
  unfold state_is, at_index. change (map f l) with (f <$> l). by rewrite list_lookup_fmap, Hp.
Qed.

(** ** The indices. *)
Lemma location_index_loop l : forall k loc found,
  0 <= k -> k + Z.of_nat (length l) <= PERMISSION_NOT_REQUSET -> NoDup (names l) ->
  (vagueIndex loc <> PERMISSION_NOT_REQUSET -> VAGUE ∉ names l) ->
  (accurateIndex loc <> PERMISSION_NOT_REQUSET -> ACCURATE ∉ names l) ->
  (backIndex loc <> PERMISSION_NOT_REQUSET -> BACKGROUND ∉ names l) ->
  GetLocationPermissionIndex_loop k l loc found =
  (found || bool_decide (VAGUE ∈ names l) || bool_decide (ACCURATE ∈ names l) || bool_decide (BACKGROUND ∈ names l),
   mkLocationIndex (ref_index k VAGUE l (vagueIndex loc)) (ref_index k ACCURATE l (accurateIndex loc))
     (ref_index k BACKGROUND l (backIndex loc))).
Proof.
  induction l as [|p l IH]; intros k loc found Hk Hlen Hnd Hv Ha Hb; cbn [GetLocationPermissionIndex_loop].
  { cbn. rewrite !bool_decide_eq_false_2 by apply not_elem_of_nil. rewrite !orb_false_r. by destruct loc. }
  cbn [map length] in *. apply NoDup_cons in Hnd as [Hp Hnd].
  set (step := if String.eqb _ VAGUE then _ else _).
  assert (exists loc' found', step = (loc', found') /\
    found' = found || bool_decide (pls_permissionName p ∈ [VAGUE; ACCURATE; BACKGROUND]) /\
    vagueIndex loc' = (if String.eqb (pls_permissionName p) VAGUE then k else vagueIndex loc) /\
    accurateIndex loc' = (if String.eqb (pls_permissionName p) ACCURATE then k else accurateIndex loc) /\
    backIndex loc' = (if String.eqb (pls_permissionName p) BACKGROUND then k else backIndex loc))
    as (loc' & found' & -> & -> & Ev & Ea & Eb).
  { subst step. destruct loc as [v a b]. cbn [vagueIndex accurateIndex backIndex].
    location_cases (pls_permissionName p); do 2 eexists; (split; [reflexivity|]);
      cbn [vagueIndex accurateIndex backIndex]; (split; [|done]);
      rewrite ?(bool_decide_eq_true_2 (_ ∈ _)) by (rewrite !elem_of_cons; tauto);
      rewrite ?(bool_decide_eq_false_2 (_ ∈ _)) by (rewrite !elem_of_cons, elem_of_nil; tauto);
      by rewrite ?orb_true_r, ?orb_false_r. }
  assert (forall n (cur cur' : Z), cur' = (if String.eqb (pls_permissionName p) n then k else cur) ->
    (cur <> PERMISSION_NOT_REQUSET -> n ∉ pls_permissionName p :: names l) ->
    (cur' <> PERMISSION_NOT_REQUSET -> n ∉ names l) /\
    ref_index k n (p :: l) cur = ref_index (k + 1) n l cur') as Hidx.
  { intros n cur cur' -> Hc. cbn. destruct (String.eqb_spec (pls_permissionName p) n) as [<-|Hne].
    - split; [done|]. by rewrite ref_index_absent.
    - split; [|done]. intros H. specialize (Hc H). set_solver. }
  destruct (Hidx VAGUE _ _ Ev Hv) as [Hv' ->]. destruct (Hidx ACCURATE _ _ Ea Ha) as [Ha' ->].
  destruct (Hidx BACKGROUND _ _ Eb Hb) as [Hb' ->]. clear Hidx.
  assert (forall n, bool_decide (n ∈ pls_permissionName p :: names l) =
                    bool_decide (pls_permissionName p = n) || bool_decide (n ∈ names l)) as Hcons.
  { intros n. rewrite <- bool_decide_or. apply bool_decide_ext. rewrite elem_of_cons. naive_solver. }
  assert (bool_decide (pls_permissionName p ∈ [VAGUE; ACCURATE; BACKGROUND]) =
    bool_decide (pls_permissionName p = VAGUE) || bool_decide (pls_permissionName p = ACCURATE) ||
    bool_decide (pls_permissionName p = BACKGROUND)) as ->.
  { rewrite <- !bool_decide_or. apply bool_decide_ext. rewrite !elem_of_cons, elem_of_nil. naive_solver. }
  rewrite !Hcons. split_if.
  - apply andb_true_iff in E as [[E1 E2]%andb_true_iff E3]. rewrite negb_true_iff, Z.eqb_neq in E1, E2, E3.
    rewrite !ref_index_absent by auto. rewrite !(bool_decide_eq_false_2 (_ ∈ names l)) by auto.
    destruct loc'; cbn. f_equal. by rewrite !orb_false_r, !orb_assoc.
  - assert (u32 (k + 1) = k + 1) as ->.
    { apply u32_small. unfold is_u32. unfold PERMISSION_NOT_REQUSET in Hlen. change (u32 (-1)) with (2 ^ 32 - 1) in Hlen. lia. }
    rewrite IH; auto; try lia. f_equal.
    destruct found, (bool_decide (_ = VAGUE)), (bool_decide (_ = ACCURATE)), (bool_decide (_ = BACKGROUND)),
      (bool_decide (VAGUE ∈ _)), (bool_decide (ACCURATE ∈ _)), (bool_decide (BACKGROUND ∈ _)); done.
Qed.

Lemma location_index l : fits l -> NoDup (names l) ->
  GetLocationPermissionIndex l =
  (bool_decide (VAGUE ∈ names l) || bool_decide (ACCURATE ∈ names l) || bool_decide (BACKGROUND ∈ names l),
   mkLocationIndex (index_of VAGUE l) (index_of ACCURATE l) (index_of BACKGROUND l)).
Proof.
  intros Hf Hnd. unfold GetLocationPermissionIndex. rewrite location_index_loop; try done; lia.
Qed.

(** ** One permission: the answer depends on the name alone. *)
Section Answers.
Context {PT : PermTable} {BC : BuildConfig}.
Context (dlpType : Z) (modes : DlpModes) (permsList : list PermissionStatus) (apiVersion : Z) (isVagueGranted : bool).
Implicit Types (l : list PermissionListState) (p : PermissionListState) (n : string).

Abbreviation self_state := (fun p => GetSelfPermissionState dlpType modes permsList p apiVersion).

Definition self n : PermissionListState := self_state (mkPermissionListState n 0 0).
Definition asks n : bool := pls_state (self n) =? DYNAMIC_OPER.

(** The answer for a denied permission, as a function of its name and flag. *)
Definition is_manual n : bool :=
  match GetPermissionBriefDef_name n with Some d => pbd_grantMode d =? MANUAL_SETTINGS | None => false end.

Definition denied_answer n (flag : Z) : option (Z * Z) :=
  if is_manual n then Some (INVALID_OPER, MANUAL_SETTING_PERM)
  else if nz (flag .& PERMISSION_FIXED_BY_ADMIN_POLICY) then Some (FORBIDDEN_OPER, UNABLE_POP_UP)
  else if nz (flag .& PERMISSION_ADMIN_POLICIES_CANCEL) then Some (SETTING_OPER, REQ_SUCCESS)
  else if nz (flag .& PERMISSION_FIXED_FOR_SECURITY_POLICY) then Some (SETTING_OPER, REQ_SUCCESS)
  else if (flag =? PERMISSION_DEFAULT_FLAG) || nz (flag .& PERMISSION_USER_SET) ||
          nz (flag .& PERMISSION_COMPONENT_SET) || nz (flag .& PERMISSION_ALLOW_THIS_TIME)
  then Some (DYNAMIC_OPER, REQ_SUCCESS)
  else if nz (flag .& PERMISSION_USER_FIXED) then Some (SETTING_OPER, REQ_SUCCESS)
  else None.

Lemma HandlePermissionDeniedCase_eq flag p :
  HandlePermissionDeniedCase flag p =
  match denied_answer (pls_permissionName p) flag with
  | Some (s, r) => (true, set_answer s r p)
  | None => (false, p)
  end.
Proof.
  unfold HandlePermissionDeniedCase, denied_answer, is_manual. repeat (split_if; [done|]). done.
Qed.

(** What the application declared and holds for a name. *)
Definition declared n : option PermissionStatus :=
  find (fun perm => String.eqb n (ps_permissionName perm)) permsList.

Definition self_answer n : Z * Z :=
  if String.eqb n VAGUE && (apiVersion <? ACCURATE_LOCATION_API_VERSION) then (INVALID_OPER, CONDITIONS_NOT_MET)
  else if negb (IsPermissionValidForHap n) then (INVALID_OPER, PERM_INVALID)
  else
    match declared n with
    | None => (INVALID_OPER, PERM_NOT_DECLEARED)
    | Some st =>
        if IsPermissionRestrictedByRules dlpType modes n then (INVALID_OPER, UNABLE_POP_UP)
        else if ps_grantStatus st =? PERMISSION_DENIED
        then default (PASS_OPER, REQ_SUCCESS) (denied_answer n (u32 (ps_grantFlag st)))
        else (PASS_OPER, REQ_SUCCESS)
    end.

Lemma self_state_eq p :
  self_state p = set_answer (self_answer (pls_permissionName p)).1 (self_answer (pls_permissionName p)).2 p.
Proof.
  unfold GetSelfPermissionState, self_answer, IsPermissionRequestedInHap. fold (declared (pls_permissionName p)).
  split_if; [done|]. clear E. split_if; [done|]. clear E. destruct (declared _) as [st|]; [|done].
  split_if; [done|]. clear E. split_if; [|done]. rewrite HandlePermissionDeniedCase_eq.
  by destruct (denied_answer _ _) as [[]|].
Qed.

Lemma self_norm p : self_state p = self (pls_permissionName p).
Proof. unfold self. by rewrite !self_state_eq. Qed.

Lemma self_keeps_name : keeps_name self_state.
Proof. intros p. by rewrite self_state_eq. Qed.

Lemma self_name n : pls_permissionName (self n) = n.
Proof. apply self_keeps_name. Qed.

(** ** The answers by name. *)
Definition refused n : PermissionListState := mkPermissionListState n INVALID_OPER CONDITIONS_NOT_MET.
Definition vague_asks l : bool := bool_decide (VAGUE ∈ names l) && asks VAGUE.
Definition accurate_asks l : bool :=
  bool_decide (ACCURATE ∈ names l) && asks ACCURATE && (vague_asks l || isVagueGranted).
Definition background_blocks l : bool :=
  bool_decide (BACKGROUND ∈ names l) && (BACKGROUND_LOCATION_API_VERSION <=? apiVersion).

Definition location_answer l n : PermissionListState :=
  if background_blocks l then refused n
  else if String.eqb n VAGUE then self n
  else if String.eqb n ACCURATE then
    if asks n && negb (vague_asks l || isVagueGranted) then refused n else self n
  else if asks n then
    if accurate_asks l || vague_asks l then mkPermissionListState n SETTING_OPER REQ_SUCCESS else refused n
  else self n.

Definition is_location n : bool := String.eqb n VAGUE || String.eqb n ACCURATE || String.eqb n BACKGROUND.
Definition location_step l p : PermissionListState :=
  if is_location (pls_permissionName p) then location_answer l (pls_permissionName p) else p.

(** An in-place update under the test that the permission was requested. *)
Lemma update_requested n f l0 l :
  fits l0 -> NoDup (names l0) -> names l = names l0 ->
  (if negb (index_of n l0 =? PERMISSION_NOT_REQUSET) then update_at (index_of n l0) f l else l) = map (upd n f) l.
Proof.
  intros Hf Hnd Hl. rewrite index_of_present, negb_involutive by done.
  assert (index_of n l0 = index_of n l) as ->.
  { unfold index_of. generalize 0, PERMISSION_NOT_REQUSET. clear -Hl. revert l Hl.
    induction l0 as [|p l0 IH]; intros [|q l] Hl k c; try done. cbn in *. injection Hl as -> Hl.
    destruct (String.eqb _ _); [done|]. by apply IH. }
  rewrite <- Hl in Hnd |- *. case_bool_decide as Hn; [by apply update_at_name|by rewrite upd_absent].
Qed.

(** Reading the answer of a requested permission after updates that keep the names. *)
Lemma state_is_requested n s f l (b : bool) :
  keeps_name f -> n ∈ names l -> (forall p, pls_permissionName p = n -> (pls_state (f p) =? s) = b) ->
  state_is (index_of n l) s (map f l) = b.
Proof. intros Hf Hn H. destruct (state_is_name n s f l Hf Hn) as (p & Hp & ->). by apply H. Qed.

Lemma upd_upd n f g l : keeps_name f -> map (upd n g) (map (upd n f) l) = map (upd n (fun p => g (f p))) l.
Proof.
  intros Hf. rewrite map_map. apply map_ext. intros p. unfold upd at 2 3.
  destruct (String.eqb (pls_permissionName p) n) eqn:E; unfold upd; [by rewrite Hf, E|by rewrite E].
Qed.

(** The two halves of the location rule: vague, then accurate. *)
Definition accurate_answer l p : PermissionListState :=
  if asks ACCURATE && negb (vague_asks l || isVagueGranted)
  then set_answer INVALID_OPER CONDITIONS_NOT_MET (self_state p) else self_state p.
Definition background_answer l p : PermissionListState :=
  if asks BACKGROUND then
    if accurate_asks l || vague_asks l then set_answer SETTING_OPER REQ_SUCCESS (self_state p)
    else set_answer INVALID_OPER CONDITIONS_NOT_MET (self_state p)
  else self_state p.

Lemma accurate_answer_keeps l : keeps_name (accurate_answer l).
Proof. intros p. unfold accurate_answer. split_if; apply self_keeps_name. Qed.
Lemma background_answer_keeps l : keeps_name (background_answer l).
Proof. intros p. unfold background_answer. repeat split_if; apply self_keeps_name. Qed.

#[local] Hint Resolve self_keeps_name accurate_answer_keeps background_answer_keeps map_keeps_names : core.

Lemma asks_of p n : pls_permissionName p = n -> (pls_state (self_state p) =? DYNAMIC_OPER) = asks n.
Proof. intros <-. unfold asks. by rewrite self_norm. Qed.

Lemma vague_half l : fits l -> NoDup (names l) ->
  (if negb (index_of VAGUE l =? PERMISSION_NOT_REQUSET)
   then (state_is (index_of VAGUE l) DYNAMIC_OPER (update_at (index_of VAGUE l) self_state l),
         update_at (index_of VAGUE l) self_state l)
   else (false, l)) = (vague_asks l, map (upd VAGUE self_state) l).
Proof.
  intros Hf Hnd. pose proof (update_requested VAGUE self_state l l Hf Hnd eq_refl) as Hu.
  rewrite index_of_present, negb_involutive in * by done. unfold vague_asks.
  case_bool_decide as Hn; [|by rewrite <- Hu]. rewrite Hu. cbn. f_equal.
  apply state_is_requested; [auto|done|]. intros p Hp. unfold upd. rewrite Hp, String.eqb_refl. by apply asks_of.
Qed.

Lemma accurate_half l0 : fits l0 -> NoDup (names l0) ->
  let l := map (upd VAGUE self_state) l0 in
  (if negb (index_of ACCURATE l0 =? PERMISSION_NOT_REQUSET)
   then
     let l1 := update_at (index_of ACCURATE l0) self_state l in
     let need := state_is (index_of ACCURATE l0) DYNAMIC_OPER l1 in
     if need && negb (vague_asks l0) && negb isVagueGranted
     then (false, update_at (index_of ACCURATE l0) (set_answer INVALID_OPER CONDITIONS_NOT_MET) l1)
     else (need, l1)
   else (false, l)) = (accurate_asks l0, map (upd ACCURATE (accurate_answer l0)) l).
Proof.
  intros Hf Hnd l. assert (names l = names l0) as Hl by (apply map_keeps_names; auto).
  pose proof (update_requested ACCURATE self_state l0 l Hf Hnd Hl) as Hu.
  pose proof (update_requested ACCURATE (set_answer INVALID_OPER CONDITIONS_NOT_MET) l0
                (map (upd ACCURATE self_state) l) Hf Hnd) as Hr.
  rewrite map_keeps_names in Hr by auto. specialize (Hr Hl).
  rewrite index_of_present, negb_involutive in * by done. unfold accurate_asks.
  case_bool_decide as Hn; [|by rewrite upd_absent by (by rewrite Hl)]. cbn zeta. rewrite Hu.
  assert (state_is (index_of ACCURATE l0) DYNAMIC_OPER (map (upd ACCURATE self_state) l) = asks ACCURATE) as ->.
  { subst l. rewrite map_map. apply state_is_requested; [|done|].
    - intros p. by rewrite !upd_keeps_name by auto.
    - intros p Hp. unfold upd at 2. rewrite Hp. rewrite NAV.
      unfold upd. rewrite Hp, String.eqb_refl. by apply asks_of. }
  rewrite Hr, upd_upd by auto. unfold accurate_answer. cbn [andb].
  destruct (asks ACCURATE), (vague_asks l0), isVagueGranted; done.
Qed.

Lemma background_half l0 : fits l0 -> NoDup (names l0) ->
  let l := map (upd ACCURATE (accurate_answer l0)) (map (upd VAGUE self_state) l0) in
  (if negb (index_of BACKGROUND l0 =? PERMISSION_NOT_REQUSET)
   then
     let l1 := update_at (index_of BACKGROUND l0) self_state l in
     if state_is (index_of BACKGROUND l0) DYNAMIC_OPER l1 then
       if accurate_asks l0 || vague_asks l0
       then update_at (index_of BACKGROUND l0) (set_answer SETTING_OPER REQ_SUCCESS) l1
       else update_at (index_of BACKGROUND l0) (set_answer INVALID_OPER CONDITIONS_NOT_MET) l1
     else l1
   else l) = map (upd BACKGROUND (background_answer l0)) l.
Proof.
  intros Hf Hnd l. assert (names l = names l0) as Hl by (subst l; by rewrite !map_keeps_names by auto).
  pose proof (update_requested BACKGROUND self_state l0 l Hf Hnd Hl) as Hu.
  pose proof (fun f => update_requested BACKGROUND f l0 (map (upd BACKGROUND self_state) l) Hf Hnd) as Hr.
  rewrite map_keeps_names in Hr by auto.
  rewrite index_of_present, negb_involutive in * by done.
  case_bool_decide as Hn; [|by rewrite upd_absent by (by rewrite Hl)]. cbn zeta. rewrite Hu.
  assert (state_is (index_of BACKGROUND l0) DYNAMIC_OPER (map (upd BACKGROUND self_state) l) = asks BACKGROUND) as ->.
  { subst l. rewrite !map_map. apply state_is_requested; [|done|].
    - intros p. by rewrite !upd_keeps_name by auto.
    - intros p Hp. unfold upd at 3. rewrite Hp, NBV. unfold upd at 2. rewrite Hp, NBA.
      unfold upd. rewrite Hp, String.eqb_refl. by apply asks_of. }
  rewrite !Hr, !upd_upd by auto. unfold background_answer. by destruct (asks BACKGROUND), (accurate_asks l0), (vague_asks l0).
Qed.

Lemma update_present n f l0 l :
  fits l0 -> NoDup (names l0) -> names l = names l0 -> n ∈ names l0 -> update_at (index_of n l0) f l = map (upd n f) l.
Proof.
  intros Hf Hnd Hl Hn. rewrite <- (update_requested n f l0 l Hf Hnd Hl).
  by rewrite index_of_present, bool_decide_eq_true_2 by done.
Qed.

(** The three updates in sequence are one pass over the names. *)
Lemma location_passes l f g h :
  (forall p, location_step l p = upd BACKGROUND h (upd ACCURATE g (upd VAGUE f p))) ->
  map (upd BACKGROUND h) (map (upd ACCURATE g) (map (upd VAGUE f) l)) = map (location_step l) l.
Proof. intros H. rewrite !map_map. apply map_ext. intros p. by rewrite H. Qed.

Lemma open_passes l : background_blocks l = false ->
  map (upd BACKGROUND (background_answer l)) (map (upd ACCURATE (accurate_answer l)) (map (upd VAGUE self_state) l)) =
  map (location_step l) l.
Proof.
  intros Hb. apply location_passes. intros p. unfold location_step, location_answer, is_location. rewrite Hb.
  pose proof (self_keeps_name p) as Hn. pose proof (accurate_answer_keeps l p) as Hn2. unfold upd.
  destruct p as [n s r]. cbn [pls_permissionName] in *. revert Hn Hn2. location_cases n; cbn [orb]; intros Hn Hn2.
  - location_simpl. rewrite Hn. location_simpl. rewrite Hn. location_simpl. by rewrite self_norm.
  - location_simpl. rewrite Hn2. location_simpl. unfold accurate_answer.
    split_if; [|by rewrite self_norm]. rewrite self_norm. unfold set_answer. cbn. by rewrite self_name.
  - location_simpl. unfold background_answer. rewrite self_norm. cbn [pls_permissionName].
    repeat split_if; unfold set_answer; cbn; by rewrite ?self_name.
  - by repeat (rewrite (proj2 (String.eqb_neq n _)) by done; cbn [pls_permissionName orb]).
Qed.

Lemma blocked_passes l f g : background_blocks l = true -> keeps_name f -> keeps_name g ->
  let refuse := set_answer INVALID_OPER CONDITIONS_NOT_MET in
  map (upd BACKGROUND refuse) (map (upd ACCURATE refuse) (map (upd VAGUE refuse)
    (map (upd ACCURATE g) (map (upd VAGUE f) l)))) = map (location_step l) l.
Proof.
  intros Hb Hf Hg refuse. rewrite !map_map. apply map_ext. intros p.
  unfold location_step, location_answer, is_location. rewrite Hb. unfold upd.
  pose proof (Hf p) as Hn. pose proof (Hg p) as Hn2.
  destruct p as [n s r]. cbn [pls_permissionName] in *. revert Hn Hn2. location_cases n; cbn [orb]; intros Hn Hn2.
  - location_simpl. rewrite Hn. location_simpl. rewrite Hn. location_simpl.
    unfold refuse, set_answer. cbn [pls_permissionName]. rewrite Hn. by location_simpl.
  - location_simpl. rewrite Hn2. location_simpl. rewrite Hn2. location_simpl.
    unfold refuse, set_answer. cbn [pls_permissionName]. rewrite Hn2. by location_simpl.
  - by location_simpl.
  - by repeat (rewrite (proj2 (String.eqb_neq n _)) by done; cbn [pls_permissionName orb]).
Qed.

Lemma GetLocationPermissionState_eq l : fits l -> NoDup (names l) ->
  GetLocationPermissionState dlpType modes isVagueGranted l permsList apiVersion
    (mkLocationIndex (index_of VAGUE l) (index_of ACCURATE l) (index_of BACKGROUND l)) =
  (negb (background_blocks l) && (vague_asks l || accurate_asks l), map (location_step l) l).
Proof.
  intros Hf Hnd. unfold GetLocationPermissionState. cbn [vagueIndex accurateIndex backIndex]. cbn zeta.
  pose proof (accurate_half l Hf Hnd) as Ha. cbn zeta in Ha. rewrite (vague_half l Hf Hnd), Ha. clear Ha.
  pose proof (background_half l Hf Hnd) as Hb. cbn zeta in Hb.
  pose proof (index_of_present BACKGROUND l Hf) as Hi. rewrite Hi, negb_involutive in Hb |- *.
  destruct (background_blocks l) eqn:Eb; pose proof Eb as Eb'; unfold background_blocks in Eb'; cbn [negb andb].
  - apply andb_true_iff in Eb' as [Hn ->]. rewrite Hn. apply bool_decide_eq_true in Hn. f_equal.
    rewrite (update_requested VAGUE _ l), (update_requested ACCURATE _ l), (update_present BACKGROUND _ l) by
        (auto; rewrite ?map_keeps_names by auto; auto). by apply blocked_passes; auto.
  - rewrite <- open_passes by done. rewrite <- Hb. case_bool_decide as Hn; [|done].
    cbn [andb] in Eb'. by rewrite Eb'.
Qed.

Lemma LocationPermissionSpecialHandle_eq l : fits l -> NoDup (names l) ->
  LocationPermissionSpecialHandle dlpType modes isVagueGranted l permsList apiVersion =
  (negb (background_blocks l) && (vague_asks l || accurate_asks l), map (location_step l) l).
Proof.
  intros Hf Hnd. unfold LocationPermissionSpecialHandle. rewrite location_index by done.
  split_if; [|by apply GetLocationPermissionState_eq].
  apply negb_true_iff, orb_false_iff in E as [[Ev Ea]%orb_false_iff Eb].
  unfold vague_asks, accurate_asks. rewrite Ev, Ea. cbn [andb orb]. rewrite andb_false_r. f_equal.
  rewrite <- (map_id l) at 1. apply map_ext_in. intros p Hp. unfold location_step, is_location.
  apply bool_decide_eq_false in Ev, Ea, Eb. apply (in_map pls_permissionName), list_elem_of_In in Hp.
  rewrite !(proj2 (String.eqb_neq _ _)) by (intros E; rewrite E in Hp; done). done.
Qed.

(** ** The whole request. *)
Definition special p : bool := IsLocationPermSpecialHandle (pls_permissionName p) apiVersion.

Lemma GetPermissionsState_loop_eq l : forall need fixed,
  GetPermissionsState_loop dlpType modes permsList apiVersion need fixed l =
  (need || existsb (fun p => negb (special p) && (pls_state (self_state p) =? DYNAMIC_OPER)) l,
   fixed || existsb (fun p => negb (special p) && (pls_state (self_state p) =? FORBIDDEN_OPER)) l,
   map (fun p => if special p then p else self_state p) l).
Proof.
  induction l as [|p l IH]; intros need fixed; cbn [GetPermissionsState_loop existsb map].
  { by rewrite !orb_false_r. }
  fold (special p). destruct (special p) eqn:Es; rewrite IH; cbn [negb andb orb]; [done|].
  destruct (pls_state _ =? DYNAMIC_OPER), (pls_state _ =? FORBIDDEN_OPER); cbn [orb];
    by rewrite ?orb_true_r, ?orb_false_r, ?orb_true_l.
Qed.

(** The answer to one entry [p] of the request [l]. *)
Definition final_answer l p : PermissionListState :=
  if special p then location_answer l (pls_permissionName p) else self (pls_permissionName p).

Lemma location_answer_name l n : pls_permissionName (location_answer l n) = n.
Proof. unfold location_answer. repeat split_if; done || apply self_name. Qed.

Lemma special_eq p : special p = is_location (pls_permissionName p) && (ACCURATE_LOCATION_API_VERSION <=? apiVersion).
Proof. done. Qed.

Lemma final_answer_name l p : pls_permissionName (final_answer l p) = pls_permissionName p.
Proof. unfold final_answer. split_if; [apply location_answer_name|apply self_name]. Qed.

Lemma location_step_special l : (ACCURATE_LOCATION_API_VERSION <=? apiVersion) = true ->
  map (fun p => if special p then p else self_state p) (map (location_step l) l) = map (final_answer l) l.
Proof.
  intros Hv. rewrite map_map. apply map_ext. intros p. unfold final_answer, location_step. rewrite !special_eq, Hv, !andb_true_r.
  destruct (is_location (pls_permissionName p)) eqn:E.
  - by rewrite location_answer_name, E.
  - by rewrite E, self_norm.
Qed.

(** Which location answers need a dialog. *)
Lemma location_answer_asks l n : is_location n = true ->
  (pls_state (location_answer l n) =? DYNAMIC_OPER) =
  negb (background_blocks l) &&
  ((String.eqb n VAGUE && asks n) || (String.eqb n ACCURATE && asks n && (vague_asks l || isVagueGranted))).
Proof.
  intros Hn. unfold location_answer. destruct (background_blocks l); [done|]. cbn [negb andb].
  revert Hn. unfold is_location. location_cases n; cbn [orb andb]; intros Hn; try done.
  - fold (asks VAGUE). by rewrite orb_false_r.
  - destruct (asks ACCURATE) eqn:Ea; cbn [andb].
    + destruct (vague_asks l || isVagueGranted); [exact Ea|done].
    + exact Ea.
  - destruct (asks BACKGROUND) eqn:Eb; [by destruct (_ || _)|exact Eb].
Qed.

Lemma existsb_true {A} (f : A -> bool) (xs : list A) : existsb f xs = true <-> exists x, x ∈ xs /\ f x = true.
Proof. rewrite existsb_exists. by setoid_rewrite list_elem_of_In. Qed.

(** The location part of [needRes] counts the location entries that need a dialog. *)
Lemma location_need_iff l : (ACCURATE_LOCATION_API_VERSION <=? apiVersion) = true ->
  negb (background_blocks l) && (vague_asks l || accurate_asks l) = true <->
  exists p, p ∈ l /\ special p = true /\ pls_state (final_answer l p) = DYNAMIC_OPER.
Proof.
  intros Hv. split.
  - intros [Hb Hq]%andb_true_iff.
    assert (exists n, is_location n = true /\ n ∈ names l /\ pls_state (location_answer l n) =? DYNAMIC_OPER = true)
      as (n & Hn & Hin & Hs).
    { unfold accurate_asks in Hq. apply orb_true_iff in Hq as [Hq|Hq].
      - exists VAGUE. assert (is_location VAGUE = true) as Hl by (unfold is_location; by rewrite String.eqb_refl).
        rewrite (location_answer_asks l VAGUE Hl), Hb, String.eqb_refl. unfold vague_asks in Hq.
        apply andb_true_iff in Hq as [Hq%bool_decide_eq_true ->]. done.
      - exists ACCURATE. assert (is_location ACCURATE = true) as Hl by (unfold is_location; by rewrite String.eqb_refl, orb_true_r).
        rewrite (location_answer_asks l ACCURATE Hl), Hb, String.eqb_refl.
        apply andb_true_iff in Hq as [[Hq%bool_decide_eq_true ->]%andb_true_iff ->]. by rewrite orb_true_r. }
    apply list_elem_of_In, in_map_iff in Hin as (p & <- & Hp%list_elem_of_In). exists p.
    assert (special p = true) as Hsp by (by rewrite special_eq, Hn, Hv).
    split_and!; [done|done|]. unfold final_answer. rewrite Hsp. by apply Z.eqb_eq.
  - intros (p & Hp & Hsp & Hs). unfold final_answer in Hs. rewrite Hsp in Hs.
    rewrite special_eq, Hv, andb_true_r in Hsp. apply Z.eqb_eq in Hs. rewrite location_answer_asks in Hs by done.
    apply andb_true_iff in Hs as [-> Hs]. cbn [andb]. unfold vague_asks, accurate_asks.
    assert (pls_permissionName p ∈ names l) as Hin by (by apply list_elem_of_In, in_map, list_elem_of_In).
    apply orb_true_iff in Hs as [[<-%String.eqb_eq Ha]%andb_true_iff|[[<-%String.eqb_eq Ha]%andb_true_iff Hg]%andb_true_iff].
    + by rewrite (bool_decide_eq_true_2 _ Hin), Ha.
    + by rewrite (bool_decide_eq_true_2 (pls_permissionName p ∈ names l) Hin), Ha, Hg, orb_true_r.
Qed.

(** The entries handled one by one, before and after the location pass. *)
Lemma others_ask f l0 l : keeps_name f ->
  existsb (fun p => negb (special p) && (pls_state (self_state p) =? DYNAMIC_OPER)) (map f l) = true <->
  exists p, p ∈ l /\ special p = false /\ pls_state (final_answer l0 p) = DYNAMIC_OPER.
Proof.
  intros Hf. rewrite existsb_true. change (map f l) with (f <$> l). setoid_rewrite list_elem_of_fmap. split.
  - intros (? & (p & -> & Hp) & [Hs%negb_true_iff Hd%Z.eqb_eq]%andb_true_iff). exists p.
    unfold final_answer, special in *. rewrite self_norm, Hf in Hd. rewrite Hf in Hs. by rewrite Hs.
  - intros (p & Hp & Hs & Hd). exists (f p). split; [by exists p|].
    unfold final_answer, special in *. rewrite self_norm, Hf. rewrite Hs in Hd |- *. by rewrite Hd.
Qed.

Lemma location_step_keeps l : keeps_name (location_step l).
Proof. intros p. unfold location_step. split_if; [apply location_answer_name|done]. Qed.

(** The answers before the dialog control, and whether a dialog is needed. *)
Definition request_pass l : bool * bool * list PermissionListState :=
  let '(needRes, l1) :=
    if ACCURATE_LOCATION_API_VERSION <=? apiVersion
    then LocationPermissionSpecialHandle dlpType modes isVagueGranted l permsList apiVersion else (false, l) in
  GetPermissionsState_loop dlpType modes permsList apiVersion needRes false l1.

Lemma request_pass_eq l : fits l -> NoDup (names l) ->
  exists need fixed, request_pass l = (need, fixed, map (final_answer l) l) /\
    (need = true <-> exists p, p ∈ l /\ pls_state (final_answer l p) = DYNAMIC_OPER).
Proof.
  intros Hf Hnd. unfold request_pass. destruct (ACCURATE_LOCATION_API_VERSION <=? apiVersion) eqn:Hv.
  - rewrite LocationPermissionSpecialHandle_eq by done. rewrite GetPermissionsState_loop_eq, location_step_special by done.
    do 2 eexists. split; [reflexivity|].
    rewrite orb_true_iff, location_need_iff, (others_ask _ l) by (done || apply location_step_keeps). split.
    + intros [(p & ? & ? & ?)|(p & ? & ? & ?)]; by exists p.
    + intros (p & Hp & Hs). destruct (special p) eqn:Es; [left|right]; by exists p.
  - rewrite GetPermissionsState_loop_eq. do 2 eexists. split.
    + f_equal. apply map_ext. intros p. unfold final_answer. rewrite special_eq, Hv, andb_false_r. apply self_norm.
    + rewrite orb_false_l. rewrite <- (map_id l) at 1. rewrite (others_ask _ l) by done. split.
      * intros (p & ? & ? & ?). by exists p.
      * intros (p & Hp & Hs). exists p. split_and!; [done| |done]. by rewrite special_eq, Hv, andb_false_r.
Qed.

(** A permission the user can be asked about: defined for applications, declared by this
    one, denied, not reserved to other channels, and not fixed by the administrator or by
    the security policy. *)
Definition askable n : Prop :=
  IsPermissionValidForHap n = true /\ IsPermissionRestrictedByRules dlpType modes n = false /\ is_manual n = false /\
  exists st, declared n = Some st /\ ps_grantStatus st = PERMISSION_DENIED /\
    u32 (ps_grantFlag st) .& PERMISSION_FIXED_BY_ADMIN_POLICY = 0 /\
    u32 (ps_grantFlag st) .& PERMISSION_ADMIN_POLICIES_CANCEL = 0 /\
    u32 (ps_grantFlag st) .& PERMISSION_FIXED_FOR_SECURITY_POLICY = 0.

Lemma nz_false x : nz x = false -> x = 0.
Proof. unfold nz. rewrite negb_false_iff. apply Z.eqb_eq. Qed.

Lemma asks_askable n : asks n = true -> askable n.
Proof.
  unfold asks, self. rewrite self_state_eq. cbn. unfold self_answer. intros H%Z.eqb_eq.
  split_if_in H; [done|]. split_if_in H; [done|]. apply negb_false_iff in E0. unfold askable.
  destruct (declared n) as [st|]; [|done]. split_if_in H; [done|]. split_if_in H; [|done].
  apply Z.eqb_eq in E2. unfold denied_answer in H. destruct (is_manual n); [done|].
  split_if_in H; [done|]. split_if_in H; [done|]. split_if_in H; [done|].
  split_and!; try done. exists st. split_and!; try done; by apply nz_false.
Qed.

Lemma final_asks l p : pls_state (final_answer l p) = DYNAMIC_OPER -> asks (pls_permissionName p) = true.
Proof.
  unfold final_answer. split_if; intros H%Z.eqb_eq; [|done].
  rewrite special_eq in E. apply andb_true_iff in E as [E _]. rewrite location_answer_asks in H by done.
  apply andb_true_iff in H as [_ [[_ H]%andb_true_iff|[[_ H]%andb_true_iff _]%andb_true_iff]%orb_true_iff]; done.
Qed.

End Answers.

(** ** Properties. *)
Section Properties.
Context {PT : PermTable} {BC : BuildConfig}.
Context (dlpType : Z) (modes : DlpModes) (permsList : list PermissionStatus) (apiVersion : Z).
Context (isVagueGranted isControlled : bool).
Implicit Types (req l : list PermissionListState).

Abbreviation answer req := (GetPermissionsState dlpType modes isVagueGranted isControlled permsList apiVersion req).

Lemma GetPermissionsState_eq req : fits req -> NoDup (names req) ->
  exists need, (need = true <-> exists p, p ∈ req /\
      pls_state (final_answer dlpType modes permsList apiVersion isVagueGranted req p) = DYNAMIC_OPER) /\
    (answer req).2 = (let l := map (final_answer dlpType modes permsList apiVersion isVagueGranted req) req in
      if isControlled then map (fun p => if negb (pls_state p =? INVALID_OPER)
           then set_answer FORBIDDEN_OPER PRIVACY_STATEMENT_NOT_AGREED p else p) l else l) /\
    (if isControlled then (answer req).1 = FORBIDDEN_OPER else (answer req).1 = DYNAMIC_OPER <-> need = true).
Proof.
  intros Hf Hnd. destruct (request_pass_eq dlpType modes permsList apiVersion isVagueGranted req Hf Hnd)
    as (need & fixed & Hp & Hneed). exists need. split; [done|].
  unfold GetPermissionsState. unfold request_pass in Hp.
  destruct (if ACCURATE_LOCATION_API_VERSION <=? apiVersion then _ else _) as [needRes l1].
  rewrite Hp. destruct isControlled; [done|]. destruct need, fixed; cbn; done.
Qed.

(** C36: the answer to a permission request.  For a request that names each permission once,
    every entry is answered and none is added or dropped; the user is asked (the result is
    [DYNAMIC_OPER]) exactly when some entry is answered [DYNAMIC_OPER]; such an entry is a
    permission the application declared and does not hold, and that neither the
    administrator nor the security policy has fixed; and while dialogs are forbidden for
    the application nothing is asked. *)
Theorem request_answers_sound req : fits req -> NoDup (names req) ->
  names (answer req).2 = names req /\
  (isControlled = false ->
     ((answer req).1 = DYNAMIC_OPER <-> exists p, p ∈ (answer req).2 /\ pls_state p = DYNAMIC_OPER)) /\
  (forall p, p ∈ (answer req).2 -> pls_state p = DYNAMIC_OPER ->
     askable dlpType modes permsList (pls_permissionName p)) /\
  (isControlled = true ->
     (answer req).1 = FORBIDDEN_OPER /\ forall p, p ∈ (answer req).2 -> pls_state p <> DYNAMIC_OPER).
Proof.
  intros Hf Hnd. destruct (GetPermissionsState_eq req Hf Hnd) as (need & Hneed & -> & Hret). cbn zeta.
  assert (forall l (f : _ -> PermissionListState) p, p ∈ map f l <-> exists q, p = f q /\ q ∈ l) as Hmap
    by (intros; apply list_elem_of_fmap).
  destruct isControlled; split_and!; intros; try done.
  - rewrite !map_map. apply map_ext. intros p. split_if; cbn; apply final_answer_name.
  - apply Hmap in H as (q & -> & (r & -> & Hr)%Hmap). revert H0. split_if; [done|]. intros H0.
    apply final_asks in H0. rewrite final_answer_name. by apply asks_askable in H0.
  - split; [done|]. intros p (q & -> & (r & -> & Hr)%Hmap)%Hmap. split_if; [done|].
    apply negb_false_iff, Z.eqb_eq in E. by rewrite E.
  - rewrite map_map. apply map_ext. intros p. apply final_answer_name.
  - rewrite Hret, Hneed. setoid_rewrite Hmap. naive_solver.
  - apply Hmap in H as (q & -> & Hq). apply final_asks in H0. rewrite final_answer_name. by apply asks_askable in H0.
Qed.

(** The location permissions.  For an application of API version 9 or later, accurate
    location is offered in a dialog only together with approximate location or when that is
    already granted; background location is never offered in a dialog; and from version 11
    a request that includes background location has all its location entries refused. *)
Theorem location_request_rules req : fits req -> NoDup (names req) ->
  isControlled = false -> ACCURATE_LOCATION_API_VERSION <= apiVersion ->
  let state n s := exists p, p ∈ (answer req).2 /\ pls_permissionName p = n /\ pls_state p = s in
  (state ACCURATE DYNAMIC_OPER -> state VAGUE DYNAMIC_OPER \/ isVagueGranted = true) /\
  (~ state BACKGROUND DYNAMIC_OPER) /\
  (BACKGROUND_LOCATION_API_VERSION <= apiVersion -> BACKGROUND ∈ names req ->
     forall p, p ∈ (answer req).2 -> is_location (pls_permissionName p) = true ->
       pls_state p = INVALID_OPER /\ pls_errorReason p = CONDITIONS_NOT_MET).
Proof.
  intros Hf Hnd Hc Hv state. subst state. destruct (GetPermissionsState_eq req Hf Hnd) as (need & _ & -> & _). cbn zeta.
  rewrite Hc. apply Z.leb_le in Hv.
  assert (forall (f : _ -> PermissionListState) p, p ∈ map f req <-> exists q, p = f q /\ q ∈ req) as Hmap
    by (intros; apply list_elem_of_fmap).
  assert (forall q, is_location (pls_permissionName q) = true ->
    final_answer dlpType modes permsList apiVersion isVagueGranted req q =
    location_answer dlpType modes permsList apiVersion isVagueGranted req (pls_permissionName q)) as Hloc.
  { intros q Hq. unfold final_answer. by rewrite special_eq, Hq, Hv. }
  split_and!.
  - intros (p & (q & -> & Hq)%Hmap & Hn & Hs). rewrite final_answer_name in Hn.
    rewrite Hloc in Hs by (unfold is_location; by rewrite Hn, String.eqb_refl, orb_true_r).
    apply Z.eqb_eq in Hs. rewrite location_answer_asks, Hn in Hs by (unfold is_location; by rewrite Hn, String.eqb_refl, orb_true_r).
    rewrite NAV in Hs. cbn [andb orb] in Hs. apply andb_true_iff in Hs as [Hb [_ [Hs| ->]%orb_true_iff]%andb_true_iff]; [left|by right].
    unfold vague_asks in Hs. apply andb_true_iff in Hs as [(r & Hr & Hin%list_elem_of_In)%bool_decide_eq_true%list_elem_of_In%in_map_iff Ha].
    exists (final_answer dlpType modes permsList apiVersion isVagueGranted req r).
    rewrite final_answer_name. split_and!; [apply Hmap; by exists r|done|].
    rewrite Hloc by (unfold is_location; by rewrite Hr, String.eqb_refl).
    apply Z.eqb_eq. rewrite location_answer_asks, Hr, Hb, String.eqb_refl, Ha
      by (unfold is_location; by rewrite Hr, String.eqb_refl). done.
  - intros (p & (q & -> & Hq)%Hmap & Hn & Hs). rewrite final_answer_name in Hn.
    rewrite Hloc in Hs by (unfold is_location; by rewrite Hn, String.eqb_refl, orb_true_r).
    apply Z.eqb_eq in Hs. rewrite location_answer_asks, Hn, NBV, NBA, andb_false_r in Hs
      by (unfold is_location; by rewrite Hn, String.eqb_refl, orb_true_r). done.
  - intros Hb%Z.leb_le Hin p (q & -> & Hq)%Hmap Hl. rewrite final_answer_name in Hl. rewrite Hloc by done.
    unfold location_answer, background_blocks. by rewrite (bool_decide_eq_true_2 _ Hin), Hb.
Qed.

End Properties.

(** ** Witnesses. *)
Definition sample_held (flag : Z) : list PermissionStatus :=
  map (fun n => mkPermissionStatus 0 n "" PERMISSION_DENIED flag 0) [CAMERA; LOCATION; APPROXIMATELY_LOCATION].
Definition sample_request (ns : list string) : list PermissionListState :=
  map (fun n => mkPermissionListState n INVALID_OPER REQ_SUCCESS) ns.
Abbreviation sample_answer flag ns := (@GetPermissionsState sample_table full_config DLP_COMMON ∅ false false
  (sample_held flag) 10 (sample_request ns)).
Abbreviation three := [CAMERA; LOCATION; APPROXIMATELY_LOCATION].

Lemma sample_request_ok : fits (sample_request three) /\ NoDup (names (sample_request three)).
Proof. split; [by vm_compute|]. by apply (bool_decide_unpack _). Qed.

Lemma request_answers_sound_witness : (sample_answer PERMISSION_DEFAULT_FLAG three).1 = DYNAMIC_OPER.
Proof.
  destruct sample_request_ok as [Hf Hnd].
  destruct (request_answers_sound (PT := sample_table) (BC := full_config) DLP_COMMON ∅
    (sample_held PERMISSION_DEFAULT_FLAG) 10 false false (sample_request three) Hf Hnd) as (_ & H & _).
  apply H; [reflexivity|]. exists (mkPermissionListState CAMERA DYNAMIC_OPER REQ_SUCCESS). split; [|reflexivity].
  vm_compute. apply list_elem_of_here.
Defined.

Lemma location_request_rules_witness :
  ~ exists p, p ∈ (sample_answer PERMISSION_DEFAULT_FLAG three).2 /\
      pls_permissionName p = BACKGROUND_LOCATION_PERMISSION_NAME /\ pls_state p = DYNAMIC_OPER.
Proof.
  destruct sample_request_ok as [Hf Hnd].
  destruct (location_request_rules (PT := sample_table) (BC := full_config) DLP_COMMON ∅
    (sample_held PERMISSION_DEFAULT_FLAG) 10 false false (sample_request three) Hf Hnd) as (_ & H & _);
    [reflexivity|discriminate|exact H].
Defined.

(** A permission fixed by the administrator makes the result of a request
    [FORBIDDEN_OPER], except for the location permissions: their entries are answered
    [FORBIDDEN_OPER] too, and the result of the request is [PASS_OPER], because the flag
    that records a forbidden answer is only set in the loop that skips them. *)
Theorem location_forbidden_reported_as_pass :
  map pls_state (sample_answer PERMISSION_FIXED_BY_ADMIN_POLICY [CAMERA]).2 = [FORBIDDEN_OPER] /\
  (sample_answer PERMISSION_FIXED_BY_ADMIN_POLICY [CAMERA]).1 = FORBIDDEN_OPER /\
  map pls_state (sample_answer PERMISSION_FIXED_BY_ADMIN_POLICY [LOCATION; APPROXIMATELY_LOCATION]).2 =
    [FORBIDDEN_OPER; FORBIDDEN_OPER] /\
  (sample_answer PERMISSION_FIXED_BY_ADMIN_POLICY [LOCATION; APPROXIMATELY_LOCATION]).1 = PASS_OPER.
Proof. vm_compute. done. Qed.
