(* ===== verification/PermissionInit.v ===== *)
(** * The permissions a new application starts with

    InitPermissionList of permission_manager.cpp and its helpers: from the permissions an
    application package declares to the states its token is created with, and the values
    kept aside for permissions that are not (or not yet) available. *)

From stdpp Require Import base gmap list strings.
From S2P Require Import Prelude AccessTokenTypes Database PermissionMap Validator ConstraintCheck.
#[local] Open Scope string_scope.
#[local] Open Scope list_scope.
#[local] Open Scope Z_scope.

Section PermissionInit.
Context {PT : PermTable} {BC : BuildConfig} {VE : VerifyEnv}.
Implicit Types (policy : HapPolicy) (param : BundleParam).

(** [userCancelable] of the first entry for the permission. *)
Definition IsUserGrantPermPreAuthorized (infos : list PreAuthorizationInfo) (permissionName : string) : option bool :=
  match find (fun info => String.eqb (pre_permissionName info) permissionName) infos with
  | None => None
  | Some info => Some (pre_userCancelable info)
  end.

Definition FillUndefinedPermVector (permissionName appDistributionType : string) policy
    (undefValues : list GenericValues) : list GenericValues :=
  let value := Put FIELD_APP_DISTRIBUTION_TYPE (TYPE_STRING appDistributionType)
                 (Put FIELD_PERMISSION_NAME (TYPE_STRING permissionName) ∅) in
  let value :=
    if existsb (fun perm => String.eqb permissionName perm) (hp_aclRequestedList policy)
    then Put FIELD_ACL (TYPE_INT 1) value else Put FIELD_ACL (TYPE_INT 0) value in
  let value :=
    match hp_aclExtendedMap policy !! permissionName with
    | Some v => Put FIELD_VALUE (TYPE_STRING v) value
    | None => value
    end in
  undefValues ++ [value].

Definition InitPermState policy (briefDef : PermissionBriefDef) (needGrantForDebug : bool) (state : PermissionStatus)
    : PermissionStatus :=
  if pbd_grantMode briefDef =? SYSTEM_GRANT
  then set_ps_status PERMISSION_GRANTED (set_ps_flag PERMISSION_SYSTEM_FIXED state)
  else if bool_decide (hp_preAuthorizationInfo policy = []) && negb needGrantForDebug then state
  else
    match IsUserGrantPermPreAuthorized (hp_preAuthorizationInfo policy) (ps_permissionName state) with
    | Some userCancelable =>
        set_ps_status PERMISSION_GRANTED
          (set_ps_flag (if userCancelable then PERMISSION_PRE_AUTHORIZED_CANCELABLE else PERMISSION_SYSTEM_FIXED) state)
    | None =>
        if needGrantForDebug then set_ps_status PERMISSION_GRANTED (set_ps_flag PERMISSION_USER_FIXED state) else state
    end.

(** The loop; the boolean is the value returned. *)
Fixpoint InitPermissionList_loop param policy (dataRefresh : bool) (permStateList : list PermissionStatus)
    (initializedList : list PermissionStatus) (result : HapInfoCheckResult) (undefValues : list GenericValues)
    : bool * list PermissionStatus * HapInfoCheckResult * list GenericValues :=
  let needGrantForDebug := bp_isDebug param && hp_isDebugGrant policy in
  match permStateList with
  | [] => (true, initializedList, result, undefValues)
  | state :: rest =>
      let undefined :=
        if IS_SUPPORT_HAP_RUNNING
        then FillUndefinedPermVector (ps_permissionName state) (AppDistTypeToString (bp_distributionType param)) policy
               undefValues
        else undefValues in
      let skip := fun result => InitPermissionList_loop param policy dataRefresh rest initializedList result undefined in
      match GetPermissionBriefDef_name (ps_permissionName state) with
      | None => skip result
      | Some briefDef =>
          if negb (pbd_isEnable briefDef) then skip result
          else
            let result := mkHapInfoCheckResult (ps_permissionName state) (hicr_rule result) in
            let '(ok, result) := AclAndEdmCheck param briefDef policy result in
            if negb ok then
              if dataRefresh then skip result
              else (false, initializedList, result, undefValues)
            else
              let state := set_ps_status PERMISSION_DENIED (set_ps_flag PERMISSION_DEFAULT_FLAG state) in
              let state := InitPermState policy briefDef needGrantForDebug state in
              InitPermissionList_loop param policy dataRefresh rest (initializedList ++ [state]) result undefValues
      end
  end.

Definition InitPermissionList param policy (initializedList : list PermissionStatus) (result : HapInfoCheckResult)
    (undefValues : list GenericValues) (dataRefresh : bool)
    : bool * list PermissionStatus * HapInfoCheckResult * list GenericValues :=
  InitPermissionList_loop param policy dataRefresh (hp_permStateList policy) initializedList result undefValues.

(** ** Reference definitions. *)

(** A permission of the table that is enabled. *)
Definition enabled_def (n : string) : option PermissionBriefDef :=
  match GetPermissionBriefDef_name n with Some d => if pbd_isEnable d then Some d else None | None => None end.

(** The definition of a permission the package may hold. *)
Definition admitted param policy (s : PermissionStatus) : option PermissionBriefDef :=
  match enabled_def (ps_permissionName s) with
  | Some d => if IsAclSatisfied (bp_isSideloadApp param) d policy &&
                 (IsPermAvailableRangeSatisfied param d PERMISSION_ACL_RULE).1 then Some d else None
  | None => None
  end.

Definition initial_state param policy (s : PermissionStatus) : option PermissionStatus :=
  match admitted param policy s with
  | Some d => Some (InitPermState policy d (bp_isDebug param && hp_isDebugGrant policy)
                      (set_ps_status PERMISSION_DENIED (set_ps_flag PERMISSION_DEFAULT_FLAG s)))
  | None => None
  end.

Definition undefined_value param policy (s : PermissionStatus) : option GenericValues :=
  match admitted param policy s with
  | Some _ => None
  | None => head (FillUndefinedPermVector (ps_permissionName s) (AppDistTypeToString (bp_distributionType param)) policy [])
  end.

(** An enabled permission the package may not hold. *)
Definition offending param policy (s : PermissionStatus) : bool :=
  bool_decide (is_Some (enabled_def (ps_permissionName s))) && bool_decide (admitted param policy s = None).

Lemma AclAndEdmCheck_ok param d policy r :
  (AclAndEdmCheck param d policy r).1 =
  IsAclSatisfied (bp_isSideloadApp param) d policy && (IsPermAvailableRangeSatisfied param d PERMISSION_ACL_RULE).1.
Proof.
  unfold AclAndEdmCheck. destruct (IsAclSatisfied _ _ _); [|done].
  by destruct (IsPermAvailableRangeSatisfied _ _ _) as [[] ?].
Qed.

Lemma FillUndefined_app n d policy u :
  FillUndefinedPermVector n d policy u = u ++ option_list (head (FillUndefinedPermVector n d policy [])).
Proof. done. Qed.

(** One step of the loop, by what the permission is. *)
Lemma InitPermissionList_step param policy refresh s rest l r u :
  exists r', InitPermissionList_loop param policy refresh (s :: rest) l r u =
  if offending param policy s then
    if refresh then InitPermissionList_loop param policy refresh rest l r'
                      (if IS_SUPPORT_HAP_RUNNING then u ++ option_list (undefined_value param policy s) else u)
    else (false, l, r', u)
  else
    InitPermissionList_loop param policy refresh rest (l ++ option_list (initial_state param policy s)) r'
      (if IS_SUPPORT_HAP_RUNNING then u ++ option_list (undefined_value param policy s) else u).
Proof.
  cbn [InitPermissionList_loop]. rewrite FillUndefined_app.
  unfold offending, initial_state, undefined_value, admitted, enabled_def.
  destruct (GetPermissionBriefDef_name (ps_permissionName s)) as [d|].
  2: { exists r. cbn. by rewrite app_nil_r. }
  destruct (pbd_isEnable d); cbn [negb].
  2: { exists r. cbn. by rewrite app_nil_r. }
  rewrite <- (AclAndEdmCheck_ok param d policy (mkHapInfoCheckResult (ps_permissionName s) (hicr_rule r))).
  destruct (AclAndEdmCheck _ _ _ _) as [[] r'] eqn:Er; exists r'; cbn [fst negb]; [|done].
  rewrite (bool_decide_eq_false_2 (Some d = None)), andb_false_r by done.
  cbn. rewrite app_nil_r. by destruct IS_SUPPORT_HAP_RUNNING.
Qed.

Lemma option_list_omap {A B} (f : A -> option B) a l : option_list (f a) ++ omap f l = omap f (a :: l).
Proof. cbn. by destruct (f a). Qed.

Lemma InitPermissionList_loop_spec param policy refresh : forall states l r u,
  exists r',
  (refresh = true \/ existsb (offending param policy) states = false ->
     InitPermissionList_loop param policy refresh states l r u =
     (true, l ++ omap (initial_state param policy) states, r',
      if IS_SUPPORT_HAP_RUNNING then u ++ omap (undefined_value param policy) states else u)) /\
  (refresh = false -> existsb (offending param policy) states = true ->
     (InitPermissionList_loop param policy refresh states l r u).1.1.1 = false).
Proof.
  induction states as [|s states IH]; intros l r u.
  { exists r. split; [|done]. intros _. cbn. rewrite !app_nil_r. by destruct IS_SUPPORT_HAP_RUNNING. }
  destruct (InitPermissionList_step param policy refresh s states l r u) as (r1 & ->).
  destruct (IH (l ++ option_list (initial_state param policy s)) r1
    (if IS_SUPPORT_HAP_RUNNING then u ++ option_list (undefined_value param policy s) else u)) as (r2 & Hok & Hbad).
  cbn [existsb]. destruct (offending param policy s) eqn:Ho; cbn [orb].
  - destruct refresh; [|exists r1; naive_solver].
    assert (initial_state param policy s = None) as Hn.
    { apply andb_true_iff in Ho as [_ Ha%bool_decide_eq_true]. unfold initial_state. by rewrite Ha. }
    rewrite Hn in *. cbn [option_list] in *. rewrite app_nil_r in *.
    exists r2. split; [|done]. intros _. rewrite Hok by (by left). rewrite <- !option_list_omap, Hn.
    cbn [option_list]. destruct IS_SUPPORT_HAP_RUNNING; by rewrite <- ?app_assoc.
  - exists r2. split; [|done]. intros H. rewrite Hok by done.
    rewrite <- !option_list_omap. destruct IS_SUPPORT_HAP_RUNNING; by rewrite <- ?app_assoc.
Qed.

(** The initial permissions of a package.  Without refresh the whole list is refused as
    soon as one enabled permission may not be held; otherwise the list holds, in the order
    of the package and after what it already held, exactly the admitted permissions in
    their initial state, and the others are recorded as undefined values. *)
Theorem InitPermissionList_spec param policy l r u refresh :
  ((InitPermissionList param policy l r u refresh).1.1.1 = false <->
     refresh = false /\ existsb (offending param policy) (hp_permStateList policy) = true) /\
  ((InitPermissionList param policy l r u refresh).1.1.1 = true ->
     exists r', InitPermissionList param policy l r u refresh =
     (true, l ++ omap (initial_state param policy) (hp_permStateList policy), r',
      if IS_SUPPORT_HAP_RUNNING then u ++ omap (undefined_value param policy) (hp_permStateList policy) else u)).
Proof.
  unfold InitPermissionList.
  destruct (InitPermissionList_loop_spec param policy refresh (hp_permStateList policy) l r u) as (r' & Hok & Hbad).
  destruct refresh, (existsb _ _); try (rewrite Hok by auto; cbn; naive_solver). rewrite Hbad by done. naive_solver.
Qed.

(** C37: nothing is granted at installation that the package may not hold: every permission
    the initial list grants (and that was not in the list before) is enabled, satisfies
    the access control list and the distribution range, and is granted because it is a
    system grant, because it is pre-authorised, or because the package is a debug one with
    debug grant; a grant that the user may cancel is never marked fixed. *)
Theorem initial_grants_justified param policy r u refresh ok l r' u' s :
  InitPermissionList param policy [] r u refresh = (ok, l, r', u') -> ok = true ->
  s ∈ l -> ps_grantStatus s = PERMISSION_GRANTED ->
  exists d, GetPermissionBriefDef_name (ps_permissionName s) = Some d /\ pbd_isEnable d = true /\
    IsAclSatisfied (bp_isSideloadApp param) d policy = true /\
    (IsPermAvailableRangeSatisfied param d PERMISSION_ACL_RULE).1 = true /\
    (pbd_grantMode d = SYSTEM_GRANT /\ ps_grantFlag s = PERMISSION_SYSTEM_FIXED \/
     (exists c, IsUserGrantPermPreAuthorized (hp_preAuthorizationInfo policy) (ps_permissionName s) = Some c /\
        ps_grantFlag s = if c : bool then PERMISSION_PRE_AUTHORIZED_CANCELABLE else PERMISSION_SYSTEM_FIXED) \/
     (bp_isDebug param = true /\ hp_isDebugGrant policy = true /\ ps_grantFlag s = PERMISSION_USER_FIXED)).
Proof.
  intros He -> Hs Hg. unfold InitPermissionList in He.
  destruct (InitPermissionList_loop_spec param policy refresh (hp_permStateList policy) [] r u) as (r1 & Hok & Hbad).
  assert (refresh = true \/ existsb (offending param policy) (hp_permStateList policy) = false) as Hc.
  { destruct refresh; [by left|right]. apply not_true_iff_false. intros Hx.
    specialize (Hbad eq_refl Hx). by rewrite He in Hbad. }
  rewrite (Hok Hc) in He. injection He as <- _ _. cbn [app] in Hs.
  apply list_elem_of_omap in Hs as (s0 & _ & Hi). unfold initial_state, admitted, enabled_def in Hi.
  destruct (GetPermissionBriefDef_name (ps_permissionName s0)) as [d|] eqn:Ed; [|done].
  destruct (pbd_isEnable d) eqn:Een; [|done]. split_if_in Hi; [|done]. apply andb_true_iff in E as [Ha Hr].
  injection Hi as <-. revert Hg. unfold InitPermState.
  destruct (Z.eqb_spec (pbd_grantMode d) SYSTEM_GRANT) as [Em|].
  { intros _. exists d. cbn. split_and!; try done. by left. }
  split_if; [by cbn|]. cbn [ps_permissionName set_ps_status set_ps_flag].
  destruct (IsUserGrantPermPreAuthorized _ (ps_permissionName s0)) as [c|] eqn:Ep.
  { intros _. exists d. cbn. split_and!; try done. right; left. by exists c. }
  destruct (bp_isDebug param && hp_isDebugGrant policy) eqn:Edb; [|by cbn].
  intros _. apply andb_true_iff in Edb as [? ?]. exists d. cbn. split_and!; try done. by right; right.
Qed.

End PermissionInit.

(** ** Witness. *)
#[local] Instance sample_verify : VerifyEnv :=
  {| ENTERPRISE_MDM := 3; ENTERPRISE_NORMAL := 2; AppDistTypeToString := fun _ => "none"; enterprise_normal_check := true |}.

Definition sample_param : BundleParam := mkBundleParam "com.example.app" "id" 1 2 12 0 false false false false.
Definition sample_policy : HapPolicy :=
  mkHapPolicy APL_NORMAL "normal" []
    (map (fun n => mkPermissionStatus 0 n "" PERMISSION_DENIED 0 0) [CAMERA; "ohos.permission.UNKNOWN"; INTERNET])
    [] [mkPreAuthorizationInfo CAMERA true] 0 ∅ false.

Lemma initial_grants_justified_witness :
  exists d, GetPermissionBriefDef_name (PT := sample_table) CAMERA = Some d /\ pbd_grantMode d = USER_GRANT.
Proof.
  destruct (initial_grants_justified (PT := sample_table) (BC := full_config) sample_param sample_policy
    (mkHapInfoCheckResult "" 0) [] false true _ _ _
    (mkPermissionStatus 0 CAMERA "" PERMISSION_GRANTED PERMISSION_PRE_AUTHORIZED_CANCELABLE 0) eq_refl eq_refl)
    as (d & Hd & _); [vm_compute; apply list_elem_of_here|reflexivity|].
  exists d. split; [exact Hd|]. revert Hd. vm_compute. intros [= <-]. reflexivity.
Defined.

Lemma InitPermissionList_spec_witness :
  (InitPermissionList (PT := sample_table) (BC := full_config) sample_param sample_policy [] (mkHapInfoCheckResult "" 0) [] false).1.1.1
    = true.
Proof.
  destruct (InitPermissionList_spec (PT := sample_table) (BC := full_config) sample_param sample_policy []
    (mkHapInfoCheckResult "" 0) [] false) as [Hf _].
  apply not_false_iff_true. intros [_ H]%Hf. revert H. vm_compute. discriminate.
Defined.
