(* ===== verification/Kernel.v ===== *)
(** * The kernel's permission bits

    The access token device keeps, for every token, one bit per permission code.
    perm_setproc_c.cpp calls it with ioctl, perm_setproc.cpp packs the codes into a bitmap
    of [MAX_PERM_BIT_MAP_SIZE] words, and permission_kernel_utils.cpp adds the retries.
    The device itself is a parameter with the laws of its interface. *)

From stdpp Require Import base gmap list strings sorting.
From S2P Require Import Prelude AccessTokenTypes PermissionMap PermissionDataBrief.
#[local] Open Scope string_scope.
#[local] Open Scope list_scope.
#[local] Open Scope Z_scope.
#[local] Open Scope cxx_scope.

Definition ACCESS_TOKEN_OK : Z := 0.
Definition ACCESS_TOKEN_PARAM_INVALID : Z := -1.
Definition ACCESS_TOKEN_OPEN_ERROR : Z := -2.
Definition MAX_PERM_BIT_MAP_SIZE : Z := 64.
Definition UINT32_T_BITS : Z := 32.

(** The bit of [opCode] in a bitmap. *)
Definition bitmap_bit (perms : list Z) (opCode : Z) : bool :=
  match perms !! Z.to_nat (opCode / UINT32_T_BITS) with
  | Some w => Z.testbit w (opCode mod UINT32_T_BITS)
  | None => false
  end.

(** [open] and the ioctl requests of the device; a request returns the error number (0 when
    it succeeds), and [GET_PERMISSION] the value of the call. *)
Class TokenDevice (K : Type) := {
  dev_open : K -> bool * K;
  dev_add : K -> Z -> list Z -> Z * K;
  dev_remove : K -> Z -> Z * K;
  dev_set : K -> Z -> Z -> bool -> Z * K;
  dev_get : K -> Z -> Z -> (Z + Z) * K;
  dev_get_all : K -> Z -> (Z + list Z) * K;
}.

(** What the requests do to the bits; a failed request changes nothing and sets a non-zero
    error number. *)
Class TokenDeviceLaws (K : Type) `{!TokenDevice K} := {
  dev_granted : K -> Z -> Z -> bool;
  dev_open_law k ok k' : dev_open k = (ok, k') -> dev_granted k' = dev_granted k;
  dev_add_law k t perms e k' : length perms = Z.to_nat MAX_PERM_BIT_MAP_SIZE -> dev_add k t perms = (e, k') ->
    forall t' c, 0 <= c -> dev_granted k' t' c = if (e =? 0) && (t' =? t) then bitmap_bit perms c else dev_granted k t' c;
  dev_remove_law k t e k' : dev_remove k t = (e, k') ->
    forall t' c, dev_granted k' t' c = if (e =? 0) && (t' =? t) then false else dev_granted k t' c;
  dev_set_law k t op b e k' : dev_set k t op b = (e, k') ->
    forall t' c, dev_granted k' t' c = if (e =? 0) && (t' =? t) && (c =? op) then b else dev_granted k t' c;
  dev_get_law k t op r k' : dev_get k t op = (r, k') ->
    dev_granted k' = dev_granted k /\ (forall err, r = inl err -> err <> 0) /\
    (forall v, r = inr v -> (v =? 1) = dev_granted k t op);
  dev_get_all_law k t r k' : dev_get_all k t = (r, k') ->
    dev_granted k' = dev_granted k /\ (forall err, r = inl err -> err <> 0) /\
    (forall perms, r = inr perms -> length perms = Z.to_nat MAX_PERM_BIT_MAP_SIZE /\ Forall is_u32 perms /\
       forall c, 0 <= c < MAX_PERM_BIT_MAP_SIZE * UINT32_T_BITS -> bitmap_bit perms c = dev_granted k t c);
}.

(** The states in which no request fails. *)
Class TokenDeviceHealth (K : Type) `{!TokenDevice K} := {
  dev_ok : K -> Prop;
  dev_ok_open k ok k' : dev_ok k -> dev_open k = (ok, k') -> ok = true /\ dev_ok k';
  dev_ok_add k t perms e k' : dev_ok k -> length perms = Z.to_nat MAX_PERM_BIT_MAP_SIZE ->
    dev_add k t perms = (e, k') -> e = 0 /\ dev_ok k';
  dev_ok_remove k t e k' : dev_ok k -> dev_remove k t = (e, k') -> e = 0 /\ dev_ok k';
  dev_ok_set k t op b e k' : dev_ok k -> dev_set k t op b = (e, k') -> e = 0 /\ dev_ok k';
  dev_ok_get k t op r k' : dev_ok k -> dev_get k t op = (r, k') -> (exists v, r = inr v) /\ dev_ok k';
}.

Section Device.
Context {K : Type} `{!TokenDevice K}.

(** ** perm_setproc_c.cpp. *)
Definition C_AddPermissionToKernel (k : K) (tokenId : Z) (perms : list Z) : Z * K :=
  let permsSize := Z.of_nat (length perms) in
  if (permsSize =? 0) || (MAX_PERM_BIT_MAP_SIZE <? permsSize) then (ACCESS_TOKEN_PARAM_INVALID, k)
  else
    let data := perms ++ replicate (Z.to_nat (MAX_PERM_BIT_MAP_SIZE - permsSize)) 0 in
    let '(ok, k) := dev_open k in
    if negb ok then (ACCESS_TOKEN_OPEN_ERROR, k) else dev_add k tokenId data.

Definition RemovePermissionFromKernel (k : K) (tokenID : Z) : Z * K :=
  let '(ok, k) := dev_open k in
  if negb ok then (ACCESS_TOKEN_OPEN_ERROR, k) else dev_remove k tokenID.

Definition SetPermissionToKernel (k : K) (tokenID opCode : Z) (status : bool) : Z * K :=
  let '(ok, k) := dev_open k in
  if negb ok then (ACCESS_TOKEN_OPEN_ERROR, k) else dev_set k tokenID (u32 opCode) status.

(** The code and [isGranted]. *)
Definition GetPermissionFromKernel (k : K) (tokenID opCode : Z) : Z * bool * K :=
  let '(ok, k) := dev_open k in
  if negb ok then (ACCESS_TOKEN_OPEN_ERROR, false, k)
  else
    match dev_get k tokenID (u32 opCode) with
    | (inl savedErrno, k) => (savedErrno, false, k)
    | (inr ret, k) => (ACCESS_TOKEN_OK, ret =? 1, k)
    end.

Definition C_GetPermissionsFromKernel (k : K) (tokenId : Z) : (Z + list Z) * K :=
  let '(ok, k) := dev_open k in
  if negb ok then (inl ACCESS_TOKEN_OPEN_ERROR, k) else dev_get_all k tokenId.

(** ** perm_setproc.cpp. *)

(** The loop that fills [perms]; [None] is the early return. *)
Fixpoint pack_codes (opCodeList : list Z) (perms : list Z) : option (list Z) :=
  match opCodeList with
  | [] => Some perms
  | opCode :: rest =>
      let idx := opCode / UINT32_T_BITS in
      let bitIdx := opCode mod UINT32_T_BITS in
      if MAX_PERM_BIT_MAP_SIZE <=? idx then None
      else pack_codes rest (alter (fun w => w .| u32 (1 .<< bitIdx)) (Z.to_nat idx) perms)
  end.

Definition AddPermissionToKernel (k : K) (tokenID : Z) (opCodeList : list Z) : Z * K :=
  match pack_codes opCodeList (replicate (Z.to_nat MAX_PERM_BIT_MAP_SIZE) 0) with
  | None => (ACCESS_TOKEN_PARAM_INVALID, k)
  | Some perms => C_AddPermissionToKernel k tokenID perms
  end.

(** The two loops that list the codes of a bitmap. *)
Definition unpack_word (i : Z) (w : Z) : list Z :=
  if w =? 0 then []
  else omap (fun j => if nz (w .& u32 (1 .<< j)) then Some (i * UINT32_T_BITS + j) else None)
         (Z.of_nat <$> seq 0 (Z.to_nat UINT32_T_BITS)).
Fixpoint unpack_codes (i : Z) (perms : list Z) : list Z :=
  match perms with [] => [] | w :: rest => unpack_word i w ++ unpack_codes (i + 1) rest end.

Definition GetPermissionsFromKernel (k : K) (tokenID : Z) : Z * list Z * K :=
  match C_GetPermissionsFromKernel k tokenID with
  | (inl ret, k) => (ret, [], k)
  | (inr perms, k) => (ACCESS_TOKEN_OK, unpack_codes 0 perms, k)
  end.

(** ** permission_kernel_utils.cpp. *)
Definition AddHapPermToKernel (k : K) (tokenID : Z) (opCodeList : list Z) : Z * K :=
  let '(ret, k) := AddPermissionToKernel k tokenID opCodeList in
  if negb (ret =? ACCESS_TOKEN_OK) then AddPermissionToKernel k tokenID opCodeList else (ret, k).

Definition AddHapPermToKernel_brief (k : K) (tokenID : Z) (permBriefDataList : list BriefPermData) : Z * K :=
  AddHapPermToKernel k tokenID
    (omap (fun d => if bpd_status d =? PERMISSION_GRANTED then Some (bpd_permCode d) else None) permBriefDataList).

Definition AddNativePermToKernel (k : K) (tokenID : Z) (opCodeList : list Z) (statusList : list bool) : Z * K :=
  if negb (bool_decide (length opCodeList = length statusList)) then (ERR_PARAM_INVALID, k)
  else
    let grantedPermList := omap (fun cs : Z * bool => if cs.2 then Some cs.1 else None) (zip opCodeList statusList) in
    let '(ret, k) := AddPermissionToKernel k tokenID grantedPermList in
    if negb (ret =? ACCESS_TOKEN_OK) then AddPermissionToKernel k tokenID grantedPermList else (ret, k).

Definition RemovePermFromKernel (k : K) (tokenID : Z) : Z * K :=
  let '(ret, k) := RemovePermissionFromKernel k tokenID in
  if ret =? RET_SUCCESS then (ret, k) else RemovePermissionFromKernel k tokenID.

Definition GetPermFromKernel (k : K) (tokenID permCode : Z) : Z * bool * K :=
  GetPermissionFromKernel k tokenID (i32 permCode).

Definition SetPermToKernel {PT : PermTable} (k : K) (tokenID : Z) (permissionName : string) (isGranted : bool) : K :=
  match TransferPermissionToOpcode permissionName with
  | None => k
  | Some code => (SetPermissionToKernel k tokenID (i32 code) isGranted).2
  end.

End Device.

(** ** Packing and unpacking. *)
Abbreviation code_ok c := (0 <= c < MAX_PERM_BIT_MAP_SIZE * UINT32_T_BITS).

Lemma u32_shift_bit j n : 0 <= j < 32 -> 0 <= n -> Z.testbit (u32 (1 .<< j)) n = (n =? j).
Proof.
  intros Hj Hn. rewrite u32_testbit by done. rewrite Z.shiftl_spec by done.
  destruct (Z.ltb_spec n 32); cbn [andb].
  - destruct (Z.eqb_spec n j) as [->|]; [by rewrite Z.sub_diag|].
    destruct (Z.lt_ge_cases n j); [by rewrite Z.testbit_neg_r by lia|].
    by replace (n - j) with (Z.succ (n - j - 1)) by lia; apply Z.bits_above_log2; [lia|]; change (Z.log2 1) with 0; lia.
  - symmetry. apply Z.eqb_neq. lia.
Qed.

Lemma split_code c : c = UINT32_T_BITS * (c / UINT32_T_BITS) + c mod UINT32_T_BITS /\ 0 <= c mod UINT32_T_BITS < 32.
Proof. unfold UINT32_T_BITS. split; [apply Z.div_mod; lia|apply Z.mod_pos_bound; lia]. Qed.

Lemma bitmap_bit_alter perms op c :
  length perms = Z.to_nat MAX_PERM_BIT_MAP_SIZE -> code_ok op -> 0 <= c ->
  bitmap_bit (alter (fun w => w .| u32 (1 .<< (op mod UINT32_T_BITS))) (Z.to_nat (op / UINT32_T_BITS)) perms) c =
  bitmap_bit perms c || (c =? op).
Proof.
  intros Hl Hop Hc. unfold bitmap_bit. destruct (split_code op) as [Eo Ho]. destruct (split_code c) as [Ec Hcm].
  assert (0 <= op / UINT32_T_BITS < 64) as Hod.
  { unfold UINT32_T_BITS, MAX_PERM_BIT_MAP_SIZE in *. split; [apply Z.div_pos; lia|apply Z.div_lt_upper_bound; lia]. }
  assert (0 <= c / UINT32_T_BITS) as Hcd by (apply Z.div_pos; [lia|unfold UINT32_T_BITS; lia]).
  destruct (Z.eq_dec (c / UINT32_T_BITS) (op / UINT32_T_BITS)) as [E|E].
  - rewrite E, list_lookup_alter_eq.
    destruct (perms !! Z.to_nat (op / UINT32_T_BITS)) as [w|] eqn:Hw; cbn.
    + rewrite Z.lor_spec, u32_shift_bit by lia. f_equal. rewrite E in Ec.
      destruct (Z.eqb_spec (c mod UINT32_T_BITS) (op mod UINT32_T_BITS)), (Z.eqb_spec c op); congruence || lia.
    + apply lookup_ge_None in Hw. rewrite Hl in Hw. unfold MAX_PERM_BIT_MAP_SIZE in Hw. lia.
  - rewrite list_lookup_alter_ne by lia. destruct (Z.eqb_spec c op) as [->|]; [done|by rewrite orb_false_r].
Qed.

Lemma pack_codes_spec l : forall perms, length perms = Z.to_nat MAX_PERM_BIT_MAP_SIZE -> Forall (fun c => 0 <= c) l ->
  (Exists (fun c => ~ code_ok c) l -> pack_codes l perms = None) /\
  (Forall (fun c => code_ok c) l -> exists p, pack_codes l perms = Some p /\ length p = Z.to_nat MAX_PERM_BIT_MAP_SIZE /\
     forall c, 0 <= c -> bitmap_bit p c = bitmap_bit perms c || bool_decide (c ∈ l)).
Proof.
  induction l as [|op l IH]; intros perms Hl Hpos; cbn [pack_codes].
  { split; [by intros H%Exists_nil|]. intros _. exists perms. split_and!; [done|done|]. intros c _.
    rewrite bool_decide_eq_false_2 by apply not_elem_of_nil. by rewrite orb_false_r. }
  apply Forall_cons in Hpos as [Hop Hpos].
  assert ((MAX_PERM_BIT_MAP_SIZE <=? op / UINT32_T_BITS) = negb (bool_decide (code_ok op))) as ->.
  { destruct (split_code op) as [Eo Ho]. unfold MAX_PERM_BIT_MAP_SIZE in *.
    case_bool_decide; cbn; [apply Z.leb_gt|apply Z.leb_le]; unfold UINT32_T_BITS in *; lia. }
  case_bool_decide as Hok; cbn [negb].
  - destruct (IH (alter (fun w => w .| u32 (1 .<< (op mod UINT32_T_BITS))) (Z.to_nat (op / UINT32_T_BITS)) perms))
      as [Hbad Hgood]; [by rewrite length_alter|done|]. split.
    + intros [?|He]%Exists_cons; [done|by apply Hbad].
    + intros [_ Hall]%Forall_cons. destruct (Hgood Hall) as (p & -> & Hlp & Hp). exists p. split_and!; [done|done|].
      intros c Hc. rewrite Hp, bitmap_bit_alter by done. rewrite <- orb_assoc. f_equal.
      rewrite (bool_decide_ext (c ∈ op :: l) (c = op \/ c ∈ l)) by apply elem_of_cons.
      rewrite bool_decide_or. f_equal. by rewrite <- Z.eqb_eq, bool_decide_eq_true || destruct (Z.eqb_spec c op); case_bool_decide.
  - split; [done|]. by intros [? _]%Forall_cons.
Qed.

Lemma bitmap_bit_zero n c : bitmap_bit (replicate n 0) c = false.
Proof.
  unfold bitmap_bit. destruct (replicate n 0 !! _) as [w|] eqn:Hw; [|done].
  apply lookup_replicate in Hw as [-> _]. apply Z.testbit_0_l.
Qed.

Lemma elem_of_unpack_word i w c : is_u32 w -> c ∈ unpack_word i w <-> i * UINT32_T_BITS <= c < (i + 1) * UINT32_T_BITS /\
  Z.testbit w (c - i * UINT32_T_BITS) = true.
Proof.
  intros Hw. unfold unpack_word. destruct (Z.eqb_spec w 0) as [->|_].
  { rewrite elem_of_nil, Z.testbit_0_l. naive_solver. }
  rewrite list_elem_of_omap. setoid_rewrite list_elem_of_fmap. setoid_rewrite elem_of_seq.
  assert (forall j, 0 <= j < 32 -> nz (w .& u32 (1 .<< j)) = Z.testbit w j) as Hbit.
  { intros j Hj. assert (u32 (1 .<< j) = 2 ^ j) as ->; [|apply nz_land_bit; lia].
    apply Z.bits_inj'. intros n Hn. rewrite u32_shift_bit, Z.pow2_bits_eqb by lia. by rewrite Z.eqb_sym. }
  unfold UINT32_T_BITS in *. split.
  - intros (j & (m & -> & Hm) & Hc). rewrite Hbit in Hc by lia. split_if_in Hc; [|done]. injection Hc as <-.
    split; [lia|]. by replace (i * 32 + Z.of_nat m - i * 32) with (Z.of_nat m) by lia.
  - intros [Hr Hb]. exists (c - i * 32). split; [exists (Z.to_nat (c - i * 32)); lia|].
    rewrite Hbit, Hb by lia. f_equal. lia.
Qed.

Lemma elem_of_unpack_codes perms c : Forall is_u32 perms -> forall i, 0 <= i ->
  c ∈ unpack_codes i perms <-> i * UINT32_T_BITS <= c < (i + Z.of_nat (length perms)) * UINT32_T_BITS /\
    bitmap_bit perms (c - i * UINT32_T_BITS) = true.
Proof.
  induction perms as [|w perms IH]; intros Hu i Hi; cbn [unpack_codes length].
  { rewrite elem_of_nil. unfold UINT32_T_BITS. naive_solver lia. }
  apply Forall_cons in Hu as [Hw Hu]. rewrite elem_of_app, elem_of_unpack_word, IH by (done || lia).
  unfold bitmap_bit, UINT32_T_BITS.
  assert (forall x, x - (i + 1) * 32 = (x - i * 32) - 32) as Hsub by lia. rewrite Hsub. set (x := c - i * 32).
  destruct (Z.lt_ge_cases x 0) as [|Hx]; [lia|]. destruct (Z.lt_ge_cases x 32) as [Hx2|Hx2].
  - rewrite (Z.div_small x), (Z.mod_small x) by lia. cbn. subst x. split; [intros [?|?]; [|lia]|]; [split; [lia|tauto]|]. left. lia || (split; [lia|tauto]).
  - assert (x / 32 = (x - 32) / 32 + 1) as -> by (rewrite <- Z.div_add by lia; f_equal; lia).
    assert (x mod 32 = (x - 32) mod 32) as -> by (rewrite <- (Z.mod_add (x - 32) 1) by lia; f_equal; lia).
    replace (Z.to_nat ((x - 32) / 32 + 1)) with (S (Z.to_nat ((x - 32) / 32)))
      by (pose proof (Z.div_pos (x - 32) 32); lia).
    cbn [lookup list_lookup]. subst x. split; [intros [?|?]; [lia|]|right]; split; try lia; tauto.
Qed.

Lemma unpack_bits_sorted i w n : forall s,
  StronglySorted Z.lt (omap (fun j => if nz (w .& u32 (1 .<< j)) then Some (i * UINT32_T_BITS + j) else None)
                         (Z.of_nat <$> seq s n)).
Proof.
  induction n as [|n IH]; intros s; cbn; [constructor|]. split_if; [|apply IH]. constructor; [apply IH|].
  rewrite Forall_forall. intros c (j & (m & -> & Hm%elem_of_seq)%list_elem_of_fmap & Hc)%list_elem_of_omap.
  split_if_in Hc; [|done]. injection Hc as <-. lia.
Qed.

Lemma unpack_codes_sorted perms : Forall is_u32 perms -> forall i, 0 <= i -> StronglySorted Z.lt (unpack_codes i perms).
Proof.
  induction perms as [|w perms IH]; intros Hu i Hi; cbn [unpack_codes]; [constructor|].
  apply Forall_cons in Hu as [Hw Hu]. apply StronglySorted_app. split_and!.
  - intros c1 c2 H1%elem_of_unpack_word H2; [|done]. apply elem_of_unpack_codes in H2; [|done|lia]. lia.
  - unfold unpack_word. split_if; [constructor|apply unpack_bits_sorted].
  - apply IH; [done|lia].
Qed.

(** ** What the calls do to the bits. *)
Section DeviceLaws.
Context {K : Type} `{!TokenDevice K, !TokenDeviceLaws K}.
Implicit Types (k : K) (t c : Z) (l : list Z).

(** [k'] differs from [k] only on the bits of token [t], and there it is [f]. *)
Definition bits_after k k' (P : Z -> Z -> bool) (f : Z -> bool) : Prop :=
  forall t c, 0 <= c -> dev_granted k' t c = if P t c then f c else dev_granted k t c.

Lemma AddPermissionToKernel_law k t l e k' :
  Forall (fun c => 0 <= c) l -> AddPermissionToKernel k t l = (e, k') ->
  bits_after k k' (fun t' _ => (e =? 0) && (t' =? t)) (fun c => bool_decide (c ∈ l)) /\
  (e = 0 -> Forall (fun c => code_ok c) l).
Proof.
  intros Hpos He. unfold AddPermissionToKernel in He.
  destruct (pack_codes_spec l (replicate (Z.to_nat MAX_PERM_BIT_MAP_SIZE) 0)) as [Hbad Hgood];
    [apply length_replicate|done|].
  destruct (decide (Forall (fun c => code_ok c) l)) as [Hall|Hn].
  2: { apply not_Forall_Exists in Hn; [|intros x; apply _]. rewrite (Hbad Hn) in He. injection He as <- <-.
       split; [by intros t' c|done]. }
  split; [|done]. destruct (Hgood Hall) as (p & Hp & Hlp & Hbits). rewrite Hp in He.
  unfold C_AddPermissionToKernel in He. rewrite Hlp in He. cbn in He. rewrite app_nil_r in He.
  destruct (dev_open k) as [ok k1] eqn:Eo. pose proof (dev_open_law _ _ _ Eo) as Ho.
  destruct ok; cbn [negb] in He.
  - pose proof (dev_add_law _ _ _ _ _ Hlp He) as Ha. intros t' c Hc. rewrite Ha, Ho by done.
    by rewrite Hbits, bitmap_bit_zero by done.
  - injection He as <- <-. intros t' c Hc. by rewrite Ho.
Qed.

Lemma AddHapPermToKernel_law k t l e k' :
  Forall (fun c => 0 <= c) l -> AddHapPermToKernel k t l = (e, k') ->
  bits_after k k' (fun t' _ => (e =? 0) && (t' =? t)) (fun c => bool_decide (c ∈ l)).
Proof.
  intros Hpos He. unfold AddHapPermToKernel in He.
  destruct (AddPermissionToKernel k t l) as [e1 k1] eqn:E1.
  apply AddPermissionToKernel_law in E1 as [H1 _]; [|done]. split_if_in He.
  - apply AddPermissionToKernel_law in He as [H2 _]; [|done]. intros t' c Hc. rewrite H2, H1 by done.
    apply negb_true_iff in E. change ACCESS_TOKEN_OK with 0 in E. by rewrite E.
  - by injection He as <- <-.
Qed.

(** The codes of the list that are granted. *)
Definition status_codes (l : list Z * list bool) : list Z :=
  omap (fun cs : Z * bool => if cs.2 then Some cs.1 else None) (zip l.1 l.2).

Lemma AddNativePermToKernel_law k t codes sts e k' :
  length codes = length sts -> Forall (fun c => 0 <= c) (status_codes (codes, sts)) -> AddNativePermToKernel k t codes sts = (e, k') ->
  bits_after k k' (fun t' _ => (e =? 0) && (t' =? t)) (fun c => bool_decide (c ∈ status_codes (codes, sts))).
Proof.
  intros Hl Hpos He. unfold AddNativePermToKernel in He. rewrite bool_decide_eq_true_2 in He by done. cbn [negb] in He.
  by eapply AddHapPermToKernel_law.
Qed.

Lemma RemovePermFromKernel_law k t e k' : RemovePermFromKernel k t = (e, k') ->
  bits_after k k' (fun t' _ => (e =? 0) && (t' =? t)) (fun _ => false).
Proof.
  assert (forall k e k', RemovePermissionFromKernel k t = (e, k') ->
    bits_after k k' (fun t' _ => (e =? 0) && (t' =? t)) (fun _ => false)) as Hone.
  { intros k0 e0 k0' He. unfold RemovePermissionFromKernel in He. destruct (dev_open k0) as [ok k1] eqn:Eo.
    apply dev_open_law in Eo. destruct ok; cbn [negb] in He.
    - pose proof (dev_remove_law _ _ _ _ He) as Hr. intros t' c Hc. by rewrite Hr, Eo.
    - injection He as <- <-. intros t' c Hc. by rewrite Eo. }
  intros He. unfold RemovePermFromKernel in He. destruct (RemovePermissionFromKernel k t) as [e1 k1] eqn:E1.
  apply Hone in E1. split_if_in He; [by injection He as <- <-|]. apply Hone in He. intros t' c Hc. rewrite He, E1 by done.
  change RET_SUCCESS with 0 in E. by rewrite E.
Qed.

Lemma SetPermissionToKernel_law k t op b e k' : is_u32 op -> SetPermissionToKernel k t (i32 op) b = (e, k') ->
  bits_after k k' (fun t' c => (e =? 0) && (t' =? t) && (c =? op)) (fun _ => b).
Proof.
  intros Hop He. unfold SetPermissionToKernel in He. rewrite u32_i32, (u32_small op Hop) in He.
  destruct (dev_open k) as [ok k1] eqn:Eo. apply dev_open_law in Eo. destruct ok; cbn [negb] in He.
  - pose proof (dev_set_law _ _ _ _ _ _ He) as Hr. intros t' c Hc. by rewrite Hr, Eo.
  - injection He as <- <-. intros t' c Hc. by rewrite Eo.
Qed.

Lemma GetPermFromKernel_law k t op e g k' : is_u32 op -> GetPermFromKernel k t op = (e, g, k') ->
  dev_granted k' = dev_granted k /\ (e = ACCESS_TOKEN_OK -> g = dev_granted k t op).
Proof.
  intros Hop He. unfold GetPermFromKernel, GetPermissionFromKernel in He. rewrite u32_i32, (u32_small op Hop) in He.
  destruct (dev_open k) as [ok k1] eqn:Eo. apply dev_open_law in Eo. destruct ok; cbn [negb] in He.
  - destruct (dev_get k1 t op) as [[err|v] k2] eqn:Eg; apply dev_get_law in Eg as (Hk & Herr & Hv);
      injection He as <- <- <-; rewrite Hk, Eo; (split; [done|]); intros H; [by destruct (Herr err)|].
    by rewrite (Hv v eq_refl), Eo.
  - injection He as <- <- <-. by rewrite Eo.
Qed.

(** C38: the kernel bitmap.  Pushing a list of permission codes replaces the bits of the
    token by exactly these codes and touches no other token; a code the bitmap has no
    place for makes the push fail and change nothing, as does any failure of the device;
    and reading the bits back lists the codes in increasing order, without repetition. *)
Theorem kernel_bitmap_roundtrip k t l e k' e2 codes k2 :
  Forall (fun c => 0 <= c) l ->
  AddPermissionToKernel k t l = (e, k') -> GetPermissionsFromKernel k' t = (e2, codes, k2) ->
  (e = 0 -> e2 = ACCESS_TOKEN_OK ->
     StronglySorted Z.lt codes /\ (forall c, c ∈ codes <-> c ∈ l)) /\
  (Exists (fun c => ~ code_ok c) l -> e = ACCESS_TOKEN_PARAM_INVALID) /\
  (e <> 0 -> forall t' c, 0 <= c -> dev_granted k' t' c = dev_granted k t' c) /\
  (forall t' c, 0 <= c -> t' <> t -> dev_granted k' t' c = dev_granted k t' c).
Proof.
  intros Hpos Ha Hg. pose proof (AddPermissionToKernel_law k t l e k' Hpos Ha) as [Hbits Hall]. split_and!.
  - intros -> ->. unfold GetPermissionsFromKernel, C_GetPermissionsFromKernel in Hg.
    destruct (dev_open k') as [ok k4] eqn:Eo. apply dev_open_law in Eo. destruct ok; [|done]. cbn [negb] in Hg.
    destruct (dev_get_all k4 t) as [[err|perms] k3] eqn:Ec; apply dev_get_all_law in Ec as (_ & Herr & Hperms).
    { injection Hg as -> _ _. by destruct (Herr ACCESS_TOKEN_OK). }
    injection Hg as <- <-. destruct (Hperms perms eq_refl) as (Hlen & Hu & Hp).
    split; [by apply unpack_codes_sorted|]. intros c. rewrite elem_of_unpack_codes, Hlen by done.
    rewrite Z.mul_0_l, Z.sub_0_r, Z2Nat.id, Z.add_0_l by done. split.
    + intros [Hr Hb]. rewrite Hp, Eo, Hbits in Hb by lia. rewrite !Z.eqb_refl in Hb. cbn in Hb.
      by apply bool_decide_eq_true in Hb.
    + intros Hc. specialize (Hall eq_refl). rewrite Forall_forall in Hall. pose proof (Hall c Hc) as Hok.
      split; [done|]. rewrite Hp, Eo, Hbits by lia. rewrite !Z.eqb_refl. cbn. by apply bool_decide_eq_true.
  - intros He. unfold AddPermissionToKernel in Ha.
    destruct (pack_codes_spec l (replicate (Z.to_nat MAX_PERM_BIT_MAP_SIZE) 0)) as [Hbad _]; [apply length_replicate|done|].
    rewrite (Hbad He) in Ha. by injection Ha.
  - intros Hne t' c Hc. rewrite Hbits by done. by rewrite (proj2 (Z.eqb_neq e 0) Hne).
  - intros t' c Hc Hne. rewrite Hbits by done. by rewrite (proj2 (Z.eqb_neq t' t) Hne), andb_false_r.
Qed.

End DeviceLaws.

(** ** A healthy device. *)
Section Health.
Context {K : Type} `{!TokenDevice K} `{!TokenDeviceHealth K}.
Implicit Types (k : K).

Lemma AddHapPermToKernel_ok k t l e k' :
  dev_ok k -> Forall (fun c => code_ok c) l -> AddHapPermToKernel k t l = (e, k') -> e = 0 /\ dev_ok k'.
Proof.
  intros Hk Hl. unfold AddHapPermToKernel. destruct (AddPermissionToKernel k t l) as [e1 k1] eqn:E1.
  assert (e1 = 0 /\ dev_ok k1) as [-> Hk1].
  { unfold AddPermissionToKernel in E1.
    destruct (pack_codes_spec l (replicate (Z.to_nat MAX_PERM_BIT_MAP_SIZE) 0)) as [_ Hgood]; [apply length_replicate|
      eapply Forall_impl; [exact Hl|]; intros c [? _]; done|].
    destruct (Hgood Hl) as (p & Hp & Hlp & _). rewrite Hp in E1. unfold C_AddPermissionToKernel in E1. rewrite Hlp in E1.
    cbn in E1. rewrite app_nil_r in E1. destruct (dev_open k) as [ok k2] eqn:Eo. apply dev_ok_open in Eo as [-> Hk2]; [|done].
    cbn in E1. by eapply dev_ok_add in E1. }
  cbn. by intros [= <- <-].
Qed.

Lemma RemovePermFromKernel_ok k t e k' : dev_ok k -> RemovePermFromKernel k t = (e, k') -> e = 0 /\ dev_ok k'.
Proof.
  intros Hk. unfold RemovePermFromKernel, RemovePermissionFromKernel.
  destruct (dev_open k) as [ok k2] eqn:Eo. apply dev_ok_open in Eo as [-> Hk2]; [|done]. cbn [negb].
  destruct (dev_remove k2 t) as [e1 k3] eqn:Er. apply dev_ok_remove in Er as [-> Hk3]; [|done]. by intros [= <- <-].
Qed.

Lemma SetPermissionToKernel_ok k t op b e k' : dev_ok k -> SetPermissionToKernel k t op b = (e, k') -> e = 0 /\ dev_ok k'.
Proof.
  intros Hk. unfold SetPermissionToKernel. destruct (dev_open k) as [ok k2] eqn:Eo.
  apply dev_ok_open in Eo as [-> Hk2]; [|done]. cbn [negb]. intros Es. by eapply dev_ok_set in Es.
Qed.

Lemma GetPermFromKernel_ok k t c e g k' : dev_ok k -> GetPermFromKernel k t c = (e, g, k') -> e = ACCESS_TOKEN_OK /\ dev_ok k'.
Proof.
  intros Hk. unfold GetPermFromKernel, GetPermissionFromKernel. destruct (dev_open k) as [ok k2] eqn:Eo.
  apply dev_ok_open in Eo as [-> Hk2]; [|done]. cbn [negb]. destruct (dev_get k2 t _) as [r k3] eqn:Eg.
  apply dev_ok_get in Eg as [(v & ->) Hk3]; [|done]. by intros [= <- _ <-].
Qed.

End Health.

(** ** A device in memory: the bits of each token, and errors to come. *)
Record MemDevice := mkMemDevice { md_bits : gmap Z (gset Z); md_errors : list Z }.

Definition next_error (k : MemDevice) : Z * MemDevice :=
  match md_errors k with [] => (0, k) | e :: r => (e, mkMemDevice (md_bits k) r) end.

Definition token_bits (k : MemDevice) (t : Z) : gset Z := default ∅ (md_bits k !! t).

Definition all_codes : list Z := Z.of_nat <$> seq 0 (Z.to_nat (MAX_PERM_BIT_MAP_SIZE * UINT32_T_BITS)).

Definition bits_of (perms : list Z) : gset Z := list_to_set (filter (fun c => bitmap_bit perms c = true) all_codes).

(** The bitmap of a set of codes. *)
Definition word_of (s : gset Z) (i : nat) : Z :=
  foldr (fun j w => if bool_decide (Z.of_nat i * UINT32_T_BITS + Z.of_nat j ∈ s) then w .| 2 ^ Z.of_nat j else w) 0
    (seq 0 (Z.to_nat UINT32_T_BITS)).

Definition bitmap_of (s : gset Z) : list Z := word_of s <$> seq 0 (Z.to_nat MAX_PERM_BIT_MAP_SIZE).

#[export] Instance mem_device : TokenDevice MemDevice := {|
  dev_open k := (true, k);
  dev_add k t perms :=
    let '(e, k) := next_error k in
    if e =? 0 then (0, mkMemDevice (<[t := bits_of perms]> (md_bits k)) (md_errors k)) else (e, k);
  dev_remove k t :=
    let '(e, k) := next_error k in
    if e =? 0 then (0, mkMemDevice (delete t (md_bits k)) (md_errors k)) else (e, k);
  dev_set k t op b :=
    let '(e, k) := next_error k in
    if e =? 0 then
      (0, mkMemDevice (<[t := if b : bool then {[op]} ∪ token_bits k t else token_bits k t ∖ {[op]}]> (md_bits k))
            (md_errors k))
    else (e, k);
  dev_get k t op :=
    let '(e, k) := next_error k in
    if e =? 0 then (inr (if bool_decide (op ∈ token_bits k t) then 1 else 0), k) else (inl e, k);
  dev_get_all k t :=
    let '(e, k) := next_error k in
    if e =? 0 then (inr (bitmap_of (token_bits k t)), k) else (inl e, k);
|}.

Definition mem_granted (k : MemDevice) (t c : Z) : bool := bool_decide (c ∈ token_bits k t).

Lemma next_error_bits k e k' : next_error k = (e, k') -> md_bits k' = md_bits k.
Proof. unfold next_error. destruct (md_errors k); by intros [= <- <-]. Qed.

Lemma token_bits_insert m l t t' s : token_bits (mkMemDevice (<[t := s]> m) l) t' = if t' =? t then s else default ∅ (m !! t').
Proof.
  unfold token_bits. cbn. destruct (Z.eqb_spec t' t) as [->|].
  - by rewrite lookup_insert_eq.
  - by rewrite lookup_insert_ne.
Qed.

Lemma elem_of_bits_of perms c : length perms = Z.to_nat MAX_PERM_BIT_MAP_SIZE -> 0 <= c ->
  c ∈ bits_of perms <-> bitmap_bit perms c = true.
Proof.
  intros Hl Hc. unfold bits_of, all_codes. rewrite elem_of_list_to_set, list_elem_of_filter, list_elem_of_fmap.
  split; [by intros [? _]|]. intros Hb. split; [done|]. exists (Z.to_nat c). split; [lia|]. apply elem_of_seq.
  unfold bitmap_bit in Hb. destruct (perms !! _) as [w|] eqn:Hw; [|done]. apply lookup_lt_Some in Hw. rewrite Hl in Hw.
  destruct (split_code c). unfold MAX_PERM_BIT_MAP_SIZE, UINT32_T_BITS in *. lia.
Qed.

Lemma word_of_bit s i n : 0 <= n -> Z.testbit (word_of s i) n = (n <? 32) && bool_decide (Z.of_nat i * UINT32_T_BITS + n ∈ s).
Proof.
  intros Hn. unfold word_of. change (n <? 32) with (n <? Z.of_nat (Z.to_nat UINT32_T_BITS)).
  generalize (Z.to_nat UINT32_T_BITS). intros m.
  assert (forall a, Z.testbit (foldr (fun j w => if bool_decide (Z.of_nat i * UINT32_T_BITS + Z.of_nat j ∈ s)
      then w .| 2 ^ Z.of_nat j else w) 0 (seq a m)) n =
    (Z.of_nat a <=? n) && (n <? Z.of_nat (a + m)) && bool_decide (Z.of_nat i * UINT32_T_BITS + n ∈ s)) as H.
  { induction m as [|m IH]; intros a; cbn [seq foldr].
    - rewrite Z.testbit_0_l. destruct (Z.leb_spec (Z.of_nat a) n), (Z.ltb_spec n (Z.of_nat (a + 0))); try done; lia.
    - assert (forall b : bool, Z.testbit (if b then _ else _) n = (b && (n =? Z.of_nat a)) ||
        Z.testbit (foldr (fun j w => if bool_decide (Z.of_nat i * UINT32_T_BITS + Z.of_nat j ∈ s)
          then w .| 2 ^ Z.of_nat j else w) 0 (seq (S a) m)) n) as ->.
      { intros []; [|done]. rewrite Z.lor_spec, Z.pow2_bits_eqb by lia. by rewrite orb_comm, Z.eqb_sym. }
      rewrite IH. destruct (Z.eqb_spec n (Z.of_nat a)) as [->|].
      + destruct (Z.leb_spec (Z.of_nat (S a)) (Z.of_nat a)); [lia|]. rewrite Z.leb_refl.
        destruct (Z.ltb_spec (Z.of_nat a) (Z.of_nat (a + S m))); [|lia]. cbn. by rewrite andb_true_r, orb_false_r.
      + rewrite andb_false_r. cbn [orb]. f_equal.
        destruct (Z.leb_spec (Z.of_nat (S a)) n), (Z.leb_spec (Z.of_nat a) n), (Z.ltb_spec n (Z.of_nat (S a + m))),
          (Z.ltb_spec n (Z.of_nat (a + S m))); cbn; lia || done. }
  rewrite H. by destruct (Z.leb_spec (Z.of_nat 0) n); [|lia].
Qed.

Lemma word_of_u32 s i : is_u32 (word_of s i).
Proof.
  apply is_u32_bits. split.
  - unfold word_of. generalize (seq 0 (Z.to_nat UINT32_T_BITS)). induction l as [|j l IH]; cbn; [done|].
    split_if; [|done]. apply Z.lor_nonneg. split; [done|]. apply Z.pow_nonneg. lia.
  - intros n Hn. rewrite word_of_bit by lia. destruct (Z.ltb_spec n 32); [lia|done].
Qed.

Lemma mem_all_bits s c : code_ok c ->
  bitmap_bit (bitmap_of s) c = bool_decide (c ∈ s).
Proof.
  intros Hc. destruct (split_code c) as [Ec Hm]. unfold bitmap_bit, bitmap_of. rewrite list_lookup_fmap.
  assert (0 <= c / UINT32_T_BITS < 64) as Hd.
  { unfold UINT32_T_BITS, MAX_PERM_BIT_MAP_SIZE in *. split; [apply Z.div_pos; lia|apply Z.div_lt_upper_bound; lia]. }
  rewrite lookup_seq_lt by (unfold MAX_PERM_BIT_MAP_SIZE; lia). cbn [fmap option_fmap option_map].
  rewrite word_of_bit by lia. destruct (Z.ltb_spec (c mod UINT32_T_BITS) 32); [|lia]. cbn [andb].
  apply bool_decide_ext. rewrite Nat.add_0_l, Z2Nat.id by lia. by replace (c / UINT32_T_BITS * UINT32_T_BITS + c mod UINT32_T_BITS) with c by lia.
Qed.

#[export] Instance mem_device_laws : TokenDeviceLaws MemDevice.
Proof.
  refine {| dev_granted := mem_granted |}; unfold mem_granted;
    cbn [dev_open dev_add dev_remove dev_set dev_get dev_get_all mem_device].
  - by intros k ok k' [= _ <-].
  - intros k t perms e k' Hl. destruct (next_error k) as [e1 k1] eqn:En. apply next_error_bits in En.
    destruct (Z.eqb_spec e1 0) as [->|Hne]; intros [= <- <-] t' c Hc.
    + rewrite token_bits_insert, En. cbn. destruct (t' =? t); [|done].
      rewrite <- (elem_of_bits_of perms c Hl Hc) || (destruct (bitmap_bit perms c) eqn:Eb;
        [apply bool_decide_eq_true_2, elem_of_bits_of; done|apply bool_decide_eq_false_2; rewrite elem_of_bits_of by done; by rewrite Eb]).
    + unfold token_bits. rewrite En, (proj2 (Z.eqb_neq e1 0) Hne). done.
  - intros k t e k'. destruct (next_error k) as [e1 k1] eqn:En. apply next_error_bits in En.
    destruct (Z.eqb_spec e1 0) as [->|Hne]; intros [= <- <-] t' c; unfold token_bits; cbn.
    + rewrite En. destruct (Z.eqb_spec t' t) as [->|]; [by rewrite lookup_delete_eq|by rewrite lookup_delete_ne].
    + by rewrite En, (proj2 (Z.eqb_neq e1 0) Hne).
  - intros k t op b e k'. destruct (next_error k) as [e1 k1] eqn:En. apply next_error_bits in En.
    destruct (Z.eqb_spec e1 0) as [->|Hne]; intros [= <- <-] t' c.
    + rewrite token_bits_insert, En. unfold token_bits. rewrite En. cbn. destruct (Z.eqb_spec t' t) as [->|]; [|done]. cbn.
      destruct (Z.eqb_spec c op) as [->|]; destruct b;
        [apply bool_decide_eq_true_2; set_solver|apply bool_decide_eq_false_2; set_solver|apply bool_decide_ext; set_solver|apply bool_decide_ext; set_solver].
    + unfold token_bits. by rewrite En, (proj2 (Z.eqb_neq e1 0) Hne).
  - intros k t op r k'. destruct (next_error k) as [e1 k1] eqn:En. apply next_error_bits in En.
    assert (token_bits k1 = token_bits k) as Hb by (unfold token_bits; by rewrite En).
    destruct (Z.eqb_spec e1 0) as [->|Hne]; intros [= <- <-]; rewrite Hb; split_and!; try done; [|by intros ? [= <-]].
    intros v [= <-]. by case_bool_decide.
  - intros k t r k'. destruct (next_error k) as [e1 k1] eqn:En. apply next_error_bits in En.
    assert (token_bits k1 = token_bits k) as Hb by (unfold token_bits; by rewrite En).
    destruct (Z.eqb_spec e1 0) as [->|Hne]; intros [= <- <-]; rewrite Hb; split_and!; try done; [|by intros ? [= <-]].
    intros perms [= <-]. split_and!.
    + unfold bitmap_of. by rewrite length_fmap, length_seq.
    + unfold bitmap_of. apply Forall_fmap, Forall_forall. intros i _. apply word_of_u32.
    + intros c Hc. by apply mem_all_bits.
Defined.

#[export] Instance mem_device_health : TokenDeviceHealth MemDevice.
Proof.
  refine {| dev_ok k := md_errors k = [] |}; cbn [dev_open dev_add dev_remove dev_set dev_get mem_device]; unfold next_error.
  - by intros k ok k' H [= <- <-].
  - intros k t perms e k' H _. rewrite H. by intros [= <- <-].
  - intros k t e k' H. rewrite H. by intros [= <- <-].
  - intros k t op b e k' H. rewrite H. by intros [= <- <-].
  - intros k t op r k' H. rewrite H. cbn. intros [= <- <-]. split; [by eexists|done].
Defined.

Lemma kernel_bitmap_roundtrip_witness :
  StronglySorted Z.lt (GetPermissionsFromKernel (AddPermissionToKernel (mkMemDevice ∅ []) 7 [33; 5]).2 7).1.2 /\
  (forall c, c ∈ (GetPermissionsFromKernel (AddPermissionToKernel (mkMemDevice ∅ []) 7 [33; 5]).2 7).1.2 <-> c ∈ [33; 5]).
Proof.
  destruct (AddPermissionToKernel (mkMemDevice ∅ []) 7 [33; 5]) as [e k'] eqn:Ea. cbn [snd].
  destruct (GetPermissionsFromKernel k' 7) as [[e2 codes] k2] eqn:Eg.
  destruct (kernel_bitmap_roundtrip (mkMemDevice ∅ []) 7 [33; 5] e k' e2 codes k2) as (H & _);
    [by repeat constructor|exact Ea|exact Eg|].
  assert (e = 0) as He by (change e with (e, k').1; rewrite <- Ea; vm_compute; reflexivity).
  assert (e2 = ACCESS_TOKEN_OK) as He2.
  { change e2 with (e2, codes, k2).1.1. rewrite <- Eg. change k' with (e, k').2. rewrite <- Ea. vm_compute. reflexivity. }
  exact (H He He2).
Defined.
