(* ===== verification/Spm.v ===== *)
(** * Entries of the signed permission monitor

    The kernel also keeps an entry per application: its identity, the permissions it asks for and
    the values of those that carry one.  spm_setproc.c passes entries to the device with ioctl,
    in batches; spm_data_kernel_common.cpp builds them, retries, and reads them back.  The device is
    a parameter; [SpmLaws] states the documented behaviour of its requests.  Memory allocation
    succeeds. *)

From stdpp Require Import base gmap list strings.
From S2P Require Import Prelude AccessTokenTypes PermissionMap PermissionDataBrief Kernel HapTokenInfo.
#[local] Open Scope string_scope.
#[local] Open Scope list_scope.
#[local] Open Scope Z_scope.
#[local] Open Scope cxx_scope.

(** ** Error numbers. *)
Definition EEXIST : Z := 17.
Definition EINVAL : Z := 22.
Definition ERANGE : Z := 34.
Definition ENODATA : Z := 61.
Definition ENOTSUP : Z := 95.
Definition ERANGE_AND_RESET : Z := 162.

Definition ERR_DATA_CONFLICT_WITH_KERNEL : Z := 12100302.
Definition ERR_NO_DATA_FROM_KERNEL : Z := 12100303.

(** ** Bytes. *)
Definition string_bytes (s : string) : list Z := map (fun c => Z.of_nat (Ascii.nat_of_ascii c)) (String.list_ascii_of_string s).
Definition bytes_string (l : list Z) : string := String.string_of_list_ascii (map (fun b => Ascii.ascii_of_nat (Z.to_nat b)) l).

(** A 32-bit integer in memory. *)
Definition u32_bytes (x : Z) : list Z := [u8 x; u8 (x .>> 8); u8 (x .>> 16); u8 (x .>> 24)].
Definition bytes_u32 (l : list Z) : Z :=
  match l with b0 :: b1 :: b2 :: b3 :: _ => b0 + b1 * 2 ^ 8 + b2 * 2 ^ 16 + b3 * 2 ^ 24 | _ => 0 end.

Definition slice (offset size : Z) (l : list Z) : list Z := take (Z.to_nat size) (drop (Z.to_nat offset) l).

(** ** spm_setproc.h.  A blob is the bytes of its buffer up to [bufSize]. *)
Record SpmData := mkSpmData {
  sd_uid : Z;
  sd_tokenid : Z;
  sd_tokenidAttr : Z;
  sd_index : Z;
  sd_apl : Z;
  sd_distributionType : Z;
  sd_idType : Z;
  sd_ownerid : Z;
  sd_name : list Z;
  sd_perms : list Z;
  sd_extendPerms : list Z;
}.

#[export] Instance SpmData_eq_dec : EqDecision SpmData.
Proof. solve_decision. Defined.

(** ** spm_setproc.c. *)
Definition SPM_DATA_VERSION : Z := 1.
Definition SPM_DATA_BATCH_SIZE : Z := 50.
Definition SPM_GET_UID_REFCNT_MAX_RETRY : nat := 3.
Definition SPM_REFCNT_OP_INC : Z := 1.
Definition SPM_REFCNT_OP_DEC : Z := 2.

(** [contentPtr] points to [is_content]. *)
Record IoctlSpmData := mkIoctlSpmData {
  is_version : Z;
  is_uid : Z;
  is_tokenid : Z;
  is_tokenidAttr : Z;
  is_index : Z;
  is_nameSize : Z;
  is_nameOffset : Z;
  is_apl : Z;
  is_distributionType : Z;
  is_idType : Z;
  is_ownerid : Z;
  is_permSize : Z;
  is_extendPermSize : Z;
  is_permsOffset : Z;
  is_extendPermsOffset : Z;
  is_content : list Z;
}.

(** The requests ADD_SPM_ENTRIES and SET_SPM_ENTRIES. *)
Inductive SpmCmd := ADD_SPM_ENTRIES | SET_SPM_ENTRIES.

(** The requests about reference counts. *)
Inductive RefKind := REF_UID | REF_TOKENID.

(** ioctl with the SPM requests: the error number (0 when it succeeds), [idxErr] of a batch, and
    the entry a query fills in. *)
Class SpmDevice (K : Type) := {
  spm_batch : SpmCmd -> K -> list IoctlSpmData -> Z * Z * K;
  spm_get : K -> Z -> IoctlSpmData -> (Z + IoctlSpmData) * K;
  spm_remove : K -> Z -> Z * K;
  spm_version : K -> (Z + Z) * K;
  spm_set_refcnt : RefKind -> K -> Z -> Z -> Z -> Z * K;
  spm_get_refcnt : RefKind -> K -> Z -> (Z + Z) * K;
  spm_clear_spawnid : K -> Z -> Z * K;
}.

Definition ConstructStaticKernelData (src : SpmData) (buf : list Z) : IoctlSpmData :=
  let nameSize := Z.of_nat (length (sd_name src)) in
  let permSize := Z.of_nat (length (sd_perms src)) in
  mkIoctlSpmData SPM_DATA_VERSION (sd_uid src) (sd_tokenid src) (sd_tokenidAttr src) (sd_index src) nameSize 0
    (sd_apl src) (sd_distributionType src) (sd_idType src) (sd_ownerid src) permSize
    (Z.of_nat (length (sd_extendPerms src))) nameSize (nameSize + permSize) buf.

Definition SpmDataToKernel (src : SpmData) : Z + IoctlSpmData :=
  let nameSize := Z.of_nat (length (sd_name src)) in
  let permSize := Z.of_nat (length (sd_perms src)) in
  let extPermSize := Z.of_nat (length (sd_extendPerms src)) in
  let totalSize := nameSize + permSize + extPermSize in
  if 2 ^ 32 - 1 <? totalSize then inl ERANGE
  else if (nameSize =? 0) || (permSize =? 0) then inl EINVAL
  else inr (ConstructStaticKernelData src (sd_name src ++ sd_perms src ++ sd_extendPerms src)).

(** The loop that fills [batch->entries]. *)
Fixpoint fill_batch (entries : list SpmData) : Z + list IoctlSpmData :=
  match entries with
  | [] => inr []
  | entry :: rest =>
      match SpmDataToKernel entry with
      | inl ret => inl ret
      | inr data => match fill_batch rest with inl ret => inl ret | inr l => inr (data :: l) end
      end
  end.

Definition SpmSetupGetQuery (entry : SpmData) (tokenid : Z) : IoctlSpmData :=
  let nameSize := Z.of_nat (length (sd_name entry)) in
  let permSize := Z.of_nat (length (sd_perms entry)) in
  let extPermSize := Z.of_nat (length (sd_extendPerms entry)) in
  mkIoctlSpmData SPM_DATA_VERSION 0 0 0 0 nameSize 0 0 0 0 0 permSize extPermSize nameSize (nameSize + permSize)
    (replicate (Z.to_nat (nameSize + permSize + extPermSize)) 0).

(** [name.bufSize] stays; the other two shrink to what was read. *)
Definition SpmCopyGetResult (entry : SpmData) (query : IoctlSpmData) : Z + SpmData :=
  if Z.of_nat (length (sd_name entry)) <? is_nameSize query then inl ERANGE_AND_RESET
  else if Z.of_nat (length (sd_perms entry)) <? is_permSize query then inl ERANGE_AND_RESET
  else if Z.of_nat (length (sd_extendPerms entry)) <? is_extendPermSize query then inl ERANGE_AND_RESET
  else
    inr (mkSpmData (is_uid query) (is_tokenid query) (is_tokenidAttr query) (is_index query) (is_apl query)
           (is_distributionType query) (is_idType query) (is_ownerid query)
           (slice (is_nameOffset query) (is_nameSize query) (is_content query) ++
            drop (Z.to_nat (is_nameSize query)) (sd_name entry))
           (slice (is_permsOffset query) (is_permSize query) (is_content query))
           (slice (is_extendPermsOffset query) (is_extendPermSize query) (is_content query))).

Definition SpmDataNew (permBufSize extendPermBufSize nameBufSize : Z) : SpmData :=
  mkSpmData 0 0 0 0 0 0 0 0 (replicate (Z.to_nat nameBufSize) 0) (replicate (Z.to_nat permBufSize) 0)
    (replicate (Z.to_nat extendPermBufSize) 0).

Section Setproc.
Context {K : Type} `{!TokenDevice K} `{!SpmDevice K}.

(** The error number and [batch->idxErr]. *)
Definition SpmSubmitBatch (cmd : SpmCmd) (entries : list SpmData) (k : K) : Z * Z * K :=
  match fill_batch entries with
  | inl ret => (ret, 0, k)
  | inr batch => spm_batch cmd k batch
  end.

(** The loop over the batches, from [submitted] on; [None]: the loop goes on. *)
Fixpoint SpmBatchEntries_loop (fuel : nat) (cmd : SpmCmd) (entries : list SpmData) (cnt submitted idxErr : Z) (k : K)
    : option (Z * Z * K) :=
  if negb (submitted <? cnt) then Some (0, idxErr, k)
  else
    match fuel with
    | O => None
    | S fuel =>
        let batchCnt := if SPM_DATA_BATCH_SIZE <? cnt - submitted then SPM_DATA_BATCH_SIZE else u8 (cnt - submitted) in
        let batch := take (Z.to_nat batchCnt) (drop (Z.to_nat submitted) entries) in
        let '(ret, idx, k) := SpmSubmitBatch cmd batch k in
        if negb (ret =? 0) then Some (ret, u8 (submitted + idx), k)
        else SpmBatchEntries_loop fuel cmd entries cnt (u8 (submitted + batchCnt)) idxErr k
    end.

Definition batch_fuel : nat := 256.

(** [idxErr] is left as it was unless a batch fails. *)
Definition SpmBatchEntries (cmd : SpmCmd) (entries : list SpmData) (cnt idxErr : Z) (k : K) : Z * Z * K :=
  if cnt =? 0 then (ACCESS_TOKEN_OK, idxErr, k)
  else if existsb (fun e => bool_decide (sd_name e = [])) (take (Z.to_nat cnt) entries) then (EINVAL, idxErr, k)
  else
    let '(ok, k) := dev_open k in
    if negb ok then (ACCESS_TOKEN_OPEN_ERROR, idxErr, k)
    else default (EINVAL, idxErr, k) (SpmBatchEntries_loop batch_fuel cmd entries cnt 0 idxErr k).

Definition SpmAddEntries : list SpmData -> Z -> Z -> K -> Z * Z * K := SpmBatchEntries ADD_SPM_ENTRIES.
Definition SpmSetEntries : list SpmData -> Z -> Z -> K -> Z * Z * K := SpmBatchEntries SET_SPM_ENTRIES.

Definition SpmGetEntry (tokenid : Z) (entry : SpmData) (k : K) : (Z + SpmData) * K :=
  if bool_decide (sd_name entry = []) || bool_decide (sd_perms entry = []) || bool_decide (sd_extendPerms entry = [])
  then (inl EINVAL, k)
  else
    let '(ok, k) := dev_open k in
    if negb ok then (inl ACCESS_TOKEN_OPEN_ERROR, k)
    else
      match spm_get k tokenid (SpmSetupGetQuery entry tokenid) with
      | (inl savedErrno, k) => (inl savedErrno, k)
      | (inr query, k) => (SpmCopyGetResult entry query, k)
      end.

Definition SpmRemoveEntry (tokenid : Z) (k : K) : Z * K :=
  let '(ok, k) := dev_open k in
  if negb ok then (ACCESS_TOKEN_OPEN_ERROR, k) else spm_remove k tokenid.

Definition SpmSetRefCnt (kind : RefKind) (id spawnid opt : Z) (k : K) : Z * K :=
  let '(ok, k) := dev_open k in
  if negb ok then (ACCESS_TOKEN_OPEN_ERROR, k) else spm_set_refcnt kind k (u8 opt) id spawnid.
Definition SpmIncUidRefCnt (uid spawnid : Z) : K -> Z * K := SpmSetRefCnt REF_UID uid spawnid SPM_REFCNT_OP_INC.
Definition SpmDecUidRefCnt (uid spawnid : Z) : K -> Z * K := SpmSetRefCnt REF_UID uid spawnid SPM_REFCNT_OP_DEC.
Definition SpmIncTokenidRefCnt (tokenid spawnid : Z) : K -> Z * K := SpmSetRefCnt REF_TOKENID tokenid spawnid SPM_REFCNT_OP_INC.
Definition SpmDecTokenidRefCnt (tokenid spawnid : Z) : K -> Z * K := SpmSetRefCnt REF_TOKENID tokenid spawnid SPM_REFCNT_OP_DEC.

(** The error, or the count. *)
Definition SpmGetRefCnt (kind : RefKind) (id : Z) (k : K) : (Z + Z) * K :=
  let '(ok, k) := dev_open k in
  if negb ok then (inl ACCESS_TOKEN_OPEN_ERROR, k) else spm_get_refcnt kind k id.
Definition SpmGetUidRefCnt : Z -> K -> (Z + Z) * K := SpmGetRefCnt REF_UID.
Definition SpmGetTokenidRefCnt : Z -> K -> (Z + Z) * K := SpmGetRefCnt REF_TOKENID.

Definition SpmClearSpawnidRefCnt (spawnid : Z) (k : K) : Z * K :=
  let '(ok, k) := dev_open k in
  if negb ok then (ACCESS_TOKEN_OPEN_ERROR, k) else spm_clear_spawnid k spawnid.

Definition SpmGetVersion (k : K) : (Z + Z) * K :=
  let '(ok, k) := dev_open k in
  if negb ok then (inl ACCESS_TOKEN_OPEN_ERROR, k) else spm_version k.

(** The loop of [SpmGetUidRefCntWithRetry]. *)
Fixpoint refcnt_retry (n : nat) (uid ret : Z) (k : K) : (Z + Z) * K :=
  match n with
  | O => (inl ret, k)
  | S n =>
      match SpmGetUidRefCnt uid k with
      | (inr refcnt, k) => (inr refcnt, k)
      | (inl ret, k) => refcnt_retry n uid ret k
      end
  end.

(** [isSupportSpm] is the result of the check, which is made once; here only ENOTSUP counts. *)
Definition C_IsKernelSupportSpm (checked : option bool) (k : K) : bool * option bool * K :=
  match checked with
  | Some isSupportSpm => (isSupportSpm, checked, k)
  | None =>
      let '(ret, k) := SpmGetVersion k in
      let isSupportSpm := match ret with inl e => negb (e =? ENOTSUP) | inr _ => true end in
      (isSupportSpm, Some isSupportSpm, k)
  end.
Definition SpmGetUidRefCntWithRetry (checked : option bool) (uid : Z) (k : K) : (Z + Z) * option bool * K :=
  let '(isSupportSpm, checked, k) := C_IsKernelSupportSpm checked k in
  if negb isSupportSpm then (inr 0, checked, k)
  else let '(r, k) := refcnt_retry SPM_GET_UID_REFCNT_MAX_RETRY uid 0 k in (r, checked, k).

End Setproc.

(** [TransferSpmExternPerms]: the loop over the records from [offset] on; the code and the value
    of each record, at most [capacity] of them. *)
Fixpoint TransferSpmExternPerms_loop (fuel : nat) (buf : list Z) (capacity offset outputSize : Z) (acc : list (Z * list Z))
    : option (Z * list (Z * list Z)) :=
  let bufSize := Z.of_nat (length buf) in
  if negb (offset <=? bufSize - 8) then
    Some (if negb (offset =? bufSize) then ACCESS_TOKEN_PARAM_INVALID else ACCESS_TOKEN_OK, acc)
  else
    match fuel with
    | O => None
    | S fuel =>
        let code := bytes_u32 (slice offset 4 buf) in
        let valueSize := bytes_u32 (slice (offset + 4) 4 buf) in
        let offset := offset + 8 in
        if bufSize - offset <? valueSize then Some (ACCESS_TOKEN_PARAM_INVALID, acc)
        else
          let acc := if outputSize <? capacity then acc ++ [(code, slice offset valueSize buf)] else acc in
          if capacity <? outputSize + 1 then Some (ERANGE, acc)
          else TransferSpmExternPerms_loop fuel buf capacity (offset + valueSize) (outputSize + 1) acc
    end.
Definition TransferSpmExternPerms (buf : list Z) (capacity : Z) : Z * list (Z * list Z) :=
  if capacity =? 0 then (ACCESS_TOKEN_PARAM_INVALID, [])
  else if bool_decide (buf = []) then (ACCESS_TOKEN_OK, [])
  else if Z.of_nat (length buf) <=? 8 then (ACCESS_TOKEN_PARAM_INVALID, [])
  else default (ACCESS_TOKEN_PARAM_INVALID, []) (TransferSpmExternPerms_loop (length buf) buf capacity 0 0 []).

(** ** spm_data_kernel_common.cpp. *)
Definition MAX_PERMISSION_BITMAP_WORDS : Z := 64.
Definition DEFAULT_EXTENDED_PERMS : Z := 4096.
Definition SPM_NAME_BUF_SIZE : Z := 256.

Definition BuildPermissionBitmap (permBriefDataList : list BriefPermData) (needGrant : bool) : list Z :=
  fold_left (fun bitmap permData =>
    if needGrant && negb (bpd_status permData =? PERMISSION_GRANTED) then bitmap
    else
      let idx := bpd_permCode permData / UINT32_T_BITS in
      let bitIdx := bpd_permCode permData mod UINT32_T_BITS in
      if Z.of_nat (length bitmap) <=? idx then bitmap
      else alter (fun w => w .| u32 (1 .<< bitIdx)) (Z.to_nat idx) bitmap)
    permBriefDataList (replicate (Z.to_nat MAX_PERMISSION_BITMAP_WORDS) 0).

Record BundleNoCachedInfo := mkBundleNoCachedInfo {
  bni_apl : Z;
  bni_distributionType : Z;
  bni_idType : Z;
  bni_ownerid : Z;
}.

Section Build.
Context {PT : PermTable}.

(** One record of the buffer: the code, the size with the final zero, the value, the zero. *)
Definition extended_record (opCode : Z) (value : string) : list Z :=
  u32_bytes opCode ++ u32_bytes (Z.of_nat (String.length value) + 1) ++ string_bytes value ++ [0].

Definition BuildExtendedPermissionBuffer (extendedPermList : list PermissionWithValue) : list Z :=
  concat (map (fun extendedPerm =>
    match TransferPermissionToOpcode (pwv_permissionName extendedPerm) with
    | None => []
    | Some opCode => extended_record opCode (pwv_value extendedPerm)
    end) extendedPermList).

(** The loop over the records; a value without its final zero is cut there all the same. *)
Fixpoint ParseExtendedPermissionBuffer_loop (fuel : nat) (buf : list Z) (offset : Z) (permList : list PermissionWithValue)
    : option (Z * list PermissionWithValue) :=
  let bufSize := Z.of_nat (length buf) in
  if negb (offset <=? bufSize - 4 - 4) then Some (RET_SUCCESS, permList)
  else
    match fuel with
    | O => None
    | S fuel =>
        let permCode := bytes_u32 (slice offset 4 buf) in
        let offset := offset + 4 in
        let valueSize := bytes_u32 (slice offset 4 buf) in
        let offset := offset + 4 in
        if (valueSize =? 0) || (bufSize <? valueSize) || (bufSize - valueSize <? offset)
        then Some (ERR_PARAM_INVALID, permList)
        else
          let perm := mkPermissionWithValue (TransferOpcodeToPermission permCode)
                        (bytes_string (slice offset (valueSize - 1) buf)) in
          ParseExtendedPermissionBuffer_loop fuel buf (offset + valueSize) (permList ++ [perm])
    end.
Definition ParseExtendedPermissionBuffer (buf : list Z) (permList : list PermissionWithValue)
    : Z * list PermissionWithValue :=
  if bool_decide (buf = []) then (RET_SUCCESS, permList)
  else if Z.of_nat (length buf) <? 4 + 4 then (ERR_PARAM_INVALID, [])
  else default (ERR_PARAM_INVALID, []) (ParseExtendedPermissionBuffer_loop (length buf) buf 0 []).

Definition BuildSpmData (hapInfo : HapTokenInfo) (noCachedInfo : BundleNoCachedInfo) (permBriefDataList : list BriefPermData)
    (extendPermList : list PermissionWithValue) : Z + SpmData :=
  let permsBitmap := BuildPermissionBitmap permBriefDataList false in
  let extendPermsBuffer := BuildExtendedPermissionBuffer extendPermList in
  if DEFAULT_EXTENDED_PERMS <? Z.of_nat (length extendPermsBuffer) then inl ERR_OVERSIZE
  else
    inr (mkSpmData (u32 (hti_uid hapInfo)) (hti_tokenID hapInfo) (u32 (hti_tokenAttr hapInfo)) (u32 (hti_instIndex hapInfo))
           (u16 (bni_apl noCachedInfo)) (u16 (bni_distributionType noCachedInfo)) (bni_idType noCachedInfo)
           (bni_ownerid noCachedInfo)
           (string_bytes (hti_bundleName hapInfo) ++ [0]) (concat (map u32_bytes permsBitmap)) extendPermsBuffer).

End Build.

Section Common.
Context {K : Type} `{!TokenDevice K} `{!SpmDevice K}.

(** The code, [idxErr] and the device.  [SpmAddEntries] is tried again from the entry that failed. *)
Definition AddSpmEntriesToKernel (entries : list SpmData) (k : K) : Z * Z * K :=
  let '(ret, idxErr, k) := SpmAddEntries entries (u8 (Z.of_nat (length entries))) 0 k in
  if ret =? RET_SUCCESS then (RET_SUCCESS, idxErr, k)
  else if ret =? ENOTSUP then (ERR_IOCTL_UNSUPPORT, idxErr, k)
  else if ret =? EEXIST then (ERR_DATA_CONFLICT_WITH_KERNEL, idxErr, k)
  else
    let failedIdx := idxErr in
    if Z.of_nat (length entries) <=? failedIdx then (ERR_KERNEL_COMMON_FAILED, idxErr, k)
    else
      let '(ret, idxErr, k) := SpmAddEntries (drop (Z.to_nat failedIdx) entries)
                                 (u8 (Z.of_nat (length entries) - failedIdx)) idxErr k in
      if ret =? RET_SUCCESS then (RET_SUCCESS, idxErr, k)
      else (ERR_KERNEL_COMMON_FAILED, u8 (failedIdx + idxErr), k).

Definition SetSpmEntriesToKernel (entries : list SpmData) (k : K) : Z * Z * K :=
  let '(ret, idxErr, k) := SpmSetEntries entries (u8 (Z.of_nat (length entries))) 0 k in
  if ret =? RET_SUCCESS then (RET_SUCCESS, idxErr, k)
  else if ret =? ENOTSUP then (ERR_IOCTL_UNSUPPORT, idxErr, k)
  else if ret =? EEXIST then (ERR_DATA_CONFLICT_WITH_KERNEL, idxErr, k)
  else
    let failedIdx := idxErr in
    if Z.of_nat (length entries) <=? failedIdx then (ERR_KERNEL_COMMON_FAILED, idxErr, k)
    else
      let '(ret, idxErr, k) := SpmSetEntries (drop (Z.to_nat failedIdx) entries)
                                 (u8 (Z.of_nat (length entries) - failedIdx)) idxErr k in
      if ret =? RET_SUCCESS then (RET_SUCCESS, idxErr, k)
      else (ERR_KERNEL_COMMON_FAILED, u8 (failedIdx + idxErr), k).

Definition LoadSpmDataFromKernel (tokenId : Z) (k : K) : (Z + SpmData) * K :=
  let spmData := SpmDataNew (MAX_PERMISSION_BITMAP_WORDS * 4) DEFAULT_EXTENDED_PERMS SPM_NAME_BUF_SIZE in
  match SpmGetEntry tokenId spmData k with
  | (inr spmData, k) => (inr spmData, k)
  | (inl ret, k) =>
      if ret =? ENOTSUP then (inl ERR_IOCTL_UNSUPPORT, k)
      else if ret =? ENODATA then (inl ERR_NO_DATA_FROM_KERNEL, k)
      else (inl ERR_KERNEL_COMMON_FAILED, k)
  end.

Definition removal_done (ret : Z) : bool := (ret =? RET_SUCCESS) || (ret =? ENOTSUP) || (ret =? ENODATA).
Definition RemoveSpmEntryFromKernel (tokenId : Z) (k : K) : Z * K :=
  let '(ret, k) := SpmRemoveEntry tokenId k in
  if removal_done ret then (RET_SUCCESS, k)
  else
    let '(ret, k) := SpmRemoveEntry tokenId k in
    if removal_done ret then (RET_SUCCESS, k) else (ERR_KERNEL_COMMON_FAILED, k).

(** ** permission_kernel_utils.cpp: what it adds for SPM. *)

(** [checked] is [isSupportSpm] once [hasChecked]; a transient failure is not kept. *)
Definition IsKernelSupportSpm (checked : option bool) (k : K) : bool * option bool * K :=
  match checked with
  | Some isSupportSpm => (isSupportSpm, checked, k)
  | None =>
      let '(r, k) := SpmGetVersion k in
      let ret := match r with inl e => e | inr _ => RET_SUCCESS end in
      let isSupported := ret =? RET_SUCCESS in
      if negb (ret =? RET_SUCCESS) && negb (ret =? ENOTSUP) then (isSupported, checked, k)
      else (isSupported, Some isSupported, k)
  end.

Definition GetBundleInfoFromKernel {PT : PermTable} {BC : BuildConfig} (tokenId : Z) (permList : list PermissionWithValue) (k : K)
    : (Z + Z * BundleNoCachedInfo * list PermissionWithValue) * K :=
  if SPM_DATA_ENABLE then
    match LoadSpmDataFromKernel tokenId k with
    | (inl ret, k) => (inl ret, k)
    | (inr spmData, k) =>
        let '(ret, permList) := ParseExtendedPermissionBuffer (sd_extendPerms spmData) permList in
        (inr (ret, mkBundleNoCachedInfo (sd_apl spmData) (sd_distributionType spmData) (sd_idType spmData) (sd_ownerid spmData),
              permList), k)
    end
  else (inl ERR_IOCTL_UNSUPPORT, k).

Definition Utils_RemoveSpmEntryFromKernel {BC : BuildConfig} (tokenId : Z) (k : K) : Z * K :=
  if SPM_DATA_ENABLE then RemoveSpmEntryFromKernel tokenId k else (ERR_IOCTL_UNSUPPORT, k).

End Common.
