(* ===== verification/SpmTheory.v ===== *)
(** * What the requests on SPM entries do

    The documented behaviour of the device, as laws over the table of entries it keeps, and what
    follows for the batches, retries and reads of spm_setproc.c and spm_data_kernel_common.cpp. *)

From stdpp Require Import base gmap list strings.
From S2P Require Import Prelude AccessTokenTypes PermissionMap PermissionDataBrief Kernel HapTokenInfo Spm.
#[local] Open Scope list_scope.
#[local] Open Scope Z_scope.
#[local] Open Scope cxx_scope.

(** The entry a request or an answer carries. *)
Definition decode_entry (q : IoctlSpmData) : SpmData :=
  mkSpmData (is_uid q) (is_tokenid q) (is_tokenidAttr q) (is_index q) (is_apl q) (is_distributionType q) (is_idType q)
    (is_ownerid q) (slice (is_nameOffset q) (is_nameSize q) (is_content q))
    (slice (is_permsOffset q) (is_permSize q) (is_content q))
    (slice (is_extendPermsOffset q) (is_extendPermSize q) (is_content q)).

Definition with_uid (uid : Z) (d : SpmData) : SpmData :=
  mkSpmData uid (sd_tokenid d) (sd_tokenidAttr d) (sd_index d) (sd_apl d) (sd_distributionType d) (sd_idType d)
    (sd_ownerid d) (sd_name d) (sd_perms d) (sd_extendPerms d).

(** Adding an entry, and setting one: the uid of a known entry stays. *)
Definition write_entry (cmd : SpmCmd) (m : gmap Z SpmData) (d : SpmData) : gmap Z SpmData :=
  match cmd, m !! sd_tokenid d with
  | SET_SPM_ENTRIES, Some o => <[sd_tokenid d := with_uid (sd_uid o) d]> m
  | _, _ => <[sd_tokenid d := d]> m
  end.

Fixpoint new_entries (l : list SpmData) (m : gmap Z SpmData) : Prop :=
  match l with
  | [] => True
  | d :: l => m !! sd_tokenid d = None /\ new_entries l (write_entry ADD_SPM_ENTRIES m d)
  end.

(** The entries of [l] were written one after the other; those added were not there. *)
Definition written (cmd : SpmCmd) (l : list SpmData) (m m' : gmap Z SpmData) : Prop :=
  m' = fold_left (write_entry cmd) l m /\ (cmd = ADD_SPM_ENTRIES -> new_entries l m).

Definition done_count {A} (e idx : Z) (l : list A) : nat := if e =? 0 then length l else Z.to_nat idx.

(** The requests: a batch is written up to the entry that fails, whose index is reported; an entry
    that is already there is reported as [EEXIST]; only a device without SPM answers [ENOTSUP];
    SPM entries and permission bits do not touch each other. *)
Class SpmLaws (K : Type) `{!TokenDevice K} `{!TokenDeviceLaws K} `{!SpmDevice K} := {
  spm_entries : K -> gmap Z SpmData;
  spm_supported : K -> bool;
  spm_key k t d : spm_entries k !! t = Some d -> sd_tokenid d = t;
  spm_batch_law cmd k l e idx k' : spm_batch cmd k l = (e, idx, k') ->
    dev_granted k' = dev_granted k /\ spm_supported k' = spm_supported k /\
    (e <> 0 -> 0 <= idx < Z.of_nat (length l)) /\
    written cmd (take (done_count e idx l) (map decode_entry l)) (spm_entries k) (spm_entries k') /\
    (e = EEXIST -> exists q, l !! Z.to_nat idx = Some q /\ is_Some (spm_entries k' !! is_tokenid q));
  spm_get_law k t cap r k' : spm_get k t cap = (r, k') ->
    dev_granted k' = dev_granted k /\ spm_supported k' = spm_supported k /\ spm_entries k' = spm_entries k /\
    (r = inl ENODATA -> spm_entries k !! t = None) /\
    (forall q, r = inr q -> spm_entries k !! t = Some (decode_entry q) /\
       0 <= is_nameSize q /\ 0 <= is_permSize q /\ 0 <= is_extendPermSize q /\
       length (sd_name (decode_entry q)) = Z.to_nat (is_nameSize q));
  spm_remove_law k t e k' : spm_remove k t = (e, k') ->
    dev_granted k' = dev_granted k /\ spm_supported k' = spm_supported k /\
    spm_entries k' = (if e =? 0 then delete t (spm_entries k) else spm_entries k) /\
    (e = ENODATA -> spm_entries k !! t = None) /\ (e = ENOTSUP -> spm_supported k = false);
  spm_version_law k r k' : spm_version k = (r, k') ->
    dev_granted k' = dev_granted k /\ spm_supported k' = spm_supported k /\ spm_entries k' = spm_entries k /\
    (forall v, r = inr v -> spm_supported k = true) /\ (forall e, r = inl e -> e <> 0);
  spm_open_law k ok k' : dev_open k = (ok, k') -> spm_entries k' = spm_entries k /\ spm_supported k' = spm_supported k;
  spm_add_bits_law k t perms e k' : dev_add k t perms = (e, k') ->
    spm_entries k' = spm_entries k /\ spm_supported k' = spm_supported k;
  spm_remove_bits_law k t e k' : dev_remove k t = (e, k') ->
    spm_entries k' = spm_entries k /\ spm_supported k' = spm_supported k;
}.

(** Opening the device node may fail, but one that could be opened for a batch can be opened again
    when the batch has failed. *)
Class DeviceReopens (K : Type) `{!TokenDevice K} `{!SpmDevice K} := {
  openable : K -> Prop;
  openable_opens k : openable k -> (dev_open k).1 = true;
  opened_openable k k' : dev_open k = (true, k') -> openable k';
  batch_openable cmd k l e idx k' : spm_batch cmd k l = (e, idx, k') -> openable k -> openable k';
}.

(** ** Writing entries. *)
Lemma new_entries_app l1 : forall l2 m,
  new_entries (l1 ++ l2) m <-> new_entries l1 m /\ new_entries l2 (fold_left (write_entry ADD_SPM_ENTRIES) l1 m).
Proof. induction l1 as [|d l1 IH]; intros l2 m; cbn [new_entries app fold_left]; [tauto|]. rewrite IH. tauto. Qed.

Lemma written_nil cmd m : written cmd [] m m.
Proof. by split. Qed.

Lemma written_app cmd l1 l2 m m1 m2 : written cmd l1 m m1 -> written cmd l2 m1 m2 -> written cmd (l1 ++ l2) m m2.
Proof.
  intros [E1 N1] [E2 N2]. split; [by rewrite fold_left_app, <- E1|]. intros E. apply new_entries_app. rewrite <- E, <- E1. auto.
Qed.

Lemma decode_constructed d : decode_entry (ConstructStaticKernelData d (sd_name d ++ sd_perms d ++ sd_extendPerms d)) = d.
Proof.
  destruct d as [u t a i ap dt idt ow nm ps ex]. unfold decode_entry, ConstructStaticKernelData, slice. cbn.
  rewrite <- Nat2Z.inj_add, !Nat2Z.id. f_equal.
  - change (Z.to_nat 0) with 0%nat. by rewrite drop_0, take_app_length.
  - rewrite drop_app_length, take_app_length. done.
  - rewrite <- drop_drop, !drop_app_length. by apply take_ge.
Qed.

Lemma encode_decode d q : SpmDataToKernel d = inr q -> decode_entry q = d.
Proof. unfold SpmDataToKernel. do 2 (split_if; [done|]). intros [= <-]. apply decode_constructed. Qed.

Lemma fill_decode l : forall batch, fill_batch l = inr batch -> map decode_entry batch = l.
Proof.
  induction l as [|d l IH]; cbn; intros batch; [by intros [= <-]|].
  destruct (SpmDataToKernel d) as [e|q] eqn:Eq; [done|]. destruct (fill_batch l) as [e|b] eqn:Eb; [done|]. intros [= <-].
  cbn. by rewrite (encode_decode _ _ Eq), (IH b).
Qed.

Section Batches.
Context {K : Type} `{!TokenDevice K} `{!TokenDeviceLaws K} `{!SpmDevice K} `{!SpmLaws K} `{!DeviceReopens K}.

(** Permission bits and support are as they were. *)
Definition same_bits (k k' : K) : Prop := dev_granted k' = dev_granted k /\ spm_supported k' = spm_supported k.

Lemma same_bits_trans k1 k2 k3 : same_bits k1 k2 -> same_bits k2 k3 -> same_bits k1 k3.
Proof. unfold same_bits. intros [-> ->] [-> ->]. done. Qed.

(** The entries of [l] before [idx] were written (all of them when the code is 0), and the code
    [conflict] means that the entry at [idx] is already there. *)
Record batch_done (conflict : Z) (cmd : SpmCmd) (l : list SpmData) (k : K) (e idx : Z) (k' : K) : Prop := {
  bd_bits : same_bits k k';
  bd_idx : e <> 0 -> 0 <= idx < Z.of_nat (length l);
  bd_written : written cmd (take (done_count e idx l) l) (spm_entries k) (spm_entries k');
  bd_conflict : e <> 0 -> e = conflict -> exists d, l !! Z.to_nat idx = Some d /\ is_Some (spm_entries k' !! sd_tokenid d);
}.

Lemma open_step k ok k' : dev_open k = (ok, k') -> same_bits k k' /\ spm_entries k' = spm_entries k.
Proof. intros E. destruct (spm_open_law _ _ _ E) as [E1 E2]. unfold same_bits. by rewrite (dev_open_law _ _ _ E), E2. Qed.

Lemma submit_done cmd l k e idx k' : l <> [] -> SpmSubmitBatch cmd l k = (e, idx, k') -> batch_done EEXIST cmd l k e idx k'.
Proof.
  intros Hne. unfold SpmSubmitBatch. destruct (fill_batch l) as [ret|batch] eqn:F.
  - intros [= <- <- <-]. assert (ret = ERANGE \/ ret = EINVAL) as Hr.
    { clear Hne. revert F. induction l as [|d l IH]; cbn; [done|]. destruct (SpmDataToKernel d) as [r|q] eqn:Ed.
      - intros [= <-]. revert Ed. unfold SpmDataToKernel. split_if; [intros [= <-]; by left|]. split_if; [intros [= <-]; by right|done].
      - destruct (fill_batch l); [|done]. intros [= ->]. auto. }
    assert (done_count ret 0 l = 0%nat) as Ed by (destruct Hr as [-> | ->]; done).
    split; [done|destruct l; [done|cbn; lia]|rewrite Ed; apply written_nil|intros _; by destruct Hr as [-> | ->]].
  - pose proof (fill_decode l batch F) as El. intros B. apply spm_batch_law in B as (B1 & B2 & B3 & B4 & B5).
    assert (length batch = length l) as Hlen by (by rewrite <- El, length_map).
    assert (done_count e idx batch = done_count e idx l) as Hc by (unfold done_count; by rewrite Hlen).
    rewrite El, Hc in B4. split; [done|by rewrite <- Hlen|done|].
    intros _ Ee. destruct (B5 Ee) as (q & Hq & Hs). exists (decode_entry q). rewrite <- El. split; [by apply list_lookup_fmap_Some; eauto|done].
Qed.

(** What was written before the last attempt. *)
Lemma done_after conflict cmd l1 l2 k k1 e idx k' : same_bits k k1 -> written cmd l1 (spm_entries k) (spm_entries k1) ->
  batch_done conflict cmd l2 k1 e idx k' -> batch_done conflict cmd (l1 ++ l2) k e (Z.of_nat (length l1) + idx) k'.
Proof.
  intros Hb Hw [B1 B2 B3 B4]. split.
  - by eapply same_bits_trans.
  - intros He. rewrite length_app. specialize (B2 He). lia.
  - assert (take (done_count e (Z.of_nat (length l1) + idx) (l1 ++ l2)) (l1 ++ l2) = l1 ++ take (done_count e idx l2) l2) as ->.
    { unfold done_count. destruct (Z.eqb_spec e 0) as [He|He].
      - by rewrite !take_ge.
      - specialize (B2 He). rewrite Z2Nat.inj_add, Nat2Z.id by lia. by rewrite take_app_add. }
    by eapply written_app.
  - intros E0 He. destruct (B4 E0 He) as (d & Hd & Hs). exists d. split; [|done]. specialize (B2 E0).
    rewrite lookup_app_r by lia. rewrite <- Hd. f_equal. lia.
Qed.

(** The loop over the batches of fifty. *)
Lemma batches_done cmd l : Z.of_nat (length l) <= 255 -> forall fuel sub idx0 k e idx k', 0 <= sub <= Z.of_nat (length l) ->
  SpmBatchEntries_loop fuel cmd l (Z.of_nat (length l)) sub idx0 k = Some (e, idx, k') ->
  let rest := drop (Z.to_nat sub) l in
  exists i, (e <> 0 -> idx = sub + i) /\ (e = 0 -> idx = idx0) /\ batch_done EEXIST cmd rest k e i k'.
Proof.
  intros Hl. induction fuel as [|fuel IH]; intros sub idx0 k e idx k' Hs; cbn [SpmBatchEntries_loop].
  all: destruct (Z.ltb_spec sub (Z.of_nat (length l))) as [Hlt|Hge]; cbn [negb].
  all: try (intros [= <- <- <-]; exists 0; rewrite drop_ge by lia; split_and!; [done|done|]; split; [done|done|apply written_nil|done]).
  { done. }
  set (n := if SPM_DATA_BATCH_SIZE <? _ then _ else _).
  assert (0 < n <= 50 /\ sub + n <= Z.of_nat (length l)) as [Hn Hsn].
  { subst n. unfold SPM_DATA_BATCH_SIZE. destruct (Z.ltb_spec 50 (Z.of_nat (length l) - sub)); [lia|].
    unfold u8. rewrite Z.mod_small by lia. lia. }
  set (rest := drop (Z.to_nat sub) l). set (batch := take (Z.to_nat n) rest).
  assert (length batch = Z.to_nat n) as Hb by (subst batch rest; rewrite length_take, length_drop; lia).
  destruct (SpmSubmitBatch cmd batch k) as [[e1 i1] k1] eqn:Sb. apply submit_done in Sb; [|intros E; rewrite E in Hb; cbn in Hb; lia].
  assert (rest = batch ++ drop (Z.to_nat n) rest) as Er by (symmetry; apply take_drop).
  destruct (Z.eqb_spec e1 0) as [->|He]; cbn [negb].
  - unfold u8. rewrite Z.mod_small by lia. intros L. apply IH in L as (i & Hi1 & Hi2 & Hd); [|lia].
    exists (n + i). split_and!; [intros He; rewrite (Hi1 He); lia|done|]. rewrite Er.
    replace (drop (Z.to_nat n) rest) with (drop (Z.to_nat (sub + n)) l) by (subst rest; rewrite drop_drop; f_equal; lia).
    replace n with (Z.of_nat (length batch)) by lia. destruct Sb as [S1 S2 S3 S4]. unfold done_count in S3. cbn in S3. rewrite take_ge in S3 by lia.
    replace (sub + Z.of_nat (length batch)) with (sub + n) by lia. by eapply done_after.
  - intros [= <- <- <-]. pose proof (bd_idx _ _ _ _ _ _ _ Sb He) as Hi. exists i1. split_and!; [|done|].
    + intros _. unfold u8. by rewrite Z.mod_small by lia.
    + destruct Sb as [S1 S2 S3 S4]. rewrite Er. split; [done|intros _; rewrite length_app; lia| |].
      * unfold done_count in *. destruct (Z.eqb_spec e1 0); [done|]. by rewrite take_app_le by lia.
      * intros Hc Hc'. destruct (S4 Hc Hc') as (d & Hd & Hs'). exists d. split; [|done]. rewrite lookup_app_l by lia. done.
Qed.

(** Every round submits at least one entry. *)
Lemma batches_end cmd l cnt : 0 <= cnt <= 255 -> forall fuel sub idx0 k, 0 <= sub <= cnt -> cnt - sub <= Z.of_nat fuel ->
  is_Some (SpmBatchEntries_loop fuel cmd l cnt sub idx0 k).
Proof.
  intros Hc. induction fuel as [|fuel IH]; intros sub idx0 k Hs Hf; cbn [SpmBatchEntries_loop].
  all: destruct (Z.ltb_spec sub cnt) as [Hlt|Hge]; cbn [negb]; [|by eexists].
  { lia. }
  set (n := if SPM_DATA_BATCH_SIZE <? _ then _ else _).
  assert (0 < n <= 50 /\ sub + n <= cnt) as [Hn Hsn].
  { subst n. unfold SPM_DATA_BATCH_SIZE. destruct (Z.ltb_spec 50 (cnt - sub)); [lia|]. unfold u8. rewrite Z.mod_small by lia. lia. }
  destruct (SpmSubmitBatch _ _ _) as [[e1 i1] k1]. destruct (negb (e1 =? 0)); [by eexists|].
  apply IH; unfold u8; rewrite Z.mod_small by lia; lia.
Qed.

Lemma batches_openable cmd l cnt fuel : forall sub idx0 (k : K) r, openable k ->
  SpmBatchEntries_loop fuel cmd l cnt sub idx0 k = Some r -> openable r.2.
Proof.
  induction fuel as [|fuel IH]; intros sub idx0 k r Ho; cbn [SpmBatchEntries_loop]; (split_if; [by intros [= <-]|]); [done|].
  cbv zeta. destruct (SpmSubmitBatch _ _ _) as [[e1 i1] k1] eqn:Sb.
  assert (openable k1) as Ho1.
  { unfold SpmSubmitBatch in Sb. destruct (fill_batch _) as [ret|batch]; [by injection Sb as _ _ <-|]. by eapply batch_openable. }
  split_if; [by intros [= <-]|]. by apply IH.
Qed.

(** Entries that can be sent: at most 255, each with a name. *)
Definition sendable (l : list SpmData) : Prop := Z.of_nat (length l) <= 255 /\ Forall (fun d => sd_name d <> []) l.

Lemma sendable_drop n l : sendable l -> sendable (drop n l).
Proof. intros [H1 H2]. split; [rewrite length_drop; lia|by apply Forall_drop]. Qed.

(** Either the device is opened and the batches are made, or it cannot be opened, which leaves
    the index as it was. *)
Lemma BatchEntries_done cmd l idx0 k e idx k' : sendable l ->
  SpmBatchEntries cmd l (u8 (Z.of_nat (length l))) idx0 k = (e, idx, k') ->
  (batch_done EEXIST cmd l k e idx k' /\ (e = 0 -> idx = idx0) /\ (e <> 0 -> openable k')) \/
  (~ openable k /\ l <> [] /\ e = ACCESS_TOKEN_OPEN_ERROR /\ idx = idx0 /\ same_bits k k' /\ spm_entries k' = spm_entries k).
Proof.
  intros [Hl Hn]. unfold SpmBatchEntries, u8. rewrite Z.mod_small by lia. destruct (Z.eqb_spec (Z.of_nat (length l)) 0) as [E0|E0].
  { intros [= <- <- <-]. left. split_and!; [|done|done]. destruct l; [|cbn in E0; lia]. split; [done|done|apply written_nil|done]. }
  destruct (existsb _ _) eqn:Ex.
  { exfalso. apply existsb_exists in Ex as (d & Hd%list_elem_of_In & Hb%bool_decide_eq_true). rewrite take_ge in Hd by lia.
    rewrite Forall_forall in Hn. by apply (Hn d). }
  destruct (dev_open k) as [ok k1] eqn:Eo. destruct (open_step _ _ _ Eo) as [Hb He]. destruct ok; cbn [negb].
  2: { intros [= <- <- <-]. right. split_and!; try done; [|by intros ->]. intros Ho%openable_opens. by rewrite Eo in Ho. }
  destruct (batches_end cmd l (Z.of_nat (length l))) with (fuel := batch_fuel) (sub := 0) (idx0 := idx0) (k := k1) as [[[e1 i1] k2] L];
    [lia|lia|unfold batch_fuel; lia|]. rewrite L. cbn [default]. intros [= <- <- <-]. left.
  pose proof (batches_openable _ _ _ _ _ _ _ _ (opened_openable _ _ Eo) L) as Ho.
  apply batches_done in L as (i & Hi1 & Hi2 & Hd); [|done|lia]. change (Z.to_nat 0) with 0%nat in Hd. rewrite drop_0 in Hd.
  setoid_rewrite Z.add_0_l in Hi1. split_and!; [|done|done]. destruct Hd as [D1 D2 D3 D4]. rewrite He in D3. split; [by eapply same_bits_trans|..].
  - intros Hne. rewrite (Hi1 Hne). apply D2. done.
  - unfold done_count in *. destruct (Z.eqb_spec e1 0); [done|]. by rewrite (Hi1 n).
  - intros Hne. rewrite (Hi1 Hne). auto.
Qed.

(** From the index 0, or when the device can be opened, the index is the right one. *)
Lemma BatchEntries_from cmd l idx0 k e idx k' : sendable l -> idx0 = 0 \/ openable k ->
  SpmBatchEntries cmd l (u8 (Z.of_nat (length l))) idx0 k = (e, idx, k') ->
  batch_done EEXIST cmd l k e idx k' /\ (e <> 0 -> openable k' \/ idx = 0).
Proof.
  intros Hl Hi [(B & _ & Ho)|(Hno & Hne & -> & -> & Hb & He)]%BatchEntries_done; [by auto|..|done]. destruct Hi as [->|]; [|done].
  split; [|by right]. split; [done| |rewrite He; apply written_nil|done]. destruct l; [done|cbn; lia].
Qed.

(** The retry both requests make. *)
Definition entries_to_kernel (cmd : SpmCmd) (entries : list SpmData) (k : K) : Z * Z * K :=
  let '(ret, idxErr, k) := SpmBatchEntries cmd entries (u8 (Z.of_nat (length entries))) 0 k in
  if ret =? RET_SUCCESS then (RET_SUCCESS, idxErr, k)
  else if ret =? ENOTSUP then (ERR_IOCTL_UNSUPPORT, idxErr, k)
  else if ret =? EEXIST then (ERR_DATA_CONFLICT_WITH_KERNEL, idxErr, k)
  else
    let failedIdx := idxErr in
    if Z.of_nat (length entries) <=? failedIdx then (ERR_KERNEL_COMMON_FAILED, idxErr, k)
    else
      let '(ret, idxErr, k) := SpmBatchEntries cmd (drop (Z.to_nat failedIdx) entries)
                                 (u8 (Z.of_nat (length entries) - failedIdx)) idxErr k in
      if ret =? RET_SUCCESS then (RET_SUCCESS, idxErr, k)
      else (ERR_KERNEL_COMMON_FAILED, u8 (failedIdx + idxErr), k).

(** Another code for the same outcome. *)
Lemma recode conflict conflict' cmd l k e e' idx k' : batch_done conflict cmd l k e idx k' -> e <> 0 -> e' <> 0 ->
  (e' = conflict' -> e = conflict) -> batch_done conflict' cmd l k e' idx k'.
Proof.
  intros [B1 B2 B3 B4] He He' Hc. split; [done|auto| |auto].
  unfold done_count in *. destruct (Z.eqb_spec e 0), (Z.eqb_spec e' 0); done.
Qed.

Lemma to_kernel_done cmd l k e idx k' : sendable l -> entries_to_kernel cmd l k = (e, idx, k') ->
  batch_done ERR_DATA_CONFLICT_WITH_KERNEL cmd l k e idx k'.
Proof.
  intros Hl. unfold entries_to_kernel. destruct (SpmBatchEntries _ _ _ _ _) as [[e1 i1] k1] eqn:B.
  apply BatchEntries_from in B as [B Ho]; [|done|by left]. destruct (Z.eqb_spec e1 RET_SUCCESS) as [E1|E1].
  { intros [= <- <- <-]. unfold RET_SUCCESS in *. subst e1. by destruct B. }
  destruct (Z.eqb_spec e1 ENOTSUP) as [->|E2]; [intros [= <- <- <-]; by eapply recode|].
  destruct (Z.eqb_spec e1 EEXIST) as [->|E3]; [intros [= <- <- <-]; by eapply recode|].
  pose proof (bd_idx _ _ _ _ _ _ _ B E1) as Hi. destruct (Z.leb_spec (Z.of_nat (length l)) i1); [lia|]. cbv zeta.
  set (rest := drop (Z.to_nat i1) l). assert (Z.of_nat (length l) - i1 = Z.of_nat (length rest)) as Hr by (subst rest; rewrite length_drop; lia).
  rewrite Hr. destruct (SpmBatchEntries cmd rest _ i1 k1) as [[e2 i2] k2] eqn:B2.
  apply BatchEntries_from in B2 as [B2 _]; [|by apply sendable_drop|by destruct (Ho E1); auto].
  assert (batch_done EEXIST cmd l k e2 (i1 + i2) k2) as D.
  { destruct B as [S1 S2 S3 S4]. unfold done_count in S3. destruct (Z.eqb_spec e1 0); [done|].
    replace l with (take (Z.to_nat i1) l ++ rest) by apply take_drop.
    replace i1 with (Z.of_nat (length (take (Z.to_nat i1) l))) at 2 by (rewrite length_take; lia). by eapply done_after. }
  destruct (Z.eqb_spec e2 RET_SUCCESS) as [->|E4]; intros [= <- <- <-].
  - destruct D as [D1 D2 D3 D4]. by split.
  - pose proof (bd_idx _ _ _ _ _ _ _ D E4). unfold u8. destruct Hl as [Hl _]. rewrite Z.mod_small by lia. by eapply recode.
Qed.

Lemma AddEntries_done l k e idx k' : sendable l -> AddSpmEntriesToKernel l k = (e, idx, k') ->
  batch_done ERR_DATA_CONFLICT_WITH_KERNEL ADD_SPM_ENTRIES l k e idx k'.
Proof. apply to_kernel_done. Qed.
Lemma SetEntries_done l k e idx k' : sendable l -> SetSpmEntriesToKernel l k = (e, idx, k') ->
  batch_done ERR_DATA_CONFLICT_WITH_KERNEL SET_SPM_ENTRIES l k e idx k'.
Proof. apply to_kernel_done. Qed.

(** ** Reading and removing. *)
Lemma RemoveEntry_done t k e k' : RemoveSpmEntryFromKernel t k = (e, k') -> spm_supported k = true ->
  same_bits k k' /\ spm_entries k' = if e =? RET_SUCCESS then delete t (spm_entries k) else spm_entries k.
Proof.
  assert (forall k e k', SpmRemoveEntry t k = (e, k') -> spm_supported k = true -> same_bits k k' /\
    (if removal_done e then spm_entries k' = delete t (spm_entries k) else spm_entries k' = spm_entries k)) as Hone.
  { clear k e k'. intros k e k'. unfold SpmRemoveEntry. destruct (dev_open k) as [ok k1] eqn:Eo. destruct (open_step _ _ _ Eo) as [[Hb Hs] He].
    destruct ok; cbn [negb]; [|by intros [= <- <-]]. intros R Hsup. apply spm_remove_law in R as (R1 & R2 & R3 & R4 & R5). split; [by unfold same_bits; rewrite R1, R2|].
    unfold removal_done, RET_SUCCESS. rewrite R3, He. destruct (Z.eqb_spec e 0) as [->|E0]; [done|]. cbn [orb].
    destruct (Z.eqb_spec e ENOTSUP) as [E1|_]; [rewrite (R5 E1) in Hs; congruence|]. cbn [orb].
    destruct (Z.eqb_spec e ENODATA) as [E1|_]; [|done]. rewrite He in R4. symmetry. by apply delete_id, R4. }
  intros R Hsup. unfold RemoveSpmEntryFromKernel in R. destruct (SpmRemoveEntry t k) as [e1 k1] eqn:R1. apply Hone in R1 as [B1 E1]; [|done].
  destruct (removal_done e1); [injection R as <- <-; done|].
  destruct (SpmRemoveEntry t k1) as [e2 k2] eqn:R2. apply Hone in R2 as [B2 E2]; [|by destruct B1 as [_ ->]].
  rewrite E1 in E2. destruct (removal_done e2); injection R as <- <-; (split; [by eapply same_bits_trans|done]).
Qed.

(** The entry that is read back: its name fills the buffer of 256 bytes. *)
Definition padded (d : SpmData) : SpmData :=
  mkSpmData (sd_uid d) (sd_tokenid d) (sd_tokenidAttr d) (sd_index d) (sd_apl d) (sd_distributionType d) (sd_idType d)
    (sd_ownerid d) (sd_name d ++ replicate (256 - length (sd_name d)) 0) (sd_perms d) (sd_extendPerms d).

Lemma Load_done t k r k' : LoadSpmDataFromKernel t k = (r, k') ->
  same_bits k k' /\ spm_entries k' = spm_entries k /\
  (forall d, r = inr d -> exists d0, spm_entries k !! t = Some d0 /\ d = padded d0 /\ (length (sd_name d) = 256)%nat) /\
  (r = inl ERR_NO_DATA_FROM_KERNEL -> spm_entries k !! t = None).
Proof.
  unfold LoadSpmDataFromKernel, SpmGetEntry. set (buf := SpmDataNew _ _ _).
  assert (bool_decide (sd_name buf = []) || bool_decide (sd_perms buf = []) || bool_decide (sd_extendPerms buf = []) = false) as ->.
  { vm_compute. reflexivity. }
  destruct (dev_open k) as [ok k1] eqn:Eo. destruct (open_step _ _ _ Eo) as [[Hb Hs] He].
  destruct ok; cbn [negb]; [|intros [= <- <-]; by split_and!].
  destruct (spm_get k1 t _) as [r1 k2] eqn:G. apply spm_get_law in G as (G1 & G2 & G3 & G4 & G5).
  assert (same_bits k k2 /\ spm_entries k2 = spm_entries k) as [Hsb Hse] by (unfold same_bits; by rewrite G1, G2, G3).
  assert (forall e, (if e =? ENOTSUP then (inl ERR_IOCTL_UNSUPPORT, k2) else if e =? ENODATA then (inl ERR_NO_DATA_FROM_KERNEL, k2)
    else (inl ERR_KERNEL_COMMON_FAILED, k2)) = (r, k') -> (e = ENODATA -> spm_entries k !! t = None) ->
    same_bits k k' /\ spm_entries k' = spm_entries k /\ (forall d, r = inr d -> exists d0, spm_entries k !! t = Some d0 /\ d = padded d0 /\ (length (sd_name d) = 256)%nat) /\
    (r = inl ERR_NO_DATA_FROM_KERNEL -> spm_entries k !! t = None)) as Herr.
  { intros e0 E0 Hnd. destruct (Z.eqb_spec e0 ENOTSUP) as [E1|_]; [injection E0 as <- <-; done|].
    destruct (Z.eqb_spec e0 ENODATA) as [E1|_]; injection E0 as <- <-; split_and!; auto; done. }
  destruct r1 as [e1|q]; [intros E; apply (Herr e1 E); intros ->; rewrite <- He; auto|].
  destruct (G5 q eq_refl) as (Q1 & Qn & Qp & Qe & Ql). unfold SpmCopyGetResult.
  assert (sd_name buf = replicate 256 0) as Hnb by reflexivity. clearbody buf.
  assert (length (sd_name buf) = 256%nat) as Hlb by (rewrite Hnb; apply length_replicate). rewrite Hlb.
  destruct (Z.ltb_spec (Z.of_nat 256) (is_nameSize q)) as [|Hname]; [intros E; by apply (Herr ERANGE_AND_RESET E)|].
  split_if; [intros E'; by apply (Herr ERANGE_AND_RESET E')|]. split_if; [intros E'; by apply (Herr ERANGE_AND_RESET E')|]. intros [= <- <-]. split_and!; [done..| |done].
  intros d [= <-]. exists (decode_entry q). rewrite <- He. split_and!; [done| |].
  - unfold padded. cbn [sd_uid sd_tokenid sd_tokenidAttr sd_index sd_apl sd_distributionType sd_idType sd_ownerid sd_name sd_perms sd_extendPerms decode_entry] in *.
    rewrite Ql. f_equal. f_equal. rewrite Hnb. apply drop_replicate.
  - cbn [sd_name]. cbn [sd_name decode_entry] in Ql. rewrite length_app, Ql, length_drop, Hlb. lia.
Qed.
End Batches.
