(* ===== verification/SpmTasks.v ===== *)
(** * Tasks on the kernel's data, and the transaction of kernel and database

    A task (add_spm_data_task.cpp, update_spm_data_task.cpp, remove_spm_data_task.cpp) changes the
    SPM entries and the permission bits of several tokens and can take its changes back.  A
    transaction (kernel_and_db_transaction.cpp) stages at most one task of each kind, commits to
    the database, and takes the kernel back unless it is committed.  What the service reports
    about failures is kept in [kn_reports]. *)

From stdpp Require Import base gmap list strings.
From S2P Require Import Prelude AccessTokenTypes Database PermissionMap PermissionDataBrief Kernel HapTokenInfo Spm.
#[local] Open Scope list_scope.
#[local] Open Scope Z_scope.
#[local] Open Scope cxx_scope.

Definition MAX_ENTRY_NUM : Z := 255.
Definition KERNEL_PERM_DATA_DELETE : Z := 10001.
Definition KERNEL_PERM_DATA_ROLLBACK : Z := 10002.
Definition KERNEL_SPM_DATA_LOAD : Z := 10005.
Definition KERNEL_SPM_DATA_ROLLBACK : Z := 10006.
Definition KERNEL_SPM_DATA_DELETE : Z := 10008.

(** The device, the cached check of [IsKernelSupportSpm], and the error events. *)
Record Kern (K : Type) := mkKern { kn_dev : K; kn_support : option bool; kn_reports : list (Z * Z) }.
#[global] Arguments mkKern {K}.
#[global] Arguments kn_dev {K}.
#[global] Arguments kn_support {K}.
#[global] Arguments kn_reports {K}.

(** [hapInfo], [noCachedInfo] and the lists are those the references of the parameter point to. *)
Record SpmDataParam := mkSpmDataParam {
  sp_hapInfo : HapTokenInfo;
  sp_noCachedInfo : BundleNoCachedInfo;
  sp_permBriefDataList : list BriefPermData;
  sp_extendPermList : list PermissionWithValue;
  sp_oldPermBriefDataList : option (list BriefPermData);
  sp_updateWithPerm : bool;
}.

Record SpmDataTaskItem := mkSpmDataTaskItem {
  ti_tokenId : Z;
  ti_permBriefDataList : list BriefPermData;
  ti_oldPermBriefDataList : option (list BriefPermData);
  ti_newSpmData : SpmData;
  ti_oldSpmData : option SpmData;
}.

(** [AddSpmDataTask] and [UpdateSpmDataTask] have the same members. *)
Record SpmDataTask := mkSpmDataTask {
  items_ : list SpmDataTaskItem;
  isBuildSuccess_ : bool;
  updateWithPerm_ : bool;
  spmDataSuccessCount_ : nat;
  permDataSuccessCount_ : nat;
}.

Definition set_counts (spm perm : nat) (t : SpmDataTask) : SpmDataTask :=
  mkSpmDataTask (items_ t) (isBuildSuccess_ t) (updateWithPerm_ t) spm perm.
Definition set_task_items (items : list SpmDataTaskItem) (t : SpmDataTask) : SpmDataTask :=
  mkSpmDataTask items (isBuildSuccess_ t) (updateWithPerm_ t) (spmDataSuccessCount_ t) (permDataSuccessCount_ t).
Definition set_oldSpmData (old : option SpmData) (i : SpmDataTaskItem) : SpmDataTaskItem :=
  mkSpmDataTaskItem (ti_tokenId i) (ti_permBriefDataList i) (ti_oldPermBriefDataList i) (ti_newSpmData i) old.

(** ** Construction.  [None]: [isBuildSuccess_] becomes false and the items are cleared. *)
Section Construction.
Context {PT : PermTable}.

Fixpoint build_items (keepOld updateWithPerm : bool) (params : list SpmDataParam) : option (list SpmDataTaskItem) :=
  match params with
  | [] => Some []
  | param :: rest =>
      if negb (Bool.eqb (sp_updateWithPerm param) updateWithPerm) then None
      else
        match BuildSpmData (sp_hapInfo param) (sp_noCachedInfo param) (sp_permBriefDataList param) (sp_extendPermList param) with
        | inl _ => None
        | inr newSpmData =>
            match build_items keepOld updateWithPerm rest with
            | None => None
            | Some items =>
                Some (mkSpmDataTaskItem (hti_tokenID (sp_hapInfo param)) (sp_permBriefDataList param)
                        (if keepOld then sp_oldPermBriefDataList param else None) newSpmData None :: items)
            end
        end
  end.

Definition new_task (keepOld : bool) (params : list SpmDataParam) : SpmDataTask :=
  match params with
  | [] => mkSpmDataTask [] false false 0 0
  | front :: _ =>
      if MAX_ENTRY_NUM <? Z.of_nat (length params) then mkSpmDataTask [] false false 0 0
      else
        match build_items keepOld (sp_updateWithPerm front) params with
        | None => mkSpmDataTask [] false (sp_updateWithPerm front) 0 0
        | Some items => mkSpmDataTask items true (sp_updateWithPerm front) 0 0
        end
  end.
Definition new_AddSpmDataTask : list SpmDataParam -> SpmDataTask := new_task false.
Definition new_UpdateSpmDataTask : list SpmDataParam -> SpmDataTask := new_task true.

End Construction.

Record RemoveSpmDataParam := mkRemoveSpmDataParam { rp_tokenId : Z; rp_oldPermBriefDataList : option (list BriefPermData) }.
Record RemoveItem := mkRemoveItem {
  ri_tokenId : Z;
  ri_oldSpmData : option SpmData;
  ri_oldPermBriefDataList : option (list BriefPermData);
  ri_permRemoved : bool;
  ri_spmEntryRemoved : bool;
}.
Record RemoveSpmDataTask := mkRemoveSpmDataTask { r_items_ : list RemoveItem; r_isBuildSuccess_ : bool; r_isSpmSupport_ : bool }.

Section Tasks.
Context {K : Type} `{!TokenDevice K} `{!SpmDevice K}.
Implicit Types (s : Kern K).

Definition set_dev (k : K) s : Kern K := mkKern k (kn_support s) (kn_reports s).
Definition ReportSysCommonEventError (code ret : Z) s : Kern K := mkKern (kn_dev s) (kn_support s) (kn_reports s ++ [(code, ret)]).
(** A call on the device. *)
Definition on_dev {A} (f : K -> A * K) s : A * Kern K := let '(a, k) := f (kn_dev s) in (a, set_dev k s).

Definition CheckSpmSupport s : bool * Kern K :=
  let '(b, checked, k) := IsKernelSupportSpm (kn_support s) (kn_dev s) in (b, mkKern k checked (kn_reports s)).

(** ** add_spm_data_task.cpp. *)

(** The loop: the code, the number of tokens written, and [errIndex]. *)
Fixpoint AddPermDataToKernel_loop (items : list SpmDataTaskItem) (i : nat) (errIndex : Z) s : Z * nat * Z * Kern K :=
  match items with
  | [] => (RET_SUCCESS, i, errIndex, s)
  | item :: rest =>
      let '(permRet, s) := on_dev (fun k => AddHapPermToKernel_brief k (ti_tokenId item) (ti_permBriefDataList item)) s in
      if negb (permRet =? RET_SUCCESS) then (permRet, i, Z.of_nat i, s)
      else AddPermDataToKernel_loop rest (S i) errIndex s
  end.
Definition AddPermDataToKernel (items : list SpmDataTaskItem) (errIndex : Z) s : Z * nat * Z * Kern K :=
  AddPermDataToKernel_loop items 0 errIndex s.

(** The loops of the rollbacks: each item in turn; a failure is reported and becomes the result. *)
Fixpoint each_item {A} (call : A -> K -> Z * K) (code : Z) (items : list A) (result : Z) s : Z * Kern K :=
  match items with
  | [] => (result, s)
  | item :: rest =>
      let '(ret, s) := on_dev (call item) s in
      if negb (ret =? RET_SUCCESS)
      then each_item call code rest ret (ReportSysCommonEventError code ret s)
      else each_item call code rest result s
  end.
Definition rollback_bits : list SpmDataTaskItem -> Z -> Kern K -> Z * Kern K :=
  each_item (fun item k => RemovePermFromKernel k (ti_tokenId item)) KERNEL_PERM_DATA_ROLLBACK.
Definition rollback_entries : list SpmDataTaskItem -> Z -> Kern K -> Z * Kern K :=
  each_item (fun item => RemoveSpmEntryFromKernel (ti_tokenId item)) KERNEL_SPM_DATA_ROLLBACK.

Definition Add_Rollback (t : SpmDataTask) s : Z * SpmDataTask * Kern K :=
  let spmCount := Nat.min (spmDataSuccessCount_ t) (length (items_ t)) in
  let permCount := Nat.min (permDataSuccessCount_ t) (length (items_ t)) in
  let '(result, s) := if updateWithPerm_ t then rollback_bits (rev (take permCount (items_ t))) RET_SUCCESS s else (RET_SUCCESS, s) in
  let '(result, s) := rollback_entries (rev (take spmCount (items_ t))) result s in
  (result, set_counts 0 0 t, s).

(** The code, [errIndex], the task and the kernel. *)
Definition Add (t : SpmDataTask) s : Z * Z * SpmDataTask * Kern K :=
  if negb (isBuildSuccess_ t) then (ERR_PARAM_INVALID, 0, t, s)
  else
    let t := set_counts 0 0 t in
    let '(support, s) := CheckSpmSupport s in
    let '(ret, errIndex, t, s) :=
      if support : bool then
        let '(ret, idxErr, k) := AddSpmEntriesToKernel (map ti_newSpmData (items_ t)) (kn_dev s) in
        let s := set_dev k s in
        if negb (ret =? RET_SUCCESS) then
          let t := set_counts (Nat.min (Z.to_nat idxErr) (length (items_ t))) (permDataSuccessCount_ t) t in
          let '(_, t, s) := Add_Rollback t s in (ret, idxErr, t, s)
        else (RET_SUCCESS, 0, set_counts (length (items_ t)) (permDataSuccessCount_ t) t, s)
      else (RET_SUCCESS, 0, t, s) in
    if negb (ret =? RET_SUCCESS) then (ret, errIndex, t, s)
    else if negb (updateWithPerm_ t) then (RET_SUCCESS, errIndex, t, s)
    else
      let '(ret, count, errIndex, s) := AddPermDataToKernel (items_ t) errIndex s in
      let t := set_counts (spmDataSuccessCount_ t) count t in
      if negb (ret =? RET_SUCCESS) then let '(_, t, s) := Add_Rollback t s in (ret, errIndex, t, s)
      else (RET_SUCCESS, errIndex, t, s).

(** ** update_spm_data_task.cpp. *)

(** The loop that loads the old entries. *)
Fixpoint load_old (items : list SpmDataTaskItem) s : Z * list SpmDataTaskItem * Kern K :=
  match items with
  | [] => (RET_SUCCESS, [], s)
  | item :: rest =>
      let '(r, s) := on_dev (LoadSpmDataFromKernel (ti_tokenId item)) s in
      let next item s := let '(ret, rest, s) := load_old rest s in (ret, item :: rest, s) in
      match r with
      | inr old => next (set_oldSpmData (Some old) item) s
      | inl ret => if ret =? ERR_NO_DATA_FROM_KERNEL then next (set_oldSpmData None item) s else (ret, item :: rest, s)
      end
  end.
Definition LoadOldSpmDataForItems (items : list SpmDataTaskItem) s : Z * bool * list SpmDataTaskItem * Kern K :=
  let '(isSpmSupport, s) := CheckSpmSupport s in
  if negb isSpmSupport then (RET_SUCCESS, isSpmSupport, items, s)
  else let '(ret, items, s) := load_old items s in (ret, isSpmSupport, items, s).

Definition SetNewSpmDataToKernel (items : list SpmDataTaskItem) (errIndex : Z) s : Z * nat * Z * Kern K :=
  let entries := map ti_newSpmData items in
  let '(ret, idxErr, k) := SetSpmEntriesToKernel entries (kn_dev s) in
  let s := set_dev k s in
  if negb (ret =? RET_SUCCESS) then (ret, Nat.min (Z.to_nat idxErr) (length entries), idxErr, s)
  else (RET_SUCCESS, length items, errIndex, s).

(** [UpdatePermData] is the loop of [AddPermDataToKernel]. *)
Definition UpdatePermData (items : list SpmDataTaskItem) (errIndex : Z) s : Z * nat * Z * Kern K :=
  AddPermDataToKernel_loop items 0 errIndex s.

Definition RollbackSpmEntries (entries : list SpmData) s : Z * Kern K :=
  let '(ret, idxErr, k) := SetSpmEntriesToKernel entries (kn_dev s) in
  let s := set_dev k s in
  if ret =? RET_SUCCESS then (RET_SUCCESS, s)
  else if idxErr <? Z.of_nat (length entries) then (ret, ReportSysCommonEventError KERNEL_SPM_DATA_ROLLBACK ret s)
  else (ret, s).

(** Restoring the bits of a token, or removing them when the old ones are not known. *)
Definition restore_item (item : SpmDataTaskItem) (k : K) : Z * K :=
  match ti_oldPermBriefDataList item with
  | None => RemovePermFromKernel k (ti_tokenId item)
  | Some old => AddHapPermToKernel_brief k (ti_tokenId item) old
  end.
Definition RollbackPermData (items : list SpmDataTaskItem) (permDataSuccessCount : nat) s : Z * Kern K :=
  each_item restore_item KERNEL_PERM_DATA_ROLLBACK (take permDataSuccessCount items) RET_SUCCESS s.

(** The loop over the entries: those that were not there are removed, the others collected. *)
Definition collect_old (items : list SpmDataTaskItem) (result : Z) s : list SpmData * Z * Kern K :=
  let '(result, s) := rollback_entries (filter (fun item => ti_oldSpmData item = None) items) result s in
  (omap ti_oldSpmData items, result, s).
Definition Update_Rollback (t : SpmDataTask) s : Z * SpmDataTask * Kern K :=
  let spmCount := Nat.min (spmDataSuccessCount_ t) (length (items_ t)) in
  let permCount := Nat.min (permDataSuccessCount_ t) (length (items_ t)) in
  let '(entries, result, s) := collect_old (take spmCount (items_ t)) RET_SUCCESS s in
  let '(result, s) :=
    if bool_decide (entries = []) then (result, s)
    else let '(ret, s) := RollbackSpmEntries entries s in (if negb (ret =? RET_SUCCESS) then ret else result, s) in
  let '(permResult, s) := RollbackPermData (items_ t) permCount s in
  (if negb (result =? RET_SUCCESS) then result else permResult, set_counts 0 0 t, s).

Definition Update (t : SpmDataTask) s : Z * Z * SpmDataTask * Kern K :=
  if negb (isBuildSuccess_ t) then (ERR_PARAM_INVALID, 0, t, s)
  else
    let '(ret, isSpmSupport, items, s) := LoadOldSpmDataForItems (items_ t) s in
    let t := set_task_items items t in
    if negb (ret =? RET_SUCCESS) then (ret, 0, t, s)
    else
      let '(ret, errIndex, t, s) :=
        if isSpmSupport : bool then
          let '(ret, count, errIndex, s) := SetNewSpmDataToKernel (items_ t) 0 s in
          let t := set_counts count (permDataSuccessCount_ t) t in
          if negb (ret =? RET_SUCCESS) then let '(_, t, s) := Update_Rollback t s in (ret, errIndex, t, s)
          else (RET_SUCCESS, errIndex, t, s)
        else (RET_SUCCESS, 0, t, s) in
      if negb (ret =? RET_SUCCESS) then (ret, errIndex, t, s)
      else if negb (updateWithPerm_ t) then (RET_SUCCESS, errIndex, t, s)
      else
        let '(ret, count, errIndex, s) := UpdatePermData (items_ t) errIndex s in
        let t := set_counts (spmDataSuccessCount_ t) count t in
        if negb (ret =? RET_SUCCESS) then let '(_, t, s) := Update_Rollback t s in (ret, errIndex, t, s)
        else (RET_SUCCESS, errIndex, t, s).

(** ** remove_spm_data_task.cpp. *)
Definition new_RemoveSpmDataTask (params : list RemoveSpmDataParam) s : RemoveSpmDataTask * Kern K :=
  if bool_decide (params = []) || (MAX_ENTRY_NUM <? Z.of_nat (length params)) then (mkRemoveSpmDataTask [] false false, s)
  else
    let '(isSpmSupport, s) := CheckSpmSupport s in
    (mkRemoveSpmDataTask (map (fun param => mkRemoveItem (rp_tokenId param) None (rp_oldPermBriefDataList param) false false) params)
       true isSpmSupport, s).

Fixpoint LoadOldSpmEntries_loop (items : list RemoveItem) s : list RemoveItem * Kern K :=
  match items with
  | [] => ([], s)
  | item :: rest =>
      let '(r, s) := on_dev (LoadSpmDataFromKernel (ri_tokenId item)) s in
      let '(old, s) :=
        match r with
        | inr old => (Some old, s)
        | inl ret => (None, if ret =? ERR_NO_DATA_FROM_KERNEL then s else ReportSysCommonEventError KERNEL_SPM_DATA_LOAD ret s)
        end in
      let '(rest, s) := LoadOldSpmEntries_loop rest s in
      (mkRemoveItem (ri_tokenId item) old (ri_oldPermBriefDataList item) (ri_permRemoved item) (ri_spmEntryRemoved item) :: rest, s)
  end.
Definition LoadOldSpmEntries (t : RemoveSpmDataTask) s : RemoveSpmDataTask * Kern K :=
  if negb (r_isSpmSupport_ t) then (t, s)
  else
    let '(items, s) := LoadOldSpmEntries_loop (r_items_ t) s in
    (mkRemoveSpmDataTask items (r_isBuildSuccess_ t) (r_isSpmSupport_ t), s).

(** The loop over the tokens: the items, [errIndex] and the kernel. *)
Fixpoint Remove_loop (support : bool) (items : list RemoveItem) (i errIndex : Z) s : list RemoveItem * Z * Kern K :=
  match items with
  | [] => ([], errIndex, s)
  | item :: rest =>
      let '(permRet, s) := on_dev (fun k => RemovePermFromKernel k (ri_tokenId item)) s in
      let '(spmRet, s) := if support then on_dev (RemoveSpmEntryFromKernel (ri_tokenId item)) s else (RET_SUCCESS, s) in
      let item := mkRemoveItem (ri_tokenId item) (ri_oldSpmData item) (ri_oldPermBriefDataList item)
                    (if permRet =? RET_SUCCESS then true else ri_permRemoved item)
                    (if support && (spmRet =? RET_SUCCESS) then true else ri_spmEntryRemoved item) in
      let failed ret code es := if negb (ret =? RET_SUCCESS)
        then (if i <? es.1 then i else es.1, ReportSysCommonEventError code ret es.2) else es in
      let '(errIndex, s) := failed spmRet KERNEL_SPM_DATA_DELETE (failed permRet KERNEL_PERM_DATA_DELETE (errIndex, s)) in
      let '(rest, errIndex, s) := Remove_loop support rest (i + 1) errIndex s in
      (item :: rest, errIndex, s)
  end.
Definition Remove (t : RemoveSpmDataTask) s : Z * Z * RemoveSpmDataTask * Kern K :=
  if negb (r_isBuildSuccess_ t) then (ERR_PARAM_INVALID, 0, t, s)
  else
    let '(t, s) := LoadOldSpmEntries t s in
    let '(items, errIndex, s) := Remove_loop (r_isSpmSupport_ t) (r_items_ t) 0 (Z.of_nat (length (r_items_ t))) s in
    (RET_SUCCESS, errIndex, mkRemoveSpmDataTask items (r_isBuildSuccess_ t) (r_isSpmSupport_ t), s).

(** The entries from [offset] on; [None]: the loop goes on. *)
Fixpoint RestoreSpmEntries_loop (fuel : nat) (remaining : list SpmData) s : option (Z * Kern K) :=
  match remaining, fuel with
  | [], _ => Some (RET_SUCCESS, s)
  | _, O => None
  | _, S fuel =>
      let '(ret, idxErr, k) := AddSpmEntriesToKernel remaining (kn_dev s) in
      let s := set_dev k s in
      if ret =? RET_SUCCESS then Some (RET_SUCCESS, s)
      else if (ret =? ERR_DATA_CONFLICT_WITH_KERNEL) && (idxErr <? Z.of_nat (length remaining))
      then RestoreSpmEntries_loop fuel (drop (Z.to_nat (idxErr + 1)) remaining) s
      else Some (ret, ReportSysCommonEventError KERNEL_SPM_DATA_ROLLBACK ret s)
  end.
Definition RestoreSpmEntries (entries : list SpmData) s : Z * Kern K :=
  default (RET_FAILED, s) (RestoreSpmEntries_loop (length entries) entries s).

Definition RestorePermCodes (tokenId : Z) (oldPermBriefDataList : option (list BriefPermData)) s : Z * Kern K :=
  match oldPermBriefDataList with
  | None | Some [] => (RET_SUCCESS, s)
  | Some old =>
      let '(ret, s) := on_dev (fun k => AddHapPermToKernel_brief k tokenId old) s in
      if negb (ret =? RET_SUCCESS) then (ret, ReportSysCommonEventError KERNEL_PERM_DATA_ROLLBACK ret s) else (RET_SUCCESS, s)
  end.

(** The second phase, over the items in its order. *)
Fixpoint restore_bits (items : list RemoveItem) (result : Z) s : Z * Kern K :=
  match items with
  | [] => (result, s)
  | item :: rest =>
      if negb (ri_permRemoved item) then restore_bits rest result s
      else
        let '(ret, s) := RestorePermCodes (ri_tokenId item) (ri_oldPermBriefDataList item) s in
        restore_bits rest (if negb (ret =? RET_SUCCESS) && (result =? RET_SUCCESS) then ret else result) s
  end.
Definition Remove_Rollback (t : RemoveSpmDataTask) s : Z * Kern K :=
  let entries := omap (fun item => if ri_spmEntryRemoved item then ri_oldSpmData item else None) (rev (r_items_ t)) in
  let '(result, s) := if bool_decide (entries = []) then (RET_SUCCESS, s) else RestoreSpmEntries entries s in
  restore_bits (rev (r_items_ t)) result s.

End Tasks.

(** ** kernel_and_db_transaction.cpp and kernel_and_db_lock.cpp. *)
Record KernelAndDBWriteTransaction := mkTransaction {
  addTask_ : option SpmDataTask;
  updateTask_ : option SpmDataTask;
  removeTask_ : option RemoveSpmDataTask;
  tx_owns_lock : bool;
  addSucceeded_ : bool;
  updateSucceeded_ : bool;
  removeSucceeded_ : bool;
  dbFailed_ : bool;
  committed_ : bool;
  rolledBack_ : bool;
}.

(** The kernel, the database, [g_kernelAndDbDepth] of the thread, and the reported violations. *)
Record TxState (S K : Type) := mkTxState { tx_kern : Kern K; tx_db : S; tx_depth : Z; tx_violations : list string }.
#[global] Arguments mkTxState {S K}.
#[global] Arguments tx_kern {S K}.
#[global] Arguments tx_db {S K}.
#[global] Arguments tx_depth {S K}.
#[global] Arguments tx_violations {S K}.

Section Transaction.
Context {PT : PermTable} {S K : Type} `{!AtmDb S} `{!TokenDevice K} `{!SpmDevice K}.
Implicit Types (x : KernelAndDBWriteTransaction) (s : TxState S K).

Definition set_kern (k : Kern K) s : TxState S K := mkTxState k (tx_db s) (tx_depth s) (tx_violations s).
Definition set_tx_db (db : S) s : TxState S K := mkTxState (tx_kern s) db (tx_depth s) (tx_violations s).
Definition set_depth (d : Z) s : TxState S K := mkTxState (tx_kern s) (tx_db s) d (tx_violations s).
Definition ReportKernelAndDBGuardViolation (apiName : string) s : TxState S K :=
  mkTxState (tx_kern s) (tx_db s) (tx_depth s) (tx_violations s ++ [apiName]).

Definition IsKernelAndDBWriteHeldByCurrentThread s : bool := 0 <? tx_depth s.
Definition EnterWrite s : TxState S K := set_depth (tx_depth s + 1) s.
Definition ExitWrite s : TxState S K := if 0 <? tx_depth s then set_depth (tx_depth s - 1) s else s.

Definition new_KernelAndDBWriteTransaction s : KernelAndDBWriteTransaction * TxState S K :=
  let x lock := mkTransaction None None None lock false false false false false false in
  if IsKernelAndDBWriteHeldByCurrentThread s
  then (x false, ReportKernelAndDBGuardViolation "nested KernelAndDBWriteTransaction" s)
  else (x true, EnterWrite s).

Definition StageKernelAdd (params : list SpmDataParam) x s : Z * KernelAndDBWriteTransaction * TxState S K :=
  if committed_ x || rolledBack_ x || bool_decide (is_Some (addTask_ x)) then (ERR_PARAM_INVALID, x, s)
  else
    let '(ret, _, t, k) := Add (new_AddSpmDataTask params) (tx_kern s) in
    let s := set_kern k s in
    let x' task ok := mkTransaction task (updateTask_ x) (removeTask_ x) (tx_owns_lock x) ok (updateSucceeded_ x)
                        (removeSucceeded_ x) (dbFailed_ x) (committed_ x) (rolledBack_ x) in
    if negb (ret =? RET_SUCCESS) then (ret, x' None (addSucceeded_ x), s) else (RET_SUCCESS, x' (Some t) true, s).

Definition StageKernelUpdate (params : list SpmDataParam) x s : Z * KernelAndDBWriteTransaction * TxState S K :=
  if committed_ x || rolledBack_ x || bool_decide (is_Some (updateTask_ x)) then (ERR_PARAM_INVALID, x, s)
  else
    let '(ret, _, t, k) := Update (new_UpdateSpmDataTask params) (tx_kern s) in
    let s := set_kern k s in
    let x' task ok := mkTransaction (addTask_ x) task (removeTask_ x) (tx_owns_lock x) (addSucceeded_ x) ok
                        (removeSucceeded_ x) (dbFailed_ x) (committed_ x) (rolledBack_ x) in
    if negb (ret =? RET_SUCCESS) then (ret, x' None (updateSucceeded_ x), s) else (RET_SUCCESS, x' (Some t) true, s).

Definition StageKernelRemove (params : list RemoveSpmDataParam) x s : Z * KernelAndDBWriteTransaction * TxState S K :=
  if committed_ x || rolledBack_ x || bool_decide (is_Some (removeTask_ x)) then (ERR_PARAM_INVALID, x, s)
  else if bool_decide (params = []) then (RET_SUCCESS, x, s)
  else
    let '(t, k) := new_RemoveSpmDataTask params (tx_kern s) in
    let '(ret, _, t, k) := Remove t k in
    let s := set_kern k s in
    let x' task ok := mkTransaction (addTask_ x) (updateTask_ x) task (tx_owns_lock x) (addSucceeded_ x) (updateSucceeded_ x)
                        ok (dbFailed_ x) (committed_ x) (rolledBack_ x) in
    if negb (ret =? RET_SUCCESS) then (ret, x' None (removeSucceeded_ x), s) else (RET_SUCCESS, x' (Some t) true, s).

Definition CommitDb (delInfoVec : list DelInfo) (addInfoVec : list AddInfo) x s : Z * KernelAndDBWriteTransaction * TxState S K :=
  if committed_ x || rolledBack_ x then (ERR_PARAM_INVALID, x, s)
  else
    let '(ret, db) := db_DeleteAndInsertValues (tx_db s) delInfoVec addInfoVec in
    let s := set_tx_db db s in
    if negb (ret =? RET_SUCCESS) then
      (ERR_DATABASE_OPERATE_FAILED,
       mkTransaction (addTask_ x) (updateTask_ x) (removeTask_ x) (tx_owns_lock x) (addSucceeded_ x) (updateSucceeded_ x)
         (removeSucceeded_ x) true (committed_ x) (rolledBack_ x), s)
    else (RET_SUCCESS, x, s).

Definition Commit x s : KernelAndDBWriteTransaction * TxState S K :=
  if dbFailed_ x then (x, ReportKernelAndDBGuardViolation "Commit after unchecked CommitDb failure" s)
  else (mkTransaction (addTask_ x) (updateTask_ x) (removeTask_ x) (tx_owns_lock x) (addSucceeded_ x) (updateSucceeded_ x)
          (removeSucceeded_ x) (dbFailed_ x) true (rolledBack_ x), s).

(** Only the kernel is taken back; the tasks keep that they have been. *)
Definition RollbackInternal x s : KernelAndDBWriteTransaction * TxState S K :=
  let '(addTask, k) :=
    match addTask_ x with
    | Some t => if addSucceeded_ x then let '(_, t, k) := Add_Rollback t (tx_kern s) in (Some t, k) else (Some t, tx_kern s)
    | None => (None, tx_kern s)
    end in
  let '(updateTask, k) :=
    match updateTask_ x with
    | Some t => if updateSucceeded_ x then let '(_, t, k) := Update_Rollback t k in (Some t, k) else (Some t, k)
    | None => (None, k)
    end in
  let k :=
    match removeTask_ x with
    | Some t => if removeSucceeded_ x then (Remove_Rollback t k).2 else k
    | None => k
    end in
  (mkTransaction addTask updateTask (removeTask_ x) (tx_owns_lock x) (addSucceeded_ x) (updateSucceeded_ x)
     (removeSucceeded_ x) (dbFailed_ x) (committed_ x) (rolledBack_ x), set_kern k s).

Definition Abort x s : Z * KernelAndDBWriteTransaction * TxState S K :=
  if committed_ x || rolledBack_ x then (ERR_PARAM_INVALID, x, s)
  else
    let '(x, s) := RollbackInternal x s in
    (RET_SUCCESS,
     mkTransaction (addTask_ x) (updateTask_ x) (removeTask_ x) (tx_owns_lock x) (addSucceeded_ x) (updateSucceeded_ x)
       (removeSucceeded_ x) (dbFailed_ x) (committed_ x) true, s).

Definition delete_KernelAndDBWriteTransaction x s : TxState S K :=
  let s := if negb (committed_ x) && negb (rolledBack_ x) then (RollbackInternal x s).2 else s in
  if tx_owns_lock x then ExitWrite s else s.

End Transaction.
