(* ===== verification/SpmTaskTheory.v ===== *)
(** * What the tasks do, and how they are undone

    The kernel is seen token by token: the SPM entry of a token and its permission bits.  A task
    changes only its tokens, and what it changes its rollback puts back, up to the padding of a
    name, unless it reports that it could not. *)

From stdpp Require Import base gmap list strings.
From S2P Require Import Prelude AccessTokenTypes PermissionMap PermissionDataBrief Kernel HapTokenInfo Spm SpmTheory SpmTasks.
#[local] Open Scope list_scope.
#[local] Open Scope Z_scope.
#[local] Open Scope cxx_scope.

(** ** Entries that differ in the padding of the name. *)
Fixpoint c_name (l : list Z) : list Z := match l with [] => [] | b :: l => if b =? 0 then [] else b :: c_name l end.

Definition without_name (d : SpmData) : SpmData :=
  mkSpmData (sd_uid d) (sd_tokenid d) (sd_tokenidAttr d) (sd_index d) (sd_apl d) (sd_distributionType d) (sd_idType d)
    (sd_ownerid d) [] (sd_perms d) (sd_extendPerms d).

Definition spm_eqv (d d' : SpmData) : Prop := without_name d = without_name d' /\ c_name (sd_name d) = c_name (sd_name d').

#[export] Instance spm_eqv_equivalence : Equivalence spm_eqv.
Proof. split; [done|by intros d d' [E1 E2]|intros d1 d2 d3 [E1 E2] [E3 E4]; split; congruence]. Qed.

Lemma c_name_padding n l : c_name (l ++ replicate n 0) = c_name l.
Proof. induction l as [|b l IH]; cbn; [by destruct n|]. by rewrite IH. Qed.

Lemma padded_eqv d : spm_eqv d (padded d).
Proof. split; [done|]. symmetry. apply c_name_padding. Qed.

(** ** Reports. *)

(** The reports after which the kernel may be left changed. *)
Definition lost (code : Z) : bool :=
  (code =? KERNEL_PERM_DATA_ROLLBACK) || (code =? KERNEL_SPM_DATA_ROLLBACK) || (code =? KERNEL_SPM_DATA_LOAD).

Section Reports.
Context {K : Type}.
Implicit Types (s : Kern K).

Definition grows s s' : Prop := exists new, kn_reports s' = kn_reports s ++ new.
Definition clean s s' : Prop := exists new, kn_reports s' = kn_reports s ++ new /\ Forall (fun r => lost r.1 = false) new.

Lemma grows_refl s : grows s s.
Proof. exists []. by rewrite app_nil_r. Qed.
Lemma grows_same s s' : kn_reports s' = kn_reports s -> grows s s'.
Proof. intros E. exists []. by rewrite app_nil_r. Qed.
Lemma grows_trans s1 s2 s3 : grows s1 s2 -> grows s2 s3 -> grows s1 s3.
Proof. intros [n1 E1] [n2 E2]. exists (n1 ++ n2). by rewrite E2, E1, app_assoc. Qed.
Lemma clean_split s1 s2 s3 : grows s1 s2 -> grows s2 s3 -> clean s1 s3 -> clean s1 s2 /\ clean s2 s3.
Proof.
  intros [n1 E1] [n2 E2] (n & E & H). rewrite E2, E1, <- app_assoc in E. apply app_inv_head in E as <-.
  apply Forall_app in H as [H1 H2]. split; [by exists n1|by exists n2].
Qed.
Lemma not_clean s s' s'' code ret : kn_reports s' = kn_reports s ++ [(code, ret)] -> lost code = true -> grows s' s'' -> ~ clean s s''.
Proof.
  intros E Hl [n En] (m & Em & H). rewrite En, E, <- app_assoc in Em. apply app_inv_head in Em as <-.
  apply Forall_app in H as [H _]. apply Forall_cons in H as [H _]. cbn in H. congruence.
Qed.
End Reports.

Section Views.
Context {K : Type} `{!TokenDevice K} `{!TokenDeviceLaws K} `{!SpmDevice K} `{!SpmLaws K} `{!DeviceReopens K}.
Implicit Types (s : Kern K) (t c : Z) (toks : list Z).

Definition entry_at s t : option SpmData := spm_entries (kn_dev s) !! t.
Definition bit_at s t c : bool := dev_granted (kn_dev s) t c.
Definition sup s : bool := spm_supported (kn_dev s).

(** The cached answer is right. *)
Definition cache_ok s : Prop := kn_support s = Some true -> sup s = true.

Definition same_at t s s' : Prop := entry_at s' t = entry_at s t /\ forall c, 0 <= c -> bit_at s' t c = bit_at s t c.
Definition like_at t s s' : Prop :=
  option_Forall2 spm_eqv (entry_at s t) (entry_at s' t) /\ forall c, 0 <= c -> bit_at s' t c = bit_at s t c.

Lemma same_at_refl t s : same_at t s s.
Proof. by split. Qed.
Lemma same_at_trans t s1 s2 s3 : same_at t s1 s2 -> same_at t s2 s3 -> same_at t s1 s3.
Proof. intros [E1 B1] [E2 B2]. split; [congruence|]. intros c Hc. by rewrite B2, B1. Qed.
Lemma option_eqv_refl (o : option SpmData) : option_Forall2 spm_eqv o o.
Proof. by destruct o; constructor. Qed.
Lemma same_like t s s' : same_at t s s' -> like_at t s s'.
Proof. intros [E B]. split; [rewrite E; apply option_eqv_refl|done]. Qed.
Lemma like_at_trans t s1 s2 s3 : like_at t s1 s2 -> like_at t s2 s3 -> like_at t s1 s3.
Proof.
  intros [E1 B1] [E2 B2]. split; [|intros c Hc; by rewrite B2, B1].
  destruct E1 as [d1 d2 H12|]; inversion_clear E2 as [? d3 H23|]; constructor. by etrans.
Qed.

(** Only the tokens of [toks] changed, support is as it was, and reports were added. *)
Record frame toks s s' : Prop := {
  fr_sup : sup s' = sup s;
  fr_cache : cache_ok s -> cache_ok s';
  fr_grows : grows s s';
  fr_out t : t ∉ toks -> same_at t s s';
}.

Lemma frame_refl toks s : frame toks s s.
Proof. split; [done|done|apply grows_refl|intros; apply same_at_refl]. Qed.
Lemma frame_trans toks s1 s2 s3 : frame toks s1 s2 -> frame toks s2 s3 -> frame toks s1 s3.
Proof.
  intros [A1 A2 A3 A4] [B1 B2 B3 B4]. split; [congruence|auto|by eapply grows_trans|intros; eapply same_at_trans; eauto].
Qed.
Lemma frame_weaken toks toks' s s' : toks ⊆ toks' -> frame toks s s' -> frame toks' s s'.
Proof. intros Hs [A1 A2 A3 A4]. split; [done..|]. intros t Ht. apply A4. set_solver. Qed.
Lemma frame_report toks code ret s : frame toks s (ReportSysCommonEventError code ret s).
Proof. split; [done|done|by eexists|done]. Qed.

(** A call on one token: on success its entry becomes [E] and its bits [B] of what they were; otherwise
    nothing changes. *)
Definition acts (need : bool) t (call : K -> Z * K) (E : option SpmData -> option SpmData) (B : Z -> bool -> bool) : Prop :=
  forall k e k', (need = true -> spm_supported k = true) -> call k = (e, k') -> spm_supported k' = spm_supported k /\
    (forall t', spm_entries k' !! t' = if (e =? 0) && (t' =? t) then E (spm_entries k !! t) else spm_entries k !! t') /\
    (forall t' c, 0 <= c -> dev_granted k' t' c = if (e =? 0) && (t' =? t) then B c (dev_granted k t c) else dev_granted k t' c).

Lemma dev_step toks t need call E B s e s' : acts need t call E B -> (need = true -> sup s = true) -> t ∈ toks -> on_dev call s = (e, s') ->
  frame toks s s' /\ kn_reports s' = kn_reports s /\ kn_support s' = kn_support s /\
  (forall t', entry_at s' t' = if (e =? 0) && (t' =? t) then E (entry_at s t) else entry_at s t') /\
  (forall t' c, 0 <= c -> bit_at s' t' c = if (e =? 0) && (t' =? t) then B c (bit_at s t c) else bit_at s t' c).
Proof.
  intros A Hs Ht. unfold on_dev. destruct (call (kn_dev s)) as [e1 k1] eqn:C. destruct (A _ _ _ Hs C) as (A1 & A2 & A3). intros [= <- <-].
  split_and!; [|done|done|exact A2|exact A3]. split; [exact A1|unfold cache_ok, sup; cbn; by rewrite A1|by apply grows_same|].
  intros t' Ht'. assert (t' <> t) as Hne%Z.eqb_neq by (intros ->; done). split; [|intros c Hc].
  - unfold entry_at. cbn. by rewrite A2, Hne, andb_false_r.
  - unfold bit_at. cbn. by rewrite A3, Hne, andb_false_r.
Qed.

(** ** The loops over items. *)
Lemma each_item_spec {A} (tok : A -> Z) call code items need (E : Z -> option SpmData -> option SpmData) (B : Z -> Z -> bool -> bool) :
  lost code = true -> (forall t o, E t (E t o) = E t o) -> (forall t c b, B t c (B t c b) = B t c b) ->
  (forall i, i ∈ items -> acts need (tok i) (call i) (E (tok i)) (B (tok i))) ->
  forall result s r s', (need = true -> sup s = true) -> each_item call code items result s = (r, s') ->
  frame (map tok items) s s' /\
  (clean s s' ->
    (forall t, entry_at s' t = if bool_decide (t ∈ map tok items) then E t (entry_at s t) else entry_at s t) /\
    (forall t c, 0 <= c -> bit_at s' t c = if bool_decide (t ∈ map tok items) then B t c (bit_at s t c) else bit_at s t c)).
Proof.
  intros Hl HE HB. induction items as [|i items IH]; intros Ha result s r s' Hs; cbn [each_item map].
  { intros [= _ <-]. split; [apply frame_refl|]. intros _. split; intros; rewrite bool_decide_eq_false_2; by try apply not_elem_of_nil. }
  destruct (on_dev (call i) s) as [e s1] eqn:D. eapply dev_step in D as (F1 & R1 & _ & E1 & B1); [|apply Ha; by left|done|by left].
  assert (forall j, j ∈ items -> acts need (tok j) (call j) (E (tok j)) (B (tok j))) as Ha' by (intros j Hj; apply Ha; by right).
  assert (need = true -> sup s1 = true) as Hs1 by (rewrite (fr_sup _ _ _ F1); auto).
  destruct (Z.eqb_spec e RET_SUCCESS) as [->|He]; cbn [negb].
  - intros L. destruct (IH Ha' _ _ _ _ Hs1 L) as [F2 C2].
    assert (frame (tok i :: map tok items) s1 s') as F2' by (eapply frame_weaken; [|exact F2]; set_solver).
    split; [by eapply frame_trans|]. intros [_ Hc]%(clean_split s s1 s'); [|apply F1|apply F2]. destruct (C2 Hc) as [E2 B2]. clear C2 IH.
    cbn [Z.eqb RET_SUCCESS andb] in E1, B1. split.
    + intros t. rewrite E2, !E1. destruct (Z.eqb_spec t (tok i)) as [->|Hne].
      * rewrite (bool_decide_eq_true_2 (tok i ∈ tok i :: _)) by by left. case_bool_decide; [apply HE|done].
      * rewrite (bool_decide_ext (t ∈ tok i :: map tok items) (t ∈ map tok items)); [done|]. rewrite elem_of_cons. naive_solver.
    + intros t c Hpos. rewrite B2, !B1 by done. destruct (Z.eqb_spec t (tok i)) as [->|Hne].
      * rewrite (bool_decide_eq_true_2 (tok i ∈ tok i :: _)) by by left. case_bool_decide; [apply HB|done].
      * rewrite (bool_decide_ext (t ∈ tok i :: map tok items) (t ∈ map tok items)); [done|]. rewrite elem_of_cons. naive_solver.
  - intros L. destruct (IH Ha' _ (ReportSysCommonEventError code e s1) _ _ Hs1 L) as [F2 _].
    assert (frame (tok i :: map tok items) (ReportSysCommonEventError code e s1) s') as F2' by (eapply frame_weaken; [|exact F2]; set_solver).
    split; [eapply frame_trans; [exact F1|]; eapply frame_trans; [apply frame_report|exact F2']|].
    intros Hc. exfalso. eapply (not_clean s (ReportSysCommonEventError code e s1)); [cbn; by rewrite R1|done|apply F2|done].
Qed.

(** ** The calls. *)
Definition granted_codes (l : list BriefPermData) : list Z :=
  omap (fun d => if bpd_status d =? PERMISSION_GRANTED then Some (bpd_permCode d) else None) l.

Definition codes_ok (l : list BriefPermData) : Prop := Forall (fun d => 0 <= bpd_permCode d) l.

Lemma granted_codes_ok l : codes_ok l -> Forall (fun c => 0 <= c) (granted_codes l).
Proof.
  intros H. apply Forall_forall. intros c (d & Hd & E)%list_elem_of_omap. split_if_in E; [|done]. injection E as <-. by apply (proj1 (Forall_forall _ _) H).
Qed.

(** The calls on bits keep the entries. *)
Definition keeps_entries (f : K -> Z * K) : Prop :=
  forall k e k', f k = (e, k') -> spm_entries k' = spm_entries k /\ spm_supported k' = spm_supported k.

Lemma keeps_opened (f : K -> Z * K) : keeps_entries f ->
  keeps_entries (fun k => let '(ok, k) := dev_open k in if negb ok then (ACCESS_TOKEN_OPEN_ERROR, k) else f k).
Proof.
  intros Hf k e k'. destruct (dev_open k) as [ok k1] eqn:O. apply spm_open_law in O as [<- <-].
  destruct ok; cbn [negb]; [apply Hf|by intros [= _ <-]].
Qed.

Lemma keeps_retry (again : Z -> bool) (f : K -> Z * K) : keeps_entries f ->
  keeps_entries (fun k => let '(ret, k) := f k in if again ret then f k else (ret, k)).
Proof.
  intros Hf k e k'. destruct (f k) as [e1 k1] eqn:F1. apply Hf in F1 as [<- <-]. destruct (again e1); [apply Hf|by intros [= _ <-]].
Qed.

Lemma keeps_remove t : keeps_entries (fun k => RemovePermFromKernel k t).
Proof.
  assert (keeps_entries (fun k => RemovePermissionFromKernel k t)) as H.
  { apply keeps_opened. intros k e k'. apply spm_remove_bits_law. }
  intros k e k' E. apply (keeps_retry (fun ret => negb (ret =? RET_SUCCESS)) _ H k e k'). rewrite <- E. unfold RemovePermFromKernel.
  destruct (RemovePermissionFromKernel k t) as [e1 k1]. by destruct (e1 =? RET_SUCCESS).
Qed.

Lemma keeps_add t l : keeps_entries (fun k => AddHapPermToKernel k t l).
Proof.
  apply (keeps_retry (fun ret => negb (ret =? ACCESS_TOKEN_OK))). intros k e k'. unfold AddPermissionToKernel, C_AddPermissionToKernel.
  destruct (pack_codes _ _) as [perms|]; [|by intros [= _ <-]]. split_if; [by intros [= _ <-]|].
  apply (keeps_opened (fun k => dev_add k t _)). intros k1 e1 k1'. apply spm_add_bits_law.
Qed.

Lemma acts_bits t call (B : Z -> bool -> bool) : keeps_entries call ->
  (forall k e k', call k = (e, k') -> forall t' c, 0 <= c ->
     dev_granted k' t' c = if (e =? 0) && (t' =? t) then B c (dev_granted k t c) else dev_granted k t' c) ->
  acts false t call id B.
Proof.
  intros H1 H2 k e k' _ C. destruct (H1 _ _ _ C) as [E1 E2]. split_and!; [done| |by apply (H2 _ _ _ C)].
  intros t'. rewrite E1. destruct (Z.eqb_spec t' t) as [->|]; destruct (e =? 0); done.
Qed.

Lemma acts_remove_bits t : acts false t (fun k => RemovePermFromKernel k t) id (fun _ _ => false).
Proof. apply acts_bits; [apply keeps_remove|]. intros k e k' C t' c Hc. by rewrite (RemovePermFromKernel_law _ _ _ _ C). Qed.

Lemma acts_add_bits t l : codes_ok l ->
  acts false t (fun k => AddHapPermToKernel_brief k t l) id (fun c _ => bool_decide (c ∈ granted_codes l)).
Proof.
  intros Hl. apply acts_bits; [apply keeps_add|]. intros k e k' C t' c Hc. by rewrite (AddHapPermToKernel_law _ _ _ _ _ (granted_codes_ok l Hl) C).
Qed.

Lemma acts_remove_entry t : acts true t (RemoveSpmEntryFromKernel t) (fun _ => None) (fun _ b => b).
Proof.
  intros k e k' Hs C. destruct (RemoveEntry_done _ _ _ _ C (Hs eq_refl)) as [[B1 B2] E]. split_and!; [done| |].
  - intros t'. rewrite E. unfold RET_SUCCESS. destruct (e =? 0); [|done]. cbn. destruct (Z.eqb_spec t' t) as [->|].
    + apply lookup_delete_eq.
    + by apply lookup_delete_ne.
  - intros t' c _. rewrite B1. destruct (Z.eqb_spec t' t) as [->|]; by destruct (e =? 0).
Qed.

(** The same bits under other names. *)
Lemma acts_ext need t call E (B B' : Z -> bool -> bool) : (forall c b, 0 <= c -> B c b = B' c b) -> acts need t call E B -> acts need t call E B'.
Proof. intros H A k e k' Hs C. destruct (A k e k' Hs C) as (A1 & A2 & A3). split_and!; [done|done|]. intros t' c Hc. by rewrite A3, H. Qed.

Lemma check_support s b s' : cache_ok s -> CheckSpmSupport s = (b, s') ->
  frame [] s s' /\ kn_reports s' = kn_reports s /\ (b = true -> sup s' = true) /\ forall t, same_at t s s'.
Proof.
  intros Hok. unfold CheckSpmSupport, IsKernelSupportSpm. destruct (kn_support s) as [b0|] eqn:Ec.
  { intros [= <- <-]. split_and!; [|done| |done]; [split; [done|unfold cache_ok; cbn; by rewrite Ec|by apply grows_same|done]|]. intros ->. by apply Hok. }
  unfold SpmGetVersion. destruct (dev_open (kn_dev s)) as [ok k1] eqn:Eo. destruct (open_step _ _ _ Eo) as [[Hb Hs] He].
  destruct ok; cbn [negb].
  2: { intros [= <- <-]. assert (forall t, same_at t s (mkKern k1 None (kn_reports s))) as Hsame.
       { intros t. unfold same_at, entry_at, bit_at. cbn. by rewrite He, Hb. }
       split_and!; [|done|done|exact Hsame]. split; [unfold sup; cbn; by rewrite Hs|done|by apply grows_same|auto]. }
  destruct (spm_version k1) as [r k2] eqn:V. apply spm_version_law in V as (V1 & V2 & V3 & V4 & V5). cbv zeta.
  assert (forall b' checked, (b' = true -> exists v, r = inr v) -> (checked = Some true -> b' = true) ->
    let s1 := mkKern k2 checked (kn_reports s) in
    frame [] s s1 /\ kn_reports s1 = kn_reports s /\ (b' = true -> sup s1 = true) /\ forall t, same_at t s s1) as Hgo.
  { intros b' checked Hr Hc. assert (b' = true -> spm_supported k2 = true) as Hsup.
    { intros [v E]%Hr. rewrite V2. by eapply V4. }
    assert (forall t, same_at t s (mkKern k2 checked (kn_reports s))) as Hsame.
    { intros t. unfold same_at, entry_at, bit_at. cbn. by rewrite V3, He, V1, Hb. }
    split_and!; [|done|exact Hsup|exact Hsame]. split; [unfold sup; cbn; by rewrite V2, Hs|intros _ E; apply Hsup, Hc, E|by apply grows_same|auto]. }
  destruct r as [e|v]; [destruct (Z.eqb_spec e RET_SUCCESS) as [E0|E0]; [by destruct (V5 e)|]; destruct (negb (e =? ENOTSUP)); cbn [negb andb]|cbn];
    intros [= <- <-]; apply Hgo; by eauto.
Qed.

(** ** Undoing. *)

(** Run where the tokens are still as in [s], [rb] brings them back to [s0] or reports that it could not. *)
Definition undo_ok toks (rb : Kern K -> Kern K) s0 s : Prop :=
  forall s1, (forall t, t ∈ toks -> same_at t s s1) -> sup s1 = sup s ->
    frame toks s1 (rb s1) /\ (clean s1 (rb s1) -> forall t, t ∈ toks -> like_at t s0 (rb s1)).

(** What a task promises: it changes its tokens only; if it fails they are as before, and if it
    succeeds [rb] can undo it. *)
Definition staged toks (ret : Z) (rb : Kern K -> Kern K) s s' : Prop :=
  frame toks s s' /\
  (clean s s' -> if ret =? RET_SUCCESS then undo_ok toks rb s s' else forall t, t ∈ toks -> like_at t s s').

Lemma staged_nothing toks ret rb s : ret <> RET_SUCCESS -> staged toks ret rb s s.
Proof.
  intros Hr. split; [apply frame_refl|]. intros _. rewrite (proj2 (Z.eqb_neq _ _) Hr). intros t _. apply same_like, same_at_refl.
Qed.

(** A failure that was undone. *)
Lemma staged_undone toks ret rb rb' s s1 : ret <> RET_SUCCESS -> frame toks s s1 -> (clean s s1 -> undo_ok toks rb s s1) ->
  (forall s2, rb s1 = s2 -> frame toks s1 s2) -> staged toks ret rb' s (rb s1).
Proof.
  intros Hr F U F2. specialize (F2 _ eq_refl). split; [by eapply frame_trans|]. rewrite (proj2 (Z.eqb_neq _ _) Hr).
  intros [C1 C2]%(clean_split s s1); [|apply F|apply F2]. by apply (U C1 s1).
Qed.

Definition toks_of (items : list SpmDataTaskItem) : list Z := map ti_tokenId items.

Lemma toks_take n items t : t ∈ toks_of (take n items) -> t ∈ toks_of items.
Proof. unfold toks_of. rewrite <- firstn_map. intros H. eapply elem_of_sublist; [exact H|apply sublist_take]. Qed.

Lemma toks_rev items t : t ∈ map ti_tokenId (rev items) <-> t ∈ toks_of items.
Proof. unfold toks_of. by rewrite map_rev, !list_elem_of_In, <- in_rev. Qed.

Lemma rollback_bits_spec items result s r s' : rollback_bits items result s = (r, s') ->
  frame (toks_of items) s s' /\
  (clean s s' -> (forall t, entry_at s' t = entry_at s t) /\
     forall t c, 0 <= c -> bit_at s' t c = if bool_decide (t ∈ toks_of items) then false else bit_at s t c).
Proof.
  intros L. apply (each_item_spec ti_tokenId _ _ _ false (fun _ => id) (fun _ _ _ => false)) in L as [F C]; [|done..| |done].
  - split; [done|]. intros Hc. destruct (C Hc) as [E B]. split; [|done]. intros t. rewrite E. by case_bool_decide.
  - intros i _. apply acts_remove_bits.
Qed.

Lemma rollback_entries_spec items result s r s' : (items <> [] -> sup s = true) -> rollback_entries items result s = (r, s') ->
  frame (toks_of items) s s' /\
  (clean s s' -> (forall t, entry_at s' t = if bool_decide (t ∈ toks_of items) then None else entry_at s t) /\
     forall t c, 0 <= c -> bit_at s' t c = bit_at s t c).
Proof.
  intros Hs L. destruct (decide (items = [])) as [->|Hne].
  { injection L as _ <-. split; [apply frame_refl|]. intros _. split; [|done]. intros t. by rewrite bool_decide_eq_false_2 by apply not_elem_of_nil. }
  apply (each_item_spec ti_tokenId _ _ _ true (fun _ _ => None) (fun _ _ b => b)) in L as [F C]; [|done..| |auto].
  - split; [done|]. intros Hc. destruct (C Hc) as [E B]. split; [done|]. intros t c Hpos. rewrite B by done. by case_bool_decide.
  - intros i _. apply acts_remove_entry.
Qed.

(** Writing the bits of the items up to the one that fails. *)
Lemma add_perm_spec items : Forall (fun i => codes_ok (ti_permBriefDataList i)) items -> forall i0 err s ret cnt err' s',
  AddPermDataToKernel_loop items i0 err s = (ret, cnt, err', s') ->
  exists j, (j <= length items)%nat /\ cnt = (i0 + j)%nat /\ (ret = RET_SUCCESS -> j = length items) /\ frame (toks_of items) s s' /\
    kn_reports s' = kn_reports s /\ (forall t, entry_at s' t = entry_at s t) /\
    forall t, t ∉ toks_of (take j items) -> forall c, 0 <= c -> bit_at s' t c = bit_at s t c.
Proof.
  induction items as [|i items IH]; intros Hc i0 err s ret cnt err' s'; cbn [AddPermDataToKernel_loop].
  { intros [= <- <- <- <-]. exists 0%nat. split_and!; [done|lia|done|apply frame_refl|done..]. }
  apply Forall_cons in Hc as [Hi Hc]. destruct (on_dev _ s) as [e s1] eqn:D.
  eapply (dev_step (toks_of (i :: items))) in D as (F1 & R1 & _ & E1 & B1); [|by apply acts_add_bits|done|by left].
  assert (forall t, entry_at s1 t = entry_at s t) as E1'.
  { intros t. rewrite E1. destruct (Z.eqb_spec t (ti_tokenId i)) as [->|]; [|by rewrite andb_false_r]. by destruct (e =? 0). }
  destruct (Z.eqb_spec e RET_SUCCESS) as [->|He]; cbn [negb].
  - intros L. destruct (IH Hc _ _ _ _ _ _ _ L) as (j & Hj & -> & Hr & F2 & R2 & E2 & B2). exists (S j). split_and!.
    + cbn. lia.
    + lia.
    + intros E. cbn. by rewrite Hr.
    + eapply frame_trans; [exact F1|]. eapply frame_weaken; [|exact F2]. unfold toks_of. cbn. set_solver.
    + congruence.
    + intros t. by rewrite E2, E1'.
    + intros t [Hn Hr']%not_elem_of_cons c Hpos. rewrite B2, B1 by done. apply Z.eqb_neq in Hn. by rewrite Hn, andb_false_r.
  - intros [= <- <- <- <-]. exists 0%nat. split_and!; [lia|lia|done|done|done|done|].
    intros t _ c Hpos. rewrite B1 by done. by rewrite (proj2 (Z.eqb_neq e 0) He).
Qed.
End Views.
