(* ===== verification/SpmUndo.v ===== *)
(** * Each task can be undone

    The three tasks keep the promise [staged]: a task that fails has put its tokens back, and one
    that succeeds leaves a rollback that does. *)

From stdpp Require Import base gmap list strings.
From S2P Require Import Prelude AccessTokenTypes PermissionMap PermissionDataBrief Kernel HapTokenInfo Spm SpmTheory SpmTasks SpmTaskTheory.
#[local] Open Scope list_scope.
#[local] Open Scope Z_scope.
#[local] Open Scope cxx_scope.

(** ** Entries written one after the other. *)
Definition keys (l : list SpmData) : list Z := map sd_tokenid l.

Lemma write_entry_lookup cmd m d t : write_entry cmd m d !! t =
  if decide (t = sd_tokenid d)
  then Some (match cmd, m !! sd_tokenid d with SET_SPM_ENTRIES, Some o => with_uid (sd_uid o) d | _, _ => d end)
  else m !! t.
Proof.
  unfold write_entry. destruct (decide (t = sd_tokenid d)) as [->|Hne].
  - destruct cmd, (m !! sd_tokenid d); apply lookup_insert_eq.
  - destruct cmd, (m !! sd_tokenid d); by apply lookup_insert_ne.
Qed.

Lemma written_out cmd l : forall m t, t ∉ keys l -> fold_left (write_entry cmd) l m !! t = m !! t.
Proof.
  induction l as [|d l IH]; intros m t; cbn; [done|]. intros [Hne Hn]%not_elem_of_cons. rewrite IH by done.
  rewrite write_entry_lookup. by destruct (decide _).
Qed.

Lemma added_new l : forall m t, new_entries l m -> t ∈ keys l -> m !! t = None.
Proof.
  induction l as [|d l IH]; intros m t; cbn [new_entries keys map]; [by intros _ ?%not_elem_of_nil|].
  intros [Hn Hl] [->|Hin]%elem_of_cons; [done|]. specialize (IH _ _ Hl Hin). rewrite write_entry_lookup in IH.
  by destruct (decide _).
Qed.

(** Setting keeps the uid of what is there. *)
Lemma set_uid l : forall m t d0 d, m !! t = Some d0 -> fold_left (write_entry SET_SPM_ENTRIES) l m !! t = Some d -> sd_uid d = sd_uid d0.
Proof.
  induction l as [|e l IH]; intros m t d0 d E0; cbn; [by rewrite E0; intros [= ->]|]. intros E.
  destruct (decide (t = sd_tokenid e)) as [->|Hne].
  - eapply (IH (write_entry SET_SPM_ENTRIES m e) _ (with_uid (sd_uid d0) e)); [|exact E].
    rewrite write_entry_lookup, decide_True by done. by rewrite E0.
  - eapply (IH (write_entry SET_SPM_ENTRIES m e) _ d0); [|exact E]. by rewrite write_entry_lookup, decide_False.
Qed.

(** Setting the entries that were read puts them back. *)
Lemma set_back (m0 : gmap Z SpmData) l : Forall (fun d => m0 !! sd_tokenid d = Some d) l -> forall m,
  (forall t d0 d, t ∈ keys l -> m0 !! t = Some d0 -> m !! t = Some d -> sd_uid d = sd_uid d0) ->
  forall t, t ∈ keys l -> fold_left (write_entry SET_SPM_ENTRIES) l m !! t = m0 !! t.
Proof.
  induction 1 as [|d l Hd Hl IH]; intros m Hu t; cbn [fold_left keys map]; [by intros ?%not_elem_of_nil|].
  assert (write_entry SET_SPM_ENTRIES m d !! sd_tokenid d = Some d) as Hw.
  { rewrite write_entry_lookup, decide_True by done. destruct (m !! sd_tokenid d) as [o|] eqn:Eo; [|done].
    rewrite (Hu (sd_tokenid d) d o) by (done || by left). by destruct d. }
  intros [->|Hin]%elem_of_cons.
  - destruct (decide (sd_tokenid d ∈ keys l)) as [Hin|Hn].
    + apply IH; [|done]. intros t d0 d1 Ht E0. destruct (decide (t = sd_tokenid d)) as [->|Hne].
      * rewrite Hw. rewrite Hd in E0. by intros [= <-]; injection E0 as <-.
      * rewrite write_entry_lookup, decide_False by done. apply Hu; [by right|done].
    + by rewrite written_out, Hw, Hd.
  - apply IH; [|done]. intros t1 d0 d1 Ht E0. destruct (decide (t1 = sd_tokenid d)) as [->|Hne].
    + rewrite Hw. rewrite Hd in E0. by intros [= <-]; injection E0 as <-.
    + rewrite write_entry_lookup, decide_False by done. apply Hu; [by right|done].
Qed.

Lemma omap_short {A B} (f : A -> option B) l : (length (omap f l) <= length l)%nat.
Proof. induction l as [|a l IH]; cbn; [done|]. destruct (f a); cbn; lia. Qed.

(** ** Items. *)
Definition item_ok (i : SpmDataTaskItem) : Prop :=
  sd_tokenid (ti_newSpmData i) = ti_tokenId i /\ sd_name (ti_newSpmData i) <> [] /\ codes_ok (ti_permBriefDataList i).

Definition items_ok (items : list SpmDataTaskItem) : Prop := Forall item_ok items /\ Z.of_nat (length items) <= 255.

Lemma keys_items items : Forall item_ok items -> keys (map ti_newSpmData items) = toks_of items.
Proof. induction 1 as [|i items [E _] _ IH]; [done|]. unfold keys, toks_of in *. cbn. by rewrite E, IH. Qed.

Lemma items_sendable items : items_ok items -> sendable (map ti_newSpmData items).
Proof.
  intros [H1 H2]. split; [by rewrite length_map|]. apply Forall_map. eapply Forall_impl; [exact H1|]. by intros i (_ & Hn & _).
Qed.

Section Tasks.
Context {K : Type} `{!TokenDevice K} `{!TokenDeviceLaws K} `{!SpmDevice K} `{!SpmLaws K} `{!DeviceReopens K}.
Implicit Types (s : Kern K) (t c : Z) (toks : list Z).

(** The entries of the items sent in one request. *)
Lemma send_items cmd items s e idx k : items_ok items ->
  batch_done ERR_DATA_CONFLICT_WITH_KERNEL cmd (map ti_newSpmData items) (kn_dev s) e idx k ->
  let n := if e =? RET_SUCCESS then length items else Nat.min (Z.to_nat idx) (length items) in
  let s' := set_dev k s in
  frame (toks_of items) s s' /\ kn_reports s' = kn_reports s /\ (n <= length items)%nat /\
  (forall t c, bit_at s' t c = bit_at s t c) /\
  written cmd (map ti_newSpmData (take n items)) (spm_entries (kn_dev s)) (spm_entries k) /\
  (forall t, t ∉ toks_of (take n items) -> entry_at s' t = entry_at s t).
Proof.
  intros [Hi Hlen] [[B1 B2] B3 B4 _] n s'.
  assert (take (done_count e idx (map ti_newSpmData items)) (map ti_newSpmData items) = map ti_newSpmData (take n items)) as Et.
  { rewrite <- firstn_map. unfold done_count. rewrite length_map. subst n. unfold RET_SUCCESS. destruct (Z.eqb_spec e 0) as [|He]; [done|].
    specialize (B3 He). rewrite length_map in B3. by rewrite Nat.min_l by lia. }
  rewrite Et in B4.
  assert (forall t, t ∉ toks_of (take n items) -> entry_at s' t = entry_at s t) as Hout.
  { intros t Ht. unfold entry_at. cbn. destruct B4 as [-> _]. apply written_out. by rewrite keys_items by by apply Forall_take. }
  assert (forall t c, bit_at s' t c = bit_at s t c) as Hbit by (intros t c; unfold bit_at; cbn; by rewrite B1).
  split_and!; [|done| |done|done|done].
  - split; [done|unfold cache_ok, sup; cbn; by rewrite B2|by apply grows_same|].
    intros t Ht. split; [|by intros]. apply Hout. by intros ?%toks_take.
  - subst n. destruct (e =? RET_SUCCESS); lia.
Qed.

(** ** Adding. *)

(** [s] is [s0] with the entries of the first [n] items and the bits of the first [m]. *)
Record add_state items (wp : bool) (n m : nat) s0 s : Prop := {
  as_n : (n <= length items)%nat;
  as_m : (m <= length items)%nat;
  as_sup : n <> 0%nat -> sup s = true;
  as_new t : t ∈ toks_of (take n items) -> entry_at s0 t = None;
  as_old t : t ∉ toks_of (take n items) -> entry_at s t = entry_at s0 t;
  as_fresh t c : wp = true -> t ∈ toks_of items -> 0 <= c -> bit_at s0 t c = false;
  as_bits t c : (wp = true -> t ∉ toks_of (take m items)) -> 0 <= c -> bit_at s t c = bit_at s0 t c;
}.

Lemma add_undo items b wp n m s0 s : add_state items wp n m s0 s ->
  undo_ok (toks_of items) (fun s => (Add_Rollback (mkSpmDataTask items b wp n m) s).2) s0 s.
Proof.
  intros [Hn Hm Hsup Hnew Hold Hfresh Hbits] s1 Hs1 Es1. unfold Add_Rollback. cbn [items_ updateWithPerm_ spmDataSuccessCount_ permDataSuccessCount_].
  rewrite !Nat.min_l by done.
  set (bits := rev (take m items)). set (ents := rev (take n items)).
  assert (forall t, t ∈ toks_of bits <-> t ∈ toks_of (take m items)) as Hb by (intros t; apply toks_rev).
  assert (forall t, t ∈ toks_of ents <-> t ∈ toks_of (take n items)) as He by (intros t; apply toks_rev).
  destruct (if wp then rollback_bits bits RET_SUCCESS s1 else (RET_SUCCESS, s1)) as [r2 s2] eqn:R2.
  assert (frame (toks_of items) s1 s2 /\ (clean s1 s2 -> (forall t, entry_at s2 t = entry_at s1 t) /\
    forall t c, 0 <= c -> bit_at s2 t c = if wp && bool_decide (t ∈ toks_of (take m items)) then false else bit_at s1 t c)) as [F2 C2].
  { destruct wp; [|injection R2 as _ <-; by split; [apply frame_refl|]]. apply rollback_bits_spec in R2 as [F2 C2].
    split; [eapply frame_weaken; [|exact F2]; intros t Ht; by eapply toks_take, Hb|]. intros Hc. destruct (C2 Hc) as [E2 B2].
    split; [done|]. intros t c Hc'. rewrite B2 by done. cbn [andb]. by rewrite (bool_decide_ext (t ∈ toks_of bits) (t ∈ toks_of (take m items))) by apply Hb. }
  destruct (rollback_entries ents r2 s2) as [r3 s3] eqn:R3. apply rollback_entries_spec in R3 as [F3 C3].
  2: { intros Hne. rewrite (fr_sup _ _ _ F2), Es1. apply Hsup. intros ->. by apply Hne. }
  assert (frame (toks_of items) s2 s3) as F3' by (eapply frame_weaken; [|exact F3]; intros t Ht; by eapply toks_take, He).
  cbn [snd]. split; [by eapply frame_trans|]. intros [Hc2 Hc3]%(clean_split s1 s2); [|apply F2|apply F3].
  destruct (C2 Hc2) as [E2 B2]. destruct (C3 Hc3) as [E3 B3]. intros t Ht. apply same_like. destruct (Hs1 t Ht) as [E1 B1]. split.
  - rewrite E3, (bool_decide_ext (t ∈ toks_of ents) (t ∈ toks_of (take n items))), E2, E1 by apply He. case_bool_decide as Hin; [symmetry; by apply Hnew|by apply Hold].
  - intros c Hpos. rewrite B3, B2, B1 by done. destruct wp; cbn [andb]; [|by apply Hbits].
    case_bool_decide as Hin; [symmetry; by apply Hfresh|by apply Hbits].
Qed.

Lemma rolled_back items b wp n m s0 s r task s' : add_state items wp n m s0 s ->
  Add_Rollback (mkSpmDataTask items b wp n m) s = (r, task, s') -> frame (toks_of items) s s'.
Proof.
  intros H E. pose proof (add_undo items b wp n m s0 s H s) as [F _]; [intros; apply same_at_refl|done|].
  cbn beta in F. by rewrite E in F.
Qed.

(** A failure after which the task took back what it had done. *)
Lemma add_failed items b wp n m s0 s r task s' ret rb : add_state items wp n m s0 s -> frame (toks_of items) s0 s -> ret <> RET_SUCCESS ->
  Add_Rollback (mkSpmDataTask items b wp n m) s = (r, task, s') -> staged (toks_of items) ret rb s0 s'.
Proof.
  intros H F Hr E. pose proof (staged_undone (toks_of items) ret _ rb s0 s Hr F (fun _ => add_undo items b wp n m s0 s H)) as St.
  cbn beta in St. rewrite E in St. apply St. intros s2 <-. by eapply rolled_back.
Qed.

(** The entries of all items, or of those before the one that failed. *)
Lemma add_entries items wp s0 s e idx k : items_ok items -> add_state items wp 0 0 s0 s -> frame (toks_of items) s0 s ->
  (forall t, same_at t s0 s) -> sup s = true ->
  batch_done ERR_DATA_CONFLICT_WITH_KERNEL ADD_SPM_ENTRIES (map ti_newSpmData items) (kn_dev s) e idx k ->
  let n := if e =? RET_SUCCESS then length items else Nat.min (Z.to_nat idx) (length items) in
  add_state items wp n 0 s0 (set_dev k s) /\ frame (toks_of items) s0 (set_dev k s).
Proof.
  intros Hi [_ _ _ _ _ Hfresh _] F Hs Hsup B n. destruct (send_items _ _ _ _ _ _ Hi B) as (F1 & _ & Hn & Hb & [Ew Hw] & Hout). fold n in Hn, Hw, Ew, Hout.
  split; [|by eapply frame_trans]. split; [done|lia|intros _; by rewrite (fr_sup _ _ _ F1)| | |done|].
  - intros t Ht. destruct (Hs t) as [<- _]. eapply added_new; [by apply Hw|]. rewrite keys_items; [done|]. apply Forall_take, Hi.
  - intros t Ht. rewrite (Hout t Ht). apply Hs.
  - intros t c _ Hc. rewrite Hb. by apply Hs.
Qed.

Lemma Add_staged (t t' : SpmDataTask) s ret i s' : items_ok (items_ t) -> cache_ok s ->
  (updateWithPerm_ t = true -> forall x c, x ∈ toks_of (items_ t) -> 0 <= c -> bit_at s x c = false) ->
  Add t s = (ret, i, t', s') -> staged (toks_of (items_ t)) ret (fun s => (Add_Rollback t' s).2) s s'.
Proof.
  destruct t as [items b wp n0 m0]. cbn [items_ updateWithPerm_]. intros Hi Hok Hf. unfold Add. cbn [isBuildSuccess_]. 
  destruct b; cbn [negb]; [|intros [= <- <- <- <-]; by apply staged_nothing].
  destruct (CheckSpmSupport s) as [sp s1] eqn:Cs. apply check_support in Cs as (F0 & R0 & Hsp & Hsame); [|done].
  assert (frame (toks_of items) s s1) as F0' by (eapply frame_weaken; [|exact F0]; set_solver).
  assert (add_state items wp 0 0 s s1) as H0.
  { split; [lia|lia|done|by intros t Ht%not_elem_of_nil|intros t _; apply Hsame|by auto|intros t c _ Hc; by apply Hsame]. }
  destruct (if sp then _ else _) as [[[r1 i1] t1] s2] eqn:M.
  assert ((r1 <> RET_SUCCESS -> forall rb, staged (toks_of items) r1 rb s s2) /\
    (r1 = RET_SUCCESS -> exists n, t1 = mkSpmDataTask items true wp n 0 /\ add_state items wp n 0 s s2 /\ frame (toks_of items) s s2)) as [Hbad Hgood].
  { destruct sp; [|injection M as <- <- <- <-; split; [done|]; intros _; by exists 0%nat].
    destruct (AddSpmEntriesToKernel _ _) as [[e idx] k] eqn:A. apply AddEntries_done in A; [|by apply items_sendable].
    apply (add_entries items wp s s1) in A as [A1 A2]; [|done..|auto]. destruct (Z.eqb_spec e RET_SUCCESS) as [->|He]; cbn [negb] in M.
    - injection M as <- <- <- <-. split; [done|]. intros _. by exists (length items).
    - cbn in M. destruct (Add_Rollback _ (set_dev k s1)) as [[r2 t2] s3] eqn:R. injection M as <- <- <- <-. split; [|done].
      intros _ rb. by eapply add_failed. }
  destruct (Z.eqb_spec r1 RET_SUCCESS) as [->|Hr]; cbn [negb]; [|intros [= <- <- <- <-]; by apply Hbad].
  destruct (Hgood eq_refl) as (n & -> & Hst & Fs). cbn [updateWithPerm_ items_].
  destruct wp; cbn [negb]; [|intros [= <- <- <- <-]; split; [done|]; intros _; by apply add_undo].
  unfold AddPermDataToKernel. destruct (AddPermDataToKernel_loop items 0 i1 s2) as [[[r3 cnt] i3] s3] eqn:L.
  apply add_perm_spec in L as (j & Hj & -> & Hjr & Fj & Rj & Ej & Bj); [|eapply Forall_impl; [apply Hi|]; by intros ? (_ & _ & ?)].
  assert (add_state items true n j s s3 /\ frame (toks_of items) s s3) as [H3 F3].
  { split; [|by eapply frame_trans]. destruct Hst as [S1 S2 S3 S4 S5 S6 S7]. split; [done|done| |done| |done|].
    - intros Hn. rewrite (fr_sup _ _ _ Fj). auto.
    - intros t Ht. rewrite Ej. auto.
    - intros t c Ht Hc. rewrite Bj by auto. apply S7; [|done]. intros _. apply not_elem_of_nil. }
  cbn [spmDataSuccessCount_ set_counts items_ isBuildSuccess_ updateWithPerm_ Nat.add].
  destruct (Z.eqb_spec r3 RET_SUCCESS) as [->|Hr3]; cbn [negb].
  - intros [= <- <- <- <-]. split; [done|]. intros _. by apply add_undo.
  - destruct (Add_Rollback _ s3) as [[r4 t4] s4] eqn:R. intros [= <- <- <- <-]. by eapply add_failed.
Qed.

(** ** Updating. *)

(** What the caller says of the bits before the update: the old list, or none. *)
Definition old_codes (i : SpmDataTaskItem) : list Z := granted_codes (default [] (ti_oldPermBriefDataList i)).
Definition old_known (wp : bool) s (i : SpmDataTaskItem) : Prop :=
  codes_ok (default [] (ti_oldPermBriefDataList i)) /\
  (wp = true -> forall c, 0 <= c -> bit_at s (ti_tokenId i) c = bool_decide (c ∈ old_codes i)).

(** [s] is [s0] with the entries of the first [n] items set and the bits of the first [m]. *)
Record upd_state items (wp : bool) (n m : nat) s0 s : Prop := {
  us_n : (n <= length items)%nat;
  us_m : (m <= length items)%nat;
  us_len : Z.of_nat (length items) <= 255;
  us_sup : n <> 0%nat -> sup s = true;
  us_loaded : n <> 0%nat -> Forall (fun i => ti_oldSpmData i = padded <$> entry_at s0 (ti_tokenId i)) items;
  us_uid t d0 d : entry_at s0 t = Some d0 -> entry_at s t = Some d -> sd_uid d = sd_uid d0;
  us_old t : t ∉ toks_of (take n items) -> entry_at s t = entry_at s0 t;
  us_known : Forall (old_known wp s0) items;
  us_wp : m <> 0%nat -> wp = true;
  us_bits t c : t ∉ toks_of (take m items) -> 0 <= c -> bit_at s t c = bit_at s0 t c;
}.

(** The entries that were read, and the tokens that had none. *)
Lemma old_split items s0 : Forall (fun i => ti_oldSpmData i = padded <$> entry_at s0 (ti_tokenId i)) items -> forall t,
  (t ∈ toks_of (filter (fun i => ti_oldSpmData i = None) items) <-> t ∈ toks_of items /\ entry_at s0 t = None) /\
  (t ∈ keys (omap ti_oldSpmData items) <-> t ∈ toks_of items /\ entry_at s0 t <> None) /\
  Forall (fun d => (padded <$> spm_entries (kn_dev s0)) !! sd_tokenid d = Some d /\ sd_name d <> []) (omap ti_oldSpmData items).
Proof.
  intros H. unfold toks_of, keys. induction H as [|i items Hi H IH]; intros t.
  { cbn. repeat setoid_rewrite elem_of_nil. naive_solver. }
  destruct (IH t) as (IH1 & IH2 & IH3). rewrite filter_cons. cbn [omap list_omap map]. rewrite Hi.
  destruct (entry_at s0 (ti_tokenId i)) as [d|] eqn:E; cbn [fmap option_fmap option_map].
  - rewrite decide_False by done. cbn [map]. rewrite !elem_of_cons, IH1, IH2.
    pose proof (spm_key _ _ _ E) as Hk. change (sd_tokenid (padded d)) with (sd_tokenid d). rewrite Hk. split_and!; [naive_solver|naive_solver|].
    apply Forall_cons. split; [|done]. split; [|intros Hn%(f_equal length); cbn in Hn; rewrite length_app, length_replicate in Hn; cbn in Hn; lia].
    change (sd_tokenid (padded d)) with (sd_tokenid d). rewrite Hk, lookup_fmap. unfold entry_at in E. by rewrite E.
  - rewrite decide_True by done. cbn [map]. rewrite !elem_of_cons, IH1, IH2. split_and!; [naive_solver|naive_solver|done].
Qed.

(** The two steps that put the entries back. *)
Lemma restore_entries items s0 s1 r s2 : (items <> [] -> sup s1 = true) -> Z.of_nat (length items) <= 255 ->
  Forall (fun i => ti_oldSpmData i = padded <$> entry_at s0 (ti_tokenId i)) items ->
  (forall t d0 d, t ∈ toks_of items -> entry_at s0 t = Some d0 -> entry_at s1 t = Some d -> sd_uid d = sd_uid d0) ->
  (let '(entries, result, s) := collect_old items RET_SUCCESS s1 in
   if bool_decide (entries = []) then (result, s)
   else let '(ret, s) := RollbackSpmEntries entries s in (if negb (ret =? RET_SUCCESS) then ret else result, s)) = (r, s2) ->
  frame (toks_of items) s1 s2 /\
  (clean s1 s2 -> (forall t, t ∈ toks_of items -> option_Forall2 spm_eqv (entry_at s0 t) (entry_at s2 t)) /\
     forall t c, 0 <= c -> bit_at s2 t c = bit_at s1 t c).
Proof.
  intros Hsup Hlen Hload Huid. pose proof (old_split items s0 Hload) as Hsplit.
  unfold collect_old. set (gone := filter _ items). set (entries := omap ti_oldSpmData items) in *.
  destruct (rollback_entries gone RET_SUCCESS s1) as [r1 sa] eqn:R1. apply rollback_entries_spec in R1 as [F1 C1].
  2: { intros Hne. apply Hsup. intros ->. by apply Hne. }
  assert (forall t, t ∈ toks_of gone -> t ∈ toks_of items) as Hg by (intros t Ht; by apply (proj1 (Hsplit t)) in Ht as [? _]).
  assert (frame (toks_of items) s1 sa) as F1' by (eapply frame_weaken; [|exact F1]; exact Hg).
  assert (Z.of_nat (length entries) <= 255) as Hel by (pose proof (omap_short ti_oldSpmData items); unfold entries; lia).
  case_bool_decide as Hempty.
  { intros [= _ <-]. split; [done|]. intros Hc. destruct (C1 Hc) as [E1 B1]. split; [|done]. intros t Ht. rewrite E1.
    destruct (Hsplit t) as (G1 & G2 & _). rewrite Hempty in G2. destruct (entry_at s0 t) as [d|] eqn:Et.
    - exfalso. apply (not_elem_of_nil t), G2. done.
    - rewrite bool_decide_eq_true_2 by by apply G1. constructor. }
  unfold RollbackSpmEntries. destruct (SetSpmEntriesToKernel entries (kn_dev sa)) as [[e idx] k] eqn:Sk. intros Hs2.
  destruct (Hsplit 0) as (_ & _ & Hent). apply SetEntries_done in Sk; [|split; [done|]; eapply Forall_impl; [exact Hent|]; by intros d [_ ?]].
  destruct Sk as [[B1 B2] B3 [B4 _] _].
  assert (forall t, t ∉ toks_of items -> entry_at (set_dev k sa) t = entry_at sa t) as Hout.
  { intros t Ht. unfold entry_at. cbn. rewrite B4. apply written_out. intros Hk. apply Ht. apply (proj1 (proj2 (Hsplit t))).
    unfold keys in *. rewrite <- firstn_map in Hk. eapply elem_of_sublist; [exact Hk|apply sublist_take]. }
  assert (frame (toks_of items) sa (set_dev k sa)) as F2.
  { split; [done|unfold cache_ok, sup; cbn; by rewrite B2|by apply grows_same|]. intros t Ht. split; [by apply Hout|]. intros c _. unfold bit_at. cbn. by rewrite B1. }
  destruct (Z.eqb_spec e RET_SUCCESS) as [->|He].
  - injection Hs2 as _ <-. split; [by eapply frame_trans|]. intros [Hc _]%(clean_split s1 sa); [|apply F1|apply F2].
    destruct (C1 Hc) as [E1 Bs]. split; [|intros t c Hpos; unfold bit_at; cbn; rewrite B1; by apply Bs]. intros t Ht.
    unfold done_count in B4. cbn in B4. rewrite take_ge in B4 by done. destruct (Hsplit t) as (G1 & G2 & _).
    assert (entry_at (set_dev k sa) t = (padded <$> spm_entries (kn_dev s0)) !! t) as ->.
    { destruct (decide (t ∈ keys entries)) as [Hin|Hn].
      - unfold entry_at. cbn. rewrite B4. apply set_back; [eapply Forall_impl; [exact Hent|]; by intros d [? _]| |done].
        intros t' d0 d Hk. rewrite lookup_fmap. intros (d1 & Hd1 & ->)%fmap_Some_1 Hd. change (entry_at sa t' = Some d) in Hd. rewrite E1 in Hd.
        case_bool_decide; [done|]. eapply (Huid t' d1 d); [|done|done]. by apply (proj1 (proj2 (Hsplit t'))).
      - unfold entry_at. cbn. rewrite B4, written_out by done. change (entry_at sa t = (padded <$> spm_entries (kn_dev s0)) !! t).
        assert (entry_at s0 t = None) as Hnone by (destruct (entry_at s0 t) eqn:E0; [|done]; exfalso; by apply Hn, G2).
        rewrite E1, bool_decide_eq_true_2 by by apply G1. rewrite lookup_fmap. unfold entry_at in Hnone. by rewrite Hnone. }
    rewrite lookup_fmap. unfold entry_at. destruct (spm_entries (kn_dev s0) !! t); constructor. apply padded_eqv.
  - assert (idx <? Z.of_nat (length entries) = true) as Hlt by (apply Z.ltb_lt; by apply B3).
    destruct (Z.eqb_spec e RET_SUCCESS); [done|]. rewrite Hlt in Hs2. cbn in Hs2. destruct (negb (e =? RET_SUCCESS)) in Hs2; injection Hs2 as _ <-.
    all: split; [eapply frame_trans; [exact F1'|]; eapply frame_trans; [exact F2|apply frame_report]|].
    all: intros Hc; exfalso; apply (clean_split s1 sa) in Hc as [_ Hc]; [|apply F1|eapply grows_trans; [apply F2|by eexists]].
    all: by apply (not_clean sa (ReportSysCommonEventError KERNEL_SPM_DATA_ROLLBACK e (set_dev k sa)) _ KERNEL_SPM_DATA_ROLLBACK e eq_refl eq_refl (grows_refl _) Hc).
Qed.

(** Putting the bits of the items back to those of [s0]. *)
Lemma restore_bits_spec wp items s0 s r s' : wp = true -> Forall (old_known wp s0) items ->
  each_item restore_item KERNEL_PERM_DATA_ROLLBACK items RET_SUCCESS s = (r, s') ->
  frame (toks_of items) s s' /\
  (clean s s' -> (forall t, entry_at s' t = entry_at s t) /\
     forall t c, 0 <= c -> bit_at s' t c = if bool_decide (t ∈ toks_of items) then bit_at s0 t c else bit_at s t c).
Proof.
  intros Hwp Hk L. apply (each_item_spec ti_tokenId _ _ _ false (fun _ => id) (fun t c _ => bit_at s0 t c)) in L as [F C]; [|done..| |done].
  - split; [done|]. intros Hc. destruct (C Hc) as [E B]. split; [|done]. intros t. rewrite E. by case_bool_decide.
  - intros i Hi. destruct (proj1 (Forall_forall _ _) Hk i Hi) as [Hc Hb]. specialize (Hb Hwp). unfold restore_item, old_codes in *.
    destruct (ti_oldPermBriefDataList i) as [old|]; cbn [default] in *.
    + eapply acts_ext; [|by apply acts_add_bits]. intros c b Hpos. by rewrite Hb.
    + eapply acts_ext; [|apply acts_remove_bits]. intros c b Hpos. rewrite Hb by done. by rewrite bool_decide_eq_false_2 by apply not_elem_of_nil.
Qed.

Lemma update_undo items b wp n m s0 s : upd_state items wp n m s0 s ->
  undo_ok (toks_of items) (fun s => (Update_Rollback (mkSpmDataTask items b wp n m) s).2) s0 s.
Proof.
  intros [Hn Hm Hlen Hsup Hload Huid Hold Hknown Hwp Hbits] s1 Hs1 Es1. unfold Update_Rollback.
  cbn [items_ spmDataSuccessCount_ permDataSuccessCount_]. rewrite !Nat.min_l by done.
  destruct (let '(entries, result, s) := collect_old (take n items) RET_SUCCESS s1 in
    if bool_decide (entries = []) then (result, s)
    else let '(ret, s) := RollbackSpmEntries entries s in (if negb (ret =? RET_SUCCESS) then ret else result, s)) as [r2 s2] eqn:R2.
  assert (frame (toks_of (take n items)) s1 s2 /\
    (clean s1 s2 -> (forall t, t ∈ toks_of (take n items) -> option_Forall2 spm_eqv (entry_at s0 t) (entry_at s2 t)) /\
       forall t c, 0 <= c -> bit_at s2 t c = bit_at s1 t c)) as [F2 C2].
  { eapply restore_entries; [..|exact R2].
    - intros Hne. rewrite Es1. apply Hsup. intros ->. by apply Hne.
    - rewrite length_take. lia.
    - destruct n; [constructor|]. apply Forall_take, Hload. done.
    - intros t d0 d Ht E0 E1. destruct (Hs1 t) as [E _]; [by eapply toks_take|]. rewrite E in E1. by eapply Huid. }
  revert R2. destruct (collect_old (take n items) RET_SUCCESS s1) as [[entries result] sa]. intros ->.
  unfold RollbackPermData. destruct (each_item _ _ (take m items) _ s2) as [r3 s3] eqn:R3. cbn [snd].
  assert (frame (toks_of (take m items)) s2 s3 /\ (clean s2 s3 -> (forall t, entry_at s3 t = entry_at s2 t) /\
     forall t c, 0 <= c -> bit_at s3 t c = if bool_decide (t ∈ toks_of (take m items)) then bit_at s0 t c else bit_at s2 t c)) as [F3 C3].
  { destruct (decide (m = 0%nat)) as [->|Hm0]; [|apply (restore_bits_spec wp _ s0) in R3; auto using Forall_take].
    injection R3 as _ <-. split; [apply frame_refl|]. intros _. split; [done|]. intros t c _. by rewrite bool_decide_eq_false_2 by apply not_elem_of_nil. }
  assert (frame (toks_of items) s1 s2 /\ frame (toks_of items) s2 s3) as [F2' F3'].
  { split; (eapply frame_weaken; [|done]); intros t; apply toks_take. }
  split; [by eapply frame_trans|]. intros [Hc2 Hc3]%(clean_split s1 s2); [|apply F2|apply F3].
  destruct (C2 Hc2) as [E2 B2]. destruct (C3 Hc3) as [E3 B3]. intros t Ht. destruct (Hs1 t Ht) as [E1 B1]. split.
  - rewrite E3. destruct (decide (t ∈ toks_of (take n items))) as [Hin|Hout]; [by apply E2|].
    destruct (fr_out _ _ _ F2 t Hout) as [-> _]. rewrite E1, Hold by done. apply option_eqv_refl.
  - intros c Hpos. rewrite B3 by done. case_bool_decide as Hin; [done|]. rewrite B2, B1 by done. by apply Hbits.
Qed.

(** Nothing visible changes. *)
Definition unchanged s s' : Prop := frame [] s s' /\ forall t, same_at t s s'.

Lemma unchanged_refl s : unchanged s s.
Proof. split; [apply frame_refl|intros; apply same_at_refl]. Qed.
Lemma unchanged_trans s1 s2 s3 : unchanged s1 s2 -> unchanged s2 s3 -> unchanged s1 s3.
Proof. intros [F1 S1] [F2 S2]. split; [by eapply frame_trans|intros; by eapply same_at_trans]. Qed.
Lemma unchanged_frame toks s s' : unchanged s s' -> frame toks s s'.
Proof. intros [F _]. eapply frame_weaken; [|exact F]. set_solver. Qed.

Lemma load_code t (k k' : K) e : LoadSpmDataFromKernel t k = (inl e, k') -> e <> RET_SUCCESS.
Proof.
  unfold LoadSpmDataFromKernel. destruct (SpmGetEntry _ _ _) as [[r|d] k1]; [|done].
  destruct (r =? ENOTSUP); [by intros [= <- _]|]. destruct (r =? ENODATA); by intros [= <- _].
Qed.

Lemma load_step t s r s' : on_dev (LoadSpmDataFromKernel t) s = (r, s') -> unchanged s s' /\ kn_reports s' = kn_reports s /\
  (forall d, r = inr d -> Some d = padded <$> entry_at s t) /\ (r = inl ERR_NO_DATA_FROM_KERNEL -> entry_at s t = None) /\
  (forall e, r = inl e -> e <> RET_SUCCESS).
Proof.
  unfold on_dev. destruct (LoadSpmDataFromKernel t (kn_dev s)) as [r1 k] eqn:L.
  assert (forall e, r1 = inl e -> e <> RET_SUCCESS) as Hcode by (intros e ->; by eapply load_code). apply Load_done in L as ([B1 B2] & E & Hd & Hn).
  intros [= <- <-].
  assert (forall t', same_at t' s (set_dev k s)) as Hsame by (intros t'; unfold same_at, entry_at, bit_at; cbn; by rewrite E, B1).
  split_and!; [split; [|done]|done| |done|done].
  - split; [done|unfold cache_ok, sup; cbn; by rewrite B2|by apply grows_same|auto].
  - intros d Ed. destruct (Hd d Ed) as (d0 & E0 & -> & _). unfold entry_at. by rewrite E0.
Qed.

Definition loaded s (i : SpmDataTaskItem) : SpmDataTaskItem := set_oldSpmData (padded <$> entry_at s (ti_tokenId i)) i.

Lemma load_old_spec items : forall s ret items' s', load_old items s = (ret, items', s') ->
  unchanged s s' /\ (ret = RET_SUCCESS -> items' = map (loaded s) items).
Proof.
  induction items as [|i items IH]; intros s ret items' s'; cbn [load_old]; [intros [= <- <- <-]; split; [apply unchanged_refl|done]|].
  destruct (on_dev _ s) as [r s1] eqn:L. apply load_step in L as (U1 & R1 & Hd & Hn & Hcode).
  assert (forall o ret items' s', o = padded <$> entry_at s (ti_tokenId i) ->
    (let '(ret, rest, s) := load_old items s1 in (ret, set_oldSpmData o i :: rest, s)) = (ret, items', s') ->
    unchanged s s' /\ (ret = RET_SUCCESS -> items' = map (loaded s) (i :: items))) as Hnext.
  { clear ret items' s'. intros o ret items' s' -> E. destruct (load_old items s1) as [[ret2 rest] s2] eqn:L. injection E as <- <- <-.
    apply IH in L as [U2 Hi]. split; [by eapply unchanged_trans|]. intros Er. cbn [map]. unfold loaded at 1. f_equal. rewrite (Hi Er). apply map_ext.
    intros j. unfold loaded. f_equal. f_equal. apply U1. }
  destruct r as [e|old]; [|intros E; eapply Hnext; [|exact E]; by apply Hd].
  destruct (Z.eqb_spec e ERR_NO_DATA_FROM_KERNEL) as [->|He]; [intros E; eapply Hnext; [|exact E]; by rewrite Hn|].
  intros [= <- <- <-]. split; [done|]. intros ->. by destruct (Hcode RET_SUCCESS).
Qed.

Lemma toks_loaded s items : toks_of (map (loaded s) items) = toks_of items.
Proof. unfold toks_of. by rewrite map_map. Qed.

Lemma loaded_ok s items : items_ok items -> items_ok (map (loaded s) items).
Proof. intros [H1 H2]. split; [by apply Forall_map|by rewrite length_map]. Qed.

Lemma update_failed items b wp n m s0 s r task s' ret rb : upd_state items wp n m s0 s -> frame (toks_of items) s0 s -> ret <> RET_SUCCESS ->
  Update_Rollback (mkSpmDataTask items b wp n m) s = (r, task, s') -> staged (toks_of items) ret rb s0 s'.
Proof.
  intros H F Hr E. pose proof (update_undo items b wp n m s0 s H) as U.
  pose proof (staged_undone (toks_of items) ret _ rb s0 s Hr F (fun _ => U)) as St. cbn beta in St. rewrite E in St. apply St. intros s2 <-.
  destruct (U s) as [Fs _]; [intros; apply same_at_refl|done|]. cbn beta in Fs. by rewrite E in Fs.
Qed.

(** The entries of all items, or of those before the one that failed. *)
Lemma update_entries items wp s0 s e idx k : items_ok items -> Forall (old_known wp s0) items -> unchanged s0 s -> sup s = true ->
  Forall (fun i => ti_oldSpmData i = padded <$> entry_at s0 (ti_tokenId i)) items ->
  batch_done ERR_DATA_CONFLICT_WITH_KERNEL SET_SPM_ENTRIES (map ti_newSpmData items) (kn_dev s) e idx k ->
  let n := if e =? RET_SUCCESS then length items else Nat.min (Z.to_nat idx) (length items) in
  upd_state items wp n 0 s0 (set_dev k s) /\ frame (toks_of items) s0 (set_dev k s).
Proof.
  intros Hi Hk U Hsup Hload B n. destruct (send_items _ _ _ _ _ _ Hi B) as (F1 & _ & Hn & Hb & [Ew _] & Hout). fold n in Hn, Ew, Hout.
  split; [|eapply frame_trans; [by apply unchanged_frame|done]]. destruct U as [_ Hs].
  split; [done|lia|apply Hi|intros _; by rewrite (fr_sup _ _ _ F1)|done| | |done|done|].
  - intros t d0 d E0 E1. destruct (Hs t) as [Es _]. rewrite <- Es in E0. unfold entry_at in E0, E1. cbn in E1. rewrite Ew in E1. by eapply set_uid.
  - intros t Ht. rewrite (Hout t Ht). apply Hs.
  - intros t c _ Hc. rewrite Hb. by apply Hs.
Qed.

Lemma Update_staged (t t' : SpmDataTask) s ret i s' : items_ok (items_ t) -> cache_ok s ->
  permDataSuccessCount_ t = 0%nat -> spmDataSuccessCount_ t = 0%nat ->
  Forall (old_known (updateWithPerm_ t) s) (items_ t) ->
  Update t s = (ret, i, t', s') -> staged (toks_of (items_ t)) ret (fun s => (Update_Rollback t' s).2) s s'.
Proof.
  destruct t as [items b wp n0 m0]. cbn [items_ updateWithPerm_ permDataSuccessCount_ spmDataSuccessCount_]. intros Hi Hok -> -> Hk.
  unfold Update, LoadOldSpmDataForItems. cbn [isBuildSuccess_ items_].
  destruct b; cbn [negb]; [|intros [= <- <- <- <-]; by apply staged_nothing].
  destruct (CheckSpmSupport s) as [sp s1] eqn:Cs. apply check_support in Cs as (F0 & _ & Hsp & Hsame); [|done].
  assert (unchanged s s1) as U1 by by split.
  destruct (if negb sp then _ else _) as [[[r1 sp1] items1] s2] eqn:L.
  assert (unchanged s s2 /\ sp1 = sp /\ (r1 = RET_SUCCESS -> items1 = if sp then map (loaded s) items else items)) as (U2 & -> & Hits).
  { destruct sp; cbn [negb] in L; [|injection L as <- <- <- <-; done]. destruct (load_old items s1) as [[r2 its] s3] eqn:Lo.
    injection L as <- <- <- <-. apply load_old_spec in Lo as [U3 Hl]. split_and!; [by eapply unchanged_trans|done|]. intros Er. rewrite (Hl Er).
    apply map_ext. intros j. unfold loaded. f_equal. f_equal. apply Hsame. }
  cbn [set_task_items items_ updateWithPerm_ spmDataSuccessCount_ permDataSuccessCount_ isBuildSuccess_].
  destruct (Z.eqb_spec r1 RET_SUCCESS) as [->|Hr1]; cbn [negb].
  2: { intros [= <- <- <- <-]. split; [by apply unchanged_frame|]. intros _. rewrite (proj2 (Z.eqb_neq _ _) Hr1). intros t _. apply same_like, U2. }
  specialize (Hits eq_refl). assert (toks_of items1 = toks_of items) as Etok by (rewrite Hits; destruct sp; [apply toks_loaded|done]).
  assert (items_ok items1) as Hi1 by (rewrite Hits; destruct sp; [by apply loaded_ok|done]).
  assert (Forall (old_known wp s) items1) as Hk1 by (rewrite Hits; destruct sp; [by apply Forall_map|done]).
  rewrite <- Etok. assert (upd_state items1 wp 0 0 s s2) as H0.
  { split; [lia|lia|apply Hi1|done|done| | |done|done|].
    - intros t d0 d E0. destruct (proj2 U2 t) as [-> _]. rewrite E0. by intros [= ->].
    - intros t _. apply U2.
    - intros t c _ Hc. by apply U2. }
  match goal with |- context [if sp then ?a else ?b] => destruct (if sp then a else b) as [[[r3 i3] t3] s3] eqn:M end.
  assert ((r3 <> RET_SUCCESS -> forall rb, staged (toks_of items1) r3 rb s s3) /\
    (r3 = RET_SUCCESS -> exists n, t3 = mkSpmDataTask items1 true wp n 0 /\ upd_state items1 wp n 0 s s3 /\ frame (toks_of items1) s s3)) as [Hbad Hgood].
  { destruct sp; [|injection M as <- <- <- <-; split; [done|]; intros _; exists 0%nat; split_and!; [done|done|by apply unchanged_frame]].
    unfold SetNewSpmDataToKernel in M. destruct (SetSpmEntriesToKernel _ _) as [[e idx] k] eqn:A.
    apply SetEntries_done in A; [|by apply items_sendable]. rewrite length_map in M.
    apply (update_entries items1 wp s s2) in A as [A1 A2]; [|done..| |].
    - destruct (Z.eqb_spec e RET_SUCCESS) as [->|He]; cbn [negb] in M.
      + cbn in M. injection M as <- <- <- <-. split; [done|]. intros _. by exists (length items1).
      + destruct (Z.eqb_spec e RET_SUCCESS); [done|]. cbn [negb set_counts items_ isBuildSuccess_ updateWithPerm_ permDataSuccessCount_] in M.
        destruct (Update_Rollback _ (set_dev k s2)) as [[r2 t2] s4] eqn:R. injection M as <- <- <- <-. split; [|done].
        intros _ rb. by eapply update_failed.
    - rewrite (fr_sup _ _ _ (proj1 U2)), <- (fr_sup _ _ _ F0). auto.
    - rewrite Hits. apply Forall_map, Forall_forall. by intros j _. }
  destruct (Z.eqb_spec r3 RET_SUCCESS) as [->|Hr]; cbn [negb]; [|intros [= <- <- <- <-]; by apply Hbad].
  destruct (Hgood eq_refl) as (n & -> & Hst & Fs). cbn [updateWithPerm_ items_].
  destruct wp; cbn [negb]; [|intros [= <- <- <- <-]; split; [done|]; intros _; by apply update_undo].
  unfold UpdatePermData. destruct (AddPermDataToKernel_loop items1 0 i3 s3) as [[[r4 cnt] i4] s4] eqn:Lp.
  apply add_perm_spec in Lp as (j & Hj & -> & Hjr & Fj & Rj & Ej & Bj); [|eapply Forall_impl; [apply Hi1|]; by intros ? (_ & _ & ?)].
  assert (upd_state items1 true n j s s4 /\ frame (toks_of items1) s s4) as [H4 F4].
  { split; [|by eapply frame_trans]. destruct Hst as [S1 S2 S3 S4 S5 S6 S7 S8 S9 S10]. split; [done|done|done| |done| | |done|done|].
    - intros Hn. rewrite (fr_sup _ _ _ Fj). auto.
    - intros t d0 d E0. rewrite Ej. eauto.
    - intros t Ht. rewrite Ej. auto.
    - intros t c Ht Hc. rewrite Bj by auto. apply S10; [|done]. apply not_elem_of_nil. }
  cbn [spmDataSuccessCount_ set_counts items_ isBuildSuccess_ updateWithPerm_ Nat.add].
  destruct (Z.eqb_spec r4 RET_SUCCESS) as [->|Hr4]; cbn [negb].
  - intros [= <- <- <- <-]. split; [done|]. intros _. by apply update_undo.
  - destruct (Update_Rollback _ s4) as [[r5 t5] s5] eqn:R. intros [= <- <- <- <-]. by eapply update_failed.
Qed.
End Tasks.
