(* ===== verification/SpmUndoRemove.v ===== *)
(** * The removal can be undone *)

From stdpp Require Import base gmap list strings.
From S2P Require Import Prelude AccessTokenTypes PermissionMap PermissionDataBrief Kernel HapTokenInfo Spm SpmTheory SpmTasks SpmTaskTheory SpmUndo.
#[local] Open Scope list_scope.
#[local] Open Scope Z_scope.
#[local] Open Scope cxx_scope.

(** Adding entries of [m0] puts them there. *)
Lemma added_back (m0 : gmap Z SpmData) l : Forall (fun d => m0 !! sd_tokenid d = Some d) l -> forall m t, t ∈ keys l ->
  fold_left (write_entry ADD_SPM_ENTRIES) l m !! t = m0 !! t.
Proof.
  induction 1 as [|d l Hd Hl IH]; intros m t; cbn [fold_left keys map]; [by intros ?%not_elem_of_nil|].
  destruct (decide (t ∈ keys l)) as [Hin|Hn]; [intros _; by apply IH|]. intros [->|?]%elem_of_cons; [|done].
  by rewrite written_out, write_entry_lookup, decide_True by done.
Qed.

Section Remove.
Context {K : Type} `{!TokenDevice K} `{!TokenDeviceLaws K} `{!SpmDevice K} `{!SpmLaws K} `{!DeviceReopens K}.
Implicit Types (s : Kern K) (t c : Z) (toks : list Z).

Lemma keys_take n l t : t ∈ keys (take n l) -> t ∈ keys l.
Proof. unfold keys. rewrite <- firstn_map. intros H. eapply elem_of_sublist; [exact H|apply sublist_take]. Qed.

(** One attempt to add the entries of [l]. *)
Lemma add_attempt l s e idx k : sendable l -> AddSpmEntriesToKernel l (kn_dev s) = (e, idx, k) ->
  let n := done_count e idx l in
  frame (keys l) s (set_dev k s) /\ (forall t c, bit_at (set_dev k s) t c = bit_at s t c) /\
  spm_entries k = fold_left (write_entry ADD_SPM_ENTRIES) (take n l) (spm_entries (kn_dev s)) /\
  (e <> 0 -> 0 <= idx < Z.of_nat (length l)) /\
  (e <> 0 -> e = ERR_DATA_CONFLICT_WITH_KERNEL -> exists d, l !! Z.to_nat idx = Some d /\ is_Some (spm_entries k !! sd_tokenid d)).
Proof.
  intros Hl A n. apply AddEntries_done in A as [[B1 B2] B3 [B4 _] B5]; [|done].
  assert (forall t c, bit_at (set_dev k s) t c = bit_at s t c) as Hb by (intros; unfold bit_at; cbn; by rewrite B1).
  split_and!; [|done|exact B4|done|done]. split; [done|unfold cache_ok, sup; cbn; by rewrite B2|by apply grows_same|].
  intros t Ht. split; [|by intros]. unfold entry_at. cbn. rewrite B4. apply written_out. by intros ?%keys_take.
Qed.

(** The loop of [RestoreSpmEntries]: the entries of [m0] come back, those already there are skipped. *)
Lemma restore_loop (m0 : gmap Z SpmData) fuel : forall l s r s', sendable l -> Forall (fun d => m0 !! sd_tokenid d = Some d) l ->
  (forall t, t ∈ keys l -> entry_at s t = None \/ entry_at s t = m0 !! t) ->
  RestoreSpmEntries_loop fuel l s = Some (r, s') ->
  frame (keys l) s s' /\ (clean s s' -> (forall t, t ∈ keys l -> entry_at s' t = m0 !! t) /\ forall t c, bit_at s' t c = bit_at s t c).
Proof.
  induction fuel as [|fuel IH]; intros l s r s' Hl Hm Hs; cbn [RestoreSpmEntries_loop]; destruct l as [|d0 l0]; [..|]; try done.
  1,2: intros [= <- <-]; split; [apply frame_refl|]; intros _; split; [by intros t ?%not_elem_of_nil|done].
  set (l := d0 :: l0) in *. destruct (AddSpmEntriesToKernel l (kn_dev s)) as [[e idx] k] eqn:A.
  apply add_attempt in A as (F1 & Hb & Ew & Hi & Hconf); [|done].
  destruct (Z.eqb_spec e RET_SUCCESS) as [->|He].
  { intros [= <- <-]. split; [done|]. intros _. split; [|done]. intros t Ht. unfold entry_at. cbn. rewrite Ew.
    unfold done_count. cbn [Z.eqb RET_SUCCESS]. rewrite take_ge by done. by apply added_back. }
  specialize (Hi He). destruct (_ && _) eqn:Econf.
  - apply andb_true_iff in Econf as [Ec%Z.eqb_eq _]. destruct (Hconf He Ec) as (d & Hd & Hsome). intros L.
    unfold done_count in Ew. rewrite (proj2 (Z.eqb_neq e 0) He) in Ew. replace (Z.to_nat (idx + 1)) with (S (Z.to_nat idx)) in L by lia.
    set (n := Z.to_nat idx) in *. pose proof (take_drop_middle l n d Hd) as El.
    assert (forall t, entry_at (set_dev k s) t = if decide (t ∈ keys (take n l)) then m0 !! t else entry_at s t) as E1.
    { intros t. unfold entry_at. cbn. rewrite Ew. destruct (decide _); [by apply added_back; [apply Forall_take|]|by apply written_out]. }
    assert (forall t, t ∈ keys (drop (S n) l) -> t ∈ keys l) as Hdrop.
    { intros t. unfold keys. rewrite <- skipn_map. intros H. eapply elem_of_sublist; [exact H|apply sublist_drop]. }
    apply IH in L as [F2 C2]; [|by apply sendable_drop|by apply Forall_drop|].
    2: { intros t Ht. rewrite E1. destruct (decide _); [by right|]. apply Hs, Hdrop, Ht. }
    assert (frame (keys l) (set_dev k s) s') as F2' by (eapply frame_weaken; [|exact F2]; exact Hdrop).
    split; [by eapply frame_trans|]. intros [_ Hc]%(clean_split s (set_dev k s)); [|apply F1|apply F2]. destruct (C2 Hc) as [E2 B2].
    split; [|intros t c; by rewrite B2, Hb]. intros t Ht. destruct (decide (t ∈ keys (drop (S n) l))) as [Hin|Hn]; [by apply E2|].
    destruct (fr_out _ _ _ F2 t Hn) as [-> _]. rewrite E1. destruct (decide (t ∈ keys (take n l))) as [|Hn2]; [done|].
    assert (t = sd_tokenid d) as ->.
    { rewrite <- El in Ht. unfold keys in *. rewrite map_app in Ht. cbn in Ht. apply elem_of_app in Ht as [Ht|[Ht|Ht]%elem_of_cons]; done. }
    destruct (Hs (sd_tokenid d) Ht) as [Hnone|]; [|done]. exfalso. specialize (E1 (sd_tokenid d)). rewrite decide_False, Hnone in E1 by done.
    unfold entry_at in E1. cbn in E1. rewrite E1 in Hsome. by destruct Hsome.
  - intros [= <- <-]. split; [eapply frame_trans; [exact F1|apply frame_report]|]. intros Hc. exfalso.
    by apply (not_clean s (ReportSysCommonEventError KERNEL_SPM_DATA_ROLLBACK e (set_dev k s)) _ KERNEL_SPM_DATA_ROLLBACK e eq_refl eq_refl (grows_refl _) Hc).
Qed.

(** The reported index is a byte. *)
Lemma batch_index cmd l cnt idx0 (k k' : K) e idx : 0 <= idx0 -> SpmBatchEntries cmd l cnt idx0 k = (e, idx, k') -> 0 <= idx.
Proof.
  intros H0. unfold SpmBatchEntries. split_if; [by intros [= _ <- _]|]. split_if; [by intros [= _ <- _]|].
  destruct (dev_open k) as [ok k1]. split_if; [by intros [= _ <- _]|].
  assert (forall fuel sub k r, SpmBatchEntries_loop fuel cmd l cnt sub idx0 k = Some r -> 0 <= r.1.2) as Hloop.
  { induction fuel as [|fuel IH]; intros sub k2 r; cbn [SpmBatchEntries_loop]; (split_if; [by intros [= <-]|]); [done|].
    destruct (SpmSubmitBatch _ _ _) as [[e1 i1] k3]. split_if; [|apply IH]. intros [= <-]. cbn. unfold u8. by apply Z.mod_pos_bound. }
  destruct (SpmBatchEntries_loop _ _ _ _ _ _ _) as [[[e1 i1] k3]|] eqn:L; cbn [default]; intros [= <- <- <-]; [by apply Hloop in L|done].
Qed.

Lemma add_index l (k k' : K) e idx : AddSpmEntriesToKernel l k = (e, idx, k') -> 0 <= idx.
Proof.
  unfold AddSpmEntriesToKernel. destruct (SpmAddEntries l _ 0 k) as [[e1 i1] k1] eqn:A1. apply batch_index in A1; [|done].
  do 4 (split_if; [by intros [= _ <- _]|]). destruct (SpmAddEntries _ _ i1 k1) as [[e2 i2] k2] eqn:A2. apply batch_index in A2; [|done].
  split_if; intros [= _ <- _]; [done|]. unfold u8. by apply Z.mod_pos_bound.
Qed.

(** Every round leaves at least one entry behind. *)
Lemma restore_ends fuel : forall l s, (length l <= fuel)%nat -> is_Some (RestoreSpmEntries_loop (K := K) fuel l s).
Proof.
  induction fuel as [|fuel IH]; intros l s Hf; destruct l as [|d l]; cbn [RestoreSpmEntries_loop]; try by eexists.
  { cbn in Hf. lia. }
  destruct (AddSpmEntriesToKernel _ _) as [[e idx] k] eqn:A. apply add_index in A. destruct (e =? RET_SUCCESS); [by eexists|].
  destruct (_ && _); [|by eexists]. apply IH. rewrite length_drop. cbn [length] in *. lia.
Qed.

Lemma restore_spec (m0 : gmap Z SpmData) l s r s' : sendable l -> Forall (fun d => m0 !! sd_tokenid d = Some d) l ->
  (forall t, t ∈ keys l -> entry_at s t = None \/ entry_at s t = m0 !! t) -> RestoreSpmEntries l s = (r, s') ->
  frame (keys l) s s' /\ (clean s s' -> (forall t, t ∈ keys l -> entry_at s' t = m0 !! t) /\ forall t c, bit_at s' t c = bit_at s t c).
Proof.
  intros H1 H2 H3 R. unfold RestoreSpmEntries in R. destruct (restore_ends (length l) l s) as [[r1 s1] L]; [done|].
  rewrite L in R. cbn in R. injection R as <- <-. by eapply restore_loop.
Qed.

(** ** Items to remove. *)
Definition r_toks (items : list RemoveItem) : list Z := map ri_tokenId items.

(** What the caller says of the bits before the removal. *)
Definition r_known s (i : RemoveItem) : Prop :=
  codes_ok (default [] (ri_oldPermBriefDataList i)) /\
  forall c, 0 <= c -> bit_at s (ri_tokenId i) c = bool_decide (c ∈ granted_codes (default [] (ri_oldPermBriefDataList i))).

(** The tokens whose bits, and whose entries, were removed. *)
Definition bits_gone (items : list RemoveItem) : list Z := r_toks (filter (fun i => ri_permRemoved i = true) items).
Definition entries_gone (items : list RemoveItem) : list Z := r_toks (filter (fun i => ri_spmEntryRemoved i = true) items).

Lemma gone_toks (P : RemoveItem -> Prop) `{!forall i, Decision (P i)} items t : t ∈ r_toks (filter P items) -> t ∈ r_toks items.
Proof. intros Ht. eapply elem_of_sublist; [exact Ht|]. apply (fmap_sublist ri_tokenId), sublist_filter. Qed.

(** [s] is [s0] without the entries and the bits that are marked. *)
Record rem_state items s0 s : Prop := {
  rs_len : Z.of_nat (length items) <= 255;
  rs_loaded : Forall (fun i => ri_spmEntryRemoved i = true -> ri_oldSpmData i = padded <$> entry_at s0 (ri_tokenId i)) items;
  rs_known : Forall (r_known s0) items;
  rs_entry t : entry_at s t = if bool_decide (t ∈ entries_gone items) then None else entry_at s0 t;
  rs_bits t c : 0 <= c -> bit_at s t c = if bool_decide (t ∈ bits_gone items) then false else bit_at s0 t c;
}.

(** The second phase does to the kernel what [each_item] does on the items it handles. *)
Definition restored_bits (items : list RemoveItem) : list RemoveItem :=
  filter (fun i => ri_permRemoved i = true /\ default [] (ri_oldPermBriefDataList i) <> []) items.
Definition add_old (i : RemoveItem) (k : K) : Z * K := AddHapPermToKernel_brief k (ri_tokenId i) (default [] (ri_oldPermBriefDataList i)).

Lemma restore_bits_each items : forall r r' s,
  (restore_bits items r s).2 = (each_item add_old KERNEL_PERM_DATA_ROLLBACK (restored_bits items) r' s).2.
Proof.
  induction items as [|i items IH]; intros r r' s; cbn [restore_bits]; [done|]. unfold restored_bits. rewrite filter_cons.
  destruct (ri_permRemoved i) eqn:Ep; cbn [negb]; [|rewrite decide_False by naive_solver; apply IH].
  unfold RestorePermCodes. destruct (ri_oldPermBriefDataList i) as [[|d old]|] eqn:Eo; cbn [default].
  1,3: rewrite decide_False by naive_solver; apply IH.
  rewrite decide_True by done. cbn [each_item]. unfold add_old at 1. rewrite Eo. cbn [default].
  destruct (on_dev _ s) as [e s1]. destruct (negb (e =? RET_SUCCESS)); apply IH.
Qed.

Lemma elem_of_r_toks (P : RemoveItem -> Prop) `{!forall i, Decision (P i)} items t :
  t ∈ r_toks (filter P items) <-> exists i, i ∈ items /\ P i /\ ri_tokenId i = t.
Proof.
  unfold r_toks. rewrite list_elem_of_fmap. setoid_rewrite list_elem_of_filter. split.
  - intros (i & -> & Hp & Hi). by exists i.
  - intros (i & Hi & Hp & <-). by exists i.
Qed.

Lemma elem_of_rev {A} (l : list A) x : x ∈ rev l <-> x ∈ l.
Proof. by rewrite !list_elem_of_In, <- in_rev. Qed.

(** The entries to restore. *)
Definition captured (items : list RemoveItem) : list SpmData :=
  omap (fun item => if ri_spmEntryRemoved item then ri_oldSpmData item else None) (rev items).

Lemma captured_spec items s0 :
  Forall (fun i => ri_spmEntryRemoved i = true -> ri_oldSpmData i = padded <$> entry_at s0 (ri_tokenId i)) items ->
  Forall (fun d => (padded <$> spm_entries (kn_dev s0)) !! sd_tokenid d = Some d /\ sd_name d <> []) (captured items) /\
  forall t, t ∈ keys (captured items) <-> t ∈ entries_gone items /\ entry_at s0 t <> None.
Proof.
  intros H. rewrite Forall_forall in H.
  assert (forall d, d ∈ captured items <-> exists i d0, i ∈ items /\ ri_spmEntryRemoved i = true /\ entry_at s0 (ri_tokenId i) = Some d0 /\
    d = padded d0 /\ sd_tokenid d = ri_tokenId i) as Hd.
  { intros d. unfold captured. rewrite list_elem_of_omap. setoid_rewrite elem_of_rev. split.
    - intros (i & Hi & E). destruct (ri_spmEntryRemoved i) eqn:Er; [|done]. rewrite (H i Hi Er) in E. apply fmap_Some_1 in E as (d0 & E0 & ->).
      exists i, d0. split_and!; try done. by apply (spm_key _ _ _ E0).
    - intros (i & d0 & Hi & Er & E0 & -> & _). exists i. split; [done|]. rewrite Er, (H i Hi Er), E0. done. }
  split.
  - apply Forall_forall. intros d (i & d0 & Hi & _ & E0 & -> & Ht)%Hd. rewrite Ht, lookup_fmap. unfold entry_at in E0. rewrite E0. split; [done|].
    intros Hn%(f_equal length). cbn in Hn. rewrite length_app, length_replicate in Hn. cbn in Hn. lia.
  - intros t. unfold keys, entries_gone. rewrite list_elem_of_fmap, elem_of_r_toks. split.
    + intros (d & -> & (i & d0 & Hi & Er & E0 & -> & Ht)%Hd). rewrite Ht. split; [by exists i|by rewrite E0].
    + intros [(i & Hi & Er & <-) Hn]. destruct (entry_at s0 (ri_tokenId i)) as [d0|] eqn:E0; [|done]. exists (padded d0).
      assert (sd_tokenid (padded d0) = ri_tokenId i) as Ek by apply (spm_key _ _ _ E0). split; [done|]. apply Hd. by exists i, d0.
Qed.

Lemma remove_undo items b sp s0 s : rem_state items s0 s ->
  undo_ok (r_toks items) (fun s => (Remove_Rollback (mkRemoveSpmDataTask items b sp) s).2) s0 s.
Proof.
  intros [Hlen Hload Hknown Hent Hbit] s1 Hs1 Es1. destruct (captured_spec items s0 Hload) as [Hcap Hkeys].
  unfold Remove_Rollback. cbn [r_items_]. fold (captured items).
  destruct (if bool_decide (captured items = []) then _ else _) as [r2 s2] eqn:R2.
  assert (forall t, t ∈ keys (captured items) -> t ∈ r_toks items) as Hk1 by (intros t [? _]%Hkeys; by eapply gone_toks).
  assert (frame (keys (captured items)) s1 s2 /\ (clean s1 s2 ->
    (forall t, t ∈ keys (captured items) -> entry_at s2 t = (padded <$> spm_entries (kn_dev s0)) !! t) /\ forall t c, bit_at s2 t c = bit_at s1 t c)) as [F2 C2].
  { case_bool_decide as Hempty; [injection R2 as _ <-; rewrite Hempty; split; [apply frame_refl|]; intros _; split; [by intros t ?%not_elem_of_nil|done]|].
    eapply restore_spec; [split|..|exact R2].
    - unfold captured. etrans; [|exact Hlen]. rewrite <- (length_rev items). pose proof (omap_short (fun item => if ri_spmEntryRemoved item then ri_oldSpmData item else None) (rev items)). lia.
    - eapply Forall_impl; [exact Hcap|]. by intros d [_ ?].
    - eapply Forall_impl; [exact Hcap|]. by intros d [? _].
    - intros t Ht. left. destruct (Hs1 t (Hk1 t Ht)) as [-> _]. rewrite Hent. apply Hkeys in Ht as [Ht _]. by rewrite bool_decide_eq_true_2. }
  clear R2. rewrite (restore_bits_each _ _ RET_SUCCESS). destruct (each_item add_old _ _ _ s2) as [r3 s3] eqn:R3. cbn [snd].
  apply (each_item_spec ri_tokenId _ _ _ false (fun _ => id) (fun t c _ => bit_at s0 t c)) in R3 as [F3 C3]; [|done..| |done].
  2: { intros i [_ Hi%(proj1 (elem_of_rev _ _))]%list_elem_of_filter. destruct (proj1 (Forall_forall _ _) Hknown i Hi) as [Hc Hb].
       eapply acts_ext; [|by apply acts_add_bits]. intros c x Hpos. by rewrite Hb. }
  change (map ri_tokenId (restored_bits (rev items))) with (r_toks (restored_bits (rev items))) in *.
  assert (forall t, t ∈ r_toks (restored_bits (rev items)) -> t ∈ r_toks items) as Hk2.
  { intros t (i & Hi%(proj1 (elem_of_rev _ _)) & _ & <-)%elem_of_r_toks. by apply list_elem_of_fmap_2. }
  assert (frame (r_toks items) s1 s2 /\ frame (r_toks items) s2 s3) as [F2' F3'] by (split; [by eapply frame_weaken, F2|by eapply frame_weaken, F3]).
  split; [by eapply frame_trans|]. intros [Hc2 Hc3]%(clean_split s1 s2); [|apply F2|apply F3].
  destruct (C2 Hc2) as [E2 B2]. destruct (C3 Hc3) as [E3 B3]. intros t Ht. destruct (Hs1 t Ht) as [E1 B1]. split.
  - assert (entry_at s3 t = entry_at s2 t) as -> by (rewrite E3; by destruct (bool_decide _)).
    destruct (decide (t ∈ keys (captured items))) as [Hin|Hn].
    + rewrite (E2 t Hin), lookup_fmap. unfold entry_at. destruct (spm_entries (kn_dev s0) !! t); constructor. apply padded_eqv.
    + destruct (fr_out _ _ _ F2 t Hn) as [-> _]. rewrite E1, Hent. case_bool_decide as Hg; [|apply option_eqv_refl].
      destruct (entry_at s0 t) eqn:E0; [|constructor]. exfalso. apply Hn, Hkeys. by rewrite E0.
  - intros c Hpos. rewrite B3, B2, B1, Hbit by done. case_bool_decide as Hr; [done|]. case_bool_decide as Hg; [|done].
    apply elem_of_r_toks in Hg as (i & Hi & Hp & <-). destruct (proj1 (Forall_forall _ _) Hknown i Hi) as [_ Hb]. rewrite Hb by done.
    destruct (decide (default [] (ri_oldPermBriefDataList i) = [])) as [->|Hne]; [symmetry; by apply bool_decide_eq_false_2, not_elem_of_nil|].
    exfalso. apply Hr, elem_of_r_toks. exists i. split_and!; [by apply elem_of_rev|done|done|done].
Qed.

(** What neither loading nor removing changes in an item. *)
Definition item_core (i : RemoveItem) : Z * option (list BriefPermData) := (ri_tokenId i, ri_oldPermBriefDataList i).
Definition unmarked (i : RemoveItem) : Prop := ri_permRemoved i = false /\ ri_spmEntryRemoved i = false.

Lemma core_toks items items' : map item_core items' = map item_core items -> r_toks items' = r_toks items.
Proof. intros E%(f_equal (map fst)). unfold r_toks. by rewrite !map_map in E. Qed.

Lemma core_known s items : forall items', map item_core items' = map item_core items -> Forall (r_known s) items -> Forall (r_known s) items'.
Proof.
  induction items as [|i items IH]; intros [|i' items']; cbn; intros E H; try done. injection E as E1 E2 E. apply Forall_cons in H as [Hi H].
  apply Forall_cons. split; [|by apply IH]. unfold r_known in *. by rewrite E1, E2.
Qed.

Lemma load_entries_spec items : forall s items' s', Forall unmarked items -> LoadOldSpmEntries_loop items s = (items', s') ->
  frame [] s s' /\ (forall t, same_at t s s') /\ map item_core items' = map item_core items /\ Forall unmarked items' /\
  (clean s s' -> Forall (fun i => ri_oldSpmData i = padded <$> entry_at s (ri_tokenId i)) items').
Proof.
  induction items as [|i items IH]; intros s items' s' Hu; cbn [LoadOldSpmEntries_loop].
  { intros [= <- <-]. split_and!; [apply frame_refl|intros; apply same_at_refl|done..]. }
  apply Forall_cons in Hu as [Hi Hu]. destruct (on_dev _ s) as [r s1] eqn:L. apply load_step in L as ([F1 S1] & R1 & Hd & Hn & _).
  destruct (match r with inl _ => _ | inr _ => _ end) as [old s2] eqn:E.
  assert (frame [] s s2 /\ (forall t, same_at t s s2) /\ (clean s s2 -> old = padded <$> entry_at s (ri_tokenId i))) as (F2 & S2 & Ho).
  { destruct r as [e|d]; injection E as <- <-.
    - destruct (Z.eqb_spec e ERR_NO_DATA_FROM_KERNEL) as [->|He]; [split_and!; [done..|by rewrite Hn]|].
      split_and!; [eapply frame_trans; [exact F1|apply frame_report]|exact S1|]. intros Hc. exfalso.
      apply (not_clean s (ReportSysCommonEventError KERNEL_SPM_DATA_LOAD e s1) _ KERNEL_SPM_DATA_LOAD e) in Hc; [done|cbn; by rewrite R1|done|apply grows_refl].
    - split_and!; [done..|]. intros _. by apply Hd. }
  destruct (LoadOldSpmEntries_loop items s2) as [rest s3] eqn:L. apply IH in L as (F3 & S3 & C3 & U3 & H3); [|done]. intros [= <- <-].
  split_and!; [by eapply frame_trans|intros t; eapply same_at_trans; [apply S2|apply S3]|cbn [map]; rewrite C3; reflexivity|by apply Forall_cons|].
  intros [Hc2 Hc3]%(clean_split s s2); [|apply F2|apply F3]. apply Forall_cons. split; [by apply Ho|].
  eapply Forall_impl; [by apply H3|]. intros j Ej. cbn in Ej. rewrite Ej. f_equal. apply S2.
Qed.

Lemma remove_one sp i s permRet s1 spmRet s2 : (sp = true -> sup s = true) ->
  on_dev (fun k => RemovePermFromKernel k (ri_tokenId i)) s = (permRet, s1) ->
  (if sp then on_dev (RemoveSpmEntryFromKernel (ri_tokenId i)) s1 else (RET_SUCCESS, s1)) = (spmRet, s2) ->
  frame [ri_tokenId i] s s2 /\
  (forall t, entry_at s2 t = if sp && (spmRet =? RET_SUCCESS) && (t =? ri_tokenId i) then None else entry_at s t) /\
  (forall t c, 0 <= c -> bit_at s2 t c = if (permRet =? RET_SUCCESS) && (t =? ri_tokenId i) then false else bit_at s t c).
Proof.
  intros Hs D1 D2. eapply (dev_step [ri_tokenId i]) in D1 as (F1 & _ & _ & E1 & B1); [|apply acts_remove_bits|done|by left].
  assert (forall t, entry_at s1 t = entry_at s t) as E1'.
  { intros t. rewrite E1. destruct (Z.eqb_spec t (ri_tokenId i)) as [->|]; [|by rewrite andb_false_r]. by destruct (permRet =? 0). }
  destruct sp.
  - eapply (dev_step [ri_tokenId i]) in D2 as (F2 & _ & _ & E2 & B2); [|apply acts_remove_entry|intros _; rewrite (fr_sup _ _ _ F1); auto|by left].
    split_and!; [by eapply frame_trans|intros t; by rewrite E2, !E1'|]. intros t c Hc. rewrite B2, !B1 by done. unfold RET_SUCCESS.
    destruct (spmRet =? 0), (permRet =? 0), (Z.eqb_spec t (ri_tokenId i)) as [->|]; cbn; by rewrite ?Z.eqb_refl.
  - injection D2 as <- <-. split_and!; [done|done|]. intros t c Hc. by rewrite B1.
Qed.

Lemma gone_cons (P : RemoveItem -> Prop) `{!forall i, Decision (P i)} i items t :
  t ∈ r_toks (filter P (i :: items)) <-> P i /\ t = ri_tokenId i \/ t ∈ r_toks (filter P items).
Proof. rewrite !elem_of_r_toks. setoid_rewrite elem_of_cons. naive_solver. Qed.

Lemma remove_loop_spec sp items : forall i0 err s items' err' s', Forall unmarked items -> (sp = true -> sup s = true) ->
  Remove_loop sp items i0 err s = (items', err', s') ->
  frame (r_toks items) s s' /\ map item_core items' = map item_core items /\ map ri_oldSpmData items' = map ri_oldSpmData items /\
  (sp = false -> Forall (fun i => ri_spmEntryRemoved i = false) items') /\
  (forall t, entry_at s' t = if bool_decide (t ∈ entries_gone items') then None else entry_at s t) /\
  (forall t c, 0 <= c -> bit_at s' t c = if bool_decide (t ∈ bits_gone items') then false else bit_at s t c).
Proof.
  induction items as [|i items IH]; intros i0 err s items' err' s' Hu Hs; cbn [Remove_loop].
  { intros [= <- <- <-]. split_and!; [apply frame_refl|done..]. }
  apply Forall_cons in Hu as [[Hp He] Hu]. destruct (on_dev _ s) as [pr s1] eqn:D1. destruct (if sp then _ else _) as [sr s2] eqn:D2.
  destruct (remove_one sp i s pr s1 sr s2 Hs D1 D2) as (F2 & E2 & B2).
  match goal with |- context [let '(errIndex, s) := ?x in _] => destruct x as [err3 s3] eqn:D3 end.
  assert (frame [ri_tokenId i] s2 s3 /\ kn_dev s3 = kn_dev s2) as [F3 K3].
  { destruct (negb (sr =? RET_SUCCESS)), (negb (pr =? RET_SUCCESS)); injection D3 as <- <-; (split; [|done]);
      repeat (eapply frame_trans; [|apply frame_report]); apply frame_refl. }
  assert ((forall t, entry_at s3 t = entry_at s2 t) /\ forall t c, bit_at s3 t c = bit_at s2 t c) as [E3 B3]
    by (unfold entry_at, bit_at; by rewrite K3).
  destruct (Remove_loop sp items _ _ s3) as [[rest err4] s4] eqn:L. apply IH in L as (F4 & C4 & O4 & N4 & E4 & B4);
    [|done|intros Esp; rewrite (fr_sup _ _ _ F3), (fr_sup _ _ _ F2); auto]. intros [= <- <- <-].
  assert (frame (r_toks (i :: items)) s s4) as F.
  { eapply frame_trans; [|eapply frame_weaken; [|exact F4]; unfold r_toks; cbn; set_solver].
    eapply frame_weaken; [|by eapply frame_trans]. unfold r_toks. cbn. set_solver. }
  split_and!; [done|cbn [map]; rewrite C4; reflexivity|cbn [map]; rewrite O4; reflexivity| | |].
  - intros ->. apply Forall_cons. split; [exact He|by apply N4].
  - intros t. rewrite E4, E3, E2. unfold entries_gone.
    match goal with |- context [r_toks (filter _ (?j :: rest))] => pose proof (gone_cons (fun i => ri_spmEntryRemoved i = true) j rest t) as G; set (i' := j) in * end.
    cbn [ri_tokenId ri_spmEntryRemoved i'] in G. rewrite He in G. case_bool_decide as H1; case_bool_decide as H2; try done.
    + exfalso. apply H2, G. by right.
    + apply G in H2 as [[H2 ->]|H2]; [|done]. rewrite Z.eqb_refl. by destruct (sp && (sr =? RET_SUCCESS)).
    + destruct (sp && (sr =? RET_SUCCESS)) eqn:Ec; [|done]. destruct (Z.eqb_spec t (ri_tokenId i)) as [->|]; [|done]. exfalso. apply H2, G. by left.
  - intros t c Hc. rewrite B4, B3, B2 by done. unfold bits_gone.
    match goal with |- context [r_toks (filter _ (?j :: rest))] => pose proof (gone_cons (fun i => ri_permRemoved i = true) j rest t) as G; set (i' := j) in * end.
    cbn [ri_tokenId ri_permRemoved i'] in G. rewrite Hp in G. case_bool_decide as H1; case_bool_decide as H2; try done.
    + exfalso. apply H2, G. by right.
    + apply G in H2 as [[H2 ->]|H2]; [|done]. rewrite Z.eqb_refl. by destruct (pr =? RET_SUCCESS).
    + destruct (pr =? RET_SUCCESS) eqn:Ec; [|done]. destruct (Z.eqb_spec t (ri_tokenId i)) as [->|]; [|done]. exfalso. apply H2, G. by left.
Qed.

Definition p_item (p : RemoveSpmDataParam) : RemoveItem := mkRemoveItem (rp_tokenId p) None (rp_oldPermBriefDataList p) false false.

Lemma Remove_staged params s task s1 ret i (task' : RemoveSpmDataTask) s' : cache_ok s -> Forall (fun p => r_known s (p_item p)) params ->
  new_RemoveSpmDataTask params s = (task, s1) -> Remove task s1 = (ret, i, task', s') ->
  staged (map rp_tokenId params) ret (fun s => (Remove_Rollback task' s).2) s s'.
Proof.
  intros Hok Hknown. unfold new_RemoveSpmDataTask. destruct (_ || _) eqn:Eb.
  { intros [= <- <-]. unfold Remove. cbn. intros [= <- <- <- <-]. by apply staged_nothing. }
  apply orb_false_iff in Eb as [_ Hlen%Z.ltb_ge]. unfold MAX_ENTRY_NUM in Hlen.
  destruct (CheckSpmSupport s) as [sp s0] eqn:Cs. apply check_support in Cs as (F0 & _ & Hsp & S0); [|done]. intros [= <- <-].
  set (items := map _ params). assert (items = map p_item params) as Eit by done.
  assert (r_toks items = map rp_tokenId params) as Et by (unfold r_toks, items; by rewrite map_map). rewrite <- Et.
  assert (Forall unmarked items) as Hu by (rewrite Eit; apply Forall_map, Forall_forall; by intros p _).
  assert (Forall (r_known s) items) as Hk by (rewrite Eit; by apply Forall_map).
  unfold Remove, LoadOldSpmEntries. cbn [r_isBuildSuccess_ r_isSpmSupport_ r_items_ negb].
  destruct (if negb sp then _ else _) as [tl sl] eqn:L.
  assert (exists items1, tl = mkRemoveSpmDataTask items1 true sp /\ frame [] s0 sl /\ (forall t, same_at t s0 sl) /\
    map item_core items1 = map item_core items /\ Forall unmarked items1 /\
    (clean s0 sl -> sp = true -> Forall (fun i => ri_oldSpmData i = padded <$> entry_at s0 (ri_tokenId i)) items1)) as (items1 & -> & F1 & S1 & C1 & U1 & H1).
  { destruct sp; cbn [negb] in L.
    - destruct (LoadOldSpmEntries_loop items s0) as [its s2] eqn:Lo. injection L as <- <-. apply load_entries_spec in Lo as (A1 & A2 & A3 & A4 & A5); [|done].
      exists its. by split_and!; auto.
    - injection L as <- <-. exists items. split_and!; [done|apply frame_refl|intros; apply same_at_refl|done|done|done]. }
  cbn [r_isBuildSuccess_ r_isSpmSupport_ r_items_]. destruct (Remove_loop sp items1 0 _ sl) as [[items2 err2] s2] eqn:R.
  apply remove_loop_spec in R as (F2 & C2 & O2 & N2 & E2 & B2); [|done|intros Esp; rewrite (fr_sup _ _ _ F1); auto]. intros [= <- <- <- <-].
  assert (r_toks items1 = r_toks items) as Et1 by by apply core_toks. assert (r_toks items2 = r_toks items) as Et2 by (rewrite <- Et1; by apply core_toks).
  assert (forall a b, frame [] a b -> frame (r_toks items) a b) as Fw by (intros a b Fab; eapply frame_weaken, Fab; set_solver).
  rewrite Et1 in F2. split; [eapply frame_trans; [by apply Fw|]; eapply frame_trans; [by apply Fw|exact F2]|].
  intros [_ Hc]%(clean_split s s0); [|apply F0|eapply grows_trans; [apply F1|apply F2]].
  apply (clean_split s0 sl) in Hc as [Hc _]; [|apply F1|apply F2]. cbn [Z.eqb RET_SUCCESS]. rewrite <- Et2. apply remove_undo.
  assert (forall t, same_at t s sl) as Ssl by (intros t; eapply same_at_trans; [apply S0|apply S1]).
  split.
  - apply (f_equal length) in C1, C2. rewrite !length_map in C1, C2. rewrite C2, C1. unfold items. by rewrite length_map.
  - specialize (H1 Hc). clear - H1 O2 C2 N2 S0. destruct sp; [|eapply Forall_impl; [by apply N2|]; intros i Hi; cbn in Hi; congruence].
    specialize (H1 eq_refl). revert items2 C2 O2 N2. induction items1 as [|i items1 IH]; intros [|i2 items2] C2 O2 N2; cbn in *; try done.
    apply Forall_cons in H1 as [Hi H1]. injection C2 as Ct _ C2. injection O2 as Eo O2. apply Forall_cons. split; [|by apply IH].
    intros _. rewrite Eo, Hi, Ct. f_equal. apply S0.
  - eapply core_known; [|exact Hk]. congruence.
  - intros t. rewrite E2. destruct (Ssl t) as [-> _]. done.
  - intros t c Hc'. rewrite B2 by done. destruct (Ssl t) as [_ Hb]. by rewrite Hb.
Qed.
End Remove.
