(* ===== verification/SpmTransactionTheory.v ===== *)
(** * Histories of a transaction

    A transaction holds up to three tasks.  As long as they concern different tokens, undoing
    them one after the other brings the whole kernel back. *)

From stdpp Require Import base gmap list strings.
From S2P Require Import Prelude AccessTokenTypes Database PermissionMap PermissionDataBrief Kernel HapTokenInfo Spm SpmTheory SpmTasks SpmTaskTheory SpmUndo SpmUndoRemove.
#[local] Open Scope list_scope.
#[local] Open Scope Z_scope.
#[local] Open Scope cxx_scope.

Section Slots.
Context {K : Type} `{!TokenDevice K} `{!TokenDeviceLaws K} `{!SpmDevice K} `{!SpmLaws K} `{!DeviceReopens K}.
Implicit Types (s : Kern K) (t c : Z) (toks : list Z).

(** A task that was staged: its tokens and its rollback. *)
Definition Slot : Type := list Z * (Kern K -> Kern K).
Implicit Types (u v : Slot) (l : list Slot).

Lemma undo_nothing s0 s : undo_ok [] id s0 s.
Proof. intros s1 _ _. split; [apply frame_refl|]. by intros _ t ?%not_elem_of_nil. Qed.

Lemma undo_move toks rb s0 s s' : undo_ok toks rb s0 s -> (forall t, t ∈ toks -> same_at t s s') -> sup s' = sup s -> undo_ok toks rb s0 s'.
Proof. intros U Hs Es s1 H1 E1. apply U; [|congruence]. intros t Ht. eapply same_at_trans; auto. Qed.

Lemma undo_base toks rb s0 s1 s : undo_ok toks rb s1 s -> (forall t, t ∈ toks -> like_at t s0 s1) -> undo_ok toks rb s0 s.
Proof.
  intros U Hl s2 H2 E2. destruct (U s2 H2 E2) as [F C]. split; [done|]. intros Hc t Ht. eapply like_at_trans; [by apply Hl|by apply C].
Qed.

(** The tasks of [l] lead from [s0] to [s]: the other tokens are as they were, each task can be
    undone, and no token is in two tasks. *)
Record slots s0 s l : Prop := {
  sl_sup : sup s = sup s0;
  sl_cache : cache_ok s;
  sl_grows : grows s0 s;
  sl_out : clean s0 s -> forall t, (forall u, u ∈ l -> t ∉ u.1) -> like_at t s0 s;
  sl_undo : clean s0 s -> forall u, u ∈ l -> undo_ok u.1 u.2 s0 s;
  sl_apart i j u v : l !! i = Some u -> l !! j = Some v -> i <> j -> forall t, t ∈ u.1 -> t ∉ v.1;
}.

Lemma slots_failed s0 s s' l toks ret rb : slots s0 s l -> ret <> RET_SUCCESS -> (forall u t, u ∈ l -> t ∈ toks -> t ∉ u.1) ->
  staged toks ret rb s s' -> slots s0 s' l.
Proof.
  intros [H1 H2 H3 H4 H5 H6] Hr Hd [F St]. rewrite (proj2 (Z.eqb_neq _ _) Hr) in St.
  split; [by rewrite (fr_sup _ _ _ F)|by apply F|eapply grows_trans; [done|apply F]| | |done].
  - intros [C1 C2]%(clean_split s0 s); [|done|apply F]. intros t Ht. eapply like_at_trans; [by apply H4|].
    destruct (decide (t ∈ toks)) as [Hin|Hn]; [by apply St|]. by apply same_like, F.
  - intros [C1 C2]%(clean_split s0 s); [|done|apply F]. intros u Hu. eapply undo_move; [by apply H5| |apply F].
    intros t Ht. apply F. intros Hin. by apply (Hd u t).
Qed.

Lemma slots_staged s0 s s' l i f toks rb : slots s0 s l -> l !! i = Some (([], f) : Slot) -> (forall u t, u ∈ l -> t ∈ toks -> t ∉ u.1) ->
  staged toks RET_SUCCESS rb s s' -> slots s0 s' (<[i := ((toks, rb) : Slot)]> l).
Proof.
  intros [H1 H2 H3 H4 H5 H6] Hi Hd [F St]. cbn [Z.eqb RET_SUCCESS] in St. pose proof (lookup_lt_Some _ _ _ Hi) as Hlt.
  assert (forall u, u ∈ l -> u.1 = [] \/ u ∈ <[i := ((toks, rb) : Slot)]> l) as Hkeep.
  { intros u (j & Hj)%list_elem_of_lookup. destruct (decide (i = j)) as [<-|Hne]; [left; rewrite Hi in Hj; by injection Hj as <-|].
    right. apply list_elem_of_lookup. exists j. by rewrite list_lookup_insert_ne. }
  assert (forall u, u ∈ <[i := ((toks, rb) : Slot)]> l -> u = (toks, rb) \/ u ∈ l) as Hnew.
  { intros u (j & Hj)%list_elem_of_lookup. destruct (decide (i = j)) as [<-|Hne].
    - rewrite list_lookup_insert_eq in Hj by done. left. by injection Hj as <-.
    - rewrite list_lookup_insert_ne in Hj by done. right. by eapply list_elem_of_lookup_2. }
  assert (((toks, rb) : Slot) ∈ <[i := ((toks, rb) : Slot)]> l) as Hthis by (apply list_elem_of_lookup; exists i; by apply list_lookup_insert_eq).
  split; [by rewrite (fr_sup _ _ _ F)|by apply F|eapply grows_trans; [done|apply F]| | |].
  - intros [C1 C2]%(clean_split s0 s); [|done|apply F]. intros t Ht. eapply like_at_trans; [apply H4; [done|]|].
    + intros u [->|Hu]%Hkeep; [apply not_elem_of_nil|by apply Ht].
    + apply same_like, F. exact (Ht _ Hthis).
  - intros [C1 C2]%(clean_split s0 s); [|done|apply F]. intros u [->|Hu]%Hnew.
    + eapply undo_base; [by apply St|]. intros t Ht. apply H4; [done|]. intros v Hv. by apply (Hd v t).
    + eapply undo_move; [by apply H5| |apply F]. intros t Ht. apply F. intros Hin. by apply (Hd u t).
  - intros a b u v Ha Hb Hab t Ht Hv. destruct (decide (i = a)) as [<-|Hia], (decide (i = b)) as [<-|Hib]; [done|..].
    + rewrite list_lookup_insert_eq in Ha by done. rewrite list_lookup_insert_ne in Hb by done. injection Ha as <-.
      by apply (Hd v t); [by eapply list_elem_of_lookup_2|..].
    + rewrite list_lookup_insert_ne in Ha by done. rewrite list_lookup_insert_eq in Hb by done. injection Hb as <-.
      by apply (Hd u t); [by eapply list_elem_of_lookup_2|..].
    + rewrite list_lookup_insert_ne in Ha, Hb by done. by eapply (H6 a b).
Qed.

Definition undo_all l s : Kern K := fold_left (fun s u => u.2 s) l s.

(** Undoing the tasks one after the other. *)
Lemma undo_all_spec s0 l : forall s, (forall u, u ∈ l -> undo_ok u.1 u.2 s0 s) ->
  (forall i j u v, l !! i = Some u -> l !! j = Some v -> i <> j -> forall t, t ∈ u.1 -> t ∉ v.1) ->
  let s' := undo_all l s in
  frame (concat (map fst l)) s s' /\ (clean s s' -> forall t, t ∈ concat (map fst l) -> like_at t s0 s').
Proof.
  induction l as [|u l IH]; intros s Hu Ha; cbn [undo_all fold_left map concat].
  { split; [apply frame_refl|]. by intros _ t ?%not_elem_of_nil. }
  destruct (Hu u ltac:(by left) s) as [F1 C1]; [intros; apply same_at_refl|done|]. set (s1 := u.2 s) in *.
  assert (forall v, v ∈ l -> forall t, t ∈ v.1 -> same_at t s s1) as Hsame.
  { intros v (j & Hj)%list_elem_of_lookup t Ht. apply F1. intros Hin. by apply (Ha 0%nat (S j) u v eq_refl Hj ltac:(done) t). }
  destruct (IH s1) as [F2 C2].
  - intros v Hv. eapply undo_move; [apply Hu; by right|by apply Hsame|apply F1].
  - intros i j v w Hi Hj Hne. by apply (Ha (S i) (S j) v w); [..|lia].
  - change (fold_left _ l s1) with (undo_all l s1) in *. set (s' := undo_all l s1) in *.
    split; [eapply frame_trans; (eapply frame_weaken; [|done]); set_solver|].
    intros [Hc1 Hc2]%(clean_split s s1); [|apply F1|apply F2]. intros t. rewrite elem_of_app.
    destruct (decide (t ∈ concat (map fst l))) as [Hin|Hn]; [intros _; by apply C2|]. intros [Ht|]; [|done].
    eapply like_at_trans; [by apply C1|]. by apply same_like, F2.
Qed.

(** After that the kernel is as before the first of them. *)
Lemma undone s0 s l : slots s0 s l -> grows s (undo_all l s) -> clean s0 (undo_all l s) -> forall t, like_at t s0 (undo_all l s).
Proof.
  intros [H1 H2 H3 H4 H5 H6] Hg Hc. pose proof (clean_split _ _ _ H3 Hg Hc) as [C1 C2].
  destruct (undo_all_spec s0 l s (H5 C1) H6) as [F L]. intros t. destruct (decide (t ∈ concat (map fst l))) as [Hin|Hn]; [by apply L|].
  eapply like_at_trans; [|apply same_like, F; exact Hn]. apply H4; [done|]. intros u Hu Ht. apply Hn.
  apply list_elem_of_In, in_concat. exists u.1. split; [|by apply list_elem_of_In]. apply list_elem_of_In. by apply list_elem_of_fmap_2.
Qed.

(** ** Reports are only added. *)
Lemma each_item_grows {A} call code (items : list A) : forall result s r s', each_item call code items result s = (r, s') -> grows s s'.
Proof.
  induction items as [|i items IH]; intros result s r s'; cbn [each_item]; [intros [= _ <-]; apply grows_refl|].
  unfold on_dev. destruct (call i (kn_dev s)) as [e k]. destruct (negb _); intros L%IH; (eapply grows_trans; [|exact L]).
  - by eexists.
  - by apply grows_same.
Qed.

Lemma add_rollback_grows (t : SpmDataTask) s : grows s (Add_Rollback t s).2.
Proof.
  unfold Add_Rollback. destruct (if updateWithPerm_ t then _ else _) as [r s1] eqn:E1.
  assert (grows s s1) as G1 by (destruct (updateWithPerm_ t); [by eapply each_item_grows|injection E1 as _ <-; apply grows_refl]).
  destruct (rollback_entries _ r s1) as [r2 s2] eqn:E2. cbn. eapply grows_trans; [exact G1|]. by eapply each_item_grows.
Qed.

Lemma update_rollback_grows (t : SpmDataTask) s : grows s (Update_Rollback t s).2.
Proof.
  unfold Update_Rollback, collect_old. destruct (rollback_entries _ RET_SUCCESS s) as [r1 s1] eqn:E1.
  destruct (if bool_decide _ then _ else _) as [r2 s2] eqn:E2.
  assert (grows s1 s2) as G2.
  { case_bool_decide; [injection E2 as _ <-; apply grows_refl|]. unfold RollbackSpmEntries in E2.
    destruct (SetSpmEntriesToKernel _ _) as [[e idx] k]. destruct (e =? RET_SUCCESS); [injection E2 as _ <-; by apply grows_same|].
    destruct (idx <? _); injection E2 as _ <-; [by eexists|by apply grows_same]. }
  destruct (RollbackPermData _ _ s2) as [r3 s3] eqn:E3. cbn. eapply grows_trans; [by eapply each_item_grows|].
  eapply grows_trans; [exact G2|]. by eapply each_item_grows.
Qed.

Lemma restore_grows fuel : forall (l : list SpmData) s r s', RestoreSpmEntries_loop fuel l s = Some (r, s') -> grows s s'.
Proof.
  induction fuel as [|fuel IH]; intros [|d l] s r s'; cbn [RestoreSpmEntries_loop]; try done; try (intros [= _ <-]; apply grows_refl).
  destruct (AddSpmEntriesToKernel _ _) as [[e idx] k]. split_if; [intros [= _ <-]; by apply grows_same|].
  split_if; [intros L%IH; eapply grows_trans; [|exact L]; by apply grows_same|intros [= _ <-]; by eexists].
Qed.

Lemma remove_rollback_grows (t : RemoveSpmDataTask) s : grows s (Remove_Rollback t s).2.
Proof.
  unfold Remove_Rollback. destruct (if bool_decide _ then _ else _) as [r1 s1] eqn:E1. assert (grows s s1) as G1.
  { case_bool_decide; [injection E1 as _ <-; apply grows_refl|]. unfold RestoreSpmEntries in E1.
    destruct (RestoreSpmEntries_loop _ _ s) as [[r2 s2]|] eqn:L; injection E1 as _ <-; [by eapply restore_grows|apply grows_refl]. }
  rewrite (restore_bits_each _ _ RET_SUCCESS). destruct (each_item _ _ _ _ s1) as [r3 s3] eqn:E3. cbn.
  eapply grows_trans; [exact G1|]. by eapply each_item_grows.
Qed.
End Slots.
