(* ===== verification/SpmSamples.v ===== *)
(** * A device in memory with SPM entries

    The bits of [MemDevice] beside a table of entries; [ms_faults] tells which of the next
    requests fail with EIO, a batch at the given entry. *)

From stdpp Require Import base gmap list strings.
From S2P Require Import Prelude AccessTokenTypes PermissionMap PermissionDataBrief Kernel HapTokenInfo Spm SpmTheory.
#[local] Open Scope list_scope.
#[local] Open Scope Z_scope.
#[local] Open Scope cxx_scope.

Definition EIO : Z := 5.

Record MemSpm := mkMemSpm { ms_dev : MemDevice; ms_table : gmap Z SpmData; ms_faults : list (option nat) }.

(** The entries under their own token. *)
Definition ms_entries (k : MemSpm) : gmap Z SpmData := filter (fun td : Z * SpmData => sd_tokenid td.2 = td.1) (ms_table k).

Definition next_fault (k : MemSpm) : option nat * list (option nat) :=
  match ms_faults k with [] => (None, []) | f :: r => (f, r) end.

(** The entries one by one, up to a fault or an entry that is already there. *)
Fixpoint mem_batch (cmd : SpmCmd) (stop : option nat) (l : list SpmData) (i : Z) (m : gmap Z SpmData) : Z * Z * gmap Z SpmData :=
  match l with
  | [] => (0, 0, m)
  | d :: l =>
      match stop with
      | Some O => (EIO, i, m)
      | _ =>
          match cmd, m !! sd_tokenid d with
          | ADD_SPM_ENTRIES, Some _ => (EEXIST, i, m)
          | _, _ => mem_batch cmd (Nat.pred <$> stop) l (i + 1) (write_entry cmd m d)
          end
      end
  end.

Definition on_bits {A} (f : MemDevice -> A * MemDevice) (k : MemSpm) : A * MemSpm :=
  let '(a, d) := f (ms_dev k) in (a, mkMemSpm d (ms_table k) (ms_faults k)).

#[export] Instance spm_bits : TokenDevice MemSpm := {|
  dev_open k := (true, k);
  dev_add k t perms := on_bits (fun d => dev_add d t perms) k;
  dev_remove k t := on_bits (fun d => dev_remove d t) k;
  dev_set k t op b := on_bits (fun d => dev_set d t op b) k;
  dev_get k t op := on_bits (fun d => dev_get d t op) k;
  dev_get_all k t := on_bits (fun d => dev_get_all d t) k;
|}.

#[export] Instance spm_bits_laws : TokenDeviceLaws MemSpm.
Proof.
  refine {| dev_granted k := mem_granted (ms_dev k) |}; cbn [dev_open dev_add dev_remove dev_set dev_get dev_get_all spm_bits]; unfold on_bits.
  - by intros k ok k' [= _ <-].
  - intros k t perms e k' Hl. destruct (dev_add _ _ _) as [e1 d] eqn:D. intros [= <- <-]. exact (dev_add_law _ _ _ _ _ Hl D).
  - intros k t e k'. destruct (dev_remove _ _) as [e1 d] eqn:D. intros [= <- <-]. exact (dev_remove_law _ _ _ _ D).
  - intros k t op b e k'. destruct (dev_set _ _ _ _) as [e1 d] eqn:D. intros [= <- <-]. exact (dev_set_law _ _ _ _ _ _ D).
  - intros k t op r k'. destruct (dev_get _ _ _) as [r1 d] eqn:D. intros [= <- <-]. exact (dev_get_law _ _ _ _ _ D).
  - intros k t r k'. destruct (dev_get_all _ _) as [r1 d] eqn:D. intros [= <- <-]. exact (dev_get_all_law _ _ _ _ D).
Defined.

#[export] Instance mem_spm : SpmDevice MemSpm := {|
  spm_batch cmd k l :=
    let '(stop, faults) := next_fault k in
    let '(e, i, m) := mem_batch cmd stop (map decode_entry l) 0 (ms_entries k) in (e, i, mkMemSpm (ms_dev k) m faults);
  spm_get k t cap :=
    match ms_entries k !! t with
    | None => (inl ENODATA, k)
    | Some d => (inr (ConstructStaticKernelData d (sd_name d ++ sd_perms d ++ sd_extendPerms d)), k)
    end;
  spm_remove k t :=
    let '(stop, faults) := next_fault k in
    match stop, ms_entries k !! t with
    | Some _, _ => (EIO, mkMemSpm (ms_dev k) (ms_entries k) faults)
    | None, None => (ENODATA, mkMemSpm (ms_dev k) (ms_entries k) faults)
    | None, Some _ => (0, mkMemSpm (ms_dev k) (delete t (ms_entries k)) faults)
    end;
  spm_version k := (inr 1, k);
  spm_set_refcnt _ k _ _ _ := (0, k);
  spm_get_refcnt _ k _ := (inr 0, k);
  spm_clear_spawnid k _ := (0, k);
|}.

#[export] Instance mem_spm_opens : DeviceReopens MemSpm.
Proof. by refine {| openable _ := True |}. Defined.

(** ** The laws. *)
Definition keyed (m : gmap Z SpmData) : Prop := map_Forall (fun t d => sd_tokenid d = t) m.

Lemma entries_keyed k : keyed (ms_entries k).
Proof. intros t d H. by apply map_lookup_filter_Some in H as [_ ?]. Qed.

Lemma keyed_entries k m d f : keyed m -> ms_entries (mkMemSpm d m f) = m /\ (ms_table k = m -> ms_entries k = m).
Proof.
  intros H. unfold ms_entries. cbn. split; [|intros ->]; apply map_filter_id; intros t e He; by apply H.
Qed.

Lemma keyed_write cmd m d : keyed m -> keyed (write_entry cmd m d).
Proof. intros H. unfold write_entry. destruct cmd, (m !! sd_tokenid d); by apply map_Forall_insert_2. Qed.

Lemma keyed_delete t m : keyed m -> keyed (delete t m).
Proof. apply map_Forall_delete. Qed.

Lemma mem_batch_spec cmd l : forall stop i m e idx m', keyed m -> 0 <= i -> mem_batch cmd stop l i m = (e, idx, m') ->
  keyed m' /\ (e <> 0 -> i <= idx < i + Z.of_nat (length l)) /\
  written cmd (take (if e =? 0 then length l else Z.to_nat (idx - i)) l) m m' /\
  (e = EEXIST -> exists d, l !! Z.to_nat (idx - i) = Some d /\ is_Some (m' !! sd_tokenid d)).
Proof.
  induction l as [|d l IH]; intros stop i m e idx m' Hk Hi; cbn [mem_batch].
  { intros [= <- <- <-]. split_and!; [done|done|by split|done]. }
  assert (forall e0, e0 <> 0 -> (e0 = EEXIST -> is_Some (m !! sd_tokenid d)) -> (e0, i, m) = (e, idx, m') ->
    keyed m' /\ (e <> 0 -> i <= idx < i + Z.of_nat (length (d :: l))) /\
    written cmd (take (if e =? 0 then length (d :: l) else Z.to_nat (idx - i)) (d :: l)) m m' /\
    (e = EEXIST -> exists d1, (d :: l) !! Z.to_nat (idx - i) = Some d1 /\ is_Some (m' !! sd_tokenid d1))) as Hstop.
  { intros e0 He Hx [= <- <- <-]. rewrite (proj2 (Z.eqb_neq e0 0) He), Z.sub_diag. split_and!; [done|cbn; lia|by split|]. intros Ex. exists d. auto. }
  destruct stop as [[|n]|]; [by apply Hstop|..].
  all: destruct cmd, (m !! sd_tokenid d) as [o|] eqn:Em; [by eapply (Hstop EEXIST)|..].
  all: intros B; apply IH in B as (B1 & B2 & B3 & B4); [|by apply keyed_write|lia].
  all: assert (e <> 0 -> Z.to_nat (idx - i) = S (Z.to_nat (idx - (i + 1)))) as Hs by (intros He; specialize (B2 He); lia).
  all: split_and!; [done|intros He; specialize (B2 He); cbn [length]; lia| |intros Ex; rewrite Hs by (rewrite Ex; done); exact (B4 Ex)].
  all: destruct (Z.eqb_spec e 0) as [->|He]; [|rewrite Hs by done]; destruct B3 as [B3 B3']; (split; [exact B3|]); intros E; try done; (split; [exact Em|by apply B3']).
Qed.

#[export] Instance mem_spm_laws : SpmLaws MemSpm.
Proof.
  refine {| spm_entries := ms_entries; spm_supported _ := true |}; cbn [spm_batch spm_get spm_remove spm_version mem_spm].
  - intros k. apply entries_keyed.
  - intros cmd k l e idx k'. destruct (next_fault k) as [stop faults]. destruct (mem_batch _ _ _ _ _) as [[e1 i1] m1] eqn:B. intros [= <- <- <-].
    apply mem_batch_spec in B as (B1 & B2 & B3 & B4); [|apply entries_keyed|done]. rewrite length_map, Z.add_0_l in *. rewrite Z.sub_0_r in *.
    rewrite (proj1 (keyed_entries k m1 (ms_dev k) faults B1)). split_and!; [done|done|done| |].
    + unfold done_count. done.
    + intros Ee. destruct (B4 Ee) as (d & Hd & Hs). apply list_lookup_fmap_Some in Hd as (q & -> & Hq). by exists q.
  - intros k t cap r k'. destruct (ms_entries k !! t) as [d|] eqn:E; intros [= <- <-]; split_and!; try done. intros q [= <-].
    assert (decode_entry (ConstructStaticKernelData d (sd_name d ++ sd_perms d ++ sd_extendPerms d)) = d) as Hd by apply decode_constructed.
    split_and!; [by rewrite Hd|cbn; lia..|]. rewrite Hd. cbn. lia.
  - intros k t e k'. pose proof (fun m H => proj1 (keyed_entries k m (ms_dev k) (next_fault k).2 H)) as Hent.
    destruct (next_fault k) as [stop faults]. cbn [snd] in Hent.
    destruct stop as [n|]; [|destruct (ms_entries k !! t) eqn:E]; intros [= <- <-]; rewrite Hent by auto using entries_keyed, keyed_delete; done.
  - by intros k r k' [= <- <-].
  - by intros k ok k' [= _ <-].
  - intros k t perms e k'. cbn [dev_add spm_bits]. unfold on_bits. destruct (dev_add (ms_dev k) t perms). by intros [= _ <-].
  - intros k t e k'. cbn [dev_remove spm_bits]. unfold on_bits. destruct (dev_remove (ms_dev k) t). by intros [= _ <-].
Defined.

(** ** The same device when it cannot always be opened: the next answers of [open]. *)
Record FlakySpm := mkFlakySpm { fl_dev : MemSpm; fl_opens : list bool }.

Definition on_fl {A} (f : MemSpm -> A * MemSpm) (k : FlakySpm) : A * FlakySpm :=
  let '(a, d) := f (fl_dev k) in (a, mkFlakySpm d (fl_opens k)).

#[export] Instance flaky_bits : TokenDevice FlakySpm := {|
  dev_open k := match fl_opens k with [] => (true, k) | b :: r => (b, mkFlakySpm (fl_dev k) r) end;
  dev_add k t perms := on_fl (fun d => dev_add d t perms) k;
  dev_remove k t := on_fl (fun d => dev_remove d t) k;
  dev_set k t op b := on_fl (fun d => dev_set d t op b) k;
  dev_get k t op := on_fl (fun d => dev_get d t op) k;
  dev_get_all k t := on_fl (fun d => dev_get_all d t) k;
|}.
#[export] Instance flaky_spm : SpmDevice FlakySpm := {|
  spm_batch cmd k l := on_fl (fun d => spm_batch cmd d l) k;
  spm_get k t cap := on_fl (fun d => spm_get d t cap) k;
  spm_remove k t := on_fl (fun d => spm_remove d t) k;
  spm_version k := on_fl spm_version k;
  spm_set_refcnt kind k a b c := on_fl (fun d => spm_set_refcnt kind d a b c) k;
  spm_get_refcnt kind k a := on_fl (fun d => spm_get_refcnt kind d a) k;
  spm_clear_spawnid k a := on_fl (fun d => spm_clear_spawnid d a) k;
|}.
