(* ===== verification/SpmProps.v ===== *)
(** * Properties of the kernel and database transaction *)

From stdpp Require Import base gmap list strings.
From S2P Require Import Prelude AccessTokenTypes Database PermissionMap PermissionDataBrief Kernel HapTokenInfo Spm SpmTheory SpmTasks SpmTaskTheory SpmUndo SpmUndoRemove SpmTransactionTheory SpmSamples.
#[local] Open Scope list_scope.
#[local] Open Scope Z_scope.
#[local] Open Scope cxx_scope.

(** ** Tasks from their parameters. *)
Definition p_tok (p : SpmDataParam) : Z := hti_tokenID (sp_hapInfo p).

Section Build.
Context {PT : PermTable}.

Lemma build_entry hap info perms ext d : BuildSpmData hap info perms ext = inr d -> sd_tokenid d = hti_tokenID hap /\ sd_name d <> [].
Proof.
  unfold BuildSpmData. split_if; [done|]. intros [= <-]. split; [done|]. cbn. by intros [_ ?]%app_eq_nil.
Qed.

(** What an item takes from its parameter. *)
Definition from_param (keepOld wp : bool) (p : SpmDataParam) (i : SpmDataTaskItem) : Prop :=
  ti_tokenId i = p_tok p /\ ti_permBriefDataList i = sp_permBriefDataList p /\ sp_updateWithPerm p = wp /\
  ti_oldPermBriefDataList i = (if keepOld then sp_oldPermBriefDataList p else None) /\
  sd_tokenid (ti_newSpmData i) = ti_tokenId i /\ sd_name (ti_newSpmData i) <> [].

Lemma build_items_spec keepOld wp params : forall items, build_items keepOld wp params = Some items -> Forall2 (from_param keepOld wp) params items.
Proof.
  induction params as [|p params IH]; cbn; intros items; [by intros [= <-]|]. destruct (Bool.eqb _ wp) eqn:Ew; [|done]. cbn [negb].
  destruct (BuildSpmData _ _ _ _) as [e|d] eqn:B; [done|]. destruct (build_items keepOld wp params) as [its|]; [|done]. intros [= <-].
  apply build_entry in B as [B1 B2]. constructor; [|by apply IH]. by apply Bool.eqb_prop in Ew.
Qed.

(** A task is built from all its parameters or it does nothing. *)
Lemma new_task_spec keepOld params : let t := new_task keepOld params in
  spmDataSuccessCount_ t = 0%nat /\ permDataSuccessCount_ t = 0%nat /\
  (isBuildSuccess_ t = false -> items_ t = []) /\
  (isBuildSuccess_ t = true -> Z.of_nat (length params) <= 255 /\ Forall2 (from_param keepOld (updateWithPerm_ t)) params (items_ t)).
Proof.
  unfold new_task. destruct params as [|p params]; [done|]. destruct (Z.ltb_spec MAX_ENTRY_NUM (Z.of_nat (length (p :: params)))) as [|Hl]; [done|].
  destruct (build_items _ _ _) as [items|] eqn:B; [|done]. split_and!; [done|done|done|]. intros _. split; [exact Hl|]. by apply build_items_spec.
Qed.

Lemma from_params_toks keepOld wp params items : Forall2 (from_param keepOld wp) params items -> toks_of items = map p_tok params.
Proof. unfold toks_of. induction 1 as [|p i ps its (E & _) _ IH]; [done|]. cbn [map]. by rewrite E, IH. Qed.

Lemma from_params_ok keepOld wp params items : Forall2 (from_param keepOld wp) params items -> Z.of_nat (length params) <= 255 ->
  Forall (fun p => codes_ok (sp_permBriefDataList p)) params -> items_ok items.
Proof.
  intros H Hl Hc. split; [|by rewrite <- (Forall2_length _ _ _ H)]. clear Hl. induction H as [|p i ps its (E1 & E2 & _ & _ & E4 & E5) _ IH]; [done|].
  apply Forall_cons in Hc as [Hp Hc]. apply Forall_cons. split; [|by apply IH]. split_and!; [done|done|by rewrite E2].
Qed.
End Build.

Section Transaction.
Context {PT : PermTable} {S K : Type} `{!AtmDb S} `{!TokenDevice K} `{!TokenDeviceLaws K} `{!SpmDevice K} `{!SpmLaws K} `{!DeviceReopens K}.
Implicit Types (x : KernelAndDBWriteTransaction) (s : TxState S K) (k : Kern K).

(** What the caller knows of the tokens it stages: a token to add has no bits yet, and the old
    list of one to update or remove tells its bits. *)
Definition add_known k (p : SpmDataParam) : Prop :=
  codes_ok (sp_permBriefDataList p) /\ (sp_updateWithPerm p = true -> forall c, 0 <= c -> bit_at k (p_tok p) c = false).
Definition update_known k (p : SpmDataParam) : Prop :=
  codes_ok (sp_permBriefDataList p) /\ codes_ok (default [] (sp_oldPermBriefDataList p)) /\
  (sp_updateWithPerm p = true -> forall c, 0 <= c ->
     bit_at k (p_tok p) c = bool_decide (c ∈ granted_codes (default [] (sp_oldPermBriefDataList p)))).

Lemma Add_items (t t' : SpmDataTask) k ret i k' : Add t k = (ret, i, t', k') -> items_ t' = items_ t.
Proof.
  assert (forall (t0 : SpmDataTask) k, items_ (Add_Rollback t0 k).1.2 = items_ t0) as Hrb.
  { intros t0 k0. unfold Add_Rollback. destruct (if updateWithPerm_ t0 then _ else _). by destruct (rollback_entries _ _ _). }
  unfold Add. split_if; [by intros [= _ _ <- _]|]. destruct (CheckSpmSupport k) as [sp k1].
  match goal with |- context [if sp then ?a else ?b] => destruct (if sp then a else b) as [[[r1 i1] t1] k2] eqn:M end.
  assert (items_ t1 = items_ t) as E1.
  { destruct sp; [|by injection M as _ _ <- _]. destruct (AddSpmEntriesToKernel _ _) as [[e idx] kd]. split_if_in M; [|by injection M as _ _ <- _].
    match type of M with context [Add_Rollback ?a ?b] => pose proof (Hrb a b) as Hr; destruct (Add_Rollback a b) as [[r4 t4] k4] end.
    injection M as _ _ <- _. exact Hr. }
  split_if; [by intros [= _ _ <- _]|]. split_if; [by intros [= _ _ <- _]|]. destruct (AddPermDataToKernel _ _ _) as [[[r3 cnt] i3] k3].
  split_if; [|by intros [= _ _ <- _]].
  match goal with |- context [Add_Rollback ?a ?b] => pose proof (Hrb a b) as Hr; destruct (Add_Rollback a b) as [[r5 t5] k5] end.
  intros [= _ _ <- _]. cbn in Hr. by rewrite Hr.
Qed.

Lemma load_old_toks items : forall k ret items' k', load_old items k = (ret, items', k') -> toks_of items' = toks_of items.
Proof.
  unfold toks_of. induction items as [|i items IH]; intros k ret items' k'; cbn [load_old]; [by intros [= _ <- _]|].
  destruct (on_dev _ k) as [r k1]. destruct (load_old items k1) as [[r2 rest] k2] eqn:L. apply IH in L.
  destruct r as [e|d]; [destruct (e =? _)|]; intros [= _ <- _]; cbn [map]; by rewrite ?L.
Qed.

Lemma Update_toks (t t' : SpmDataTask) k ret i k' : Update t k = (ret, i, t', k') -> toks_of (items_ t') = toks_of (items_ t).
Proof.
  unfold Update, LoadOldSpmDataForItems. split_if; [by intros [= _ _ <- _]|]. destruct (CheckSpmSupport k) as [sp k1].
  match goal with |- context [if negb sp then ?a else ?b] => destruct (if negb sp then a else b) as [[[r1 sp1] its] k2] eqn:L end.
  assert (toks_of its = toks_of (items_ t)) as <-.
  { destruct sp; cbn [negb] in L; [|by injection L as _ _ <- _]. destruct (load_old (items_ t) k1) as [[r2 its2] k3] eqn:Lo.
    injection L as _ _ <- _. by eapply load_old_toks. }
  assert (forall (t0 : SpmDataTask) k, items_ (Update_Rollback t0 k).1.2 = items_ t0) as Hrb.
  { intros t0 k0. unfold Update_Rollback. destruct (collect_old _ _ _) as [[ents r] k3].
    destruct (if bool_decide _ then _ else _) as [r2 k4]. by destruct (RollbackPermData _ _ _). }
  split_if; [by intros [= _ _ <- _]|].
  match goal with |- context [if sp1 then ?a else ?b] => destruct (if sp1 then a else b) as [[[r3 i3] t3] k3] eqn:M end.
  assert (items_ t3 = its) as E3.
  { destruct sp1; [|by injection M as _ _ <- _]. destruct (SetNewSpmDataToKernel _ _ _) as [[[e cnt] idx] kd]. split_if_in M; [|by injection M as _ _ <- _].
    match type of M with context [Update_Rollback ?a ?b] => pose proof (Hrb a b) as Hr; destruct (Update_Rollback a b) as [[r4 t4] k4] end.
    injection M as _ _ <- _. exact Hr. }
  split_if; [intros [= _ _ <- _]; by rewrite E3|]. split_if; [intros [= _ _ <- _]; by rewrite E3|].
  destruct (UpdatePermData _ _ _) as [[[r4 cnt] i4] k4]. split_if; [|intros [= _ _ <- _]; cbn; by rewrite E3].
  match goal with |- context [Update_Rollback ?a ?b] => pose proof (Hrb a b) as Hr; destruct (Update_Rollback a b) as [[r5 t5] k5] end.
  intros [= _ _ <- _]. cbn in Hr. by rewrite Hr, E3.
Qed.

Lemma Remove_toks params k t k1 ret i (t' : RemoveSpmDataTask) k' : new_RemoveSpmDataTask params k = (t, k1) -> Remove t k1 = (ret, i, t', k') ->
  ret = RET_SUCCESS -> r_toks (r_items_ t') = map rp_tokenId params.
Proof.
  assert (forall sp items i0 err k items' err' k', Remove_loop sp items i0 err k = (items', err', k') -> r_toks items' = r_toks items) as Hloop.
  { unfold r_toks. intros sp items. induction items as [|it items IH]; intros i0 err k0 items' err' k0'; cbn [Remove_loop]; [by intros [= <- _ _]|].
    destruct (on_dev _ k0) as [pr k2]. destruct (if sp then _ else _) as [sr k3].
    match goal with |- context [let '(errIndex, s) := ?a in _] => destruct a as [err3 k4] end.
    destruct (Remove_loop sp items _ _ k4) as [[rest err4] k5] eqn:L. apply IH in L. intros [= <- _ _]. cbn [map]. by rewrite L. }
  assert (forall items k items' k', LoadOldSpmEntries_loop items k = (items', k') -> r_toks items' = r_toks items) as Hload.
  { unfold r_toks. induction items as [|it items IH]; intros k0 items' k0'; cbn [LoadOldSpmEntries_loop]; [by intros [= <- _]|].
    destruct (on_dev _ k0) as [r k2]. destruct (match r with inl _ => _ | inr _ => _ end) as [old k3].
    destruct (LoadOldSpmEntries_loop items k3) as [rest k4] eqn:L. apply IH in L. intros [= <- _]. cbn [map]. by rewrite L. }
  unfold new_RemoveSpmDataTask. split_if; [intros [= <- <-]; unfold Remove; cbn; by intros [= <- _ _ _]|].
  destruct (CheckSpmSupport k) as [sp k2]. intros [= <- <-]. unfold Remove, LoadOldSpmEntries. cbn [r_isBuildSuccess_ r_isSpmSupport_ r_items_ negb].
  set (items := map _ params). assert (r_toks items = map rp_tokenId params) as Et by (unfold r_toks, items; by rewrite map_map).
  destruct (if negb sp then _ else _) as [tl k3] eqn:L.
  assert (r_toks (r_items_ tl) = r_toks items) as El.
  { destruct sp; cbn [negb] in L; [|by injection L as <- _]. destruct (LoadOldSpmEntries_loop items k2) as [its k4] eqn:Lo. injection L as <- _.
    by eapply Hload. }
  destruct (Remove_loop _ _ _ _ k3) as [[its err] k4] eqn:R. intros [= _ _ <- _] _. apply Hloop in R. rewrite <- Et, <- El, <- R. reflexivity.
Qed.

(** ** The tasks of a transaction. *)
Definition add_slot x : Slot (K := K) :=
  match addTask_ x with Some t => (toks_of (items_ t), fun k => (Add_Rollback t k).2) | None => ([], id) end.
Definition update_slot x : Slot (K := K) :=
  match updateTask_ x with Some t => (toks_of (items_ t), fun k => (Update_Rollback t k).2) | None => ([], id) end.
Definition remove_slot x : Slot (K := K) :=
  match removeTask_ x with Some t => (r_toks (r_items_ t), fun k => (Remove_Rollback t k).2) | None => ([], id) end.
Definition tx_slots x : list Slot := [add_slot x; update_slot x; remove_slot x].

(** The tokens a transaction has staged so far. *)
Definition tx_tokens x : list Z := concat (map fst (tx_slots x)).

Lemma slot_tokens x u t : u ∈ tx_slots x -> t ∈ u.1 -> t ∈ tx_tokens x.
Proof.
  intros Hu Ht. apply list_elem_of_In, in_concat. exists u.1. split; [|by apply list_elem_of_In]. apply list_elem_of_In. by apply list_elem_of_fmap_2.
Qed.

(** The calls on a transaction, with the number of commits the database accepted.  The caller
    stages each token once. *)
Inductive tx_step : KernelAndDBWriteTransaction * TxState S K * nat -> KernelAndDBWriteTransaction * TxState S K * nat -> Prop :=
  | tx_add params x s n ret x' s' : Forall (add_known (tx_kern s)) params -> (forall p, p ∈ params -> p_tok p ∉ tx_tokens x) ->
      StageKernelAdd params x s = (ret, x', s') -> tx_step (x, s, n) (x', s', n)
  | tx_update params x s n ret x' s' : Forall (update_known (tx_kern s)) params -> (forall p, p ∈ params -> p_tok p ∉ tx_tokens x) ->
      StageKernelUpdate params x s = (ret, x', s') -> tx_step (x, s, n) (x', s', n)
  | tx_remove params x s n ret x' s' : Forall (fun p => r_known (tx_kern s) (p_item p)) params ->
      (forall p, p ∈ params -> rp_tokenId p ∉ tx_tokens x) ->
      StageKernelRemove params x s = (ret, x', s') -> tx_step (x, s, n) (x', s', n)
  | tx_commit_db dels adds x s n ret x' s' : CommitDb dels adds x s = (ret, x', s') ->
      tx_step (x, s, n) (x', s', if ret =? RET_SUCCESS then (1 + n)%nat else n)
  | tx_commit x s n x' s' : Commit x s = (x', s') -> tx_step (x, s, n) (x', s', n)
  | tx_abort x s n ret x' s' : Abort x s = (ret, x', s') -> tx_step (x, s, n) (x', s', n).

(** The tokens and the promise of a task that is staged. *)
Lemma stage_add params k ret i t' k' : cache_ok k -> Forall (add_known k) params -> Add (new_AddSpmDataTask params) k = (ret, i, t', k') ->
  staged (toks_of (items_ t')) ret (fun k => (Add_Rollback t' k).2) k k' /\ forall t, t ∈ toks_of (items_ t') -> t ∈ map p_tok params.
Proof.
  intros Hok Hk E. rewrite (Add_items _ _ _ _ _ _ E). pose proof (new_task_spec false params) as H. cbv zeta in H. fold (new_AddSpmDataTask params) in H.
  destruct H as (_ & _ & H0 & H1). destruct (isBuildSuccess_ (new_AddSpmDataTask params)) eqn:Eb.
  - destruct (H1 eq_refl) as [Hl Hf]. rewrite (from_params_toks _ _ _ _ Hf). split; [|done]. rewrite <- (from_params_toks _ _ _ _ Hf).
    eapply Add_staged; [|done| |exact E].
    + eapply from_params_ok; [done|done|]. eapply Forall_impl; [exact Hk|]. by intros p [? _].
    + clear -Hf Hk. intros Hwp. rewrite Hwp in Hf. rewrite (from_params_toks _ _ _ _ Hf). intros x c (p & -> & Hp)%list_elem_of_fmap Hc.
      apply (proj1 (Forall_forall _ _) Hk p Hp); [|done]. apply list_elem_of_lookup in Hp as (j & Hj).
      destruct (Forall2_lookup_l _ _ _ _ _ Hf Hj) as (it & _ & _ & _ & -> & _). done.
  - rewrite (H0 eq_refl). split; [|by intros t ?%not_elem_of_nil]. unfold Add in E. rewrite Eb in E. cbn in E. injection E as <- _ _ <-. by apply staged_nothing.
Qed.

Lemma stage_update params k ret i t' k' : cache_ok k -> Forall (update_known k) params -> Update (new_UpdateSpmDataTask params) k = (ret, i, t', k') ->
  staged (toks_of (items_ t')) ret (fun k => (Update_Rollback t' k).2) k k' /\ forall t, t ∈ toks_of (items_ t') -> t ∈ map p_tok params.
Proof.
  intros Hok Hk E. rewrite (Update_toks _ _ _ _ _ _ E). pose proof (new_task_spec true params) as H. cbv zeta in H. fold (new_UpdateSpmDataTask params) in H.
  destruct H as (Hs & Hp & H0 & H1). destruct (isBuildSuccess_ (new_UpdateSpmDataTask params)) eqn:Eb.
  - destruct (H1 eq_refl) as [Hl Hf]. rewrite (from_params_toks _ _ _ _ Hf). split; [|done]. rewrite <- (from_params_toks _ _ _ _ Hf).
    eapply Update_staged; [|done|done|done| |exact E].
    + eapply from_params_ok; [done|done|]. eapply Forall_impl; [exact Hk|]. by intros p [? _].
    + clear -Hf Hk. revert Hf. generalize (items_ (new_UpdateSpmDataTask params)). generalize (updateWithPerm_ (new_UpdateSpmDataTask params)). intros wp.
      induction Hk as [|p ps (K1 & K2 & K3) Hk IH]; intros its Hf; inversion_clear Hf as [|? it ? its' Hi Hf']; [done|].
      apply Forall_cons. split; [|by apply IH]. destruct Hi as (E1 & _ & E3 & E4 & _). unfold old_known, old_codes. rewrite E1, E4. split; [done|].
      intros Hwp. apply K3. congruence.
  - rewrite (H0 eq_refl). split; [|by intros t ?%not_elem_of_nil]. unfold Update in E. rewrite Eb in E. cbn in E. injection E as <- _ _ <-. by apply staged_nothing.
Qed.

(** ** The invariant. *)
Definition finished x : bool := committed_ x || rolledBack_ x.

Record tx_inv s0 x s (n : nat) : Prop := {
  ti_add : finished x = false -> is_Some (addTask_ x) -> addSucceeded_ x = true;
  ti_update : finished x = false -> is_Some (updateTask_ x) -> updateSucceeded_ x = true;
  ti_remove : finished x = false -> is_Some (removeTask_ x) -> removeSucceeded_ x = true;
  ti_live : finished x = false -> slots (tx_kern s0) (tx_kern s) (tx_slots x);
  ti_back : rolledBack_ x = true -> clean (tx_kern s0) (tx_kern s) -> forall t, like_at t (tx_kern s0) (tx_kern s);
  ti_db : n = 0%nat -> forall ty, db_rows (tx_db s) ty ≡ₚ db_rows (tx_db s0) ty;
  ti_failed : dbFailed_ x = true -> committed_ x = false;
  ti_depth : tx_depth s = tx_depth s0 + (if tx_owns_lock x then 1 else 0);
}.

(** All that was staged is taken back. *)
Lemma rollback_kern x s : (is_Some (addTask_ x) -> addSucceeded_ x = true) -> (is_Some (updateTask_ x) -> updateSucceeded_ x = true) ->
  (is_Some (removeTask_ x) -> removeSucceeded_ x = true) ->
  tx_kern (RollbackInternal x s).2 = undo_all (tx_slots x) (tx_kern s) /\ tx_db (RollbackInternal x s).2 = tx_db s /\
  tx_depth (RollbackInternal x s).2 = tx_depth s.
Proof.
  intros Ha Hu Hr. unfold RollbackInternal.
  match goal with |- context [let '(addTask, k) := ?a in _] => assert (exists oa, a = (oa, (add_slot x).2 (tx_kern s))) as [oa ->] end.
  { unfold add_slot. destruct (addTask_ x) as [t|]; [|by eexists]. rewrite Ha by by eexists. cbn [snd]. destruct (Add_Rollback t _) as [[r t1] k]. by eexists. }
  match goal with |- context [let '(updateTask, k) := ?a in _] => assert (exists ou, a = (ou, (update_slot x).2 ((add_slot x).2 (tx_kern s)))) as [ou ->] end.
  { unfold update_slot. destruct (updateTask_ x) as [t|]; [|by eexists]. rewrite Hu by by eexists. cbn [snd]. destruct (Update_Rollback t _) as [[r t1] k]. by eexists. }
  unfold undo_all, tx_slots, remove_slot. cbn. destruct (removeTask_ x) as [t|]; [|done]. by rewrite Hr by by eexists.
Qed.

Lemma undo_all_grows x k : grows k (undo_all (tx_slots x) k).
Proof.
  assert (forall k, grows k ((add_slot x).2 k)) as H1 by (intros k0; unfold add_slot; destruct (addTask_ x); [apply add_rollback_grows|apply grows_refl]).
  assert (forall k, grows k ((update_slot x).2 k)) as H2 by (intros k0; unfold update_slot; destruct (updateTask_ x); [apply update_rollback_grows|apply grows_refl]).
  assert (forall k, grows k ((remove_slot x).2 k)) as H3 by (intros k0; unfold remove_slot; destruct (removeTask_ x); [apply remove_rollback_grows|apply grows_refl]).
  unfold undo_all, tx_slots. cbn [fold_left]. eauto using grows_trans.
Qed.

(** Taking the tasks of a live transaction back. *)
Lemma inv_rollback s0 x s n : tx_inv s0 x s n -> finished x = false -> let s' := (RollbackInternal x s).2 in
  (clean (tx_kern s0) (tx_kern s') -> forall t, like_at t (tx_kern s0) (tx_kern s')) /\ tx_db s' = tx_db s /\ tx_depth s' = tx_depth s.
Proof.
  intros [I1 I2 I3 I4 _ _ _ _] Hf. cbv zeta. destruct (rollback_kern x s (I1 Hf) (I2 Hf) (I3 Hf)) as (-> & -> & ->). split_and!; [|done|done].
  intros Hc. apply undone; [by apply I4|apply undo_all_grows|done].
Qed.

(** Staging one more task in a free place. *)
Lemma inv_stage s0 x s n x' k' i toks ret rb f : tx_inv s0 x s n -> finished x = false -> tx_slots x !! i = Some (([], f) : Slot) ->
  (forall t, t ∈ toks -> t ∉ tx_tokens x) -> staged toks ret rb (tx_kern s) k' ->
  tx_slots x' = (if ret =? RET_SUCCESS then <[i := ((toks, rb) : Slot)]> (tx_slots x) else tx_slots x) ->
  slots (tx_kern s0) k' (tx_slots x').
Proof.
  intros I Hf Hi Hd St Ex. rewrite Ex. assert (forall u t, u ∈ tx_slots x -> t ∈ toks -> t ∉ u.1) as Hd'.
  { intros u t Hu Ht Hin. apply (Hd t Ht). by eapply slot_tokens. }
  pose proof (ti_live _ _ _ _ I Hf) as Hs. destruct (Z.eqb_spec ret RET_SUCCESS) as [->|Hr].
  - by eapply slots_staged.
  - by eapply slots_failed.
Qed.

Lemma step_add s0 params x s n ret x' s' : Forall (add_known (tx_kern s)) params -> (forall p, p ∈ params -> p_tok p ∉ tx_tokens x) ->
  StageKernelAdd params x s = (ret, x', s') -> tx_inv s0 x s n -> tx_inv s0 x' s' n.
Proof.
  intros Hk Hd E I. pose proof I as [I1 I2 I3 I4 I5 I6 I7 I8]. unfold StageKernelAdd in E.
  destruct (committed_ x || rolledBack_ x || _) eqn:G; [by injection E as _ <- <-|].
  apply orb_false_iff in G as [Hf Hn%bool_decide_eq_false]. apply eq_None_not_Some in Hn.
  destruct (Add _ _) as [[[r i] t'] k'] eqn:A. apply stage_add in A as [St Ht]; [|apply (sl_cache _ _ _ (I4 Hf))|done].
  pose proof (fun x'' => inv_stage s0 x s n x'' k' 0%nat _ r _ id I Hf ltac:(unfold tx_slots, add_slot; by rewrite Hn)
    ltac:(intros t Hin%Ht; apply list_elem_of_fmap in Hin as (p & -> & Hp); by apply Hd) St) as Hslots.
  pose proof Hf as [_ Hb]%orb_false_iff.
  destruct (Z.eqb_spec r RET_SUCCESS) as [->|Hr]; cbn [negb] in E; injection E as _ <- <-; (split; cbn; try done; try (by intros _ []); try (by rewrite Hb); intros _; apply Hslots).
  - done.
  - unfold tx_slots, add_slot. cbn. by rewrite Hn.
Qed.

Lemma step_update s0 params x s n ret x' s' : Forall (update_known (tx_kern s)) params -> (forall p, p ∈ params -> p_tok p ∉ tx_tokens x) ->
  StageKernelUpdate params x s = (ret, x', s') -> tx_inv s0 x s n -> tx_inv s0 x' s' n.
Proof.
  intros Hk Hd E I. pose proof I as [I1 I2 I3 I4 I5 I6 I7 I8]. unfold StageKernelUpdate in E.
  destruct (committed_ x || rolledBack_ x || _) eqn:G; [by injection E as _ <- <-|].
  apply orb_false_iff in G as [Hf Hn%bool_decide_eq_false]. apply eq_None_not_Some in Hn.
  destruct (Update _ _) as [[[r i] t'] k'] eqn:A. apply stage_update in A as [St Ht]; [|apply (sl_cache _ _ _ (I4 Hf))|done].
  pose proof (fun x'' => inv_stage s0 x s n x'' k' 1%nat _ r _ id I Hf ltac:(unfold tx_slots, update_slot; by rewrite Hn)
    ltac:(intros t Hin%Ht; apply list_elem_of_fmap in Hin as (p & -> & Hp); by apply Hd) St) as Hslots.
  pose proof Hf as [_ Hb]%orb_false_iff.
  destruct (Z.eqb_spec r RET_SUCCESS) as [->|Hr]; cbn [negb] in E; injection E as _ <- <-; (split; cbn; try done; try (by intros _ []); try (by rewrite Hb); intros _; apply Hslots).
  - done.
  - unfold tx_slots, update_slot. cbn. by rewrite Hn.
Qed.

Lemma step_remove s0 params x s n ret x' s' : Forall (fun p => r_known (tx_kern s) (p_item p)) params ->
  (forall p, p ∈ params -> rp_tokenId p ∉ tx_tokens x) ->
  StageKernelRemove params x s = (ret, x', s') -> tx_inv s0 x s n -> tx_inv s0 x' s' n.
Proof.
  intros Hk Hd E I. pose proof I as [I1 I2 I3 I4 I5 I6 I7 I8]. unfold StageKernelRemove in E.
  destruct (committed_ x || rolledBack_ x || _) eqn:G; [by injection E as _ <- <-|]. split_if_in E; [by injection E as _ <- <-|].
  apply orb_false_iff in G as [Hf Hn%bool_decide_eq_false]. apply eq_None_not_Some in Hn.
  destruct (new_RemoveSpmDataTask params (tx_kern s)) as [t k1] eqn:N. destruct (Remove t k1) as [[[r i] t'] k'] eqn:A.
  pose proof (Remove_toks _ _ _ _ _ _ _ _ N A) as Ht. pose proof (Remove_staged _ _ _ _ _ _ _ _ (sl_cache _ _ _ (I4 Hf)) Hk N A) as St.
  pose proof (fun x'' => inv_stage s0 x s n x'' k' 2%nat (map rp_tokenId params) r _ id I Hf ltac:(unfold tx_slots, remove_slot; by rewrite Hn)
    ltac:(intros t0 Hin; apply list_elem_of_fmap in Hin as (p & -> & Hp); by apply Hd) St) as Hslots.
  pose proof Hf as [_ Hb]%orb_false_iff.
  destruct (Z.eqb_spec r RET_SUCCESS) as [->|Hr]; cbn [negb] in E; injection E as _ <- <-; (split; cbn; try done; try (by intros _ []); try (by rewrite Hb); intros _; apply Hslots).
  - unfold tx_slots, remove_slot. cbn. by rewrite Ht.
  - unfold tx_slots, remove_slot. cbn. by rewrite Hn.
Qed.

Lemma step_inv s0 a b : tx_step a b -> tx_inv s0 a.1.1 a.1.2 a.2 -> tx_inv s0 b.1.1 b.1.2 b.2.
Proof.
  intros [params x s n ret x' s' Hk Hd E|params x s n ret x' s' Hk Hd E|params x s n ret x' s' Hk Hd E|dels adds x s n ret x' s' E|x s n x' s' E|x s n ret x' s' E] I;
    cbn [fst snd] in *; [by eapply step_add|by eapply step_update|by eapply step_remove|..]; pose proof I as [I1 I2 I3 I4 I5 I6 I7 I8].
  - unfold CommitDb in E. split_if_in E; [by injection E as <- <- <-|]. apply orb_false_iff in E0 as [Hc Hb].
    destruct (db_DeleteAndInsertValues _ _ _) as [e db] eqn:D. pose proof (db_DeleteAndInsertValues_spec _ _ _ _ _ D) as Hd.
    destruct (Z.eqb_spec e RET_SUCCESS) as [->|He]; cbn [negb] in E; injection E as <- <- <-; cbn.
    + by split; cbn; [..|done|done|done].
    + split; cbn; try done. intros Hn ty. specialize (Hd ty). rewrite decide_False in Hd by done. etrans; [exact Hd|by apply I6].
  - unfold Commit in E. destruct (dbFailed_ x) eqn:Ed; injection E as <- <-; (split; cbn; try done).
    by rewrite Ed.
  - unfold Abort in E. destruct (committed_ x || rolledBack_ x) eqn:Hf; [by injection E as _ <- <-|].
    destruct (inv_rollback s0 x s n I Hf) as (Hk & Hdb & Hdep). apply orb_false_iff in Hf as [Hc Hb].
    destruct (RollbackInternal x s) as [x1 s1] eqn:R. cbn [snd] in *. injection E as _ <- <-.
    assert (tx_owns_lock x1 = tx_owns_lock x /\ committed_ x1 = committed_ x /\ dbFailed_ x1 = dbFailed_ x) as (El & Ec & Ed).
    { unfold RollbackInternal in R. repeat match type of R with context [let '(a, b) := ?e in _] => destruct e end. by injection R as <- _. }
    assert (forall y, rolledBack_ y = true -> finished y = true) as Hfin by (intros y Hy; unfold finished; by rewrite Hy, orb_true_r).
    split; cbn; try (intros Hx; by rewrite Hfin in Hx).
    + auto.
    + intros Hn. rewrite Hdb. auto.
    + by rewrite Ec.
    + by rewrite Hdep, El.
Qed.

Lemma steps_inv s0 a b : rtc tx_step a b -> tx_inv s0 a.1.1 a.1.2 a.2 -> tx_inv s0 b.1.1 b.1.2 b.2.
Proof. induction 1 as [|a b c Hs _ IH]; [done|]. intros I. by eapply IH, step_inv. Qed.

Lemma new_tx_inv s0 x s : cache_ok (tx_kern s0) -> new_KernelAndDBWriteTransaction s0 = (x, s) -> tx_inv s0 x s 0.
Proof.
  intros Hok E. unfold new_KernelAndDBWriteTransaction in E. assert (slots (tx_kern s0) (tx_kern s0) [([], id); ([], id); ([], id)]) as Hs.
  { split; [done|done|apply grows_refl|intros _ t _; apply same_like, same_at_refl| |].
    - intros _ u Hu. repeat (apply elem_of_cons in Hu as [->|Hu]; [apply undo_nothing|]). by apply not_elem_of_nil in Hu.
    - intros i j u v Hi _ _ t Ht. destruct i as [|[|[|i]]]; cbn in Hi; try (injection Hi as <-; by apply not_elem_of_nil in Ht). done. }
  split_if_in E; injection E as <- <-; split; cbn; try done; try (by intros _ []); lia.
Qed.

(** C5: a transaction of kernel and database is all or nothing.  Assume of the caller that it
    stages each token once, with unsigned permission codes, that a token to be added has no
    permission bits yet, and that the old list given for a token to be updated or removed is
    what its bits say; of the service that its cached answer about the kernel's support is
    right; and of the device, which may fail to open and whose requests may fail, that when it
    could be opened for a batch it can be opened again right after the batch has failed.  Then,
    whatever is called on the transaction between its construction and its end: if it is not
    committed, every SPM entry and every permission bit of every token is at the end what it was
    at the beginning (an entry up to the padding of its name), unless the service has reported
    that an entry could not be read before its removal or that a compensation failed; the
    database is as it was unless it accepted a commit; a transaction in which a commit to the
    database failed never counts as committed; one that is committed keeps what it did; and the
    lock is given back. *)
Theorem transaction_all_or_nothing s0 x0 s1 x s n : cache_ok (tx_kern s0) ->
  new_KernelAndDBWriteTransaction s0 = (x0, s1) -> rtc tx_step (x0, s1, 0%nat) (x, s, n) ->
  let s' := delete_KernelAndDBWriteTransaction x s in
  (committed_ x = false -> clean (tx_kern s0) (tx_kern s') -> forall t, like_at t (tx_kern s0) (tx_kern s')) /\
  (committed_ x = true -> dbFailed_ x = false /\ tx_kern s' = tx_kern s) /\
  (n = 0%nat -> forall ty, db_rows (tx_db s') ty ≡ₚ db_rows (tx_db s0) ty) /\
  (0 <= tx_depth s0 -> tx_depth s' = tx_depth s0).
Proof.
  intros Hok N%new_tx_inv Hs; [|done]. pose proof (steps_inv s0 _ _ Hs N) as I. cbn [fst snd] in I. pose proof I as [_ _ _ _ I5 I6 I7 I8].
  unfold delete_KernelAndDBWriteTransaction. destruct (negb (committed_ x) && negb (rolledBack_ x)) eqn:Hf.
  - apply andb_true_iff in Hf as [Hc%negb_true_iff Hb%negb_true_iff]. destruct (inv_rollback s0 x s n I) as (Hk & Hdb & Hdep); [unfold finished; by rewrite Hc, Hb|].
    set (s2 := (RollbackInternal x s).2) in *.
    revert I8; destruct (tx_owns_lock x); intros I8; cbn zeta; [|split_and!; [done|congruence|intros Hn; rewrite Hdb; auto|intros ?; lia]].
    unfold ExitWrite. destruct (Z.ltb_spec 0 (tx_depth s2)); cbn; (split_and!; [done|congruence|intros Hn; rewrite Hdb; auto|intros ?; lia]).
  - assert (committed_ x = true \/ rolledBack_ x = true) as Hor by (destruct (committed_ x), (rolledBack_ x); auto).
    revert I8; destruct (tx_owns_lock x); intros I8; cbn zeta; [unfold ExitWrite; destruct (Z.ltb_spec 0 (tx_depth s)); cbn|].
    all: split_and!; [intros Hc; destruct Hor; [congruence|auto]|intros Hc; split; [|done]; destruct (dbFailed_ x) eqn:Ed; [by rewrite I7 in Hc|done]|done|intros ?; lia].
Qed.
End Transaction.

(** ** A transaction whose commit to the database fails. *)
#[local] Existing Instance sample_table.

Definition new_hap (t : Z) : HapTokenInfo := mkHapTokenInfo 1 100 "com.example.app" 12 0 0 t 0 20010040.
Definition sample_param (t : Z) (old : option (list BriefPermData)) : SpmDataParam :=
  mkSpmDataParam (new_hap t) (mkBundleNoCachedInfo 1 2 0 77) [mkBriefPermData PERMISSION_GRANTED 0 3 0] [] old true.
Definition empty_kernel : Kern MemSpm := mkKern (mkMemSpm (mkMemDevice ∅ []) ∅ []) None [].
Definition tx_start (faults : list Z) : TxState MemRdb MemSpm := mkTxState empty_kernel (mkMemRdb ∅ faults) 0 [].

Definition tx_staged : Z * KernelAndDBWriteTransaction * TxState MemRdb MemSpm :=
  let '(x, s) := new_KernelAndDBWriteTransaction (tx_start [14; 14; 14]) in StageKernelAdd [sample_param 536870917 None] x s.
Definition tx_refused : Z * KernelAndDBWriteTransaction * TxState MemRdb MemSpm :=
  let '(_, x, s) := tx_staged in CommitDb [] [] x s.
Definition tx_ended : KernelAndDBWriteTransaction * TxState MemRdb MemSpm := let '(_, x, s) := tx_refused in Commit x s.

(** The entry and the bit are there when the database refuses, and gone at the end. *)
Lemma transaction_all_or_nothing_witness :
  is_Some (entry_at (tx_kern tx_refused.2) 536870917) /\ bit_at (tx_kern tx_refused.2) 536870917 3 = true /\
  tx_refused.1.1 = ERR_DATABASE_OPERATE_FAILED /\
  forall t, like_at t empty_kernel (tx_kern (delete_KernelAndDBWriteTransaction tx_ended.1 tx_ended.2)).
Proof.
  split; [vm_compute; by eexists|]. split; [vm_compute; reflexivity|]. split; [vm_compute; reflexivity|].
  destruct (transaction_all_or_nothing (tx_start [14; 14; 14]) (new_KernelAndDBWriteTransaction (tx_start [14; 14; 14])).1
    (new_KernelAndDBWriteTransaction (tx_start [14; 14; 14])).2 tx_ended.1 tx_ended.2 0) as (H & _).
  - intros _. reflexivity.
  - reflexivity.
  - eapply (rtc_l _ _ (tx_staged.1.2, tx_staged.2, 0%nat)); [|eapply (rtc_l _ _ (tx_refused.1.2, tx_refused.2, 0%nat)); [|apply rtc_once]].
    + eapply (tx_add [sample_param 536870917 None] _ _ _ RET_SUCCESS); [|intros p _; apply not_elem_of_nil|vm_compute; reflexivity].
      apply Forall_cons. split; [|constructor]. split; [by repeat constructor|]. intros _ c _. reflexivity.
    + eapply (tx_commit_db [] [] _ _ 0%nat ERR_DATABASE_OPERATE_FAILED). vm_compute. reflexivity.
    + eapply tx_commit. vm_compute. reflexivity.
  - apply H; [vm_compute; reflexivity|]. exists []. split; [vm_compute; reflexivity|constructor].
Defined.

(** ** Two ways in which an entry goes wrong without a report. *)

(** One token is added and then updated in one transaction that is not committed. *)
Definition tx_add_update : KernelAndDBWriteTransaction * TxState MemRdb MemSpm :=
  let '(x, s) := new_KernelAndDBWriteTransaction (tx_start []) in
  let '(_, x, s) := StageKernelAdd [sample_param 536870917 None] x s in
  let '(_, x, s) := StageKernelUpdate [sample_param 536870917 (Some [mkBriefPermData PERMISSION_GRANTED 0 3 0])] x s in (x, s).
Definition tx_left : Kern MemSpm := tx_kern (delete_KernelAndDBWriteTransaction tx_add_update.1 tx_add_update.2).

(** That a token is staged once matters: a token that one transaction adds and then updates keeps its SPM entry and its permission
    bits when the transaction is not committed, and nothing is reported: the tasks are taken back
    in the order in which they were made, so the update restores what the addition had removed. *)
Theorem rollback_order_leaves_entry :
  committed_ tx_add_update.1 = false /\ entry_at empty_kernel 536870917 = None /\ bit_at empty_kernel 536870917 3 = false /\
  is_Some (entry_at tx_left 536870917) /\ bit_at tx_left 536870917 3 = true /\ kn_reports tx_left = [].
Proof.
  split; [vm_compute; reflexivity|]. split; [vm_compute; reflexivity|]. split; [vm_compute; reflexivity|].
  split; [vm_compute; by eexists|]. split; vm_compute; reflexivity.
Qed.

Definition known_entry (t : Z) : SpmData := mkSpmData 20010041 t 0 0 1 2 0 77 [99; 0] (replicate 256 0) [].
Definition flaky_kernel : Kern FlakySpm :=
  mkKern (mkFlakySpm (mkMemSpm (mkMemDevice ∅ []) {[ 536870918 := known_entry 536870918 ]} [Some 1%nat]) [true; true; false]) None [].
Definition flaky_add : Z * Z * SpmDataTask * Kern FlakySpm :=
  Add (new_AddSpmDataTask [sample_param 536870917 None; sample_param 536870918 None; sample_param 536870919 None]) flaky_kernel.

(** An addition that fails can remove the entry of a token it did not add.  The first attempt
    stops at the second of three entries, which the kernel has already; the device cannot be
    opened for the second attempt, whose index keeps the value of the first, and the two are
    added up: the rollback takes the second entry for one of its own and removes it, and nothing
    is reported. *)
Theorem stale_index_removes_entry :
  is_Some (ms_entries (fl_dev (kn_dev flaky_kernel)) !! 536870918) /\ flaky_add.1.1.1 = ERR_KERNEL_COMMON_FAILED /\
  flaky_add.1.1.2 = 2 /\ ms_entries (fl_dev (kn_dev flaky_add.2)) !! 536870918 = None /\ kn_reports flaky_add.2 = [].
Proof.
  split; [vm_compute; by eexists|]. split; [vm_compute; reflexivity|]. split; [vm_compute; reflexivity|]. split; vm_compute; reflexivity.
Qed.
