(* ===== verification/SpmBufferProps.v ===== *)
(** * The loops over SPM entries and over the values of permissions

    The buffer of the values of permissions is written by spm_data_kernel_common.cpp and read by
    two routines: the one of that file, for the service, and the one of spm_setproc.c, for the
    processes that start applications. *)

From stdpp Require Import base gmap list strings.
From S2P Require Import Prelude AccessTokenTypes PermissionMap PermissionDataBrief Kernel HapTokenInfo Spm SpmTheory SpmTasks SpmTaskTheory SpmUndoRemove SpmSamples.
#[local] Open Scope string_scope.
#[local] Open Scope list_scope.
#[local] Open Scope Z_scope.
#[local] Open Scope cxx_scope.

(** ** Bytes in a buffer. *)
Definition is_byte (b : Z) : Prop := 0 <= b < 256.

Lemma bytes_u32_nonneg l : Forall is_byte l -> 0 <= bytes_u32 l.
Proof.
  unfold is_byte. intros H. destruct l as [|b0 [|b1 [|b2 [|b3 l]]]]; cbn [bytes_u32]; try done.
  apply Forall_cons in H as [? H]. apply Forall_cons in H as [? H]. apply Forall_cons in H as [? H]. apply Forall_cons in H as [? H]. lia.
Qed.

Lemma slice_bytes o n l : Forall is_byte l -> Forall is_byte (slice o n l).
Proof. intros H. by apply Forall_take, Forall_drop. Qed.

Lemma u32_bytes_u32 x : 0 <= x < 2 ^ 32 -> bytes_u32 (u32_bytes x) = x.
Proof.
  intros H. unfold u32_bytes, bytes_u32, u8. cbn [bytes_u32].
  rewrite !Z.shiftr_div_pow2 by lia. change (2 ^ 8) with 256. change (2 ^ 16) with (256 * 256). change (2 ^ 24) with (256 * (256 * 256)).
  rewrite <- !Z.div_div by lia. change (2 ^ 32) with (256 * 256 * 256 * 256) in H.
  rewrite (Z.mod_small (x / 256 / 256 / 256)) by (repeat (split; [repeat (apply Z.div_pos; [|done]); lia|]); repeat (apply Z.div_lt_upper_bound; [done|]); lia).
  pose proof (Z.div_mod x 256). pose proof (Z.div_mod (x / 256) 256). pose proof (Z.div_mod (x / 256 / 256) 256). lia.
Qed.

Lemma bytes_string_bytes s : bytes_string (string_bytes s) = s.
Proof.
  unfold bytes_string, string_bytes. rewrite map_map, (map_ext _ id), map_id; [apply String.string_of_list_ascii_of_string|].
  intros c. rewrite Nat2Z.id. apply Ascii.ascii_nat_embedding.
Qed.

Lemma string_bytes_length s : length (string_bytes s) = String.length s.
Proof. unfold string_bytes. rewrite length_map. induction s as [|c s IH]; cbn; [done|by rewrite IH]. Qed.

Lemma slice_mid pre l post o n : o = Z.of_nat (length pre) -> n = Z.of_nat (length l) -> slice o n (pre ++ l ++ post) = l.
Proof. intros -> ->. unfold slice. by rewrite !Nat2Z.id, drop_app_length, take_app_length. Qed.

(** ** Reading a buffer ends. *)
Section Ends.
Context {PT : PermTable}.
Variable buf : list Z.
Hypothesis Hb : Forall is_byte buf.

Lemma size_nonneg o : 0 <= bytes_u32 (slice o 4 buf).
Proof. by apply bytes_u32_nonneg, slice_bytes. Qed.

(** Every round goes at least eight bytes further. *)
Lemma parse_ends fuel : forall o acc, Z.of_nat (length buf) - o <= Z.of_nat fuel -> is_Some (ParseExtendedPermissionBuffer_loop fuel buf o acc).
Proof.
  induction fuel as [|fuel IH]; intros o acc Hf; cbn [ParseExtendedPermissionBuffer_loop]; (destruct (Z.leb_spec o (Z.of_nat (length buf) - 4 - 4)); [|by eexists]); [lia|].
  cbn [negb]. split_if; [by eexists|]. apply IH. pose proof (size_nonneg (o + 4)). lia.
Qed.

Lemma transfer_ends fuel : forall cap o n acc, Z.of_nat (length buf) - o <= Z.of_nat fuel -> is_Some (TransferSpmExternPerms_loop fuel buf cap o n acc).
Proof.
  induction fuel as [|fuel IH]; intros cap o n acc Hf; cbn [TransferSpmExternPerms_loop]; (destruct (Z.leb_spec o (Z.of_nat (length buf) - 8)); [|by eexists]); [lia|].
  cbn [negb]. split_if; [by eexists|]. set (acc' := if n <? cap then _ else _). split_if; [by eexists|]. apply IH. pose proof (size_nonneg (o + 4)). lia.
Qed.
End Ends.

(** C29: the loops of the SPM code end, whatever the device answers: the batches of the at most
    255 entries that one call submits, the restoration of removed entries, which drops the
    entries up to the one that is in conflict and goes on, and both readers of the buffer of
    values, whatever bytes it holds. *)
Theorem spm_loops_end {PT : PermTable} {K : Type} `{!TokenDevice K} `{!SpmDevice K} (cmd : SpmCmd) (entries : list SpmData)
    (cnt idxErr capacity : Z) (k : K) (s : Kern K) (buf : list Z) :
  0 <= cnt <= 255 -> Forall is_byte buf ->
  is_Some (SpmBatchEntries_loop batch_fuel cmd entries cnt 0 idxErr k) /\
  is_Some (RestoreSpmEntries_loop (length entries) entries s) /\
  is_Some (ParseExtendedPermissionBuffer_loop (length buf) buf 0 []) /\
  is_Some (TransferSpmExternPerms_loop (length buf) buf capacity 0 0 []).
Proof.
  intros Hc Hb. split_and!.
  - apply batches_end; [done|lia|]. unfold batch_fuel. lia.
  - by apply restore_ends.
  - apply parse_ends; [done|lia].
  - apply transfer_ends; [done|lia].
Qed.

(** ** What is written is read. *)
Section Roundtrip.
Context {PT : PermTable} `{!PermTableLaws PT}.

(** The permissions of a list that the table knows, by their names. *)
Definition known_values (l : list PermissionWithValue) : list PermissionWithValue :=
  omap (fun p => (fun _ => mkPermissionWithValue (c_str (pwv_permissionName p)) (pwv_value p)) <$> TransferPermissionToOpcode (pwv_permissionName p)) l.

(** The same by their codes, each value with its final zero. *)
Definition known_codes (l : list PermissionWithValue) : list (Z * list Z) :=
  omap (fun p => (fun c => (c, string_bytes (pwv_value p) ++ [0])) <$> TransferPermissionToOpcode (pwv_permissionName p)) l.

Lemma u32_bytes_length x : length (u32_bytes x) = 4%nat.
Proof. done. Qed.

Lemma record_length c v : length (extended_record c v) = (9 + String.length v)%nat.
Proof. unfold extended_record. rewrite !length_app, !u32_bytes_length, string_bytes_length. cbn. lia. Qed.

(** The three parts of a record at [o] in a buffer. *)
Lemma record_fields pre c v post o : o = Z.of_nat (length pre) -> 0 <= c < 2 ^ 32 -> Z.of_nat (String.length v) + 1 < 2 ^ 32 ->
  let buf := pre ++ extended_record c v ++ post in let n := Z.of_nat (String.length v) + 1 in
  bytes_u32 (slice o 4 buf) = c /\ bytes_u32 (slice (o + 4) 4 buf) = n /\
  slice (o + 8) n buf = string_bytes v ++ [0] /\ slice (o + 8) (n - 1) buf = string_bytes v /\
  Z.of_nat (length buf) = o + 8 + n + Z.of_nat (length post).
Proof.
  intros Ho Hc Hv. cbv zeta. pose proof (record_length c v) as Hl. unfold extended_record in *.
  set (a := u32_bytes c) in *. set (b := u32_bytes (Z.of_nat (String.length v) + 1)) in *. set (s := string_bytes v) in *.
  assert (length a = 4%nat) as La by done. assert (length b = 4%nat) as Lb by done.
  assert (length s = String.length v) as Ls by apply string_bytes_length.
  assert (pre ++ (a ++ b ++ s ++ [0]) ++ post = pre ++ a ++ b ++ s ++ [0] ++ post) as -> by by rewrite <- !(assoc_L (++)).
  split_and!.
  - rewrite (slice_mid pre a) by lia. by apply u32_bytes_u32.
  - rewrite (assoc_L (++) pre a). rewrite (slice_mid (pre ++ a) b) by (rewrite ?length_app; lia). apply u32_bytes_u32. lia.
  - rewrite (assoc_L (++) pre a), (assoc_L (++) _ b), (assoc_L (++) s). apply slice_mid; rewrite !length_app; cbn; lia.
  - rewrite (assoc_L (++) pre a), (assoc_L (++) _ b). apply slice_mid; rewrite ?length_app; lia.
  - rewrite !length_app. cbn. lia.
Qed.

Lemma code_range p c : TransferPermissionToOpcode p = Some c -> 0 <= c < 2 ^ 32.
Proof. intros H%opcode_range. pose proof permList_size. unfold MAX_PERM_SIZE in *. lia. Qed.

Lemma parse_built l : forall pre fuel acc, Z.of_nat (length (BuildExtendedPermissionBuffer l)) < 2 ^ 32 ->
  (length (BuildExtendedPermissionBuffer l) <= fuel)%nat ->
  ParseExtendedPermissionBuffer_loop fuel (pre ++ BuildExtendedPermissionBuffer l) (Z.of_nat (length pre)) acc =
    Some (RET_SUCCESS, acc ++ known_values l).
Proof.
  unfold BuildExtendedPermissionBuffer. induction l as [|p l IH]; intros pre fuel acc Hs Hf; cbn [map concat known_values omap list_omap] in *.
  - rewrite !app_nil_r. destruct fuel; cbn [ParseExtendedPermissionBuffer_loop]; destruct (Z.leb_spec (Z.of_nat (length pre)) (Z.of_nat (length pre) - 4 - 4)); [lia|done|lia|done].
  - destruct (TransferPermissionToOpcode _) as [c|] eqn:Ec; cbn [fmap option_fmap option_map]; [|by apply IH].
    rewrite length_app, record_length in Hs, Hf. destruct fuel as [|fuel]; [lia|]. cbn [ParseExtendedPermissionBuffer_loop].
    match goal with |- context [extended_record c _ ++ ?q] => set (post := q) in * end.
    destruct (record_fields pre c (pwv_value p) post _ eq_refl) as (F1 & F2 & _ & F4 & F5); [by eapply code_range|lia|].
    set (o := Z.of_nat (length pre)) in *. rewrite F1. replace (o + 4 + 4) with (o + 8) by lia. rewrite F2, F4, F5.
    set (n := Z.of_nat (String.length (pwv_value p)) + 1) in *. assert (0 < n) by lia.
    destruct (Z.leb_spec o (o + 8 + n + Z.of_nat (length post) - 4 - 4)); [|lia]. cbn [negb].
    rewrite (proj2 (Z.eqb_neq n 0)), (proj2 (Z.ltb_ge _ n)), (proj2 (Z.ltb_ge _ (o + 8))) by lia. cbn [orb].
    rewrite (assoc_L (++) pre). replace (o + 8 + n) with (Z.of_nat (length (pre ++ extended_record c (pwv_value p)))) by (rewrite length_app, record_length; lia).
    unfold post. rewrite IH by (fold post; lia). rewrite bytes_string_bytes, (opcode_to_name _ _ Ec), <- (assoc_L (++)). done.
Qed.

Lemma transfer_built l : forall pre fuel cap n acc, Z.of_nat (length (BuildExtendedPermissionBuffer l)) < 2 ^ 32 ->
  (length (BuildExtendedPermissionBuffer l) <= fuel)%nat -> 0 <= n -> n + Z.of_nat (length (known_codes l)) <= cap ->
  TransferSpmExternPerms_loop fuel (pre ++ BuildExtendedPermissionBuffer l) cap (Z.of_nat (length pre)) n acc =
    Some (ACCESS_TOKEN_OK, acc ++ known_codes l).
Proof.
  unfold BuildExtendedPermissionBuffer. induction l as [|p l IH]; intros pre fuel cap n acc Hs Hf Hn Hcap; cbn [map concat known_codes omap list_omap] in *.
  - rewrite !app_nil_r. destruct fuel; cbn [TransferSpmExternPerms_loop]; (destruct (Z.leb_spec (Z.of_nat (length pre)) (Z.of_nat (length pre) - 8)); [lia|]); cbn [negb]; by rewrite Z.eqb_refl.
  - destruct (TransferPermissionToOpcode _) as [c|] eqn:Ec; cbn [fmap option_fmap option_map] in *; [|by apply IH].
    rewrite length_app, record_length in Hs, Hf. destruct fuel as [|fuel]; [lia|]. cbn [TransferSpmExternPerms_loop].
    match goal with |- context [extended_record c _ ++ ?q] => set (post := q) in * end.
    destruct (record_fields pre c (pwv_value p) post _ eq_refl) as (F1 & F2 & F3 & _ & F5); [by eapply code_range|lia|].
    set (o := Z.of_nat (length pre)) in *. rewrite F1, F2, F3, F5.
    set (m := Z.of_nat (String.length (pwv_value p)) + 1) in *. assert (0 < m) by lia. cbn [length] in Hcap.
    destruct (Z.leb_spec o (o + 8 + m + Z.of_nat (length post) - 8)); [|lia]. cbn [negb].
    rewrite (proj2 (Z.ltb_ge _ m)), (proj2 (Z.ltb_ge cap _)), (proj2 (Z.ltb_lt n cap)) by (change (omap _ l) with (known_codes l) in Hcap; lia).
    rewrite (assoc_L (++) pre). replace (o + 8 + m) with (Z.of_nat (length (pre ++ extended_record c (pwv_value p)))) by (rewrite length_app, record_length; lia).
    unfold post. rewrite IH by (fold post; change (omap _ l) with (known_codes l) in Hcap; lia). by rewrite <- (assoc_L (++)).
Qed.

Lemma built_size l : BuildExtendedPermissionBuffer l = [] \/ (9 <= length (BuildExtendedPermissionBuffer l))%nat.
Proof.
  unfold BuildExtendedPermissionBuffer. induction l as [|p l IH]; cbn [map concat]; [by left|].
  destruct (TransferPermissionToOpcode _); [|done]. right. rewrite length_app, record_length. lia.
Qed.

Lemma parse_values l : Z.of_nat (length (BuildExtendedPermissionBuffer l)) <= 4096 ->
  ParseExtendedPermissionBuffer (BuildExtendedPermissionBuffer l) [] = (RET_SUCCESS, known_values l).
Proof.
  intros Hs. pose proof (parse_built l [] (length (BuildExtendedPermissionBuffer l)) [] ltac:(lia) ltac:(done)) as P. cbn [app length] in P.
  change (Z.of_nat 0) with 0 in P. unfold ParseExtendedPermissionBuffer. destruct (built_size l) as [E|Hl].
  - rewrite E in *. cbn in P. by injection P as <-.
  - rewrite bool_decide_false by (intros E; rewrite E in Hl; cbn in Hl; lia). rewrite (proj2 (Z.ltb_ge _ (4 + 4))) by lia. by rewrite P.
Qed.

Lemma transfer_values l cap : Z.of_nat (length (BuildExtendedPermissionBuffer l)) <= 4096 -> 0 < cap -> Z.of_nat (length (known_codes l)) <= cap ->
  TransferSpmExternPerms (BuildExtendedPermissionBuffer l) cap = (ACCESS_TOKEN_OK, known_codes l).
Proof.
  intros Hs Hc Hcap. pose proof (transfer_built l [] (length (BuildExtendedPermissionBuffer l)) cap 0 [] ltac:(lia) ltac:(done) ltac:(done) Hcap) as P.
  cbn [app length] in P. change (Z.of_nat 0) with 0 in P. unfold TransferSpmExternPerms. rewrite (proj2 (Z.eqb_neq cap 0)) by lia.
  destruct (built_size l) as [E|Hl].
  - rewrite E in *. cbn in P. by injection P as <-.
  - rewrite bool_decide_false by (intros E; rewrite E in Hl; cbn in Hl; lia). rewrite (proj2 (Z.leb_gt _ 8)) by lia. by rewrite P.
Qed.

Lemma build_fields hap info perms ext d : BuildSpmData hap info perms ext = inr d ->
  sd_extendPerms d = BuildExtendedPermissionBuffer ext /\ Z.of_nat (length (sd_extendPerms d)) <= 4096 /\ sd_name d <> [] /\ sd_tokenid d = hti_tokenID hap /\
  sd_apl d = u16 (bni_apl info) /\ sd_distributionType d = u16 (bni_distributionType info) /\ sd_idType d = bni_idType info /\ sd_ownerid d = bni_ownerid info.
Proof.
  unfold BuildSpmData. split_if; [done|]. intros [= <-]. unfold DEFAULT_EXTENDED_PERMS in *. cbn.
  match goal with H : (_ <? _) = false |- _ => apply Z.ltb_ge in H end. split_and!; try done. by intros [_ ?]%app_eq_nil.
Qed.

(** C28: what the service writes of an application into the kernel is what it and the processes
    that start applications read: when the entry built for an application is added to the kernel
    and the kernel gives it back, the level, the distribution type, the kind and the value of the
    owner are those of the application, and the values of its permissions are those it was built
    from, in order, less the permissions that the table does not know; and the reader of
    spm_setproc.c gets the same values by their codes from the same bytes. *)
Theorem kernel_bundle_info_roundtrip {K : Type} `{!TokenDevice K} `{!TokenDeviceLaws K} `{!SpmDevice K} `{!SpmLaws K} `{!DeviceReopens K}
    {BC : BuildConfig} (hap : HapTokenInfo) info perms ext d (k k1 k2 : K) idx ret info' values :
  BuildSpmData hap info perms ext = inr d -> AddSpmEntriesToKernel [d] k = (RET_SUCCESS, idx, k1) ->
  GetBundleInfoFromKernel (hti_tokenID hap) [] k1 = (inr (ret, info', values), k2) ->
  ret = RET_SUCCESS /\ values = known_values ext /\
  info' = mkBundleNoCachedInfo (u16 (bni_apl info)) (u16 (bni_distributionType info)) (bni_idType info) (bni_ownerid info) /\
  (forall cap, 0 < cap -> Z.of_nat (length (known_codes ext)) <= cap -> TransferSpmExternPerms (sd_extendPerms d) cap = (ACCESS_TOKEN_OK, known_codes ext)).
Proof.
  intros (Ex & Hs & Hn & Ht & E1 & E2 & E3 & E4)%build_fields A G. apply AddEntries_done in A as [_ _ [Hw _] _]; [|split; [done|by constructor]].
  unfold done_count in Hw. cbn in Hw. rewrite Ht in Hw. unfold GetBundleInfoFromKernel in G. split_if_in G; [|done].
  destruct (LoadSpmDataFromKernel _ k1) as [r k3] eqn:L. apply Load_done in L as (_ & _ & L & _). destruct r as [e|d']; [done|].
  destruct (L d' eq_refl) as (d0 & E0 & -> & _). rewrite Hw in E0.
  assert (d0 = d) as ->. { destruct (spm_entries k !! hti_tokenID hap); rewrite lookup_insert_eq in E0; by injection E0 as <-. }
  cbn [sd_extendPerms padded sd_apl sd_distributionType sd_idType sd_ownerid] in G. rewrite Ex in G, Hs. rewrite (parse_values ext Hs) in G.
  injection G as <- <- <- <-. rewrite E1, E2, E3, E4, Ex. split_and!; try done. intros cap Hc Hcap. by apply transfer_values.
Qed.
End Roundtrip.

(** ** Examples. *)
#[local] Existing Instances sample_table sample_table_laws full_config.

Definition sample_values : list PermissionWithValue :=
  [mkPermissionWithValue KERNEL_VALUE "com.example.domain"; mkPermissionWithValue "ohos.permission.UNKNOWN" "x"].
Definition sample_hap : HapTokenInfo := mkHapTokenInfo 1 100 "com.example.app" 12 0 0 536870917 0 20010040.
Definition sample_info : BundleNoCachedInfo := mkBundleNoCachedInfo 1 2 0 77.
Definition sample_spm_data : SpmData :=
  match BuildSpmData sample_hap sample_info [mkBriefPermData PERMISSION_GRANTED 0 5 0] sample_values with inr d => d | inl _ => SpmDataNew 0 0 0 end.
Definition sample_device : MemSpm := mkMemSpm (mkMemDevice ∅ []) ∅ [].
Definition sample_kernel : MemSpm := (AddSpmEntriesToKernel [sample_spm_data] sample_device).2.

Lemma spm_loops_end_witness :
  is_Some (SpmBatchEntries_loop batch_fuel ADD_SPM_ENTRIES (replicate 120 sample_spm_data) 120 0 0 sample_device) /\
  is_Some (TransferSpmExternPerms_loop 12 [1; 0; 0; 0; 255; 255; 255; 255; 0; 0; 0; 0] 4 0 0 []).
Proof.
  destruct (spm_loops_end ADD_SPM_ENTRIES (replicate 120 sample_spm_data) 120 0 4 sample_device
    (mkKern sample_device None []) [1; 0; 0; 0; 255; 255; 255; 255; 0; 0; 0; 0]) as (H1 & _ & _ & H2).
  - lia.
  - unfold is_byte. repeat (apply Forall_cons; split; [lia|]). constructor.
  - split; [exact H1|exact H2].
Defined.

Lemma kernel_bundle_info_roundtrip_witness :
  known_values sample_values = [mkPermissionWithValue KERNEL_VALUE "com.example.domain"] /\
  TransferSpmExternPerms (sd_extendPerms sample_spm_data) 1 = (ACCESS_TOKEN_OK, [(5, string_bytes "com.example.domain" ++ [0])]).
Proof.
  split; [vm_compute; reflexivity|].
  destruct (kernel_bundle_info_roundtrip sample_hap sample_info [mkBriefPermData PERMISSION_GRANTED 0 5 0] sample_values sample_spm_data
    sample_device sample_kernel (GetBundleInfoFromKernel 536870917 [] sample_kernel).2 0 RET_SUCCESS sample_info (known_values sample_values))
    as (_ & _ & _ & H).
  - vm_compute. reflexivity.
  - vm_compute. reflexivity.
  - vm_compute. reflexivity.
  - rewrite H; [vm_compute; reflexivity|lia|vm_compute; intros ?; discriminate].
Defined.
