(* ===== verification/InfoManager.v ===== *)
(** * Token information: the state and its elementary operations

    AccessTokenInfoManager (accesstoken_info_manager.cpp) keeps the application and native
    tokens and drives the other managers: the permission store, the id manager, the user
    policies, the database and the kernel bits.  Here: the whole state, the lookups with
    their fall-back to the database, and adding and removing an application token. *)

From stdpp Require Import base gmap list strings.
From S2P Require Import Prelude AccessTokenTypes TokenId Database PermissionMap Validator DataTranslator PermissionDataBrief IdManager UserPolicy ToggleManager ConstraintCheck HapTokenInfo Kernel.
#[local] Open Scope string_scope.
#[local] Open Scope list_scope.
#[local] Open Scope Z_scope.
#[local] Open Scope cxx_scope.

Definition STATE_CHANGE_REVOKED : Z := 0.
Definition STATE_CHANGE_GRANTED : Z := 1.
Definition SYSTEM_RESOURCE_BUNDLE_NAME : string := "ohos.global.systemres".
Definition BUTT_DLP_TYPE : Z := 5.

(** [ReservedType]. *)
Definition RESERVED_NONE : Z := 0.
Definition RESERVED_IDENTITY : Z := 1.

(** [NativeTokenInfoCache]. *)
Record NativeTokenInfoCache := mkNativeTokenInfoCache {
  ntc_apl : Z;
  ntc_processName : string;
  ntc_opCodeList : list Z;
}.

(** What the managers send out: callbacks to listeners, updates of the system parameters
    clients watch, messages to the synchronisation service, and requests to kill. *)
Inductive Event :=
  | ExecuteCallbackAsync (tokenID : Z) (permissionName : string) (changeType : Z)
  | ParamUpdate (permissionName : string) (flag : Z) (filtered : bool)
  | ParamFlagUpdate
  | NotifyTokenModify (tokenID : Z)
  | NotifyTokenDelete (tokenID : Z)
  | KillProcessForPermissionUpdate (tokenID : Z).
#[export] Instance Event_eq_dec : EqDecision Event.
Proof. solve_decision. Defined.

(** The members of the manager and the states it shares with the others.  The map of tokens
    is keyed by the token id; [w_clock] is the sequence of readings of the clock. *)
Record World (S K : Type) := mkWorld {
  hapTokenInfoMap_ : gmap Z HapTokenInfoInner;
  hapTokenIdMap_ : gmap string Z;
  reservedHapTokenIdMap_ : gmap string Z;
  nativeTokenInfoMap_ : gmap Z NativeTokenInfoCache;
  w_brief : Brief;
  w_ids : IdMgr;
  w_policies : Records;
  w_modes : DlpModes;
  w_db : S;
  w_kernel : K;
  w_clock : nat -> Z;
  w_events : list Event;
}.
#[global] Arguments mkWorld {S K}.
#[global] Arguments hapTokenInfoMap_ {S K}.
#[global] Arguments hapTokenIdMap_ {S K}.
#[global] Arguments reservedHapTokenIdMap_ {S K}.
#[global] Arguments nativeTokenInfoMap_ {S K}.
#[global] Arguments w_brief {S K}.
#[global] Arguments w_ids {S K}.
#[global] Arguments w_policies {S K}.
#[global] Arguments w_modes {S K}.
#[global] Arguments w_db {S K}.
#[global] Arguments w_kernel {S K}.
#[global] Arguments w_clock {S K}.
#[global] Arguments w_events {S K}.

Section Setters.
Context {S K : Type}.
Implicit Types (w : World S K).

Definition set_haps m w : World S K :=
  mkWorld m (hapTokenIdMap_ w) (reservedHapTokenIdMap_ w) (nativeTokenInfoMap_ w) (w_brief w) (w_ids w) (w_policies w)
    (w_modes w) (w_db w) (w_kernel w) (w_clock w) (w_events w).
Definition set_hapIds m w : World S K :=
  mkWorld (hapTokenInfoMap_ w) m (reservedHapTokenIdMap_ w) (nativeTokenInfoMap_ w) (w_brief w) (w_ids w) (w_policies w)
    (w_modes w) (w_db w) (w_kernel w) (w_clock w) (w_events w).
Definition set_reserved m w : World S K :=
  mkWorld (hapTokenInfoMap_ w) (hapTokenIdMap_ w) m (nativeTokenInfoMap_ w) (w_brief w) (w_ids w) (w_policies w)
    (w_modes w) (w_db w) (w_kernel w) (w_clock w) (w_events w).
Definition set_natives m w : World S K :=
  mkWorld (hapTokenInfoMap_ w) (hapTokenIdMap_ w) (reservedHapTokenIdMap_ w) m (w_brief w) (w_ids w) (w_policies w)
    (w_modes w) (w_db w) (w_kernel w) (w_clock w) (w_events w).
Definition set_brief st w : World S K :=
  mkWorld (hapTokenInfoMap_ w) (hapTokenIdMap_ w) (reservedHapTokenIdMap_ w) (nativeTokenInfoMap_ w) st (w_ids w)
    (w_policies w) (w_modes w) (w_db w) (w_kernel w) (w_clock w) (w_events w).
Definition set_ids ids w : World S K :=
  mkWorld (hapTokenInfoMap_ w) (hapTokenIdMap_ w) (reservedHapTokenIdMap_ w) (nativeTokenInfoMap_ w) (w_brief w) ids
    (w_policies w) (w_modes w) (w_db w) (w_kernel w) (w_clock w) (w_events w).
Definition set_db db w : World S K :=
  mkWorld (hapTokenInfoMap_ w) (hapTokenIdMap_ w) (reservedHapTokenIdMap_ w) (nativeTokenInfoMap_ w) (w_brief w)
    (w_ids w) (w_policies w) (w_modes w) db (w_kernel w) (w_clock w) (w_events w).
Definition set_kernel k w : World S K :=
  mkWorld (hapTokenInfoMap_ w) (hapTokenIdMap_ w) (reservedHapTokenIdMap_ w) (nativeTokenInfoMap_ w) (w_brief w)
    (w_ids w) (w_policies w) (w_modes w) (w_db w) k (w_clock w) (w_events w).
Definition emit (es : list Event) w : World S K :=
  mkWorld (hapTokenInfoMap_ w) (hapTokenIdMap_ w) (reservedHapTokenIdMap_ w) (nativeTokenInfoMap_ w) (w_brief w)
    (w_ids w) (w_policies w) (w_modes w) (w_db w) (w_kernel w) (w_clock w) (w_events w ++ es).

(** The readings one operation takes, and the state in which the next one reads. *)
Definition take_clock w : (nat -> Z) * World S K :=
  (fun n => w_clock w (2 * n)%nat,
   mkWorld (hapTokenInfoMap_ w) (hapTokenIdMap_ w) (reservedHapTokenIdMap_ w) (nativeTokenInfoMap_ w) (w_brief w)
     (w_ids w) (w_policies w) (w_modes w) (w_db w) (w_kernel w) (fun n => w_clock w (1 + 2 * n)%nat) (w_events w)).
End Setters.

(** ** accesstoken_info_utils.cpp. *)
Definition IsSystemResource (bundleName : string) : bool := String.eqb SYSTEM_RESOURCE_BUNDLE_NAME bundleName.

Definition CheckSpecifiedFlag (tokenAttr flag : Z) : bool := nz (tokenAttr .& flag).

Definition GetHapUniqueStr (userID : Z) (bundleName : string) (instIndex : Z) : string :=
  bundleName ++ "&" ++ to_string userID ++ "&" ++ to_string instIndex.

Definition GetHapUniqueStr_info (info : HapTokenInfoInner) : string :=
  let b := tokenInfoBasic_ info in GetHapUniqueStr (hti_userID b) (hti_bundleName b) (hti_instIndex b).

Definition AddTokenIdToUndefValues (tokenId : Z) (undefValues : list GenericValues) : list GenericValues :=
  map (Put FIELD_TOKEN_ID (TYPE_INT (i32 tokenId))) undefValues.

Definition GetReservedTokenTypeDBValue {BC : BuildConfig} (values : GenericValues) : Z :=
  if SPM_DATA_ENABLE then GetInt FIELD_RESERVED values
  else if CheckSpecifiedFlag (u32 (GetInt FIELD_TOKEN_ATTR values)) 0x0004 then RESERVED_IDENTITY else RESERVED_NONE.

(** The rows of a table by token id, in the order read. *)
Definition GroupValuesByTokenId (values : list GenericValues) : gmap Z (list GenericValues) :=
  fold_left (fun m value =>
    let tokenId := u32 (GetInt FIELD_TOKEN_ID value) in
    <[tokenId := default [] (m !! tokenId) ++ [value]]> m) values ∅.

Section InfoManager.
Context {PT : PermTable} {BC : BuildConfig} {S K : Type} `{!AtmDb S} `{!TokenDevice K}.
Implicit Types (w : World S K) (id : Z) (info : HapTokenInfoInner).

(** ** Kernel and reserved tokens. *)
Definition AddGrantedHapPermsToKernel (tokenId : Z) w : World S K :=
  set_kernel (AddHapPermToKernel (w_kernel w) tokenId (GetGrantedPermCodeList tokenId (w_brief w))).2 w.

Definition GetReservedHapTokenId (userID : Z) (bundleName : string) (instIndex : Z) w : Z :=
  match reservedHapTokenIdMap_ w !! GetHapUniqueStr userID bundleName instIndex with None => 0 | Some id => id end.

Definition AddReservedHapTokenId (userID : Z) (bundleName : string) (instIndex tokenID : Z) w : World S K :=
  let hapUniqueKey := GetHapUniqueStr userID bundleName instIndex in
  match reservedHapTokenIdMap_ w !! hapUniqueKey with
  | Some _ => w
  | None => set_ids (AddReservedTokenId tokenID (w_ids w))
              (set_reserved (<[hapUniqueKey := tokenID]> (reservedHapTokenIdMap_ w)) w)
  end.

Definition RemoveReservedHapTokenId (userID : Z) (bundleName : string) (instIndex : Z) w : World S K :=
  let hapUniqueKey := GetHapUniqueStr userID bundleName instIndex in
  match reservedHapTokenIdMap_ w !! hapUniqueKey with
  | None => w
  | Some id => set_reserved (delete hapUniqueKey (reservedHapTokenIdMap_ w))
                 (set_ids (RemoveReservedTokenId id (w_ids w)) w)
  end.

(** ** Removing a token. *)
Definition id_condition (tokenID : Z) : GenericValues := Put FIELD_TOKEN_ID (TYPE_INT (i32 tokenID)) ∅.

Definition RemoveHapTokenInfoFromDb info (isTokenReserved : bool) (reservedTokenId : Z) w : Z * World S K :=
  let tokenID := hti_tokenID (tokenInfoBasic_ info) in
  let condition := id_condition tokenID in
  let delInfoVec := GenerateDelInfoToVec ACCESSTOKEN_HAP_TOKEN_INFO condition [] in
  let delInfoVec := GenerateDelInfoToVec ACCESSTOKEN_PERMISSION_STATE condition delInfoVec in
  let delInfoVec := GenerateDelInfoToVec ACCESSTOKEN_PERMISSION_EXTEND_VALUE condition delInfoVec in
  let delInfoVec := GenerateDelInfoToVec ACCESSTOKEN_HAP_UNDEFINE_INFO condition delInfoVec in
  let delInfoVec :=
    if IsSystemResource (hti_bundleName (tokenInfoBasic_ info))
    then GenerateDelInfoToVec ACCESSTOKEN_PERMISSION_DEF condition delInfoVec else delInfoVec in
  let addInfoVec :=
    if isTokenReserved then
      match GenerateHapInfoValues "" APL_INVALID info [] with
      | [] => []
      | v :: rest =>
          let v := Put FIELD_TOKEN_ATTR (TYPE_INT (i32 (hti_tokenAttr (tokenInfoBasic_ info) .| TOKEN_RESERVED_FLAG)))
                     (Remove FIELD_TOKEN_ATTR v) in
          let v :=
            if negb (reservedTokenId =? tokenID)
            then Put FIELD_TOKEN_ID (TYPE_INT (i32 reservedTokenId)) (Remove FIELD_TOKEN_ID v) else v in
          GenerateAddInfoToVec ACCESSTOKEN_HAP_TOKEN_INFO (v :: rest) []
      end
    else [] in
  let '(ret, db) := db_DeleteAndInsertValues (w_db w) delInfoVec addInfoVec in
  (ret, set_db db w).

(** The error, or the token taken out of the map. *)
Definition RemoveHapTokenInfoInner id (isTokenReserved : bool) w : (Z + HapTokenInfoInner) * World S K :=
  match hapTokenInfoMap_ w !! id with
  | None => (inl ERR_TOKENID_NOT_EXIST, w)
  | Some info =>
      if isRemote_ info then (inl ERR_IDENTITY_CHECK_FAILED, w)
      else
        let w := set_kernel (RemovePermFromKernel (w_kernel w) id).2 w in
        let w := set_ids (ReleaseTokenId id (w_ids w)) w in
        let hapUniqueKey := GetHapUniqueStr_info info in
        let w :=
          match hapTokenIdMap_ w !! hapUniqueKey with
          | Some id' => if id' =? id then set_hapIds (delete hapUniqueKey (hapTokenIdMap_ w)) w else w
          | None => w
          end in
        let b := tokenInfoBasic_ info in
        let w := if isTokenReserved
                 then AddReservedHapTokenId (hti_userID b) (hti_bundleName b) (hti_instIndex b) id w else w in
        (inr info, set_haps (delete id (hapTokenInfoMap_ w)) w)
  end.

(** The end of the life of the token object. *)
Definition drop_token info w : World S K := set_brief (destroy_HapTokenInfoInner info (w_brief w)) w.

Definition RemoveHapTokenInfo id (isTokenReserved : bool) w : Z * World S K :=
  if negb (GetTokenIdType id (w_ids w) =? TOKEN_HAP) then (ERR_PARAM_INVALID, w)
  else
    match RemoveHapTokenInfoInner id isTokenReserved w with
    | (inl ret, w) => (ret, w)
    | (inr info, w) =>
        let '(_, w) := RemoveHapTokenInfoFromDb info isTokenReserved id w in
        let permissionList := GetGrantedPermList id (w_brief w) in
        let w := match permissionList with
                 | [] => w
                 | p :: _ => emit [ParamUpdate p 0 true] w
                 end in
        let w := emit (map (fun perm => ExecuteCallbackAsync id perm STATE_CHANGE_REVOKED) permissionList) w in
        let w := if TOKEN_SYNC_ENABLE then emit [NotifyTokenDelete id] w else w in
        (RET_SUCCESS, drop_token info w)
    end.

(** ** Adding a token: the code, the token it replaces (0 when none), and the state. *)
Definition AddHapTokenInfo info w : Z * Z * World S K :=
  let id := hti_tokenID (tokenInfoBasic_ info) in
  match hapTokenInfoMap_ w !! id with
  | Some _ => (ERR_TOKENID_HAS_EXISTED, 0, w)
  | None =>
      let '(idRemoved, w) :=
        if negb (isRemote_ info) then
          let hapUniqueKey := GetHapUniqueStr_info info in
          (default INVALID_TOKENID (hapTokenIdMap_ w !! hapUniqueKey),
           set_hapIds (<[hapUniqueKey := id]> (hapTokenIdMap_ w)) w)
        else (INVALID_TOKENID, w) in
      let w := set_haps (<[id := info]> (hapTokenInfoMap_ w)) w in
      let '(oriTokenId, w) :=
        if negb (idRemoved =? INVALID_TOKENID) then (idRemoved, (RemoveHapTokenInfo idRemoved false w).2) else (0, w) in
      (RET_SUCCESS, oriTokenId, AddGrantedHapPermsToKernel id w)
  end.

(** ** Looking up a token. *)
Definition AddReservedHapInfoFromDbValues (tokenValue : GenericValues) w : bool * World S K :=
  let tokenId := u32 (GetInt FIELD_TOKEN_ID tokenValue) in
  if negb (GetReservedTokenTypeDBValue tokenValue =? RESERVED_NONE)
  then (true, set_ids (AddReservedTokenId tokenId (w_ids w)) w) else (false, w).

Definition GetHapTokenInfoInnerFromDb id w : option HapTokenInfoInner * World S K :=
  let conditionValue := id_condition id in
  let '(ret, hapTokenResults, db) := db_Find (w_db w) ACCESSTOKEN_HAP_TOKEN_INFO conditionValue in
  let w := set_db db w in
  match hapTokenResults with
  | [] => (None, w)
  | tokenValue :: _ =>
      if negb (ret =? RET_SUCCESS) then (None, w)
      else
        let '(isReserved, w) := AddReservedHapInfoFromDbValues tokenValue w in
        if isReserved then (None, w)
        else
          let '(ret, permStateRes, db) := db_Find (w_db w) ACCESSTOKEN_PERMISSION_STATE conditionValue in
          let w := set_db db w in
          if negb (ret =? RET_SUCCESS) then (None, w)
          else
            let '(ret, extendedPermRes, db) := db_Find (w_db w) ACCESSTOKEN_PERMISSION_EXTEND_VALUE conditionValue in
            let w := set_db db w in
            if negb (ret =? RET_SUCCESS) then (None, w)
            else
              let '(ret, hap, st) := RestoreHapTokenInfo id tokenValue (GroupValuesByTokenId permStateRes)
                                       (GroupValuesByTokenId extendedPermRes) default_HapTokenInfoInner (w_brief w) in
              let w := set_brief st w in
              if negb (ret =? RET_SUCCESS) then (None, drop_token hap w)
              else
                match hapTokenInfoMap_ w !! id with
                | Some other => (Some other, drop_token hap w)
                | None =>
                    let w := set_ids (RegisterTokenId id TOKEN_HAP (w_ids w)).2 w in
                    let w := set_hapIds (<[GetHapUniqueStr_info hap := id]> (hapTokenIdMap_ w)) w in
                    let w := set_haps (<[id := hap]> (hapTokenInfoMap_ w)) w in
                    (Some hap, AddGrantedHapPermsToKernel id w)
                end
  end.

Definition GetHapTokenInfoInner id w : option HapTokenInfoInner * World S K :=
  match hapTokenInfoMap_ w !! id with
  | Some info => (Some info, w)
  | None =>
      let '(ret, status) := GetTokenIdStatus id (w_ids w) in
      if (ret =? RET_SUCCESS) && bool_decide (status = Some RESERVED \/ status = Some UNTRUSTED)
      then (None, w) else GetHapTokenInfoInnerFromDb id w
  end.

Definition GetHapTokenDlpType id w : Z :=
  match hapTokenInfoMap_ w !! id with
  | Some info => hti_dlpType (tokenInfoBasic_ info)
  | None => BUTT_DLP_TYPE
  end.

Definition IsTokenIdExist id w : bool :=
  bool_decide (is_Some (hapTokenInfoMap_ w !! id)) || bool_decide (is_Some (nativeTokenInfoMap_ w !! id)).

Definition IsHapTokenIdExist id w : bool := bool_decide (is_Some (hapTokenInfoMap_ w !! id)).

(** The token and its attributes; (0, 0) when there is none. *)
Definition GetHapTokenID (userID : Z) (bundleName : string) (instIndex : Z) w : Z * Z :=
  match hapTokenIdMap_ w !! GetHapUniqueStr userID bundleName instIndex with
  | None => (0, 0)
  | Some tokenId =>
      match hapTokenInfoMap_ w !! tokenId with
      | None => (0, 0)
      | Some info => (hti_tokenID (tokenInfoBasic_ info), hti_tokenAttr (tokenInfoBasic_ info))
      end
  end.

(** The other tokens of the application that share its permissions. *)
Definition GetRelatedSandBoxHapList (tokenId : Z) w : list Z :=
  match hapTokenInfoMap_ w !! tokenId with
  | None => []
  | Some info =>
      let b := tokenInfoBasic_ info in
      if (hti_dlpType b =? DLP_COMMON) && negb (hti_instIndex b =? 0) then []
      else
        omap (fun item : Z * HapTokenInfoInner =>
          let b' := tokenInfoBasic_ item.2 in
          if String.eqb (hti_bundleName b) (hti_bundleName b') && (hti_userID b =? hti_userID b') &&
             negb (tokenId =? hti_tokenID b')
          then if (hti_dlpType b' =? DLP_COMMON) && negb (hti_instIndex b' =? 0) then None else Some (hti_tokenID b')
          else None) (map_items (hapTokenInfoMap_ w))
  end.

End InfoManager.
