(* ===== verification/InfoManagerOps.v ===== *)
(** * Token information: the operations of the service

    Creating, updating and restoring application tokens, native tokens, the reset of user
    decisions, the dialog switch and permission checks, of accesstoken_info_manager.cpp. *)

From stdpp Require Import base gmap list strings.
From S2P Require Import Prelude AccessTokenTypes TokenId Database PermissionMap Validator DataTranslator PermissionDataBrief IdManager UserPolicy ToggleManager ConstraintCheck HapTokenInfo Kernel InfoManager.
#[local] Open Scope string_scope.
#[local] Open Scope list_scope.
#[local] Open Scope Z_scope.
#[local] Open Scope cxx_scope.

Definition MAIN_CLONE_INDEX_BASE : Z := 10000.
Definition TOKEN_ID_LOWMASK : Z := 0xffffffff.
Definition ENOTSUP : Z := 95.

(** [NativeTokenInfoBase]: the members the manager reads. *)
Record NativeTokenInfoBase := mkNativeTokenInfoBase {
  nt_apl : Z;
  nt_processName : string;
  nt_tokenID : Z;
  nt_nativeAcls : list string;
  nt_permStateList : list PermissionStatus;
}.

(** [TokenIdInfo]. *)
Record TokenIdInfo := mkTokenIdInfo { tii_apl : Z; tii_isSystemApp : bool }.

(** [HapTokenDbContext]. *)
Record HapTokenDbContext := mkHapTokenDbContext {
  ctx_appId : string;
  ctx_policy : HapPolicy;
  ctx_undefValues : list GenericValues;
  ctx_oldPermStateValues : list GenericValues;
  ctx_isUpdate : bool;
}.

Definition with_permStateList (l : list PermissionStatus) (policy : HapPolicy) : HapPolicy :=
  mkHapPolicy (hp_apl policy) (hp_domain policy) (hp_permList policy) l (hp_aclRequestedList policy)
    (hp_preAuthorizationInfo policy) (hp_checkIgnore policy) (hp_aclExtendedMap policy) (hp_isDebugGrant policy).

Section Rows.
Context {PT : PermTable} {BC : BuildConfig}.

Definition ClearNonPersistedUserPolicyFlags (policies : Records) (permStateValues : list GenericValues)
    : list GenericValues :=
  map (fun v =>
    match TransferPermissionToOpcode (GetString FIELD_PERMISSION_NAME v) with
    | None => v
    | Some permCode =>
        if IsPolicyPersisted permCode policies then v
        else
          let grantFlag := GetFlagWithoutSpecifiedElement (u32 (GetInt FIELD_GRANT_FLAG v)) PERMISSION_RESTRICTED_BY_ADMIN in
          Put FIELD_GRANT_FLAG (TYPE_INT (i32 grantFlag)) (Remove FIELD_GRANT_FLAG v)
    end) permStateValues.

Definition GeneratePermExtendValues (tokenID : Z) (kernelPermList : list PermissionWithValue) : list GenericValues :=
  map (fun e => Put FIELD_VALUE (TYPE_STRING (pwv_value e))
                  (Put FIELD_PERMISSION_NAME (TYPE_STRING (pwv_permissionName e)) (id_condition tokenID))) kernelPermList.

Definition GetUserGrantPermFromDef (permList : list PermissionDef) (tokenID : Z) : list GenericValues :=
  map (fun def => PermissionDef_TranslationIntoGenericValues def (id_condition tokenID)) permList.

Definition CheckHapInfoParam (info : HapInfoParams) (policy : HapPolicy) : Z :=
  if negb (IsUserIdValid (hip_userID info)) || negb (IsBundleNameValid (hip_bundleName info)) ||
     negb (IsAppIDDescValid (hip_appIDDesc info)) || negb (IsDomainValid (hp_domain policy)) ||
     negb (IsAplNumValid (hp_apl policy)) || negb (IsDlpTypeValid (hip_dlpType info)) ||
     (hip_isRestore info && (hip_tokenID info =? INVALID_TOKENID)) ||
     negb (IsAclExtendedMapSizeValid (hp_aclExtendedMap policy)) ||
     negb (IsAppProvisionTypeValid (hip_appProvisionType info))
  then ERR_PARAM_INVALID
  else if forallb (fun kv : string * string => negb (IsDefinedPermissionInner kv.1) || IsAclExtendedMapContentValid kv.1 kv.2)
            (map_to_list (hp_aclExtendedMap policy))
  then ERR_OK else ERR_PARAM_INVALID.

(** The attribute word of a new token and of an updated one. *)
Definition AllocAccessTokenIDEx (info : HapInfoParams) (attr : Z) : Z :=
  let attr := if hip_isSystemApp info then attr .| SYSTEM_APP_FLAG else attr in
  let attr := if hip_isAtomicService info then attr .| ATOMIC_SERVICE_FLAG else attr in
  if String.eqb (hip_appProvisionType info) "debug" then attr .| DEBUG_APP_FLAG else attr.

Definition UpdateTokenAttr (info : UpdateHapInfoParams) (attr : Z) : Z :=
  let attr := if uhip_isSystemApp info then attr .| SYSTEM_APP_FLAG else attr .& u32_not SYSTEM_APP_FLAG in
  let attr := if uhip_isAtomicService info then attr .| ATOMIC_SERVICE_FLAG
              else attr .& u32_not ATOMIC_SERVICE_FLAG in
  provision_attr (uhip_appProvisionType info) attr.

(** The codes and the statuses of the permissions of a native process. *)
Definition GetNativePermissionList (native : NativeTokenInfoBase) : list (Z * bool) :=
  omap (fun state =>
    match GetPermissionBriefDef_opcode (ps_permissionName state) with
    | None => None
    | Some (briefDef, code) =>
        if negb (pbd_isEnable briefDef) then None
        else if (nt_apl native <? pbd_availableLevel briefDef) &&
                negb (bool_decide (ps_permissionName state ∈ nt_nativeAcls native))
        then None
        else Some (code, ps_grantStatus state =? PERMISSION_GRANTED)
    end) (nt_permStateList native).

End Rows.

Section Ops.
Context {PT : PermTable} {BC : BuildConfig} {S K : Type} `{!AtmDb S} `{!TokenDevice K}.
(** Whether the kernel keeps the permissions of native processes (IsKernelSupportSpm), and
    the parent of a binary's token (GetParentHapTokenID): an error or the full id. *)
Context (kernelSpm : bool) (parentHapToken : Z -> Z + Z).
Implicit Types (w : World S K) (id : Z) (info : HapTokenInfoInner).

(** ** Creating. *)
Definition InfoRegisterTokenId (rands : nat -> Z) (info : HapInfoParams) w : (Z + Z) * World S K :=
  if hip_isRestore info then
    let '(res, ids) := RegisterTokenId (hip_tokenID info) TOKEN_HAP (w_ids w) in
    let w := set_ids ids w in
    if negb (res =? RET_SUCCESS) then (inl res, w) else (inr (hip_tokenID info), w)
  else
    let dlpFlag := if DLP_COMMON <? hip_dlpType info then 1 else 0 in
    let cloneFlag := if (dlpFlag =? 0) && negb (Z.rem (hip_instIndex info) MAIN_CLONE_INDEX_BASE =? 0) then 1 else 0 in
    let '(tokenId, ids) := CreateAndRegisterTokenId rands TOKEN_HAP dlpFlag cloneFlag 0 (w_ids w) in
    let w := set_ids ids w in
    if tokenId =? 0 then (inl ERR_TOKENID_CREATE_FAILED, w) else (inr tokenId, w).

Definition AddHapTokenInfoToDb info (context : HapTokenDbContext) w : Z * World S K :=
  if isRemote_ info then (ERR_TOKENID_NOT_EXIST, w)
  else
    let '(now, w) := take_clock w in
    let b := tokenInfoBasic_ info in
    let tokenID := hti_tokenID b in
    let addInfoVec := GenerateAddInfoToVec ACCESSTOKEN_HAP_UNDEFINE_INFO
                        (AddTokenIdToUndefValues tokenID (ctx_undefValues context)) [] in
    let addInfoVec := GenerateAddInfoToVec ACCESSTOKEN_HAP_TOKEN_INFO
                        (GenerateHapInfoValues (ctx_appId context) (hp_apl (ctx_policy context)) info []) addInfoVec in
    let permStateValues := ClearNonPersistedUserPolicyFlags (w_policies w)
                             (GeneratePermStateValues now (ctx_oldPermStateValues context) info (w_brief w)) in
    let addInfoVec := GenerateAddInfoToVec ACCESSTOKEN_PERMISSION_STATE permStateValues addInfoVec in
    let addInfoVec := GenerateAddInfoToVec ACCESSTOKEN_PERMISSION_EXTEND_VALUE
                        (GeneratePermExtendValues tokenID (GetExtendedValueList tokenID (w_brief w))) addInfoVec in
    let addInfoVec :=
      if IsSystemResource (hti_bundleName b)
      then GenerateAddInfoToVec ACCESSTOKEN_PERMISSION_DEF
             (GetUserGrantPermFromDef (hp_permList (ctx_policy context)) tokenID) addInfoVec
      else addInfoVec in
    let reservedTokenId := GetReservedHapTokenId (hti_userID b) (hti_bundleName b) (hti_instIndex b) w in
    let delInfoVec :=
      if negb (reservedTokenId =? INVALID_TOKENID)
      then GenerateDelInfoToVec ACCESSTOKEN_HAP_TOKEN_INFO (id_condition reservedTokenId) [] else [] in
    let delInfoVec :=
      if ctx_isUpdate context
      then fold_left (fun v a => GenerateDelInfoToVec (addType a) (id_condition tokenID) v) addInfoVec delInfoVec
      else delInfoVec in
    let '(ret, db) := db_DeleteAndInsertValues (w_db w) delInfoVec addInfoVec in
    (ret, set_db db w).

(** The code, the token id and its attributes, and the state. *)
Definition CreateHapTokenInfo (rands : nat -> Z) (info : HapInfoParams) (policy : HapPolicy)
    (undefValues : list GenericValues) w : Z * (Z * Z) * World S K :=
  if negb (CheckHapInfoParam info policy =? ERR_OK) then (ERR_PARAM_INVALID, (0, 0), w)
  else
    match InfoRegisterTokenId rands info w with
    | (inl ret, w) => (ret, (0, 0), w)
    | (inr tokenId, w) =>
        let l := hp_permStateList policy in
        let l := if SUPPORT_SANDBOX_APP && negb (hip_dlpType info =? DLP_COMMON)
                 then UpdatePermStateWithDlpInfo (hip_dlpType info) (w_modes w) l else l in
        let l := UpdatePermissionStatusListForUserPolicy tokenId (hip_userID info) (w_policies w) l in
        let policyNew := with_permStateList l policy in
        let '(tokenInfo, st) := new_HapTokenInfoInner tokenId info policyNew (w_brief w) in
        let w := set_brief st w in
        let '(ret, w) := AddHapTokenInfoToDb tokenInfo
                           (mkHapTokenDbContext (hip_appIDDesc info) policyNew undefValues [] false) w in
        if negb (ret =? RET_SUCCESS)
        then (ret, (0, 0), drop_token tokenInfo (set_ids (ReleaseTokenId tokenId (w_ids w)) w))
        else
          let '(ret, _, w) := AddHapTokenInfo tokenInfo w in
          if negb (ret =? RET_SUCCESS) then
            let w := set_ids (ReleaseTokenId tokenId (w_ids w)) w in
            let reservedTokenId := GetReservedHapTokenId (hip_userID info) (hip_bundleName info) (hip_instIndex info) w in
            let '(_, w) := RemoveHapTokenInfoFromDb tokenInfo true reservedTokenId w in
            (ret, (0, 0), drop_token tokenInfo w)
          else
            let w := RemoveReservedHapTokenId (hip_userID info) (hip_bundleName info) (hip_instIndex info) w in
            (RET_SUCCESS, (tokenId, AllocAccessTokenIDEx info 0), w)
    end.

(** ** Updating.  [attr] is the attribute word the caller passes. *)
Definition UpdateHapToken id (attr : Z) (info : UpdateHapInfoParams) (permStateList : list PermissionStatus)
    (hapPolicy : HapPolicy) (undefValues : list GenericValues) w : Z * Z * World S K :=
  if negb (IsAppIDDescValid (uhip_appIDDesc info)) then (ERR_PARAM_INVALID, attr, w)
  else
    match GetHapTokenInfoInner id w with
    | (None, w) => (ERR_TOKENID_NOT_EXIST, attr, w)
    | (Some infoPtr, w) =>
        if isRemote_ infoPtr then (ERR_IDENTITY_CHECK_FAILED, attr, w)
        else
          let attr := UpdateTokenAttr info attr in
          let '(ret, oldPermStateValues, db) := db_Find (w_db w) ACCESSTOKEN_PERMISSION_STATE (id_condition id) in
          let w := set_db db w in
          if negb (ret =? RET_SUCCESS) then (ret, attr, w)
          else
            let adjusted := UpdatePermissionStatusListForUserPolicy id (hti_userID (tokenInfoBasic_ infoPtr))
                              (w_policies w) permStateList in
            let '(infoPtr, st) := HapUpdate info adjusted hapPolicy infoPtr (w_brief w) in
            let w := set_brief st (set_haps (<[id := infoPtr]> (hapTokenInfoMap_ w)) w) in
            let '(ret, w) := AddHapTokenInfoToDb infoPtr
                               (mkHapTokenDbContext (uhip_appIDDesc info) hapPolicy undefValues oldPermStateValues true) w in
            if negb (ret =? RET_SUCCESS) then (ret, attr, w)
            else
              let w := if TOKEN_SYNC_ENABLE then emit [NotifyTokenModify id] w else w in
              (RET_SUCCESS, attr, AddGrantedHapPermsToKernel id w)
    end.

(** ** Restoring at start-up. *)
Definition RestoreReservedHapTokenToCache (tokenValue : GenericValues) w : Z * World S K :=
  (RET_SUCCESS, AddReservedHapTokenId (GetInt FIELD_USER_ID tokenValue) (GetString FIELD_BUNDLE_NAME tokenValue)
                  (GetInt FIELD_INST_INDEX tokenValue) (u32 (GetInt FIELD_TOKEN_ID tokenValue)) w).

Definition RestoreActiveHapTokenToCache (tokenValue : GenericValues) (permStateRes extendedPermRes : gmap Z (list GenericValues)) w
    : Z * World S K :=
  let tokenId := u32 (GetInt FIELD_TOKEN_ID tokenValue) in
  let '(result, ids) := RegisterTokenId tokenId TOKEN_HAP (w_ids w) in
  let w := set_ids ids w in
  if negb (result =? RET_SUCCESS) then (result, w)
  else
    let '(result, hap, st) := RestoreHapTokenInfo tokenId tokenValue permStateRes extendedPermRes
                                default_HapTokenInfoInner (w_brief w) in
    let w := set_brief st w in
    if negb (result =? RET_SUCCESS)
    then (result, drop_token hap (set_ids (ReleaseTokenId tokenId (w_ids w)) w))
    else
      let '(result, _, w) := AddHapTokenInfo hap w in
      if negb (result =? RET_SUCCESS)
      then (result, drop_token hap (set_ids (ReleaseTokenId tokenId (w_ids w)) w))
      else (RET_SUCCESS, w).

Definition AddHapInfoToCache (tokenValue : GenericValues) (permStateRes extendedPermRes : gmap Z (list GenericValues)) w
    : Z * World S K :=
  if CheckSpecifiedFlag (u32 (GetInt FIELD_TOKEN_ATTR tokenValue)) TOKEN_RESERVED_FLAG
  then RestoreReservedHapTokenToCache tokenValue w
  else RestoreActiveHapTokenToCache tokenValue permStateRes extendedPermRes w.

Definition InitHapTokenInfos_item (permStateMap extendedPermMap : gmap Z (list GenericValues))
    (acc : Z * gmap Z TokenIdInfo * World S K) (tokenValue : GenericValues) : Z * gmap Z TokenIdInfo * World S K :=
  let '(hapSize, tokenIdAplMap, w) := acc in
  let tokenIdInfo := mkTokenIdInfo (GetInt FIELD_APL tokenValue)
                       (CheckSpecifiedFlag (u32 (GetInt FIELD_TOKEN_ATTR tokenValue)) SYSTEM_APP_FLAG) in
  let '(ret, w) := AddHapInfoToCache tokenValue permStateMap extendedPermMap w in
  if negb (ret =? RET_SUCCESS) then (hapSize, tokenIdAplMap, w)
  else (u32 (hapSize + 1), <[GetInt FIELD_TOKEN_ID tokenValue := tokenIdInfo]> tokenIdAplMap, w).

Definition InitHapTokenInfos w : Z * gmap Z TokenIdInfo * World S K :=
  let '(ret, hapTokenRes, db) := db_Find (w_db w) ACCESSTOKEN_HAP_TOKEN_INFO ∅ in
  let w := set_db db w in
  if negb (ret =? RET_SUCCESS) then (0, ∅, w)
  else
    let '(ret, permStateRes, db) := db_Find (w_db w) ACCESSTOKEN_PERMISSION_STATE ∅ in
    let w := set_db db w in
    if negb (ret =? RET_SUCCESS) then (0, ∅, w)
    else
      let '(ret, extendedPermRes, db) := db_Find (w_db w) ACCESSTOKEN_PERMISSION_EXTEND_VALUE ∅ in
      let w := set_db db w in
      if negb (ret =? RET_SUCCESS) then (0, ∅, w)
      else fold_left (InitHapTokenInfos_item (GroupValuesByTokenId permStateRes) (GroupValuesByTokenId extendedPermRes))
             hapTokenRes (0, ∅, w).

(** ** Native tokens. *)
Definition InitNativeTokenInfos_item w (info : NativeTokenInfoBase) : World S K :=
  let tokenId := nt_tokenID info in
  let '(res, ids) := RegisterTokenId tokenId (GetTokenIdTypeEnum tokenId) (w_ids w) in
  let w := set_ids ids w in
  if negb (res =? RET_SUCCESS) && negb (res =? ERR_TOKENID_HAS_EXISTED) then w
  else
    let perms := GetNativePermissionList info in
    let cache := mkNativeTokenInfoCache (nt_apl info) (nt_processName info)
                   (if negb kernelSpm then map (fun p : Z * bool => u16 p.1) perms else []) in
    let w := set_natives (<[tokenId := cache]> (nativeTokenInfoMap_ w)) w in
    set_kernel (AddNativePermToKernel (w_kernel w) tokenId (map fst perms) (map snd perms)).2 w.

Definition InitNativeTokenInfos (tokenInfos : list NativeTokenInfoBase) w : World S K :=
  fold_left InitNativeTokenInfos_item tokenInfos w.

Definition RemoveNativeTokenInfo id w : Z * World S K :=
  let type := GetTokenIdType id (w_ids w) in
  if negb (type =? TOKEN_NATIVE) && negb (type =? TOKEN_SHELL) then (ERR_PARAM_INVALID, w)
  else
    match nativeTokenInfoMap_ w !! id with
    | None => (ERR_TOKENID_NOT_EXIST, w)
    | Some _ =>
        let w := set_kernel (RemovePermFromKernel (w_kernel w) id).2 w in
        let w := set_natives (delete id (nativeTokenInfoMap_ w)) w in
        (RET_SUCCESS, set_ids (ReleaseTokenId id (w_ids w)) w)
    end.

(** ** Queries through the parent of a binary's token. *)
Definition ResolveQueryTokenID (tokenID : Z) : Z + Z :=
  if negb (IsBinTokenId tokenID) then inr tokenID
  else
    match parentHapToken tokenID with
    | inl ret => inl (if ret =? ENOTSUP then ERR_IOCTL_UNSUPPORT else ERR_TOKENID_NOT_EXIST)
    | inr parent => if parent =? INVALID_TOKENID then inl ERR_TOKENID_NOT_EXIST else inr (u32 parent)
    end.

Definition GetHapTokenInfo (tokenID : Z) w : (Z + HapTokenInfo) * World S K :=
  match ResolveQueryTokenID tokenID with
  | inl _ => (inl ERR_TOKENID_NOT_EXIST, w)
  | inr queryTokenID =>
      match GetHapTokenInfoInner queryTokenID w with
      | (None, w) => (inl ERR_TOKENID_NOT_EXIST, w)
      | (Some info, w) => (inr (tokenInfoBasic_ info), w)
      end
  end.

Definition GetApiVersionByTokenId (tokenID : Z) w : option Z * World S K :=
  if negb (GetTokenIdTypeEnum tokenID =? TOKEN_HAP) then (None, w)
  else match GetHapTokenInfo tokenID w with
       | (inl _, w) => (None, w)
       | (inr info, w) => (Some (hti_apiVersion info), w)
       end.

(** ** Resetting the user's decisions. *)
Definition NotifyUpdatedPermList (grantedPermListBefore grantedPermListAfter : list string) (tokenID : Z) w : World S K :=
  let revoked := filter (fun p => p ∉ grantedPermListAfter) grantedPermListBefore in
  let granted := filter (fun p => p ∉ grantedPermListBefore) grantedPermListAfter in
  emit (flat_map (fun p => [ExecuteCallbackAsync tokenID p STATE_CHANGE_REVOKED; ParamUpdate p 0 true]) revoked ++
        flat_map (fun p => [ExecuteCallbackAsync tokenID p STATE_CHANGE_GRANTED; ParamUpdate p 0 false]) granted) w.

Definition ClearUserGrantedPermission id w : Z * World S K :=
  match GetHapTokenInfoInner id w with
  | (None, w) => (ERR_PARAM_INVALID, w)
  | (Some infoPtr, w) =>
      if isRemote_ infoPtr then (ERR_IDENTITY_CHECK_FAILED, w)
      else
        let grantedPermListBefore := GetGrantedPermList id (w_brief w) in
        let '(now, w) := take_clock w in
        let '(ret, st, db) := HapResetUserGrantPermissionStatus (w_modes w) (now O) infoPtr (w_brief w) (w_db w) in
        let w := set_db db (set_brief st w) in
        if negb (ret =? RET_SUCCESS) then (ret, w)
        else
          let opCodeList := GetGrantedPermCodeList id (w_brief w) in
          let w := set_kernel (AddHapPermToKernel (w_kernel w) id opCodeList).2 w in
          (RET_SUCCESS, NotifyUpdatedPermList grantedPermListBefore (map TransferOpcodeToPermission opCodeList) id w)
  end.

Definition ClearUserGrantedPermissionState (tokenID : Z) w : Z * World S K :=
  let '(ret, w) := ClearUserGrantedPermission tokenID w in
  if negb (ret =? RET_SUCCESS) then (ret, w)
  else (ret, fold_left (fun w id => (ClearUserGrantedPermission id w).2) (GetRelatedSandBoxHapList tokenID w) w).

(** ** The dialog switch. *)
Definition UpdateCapStateToDatabase (tokenID : Z) (enable : bool) w : bool * World S K :=
  let modifyValue := Put FIELD_FORBID_PERM_DIALOG (TYPE_INT (z_of_bool enable)) ∅ in
  let '(res, db) := db_Modify (w_db w) ACCESSTOKEN_HAP_TOKEN_INFO modifyValue (id_condition tokenID) in
  (res =? 0, set_db db w).

Definition set_permDialogForbidden (b : bool) info : HapTokenInfoInner :=
  mkHapTokenInfoInner (tokenInfoBasic_ info) (isRemote_ info) b (isMigrated_ info) (isSideloadApp_ info)
    (permUpdateTimestamp_ info).

Definition SetPermDialogCap (tokenID : Z) (enable : bool) w : Z * World S K :=
  match hapTokenInfoMap_ w !! tokenID with
  | None => (ERR_TOKENID_NOT_EXIST, w)
  | Some info =>
      let '(ok, w) := UpdateCapStateToDatabase tokenID enable w in
      if negb ok then (ERR_DATABASE_OPERATE_FAILED, w)
      else (RET_SUCCESS, set_haps (<[tokenID := set_permDialogForbidden enable info]> (hapTokenInfoMap_ w)) w)
  end.

Definition GetPermDialogCap (tokenID : Z) w : bool :=
  if tokenID =? INVALID_TOKENID then true
  else match hapTokenInfoMap_ w !! tokenID with None => true | Some info => isPermDialogForbidden_ info end.

(** ** Checking a permission. *)

(** The status when the kernel (or the table) decides, with the new device state. *)
Definition GetPermissionFromKernelCache (tokenID : Z) (permissionName : string) w : option Z * World S K :=
  if negb (IsDefinedPermissionInner permissionName) then (Some PERMISSION_DENIED, w)
  else
    let code := default 0 (TransferPermissionToOpcode permissionName) in
    let '(ret, isGranted, k) := GetPermissionFromKernel (w_kernel w) tokenID (i32 code) in
    let w := set_kernel k w in
    if negb (ret =? RET_SUCCESS) then (None, w)
    else (Some (if isGranted : bool then PERMISSION_GRANTED else PERMISSION_DENIED), w).

Definition VerifyNativeAccessToken (tokenID : Z) (permissionName : string) w : Z :=
  if negb (IsDefinedPermissionInner permissionName) then PERMISSION_DENIED
  else
    match TransferPermissionToOpcode permissionName with
    | None => PERMISSION_DENIED
    | Some code =>
        match nativeTokenInfoMap_ w !! tokenID with
        | None => PERMISSION_DENIED
        | Some cache =>
            if negb kernelSpm && bool_decide (code ∈ ntc_opCodeList cache) then PERMISSION_GRANTED
            else PERMISSION_DENIED
        end
    end.

Definition IsCallerNormalApp (fulltokenID : Z) : bool :=
  if negb (GetTokenIdTypeEnum (u32 (fulltokenID .& TOKEN_ID_LOWMASK)) =? TOKEN_HAP) then false
  else negb (IsSystemApp fulltokenID).

(** [caller] is the calling full token id and [isInPunishingTime] the answer of the monitor
    for it; what the monitor records is not part of the answer. *)
Definition VerifyAccessToken (caller : Z) (isInPunishingTime : bool) (tokenID : Z) (permissionName : string) w
    : Z * World S K :=
  if tokenID =? INVALID_TOKENID then (PERMISSION_DENIED, w)
  else if negb (IsPermissionNameValid permissionName) then (PERMISSION_DENIED, w)
  else
    let callertokenID := u32 (caller .& TOKEN_ID_LOWMASK) in
    let tokenType := GetTokenIdType tokenID (w_ids w) in
    if IsCallerNormalApp caller && negb (tokenID =? callertokenID) && (tokenType =? TOKEN_INVALID)
    then (PERMISSION_DENIED, (GetHapTokenInfoInner callertokenID w).2)
    else if IsCallerNormalApp caller && negb (tokenID =? callertokenID) && isInPunishingTime
    then (PERMISSION_DENIED, w)
    else
      match GetPermissionFromKernelCache tokenID permissionName w with
      | (Some res, w) => (res, w)
      | (None, w) =>
          if (tokenType =? TOKEN_NATIVE) || (tokenType =? TOKEN_SHELL)
          then (VerifyNativeAccessToken tokenID permissionName w, w)
          else if tokenType =? TOKEN_HAP then (HapVerifyPermissionStatus tokenID permissionName (w_brief w), w)
          else (PERMISSION_DENIED, w)
      end.

End Ops.
