(* ===== verification/InfoManagerTheory.v ===== *)
(** * The invariant of the token information manager

    Names and ids of application tokens form a consistent index: the lemmas that carry it
    through removal, addition, creation, update and restore. *)

From stdpp Require Import base gmap list strings.
From S2P Require Import Prelude AccessTokenTypes TokenId Database PermissionMap Validator DataTranslator PermissionDataBrief PermissionDataBriefTheory IdManager IdManagerProps UserPolicy ConstraintCheck HapTokenInfo Kernel InfoManager InfoManagerOps.
#[local] Open Scope string_scope.
#[local] Open Scope list_scope.
#[local] Open Scope Z_scope.
#[local] Open Scope cxx_scope.

(** ** The name of a token determines user, bundle and clone index. *)
Fixpoint str_has (c : Ascii.ascii) (s : string) : bool :=
  match s with EmptyString => false | String d r => Ascii.eqb d c || str_has c r end.

Lemma str_app_cons d s t : String d s +:+ t = String d (s +:+ t).
Proof. done. Qed.

Lemma str_app_nil t : EmptyString +:+ t = t.
Proof. done. Qed.

Lemma str_app_assoc s t u : (s +:+ t) +:+ u = s +:+ (t +:+ u).
Proof. induction s as [|d s IH]; [done|]. rewrite !str_app_cons. by f_equal. Qed.

Lemma str_has_app c s t : str_has c (s +:+ t) = str_has c s || str_has c t.
Proof. induction s as [|d s IH]; [done|]. rewrite str_app_cons. cbn. by rewrite IH, orb_assoc. Qed.

(** Cutting at the last separator. *)
Lemma last_separator_inj c s1 t1 s2 t2 :
  str_has c t1 = false -> str_has c t2 = false ->
  s1 +:+ String c t1 = s2 +:+ String c t2 -> s1 = s2 /\ t1 = t2.
Proof.
  intros H1 H2. revert s2. induction s1 as [|d s1 IH]; intros [|d2 s2] E; rewrite ?str_app_cons, ?str_app_nil in E; injection E.
  - by intros ->.
  - intros -> ->. rewrite str_has_app in H1. cbn in H1. by rewrite Ascii.eqb_refl, orb_true_r in H1.
  - intros <- ->. rewrite str_has_app in H2. cbn in H2. by rewrite Ascii.eqb_refl, orb_true_r in H2.
  - intros E' ->. by destruct (IH s2 E') as [-> ->].
Qed.

Lemma digits_plain c fuel : forall n acc, (Ascii.N_of_ascii c < 48)%N ->
  str_has c (print_digits fuel n acc) = str_has c acc.
Proof.
  induction fuel as [|fuel IH]; intros n acc Hc; [done|]. cbn [print_digits].
  assert (str_has c (String (digit_char (n mod 10)) acc) = str_has c acc) as E.
  { cbn. rewrite digit_char_ne; [done|apply N.mod_lt; lia|done]. }
  split_if; [done|]. by rewrite IH.
Qed.

Definition AMP : Ascii.ascii := Ascii.Ascii false true true false false true false false.

Lemma number_plain z : str_has AMP (to_string z) = false.
Proof. unfold to_string, print_N. split_if; cbn [str_has]; by rewrite digits_plain. Qed.

Lemma to_string_inj z z' : to_string z = to_string z' -> z = z'.
Proof.
  intros E. pose proof (from_chars_to_string true (Z.min z z') (Z.max z z') z ltac:(lia) ltac:(auto)) as H.
  rewrite E, from_chars_to_string in H by (lia || auto). by injection H.
Qed.

Lemma GetHapUniqueStr_inj u b i u' b' i' :
  GetHapUniqueStr u b i = GetHapUniqueStr u' b' i' -> u = u' /\ b = b' /\ i = i'.
Proof.
  assert (forall u b i, GetHapUniqueStr u b i = (b +:+ String AMP (to_string u)) +:+ String AMP (to_string i)) as Hs.
  { intros. unfold GetHapUniqueStr. by rewrite str_app_assoc, !str_app_cons. }
  intros E. rewrite !Hs in E. apply last_separator_inj in E as [E Ei]; [|apply number_plain..].
  apply last_separator_inj in E as [-> Eu]; [|apply number_plain..].
  by apply to_string_inj in Eu as ->, Ei as ->.
Qed.

(** ** Token ids. *)
Definition hap_id (ids : IdMgr) (id : Z) : Prop :=
  id ∈ tokenIdSet_ ids /\ GetTokenIdTypeEnum id = TOKEN_HAP /\ id <> 0.

Lemma hap_id_type ids id : hap_id ids id -> GetTokenIdType id ids = TOKEN_HAP.
Proof. intros (Hin & Ht & _). unfold GetTokenIdType. by rewrite bool_decide_true. Qed.

Lemma RegisterTokenId_ok id ty ids ids' :
  RegisterTokenId id ty ids = (RET_SUCCESS, ids') ->
  GetTokenIdStatusLocked id ids = None /\ id <> 0 /\ GetTokenIdTypeEnum id = ty /\
  tokenIdSet_ ids' = {[id]} ∪ tokenIdSet_ ids /\ reservedTokenIdSet_ ids' = reservedTokenIdSet_ ids /\
  untrustedTokenIdSet_ ids' = untrustedTokenIdSet_ ids.
Proof.
  unfold RegisterTokenId. cbv zeta. split_if; [done|]. breflect.
  destruct (GetTokenIdStatusLocked id ids) eqn:St; [done|]. intros [= <-]. split_and!; try done.
  intros ->. done.
Qed.

Lemma RegisterTokenId_fail id ty ids e ids' :
  RegisterTokenId id ty ids = (e, ids') -> e <> RET_SUCCESS -> ids' = ids.
Proof.
  unfold RegisterTokenId. cbv zeta. split_if; [by intros [= _ <-]|].
  destruct (GetTokenIdStatusLocked id ids); by intros [= <- <-].
Qed.

Lemma Release_set id ids : tokenIdSet_ (ReleaseTokenId id ids) = tokenIdSet_ ids ∖ {[id]}.
Proof. unfold ReleaseTokenId. case_bool_decide; cbn; set_solver. Qed.

Lemma AddReserved_set id ids : tokenIdSet_ (AddReservedTokenId id ids) = tokenIdSet_ ids.
Proof. unfold AddReservedTokenId. by destruct (GetTokenIdStatusLocked id ids). Qed.

(** ** Permission data of tokens. *)
Lemma delete_data_lookup t st t' :
  requestedPermData_ (DeleteBriefPermDataByTokenId t st).2 !! t' =
    if decide (t' = t) then None else requestedPermData_ st !! t'.
Proof.
  unfold DeleteBriefPermDataByTokenId. destruct (requestedPermData_ st !! t) eqn:E; cbn.
  - destruct (decide (t' = t)) as [->|]; [apply lookup_delete_eq|by apply lookup_delete_ne].
  - by destruct (decide (t' = t)) as [->|].
Qed.

(** [st'] has data for the tokens of [st] and for [t]. *)
Definition data_within (t : Z) (st st' : Brief) : Prop :=
  forall t', t' <> t -> requestedPermData_ st' !! t' = requestedPermData_ st !! t'.

Lemma data_within_refl t st : data_within t st st.
Proof. by intros ? ?. Qed.

Lemma data_within_trans t st1 st2 st3 : data_within t st1 st2 -> data_within t st2 st3 -> data_within t st1 st3.
Proof. intros H1 H2 t' Hn. by rewrite H2, H1. Qed.

Section Data.
Context {PT : PermTable}.

Lemma brief_data_requested t s acl st d st1 :
  GetPermissionBriefData t s acl st = (d, st1) -> requestedPermData_ st1 = requestedPermData_ st.
Proof.
  unfold GetPermissionBriefData. cbv zeta. split_if; [intros G; by simplify_eq|].
  destruct (TransferPermissionToOpcode _) as [c|]; [|intros G; by simplify_eq].
  destruct (GetPermissionBriefDef_code c) as [def|]; [|intros G; by simplify_eq].
  destruct (pbd_hasValue def); intros G; by simplify_eq.
Qed.

Lemma list_data_requested t acl states : forall st l st1,
  GetPermissionBriefDataList_loop t states acl st = (l, st1) -> requestedPermData_ st1 = requestedPermData_ st.
Proof.
  induction states as [|s states IH]; intros st l st1; cbn; [intros G; by simplify_eq|].
  destruct (GetPermissionBriefData t s acl st) as [d st2] eqn:G.
  destruct (GetPermissionBriefDataList_loop t states acl st2) as [l2 st3] eqn:L.
  intros [= _ <-]. by rewrite (IH _ _ _ L), (brief_data_requested _ _ _ _ _ _ G).
Qed.

Lemma list_data_within t st states acl l st1 :
  GetPermissionBriefDataList t states acl st = (l, st1) -> requestedPermData_ st1 = requestedPermData_ st.
Proof. intros G. by apply list_data_requested in G. Qed.

Lemma restore_loop_requested t acl states : forall l st l' st',
  RestorePermissionBriefData_loop t states acl l st = (l', st') -> requestedPermData_ st' = requestedPermData_ st.
Proof.
  induction states as [|v states IH]; intros l st l' st'; cbn; [intros G; by simplify_eq|].
  destruct (TranslationIntoPermissionStatus v) as [|s]; [apply IH|].
  destruct (GetPermissionBriefData t s acl st) as [[d|] st1] eqn:G; apply brief_data_requested in G as <-; apply IH.
Qed.

Lemma Restore_within t sr er st : data_within t st (RestorePermissionBriefData t sr er st).
Proof.
  unfold RestorePermissionBriefData. destruct (TranslationIntoAclExtendedMap t er) as [ret acl].
  split_if; [apply data_within_refl|]. destruct (sr !! t) as [states|].
  - destruct (RestorePermissionBriefData_loop t states acl [] st) as [l st1] eqn:G.
    apply restore_loop_requested in G. intros t' Hn. cbn. by rewrite G, lookup_insert_ne, lookup_delete_ne.
  - intros t' Hn. cbn. by rewrite lookup_insert_ne, lookup_delete_ne.
Qed.

Lemma AddPerm_within t states acl chk st : data_within t st (AddPermToBriefPermission t states acl chk st).
Proof.
  unfold AddPermToBriefPermission. cbv zeta. destruct (GetPermissionBriefDataList _ _ _ _) as [l st1] eqn:G.
  apply list_data_within in G. intros t' Hn. cbn. rewrite G.
  by rewrite lookup_insert_ne, lookup_delete_ne by done.
Qed.

Lemma Update_within t states acl b st : data_within t st (Update t states acl b st).
Proof.
  unfold Update. cbv zeta. destruct (GetPermissionBriefDataList _ _ _ _) as [l st1] eqn:G.
  apply list_data_within in G. intros t' Hn. cbn. rewrite G.
  by rewrite lookup_insert_ne, lookup_delete_ne by done.
Qed.

End Data.

(** ** The invariant. *)
Section Invariant.
Context {S K : Type}.
Implicit Types (w : World S K) (id : Z) (info : HapTokenInfoInner) (X : gset Z).

(** The tokens of the map carry their key as id and are active application ids; a name leads
    to the local token that has it, and every local token is found under its name;
    permission data belong to tokens of the map (or to those in [X], being built). *)
Record inv_upto X w : Prop := {
  wi_key id info : hapTokenInfoMap_ w !! id = Some info -> hti_tokenID (tokenInfoBasic_ info) = id;
  wi_active id info : hapTokenInfoMap_ w !! id = Some info -> hap_id (w_ids w) id;
  wi_name key id : hapTokenIdMap_ w !! key = Some id ->
    exists info, hapTokenInfoMap_ w !! id = Some info /\ isRemote_ info = false /\ GetHapUniqueStr_info info = key;
  wi_local id info : hapTokenInfoMap_ w !! id = Some info -> isRemote_ info = false ->
    hapTokenIdMap_ w !! GetHapUniqueStr_info info = Some id;
  wi_data t : is_Some (requestedPermData_ (w_brief w) !! t) -> t ∈ X \/ is_Some (hapTokenInfoMap_ w !! t);
}.

Definition world_inv w : Prop := inv_upto ∅ w.

(** Only the token maps, the store and the active ids matter. *)
Lemma inv_upto_frame X w w' :
  hapTokenInfoMap_ w' = hapTokenInfoMap_ w -> hapTokenIdMap_ w' = hapTokenIdMap_ w -> w_brief w' = w_brief w ->
  tokenIdSet_ (w_ids w) ⊆ tokenIdSet_ (w_ids w') -> inv_upto X w -> inv_upto X w'.
Proof.
  intros E1 E2 E3 Hs H. split; rewrite ?E1, ?E2, ?E3; intros.
  - by eapply wi_key.
  - destruct (wi_active X w H id info) as (Hin & ? & ?); [done|]. split_and!; [set_solver|done..].
  - by eapply wi_name.
  - by eapply wi_local.
  - by eapply wi_data.
Qed.

(** Two local tokens never share user, bundle and clone index. *)
Lemma inv_unique X w id id' info info' :
  inv_upto X w -> hapTokenInfoMap_ w !! id = Some info -> hapTokenInfoMap_ w !! id' = Some info' ->
  isRemote_ info = false -> isRemote_ info' = false -> GetHapUniqueStr_info info = GetHapUniqueStr_info info' ->
  id = id'.
Proof.
  intros H H1 H2 R1 R2 E. pose proof (wi_local X w H _ _ H1 R1) as L1. pose proof (wi_local X w H _ _ H2 R2) as L2.
  rewrite E, L2 in L1. by injection L1.
Qed.

(** Replacing a token by one with the same id, name and origin, and its data. *)
Lemma inv_replace X w id info info' st :
  inv_upto X w -> hapTokenInfoMap_ w !! id = Some info ->
  hti_tokenID (tokenInfoBasic_ info') = hti_tokenID (tokenInfoBasic_ info) -> isRemote_ info' = isRemote_ info ->
  GetHapUniqueStr_info info' = GetHapUniqueStr_info info -> data_within id (w_brief w) st ->
  inv_upto X (set_brief st (set_haps (<[id := info']> (hapTokenInfoMap_ w)) w)).
Proof.
  intros H Hi Ei Er En Hd. pose proof (wi_key X w H _ _ Hi) as Hk.
  assert (forall i x, <[id:=info']> (hapTokenInfoMap_ w) !! i = Some x ->
    exists x0, hapTokenInfoMap_ w !! i = Some x0 /\ hti_tokenID (tokenInfoBasic_ x) = hti_tokenID (tokenInfoBasic_ x0) /\
      isRemote_ x = isRemote_ x0 /\ GetHapUniqueStr_info x = GetHapUniqueStr_info x0) as Hback.
  { intros i x [[<- <-]|[Hn Hx]]%lookup_insert_Some; [by exists info|by exists x]. }
  split; cbn.
  - intros i x (x0 & Hx & -> & _)%Hback. by eapply wi_key.
  - intros i x (x0 & Hx & _)%Hback. by eapply wi_active.
  - intros key i (x & Hx & Rx & Nx)%(wi_name X w H). destruct (decide (i = id)) as [->|Hne].
    + exists info'. rewrite lookup_insert_eq. rewrite Hi in Hx. injection Hx as <-. split_and!; [done| |]; congruence.
    + exists x. by rewrite lookup_insert_ne.
  - intros i x (x0 & Hx & _ & Rx & ->)%Hback Hr. eapply wi_local; [done..|]. congruence.
  - intros t Ht. destruct (decide (t = id)) as [->|Hne]; [right; by rewrite lookup_insert_eq|].
    rewrite Hd in Ht by done. destruct (wi_data X w H t Ht); [by left|right]. by rewrite lookup_insert_ne.
Qed.

(** ** Removing. *)
Definition without_name (key : string) (id : Z) (m : gmap string Z) : gmap string Z :=
  match m !! key with Some id' => if id' =? id then delete key m else m | None => m end.

(** What removal leaves: [st] is the store afterwards and [k] the device. *)
Record removed id info (st : Brief) (k : K) w w' : Prop := {
  rm_haps : hapTokenInfoMap_ w' = delete id (hapTokenInfoMap_ w);
  rm_names : hapTokenIdMap_ w' = without_name (GetHapUniqueStr_info info) id (hapTokenIdMap_ w);
  rm_brief : w_brief w' = st;
  rm_kernel : w_kernel w' = k;
  rm_ids : tokenIdSet_ (w_ids w') = tokenIdSet_ (w_ids w) ∖ {[id]};
  rm_natives : nativeTokenInfoMap_ w' = nativeTokenInfoMap_ w;
  rm_policies : w_policies w' = w_policies w;
  rm_modes : w_modes w' = w_modes w;
}.

Lemma without_name_lookup key id m k :
  without_name key id m !! k = if decide (k = key /\ m !! key = Some id) then None else m !! k.
Proof.
  unfold without_name. destruct (m !! key) as [id'|] eqn:E.
  - destruct (Z.eqb_spec id' id) as [->|Hne].
    + destruct (decide _) as [[-> _]|Hn]; [apply lookup_delete_eq|]. apply lookup_delete_ne. naive_solver.
    + rewrite decide_False by naive_solver. done.
  - rewrite decide_False by naive_solver. done.
Qed.

Lemma removed_inv X w w' id info k :
  inv_upto X w -> hapTokenInfoMap_ w !! id = Some info -> isRemote_ info = false ->
  removed id info (DeleteBriefPermDataByTokenId id (w_brief w)).2 k w w' -> inv_upto X w'.
Proof.
  intros H Hi Hr [E1 E2 E3 _ E4 _ _ _].
  pose proof (wi_local X w H _ _ Hi Hr) as Hl.
  split; rewrite ?E1, ?E2, ?E3.
  - intros i x [Hn Hx]%lookup_delete_Some. by eapply wi_key.
  - intros i x [Hn Hx]%lookup_delete_Some. destruct (wi_active X w H _ _ Hx) as (? & ? & ?).
    split_and!; [rewrite E4; set_solver|done..].
  - intros key i. rewrite without_name_lookup. destruct (decide _) as [|Hd]; [done|]. intros Hx.
    destruct (wi_name X w H _ _ Hx) as (x & H1 & H2 & H3). exists x. split_and!; [|done..].
    rewrite lookup_delete_ne; [done|]. intros <-. apply Hd. rewrite Hi in H1. injection H1 as <-. by rewrite H3 in *.
  - intros i x [Hn Hx]%lookup_delete_Some Rx. rewrite without_name_lookup, decide_False; [by eapply wi_local|].
    intros [E _]. apply Hn. symmetry. by apply (inv_unique X w i id x info).
  - intros t. rewrite delete_data_lookup. destruct (decide (t = id)) as [->|Hne]; [by intros []|].
    intros Ht. destruct (wi_data X w H t Ht); [by left|right]. by rewrite lookup_delete_ne.
Qed.

(** ** Adding. *)
Lemma inv_insert X w id info :
  inv_upto ({[id]} ∪ X) w -> hapTokenInfoMap_ w !! id = None -> hap_id (w_ids w) id ->
  hti_tokenID (tokenInfoBasic_ info) = id ->
  (isRemote_ info = false -> hapTokenIdMap_ w !! GetHapUniqueStr_info info = None) ->
  inv_upto X (set_haps (<[id := info]> (hapTokenInfoMap_ w))
    (set_hapIds (if isRemote_ info then hapTokenIdMap_ w else <[GetHapUniqueStr_info info := id]> (hapTokenIdMap_ w)) w)).
Proof.
  intros H Hn Hid Hk Hfree. split; cbn.
  - intros i x [[<- <-]|[Hne Hx]]%lookup_insert_Some; [done|by eapply wi_key].
  - intros i x [[<- <-]|[Hne Hx]]%lookup_insert_Some; [done|by eapply wi_active].
  - intros key i Hi. assert ((isRemote_ info = false /\ key = GetHapUniqueStr_info info /\ i = id) \/
      hapTokenIdMap_ w !! key = Some i) as [(Hr & -> & ->)|Ho].
    { destruct (isRemote_ info); [by right|]. apply lookup_insert_Some in Hi as [[<- <-]|[_ ?]]; auto. }
    + exists info. by rewrite lookup_insert_eq.
    + destruct (wi_name _ w H _ _ Ho) as (x & Hx & ? & ?). exists x.
      rewrite lookup_insert_ne; [done|]. intros <-. by rewrite Hx in Hn.
  - intros i x [[<- <-]|[Hne Hx]]%lookup_insert_Some Hr; [by rewrite Hr, lookup_insert_eq|].
    pose proof (wi_local _ w H _ _ Hx Hr) as Hl. destruct (isRemote_ info); [done|].
    rewrite lookup_insert_ne; [done|]. intros E. rewrite E, Hl in Hfree. by specialize (Hfree eq_refl).
  - intros t Ht. destruct (wi_data _ w H t Ht) as [Hin|Hs].
    + destruct (decide (t = id)) as [->|]; [right; by rewrite lookup_insert_eq|left; set_solver].
    + right. destruct (decide (t = id)) as [->|]; [by rewrite lookup_insert_eq|by rewrite lookup_insert_ne].
Qed.

(** The token that holds the name of [info]. *)
Definition name_owner info w : option Z :=
  if isRemote_ info then None else hapTokenIdMap_ w !! GetHapUniqueStr_info info.

(** What adding leaves. *)
Record added_token id info w w' : Prop := {
  ad_haps : hapTokenInfoMap_ w' =
    <[id := info]> (match name_owner info w with Some o => delete o (hapTokenInfoMap_ w) | None => hapTokenInfoMap_ w end);
  ad_names : hapTokenIdMap_ w' =
    if isRemote_ info then hapTokenIdMap_ w else <[GetHapUniqueStr_info info := id]> (hapTokenIdMap_ w);
  ad_brief : w_brief w' =
    match name_owner info w with Some o => (DeleteBriefPermDataByTokenId o (w_brief w)).2 | None => w_brief w end;
  ad_ids : tokenIdSet_ (w_ids w') =
    match name_owner info w with Some o => tokenIdSet_ (w_ids w) ∖ {[o]} | None => tokenIdSet_ (w_ids w) end;
  ad_natives : nativeTokenInfoMap_ w' = nativeTokenInfoMap_ w;
  ad_policies : w_policies w' = w_policies w;
  ad_modes : w_modes w' = w_modes w;
}.

Lemma added_inv X w w' id info :
  inv_upto ({[id]} ∪ X) w -> hapTokenInfoMap_ w !! id = None -> hap_id (w_ids w) id ->
  hti_tokenID (tokenInfoBasic_ info) = id -> added_token id info w w' -> inv_upto X w'.
Proof.
  intros H Hn Hid Hk [E1 E2 E3 E4 _ _ _]. unfold name_owner in *.
  destruct (isRemote_ info) eqn:Hr; [|destruct (hapTokenIdMap_ w !! _) as [o|] eqn:Ho].
  - eapply inv_upto_frame; [..|apply (inv_insert X w id info); [done..|by rewrite Hr]]; cbn; rewrite ?Hr; try done.
    by rewrite E4.
  - destruct (wi_name _ w H _ _ Ho) as (old & Hold & Rold & Nold).
    assert (id <> o) as Hne by (intros ->; by rewrite Hold in Hn).
    set (w1 := set_brief (DeleteBriefPermDataByTokenId o (w_brief w)).2
      (set_hapIds (without_name (GetHapUniqueStr_info old) o (hapTokenIdMap_ w))
        (set_haps (delete o (hapTokenInfoMap_ w)) (set_ids (ReleaseTokenId o (w_ids w)) w)))).
    assert (inv_upto ({[id]} ∪ X) w1) as H1.
    { eapply (removed_inv _ w _ o old (w_kernel w)); [done..|]. split; try done. apply Release_set. }
    eapply inv_upto_frame; [..|apply (inv_insert X w1 id info); [done| | |done|]]; cbn; rewrite ?Hr, ?Nold; try done.
    + rewrite E2. apply map_eq. intros key. destruct (decide (key = GetHapUniqueStr_info info)) as [->|Hk'];
        [by rewrite !lookup_insert_eq|rewrite !lookup_insert_ne by done].
      rewrite without_name_lookup, decide_False by naive_solver. done.
    + rewrite E4, Release_set. done.
    + rewrite lookup_delete_ne by done. done.
    + destruct Hid as (? & ? & ?). split_and!; [rewrite Release_set; set_solver|done..].
    + intros _. rewrite without_name_lookup, decide_True by done. done.
  - eapply inv_upto_frame; [..|apply (inv_insert X w id info); [done..|by rewrite Ho]]; cbn; rewrite ?Hr; try done.
    by rewrite E4.
Qed.

End Invariant.

(** ** The operations. *)
Section Operations.
Context {PT : PermTable} {BC : BuildConfig} {S K : Type} `{!AtmDb S} `{!TokenDevice K}.
Implicit Types (w : World S K) (id : Z) (info : HapTokenInfoInner) (X : gset Z).

Lemma RemoveFromDb_frame info b r w ret w' :
  RemoveHapTokenInfoFromDb info b r w = (ret, w') -> w' = set_db (w_db w') w.
Proof. unfold RemoveHapTokenInfoFromDb. cbv zeta. destruct (db_DeleteAndInsertValues _ _ _). by intros [= _ <-]. Qed.

Lemma AddReserved_ids u b i id w :
  hapTokenInfoMap_ (AddReservedHapTokenId u b i id w) = hapTokenInfoMap_ w /\
  hapTokenIdMap_ (AddReservedHapTokenId u b i id w) = hapTokenIdMap_ w /\
  w_brief (AddReservedHapTokenId u b i id w) = w_brief w /\
  nativeTokenInfoMap_ (AddReservedHapTokenId u b i id w) = nativeTokenInfoMap_ w /\
  w_policies (AddReservedHapTokenId u b i id w) = w_policies w /\
  w_modes (AddReservedHapTokenId u b i id w) = w_modes w /\
  w_kernel (AddReservedHapTokenId u b i id w) = w_kernel w /\
  tokenIdSet_ (w_ids (AddReservedHapTokenId u b i id w)) = tokenIdSet_ (w_ids w).
Proof.
  unfold AddReservedHapTokenId. destruct (_ !! _); [done|]. cbn. by rewrite AddReserved_set.
Qed.

Lemma RemoveInner_local id b w info :
  hapTokenInfoMap_ w !! id = Some info -> isRemote_ info = false ->
  exists w', RemoveHapTokenInfoInner id b w = (inr info, w') /\
    removed id info (w_brief w) (RemovePermFromKernel (w_kernel w) id).2 w w'.
Proof.
  intros Hi Hr. unfold RemoveHapTokenInfoInner. rewrite Hi, Hr. cbv zeta. set (w1 := set_ids _ _).
  set (w2 := match hapTokenIdMap_ w1 !! _ with Some _ => _ | None => _ end). eexists. split; [reflexivity|].
  assert (removed id info (w_brief w) (RemovePermFromKernel (w_kernel w) id).2 w
            (set_haps (delete id (hapTokenInfoMap_ w2)) w2)) as [F1 F2 F3 F4 F5 F6 F7 F8].
  { subst w2. destruct (hapTokenIdMap_ w1 !! _) as [i|] eqn:E; [destruct (i =? id) eqn:Ei|]; cbn in E; split; cbn;
      unfold without_name; rewrite ?E, ?Ei; try done; by rewrite Release_set. }
  destruct b; [|done]. set (u := hti_userID _). set (n := hti_bundleName _). set (i := hti_instIndex _).
  destruct (AddReserved_ids u n i id w2) as (A1 & A2 & A3 & A4 & A5 & A6 & A7 & A8). cbn in F1, F2, F3, F4, F5, F6, F7, F8.
  split; cbn; congruence.
Qed.

(** Removal succeeds exactly for a local token of the map that is an active application id. *)
Lemma RemoveHapTokenInfo_cases id b w ret w' :
  RemoveHapTokenInfo id b w = (ret, w') ->
  (ret = RET_SUCCESS /\ exists info, hapTokenInfoMap_ w !! id = Some info /\ isRemote_ info = false /\
     GetTokenIdType id (w_ids w) = TOKEN_HAP /\
     removed id info (DeleteBriefPermDataByTokenId (hti_tokenID (tokenInfoBasic_ info)) (w_brief w)).2
       (RemovePermFromKernel (w_kernel w) id).2 w w') \/
  (w' = w /\
   ((ret = ERR_PARAM_INVALID /\ GetTokenIdType id (w_ids w) <> TOKEN_HAP) \/
    (ret = ERR_TOKENID_NOT_EXIST /\ hapTokenInfoMap_ w !! id = None) \/
    (ret = ERR_IDENTITY_CHECK_FAILED /\ exists info, hapTokenInfoMap_ w !! id = Some info /\ isRemote_ info = true))).
Proof.
  unfold RemoveHapTokenInfo. destruct (Z.eqb_spec (GetTokenIdType id (w_ids w)) TOKEN_HAP) as [Ht|Ht]; cbn [negb];
    [|intros [= <- <-]; auto].
  destruct (hapTokenInfoMap_ w !! id) as [info|] eqn:Hi.
  2: { unfold RemoveHapTokenInfoInner. rewrite Hi. intros [= <- <-]; auto 6. }
  destruct (isRemote_ info) eqn:Hr.
  { unfold RemoveHapTokenInfoInner. rewrite Hi, Hr. intros [= <- <-]; eauto 8. }
  destruct (RemoveInner_local id b w info Hi Hr) as (w1 & -> & [F1 F2 F3 F4 F5 F6 F7 F8]). cbv zeta.
  destruct (RemoveHapTokenInfoFromDb _ _ _ _) as [e wd] eqn:Ed. apply RemoveFromDb_frame in Ed.
  intros [= <- <-]. left. split; [done|]. exists info. split_and!; [done..|]. rewrite Ed.
  destruct (GetGrantedPermList _ _), TOKEN_SYNC_ENABLE; split; cbn; unfold destroy_HapTokenInfoInner; congruence.
Qed.

Lemma RemoveHapTokenInfo_inv X id b w : inv_upto X w -> inv_upto X (RemoveHapTokenInfo id b w).2.
Proof.
  intros H. destruct (RemoveHapTokenInfo id b w) as [ret w'] eqn:E.
  apply RemoveHapTokenInfo_cases in E as [(_ & info & H1 & H2 & _ & H3)|[-> _]]; [|done].
  rewrite (wi_key X w H _ _ H1) in H3. by eapply removed_inv.
Qed.

(** The granted codes of the token have been sent to the device [k0], after the bits of the
    token it replaces had been removed. *)
Definition pushed (k0 : K) id w : Prop :=
  exists k, (k = k0 \/ exists o, k = (RemovePermFromKernel k0 o).2) /\
    w_kernel w = (AddHapPermToKernel k id (GetGrantedPermCodeList id (w_brief w))).2.

Lemma AddHapTokenInfo_fresh X w id info :
  inv_upto X w -> hti_tokenID (tokenInfoBasic_ info) = id -> hapTokenInfoMap_ w !! id = None -> hap_id (w_ids w) id ->
  exists w', AddHapTokenInfo info w = (RET_SUCCESS, default 0 (name_owner info w), w') /\ added_token id info w w' /\
    pushed (w_kernel w) id w'.
Proof.
  intros H Hk Hn Hid. unfold AddHapTokenInfo, name_owner. rewrite Hk, Hn.
  destruct (isRemote_ info) eqn:Hr; cbn [negb].
  { cbn. eexists. split; [done|]. split; [|eexists; split; [by left|done]]. split; unfold name_owner; cbn; by rewrite ?Hr. }
  destruct (hapTokenIdMap_ w !! GetHapUniqueStr_info info) as [o|] eqn:Ho; cbn [default].
  2: { cbn. eexists. split; [done|]. split; [|eexists; split; [by left|done]]. split; unfold name_owner; cbn; by rewrite ?Hr, ?Ho. }
  destruct (wi_name X w H _ _ Ho) as (old & Hold & Rold & Nold).
  assert (id <> o) as Hne by (intros ->; by rewrite Hold in Hn).
  pose proof (wi_active X w H _ _ Hold) as Ha. pose proof Ha as (_ & _ & Hnz).
  change (Datatypes.id o) with o. unfold INVALID_TOKENID.
  apply Z.eqb_neq in Hnz as ->. cbn [negb]. set (w1 := set_haps _ _).
  destruct (RemoveHapTokenInfo o false w1) as [ret w2] eqn:Er. eexists. split; [done|].
  apply RemoveHapTokenInfo_cases in Er as [(_ & x & Hx & _ & _ & [F1 F2 F3 F4 F5 F6 F7 F8])|[-> [[_ Hf]|[[_ Hf]|(_ & x & Hf & Hrx)]]]];
    cbn in *.
  - rewrite lookup_insert_ne in Hx by done. rewrite Hold in Hx. injection Hx as <-.
    rewrite (wi_key X w H _ _ Hold) in F3.
    split; [|exists (w_kernel w2); split; [right; by exists o|done]].
    split; unfold name_owner; cbn; rewrite ?Hr, ?Ho; cbn; try done.
    + rewrite F1. by rewrite delete_insert_ne by done.
    + rewrite F2, Nold. apply map_eq. intros key. rewrite without_name_lookup, lookup_insert_eq.
      rewrite decide_False by naive_solver. done.
  - destruct Hf. by apply hap_id_type.
  - rewrite lookup_insert_ne in Hf by done. congruence.
  - rewrite lookup_insert_ne in Hf by done. congruence.
Qed.

Lemma AddHapTokenInfo_inv X w id info :
  inv_upto ({[id]} ∪ X) w -> hti_tokenID (tokenInfoBasic_ info) = id -> hapTokenInfoMap_ w !! id = None ->
  hap_id (w_ids w) id -> inv_upto X (AddHapTokenInfo info w).2.
Proof.
  intros H Hk Hn Hid. destruct (AddHapTokenInfo_fresh _ w id info H Hk Hn Hid) as (w' & -> & Ha & _).
  by eapply added_inv.
Qed.

(** ** Creating. *)
Lemma set_ids_same w : set_ids (w_ids w) w = w.
Proof. by destruct w. Qed.

(** A fresh id, and the id manager after its registration. *)
Definition fresh_id (ids ids' : IdMgr) (id : Z) : Prop :=
  GetTokenIdStatusLocked id ids = None /\ GetTokenIdTypeEnum id = TOKEN_HAP /\ id <> 0 /\
  tokenIdSet_ ids' = {[id]} ∪ tokenIdSet_ ids /\ reservedTokenIdSet_ ids' = reservedTokenIdSet_ ids /\
  untrustedTokenIdSet_ ids' = untrustedTokenIdSet_ ids.

Lemma fresh_hap_id ids ids' id : fresh_id ids ids' id -> hap_id ids' id.
Proof. intros (_ & ? & ? & E & _). split_and!; [rewrite E; set_solver|done..]. Qed.

Lemma fresh_not_active ids ids' id : fresh_id ids ids' id -> id ∉ tokenIdSet_ ids.
Proof. by intros ((? & _)%status_None & _). Qed.

Lemma fresh_not_in_map X w ids' id : inv_upto X w -> fresh_id (w_ids w) ids' id -> hapTokenInfoMap_ w !! id = None.
Proof.
  intros H Hf%fresh_not_active. apply eq_None_not_Some. intros [info Hi].
  by destruct (wi_active X w H _ _ Hi).
Qed.

Lemma InfoRegister_cases rands (par : HapInfoParams) w r w1 :
  InfoRegisterTokenId rands par w = (r, w1) ->
  match r with
  | inl e => w1 = w /\ e <> RET_SUCCESS
  | inr id => (is_u32 (hip_tokenID par) -> is_u32 id) /\ exists ids', w1 = set_ids ids' w /\ fresh_id (w_ids w) ids' id
  end.
Proof.
  unfold InfoRegisterTokenId. split_if.
  - destruct (RegisterTokenId _ _ _) as [res ids'] eqn:R. destruct (Z.eqb_spec res RET_SUCCESS) as [->|Hne]; cbn [negb];
      intros [= <- <-].
    + apply RegisterTokenId_ok in R as (? & ? & ? & ? & ? & ?). split; [done|]. by exists ids'.
    + apply RegisterTokenId_fail in R as ->; [|done]. by rewrite set_ids_same.
  - cbv zeta. destruct (CreateAndRegisterTokenId _ _ _ _ _ _) as [id ids'] eqn:C.
    apply Create_loop_spec in C; [|done]. destruct (Z.eqb_spec id 0) as [->|Hne]; intros [= <- <-].
    + rewrite decide_True in C by done. destruct C as [-> _]. by rewrite set_ids_same.
    + rewrite decide_False in C by done. destruct C as (Hs & -> & i & _ & Hr & Hid). split.
      { intros _. rewrite Hid. unfold CreateTokenId. apply Z.eqb_neq in Hr as ->. apply id_of_inner_u32. }
      eexists. split; [done|].
      split_and!; try done. rewrite Hid. unfold GetTokenIdTypeEnum. by rewrite CreateTokenId_inner.
Qed.

Lemma AddToDb_frame info ctx w ret w' :
  isRemote_ info = false -> AddHapTokenInfoToDb info ctx w = (ret, w') ->
  w' = set_db (w_db w') (take_clock w).2.
Proof.
  intros Hr. unfold AddHapTokenInfoToDb. rewrite Hr. cbn [take_clock]. cbv zeta.
  destruct (db_DeleteAndInsertValues _ _ _) as [e db]. by intros [= _ <-].
Qed.

Lemma RemoveReserved_frame u b i w :
  exists m ids, RemoveReservedHapTokenId u b i w = set_reserved m (set_ids ids w) /\
    tokenIdSet_ ids = tokenIdSet_ (w_ids w) /\ untrustedTokenIdSet_ ids = untrustedTokenIdSet_ (w_ids w).
Proof.
  unfold RemoveReservedHapTokenId. destruct (_ !! _) as [id|]; [by eexists _, _|].
  exists (reservedHapTokenIdMap_ w), (w_ids w). by destruct w.
Qed.

(** The permission states a new token starts with. *)
Definition created_policy id (par : HapInfoParams) (policy : HapPolicy) w : HapPolicy :=
  let l := hp_permStateList policy in
  let l := if SUPPORT_SANDBOX_APP && negb (hip_dlpType par =? DLP_COMMON)
           then UpdatePermStateWithDlpInfo (hip_dlpType par) (w_modes w) l else l in
  with_permStateList (UpdatePermissionStatusListForUserPolicy id (hip_userID par) (w_policies w) l) policy.

(** The fields the invariant reads are the same. *)
Record same_tokens w w' : Prop := {
  st_haps : hapTokenInfoMap_ w' = hapTokenInfoMap_ w;
  st_names : hapTokenIdMap_ w' = hapTokenIdMap_ w;
  st_data t : requestedPermData_ (w_brief w') !! t = requestedPermData_ (w_brief w) !! t;
  st_ids : tokenIdSet_ (w_ids w') = tokenIdSet_ (w_ids w);
}.

Lemma same_tokens_inv X w w' : same_tokens w w' -> inv_upto X w -> inv_upto X w'.
Proof.
  intros [E1 E2 E3 E4] H. split; rewrite ?E1, ?E2.
  - apply (wi_key X w H).
  - intros id info Hi. destruct (wi_active X w H _ _ Hi) as (? & ? & ?). split_and!; [by rewrite E4|done..].
  - apply (wi_name X w H).
  - apply (wi_local X w H).
  - intros t. rewrite E3. apply (wi_data X w H).
Qed.

(** The state in which the new token is added. *)
Definition building id info (st : Brief) (ids' : IdMgr) w : World S K := set_brief st (set_ids ids' w).

Lemma building_inv w ids' id info par policy st :
  world_inv w -> fresh_id (w_ids w) ids' id -> new_HapTokenInfoInner id par policy (w_brief w) = (info, st) ->
  inv_upto ({[id]} ∪ ∅) (building id info st ids' w) /\ hti_tokenID (tokenInfoBasic_ info) = id /\
  isRemote_ info = false /\ requestedPermData_ (w_brief w) !! id = None.
Proof.
  intros H Hf Hn. injection Hn as <- <-. split_and!; try done.
  - pose proof Hf as (_ & _ & _ & Eset & _). split; cbn.
    + apply (wi_key ∅ w H).
    + intros i x Hi. destruct (wi_active ∅ w H _ _ Hi) as (? & ? & ?). split_and!; [rewrite Eset; set_solver|done..].
    + apply (wi_name ∅ w H).
    + apply (wi_local ∅ w H).
    + intros t. destruct (decide (t = id)) as [->|Hne]; [set_solver|]. rewrite AddPerm_within by done. intros Ht.
      destruct (wi_data ∅ w H t Ht) as [|]; [set_solver|by right].
  - apply eq_None_not_Some. intros Hs. destruct (wi_data ∅ w H id Hs) as [|[x Hx]]; [set_solver|].
    by rewrite (fresh_not_in_map ∅ w ids' id H Hf) in Hx.
Qed.

Lemma CreateHapTokenInfo_cases rands par policy undef w ret idx w' :
  world_inv w -> CreateHapTokenInfo rands par policy undef w = (ret, idx, w') ->
  (ret <> RET_SUCCESS /\ idx = (0, 0) /\ same_tokens w w') \/
  (ret = RET_SUCCESS /\ (is_u32 (hip_tokenID par) -> is_u32 idx.1) /\ exists ids' info st,
     fresh_id (w_ids w) ids' idx.1 /\ idx.2 = AllocAccessTokenIDEx par 0 /\
     new_HapTokenInfoInner idx.1 par (created_policy idx.1 par policy w) (w_brief w) = (info, st) /\
     added_token idx.1 info (building idx.1 info st ids' w) w' /\ pushed (w_kernel w) idx.1 w').
Proof.
  intros H. unfold CreateHapTokenInfo. split_if; [intros [= <- <- <-]; by left|].
  destruct (InfoRegisterTokenId rands par w) as [[e|id] w1] eqn:R; apply InfoRegister_cases in R.
  { destruct R as [-> Hne]. intros [= <- <- <-]; by left. }
  destruct R as (Hu & ids' & -> & Hf). cbv zeta.
  change (with_permStateList _ policy) with (created_policy id par policy w).
  destruct (new_HapTokenInfoInner _ _ _ _) as [info st] eqn:Hn. cbn in Hn.
  destruct (building_inv _ _ _ _ _ _ _ H Hf Hn) as (Hb & Hk & Hr & Hnone).
  assert (forall t, t <> id -> requestedPermData_ st !! t = requestedPermData_ (w_brief w) !! t) as Hst.
  { injection Hn as _ <-. intros t Ht. by apply AddPerm_within. }
  destruct (AddHapTokenInfoToDb _ _ _) as [e w2] eqn:Ed. apply AddToDb_frame in Ed; [|done].
  destruct (Z.eqb_spec e RET_SUCCESS) as [->|Hne]; cbn [negb].
  - destruct (AddHapTokenInfo_fresh ({[id]} ∪ ∅) w2 id info) as (w3 & -> & Ha & Hp).
    { rewrite Ed. eapply inv_upto_frame; [..|exact Hb]; done. }
    { done. }
    { rewrite Ed. exact (fresh_not_in_map ∅ w ids' id H Hf). }
    { rewrite Ed. exact (fresh_hap_id _ _ _ Hf). }
    cbn [negb]. intros [= <- <- <-]. right. split; [done|]. split; [done|]. exists ids', info, st. cbn [fst snd].
    edestruct (RemoveReserved_frame (hip_userID par) (hip_bundleName par) (hip_instIndex par) w3) as (m & ids & -> & Ei & _).
    split_and!; [done..| |rewrite Ed in Hp; destruct Hp as [k Hp]; by exists k]. rewrite Ed in Ha. destruct Ha. by split; cbn; rewrite ?Ei.
  - intros [= <- <- <-]. left. split_and!; [done..|]. rewrite Ed. split; cbn; try done.
    + intros t. unfold destroy_HapTokenInfoInner. rewrite Hk, delete_data_lookup.
      destruct (decide (t = id)) as [->|Hnt]; [done|by apply Hst].
    + pose proof (fresh_not_active _ _ _ Hf). destruct Hf as (_ & _ & _ & Es & _).
      rewrite Release_set, Es. set_solver.
Qed.

Lemma CreateHapTokenInfo_inv rands par policy undef w :
  world_inv w -> world_inv (CreateHapTokenInfo rands par policy undef w).2.
Proof.
  intros H. destruct (CreateHapTokenInfo rands par policy undef w) as [[ret idx] w'] eqn:E.
  apply CreateHapTokenInfo_cases in E as [(_ & _ & Hs)|(_ & _ & ids' & info & st & Hf & _ & Hn & Ha & _)]; [| |done].
  - by eapply same_tokens_inv.
  - destruct (building_inv _ _ _ _ _ _ _ H Hf Hn) as (Hb & Hk & Hr & Hnone).
    eapply added_inv; [exact Hb| | |exact Hk|exact Ha]; cbn.
    + by eapply fresh_not_in_map.
    + by eapply fresh_hap_id.
Qed.

(** ** Updating. *)
Lemma in_map w id info : hapTokenInfoMap_ w !! id = Some info -> GetHapTokenInfoInner id w = (Some info, w).
Proof. intros Hi. unfold GetHapTokenInfoInner. by rewrite Hi. Qed.

Lemma HapUpdate_keeps upd l policy info st info' st' :
  HapUpdate upd l policy info st = (info', st') ->
  hti_tokenID (tokenInfoBasic_ info') = hti_tokenID (tokenInfoBasic_ info) /\ isRemote_ info' = isRemote_ info /\
  GetHapUniqueStr_info info' = GetHapUniqueStr_info info /\ data_within (hti_tokenID (tokenInfoBasic_ info)) st st'.
Proof. unfold HapUpdate. cbv zeta. intros [= <- <-]. split_and!; try done. apply Update_within. Qed.

Lemma UpdateHapToken_inv w id attr upd l policy undef :
  world_inv w -> is_Some (hapTokenInfoMap_ w !! id) -> world_inv (UpdateHapToken id attr upd l policy undef w).2.
Proof.
  intros H [info Hi]. unfold UpdateHapToken. split_if; [done|]. rewrite (in_map _ _ _ Hi).
  destruct (isRemote_ info) eqn:Hr; [done|]. cbv zeta. destruct (db_Find _ _ _) as [[e old] db].
  assert (forall db, world_inv (set_db db w)) as Hdb by (intros; eapply inv_upto_frame; [..|exact H]; done).
  split_if; [apply Hdb|]. destruct (HapUpdate _ _ _ _ _) as [info' st'] eqn:U. cbn [w_brief set_db] in U.
  apply HapUpdate_keeps in U as (U1 & U2 & U3 & U4). rewrite (wi_key ∅ w H _ _ Hi) in U4.
  pose proof (inv_replace ∅ (set_db db w) id info info' st' (Hdb db) Hi U1 U2 U3 U4) as Hw.
  destruct (AddHapTokenInfoToDb _ _ _) as [e2 w2] eqn:Ed. apply AddToDb_frame in Ed; [|congruence].
  split_if; rewrite Ed; [|destruct TOKEN_SYNC_ENABLE]; (eapply inv_upto_frame; [..|exact Hw]; done).
Qed.

(** ** Changing the data of a token of the map. *)
Lemma inv_data X w id st :
  inv_upto X w -> is_Some (hapTokenInfoMap_ w !! id) -> data_within id (w_brief w) st -> inv_upto X (set_brief st w).
Proof.
  intros H [info Hi] Hd. eapply inv_upto_frame; [..|apply (inv_replace X w id info info st H Hi); done]; cbn; try done.
  by rewrite insert_id.
Qed.

Lemma Reset_within t st : data_within t st (ResetUserGrantPermissionStatus t st).2.
Proof.
  unfold ResetUserGrantPermissionStatus. destruct (_ !! t) as [l|]; [|apply data_within_refl].
  intros t' Hn. cbn. by rewrite lookup_insert_ne.
Qed.

Lemma HapReset_within modes now info st db e st' db' :
  HapResetUserGrantPermissionStatus modes now info st db = (e, st', db') ->
  data_within (hti_tokenID (tokenInfoBasic_ info)) st st'.
Proof.
  set (t := hti_tokenID (tokenInfoBasic_ info)). unfold HapResetUserGrantPermissionStatus. fold t. cbv zeta.
  pose proof (Reset_within t st) as H1. destruct (ResetUserGrantPermissionStatus t st) as [r st1]. cbn in H1.
  split_if; [intros [= _ <- _]; done|]. destruct (GetPermissionStateList info st1) as [r2 l].
  split_if; [intros [= _ <- _]; done|]. destruct SUPPORT_SANDBOX_APP; destruct (UpdateStatesToDB _ _ _);
    intros [= _ <- _]; [|done]. eapply data_within_trans; [exact H1|apply Update_within].
Qed.

Lemma ClearUserGranted_inv w id :
  world_inv w -> is_Some (hapTokenInfoMap_ w !! id) -> world_inv (ClearUserGrantedPermission id w).2.
Proof.
  intros H [info Hi]. unfold ClearUserGrantedPermission. rewrite (in_map _ _ _ Hi). split_if; [done|]. cbn [take_clock].
  cbv zeta. destruct (HapResetUserGrantPermissionStatus _ _ _ _ _) as [[e st] db] eqn:Er. cbn [w_brief] in Er.
  apply HapReset_within in Er. rewrite (wi_key ∅ w H _ _ Hi) in Er.
  assert (world_inv (set_brief st w)) as Hs by (eapply inv_data; eauto).
  split_if; (eapply inv_upto_frame; [..|exact Hs]; done).
Qed.

Lemma SetPermDialogCap_inv w id b : world_inv w -> world_inv (SetPermDialogCap id b w).2.
Proof.
  intros H. unfold SetPermDialogCap. destruct (_ !! id) as [info|] eqn:Hi; [|done].
  unfold UpdateCapStateToDatabase. cbv zeta. destruct (db_Modify _ _ _ _) as [e db].
  assert (world_inv (set_db db w)) as Hdb by (eapply inv_upto_frame; [..|exact H]; done).
  split_if; [done|]. eapply inv_upto_frame; [..|apply (inv_replace ∅ (set_db db w) id info (set_permDialogForbidden b info)
    (w_brief w) Hdb Hi); try done; apply data_within_refl]; done.
Qed.

(** ** Native tokens. *)
Lemma InitNative_inv kspm X w n : inv_upto X w -> inv_upto X (InitNativeTokenInfos_item kspm w n).
Proof.
  intros H. unfold InitNativeTokenInfos_item. cbv zeta. destruct (RegisterTokenId _ _ _) as [e ids] eqn:R.
  assert (tokenIdSet_ (w_ids w) ⊆ tokenIdSet_ ids) as Hsub.
  { destruct (decide (e = RET_SUCCESS)) as [->|Hne].
    - apply RegisterTokenId_ok in R as (_ & _ & _ & -> & _). set_solver.
    - by apply RegisterTokenId_fail in R as ->. }
  split_if; (eapply inv_upto_frame; [..|exact H]; done).
Qed.

Lemma RemoveNative_inv X w id : inv_upto X w -> inv_upto X (RemoveNativeTokenInfo id w).2.
Proof.
  intros H. unfold RemoveNativeTokenInfo. cbv zeta. split_if; [done|]. destruct (_ !! id); [|done]. cbn [snd].
  assert (GetTokenIdTypeEnum id <> TOKEN_HAP) as Hty.
  { intros Ht. unfold GetTokenIdType in E. rewrite Ht in E. by destruct (bool_decide _). }
  split; cbn; try apply H. intros i x Hi. destruct (wi_active X w H _ _ Hi) as (? & Hx & ?).
  split_and!; [|done..]. rewrite Release_set. apply elem_of_difference. split; [done|].
  intros ->%elem_of_singleton. done.
Qed.

(** ** Restoring from the database. *)
Lemma RestoreHap_keeps id v sr er st e hap st' :
  RestoreHapTokenInfo id v sr er default_HapTokenInfoInner st = (e, hap, st') ->
  hti_tokenID (tokenInfoBasic_ hap) = id /\ isRemote_ hap = false /\ data_within id st st'.
Proof.
  unfold RestoreHapTokenInfo, RestoreHapTokenBasicInfo. cbv zeta.
  repeat (split_if; [intros [= _ <- <-]; split_and!; try done; apply data_within_refl|]).
  intros [= _ <- <-]. split_and!; try done. apply Restore_within.
Qed.

(** Data for a token that is not in the map, then dropped. *)
Lemma drop_unborn X w id info st :
  inv_upto X w -> hapTokenInfoMap_ w !! id = None -> hti_tokenID (tokenInfoBasic_ info) = id ->
  data_within id (w_brief w) st -> inv_upto X (drop_token info (set_brief st w)).
Proof.
  intros H Hn Hk Hd. split; cbn; try apply H. intros t. unfold destroy_HapTokenInfoInner. rewrite Hk, delete_data_lookup.
  destruct (decide (t = id)) as [->|Hne]; [by intros []|]. rewrite Hd by done. apply (wi_data X w H).
Qed.

Lemma inv_build X w id st :
  inv_upto X w -> data_within id (w_brief w) st -> inv_upto ({[id]} ∪ X) (set_brief st w).
Proof.
  intros H Hd. split; cbn; try apply H. intros t Ht. destruct (decide (t = id)) as [->|Hne]; [set_solver|].
  rewrite Hd in Ht by done. destruct (wi_data X w H t Ht); [set_solver|by right].
Qed.

Lemma inv_release w id ids :
  world_inv (set_ids ids w) -> hapTokenInfoMap_ w !! id = None -> world_inv (set_ids (ReleaseTokenId id ids) w).
Proof.
  intros H Hn. split; cbn; try apply H. intros i x Hi. destruct (wi_active ∅ _ H _ _ Hi) as (Hin & ? & ?).
  split_and!; [|done..]. rewrite Release_set. apply elem_of_difference. split; [done|].
  intros ->%elem_of_singleton. congruence.
Qed.

Lemma RestoreActive_inv w v sr er : world_inv w -> world_inv (RestoreActiveHapTokenToCache v sr er w).2.
Proof.
  intros H. unfold RestoreActiveHapTokenToCache. cbv zeta. set (id := u32 _).
  destruct (RegisterTokenId id TOKEN_HAP (w_ids w)) as [e ids] eqn:R. destruct (Z.eqb_spec e RET_SUCCESS) as [->|Hne]; cbn [negb].
  2: { apply RegisterTokenId_fail in R as ->; [|done]. by rewrite set_ids_same. }
  apply RegisterTokenId_ok in R as (F1 & F2 & F3 & F4 & F5 & F6).
  assert (fresh_id (w_ids w) ids id) as Hf by done.
  assert (world_inv (set_ids ids w)) as H1.
  { eapply inv_upto_frame; [..|exact H]; try done. cbn. rewrite F4. set_solver. }
  pose proof (fresh_not_in_map ∅ w ids id H Hf) as Hn.
  destruct (RestoreHapTokenInfo _ _ _ _ _ _) as [[e2 hap] st] eqn:Er.
  apply RestoreHap_keeps in Er as (Hk & Hr & Hd). cbn in Hd. split_if.
  - apply (drop_unborn ∅ (set_ids (ReleaseTokenId id ids) w) id hap st); [by apply inv_release|done..].
  - pose proof (inv_build ∅ _ id st H1 Hd) as Hb.
    destruct (AddHapTokenInfo_fresh _ _ id hap Hb Hk Hn (fresh_hap_id _ _ _ Hf)) as (w3 & -> & Ha & Hp).
    cbn [negb snd]. eapply added_inv; [exact Hb|done|by eapply fresh_hap_id|done|exact Ha].
Qed.

Lemma AddReservedHap_inv X u b i id w : inv_upto X w -> inv_upto X (AddReservedHapTokenId u b i id w).
Proof.
  intros H. edestruct (AddReserved_ids u b i id w) as (? & ? & ? & _ & _ & _ & _ & E).
  eapply inv_upto_frame; [..|exact H]; try done. by rewrite E.
Qed.

Lemma AddHapInfoToCache_inv w v sr er : world_inv w -> world_inv (AddHapInfoToCache v sr er w).2.
Proof.
  intros H. unfold AddHapInfoToCache. split_if; [by apply AddReservedHap_inv|by apply RestoreActive_inv].
Qed.

Lemma InitHapTokenInfos_inv w : world_inv w -> world_inv (InitHapTokenInfos w).2.
Proof.
  intros H. unfold InitHapTokenInfos.
  repeat (destruct (db_Find _ _ _) as [[? ?] ?]; split_if; [eapply inv_upto_frame; [..|exact H]; done|]).
  match goal with |- world_inv (fold_left ?f ?l ?a).2 =>
    assert (world_inv a.2) as Ha by (eapply inv_upto_frame; [..|exact H]; done); revert Ha;
    generalize a; induction l as [|v l IH]; [done|]; intros a0 Ha end.
  cbn [fold_left]. apply IH. destruct a0 as [[n m] w0]. cbn in *. unfold InitHapTokenInfos_item.
  pose proof (AddHapInfoToCache_inv w0 v (GroupValuesByTokenId l0) (GroupValuesByTokenId l1) Ha) as Hi.
  destruct (AddHapInfoToCache _ _ _ _) as [e w1]. by split_if.
Qed.

(** ** Loading a token on demand. *)
Lemma Load_inv w id r w' :
  world_inv w -> GetHapTokenInfoInner id w = (r, w') ->
  (forall info, r = Some info -> hapTokenInfoMap_ w !! id = None ->
     hapTokenIdMap_ w !! GetHapUniqueStr_info info = None /\ hap_id (w_ids w') id) ->
  world_inv w'.
Proof.
  intros H. unfold GetHapTokenInfoInner. destruct (hapTokenInfoMap_ w !! id) as [x|] eqn:Hn; [by intros [= _ <-]|].
  destruct (GetTokenIdStatus id (w_ids w)) as [e0 s0]. split_if; [by intros [= _ <-]|]. clear E.
  unfold GetHapTokenInfoInnerFromDb. cbv zeta.
  destruct (db_Find _ _ _) as [[e res] db]. set (w1 := set_db db w).
  assert (world_inv w1) as H1 by (eapply inv_upto_frame; [..|exact H]; done).
  destruct res as [|v res]; [by intros [= _ <-]|]. split_if; [by intros [= _ <-]|]. clear E.
  unfold AddReservedHapInfoFromDbValues. cbv zeta. split_if.
  { intros [= _ <-] _. eapply inv_upto_frame; [..|exact H1]; try done. cbn. by rewrite AddReserved_set. }
  clear E. destruct (db_Find _ _ _) as [[e2 ps] db2]. set (w2 := set_db db2 w1).
  assert (world_inv w2) as H2 by (eapply inv_upto_frame; [..|exact H]; done). split_if; [by intros [= _ <-]|]. clear E.
  destruct (db_Find _ _ _) as [[e3 es] db3]. set (w3 := set_db db3 w2).
  assert (world_inv w3) as H3 by (eapply inv_upto_frame; [..|exact H]; done). split_if; [by intros [= _ <-]|]. clear E.
  destruct (RestoreHapTokenInfo _ _ _ _ _ _) as [[e4 hap] st] eqn:Er.
  apply RestoreHap_keeps in Er as (Hk & Hr & Hd). split_if.
  { intros [= _ <-] _. by apply (drop_unborn ∅ w3 id hap st). }
  cbn [hapTokenInfoMap_ set_brief w3 w2 w1 set_db]. rewrite Hn. intros [= <- <-] Hfree.
  destruct (Hfree hap eq_refl eq_refl) as [Hname Hid].
  set (ids := (RegisterTokenId id TOKEN_HAP _).2) in *.
  assert (world_inv (set_ids ids w3)) as H4.
  { eapply inv_upto_frame; [..|exact H3]; try done. unfold ids. cbn. destruct (RegisterTokenId _ _ _) as [e5 ids5] eqn:R.
    cbn. destruct (decide (e5 = RET_SUCCESS)) as [->|Hne].
    - apply RegisterTokenId_ok in R as (_ & _ & _ & -> & _). set_solver.
    - by apply RegisterTokenId_fail in R as ->. }
  pose proof (inv_build ∅ _ id st H4 Hd) as Hb.
  eapply inv_upto_frame; [..|apply (inv_insert ∅ _ id hap Hb Hn Hid Hk)]; cbn; try done. by rewrite Hr.
Qed.

End Operations.
