(* ===== verification/InfoManagerProps.v ===== *)
(** * What the token information manager guarantees

    The index of tokens stays consistent whatever operations run; what creating and removing
    a token does to every component; user policies hold from creation on; and the two
    lookups from the database that go wrong. *)

From stdpp Require Import base gmap list strings.
From S2P Require Import Prelude AccessTokenTypes TokenId Database PermissionMap Validator DataTranslator PermissionDataBrief PermissionDataBriefTheory IdManager IdManagerProps UserPolicy ConstraintCheck HapTokenInfo Kernel InfoManager InfoManagerOps InfoManagerTheory.
#[local] Open Scope string_scope.
#[local] Open Scope list_scope.
#[local] Open Scope Z_scope.
#[local] Open Scope cxx_scope.

Section Props.
Context {PT : PermTable} `{!PermTableLaws PT} {BC : BuildConfig} {S K : Type} `{!AtmDb S} `{!TokenDevice K}.
Implicit Types (w : World S K) (id : Z) (info : HapTokenInfoInner).

(** ** The operations as steps. *)
Inductive world_step (kernelSpm : bool) : World S K -> World S K -> Prop :=
  | step_InitHaps w : world_step kernelSpm w (InitHapTokenInfos w).2
  | step_InitNative w n : world_step kernelSpm w (InitNativeTokenInfos_item kernelSpm w n)
  | step_RemoveNative w id : world_step kernelSpm w (RemoveNativeTokenInfo id w).2
  | step_Create w rands par policy undef :
      world_step kernelSpm w (CreateHapTokenInfo rands par policy undef w).2
  | step_Remove w id reserved : world_step kernelSpm w (RemoveHapTokenInfo id reserved w).2
  | step_UpdateHap w id attr upd l policy undef : is_Some (hapTokenInfoMap_ w !! id) ->
      world_step kernelSpm w (UpdateHapToken id attr upd l policy undef w).2
  | step_ClearUser w id : is_Some (hapTokenInfoMap_ w !! id) ->
      world_step kernelSpm w (ClearUserGrantedPermission id w).2
  | step_DialogCap w id enable : world_step kernelSpm w (SetPermDialogCap id enable w).2
  | step_Load w id r w' : GetHapTokenInfoInner id w = (r, w') ->
      (forall info, r = Some info -> hapTokenInfoMap_ w !! id = None ->
         hapTokenIdMap_ w !! GetHapUniqueStr_info info = None /\ hap_id (w_ids w') id) ->
      world_step kernelSpm w w'.

(** Before [InitHapTokenInfos]. *)
Definition starting w : Prop :=
  hapTokenInfoMap_ w = ∅ /\ hapTokenIdMap_ w = ∅ /\ requestedPermData_ (w_brief w) = ∅.

Lemma starting_inv w : starting w -> world_inv w.
Proof. intros (E1 & E2 & E3). split; rewrite ?E1, ?E2, ?E3; intros *; by rewrite lookup_empty || (rewrite lookup_empty; intros []). Qed.

Lemma world_step_inv kspm w w' : world_step kspm w w' -> world_inv w -> world_inv w'.
Proof.
  intros Hs H. destruct Hs.
  - by apply InitHapTokenInfos_inv.
  - by apply InitNative_inv.
  - by apply RemoveNative_inv.
  - by apply CreateHapTokenInfo_inv.
  - by apply RemoveHapTokenInfo_inv.
  - by apply UpdateHapToken_inv.
  - by apply ClearUserGranted_inv.
  - by apply SetPermDialogCap_inv.
  - by eapply Load_inv.
Qed.

Lemma world_steps_inv kspm w w' : rtc (world_step kspm) w w' -> world_inv w -> world_inv w'.
Proof. induction 1 as [|w1 w2 w3 Hs _ IH]; [done|]. intros H. apply IH. by eapply world_step_inv. Qed.

Lemma GetHapTokenID_local w id info :
  world_inv w -> hapTokenInfoMap_ w !! id = Some info -> isRemote_ info = false ->
  GetHapTokenID (hti_userID (tokenInfoBasic_ info)) (hti_bundleName (tokenInfoBasic_ info))
    (hti_instIndex (tokenInfoBasic_ info)) w = (id, hti_tokenAttr (tokenInfoBasic_ info)).
Proof.
  intros H Hi Hr. pose proof (wi_local ∅ w H _ _ Hi Hr) as Hl. unfold GetHapUniqueStr_info in Hl.
  unfold GetHapTokenID. by rewrite Hl, Hi, (wi_key ∅ w H _ _ Hi).
Qed.

(** C2: from start-up on, whatever tokens are restored, loaded, created, updated, reset and
    removed (with database and device failing at will), the index of tokens is consistent:
    a token of the map carries its key as id and is an active application id; a local token
    is the one its user, bundle and clone index lead to, and they lead to no other; and a
    check of the store never grants a permission to a token that is not in the map.  (A
    token loaded on demand must have a valid id and a free name: the next claim.) *)
Theorem token_index_consistent kspm w0 w :
  starting w0 -> rtc (world_step kspm) w0 w ->
  (forall id info, hapTokenInfoMap_ w !! id = Some info ->
     hti_tokenID (tokenInfoBasic_ info) = id /\ GetTokenIdType id (w_ids w) = TOKEN_HAP /\
     (isRemote_ info = false ->
        GetHapTokenID (hti_userID (tokenInfoBasic_ info)) (hti_bundleName (tokenInfoBasic_ info))
          (hti_instIndex (tokenInfoBasic_ info)) w = (id, hti_tokenAttr (tokenInfoBasic_ info)))) /\
  (forall u b i id attr, GetHapTokenID u b i w = (id, attr) -> id <> 0 ->
     exists info, hapTokenInfoMap_ w !! id = Some info /\ isRemote_ info = false /\
       hti_userID (tokenInfoBasic_ info) = u /\ hti_bundleName (tokenInfoBasic_ info) = b /\
       hti_instIndex (tokenInfoBasic_ info) = i /\ hti_tokenAttr (tokenInfoBasic_ info) = attr) /\
  (forall id c, VerifyPermissionStatus_code id c (w_brief w) = PERMISSION_GRANTED ->
     is_Some (hapTokenInfoMap_ w !! id)).
Proof.
  intros H0%starting_inv Hs. pose proof (world_steps_inv kspm _ _ Hs H0) as H. split_and!.
  - intros id info Hi. split_and!; [by eapply wi_key|by eapply hap_id_type, wi_active|].
    by apply GetHapTokenID_local.
  - intros u b i id attr. unfold GetHapTokenID. destruct (hapTokenIdMap_ w !! _) as [id'|] eqn:Hn; [|by intros [= <- _]].
    destruct (wi_name ∅ w H _ _ Hn) as (info & Hi & Hr & E). rewrite Hi, (wi_key ∅ w H _ _ Hi). intros [= <- <-] _.
    exists info. apply GetHapUniqueStr_inj in E as (-> & -> & ->). done.
  - intros id c Hv. unfold VerifyPermissionStatus_code in Hv.
    destruct (requestedPermData_ (w_brief w) !! id) as [l|] eqn:El; [|done].
    destruct (wi_data ∅ w H id) as [|]; [by rewrite El|set_solver|done].
Qed.

(** Two threads loading the same token.  The lookup reads the map, finds nothing and
    goes to the database; when another thread has put the token into the map in the
    meantime, the copy just restored is dropped, and its destructor deletes the permission
    data of the id, which are those of the token in the map: the token stays, and the store
    denies it every permission. *)
Theorem concurrent_load_drops_data id w other hap w' :
  hapTokenInfoMap_ w !! id = Some other -> GetHapTokenInfoInnerFromDb id w = (Some hap, w') ->
  hap = other /\ hapTokenInfoMap_ w' !! id = Some other /\ requestedPermData_ (w_brief w') !! id = None /\
  forall c, VerifyPermissionStatus_code id c (w_brief w') = PERMISSION_DENIED.
Proof.
  intros Hi. unfold GetHapTokenInfoInnerFromDb. cbv zeta. destruct (db_Find _ _ _) as [[e res] db].
  destruct res as [|v res]; [done|]. split_if; [done|]. unfold AddReservedHapInfoFromDbValues. cbv zeta. split_if; [done|].
  destruct (db_Find _ _ _) as [[e2 ps] db2]. split_if; [done|].
  destruct (db_Find _ _ _) as [[e3 es] db3]. split_if; [done|].
  destruct (RestoreHapTokenInfo _ _ _ _ _ _) as [[e4 hap'] st] eqn:Er. apply RestoreHap_keeps in Er as (Hk & _ & _).
  split_if; [done|]. cbn [hapTokenInfoMap_ set_brief set_db]. rewrite Hi. intros [= <- <-]. cbn.
  unfold destroy_HapTokenInfoInner. rewrite Hk.
  assert (requestedPermData_ (DeleteBriefPermDataByTokenId id st).2 !! id = None) as Hn
    by (by rewrite delete_data_lookup, decide_True).
  split_and!; try done. intros c. unfold VerifyPermissionStatus_code. by rewrite Hn.
Qed.

Context `{!TokenDeviceLaws K} `{!TokenDeviceHealth K}.

(** The device holds exactly the granted codes of the token. *)
Definition kernel_synced w id : Prop :=
  forall c, 0 <= c -> dev_granted (w_kernel w) id c = bool_decide (c ∈ GetGrantedPermCodeList id (w_brief w)).

Lemma granted_codes_range st t : brief_wf st -> Forall (fun c => 0 <= c < MAX_PERM_SIZE) (GetGrantedPermCodeList t st).
Proof.
  intros Hw. unfold GetGrantedPermCodeList. destruct (requestedPermData_ st !! t) as [l|] eqn:E; [|constructor].
  destruct (brief_wf_lookup _ _ _ Hw E) as [_ [_ Hl]]. destruct Hw as (_ & [_ Hsc] & _).
  rewrite Forall_forall in Hl; rewrite Forall_forall in Hsc.
  apply Forall_app. split; [|split_if; [constructor|]]; apply Forall_forall.
  - intros c (d & -> & [_ Hd]%list_elem_of_filter)%list_elem_of_fmap. apply (Hl d Hd).
  - intros c (x & -> & [_ Hx]%list_elem_of_filter)%list_elem_of_fmap. apply (Hsc x Hx).
Qed.

Lemma granted_codes_nonneg st t : brief_wf st -> Forall (fun c => 0 <= c) (GetGrantedPermCodeList t st).
Proof. intros H. eapply Forall_impl; [by apply granted_codes_range|]. intros c [? _]. done. Qed.

Lemma synced_of_push w id k :
  brief_wf (w_brief w) -> AddHapPermToKernel k id (GetGrantedPermCodeList id (w_brief w)) = (RET_SUCCESS, w_kernel w) ->
  kernel_synced w id.
Proof.
  intros Hw E. apply AddHapPermToKernel_law in E; [|by apply granted_codes_nonneg]. intros c Hc. rewrite E by done.
  by rewrite !Z.eqb_refl.
Qed.

(** What the kernel cache answers for a defined permission. *)
Lemma kernel_answer w id p r w' :
  kernel_synced w id -> GetPermissionFromKernelCache id p w = (r, w') -> w_brief w' = w_brief w /\
  (r = Some PERMISSION_GRANTED -> exists c, TransferPermissionToOpcode p = Some c /\ c ∈ GetGrantedPermCodeList id (w_brief w)) /\
  (forall c, TransferPermissionToOpcode p = Some c -> IsDefinedPermissionInner p = true ->
     c ∈ GetGrantedPermCodeList id (w_brief w) -> r = None \/ r = Some PERMISSION_GRANTED).
Proof.
  intros Hs. unfold GetPermissionFromKernelCache. destruct (IsDefinedPermissionInner p) eqn:D; cbn [negb].
  2: { intros [= <- <-]. split_and!; [done..|]. by intros. }
  assert (exists c, TransferPermissionToOpcode p = Some c) as [c T].
  { unfold IsDefinedPermissionInner, with_def in D. destruct (TransferPermissionToOpcode p); [eauto|done]. }
  rewrite T. cbn [default]. change (Datatypes.id c) with c. pose proof (opcode_u16 _ _ T) as Hc.
  destruct (GetPermissionFromKernel _ _ _) as [[e g] k] eqn:G.
  apply GetPermFromKernel_law in G as [_ Hg]; [|unfold is_u32; lia].
  destruct (Z.eqb_spec e RET_SUCCESS) as [->|]; cbn [negb]; intros [= <- <-]; [|split_and!; try done; auto].
  rewrite Hg by done. pose proof (Hs c ltac:(lia)) as ->. split_and!; try done.
  - intros Hr. exists c. split; [done|]. by case_bool_decide.
  - intros c' [= <-] _ Hin. rewrite bool_decide_true by done. auto.
Qed.



(** C35: checking a permission of an application token, as long as the device holds the
    granted codes of the token (which creation leaves behind), also when the device fails at the time of the check.  The answer granted
    is given only for a defined permission among the granted codes of the token; and it is
    given, when the store grants the permission, to every caller the monitor is not
    punishing. *)
Theorem VerifyAccessToken_sound_complete kspm caller punish id p w :
  brief_wf (w_brief w) -> GetTokenIdType id (w_ids w) = TOKEN_HAP -> kernel_synced w id ->
  ((VerifyAccessToken kspm caller punish id p w).1 = PERMISSION_GRANTED ->
     exists c, TransferPermissionToOpcode p = Some c /\ c ∈ GetGrantedPermCodeList id (w_brief w)) /\
  (VerifyPermissionStatus id p (w_brief w) = PERMISSION_GRANTED -> IsDefinedPermissionInner p = true ->
   IsPermissionNameValid p = true -> id <> INVALID_TOKENID ->
   IsCallerNormalApp caller && negb (id =? u32 (caller .& TOKEN_ID_LOWMASK)) && punish = false ->
   (VerifyAccessToken kspm caller punish id p w).1 = PERMISSION_GRANTED).
Proof.
  intros Hw Ht Hs.
  assert (GetTokenIdTypeEnum id = TOKEN_HAP) as Hty.
  { unfold GetTokenIdType in Ht. by destruct (bool_decide _). }
  assert (forall c, VerifyPermissionStatus_code id c (w_brief w) = PERMISSION_GRANTED ->
            c ∈ GetGrantedPermCodeList id (w_brief w)) as Hcode.
  { intros c Hv. apply granted_codes; [done| |done|by left]. unfold VerifyPermissionStatus_code in Hv.
    by destruct (requestedPermData_ (w_brief w) !! id). }
  destruct (GetPermissionFromKernelCache id p w) as [r w'] eqn:G. pose proof (kernel_answer _ _ _ _ _ Hs G) as (Eb & Hgr & Hdef).
  unfold VerifyAccessToken. rewrite Ht, G. change (TOKEN_HAP =? TOKEN_INVALID) with false.
  change (TOKEN_HAP =? TOKEN_NATIVE) with false. change (TOKEN_HAP =? TOKEN_SHELL) with false. cbn [orb].
  rewrite Z.eqb_refl, andb_false_r. cbv zeta. split.
  - repeat (split_if; [done|]). destruct r as [r|]; cbn [fst]; [intros ->; auto|].
    rewrite Eb. unfold HapVerifyPermissionStatus, VerifyPermissionStatus. destruct (TransferPermissionToOpcode p) as [c|]; [|done].
    intros Hv. exists c. auto.
  - intros Hv Hd Hn Hid Hpun. rewrite Hn, Hpun. apply Z.eqb_neq in Hid as ->. cbn [negb].
    unfold VerifyPermissionStatus in Hv. destruct (TransferPermissionToOpcode p) as [c|] eqn:T; [|done].
    destruct (Hdef c eq_refl Hd (Hcode c Hv)) as [->| ->]; cbn [fst]; [|done]. rewrite Eb.
    unfold HapVerifyPermissionStatus, VerifyPermissionStatus. by rewrite T.
Qed.

(** ** Creation. *)
(** The permissions of the table have a place in the bitmap of the device. *)
Context (table_fits : MAX_PERM_SIZE <= MAX_PERM_BIT_MAP_SIZE * UINT32_T_BITS).

Lemma pushed_synced k0 w id :
  brief_wf (w_brief w) -> dev_ok k0 -> pushed k0 id w -> kernel_synced w id /\ dev_ok (w_kernel w).
Proof.
  intros Hw Hk0 (k & Hk & E).
  assert (dev_ok k) as Hok.
  { destruct Hk as [->|(o & ->)]; [done|]. destruct (RemovePermFromKernel k0 o) as [e1 k1] eqn:R.
    by apply RemovePermFromKernel_ok in R as [_ ?]. }
  destruct (AddHapPermToKernel k id _) as [e k'] eqn:A. cbn in E. pose proof A as [-> Hok']%AddHapPermToKernel_ok; [|done|].
  - split; [|by rewrite E]. apply (synced_of_push w id k); [done|]. by rewrite E.
  - eapply Forall_impl; [by apply granted_codes_range|]. cbv beta. intros c. lia.
Qed.

Lemma new_token_fields id par policy st info st' :
  new_HapTokenInfoInner id par policy st = (info, st') ->
  tokenInfoBasic_ info = mkHapTokenInfo DEFAULT_TOKEN_VERSION (hip_userID par) (hip_bundleName par)
    (GetApiVersion (hip_apiVersion par)) (hip_instIndex par) (hip_dlpType par) id (AllocAccessTokenIDEx par 0) INVALID_UID /\
  isRemote_ info = false /\
  st' = AddPermToBriefPermission id (hp_permStateList policy) (hp_aclExtendedMap policy) true st.
Proof.
  unfold new_HapTokenInfoInner. cbv zeta. intros [= <- <-]. split_and!; try done. cbn [tokenInfoBasic_]. f_equal.
  unfold AllocAccessTokenIDEx, provision_attr.
  destruct (String.eqb_spec (hip_appProvisionType par) "release") as [->|]; [|done].
  by destruct (hip_isSystemApp par), (hip_isAtomicService par).
Qed.

Lemma AddPerm_entry t states acl st c :
  is_u32 t -> entry (AddPermToBriefPermission t states acl true st) t c =
    find_if (has_code c) (omap brief_of_state (FilterInvalidPermissionState (GetTokenIdTypeEnum t) true states)).
Proof.
  intros Ht. unfold AddPermToBriefPermission. cbv zeta.
  destruct (GetPermissionBriefDataList_spec t (FilterInvalidPermissionState (GetTokenIdTypeEnum t) true states) acl st Ht)
    as (e & ->).
  rewrite AddBriefPermDataByTokenId_eq, entry_insert. by rewrite decide_True.
Qed.

Lemma AddPerm_secComp t states acl chk st :
  is_u32 t -> secCompList_ (AddPermToBriefPermission t states acl chk st) = secCompList_ st.
Proof.
  intros Ht. unfold AddPermToBriefPermission. cbv zeta. by edestruct (GetPermissionBriefDataList_spec t) as (e & ->).
Qed.

Lemma Delete_secComp t st x : x ∈ secCompList_ (DeleteBriefPermDataByTokenId t st).2 -> x ∈ secCompList_ st.
Proof.
  unfold DeleteBriefPermDataByTokenId. destruct (requestedPermData_ st !! t); [|done]. by intros [_ ?]%list_elem_of_filter.
Qed.

Lemma secComp_absent st st' t c :
  brief_wf st -> requestedPermData_ st !! t = None -> (forall x, x ∈ secCompList_ st' -> x ∈ secCompList_ st) ->
  secComp_granted st' t c = false.
Proof.
  intros (_ & [_ Hsc] & _) Hn Hsub. unfold secComp_granted. destruct (find_if _ _) as [x|] eqn:F; [|done].
  apply find_if_Some in F as [Hx%Hsub Hxc]. unfold is_secComp in Hxc. breflect.
  rewrite Forall_forall in Hsc. destruct (Hsc x Hx) as [Hs _]. subst. rewrite Hn in Hs. by destruct Hs.
Qed.

Lemma created_plain id par policy w :
  plain_names (hp_permStateList policy) -> plain_names (hp_permStateList (created_policy id par policy w)).
Proof.
  intros Hp. unfold created_policy, plain_names in *. cbn [with_permStateList hp_permStateList].
  assert (forall l, Forall (fun s => c_str (ps_permissionName s) = ps_permissionName s) l ->
    Forall (fun s => c_str (ps_permissionName s) = ps_permissionName s)
      (UpdatePermissionStatusListForUserPolicy id (hip_userID par) (w_policies w) l)) as Hu.
  { intros l Hl. unfold UpdatePermissionStatusListForUserPolicy. split_if; [done|]. apply Forall_fmap.
    eapply Forall_impl; [exact Hl|]. intros s Hs. unfold compose.
    destruct (TransferPermissionToOpcode (ps_permissionName s)) as [c|]; [|done].
    by destruct (IsPermissionRestricted id (hip_userID par) c (w_policies w)). }
  apply Hu. split_if; [|done]. unfold UpdatePermStateWithDlpInfo. apply Forall_fmap. eapply Forall_impl; [exact Hp|].
  intros s Hs. unfold compose. split_if; [done|]. by split_if.
Qed.

(** The store of a created token. *)
Lemma created_store rands par policy undef w id attr w' :
  world_inv w -> brief_wf (w_brief w) -> plain_names (hp_permStateList policy) -> is_u32 (hip_tokenID par) ->
  CreateHapTokenInfo rands par policy undef w = (RET_SUCCESS, (id, attr), w') ->
  is_u32 id /\ brief_wf (w_brief w') /\ requestedPermData_ (w_brief w) !! id = None /\
  GetTokenIdTypeEnum id = TOKEN_HAP /\ is_Some (requestedPermData_ (w_brief w') !! id) /\ pushed (w_kernel w) id w' /\
  forall c, VerifyPermissionStatus_code id c (w_brief w') = VerifyPermissionStatus_code id c
    (AddPermToBriefPermission id (hp_permStateList (created_policy id par policy w)) (hp_aclExtendedMap policy) true (w_brief w)) /\
    secComp_granted (w_brief w') id c = false.
Proof.
  intros H Hw Hp Hu E.
  apply CreateHapTokenInfo_cases in E as [(Hr & _)|(_ & Hid & ids' & info & st & Hf & _ & Hn & Ha & Hpush)]; [done| |done].
  cbn [fst] in *. specialize (Hid Hu). destruct (building_inv _ _ _ _ _ _ _ H Hf Hn) as (_ & _ & Hrem & Hnone).
  destruct (new_token_fields _ _ _ _ _ _ Hn) as (_ & _ & Est).
  change (hp_aclExtendedMap (created_policy id par policy w)) with (hp_aclExtendedMap policy) in Est.
  assert (brief_wf st) as Hst. { rewrite Est. eapply brief_step_wf; [|exact Hw]. constructor; [done|by apply created_plain|done]. }
  rewrite (ad_brief _ _ _ _ Ha). cbn [building w_brief set_brief].
  assert (forall o, name_owner info (building id info st ids' w) = Some o -> o <> id) as Hold.
  { unfold name_owner. rewrite Hrem. cbn. intros o Ho ->. destruct (wi_name ∅ w H _ _ Ho) as (x & Hx & _).
    by rewrite (fresh_not_in_map ∅ w ids' id H Hf) in Hx. }
  assert (is_Some (requestedPermData_ st !! id)) as Hsome.
  { rewrite Est. unfold AddPermToBriefPermission. cbv zeta.
    edestruct (GetPermissionBriefDataList_spec id) as (e & ->); [done|]. cbn. by rewrite lookup_insert_eq. }
  set (b' := match name_owner _ _ with Some o => _ | None => st end).
  assert (brief_wf b' /\ is_Some (requestedPermData_ b' !! id) /\
    (forall c, VerifyPermissionStatus_code id c b' = VerifyPermissionStatus_code id c st) /\
    (forall x, x ∈ secCompList_ b' -> x ∈ secCompList_ st)) as (Hb & Hs & Hv & Hsec).
  { subst b'. destruct (name_owner _ _) as [o|] eqn:Ho; [|done]. specialize (Hold o eq_refl). split_and!.
    - by apply DeleteBriefPermDataByTokenId_wf.
    - by rewrite delete_data_lookup, decide_False.
    - intros c. by apply delete_other_checks.
    - apply Delete_secComp. }
  split_and!; try done; [apply Hf|]. intros c. rewrite Hv, Est. split; [done|].
  apply (secComp_absent (w_brief w)); [done..|]. intros x Hx%Hsec. rewrite Est in Hx. by rewrite AddPerm_secComp in Hx.
Qed.

(** C8: creating an application token.  A failure returns no id and leaves tokens, names,
    permission data and active ids as they were.  A success returns an id that was free,
    with the attributes of the request: looking the application up by user, bundle and
    clone index gives exactly this answer; an older token of the same name is gone with its
    data; every other token is as before; and the granted codes of the new token are the
    bits a healthy device holds for it. *)
Theorem CreateHapTokenInfo_spec rands par policy undef w ret id attr w' :
  world_inv w -> brief_wf (w_brief w) -> plain_names (hp_permStateList policy) -> is_u32 (hip_tokenID par) ->
  CreateHapTokenInfo rands par policy undef w = (ret, (id, attr), w') ->
  (ret <> RET_SUCCESS /\ id = 0 /\ attr = 0 /\ same_tokens w w') \/
  (ret = RET_SUCCESS /\ GetTokenIdStatusLocked id (w_ids w) = None /\ GetTokenIdType id (w_ids w') = TOKEN_HAP /\
   GetHapTokenID (hip_userID par) (hip_bundleName par) (hip_instIndex par) w' = (id, attr) /\
   let old := hapTokenIdMap_ w !! GetHapUniqueStr (hip_userID par) (hip_bundleName par) (hip_instIndex par) in
   (forall o, old = Some o -> o <> id /\ hapTokenInfoMap_ w' !! o = None /\ requestedPermData_ (w_brief w') !! o = None) /\
   (forall t, t <> id -> old <> Some t -> hapTokenInfoMap_ w' !! t = hapTokenInfoMap_ w !! t /\
      requestedPermData_ (w_brief w') !! t = requestedPermData_ (w_brief w) !! t) /\
   brief_wf (w_brief w') /\ (dev_ok (w_kernel w) -> kernel_synced w' id /\ dev_ok (w_kernel w'))).
Proof.
  intros H Hw Hpl Hu E. pose proof (CreateHapTokenInfo_inv rands par policy undef w H) as H'. rewrite E in H'. cbn [snd] in H'.
  pose proof E as [(Hr & [= -> ->] & Hs)|(-> & _ & ids' & info & st & Hf & Ea & Hn & Ha & Hp)]%CreateHapTokenInfo_cases;
    [by left| |done].
  destruct (created_store _ _ _ _ _ _ _ _ H Hw Hpl Hu E) as (_ & Hwf & _).
  right. cbn in *. subst attr. destruct (new_token_fields _ _ _ _ _ _ Hn) as (Eb & Er & Est).
  destruct Ha as [A1 A2 A3 A4 _ _ _]. unfold name_owner, building in *. rewrite Er in *. cbn in A1, A2, A3, A4.
  assert (GetHapUniqueStr_info info = GetHapUniqueStr (hip_userID par) (hip_bundleName par) (hip_instIndex par)) as Ekey
    by (unfold GetHapUniqueStr_info; by rewrite Eb).
  rewrite Ekey in *. set (old := hapTokenIdMap_ w !! _) in *.
  assert (hapTokenInfoMap_ w' !! id = Some info) as Hi by (rewrite A1; by destruct old; rewrite lookup_insert_eq).
  assert (forall o, old = Some o -> o <> id) as Hold.
  { intros o Ho ->. destruct (wi_name ∅ w H _ _ Ho) as (x & Hx & _).
    by rewrite (fresh_not_in_map ∅ w ids' id H Hf) in Hx. }
  split_and!; try done; [apply Hf|by eapply hap_id_type, wi_active| | | |intros Hok; by apply (pushed_synced (w_kernel w))].
  - pose proof (GetHapTokenID_local w' id info H' Hi Er) as Hg. by rewrite Eb in Hg.
  - intros o Ho. specialize (Hold o Ho). rewrite A1, A3, Ho, delete_data_lookup, decide_True by done.
    split_and!; [done| |done]. by rewrite lookup_insert_ne, lookup_delete_eq by done.
  - intros t Ht Hot. rewrite A1, A3, lookup_insert_ne by done. subst st. destruct old as [o|].
    + rewrite lookup_delete_ne, delete_data_lookup, decide_False by naive_solver. split; [done|]. by rewrite AddPerm_within.
    + split; [done|]. by rewrite AddPerm_within.
Qed.

(** ** User policies at creation. *)
Lemma restricted_flagged id user c records l s :
  SUPPORT_MANAGE_USER_POLICY = true -> IsPermissionRestricted id user c records = true ->
  s ∈ UpdatePermissionStatusListForUserPolicy id user records l ->
  TransferPermissionToOpcode (ps_permissionName s) = Some c -> Z.testbit (u32 (ps_grantFlag s)) 9 = true.
Proof.
  intros Hc Hr Hs Hn. unfold UpdatePermissionStatusListForUserPolicy in Hs. rewrite Hc in Hs.
  apply list_elem_of_fmap in Hs as (s0 & -> & _). revert Hn.
  destruct (TransferPermissionToOpcode (ps_permissionName s0)) as [c0|] eqn:T; [|congruence]. intros Hn.
  assert (c0 = c) as ->. { destruct (IsPermissionRestricted id user c0 records); cbn [set_ps_flag ps_permissionName] in Hn; congruence. }
  rewrite Hr. cbn [set_ps_flag ps_grantFlag]. rewrite u32_testbit, Z.lor_spec by lia. cbn. apply orb_true_r.
Qed.

Lemma restricted_entry_denied id user c records l acl st :
  SUPPORT_MANAGE_USER_POLICY = true -> IsPermissionRestricted id user c records = true -> is_u32 id ->
  brief_wf st -> requestedPermData_ st !! id = None ->
  VerifyPermissionStatus_code id c
    (AddPermToBriefPermission id (UpdatePermissionStatusListForUserPolicy id user records l) acl true st) = PERMISSION_DENIED.
Proof.
  intros Hc Hr Hid Hw Hnone. rewrite Verify_entry, AddPerm_entry by done.
  destruct (find_if _ _) as [d|] eqn:F.
  - apply find_if_Some in F as [(s & Hs & Hd)%list_elem_of_omap Hcode]. unfold has_code in Hcode. breflect.
    pose proof (brief_of_state_name _ _ Hd) as Hname. rewrite Hcode in Hname.
    assert (s ∈ UpdatePermissionStatusListForUserPolicy id user records l) as Hin.
    { pose proof (FilterInvalidPermissionState_loop_spec (GetTokenIdTypeEnum id) true
        (UpdatePermissionStatusListForUserPolicy id user records l) ∅) as (Hsub & _).
      by eapply elem_of_sublist. }
    pose proof (restricted_flagged _ _ _ _ _ _ Hc Hr Hin Hname) as Hbit.
    rewrite effective_bits. unfold brief_of_state in Hd. split_if_in Hd; [done|].
    destruct (TransferPermissionToOpcode _); [|done]. injection Hd as <-. cbn [bpd_flag]. by rewrite Hbit.
  - rewrite (secComp_absent st), andb_false_r; [done..|]. intros x. by rewrite AddPerm_secComp.
Qed.

(** C10: a user policy holds for a token from its creation on: whatever state the package
    requests for a permission the policies restrict for its user, the store denies it to
    the new token, its code is not among the codes sent to the device, and every check is
    denied (the device being healthy). *)
Theorem user_policy_from_creation kspm rands par policy undef w id attr w' c p :
  world_inv w -> brief_wf (w_brief w) -> plain_names (hp_permStateList policy) -> is_u32 (hip_tokenID par) ->
  SUPPORT_MANAGE_USER_POLICY = true -> TransferPermissionToOpcode p = Some c ->
  CreateHapTokenInfo rands par policy undef w = (RET_SUCCESS, (id, attr), w') ->
  IsPermissionRestricted id (hip_userID par) c (w_policies w) = true ->
  VerifyPermissionStatus id p (w_brief w') = PERMISSION_DENIED /\
  c ∉ GetGrantedPermCodeList id (w_brief w') /\
  (dev_ok (w_kernel w) -> forall caller punish, (VerifyAccessToken kspm caller punish id p w').1 = PERMISSION_DENIED).
Proof.
  intros H Hw Hpl Hu Hc T E Hr. pose proof (created_store _ _ _ _ _ _ _ _ H Hw Hpl Hu E) as
    (Hid & Hw' & Hnone & Hty & Hsome & Hpush & Hv).
  assert (VerifyPermissionStatus_code id c (w_brief w') = PERMISSION_DENIED) as Hden.
  { destruct (Hv c) as [-> _]. by apply restricted_entry_denied. }
  assert (c ∉ GetGrantedPermCodeList id (w_brief w')) as Hni.
  { rewrite granted_codes by done. rewrite Hden, (proj2 (Hv c)). by intros [?|?]. }
  split_and!; [unfold VerifyPermissionStatus; by rewrite T|done|].
  intros Hok caller punish. destruct (pushed_synced _ w' id Hw' Hok Hpush) as [Hs _].
  unfold VerifyAccessToken. cbv zeta. repeat (split_if; [done|]).
  destruct (GetPermissionFromKernelCache id p w') as [r w2] eqn:G.
  pose proof (kernel_answer _ _ _ _ _ Hs G) as (Eb & Hgr & _). destruct r as [r|]; cbn [fst].
  - destruct (decide (r = PERMISSION_GRANTED)) as [->|Hne].
    + destruct (Hgr eq_refl) as (c' & T' & Hin). congruence.
    + revert G. unfold GetPermissionFromKernelCache. split_if; [by intros [= <- _]|]. cbv zeta.
      destruct (GetPermissionFromKernel _ _ _) as [[e g] k]. split_if; [done|]. intros [= <- _]. by destruct g.
  - assert (GetTokenIdType id (w_ids w') = TOKEN_HAP) as Htype.
    { pose proof (CreateHapTokenInfo_inv rands par policy undef w H) as H'. rewrite E in H'.
      destruct (wi_data ∅ w' H' id Hsome) as [|[x Hx]]; [set_solver|]. by eapply hap_id_type, wi_active. }
    rewrite Htype. cbn. unfold HapVerifyPermissionStatus, VerifyPermissionStatus. by rewrite T, Eb.
Qed.

End Props.

(** ** A concrete state. *)
Section Sample.
#[local] Existing Instance sample_table.
#[local] Existing Instance sample_table_laws.
#[local] Existing Instance full_config.

(** The camera is restricted for user 100. *)
Definition start_world : World MemRdb MemDevice :=
  mkWorld ∅ ∅ ∅ ∅ empty_brief initial_IdMgr {[0 := mkUserPolicyRecord [100] 5 ∅ false]} ∅ (mkMemRdb ∅ []) (mkMemDevice ∅ [])
    (fun _ => 1) [].
Definition app_params (user : Z) : HapInfoParams :=
  mkHapInfoParams user "com.example.app" 0 DLP_COMMON "id" 12 false false 0 false "release" false.
Definition app_policy : HapPolicy :=
  mkHapPolicy APL_NORMAL "domain" []
    [mkPermissionStatus 0 CAMERA "" PERMISSION_GRANTED PERMISSION_USER_SET 0;
     mkPermissionStatus 0 INTERNET "" PERMISSION_GRANTED PERMISSION_SYSTEM_FIXED 0] [] [] 0 ∅ false.
Definition app_token : Z := 0x20000005.

Definition created : Z * (Z * Z) * World MemRdb MemDevice :=
  CreateHapTokenInfo (fun _ => 5) (app_params 100) app_policy [] start_world.
(** The same token when the database refuses the next transaction. *)
Definition db_failing : World MemRdb MemDevice :=
  set_db (mkMemRdb (mem_tables (w_db created.2)) [1; 1]) created.2.
Definition after_removal : Z * World MemRdb MemDevice := RemoveHapTokenInfo app_token false db_failing.

(** Removal ignores the result of the database.  When the transaction that deletes the
    rows fails, the token is removed from memory and success is reported; the next lookup of
    the id loads the token again from the rows left behind, and its permissions are granted
    once more. *)
Theorem removal_undone_by_lookup :
  after_removal.1 = RET_SUCCESS /\ hapTokenInfoMap_ after_removal.2 !! app_token = None /\
  (VerifyAccessToken false 0 false app_token INTERNET after_removal.2).1 = PERMISSION_DENIED /\
  let w' := (GetHapTokenInfoInner app_token after_removal.2).2 in
  IsHapTokenIdExist app_token w' = true /\
  (VerifyAccessToken false 0 false app_token INTERNET w').1 = PERMISSION_GRANTED.
Proof. cbv zeta. split_and!; vm_compute; reflexivity. Qed.

Lemma sample_fits : MAX_PERM_SIZE <= MAX_PERM_BIT_MAP_SIZE * UINT32_T_BITS.
Proof. vm_compute. discriminate. Qed.

Lemma start_world_ok : starting start_world.
Proof. done. Qed.

Lemma created_eq : CreateHapTokenInfo (fun _ => 5) (app_params 100) app_policy [] start_world =
  (RET_SUCCESS, (app_token, 0), created.2).
Proof.
  fold created. destruct created as [x w] eqn:E. cbn [snd]. f_equal. change x with (x, w).1. rewrite <- E.
  vm_compute. reflexivity.
Qed.


Lemma sample_plain_names : plain_names (hp_permStateList app_policy).
Proof. repeat constructor. Qed.

Lemma sample_token_u32 : is_u32 (hip_tokenID (app_params 100)).
Proof. unfold is_u32. cbn. lia. Qed.

Lemma sample_brief_wf : brief_wf (w_brief created.2).
Proof.
  eapply created_store; [apply starting_inv, start_world_ok|apply empty_brief_wf|apply sample_plain_names|
    apply sample_token_u32|apply created_eq].
Qed.

Lemma token_index_consistent_witness :
  GetHapTokenID 100 "com.example.app" 0 created.2 = (app_token, 0) /\
  forall c, VerifyPermissionStatus_code (app_token + 1) c (w_brief created.2) <> PERMISSION_GRANTED.
Proof.
  split; [vm_compute; reflexivity|]. intros c Hc.
  destruct (token_index_consistent (S := MemRdb) (K := MemDevice) false start_world created.2 start_world_ok) as (_ & _ & H).
  - apply rtc_once. apply (step_Create false start_world (fun _ => 5) (app_params 100) app_policy []).
  - destruct (H _ _ Hc) as [x Hx]. vm_compute in Hx. discriminate Hx.
Defined.

Lemma concurrent_load_drops_data_witness :
  VerifyPermissionStatus_code app_token 4 (w_brief created.2) = PERMISSION_GRANTED /\
  VerifyPermissionStatus_code app_token 4 (w_brief (GetHapTokenInfoInnerFromDb app_token created.2).2) = PERMISSION_DENIED.
Proof.
  split; [vm_compute; reflexivity|].
  destruct (hapTokenInfoMap_ created.2 !! app_token) as [other|] eqn:Ho; [|vm_compute in Ho; discriminate Ho].
  destruct (GetHapTokenInfoInnerFromDb app_token created.2) as [[hap|] w'] eqn:E.
  - apply (concurrent_load_drops_data app_token created.2 other hap w' Ho E).
  - exfalso. apply (f_equal (fun x => bool_decide (is_Some x.1))) in E. vm_compute in E. discriminate E.
Defined.


Lemma CreateHapTokenInfo_spec_witness :
  GetHapTokenID 100 "com.example.app" 0 created.2 = (app_token, 0) /\ brief_wf (w_brief created.2).
Proof.
  destruct (CreateHapTokenInfo_spec sample_fits (fun _ => 5) (app_params 100) app_policy [] start_world RET_SUCCESS app_token 0 created.2
    (starting_inv _ start_world_ok) empty_brief_wf sample_plain_names sample_token_u32 created_eq)
    as [(Hr & _)|(_ & _ & _ & H & _ & _ & Hw & _)]; [by destruct Hr|]. split; [exact H|exact Hw].
Defined.

Lemma VerifyAccessToken_sound_complete_witness :
  (VerifyAccessToken false 0 false app_token INTERNET created.2).1 = PERMISSION_GRANTED.
Proof.
  apply (VerifyAccessToken_sound_complete false 0 false app_token INTERNET created.2 sample_brief_wf).
  - vm_compute. reflexivity.
  - apply (synced_of_push _ _ (mkMemDevice ∅ []) sample_brief_wf). vm_compute. reflexivity.
  - vm_compute. reflexivity.
  - vm_compute. reflexivity.
  - vm_compute. reflexivity.
  - vm_compute. discriminate.
  - vm_compute. reflexivity.
Defined.

Lemma user_policy_from_creation_witness :
  VerifyPermissionStatus app_token CAMERA (w_brief created.2) = PERMISSION_DENIED.
Proof.
  apply (user_policy_from_creation (PT := sample_table) (BC := full_config) sample_fits false (fun _ => 5) (app_params 100) app_policy [] start_world app_token 0 created.2 0 CAMERA
    (starting_inv _ start_world_ok) empty_brief_wf sample_plain_names sample_token_u32 eq_refl eq_refl created_eq).
  vm_compute. reflexivity.
Defined.

End Sample.
