(* ===== verification/PersistProps.v ===== *)
(** * Tokens across a restart

    What accesstoken_info_manager.cpp writes to the database for a token
    ([AddHapTokenInfoToDb]), read back by a service that does not know the token
    ([GetHapTokenInfoInnerFromDb]).  The tables are multisets of rows, so the permissions come
    back in some order. *)

From stdpp Require Import base gmap list strings.
From S2P Require Import Prelude AccessTokenTypes TokenId Database PermissionMap Validator DataTranslator PermissionDataBrief PermissionDataBriefTheory IdManager UserPolicy ToggleManager ConstraintCheck HapTokenInfo HapTokenInfoProps Kernel InfoManager InfoManagerOps InfoManagerTheory InfoManagerProps.
#[local] Open Scope string_scope.
#[local] Open Scope list_scope.
#[local] Open Scope Z_scope.
#[local] Open Scope cxx_scope.














(** ** The permissions. *)
Section Persist.
Context {PT : PermTable} `{!PermTableLaws PT} {BC : BuildConfig}.
Implicit Types (t : Z) (d : BriefPermData) (st : Brief).













(** ** Writing and loading a token. *)
Context {S K : Type} `{!AtmDb S} `{!TokenDevice K}.
Implicit Types (w : World S K) (info : HapTokenInfoInner).













End Persist.

(** ** A device that restarts. *)
Section Sample.
#[local] Existing Instance sample_table.
#[local] Existing Instance sample_table_laws.
#[local] Existing Instance full_config.





End Sample.
