(* ===== verification/PermissionManager.v ===== *)
(** * The permission manager: granting, revoking and its notifications

    The stateful part of PermissionManager (permission_manager.cpp) over the state of the
    token information manager.  A shared pointer to a token is the key of the object in the
    map of tokens, so that what one call changes in the object the next one sees. *)

From stdpp Require Import base gmap list strings.
From S2P Require Import Prelude AccessTokenTypes TokenId Database PermissionMap Validator DataTranslator PermissionDataBrief IdManager UserPolicy ConstraintCheck HapTokenInfo Kernel InfoManager InfoManagerOps.
#[local] Open Scope string_scope.
#[local] Open Scope list_scope.
#[local] Open Scope Z_scope.
#[local] Open Scope cxx_scope.

(** [PermStateChangeScope]. *)
Record PermStateChangeScope := mkPermStateChangeScope {
  scope_tokenIDs : list Z;
  scope_permList : list string;
}.

Section PermissionManager.
Context {PT : PermTable} {BC : BuildConfig} {S K : Type} `{!AtmDb S} `{!TokenDevice K}.
(** The answer of the observer of temporary grants (IsAllowGrantTempPermission), whether the
    ability manager can be loaded, and the parent of a binary's token. *)
Context (allowTemp : Z -> string -> bool) (abilityManager : bool) (parentHapToken : Z -> Z + Z).
Implicit Types (w : World S K) (id : Z) (info : HapTokenInfoInner).

(** ** Queries. *)
Definition VerifyHapAccessToken (tokenID : Z) (permissionName : string) w : Z :=
  HapVerifyPermissionStatus tokenID permissionName (w_brief w).

Definition PmGetPermissionUsedType (tokenID : Z) (permissionName : string) w : PermUsedTypeEnum :=
  if (tokenID =? INVALID_TOKENID) || negb (TOKEN_HAP =? GetTokenIdTypeEnum tokenID) then INVALID_USED_TYPE
  else if IsBinTokenId tokenID then NORMAL_TYPE
  else HapGetPermissionUsedType tokenID permissionName (w_brief w).

Definition GetReqPermissions (tokenID : Z) (isSystemGrant : bool) w : (Z + list PermissionStatus) * World S K :=
  match GetHapTokenInfoInner tokenID w with
  | (None, w) => (inl ERR_TOKENID_NOT_EXIST, w)
  | (Some infoPtr, w) =>
      let '(ret, tmpList) := GetPermissionStateList infoPtr (w_brief w) in
      if negb (ret =? RET_SUCCESS) then (inl ret, w)
      else
        (inr (filter (fun perm =>
           match GetPermissionBriefDef_name (ps_permissionName perm) with
           | None => false
           | Some briefDef =>
               (isSystemGrant && (pbd_grantMode briefDef =? SYSTEM_GRANT)) ||
               (negb isSystemGrant && negb (pbd_grantMode briefDef =? SYSTEM_GRANT))
           end = true) tmpList), w)
  end.

Definition GetPermissionFlag (tokenID : Z) (permissionName : string) w : Z + Z :=
  if negb (IsPermissionNameValid permissionName) then inl ERR_PARAM_INVALID
  else if negb (IsDefinedPermissionInner permissionName) then inl ERR_PERMISSION_NOT_EXIST
  else
    match TransferPermissionToOpcode permissionName with
    | None => inl ERR_PERMISSION_NOT_EXIST
    | Some opCode =>
        match HapQueryPermissionStatusAndFlag tokenID opCode (w_brief w) with
        | inl ret => inl ret
        | inr (_, flag) => inr flag
        end
    end.

Definition IsPermissionVaild (permissionName : string) : bool :=
  if negb (IsPermissionNameValid permissionName) then false
  else if negb (IsDefinedPermissionInner permissionName) then false else true.

(** ** After a change of status: the device, the listeners and the parameters. *)
Definition NotifyWhenPermissionStateUpdated (permissionName : string) (isGranted : bool) (flag : Z) info w : World S K :=
  let tokenID := hti_tokenID (tokenInfoBasic_ info) in
  let userID := hti_userID (tokenInfoBasic_ info) in
  let permCode := default 0 (TransferPermissionToOpcode permissionName) in
  let '(ret, isGrantedBefore, k) := GetPermFromKernel (w_kernel w) tokenID permCode in
  let w := set_kernel k w in
  let isRestricted := IsPermissionRestricted tokenID userID permCode (w_policies w) in
  let effectiveGranted := isGranted && negb isRestricted in
  let changeType := if effectiveGranted then STATE_CHANGE_GRANTED else STATE_CHANGE_REVOKED in
  let w :=
    if negb (ret =? RET_SUCCESS)
    then set_kernel (SetPermToKernel (w_kernel w) tokenID permissionName effectiveGranted) w
    else if negb (eqb isGrantedBefore effectiveGranted)
    then emit [ExecuteCallbackAsync tokenID permissionName changeType]
           (set_kernel (SetPermToKernel (w_kernel w) tokenID permissionName effectiveGranted) w)
    else w in
  emit [ParamUpdate permissionName flag false] w.

(** ** Updating one permission of the token a pointer leads to. *)

(** [infoPtr->UpdatePermissionStatus]: the code, whether the status changed, and the state. *)
Definition ptr_UpdatePermissionStatus (infoPtr : Z) (permission : string) (isGranted : bool) (flag : Z) w
    : Z * bool * World S K :=
  match hapTokenInfoMap_ w !! infoPtr with
  | None => (ERR_TOKENID_NOT_EXIST, false, w)
  | Some info =>
      let '(now, w) := take_clock w in
      let '(ret, statusChanged, info, st, db) :=
        HapUpdatePermissionStatus (fun n => now (n + 1)%nat) (now O) permission isGranted flag info (w_brief w) (w_db w) in
      (ret, statusChanged, set_db db (set_brief st (set_haps (<[infoPtr := info]> (hapTokenInfoMap_ w)) w)))
  end.

(** The token behind a pointer. *)
Definition deref (infoPtr : Z) w : HapTokenInfoInner := default default_HapTokenInfoInner (hapTokenInfoMap_ w !! infoPtr).

(** The notification and the request to kill, common to both overloads. *)
Definition after_update (infoPtr tokenID : Z) (permission : string) (isGranted : bool) (flag : Z)
    (needKill isSecCompGrantedBefore : bool) w : World S K :=
  let w := NotifyWhenPermissionStateUpdated permission isGranted flag (deref infoPtr w) w in
  if needKill && (negb isGranted && negb isSecCompGrantedBefore) && abilityManager
  then emit [KillProcessForPermissionUpdate tokenID] w else w.

Definition UpdateTokenPermissionState_ptr (infoPtr tokenID : Z) (permission : string) (isGranted : bool) (flag : Z)
    (needKill : bool) w : Z * World S K :=
  let isSecCompGrantedBefore := IsPermissionGrantedWithSecComp tokenID permission (w_brief w) in
  let '(ret, statusChanged, w) := ptr_UpdatePermissionStatus infoPtr permission isGranted flag w in
  if negb (ret =? RET_SUCCESS) then (ret, w)
  else (RET_SUCCESS,
        if statusChanged : bool
        then after_update infoPtr tokenID permission isGranted flag needKill isSecCompGrantedBefore w else w).

Definition UpdateTokenPermissionStateCheck info id (permission : string) (isGranted : bool) (flag : Z) w : Z :=
  if isRemote_ info then ERR_IDENTITY_CHECK_FAILED
  else if (flag =? PERMISSION_ALLOW_THIS_TIME) && isGranted && negb (allowTemp id permission)
  then ERR_IDENTITY_CHECK_FAILED
  else if SUPPORT_SANDBOX_APP then
    let hapDlpType := hti_dlpType (tokenInfoBasic_ info) in
    if negb (hapDlpType =? DLP_COMMON) &&
       negb (IsPermDlpModeAvailableToDlpHap hapDlpType (GetPermDlpMode permission (w_modes w)))
    then ERR_IDENTITY_CHECK_FAILED else ERR_OK
  else ERR_OK.

Definition UpdateTokenPermissionState id (permission : string) (isGranted : bool) (flag : Z) (needKill : bool) w
    : Z * World S K :=
  match GetHapTokenInfoInner id w with
  | (None, w) => (ERR_TOKENID_NOT_EXIST, w)
  | (Some info, w) =>
      let ret := UpdateTokenPermissionStateCheck info id permission isGranted flag w in
      if negb (ret =? ERR_OK) then (ret, w)
      else
        let isSecCompGrantedBefore := IsPermissionGrantedWithSecComp id permission (w_brief w) in
        let '(ret, statusChanged, w) := ptr_UpdatePermissionStatus id permission isGranted flag w in
        if negb (ret =? RET_SUCCESS) then (ret, w)
        else
          let w := emit [ParamFlagUpdate] w in
          let w := if statusChanged : bool
                   then after_update id id permission isGranted flag needKill isSecCompGrantedBefore w else w in
          (RET_SUCCESS, if TOKEN_SYNC_ENABLE then emit [NotifyTokenModify id] w else w)
  end.

(** The tokens of the same application follow when the update succeeded. *)
Definition UpdatePermission (tokenID : Z) (permissionName : string) (isGranted : bool) (flag : Z) (needKill : bool) w
    : Z * World S K :=
  let '(ret, w) := UpdateTokenPermissionState tokenID permissionName isGranted flag needKill w in
  if negb (ret =? RET_SUCCESS) then (ret, w)
  else if SUPPORT_SANDBOX_APP then
    (RET_SUCCESS,
     fold_left (fun w id => (UpdateTokenPermissionState id permissionName isGranted flag needKill w).2)
       (GetRelatedSandBoxHapList tokenID w) w)
  else (RET_SUCCESS, w).

(** ** Several permissions under a policy. *)
Definition UpdateMultiTokenPermissionStateCheck info (permissionList : list string) w : Z :=
  if isRemote_ info then ERR_IDENTITY_CHECK_FAILED
  else if SUPPORT_SANDBOX_APP then
    let hapDlpType := hti_dlpType (tokenInfoBasic_ info) in
    if hapDlpType =? DLP_COMMON then RET_SUCCESS
    else if forallb (fun p => IsPermDlpModeAvailableToDlpHap hapDlpType (GetPermDlpMode p (w_modes w))) permissionList
    then RET_SUCCESS else ERR_IDENTITY_CHECK_FAILED
  else RET_SUCCESS.

(** The code, whether some update succeeded, and the state; the first failure stops the loop. *)
Fixpoint UpdateMultiTokenPermissionState_loop (infoPtr tokenID : Z) (permissionList : list string) (isGranted : bool)
    (flag : Z) (needKill : bool) (isUpdateSuccess : bool) w : Z * bool * World S K :=
  match permissionList with
  | [] => (RET_SUCCESS, isUpdateSuccess, w)
  | permissionName :: rest =>
      let '(ret, w) := UpdateTokenPermissionState_ptr infoPtr tokenID permissionName isGranted flag needKill w in
      if negb (ret =? RET_SUCCESS) then (ret, isUpdateSuccess, w)
      else UpdateMultiTokenPermissionState_loop infoPtr tokenID rest isGranted flag needKill true w
  end.

Definition UpdateMultiTokenPermissionState (infoPtr tokenID : Z) (permissionList : list string) (isGranted : bool)
    (flag : Z) (needKill : bool) w : Z * World S K :=
  match GetHapTokenInfo parentHapToken tokenID w with
  | (inl _, w) => (ERR_TOKENID_NOT_EXIST, w)
  | (inr _, w) =>
      let '(ret, isUpdateSuccess, w) :=
        UpdateMultiTokenPermissionState_loop infoPtr tokenID permissionList isGranted flag needKill false w in
      let w :=
        if isUpdateSuccess : bool then
          let w := emit [ParamFlagUpdate] w in
          if TOKEN_SYNC_ENABLE then emit [NotifyTokenModify tokenID] w else w
        else w in
      (ret, w)
  end.

Definition UpdateMultiPermissionStatus (tokenID : Z) (permissionList : list string) (status flag : Z) w : Z * World S K :=
  let isGranted := status =? PERMISSION_GRANTED in
  let needKill := negb isGranted in
  match GetHapTokenInfoInner tokenID w with
  | (None, w) => (ERR_TOKENID_NOT_EXIST, w)
  | (Some info, w) =>
      let ret := UpdateMultiTokenPermissionStateCheck info permissionList w in
      if negb (ret =? RET_SUCCESS) then (ret, w)
      else
        let '(ret, w) := UpdateMultiTokenPermissionState tokenID tokenID permissionList isGranted flag needKill w in
        if negb (ret =? RET_SUCCESS) then (ret, w)
        else if SUPPORT_SANDBOX_APP then
          (RET_SUCCESS,
           fold_left (fun w id => (UpdateMultiTokenPermissionState tokenID id permissionList isGranted flag needKill w).2)
             (GetRelatedSandBoxHapList tokenID w) w)
        else (RET_SUCCESS, w)
  end.

Fixpoint CheckMultiPermissionStatus_loop (permissionList : list string) : Z :=
  match permissionList with
  | [] => RET_SUCCESS
  | permissionName :: rest =>
      if negb (IsPermissionNameValid permissionName) then ERR_PARAM_INVALID
      else if negb (IsDefinedPermissionInner permissionName) then ERR_PERMISSION_NOT_EXIST
      else if negb (IsUserGrantPermission permissionName) then ERR_PARAM_INVALID
      else CheckMultiPermissionStatus_loop rest
  end.
Definition CheckMultiPermissionStatus (permissionList : list string) (status flag : Z) : Z :=
  if negb (IsPermissionStatusValid status) then ERR_PARAM_INVALID
  else if negb (IsPermissionFlagValidForAdmin flag) then ERR_PARAM_INVALID
  else if negb (IsGrantStatusValid status) then ERR_PARAM_INVALID
  else CheckMultiPermissionStatus_loop permissionList.

Definition CheckAndUpdateMultiPermissionStatus (tokenID : Z) (permissionList : list string) (status flag : Z) w
    : Z * World S K :=
  let ret := CheckMultiPermissionStatus permissionList status flag in
  if negb (ret =? RET_SUCCESS) then (ret, w)
  else UpdateMultiPermissionStatus tokenID permissionList status flag w.

Definition SetPermissionStatusWithPolicy (tokenID : Z) (permissionList : list string) (status flag : Z) w : Z * World S K :=
  CheckAndUpdateMultiPermissionStatus tokenID permissionList status flag w.

(** ** Granting and revoking. *)
Definition CheckPermissionParams (permissionName : string) (flag : Z) : Z :=
  if negb (IsPermissionNameValid permissionName) then ERR_PARAM_INVALID
  else if negb (IsDefinedPermissionInner permissionName) then ERR_PERMISSION_NOT_EXIST
  else if negb (IsPermissionFlagValid flag) || IsAdminPermissionFlag flag then ERR_PARAM_INVALID
  else RET_SUCCESS.

Definition CheckAndUpdatePermission (tokenID : Z) (permissionName : string) (isGranted : bool) (flag : Z)
    (killProcess : bool) w : Z * World S K :=
  let needKill := if negb isGranted && negb (flag =? PERMISSION_COMPONENT_SET) then killProcess else false in
  UpdatePermission tokenID permissionName isGranted flag needKill w.

(** The reports before and after the update are not part of the state. *)
Definition CheckAndUpdatePermissionInner (tokenID : Z) (permissionName : string) (isGranted : bool) (flag : Z)
    (killProcess : bool) w : Z * World S K :=
  let ret := CheckPermissionParams permissionName flag in
  if negb (ret =? RET_SUCCESS) then (ret, w)
  else
    match GetHapTokenInfo parentHapToken tokenID w with
    | (inl _, w) => (ERR_TOKENID_NOT_EXIST, w)
    | (inr _, w) => CheckAndUpdatePermission tokenID permissionName isGranted flag killProcess w
    end.

(** A permission set in the settings only is out of reach of a caller that may only operate
    user-granted ones. *)
Definition manual_only (permissionName : string) (updateFlag : Z) : bool :=
  (updateFlag <? OPERABLE_PERM) &&
  match GetPermissionBriefDef_name permissionName with
  | Some briefDef => pbd_grantMode briefDef =? MANUAL_SETTINGS
  | None => false
  end.

Definition GrantPermission (tokenID : Z) (permissionName : string) (flag updateFlag : Z) w : Z * World S K :=
  if manual_only permissionName updateFlag then (ERR_PERMISSION_NOT_EXIST, w)
  else CheckAndUpdatePermissionInner tokenID permissionName true flag true w.

Definition RevokePermission (tokenID : Z) (permissionName : string) (flag updateFlag : Z) (killProcess : bool) w
    : Z * World S K :=
  if manual_only permissionName updateFlag then (ERR_PERMISSION_NOT_EXIST, w)
  else CheckAndUpdatePermissionInner tokenID permissionName false flag killProcess w.

(** ** Listening to changes. *)
Definition ScopeFilter (scopeSrc : PermStateChangeScope) w : Z * PermStateChangeScope :=
  let tokenIDs :=
    fold_left (fun acc tokenId =>
      if IsTokenIdExist tokenId w && negb (bool_decide (tokenId ∈ acc)) then acc ++ [tokenId] else acc)
      (scope_tokenIDs scopeSrc) [] in
  let permList :=
    fold_left (fun acc p =>
      if IsDefinedPermissionInner p && negb (bool_decide (p ∈ acc)) then acc ++ [p] else acc)
      (scope_permList scopeSrc) [] in
  let scopeRes := mkPermStateChangeScope tokenIDs permList in
  if bool_decide (tokenIDs = []) && negb (bool_decide (scope_tokenIDs scopeSrc = [])) then (ERR_PARAM_INVALID, scopeRes)
  else if bool_decide (permList = []) && negb (bool_decide (scope_permList scopeSrc = [])) then (ERR_PARAM_INVALID, scopeRes)
  else (RET_SUCCESS, scopeRes).

(** ** The permission list of a sandbox clone: that of the main application. *)
Definition GetMasterAppUndValues (tokenId : Z) (undefValues : list GenericValues) w : list GenericValues * World S K :=
  let '(res, results, db) := db_Find (w_db w) ACCESSTOKEN_HAP_UNDEFINE_INFO (id_condition tokenId) in
  let w := set_db db w in
  if negb (res =? 0) then (undefValues, w)
  else (undefValues ++ map (Remove FIELD_TOKEN_ID) results, w).

Definition InitDlpPermissionList (params : HapInfoParams) (initializedList : list PermissionStatus)
    (undefValues : list GenericValues) w : bool * list PermissionStatus * list GenericValues * World S K :=
  let '(tokenId, _) := GetHapTokenID (hip_userID params) (hip_bundleName params) 0 w in
  match GetHapTokenInfoInner tokenId w with
  | (None, w) => (false, initializedList, undefValues, w)
  | (Some infoPtr, w) =>
      let initializedList := initializedList ++ (GetPermissionStateList infoPtr (w_brief w)).2 in
      let '(undefValues, w) := GetMasterAppUndValues tokenId undefValues w in
      (true, initializedList, undefValues, w)
  end.

End PermissionManager.
