(* ===== verification/PermissionManagerProps.v ===== *)
(** * What granting and revoking guarantee

    A grant or a revoke reaches the store and the device together: the bits of the device
    keep agreeing with the answers of the store, for the token and for the tokens of the
    same application that follow it, so that a later check answers what was asked. *)

From stdpp Require Import base gmap list strings.
From S2P Require Import Prelude AccessTokenTypes TokenId Database PermissionMap Validator DataTranslator PermissionDataBrief PermissionDataBriefTheory IdManager UserPolicy ConstraintCheck HapTokenInfo Kernel InfoManager InfoManagerOps InfoManagerTheory InfoManagerProps PermissionManager.
#[local] Open Scope string_scope.
#[local] Open Scope list_scope.
#[local] Open Scope Z_scope.
#[local] Open Scope cxx_scope.

Section Props.
Context {PT : PermTable} `{!PermTableLaws PT} {BC : BuildConfig} {S K : Type} `{!AtmDb S} `{!TokenDevice K}.
Context `{!TokenDeviceLaws K} `{!TokenDeviceHealth K}.
Context (allowTemp : Z -> string -> bool) (abilityManager : bool) (parentHapToken : Z -> Z + Z).
Implicit Types (w : World S K) (id c : Z) (info : HapTokenInfoInner).

(** The device answers like the store. *)
Definition agrees w id c : Prop :=
  dev_granted (w_kernel w) id c = bool_decide (VerifyPermissionStatus_code id c (w_brief w) = PERMISSION_GRANTED).

(** The flags show what the policies restrict. *)
Definition policy_in_flags w c : Prop :=
  forall id info, hapTokenInfoMap_ w !! id = Some info ->
    IsPermissionRestricted id (hti_userID (tokenInfoBasic_ info)) c (w_policies w) = true ->
    exists d, entry (w_brief w) id c = Some d /\ Z.testbit (bpd_flag d) 9 = true.

Record agree_inv c w : Prop := {
  ai_world : world_inv w;
  ai_wf : brief_wf (w_brief w);
  ai_ok : dev_ok (w_kernel w);
  ai_agree id info c' : hapTokenInfoMap_ w !! id = Some info -> 0 <= c' < MAX_PERM_SIZE -> agrees w id c';
  ai_policy : policy_in_flags w c;
}.

(** ** One update of the store. *)
Lemma restriction_kept t p b f st c d :
  brief_wf st -> entry st t c = Some d -> Z.testbit (bpd_flag d) 9 = true ->
  exists d', entry (UpdatePermissionStatus t p b f st).2 t c = Some d' /\ Z.testbit (bpd_flag d') 9 = true.
Proof.
  intros Hw En H9. destruct (entry_of_wf _ _ _ _ Hw En) as [(_ & _ & Hu & _) _].
  destruct (UpdatePermissionStatus_entry t p b f st) as [->|(c1 & g & T & He & _ & Hg)]; [by exists d|].
  rewrite He. destruct (decide _) as [[_ ->]|]; [|by exists d]. rewrite En. cbn. exists (g d). split; [done|].
  destruct (Hg d En Hu) as [[_ ->]|(_ & b' & -> & _)].
  - cbn [updated_entry bpd_flag]. rewrite UpdateWithNewFlag_testbit, H9 by lia. apply orb_true_r.
  - rewrite secComp_flag_testbit by (done || lia). done.
Qed.

(** The other entries, and the answers for the other permissions and tokens. *)
Lemma update_others t p c b f st t' c' :
  TransferPermissionToOpcode p = Some c -> ~ (t' = t /\ c' = c) ->
  let st' := (UpdatePermissionStatus t p b f st).2 in
  entry st' t' c' = entry st t' c' /\ VerifyPermissionStatus_code t' c' st' = VerifyPermissionStatus_code t' c' st.
Proof.
  intros T Hne st'. subst st'.
  assert (entry (UpdatePermissionStatus t p b f st).2 t' c' = entry st t' c' /\
    (is_Some (requestedPermData_ (UpdatePermissionStatus t p b f st).2 !! t') <-> is_Some (requestedPermData_ st !! t'))) as [He Hd].
  { destruct (UpdatePermissionStatus_entry t p b f st) as [->|(c1 & g & T1 & He & Hd & _)]; [done|].
    split; [|apply Hd]. rewrite He, decide_False; [done|]. intros [-> ->]. apply Hne. split; [done|congruence]. }
  split; [done|]. rewrite !Verify_entry, He, (bool_decide_ext _ _ Hd). destruct (entry st t' c'); [done|].
  enough (secComp_granted (UpdatePermissionStatus t p b f st).2 t' c' = secComp_granted st t' c') as -> by done.
  unfold UpdatePermissionStatus. rewrite T. destruct (negb (IsPermGrantedBySecComp f)).
  - destruct (UpdatePermStateList t c b f st) as [r s1] eqn:U. apply UpdatePermStateList_spec in U. cbn.
    destruct (decide _); [|by destruct U as [-> _]]. destruct U as (_ & Hsc & _). unfold secComp_granted. by rewrite Hsc.
  - destruct (UpdateSecComp_cases t p c b st T) as [E|(q & Tq & E & _)];
      destruct (UpdateSecCompGrantedPermList t c b st) as [r s1]; cbn in *; subst s1; [done|].
    by eapply SecComp_other.
Qed.

Lemma update_data_within t p b f st : data_within t st (UpdatePermissionStatus t p b f st).2.
Proof.
  unfold UpdatePermissionStatus. destruct (TransferPermissionToOpcode p) as [c|] eqn:T; [|apply data_within_refl].
  destruct (negb (IsPermGrantedBySecComp f)).
  - unfold UpdatePermStateList. destruct (requestedPermData_ st !! t) as [l|]; [|apply data_within_refl].
    destruct (find_if (has_code c) l) as [d|]; [|apply data_within_refl]. cbv zeta.
    repeat (split_if; [apply data_within_refl|]). intros t' Hn. cbn. by rewrite lookup_insert_ne.
  - destruct (UpdateSecComp_cases t p c b st T) as [E|(q & Tq & E & _)];
      destruct (UpdateSecCompGrantedPermList t c b st) as [r s1]; cbn in *; subst s1; [apply data_within_refl|].
    unfold SecCompGrantedPermListUpdated. rewrite Tq. destruct (requestedPermData_ st !! t) as [l|]; [|apply data_within_refl].
    intros t' Hn. cbn. by rewrite lookup_insert_ne.
Qed.

(** ** One update of a token. *)
Lemma store_state_loop_keeps now t p vals : forall info (db : S) info' db',
  store_state_loop now t p vals info db = (info', db') ->
  tokenInfoBasic_ info' = tokenInfoBasic_ info /\ isRemote_ info' = isRemote_ info.
Proof.
  induction vals as [|v vals IH]; cbn; intros info db info' db'; [by intros [= <- _]|]. split_if; [apply IH|].
  destruct (db_Modify _ _ _ _) as [e db1]. intros H. by apply IH in H.
Qed.

Lemma update_fails t p b f st r ct st' :
  UpdatePermissionStatus t p b f st = (r, ct, st') -> r <> RET_SUCCESS -> st' = st.
Proof.
  unfold UpdatePermissionStatus. destruct (TransferPermissionToOpcode p) as [c|] eqn:T; [|by intros [= _ _ <-]].
  destruct (negb (IsPermGrantedBySecComp f)).
  - destruct (UpdatePermStateList t c b f st) as [r0 s0] eqn:U. apply UpdatePermStateList_spec in U.
    intros [= <- _ <-] Hr. rewrite decide_False in U by done. apply U.
  - destruct (UpdateSecCompGrantedPermList t c b st) as [r0 s0] eqn:U. intros [= <- _ <-] Hr. revert U.
    unfold UpdateSecCompGrantedPermList. destruct (queried _) as [s f0]. cbv zeta.
    repeat split_if; intros [= <- <-]; done.
Qed.

(** The rows cannot be built only when the token has no data, and then nothing changes. *)
Lemma build_fails t p c b f st r ct st' clock r2 vals :
  UpdatePermissionStatus t p b f st = (r, ct, st') -> BuildPermissionStateValues clock t [] st' = (r2, vals) ->
  r2 <> RET_SUCCESS -> VerifyPermissionStatus_code t c st' = VerifyPermissionStatus_code t c st.
Proof.
  intros U B Hr. assert (requestedPermData_ st' !! t = None) as Hn.
  { unfold BuildPermissionStateValues, GetBriefPermDataByTokenIdInner in B. destruct (requestedPermData_ st' !! t); [|done].
    cbn in B. by injection B as <- _. }
  assert (requestedPermData_ st !! t = None) as Hn0.
  { pose proof (UpdatePermissionStatus_entry t p b f st) as He. rewrite U in He. cbn in He.
    destruct He as [->|(c1 & g & _ & _ & Hd & _)]; [done|]. apply eq_None_not_Some. rewrite <- Hd, Hn. by intros []. }
  unfold VerifyPermissionStatus_code. by rewrite Hn, Hn0.
Qed.

(** The store, what stays of the object, and when the status has changed. *)
Lemma HapUpdate_fields clock now p c b f info st (db : S) ret ch info' st' db' :
  TransferPermissionToOpcode p = Some c ->
  HapUpdatePermissionStatus clock now p b f info st db = (ret, ch, info', st', db') ->
  let t := hti_tokenID (tokenInfoBasic_ info) in
  st' = (UpdatePermissionStatus t p b f st).2 /\ tokenInfoBasic_ info' = tokenInfoBasic_ info /\
  isRemote_ info' = isRemote_ info /\
  (ret = RET_SUCCESS -> (UpdatePermissionStatus t p b f st).1.1 = RET_SUCCESS /\
     (ch = true <-> VerifyPermissionStatus_code t c st' <> VerifyPermissionStatus_code t c st)) /\
  (ret <> RET_SUCCESS -> VerifyPermissionStatus_code t c st' = VerifyPermissionStatus_code t c st).
Proof.
  intros T H t. subst t. unfold HapUpdatePermissionStatus in H. cbv zeta in H. set (t := hti_tokenID (tokenInfoBasic_ info)) in *.
  destruct (UpdatePermissionStatus t p b f st) as [[r ct] s1] eqn:U. cbn [fst snd].
  assert (ct = Some (default NO_CHANGE ct)) as Hct.
  { unfold UpdatePermissionStatus in U. rewrite T in U. destruct (if negb _ then _ else _) as [r0 s0]. by injection U as _ <- _. }
  assert ((match default NO_CHANGE ct with STATUS_ONLY | STATUS_AND_FLAG => true | _ => false end) = true <->
    VerifyPermissionStatus_code t c s1 <> VerifyPermissionStatus_code t c st) as Hch.
  { unfold UpdatePermissionStatus in U. rewrite T in U. destruct (if negb _ then _ else _) as [r0 s0]. injection U as _ <- <-. cbn.
    destruct (Z.eqb_spec (VerifyPermissionStatus_code t c st) (VerifyPermissionStatus_code t c s0)) as [->|Hne]; cbn [negb];
      split_if; naive_solver. }
  assert (r <> RET_SUCCESS -> s1 = st) as Hfail by (intros; by eapply update_fails).
  destruct (Z.eqb_spec r RET_SUCCESS) as [->|Hr]; cbn [negb] in H.
  2: { injection H as <- <- <- <- <-. split_and!; try done. intros _. by rewrite Hfail. }
  repeat (split_if_in H; [injection H as <- <- <- <- <-; by split_and!|]).
  destruct (default NO_CHANGE ct) eqn:Ect; [injection H as <- <- <- <- <-; by split_and!|..].
  all: destruct (BuildPermissionStateValues clock t [] s1) as [r2 vals] eqn:B; destruct (Z.eqb_spec r2 RET_SUCCESS) as [->|Hr2]; cbn [negb] in H;
    [destruct (store_state_loop _ _ _ _ _ _) as [i2 d2] eqn:L; apply store_state_loop_keeps in L as [L1 L2];
     injection H as <- <- <- <- <-; split_and!; first [done|congruence]|].
  all: injection H as <- <- <- <- <-; split_and!; try done; intros _; by eapply build_fails.
Qed.

(** What the notification does: the bit of the permission becomes the effective answer, and
    only that bit can change. *)
Lemma Notify_bits p c b f info w :
  TransferPermissionToOpcode p = Some c -> dev_ok (w_kernel w) ->
  let t := hti_tokenID (tokenInfoBasic_ info) in
  let w' := NotifyWhenPermissionStateUpdated p b f info w in
  dev_ok (w_kernel w') /\
  w' = mkWorld (hapTokenInfoMap_ w) (hapTokenIdMap_ w) (reservedHapTokenIdMap_ w) (nativeTokenInfoMap_ w) (w_brief w) (w_ids w)
         (w_policies w) (w_modes w) (w_db w) (w_kernel w') (w_clock w) (w_events w') /\
  forall t' c', 0 <= c' -> dev_granted (w_kernel w') t' c' =
    if decide (t' = t /\ c' = c)
    then b && negb (IsPermissionRestricted t (hti_userID (tokenInfoBasic_ info)) c (w_policies w))
    else dev_granted (w_kernel w) t' c'.
Proof.
  intros T Hok t w'. subst w'. unfold NotifyWhenPermissionStateUpdated. fold t. rewrite T. cbn [default].
  change (Datatypes.id c) with c. cbv zeta. pose proof (opcode_u16 _ _ T) as Hc. assert (is_u32 c) as Hu by (unfold is_u32; lia).
  destruct (GetPermFromKernel (w_kernel w) t c) as [[e g] k] eqn:G.
  pose proof (GetPermFromKernel_ok _ _ _ _ _ _ Hok G) as [-> Hk]. pose proof (GetPermFromKernel_law _ _ _ _ _ _ Hu G) as [Hb Hg].
  specialize (Hg eq_refl). change (negb (ACCESS_TOKEN_OK =? RET_SUCCESS)) with false. cbn [w_policies set_kernel].
  set (eff := b && negb _). destruct (eqb g eff) eqn:Eg; cbn [negb].
  - apply eqb_prop in Eg. split_and!; [done..|]. intros t' c' Hc'. cbn. rewrite Hb.
    destruct (decide (t' = t /\ c' = c)) as [[-> ->]|]; [congruence|done].
  - unfold SetPermToKernel. rewrite T. cbn [w_kernel set_kernel].
    destruct (SetPermissionToKernel k t (i32 c) eff) as [e2 k2] eqn:Es.
    pose proof (SetPermissionToKernel_ok _ _ _ _ _ _ Hk Es) as [-> Hk2].
    pose proof (SetPermissionToKernel_law _ _ _ _ _ _ Hu Es) as Hbits. split_and!; [done..|]. intros t' c' Hc'. cbn.
    rewrite Hbits, Hb by done. cbn. destruct (decide (t' = t /\ c' = c)) as [[-> ->]|Hne]; [by rewrite !Z.eqb_refl|].
    destruct (Z.eqb_spec t' t) as [->|]; [|done]. destruct (Z.eqb_spec c' c) as [->|]; [by destruct Hne|done].
Qed.

(** One update of a token of the map, on the fields that matter. *)
Record token_updated id p b f w w' : Prop := {
  tu_info t : (fun x => (tokenInfoBasic_ x, isRemote_ x)) <$> hapTokenInfoMap_ w' !! t =
              (fun x => (tokenInfoBasic_ x, isRemote_ x)) <$> hapTokenInfoMap_ w !! t;
  tu_names : hapTokenIdMap_ w' = hapTokenIdMap_ w;
  tu_ids : w_ids w' = w_ids w;
  tu_policies : w_policies w' = w_policies w;
  tu_brief : w_brief w' = w_brief w \/ w_brief w' = (UpdatePermissionStatus id p b f (w_brief w)).2;
}.

Lemma token_updated_refl id p b f w : token_updated id p b f w w.
Proof. split; auto. Qed.

Lemma token_updated_inv id p b f w w' :
  token_updated id p b f w w' -> world_inv w -> is_Some (hapTokenInfoMap_ w !! id) -> world_inv w'.
Proof.
  intros [E1 E2 E3 _ E5] H [info Hi].
  assert (forall t x, hapTokenInfoMap_ w' !! t = Some x -> exists y, hapTokenInfoMap_ w !! t = Some y /\
    tokenInfoBasic_ x = tokenInfoBasic_ y /\ isRemote_ x = isRemote_ y) as Hback.
  { intros t x Hx. specialize (E1 t). rewrite Hx in E1. cbn in E1. destruct (hapTokenInfoMap_ w !! t) as [y|]; [|done].
    cbn in E1. injection E1 as E1 E1'. by exists y. }
  assert (forall t y, hapTokenInfoMap_ w !! t = Some y -> exists x, hapTokenInfoMap_ w' !! t = Some x /\
    tokenInfoBasic_ x = tokenInfoBasic_ y /\ isRemote_ x = isRemote_ y) as Hfwd.
  { intros t y Hy. specialize (E1 t). rewrite Hy in E1. cbn in E1. destruct (hapTokenInfoMap_ w' !! t) as [x|]; [|done].
    cbn in E1. injection E1 as E1 E1'. by exists x. }
  unfold GetHapUniqueStr_info in *. split.
  - intros t x (y & Hy & -> & _)%Hback. by eapply wi_key.
  - intros t x (y & Hy & _)%Hback. rewrite E3. by eapply wi_active.
  - rewrite E2. intros key t (y & Hy & Hr & Hn)%(wi_name ∅ w H). destruct (Hfwd _ _ Hy) as (x & Hx & Eb & Er).
    exists x. unfold GetHapUniqueStr_info in *. rewrite Er, Eb. done.
  - intros t x (y & Hy & Eb & Er)%Hback. unfold GetHapUniqueStr_info. rewrite E2, Eb, Er. by apply (wi_local ∅ w H).
  - intros t Ht. right. destruct (decide (t = id)) as [->|Hne].
    + destruct (Hfwd _ _ Hi) as (x & Hx & _). by exists x.
    + assert (is_Some (requestedPermData_ (w_brief w) !! t)) as Hs.
      { destruct E5 as [<-|E5]; [done|]. rewrite E5 in Ht. by rewrite update_data_within in Ht. }
      destruct (wi_data ∅ w H t Hs) as [|[y Hy]]; [set_solver|]. destruct (Hfwd _ _ Hy) as (x & Hx & _). by exists x.
Qed.

Lemma updated_brief_wf id p b f w w' :
  token_updated id p b f w w' -> is_u32 f -> brief_wf (w_brief w) -> brief_wf (w_brief w').
Proof. intros Hu Hf Hw. destruct (tu_brief _ _ _ _ _ _ Hu) as [->| ->]; [done|by apply UpdatePermissionStatus_wf]. Qed.

Lemma updated_others id p c b f w w' t' c' :
  token_updated id p b f w w' -> TransferPermissionToOpcode p = Some c -> ~ (t' = id /\ c' = c) ->
  VerifyPermissionStatus_code t' c' (w_brief w') = VerifyPermissionStatus_code t' c' (w_brief w).
Proof. intros Hu T Hne. destruct (tu_brief _ _ _ _ _ _ Hu) as [->| ->]; [done|]. by eapply update_others. Qed.

Lemma updated_restricted id p b f w w' t c d :
  token_updated id p b f w w' -> brief_wf (w_brief w) -> TransferPermissionToOpcode p = Some c ->
  entry (w_brief w) t c = Some d -> Z.testbit (bpd_flag d) 9 = true ->
  exists d', entry (w_brief w') t c = Some d' /\ Z.testbit (bpd_flag d') 9 = true.
Proof.
  intros Hu Hw T En H9. destruct (tu_brief _ _ _ _ _ _ Hu) as [->| ->]; [by exists d|].
  destruct (decide (t = id)) as [->|Hne]; [by eapply restriction_kept|].
  exists d. split; [|done]. rewrite <- En. eapply update_others; [done|]. by intros [].
Qed.

Lemma restricted_denied st t c d :
  entry st t c = Some d -> Z.testbit (bpd_flag d) 9 = true -> VerifyPermissionStatus_code t c st = PERMISSION_DENIED.
Proof. intros En H9. by rewrite Verify_entry, En, effective_bits, H9. Qed.

(** The invariant across one update that notified exactly when the answer changed. *)
Lemma agree_step c w w' id info p b f :
  agree_inv c w -> hapTokenInfoMap_ w !! id = Some info -> TransferPermissionToOpcode p = Some c -> is_u32 f ->
  Z.testbit f 8 = false -> (b = true -> Z.testbit f 9 = false) -> token_updated id p b f w w' -> dev_ok (w_kernel w') ->
  (forall t' c', 0 <= c' -> dev_granted (w_kernel w') t' c' =
     if decide (t' = id /\ c' = c /\ VerifyPermissionStatus_code id c (w_brief w') <> VerifyPermissionStatus_code id c (w_brief w))
     then b && negb (IsPermissionRestricted id (hti_userID (tokenInfoBasic_ info)) c (w_policies w))
     else dev_granted (w_kernel w) t' c') ->
  agree_inv c w'.
Proof.
  intros [H1 H2 H3 H4 H5] Hi T Hf F8 F9 Hu Hok Hbits. split; [by eapply token_updated_inv|by eapply updated_brief_wf|done| |].
  - intros t x c' Hx Hc'. assert (exists y, hapTokenInfoMap_ w !! t = Some y) as (y & Hy).
    { pose proof (tu_info _ _ _ _ _ _ Hu t) as E. rewrite Hx in E. destruct (hapTokenInfoMap_ w !! t) as [y|]; [by exists y|done]. }
    pose proof (H4 t y c' Hy Hc') as Ha. unfold agrees in *. rewrite Hbits by lia.
    destruct (decide _) as [(-> & -> & Hch)|Hn].
    + destruct (tu_brief _ _ _ _ _ _ Hu) as [E|E]; [by rewrite E in Hch|]. rewrite E in Hch.
      pose proof (answer_follows id p c b f (w_brief w) H2 T F8 F9 Hch) as Hv. rewrite <- E in Hv. rewrite Hv. destruct b; [|done].
      cbn [andb]. destruct (IsPermissionRestricted id _ c (w_policies w)) eqn:R; [|done].
      destruct (H5 id info Hi R) as (d & En & H9). destruct (updated_restricted _ _ _ _ _ _ _ _ _ Hu H2 T En H9) as (d' & En' & H9').
      by rewrite (restricted_denied _ _ _ _ En' H9') in Hv.
    + rewrite Ha. destruct (decide (t = id /\ c' = c)) as [[-> ->]|Hne].
      * destruct (decide (VerifyPermissionStatus_code id c (w_brief w') = VerifyPermissionStatus_code id c (w_brief w))) as [->|Hx'];
          [done|]. by destruct Hn.
      * by rewrite (updated_others _ _ _ _ _ _ _ _ _ Hu T Hne).
  - intros t x Hx R. rewrite (tu_policies _ _ _ _ _ _ Hu) in R. pose proof (tu_info _ _ _ _ _ _ Hu t) as E. rewrite Hx in E.
    destruct (hapTokenInfoMap_ w !! t) as [y|] eqn:Hy; [|done]. cbn in E. injection E as E _. rewrite E in R.
    destruct (H5 t y Hy R) as (d & En & H9). by eapply updated_restricted.
Qed.

Lemma ptr_update p c b f w id info ret ch w' :
  TransferPermissionToOpcode p = Some c -> hapTokenInfoMap_ w !! id = Some info -> hti_tokenID (tokenInfoBasic_ info) = id ->
  ptr_UpdatePermissionStatus id p b f w = (ret, ch, w') ->
  token_updated id p b f w w' /\ w_kernel w' = w_kernel w /\
  (forall x, hapTokenInfoMap_ w' !! id = Some x -> tokenInfoBasic_ x = tokenInfoBasic_ info) /\
  (ret = RET_SUCCESS -> (UpdatePermissionStatus id p b f (w_brief w)).1.1 = RET_SUCCESS /\
     w_brief w' = (UpdatePermissionStatus id p b f (w_brief w)).2 /\
     (ch = true <-> VerifyPermissionStatus_code id c (w_brief w') <> VerifyPermissionStatus_code id c (w_brief w))) /\
  (ret <> RET_SUCCESS -> VerifyPermissionStatus_code id c (w_brief w') = VerifyPermissionStatus_code id c (w_brief w)).
Proof.
  intros T Hi Hk. unfold ptr_UpdatePermissionStatus. rewrite Hi. cbn [take_clock].
  destruct (HapUpdatePermissionStatus _ _ _ _ _ _ _ _) as [[[[r ch'] info'] st] db] eqn:E.
  apply (HapUpdate_fields _ _ _ c) in E as (-> & Eb & Er & Hs & Hf); [|done]. rewrite Hk in *. intros [= <- <- <-]. cbn in *.
  split_and!; try done.
  - split; cbn; try done; [|by right]. intros t. destruct (decide (t = id)) as [->|Hne].
    + rewrite lookup_insert_eq, Hi. cbn. by rewrite Eb, Er.
    + by rewrite lookup_insert_ne.
  - rewrite lookup_insert_eq. by intros x [= <-].
  - intros Hr. destruct (Hs Hr). done.
Qed.

(** Only events differ. *)
Lemma token_updated_emit id p b f w w' es : token_updated id p b f w w' -> token_updated id p b f w (emit es w').
Proof. intros [H1 H2 H3 H4 H5]. by split. Qed.

Lemma agree_emit c w es : agree_inv c w -> agree_inv c (emit es w).
Proof. intros [H1 H2 H3 H4 H5]. split; try done. eapply inv_upto_frame; [..|exact H1]; done. Qed.

(** The notification after an update whose answer changed. *)
Lemma after_update_agree c w w1 id p b f kill sec info :
  agree_inv c w -> hapTokenInfoMap_ w !! id = Some info -> hti_tokenID (tokenInfoBasic_ info) = id ->
  TransferPermissionToOpcode p = Some c -> is_u32 f -> Z.testbit f 8 = false -> (b = true -> Z.testbit f 9 = false) ->
  token_updated id p b f w w1 -> w_kernel w1 = w_kernel w ->
  VerifyPermissionStatus_code id c (w_brief w1) <> VerifyPermissionStatus_code id c (w_brief w) ->
  let w3 := after_update abilityManager id id p b f kill sec w1 in
  agree_inv c w3 /\ token_updated id p b f w w3 /\ w_brief w3 = w_brief w1.
Proof.
  intros Ha Hi Hk T Hf F8 F9 Hu Ek Hch w3. subst w3.
  assert (exists x, hapTokenInfoMap_ w1 !! id = Some x /\ tokenInfoBasic_ x = tokenInfoBasic_ info) as (x & Hx1 & Ex).
  { pose proof (tu_info _ _ _ _ _ _ Hu id) as E. rewrite Hi in E. destruct (hapTokenInfoMap_ w1 !! id) as [x|]; [|done].
    exists x. split; [done|]. by injection E. }
  unfold after_update, deref. rewrite Hx1. cbn [default]. change (Datatypes.id x) with x.
  assert (dev_ok (w_kernel w1)) as Hok1 by (rewrite Ek; apply Ha).
  destruct (Notify_bits p c b f x w1 T Hok1) as (N1 & N2 & N3). rewrite Ex, Hk in N3.
  set (wn := NotifyWhenPermissionStateUpdated p b f x w1) in *.
  assert (token_updated id p b f w wn) as Hun by (rewrite N2; destruct Hu; by split).
  assert (w_brief wn = w_brief w1) as En by (by rewrite N2).
  assert (agree_inv c wn) as Han.
  { eapply agree_step; eauto. intros t' c' Hc'. rewrite N3, Ek, (tu_policies _ _ _ _ _ _ Hu), En by done.
    repeat destruct (decide _); naive_solver. }
  split_if; [|done]. split_and!; [by apply agree_emit|by apply token_updated_emit|done].
Qed.

Lemma UpdateToken_agree c w id p b f kill ret w' :
  agree_inv c w -> is_Some (hapTokenInfoMap_ w !! id) -> TransferPermissionToOpcode p = Some c -> is_u32 f ->
  Z.testbit f 8 = false -> (b = true -> Z.testbit f 9 = false) ->
  UpdateTokenPermissionState allowTemp abilityManager id p b f kill w = (ret, w') ->
  agree_inv c w' /\ token_updated id p b f w w' /\
  (ret = RET_SUCCESS -> (UpdatePermissionStatus id p b f (w_brief w)).1.1 = RET_SUCCESS /\
     w_brief w' = (UpdatePermissionStatus id p b f (w_brief w)).2).
Proof.
  intros Ha [info Hi] T Hf F8 F9. unfold UpdateTokenPermissionState. rewrite (in_map _ _ _ Hi).
  pose proof (wi_key ∅ w (ai_world _ _ Ha) _ _ Hi) as Hk. cbv zeta.
  destruct (Z.eqb_spec (UpdateTokenPermissionStateCheck allowTemp info id p b f w) ERR_OK) as [_|Hne]; cbn [negb].
  2: { intros [= <- <-]. split_and!; [done|apply token_updated_refl|by intros]. }
  destruct (ptr_UpdatePermissionStatus id p b f w) as [[r ch] w1] eqn:Ep.
  destruct (ptr_update p c b f w id info r ch w1 T Hi Hk Ep) as (Hu & Ek & _ & Hs & Hn). pose proof (ai_ok _ _ Ha) as Hok.
  assert (VerifyPermissionStatus_code id c (w_brief w1) = VerifyPermissionStatus_code id c (w_brief w) -> agree_inv c w1) as Hsame.
  { intros Hv. eapply agree_step; eauto; [by rewrite Ek|]. intros t' c' _. rewrite decide_False by (by intros (_ & _ & Hch)).
    by rewrite Ek. }
  destruct (Z.eqb_spec r RET_SUCCESS) as [->|Hr]; cbn [negb]; [|intros [= <- <-]; split_and!; [by auto|done|by intros]].
  destruct (Hs eq_refl) as (H1 & H2 & Hch). set (w2 := emit [ParamFlagUpdate] w1). set (sec := IsPermissionGrantedWithSecComp _ _ _).
  assert (let w3 := if ch then after_update abilityManager id id p b f kill sec w2 else w2 in
    agree_inv c w3 /\ token_updated id p b f w w3 /\ w_brief w3 = w_brief w1) as (Ha3 & Hu3 & Eb3).
  { assert (token_updated id p b f w w2) as Hu2 by (by apply token_updated_emit). destruct ch; cbv zeta.
    - exact (after_update_agree c w w2 id p b f kill sec info Ha Hi Hk T Hf F8 F9 Hu2 Ek (proj1 Hch eq_refl)).
    - split_and!; [|done..]. apply agree_emit, Hsame. destruct (decide (VerifyPermissionStatus_code id c (w_brief w1) =
        VerifyPermissionStatus_code id c (w_brief w))) as [|Hv]; [done|by apply Hch in Hv]. }
  intros [= <- <-].
  destruct TOKEN_SYNC_ENABLE; [split_and!; [by apply agree_emit|by apply token_updated_emit|]|split_and!; [done..|]];
    intros _; (split; [done|]); cbn; by rewrite <- H2, <- Eb3.
Qed.

(** ** The tokens that follow. *)
Lemma updated_dom id p b f w w' t :
  token_updated id p b f w w' -> is_Some (hapTokenInfoMap_ w !! t) -> is_Some (hapTokenInfoMap_ w' !! t).
Proof.
  intros Hu [x Hx]. pose proof (tu_info _ _ _ _ _ _ Hu t) as E. rewrite Hx in E.
  destruct (hapTokenInfoMap_ w' !! t); [by eexists|done].
Qed.

Lemma follow_agree c p b f kill l : forall w,
  agree_inv c w -> Forall (fun t => is_Some (hapTokenInfoMap_ w !! t)) l -> TransferPermissionToOpcode p = Some c ->
  is_u32 f -> Z.testbit f 8 = false -> (b = true -> Z.testbit f 9 = false) ->
  let w' := fold_left (fun w t => (UpdateTokenPermissionState allowTemp abilityManager t p b f kill w).2) l w in
  agree_inv c w' /\ w_ids w' = w_ids w /\
  (forall t, is_Some (hapTokenInfoMap_ w !! t) -> is_Some (hapTokenInfoMap_ w' !! t)) /\
  (forall t, t ∉ l -> VerifyPermissionStatus_code t c (w_brief w') = VerifyPermissionStatus_code t c (w_brief w)).
Proof.
  induction l as [|t l IH]; intros w Ha Hl T Hf F8 F9; [done|]. cbn [fold_left].
  apply Forall_cons in Hl as [Ht Hl]. destruct (UpdateTokenPermissionState allowTemp abilityManager t p b f kill w) as [r w1] eqn:E.
  pose proof (UpdateToken_agree c w t p b f kill r w1 Ha Ht T Hf F8 F9 E) as (Ha1 & Hu & _). cbn [snd].
  destruct (IH w1 Ha1) as (H1 & H2 & H3 & H4); [|done..|].
  - eapply Forall_impl; [exact Hl|]. intros u Hu'. by eapply updated_dom.
  - split_and!; [done|by rewrite H2, (tu_ids _ _ _ _ _ _ Hu)| |].
    + intros u Hu'. apply H3. by eapply updated_dom.
    + intros u [Hne Hni]%not_elem_of_cons. rewrite H4 by done. eapply updated_others; [exact Hu|done|]. by intros [].
Qed.

Lemma related_in_map w id t : world_inv w -> t ∈ GetRelatedSandBoxHapList id w -> is_Some (hapTokenInfoMap_ w !! t) /\ t <> id.
Proof.
  intros H. unfold GetRelatedSandBoxHapList. destruct (hapTokenInfoMap_ w !! id) as [info|]; [|by intros ?%elem_of_nil].
  cbv zeta. split_if; [by intros ?%elem_of_nil|].
  intros ([k x] & Hx & Hs)%list_elem_of_omap. apply elem_of_map_items in Hx. cbn in Hs.
  split_if_in Hs; [|done]. split_if_in Hs; [done|]. injection Hs as <-. breflect.
  rewrite (wi_key ∅ w H _ _ Hx) in *. split; [by eexists|done].
Qed.

(** What a successful update through the settings answers afterwards. *)
Lemma update_answer t p c b f st :
  TransferPermissionToOpcode p = Some c -> Z.testbit f 4 = false -> Z.testbit f 8 = false -> (b = true -> Z.testbit f 9 = false) ->
  (UpdatePermissionStatus t p b f st).1.1 = RET_SUCCESS ->
  exists d, entry st t c = Some d /\ Z.testbit (bpd_flag d) 2 = false /\
    VerifyPermissionStatus_code t c (UpdatePermissionStatus t p b f st).2 =
      if Z.testbit (bpd_flag d) 9 then PERMISSION_DENIED else if b then PERMISSION_GRANTED else PERMISSION_DENIED.
Proof.
  intros T F4 F8 F9. unfold UpdatePermissionStatus. rewrite T, IsPermGrantedBySecComp_bit, F4. cbn [negb].
  destruct (UpdatePermStateList t c b f st) as [r s1] eqn:L. cbn [fst snd]. intros ->. apply UpdatePermStateList_spec in L.
  rewrite decide_True in L by done. destruct L as ((d & En & Hr) & _ & _ & _ & He). exists d.
  unfold update_refused in Hr. rewrite !orb_false_iff in Hr. destruct Hr as [[H2 _] _]. split_and!; [done..|].
  rewrite Verify_entry, He, decide_True, En by done. cbn [fmap option_fmap option_map]. rewrite effective_bits.
  cbn [updated_entry bpd_flag bpd_status]. rewrite !UpdateWithNewFlag_testbit, F4, F8 by lia.
  cbn. rewrite andb_true_r, andb_false_r. destruct b; [by rewrite F9|]. by destruct (Z.testbit f 9), (Z.testbit (bpd_flag d) 9).
Qed.

Lemma UpdatePermission_agree c w id p b f kill ret w' :
  agree_inv c w -> is_Some (hapTokenInfoMap_ w !! id) -> TransferPermissionToOpcode p = Some c -> is_u32 f ->
  Z.testbit f 8 = false -> (b = true -> Z.testbit f 9 = false) ->
  UpdatePermission allowTemp abilityManager id p b f kill w = (ret, w') ->
  agree_inv c w' /\ is_Some (hapTokenInfoMap_ w' !! id) /\ w_ids w' = w_ids w /\
  (ret = RET_SUCCESS -> (UpdatePermissionStatus id p b f (w_brief w)).1.1 = RET_SUCCESS /\
     VerifyPermissionStatus_code id c (w_brief w') =
     VerifyPermissionStatus_code id c (UpdatePermissionStatus id p b f (w_brief w)).2).
Proof.
  intros Ha Hi T Hf F8 F9. unfold UpdatePermission.
  destruct (UpdateTokenPermissionState allowTemp abilityManager id p b f kill w) as [r w1] eqn:E.
  pose proof (UpdateToken_agree c w id p b f kill r w1 Ha Hi T Hf F8 F9 E) as (Ha1 & Hu & Hs).
  pose proof (updated_dom _ _ _ _ _ _ id Hu Hi) as Hi1. pose proof (tu_ids _ _ _ _ _ _ Hu) as Eids.
  destruct (Z.eqb_spec r RET_SUCCESS) as [->|Hr]; cbn [negb]; [|by intros [= <- <-]].
  destruct (Hs eq_refl) as [Hs1 Hs2]. destruct SUPPORT_SANDBOX_APP; intros [= <- <-]; [|by rewrite Hs2].
  set (l := GetRelatedSandBoxHapList id w1). destruct (follow_agree c p b f kill l w1 Ha1) as (H1 & H2 & H3 & H4); [|done..|].
  - apply Forall_forall. intros t Ht. eapply related_in_map; [apply Ha1|exact Ht].
  - split_and!; [done|by apply H3|by rewrite H2|]. intros _. split; [done|]. rewrite H4, Hs2; [done|].
    intros Hin. by destruct (related_in_map w1 id id (ai_world _ _ Ha1) Hin) as [_ ?].
Qed.

(** ** Granting, revoking and checking. *)
Lemma verify_values st t c :
  brief_wf st -> VerifyPermissionStatus_code t c st = PERMISSION_GRANTED \/ VerifyPermissionStatus_code t c st = PERMISSION_DENIED.
Proof.
  intros Hw. rewrite Verify_entry. destruct (entry st t c) as [d|] eqn:En; [|split_if; auto].
  destruct (entry_of_wf _ _ _ _ Hw En) as [(Hs & _) _]. rewrite effective_bits. repeat split_if; auto.
Qed.

Lemma check_agrees kspm caller punish c w id p :
  agree_inv c w -> is_Some (hapTokenInfoMap_ w !! id) -> TransferPermissionToOpcode p = Some c ->
  IsDefinedPermissionInner p = true -> IsPermissionNameValid p = true ->
  IsCallerNormalApp caller && negb (id =? u32 (caller .& TOKEN_ID_LOWMASK)) && punish = false ->
  (VerifyAccessToken kspm caller punish id p w).1 = VerifyPermissionStatus_code id c (w_brief w).
Proof.
  intros Ha [info Hi] T Hd Hn Hp. pose proof (wi_active ∅ w (ai_world _ _ Ha) _ _ Hi) as Hid.
  pose proof (hap_id_type _ _ Hid) as Ht. destruct Hid as (_ & _ & Hz). apply Z.eqb_neq in Hz.
  pose proof (ai_agree _ _ Ha id info c Hi (opcode_range _ _ T)) as Hag. unfold agrees in Hag.
  unfold VerifyAccessToken. cbv zeta. change INVALID_TOKENID with 0. rewrite Hz, Hn, Ht, Hp. cbn [negb].
  change (TOKEN_HAP =? TOKEN_INVALID) with false. rewrite andb_false_r.
  unfold GetPermissionFromKernelCache. rewrite Hd, T. cbn [negb default]. change (Datatypes.id c) with c.
  pose proof (opcode_u16 _ _ T) as Hc. destruct (GetPermissionFromKernel _ _ _) as [[e g] k] eqn:G.
  pose proof (GetPermFromKernel_ok _ _ _ _ _ _ (ai_ok _ _ Ha) G) as [-> _].
  apply GetPermFromKernel_law in G as [_ Hg]; [|unfold is_u32; lia]. cbn. rewrite Hg, Hag by done.
  destruct (verify_values (w_brief w) id c (ai_wf _ _ Ha)) as [-> | ->]; done.
Qed.

(** [GrantPermission] or [RevokePermission]. *)
Definition set_permission (b : bool) id p f updateFlag kill w : Z * World S K :=
  if b then GrantPermission allowTemp abilityManager parentHapToken id p f updateFlag w
  else RevokePermission allowTemp abilityManager parentHapToken id p f updateFlag kill w.

(** C1: a grant or a revoke, then a check, on an application's token (not a binary's) and a
    defined permission.  Assume that the device answers, that its bits agree with the store for
    every token and every permission, and that the flags show what the user policies restrict
    of this permission; and that a grant does not itself carry PERMISSION_RESTRICTED_BY_ADMIN
    in its flag (a revoke may).  Then the grant or the revoke keeps all of this, whether it
    succeeds or fails and however many tokens of the application follow; and after a success
    whose flag is not that of a security component the permission was requested and not fixed
    by the system, and every check by a caller that is not being punished answers what was
    asked, or denied where an administrator restricts the permission. *)
Theorem set_permission_then_check kspm b id p c f updateFlag kill w ret w' :
  agree_inv c w -> is_Some (hapTokenInfoMap_ w !! id) -> IsBinTokenId id = false ->
  TransferPermissionToOpcode p = Some c -> is_u32 f -> (b = true -> Z.testbit f 9 = false) ->
  set_permission b id p f updateFlag kill w = (ret, w') ->
  agree_inv c w' /\
  (ret = RET_SUCCESS -> Z.testbit f 4 = false ->
   exists d, entry (w_brief w) id c = Some d /\ Z.testbit (bpd_flag d) 2 = false /\
     forall caller punish, IsCallerNormalApp caller && negb (id =? u32 (caller .& TOKEN_ID_LOWMASK)) && punish = false ->
       (VerifyAccessToken kspm caller punish id p w').1 =
         if Z.testbit (bpd_flag d) 9 then PERMISSION_DENIED else if b then PERMISSION_GRANTED else PERMISSION_DENIED).
Proof.
  intros Ha Hi Hbin T Hf F9 E.
  assert (manual_only p updateFlag = true \/ exists kp, CheckAndUpdatePermissionInner allowTemp abilityManager parentHapToken
    id p b f kp w = (ret, w')) as [Hm|(kp & E')].
  { unfold set_permission, GrantPermission, RevokePermission in E. destruct b, (manual_only p updateFlag); eauto. }
  { unfold set_permission, GrantPermission, RevokePermission in E. rewrite Hm in E. destruct b; injection E as <- <-; done. }
  clear E. unfold CheckAndUpdatePermissionInner in E'. cbv zeta in E'.
  destruct (Z.eqb_spec (CheckPermissionParams p f) RET_SUCCESS) as [Hchk|Hchk]; cbn [negb] in E'; [|injection E' as <- <-; done].
  assert (IsPermissionNameValid p = true /\ IsDefinedPermissionInner p = true /\ Z.testbit f 8 = false) as (Hn & Hd & F8).
  { unfold CheckPermissionParams in Hchk. destruct (IsPermissionNameValid p); [|done]. destruct (IsDefinedPermissionInner p); [|done].
    cbn [negb] in Hchk. split_if_in Hchk; [done|]. split_and!; [done..|]. apply orb_false_iff in E as [_ E].
    unfold IsAdminPermissionFlag, nz in E. apply negb_false_iff, Z.eqb_eq in E. apply (f_equal (fun z => Z.testbit z 8)) in E.
    rewrite Z.land_spec in E. cbn in E. by rewrite andb_true_r in E. }
  destruct Hi as [info Hi]. unfold GetHapTokenInfo, ResolveQueryTokenID in E'. rewrite Hbin in E'. cbn [negb] in E'.
  rewrite (in_map _ _ _ Hi) in E'. unfold CheckAndUpdatePermission in E'.
  apply (UpdatePermission_agree c) in E' as (Ha' & Hi' & _ & Hs); [|done|by eexists|done..]. split; [done|].
  intros Hr F4. destruct (Hs Hr) as [H1 H2]. destruct (update_answer id p c b f (w_brief w) T F4 F8 F9 H1) as (d & En & Hd2 & Hv).
  exists d. split_and!; [done..|]. intros caller punish Hp. rewrite (check_agrees _ _ _ c) by done. by rewrite H2, Hv.
Qed.

End Props.

(** ** A concrete grant. *)
Section Sample.
#[local] Existing Instance sample_table.
#[local] Existing Instance sample_table_laws.
#[local] Existing Instance full_config.

(** The application of a user the policy does not restrict, which asks for the camera. *)
Definition ask_policy : HapPolicy :=
  mkHapPolicy APL_NORMAL "domain" []
    [mkPermissionStatus 0 CAMERA "" PERMISSION_DENIED PERMISSION_DEFAULT_FLAG 0;
     mkPermissionStatus 0 INTERNET "" PERMISSION_GRANTED PERMISSION_SYSTEM_FIXED 0] [] [] 0 ∅ false.
Definition ask_world : World MemRdb MemDevice :=
  (CreateHapTokenInfo (fun _ => 5) (app_params 101) ask_policy [] start_world).2.
Definition ask_info : HapTokenInfoInner := default default_HapTokenInfoInner (hapTokenInfoMap_ ask_world !! app_token).

Lemma ask_map : hapTokenInfoMap_ ask_world = {[app_token := ask_info]}.
Proof. vm_compute. reflexivity. Qed.

Lemma ask_agree : agree_inv 0 ask_world.
Proof.
  assert (forall id info, hapTokenInfoMap_ ask_world !! id = Some info -> id = app_token /\ info = ask_info) as Hone.
  { intros id info. rewrite ask_map. by intros [<- <-]%lookup_singleton_Some. }
  split.
  - apply CreateHapTokenInfo_inv, starting_inv, start_world_ok.
  - destruct (CreateHapTokenInfo (fun _ => 5) (app_params 101) ask_policy [] start_world) as [[ret [id attr]] w] eqn:E.
    assert (ret = RET_SUCCESS) as -> by (apply (f_equal (fun x => x.1.1)) in E; vm_compute in E; by rewrite <- E).
    unfold ask_world. rewrite E. eapply created_store; [apply starting_inv, start_world_ok|apply empty_brief_wf| | |exact E].
    + repeat constructor.
    + unfold is_u32. cbn. lia.
  - change (md_errors (w_kernel ask_world) = []). vm_compute. reflexivity.
  - intros id info c' [-> ->]%Hone Hc'. change MAX_PERM_SIZE with 6 in Hc'.
    assert (c' ∈ [0; 1; 2; 3; 4; 5]) as Hin by (rewrite !elem_of_cons; lia).
    repeat (apply elem_of_cons in Hin as [->|Hin]; [vm_compute; reflexivity|]). by apply elem_of_nil in Hin.
  - intros id info [-> ->]%Hone R. vm_compute in R. discriminate R.
Qed.

Definition camera_granted : Z * World MemRdb MemDevice :=
  set_permission (fun _ _ => true) true (fun _ => inl 0) true app_token CAMERA PERMISSION_USER_SET USER_GRANTED_PERM true ask_world.

Lemma set_permission_then_check_witness :
  (VerifyAccessToken false 0 false app_token CAMERA ask_world).1 = PERMISSION_DENIED /\
  (VerifyAccessToken false 0 false app_token CAMERA camera_granted.2).1 = PERMISSION_GRANTED.
Proof.
  split; [vm_compute; reflexivity|].
  destruct (set_permission_then_check (fun _ _ => true) true (fun _ => inl 0) false true app_token CAMERA 0 PERMISSION_USER_SET
    USER_GRANTED_PERM true ask_world camera_granted.1 camera_granted.2 ask_agree) as [_ H].
  - rewrite ask_map. exists ask_info. reflexivity.
  - vm_compute. reflexivity.
  - vm_compute. reflexivity.
  - unfold is_u32, PERMISSION_USER_SET. lia.
  - intros _. vm_compute. reflexivity.
  - unfold camera_granted. apply surjective_pairing.
  - destruct H as (d & En & _ & H); [vm_compute; reflexivity|vm_compute; reflexivity|].
    rewrite H by (vm_compute; reflexivity). vm_compute in En. injection En as <-. vm_compute. reflexivity.
Defined.

(** A sandbox clone of the application of [ask_world]. *)
Definition clone_params : HapInfoParams :=
  mkHapInfoParams 101 "com.example.app" 1 DLP_READ "id" 12 false false 0 false "release" false.
Definition clone_created : Z * (Z * Z) * World MemRdb MemDevice :=
  CreateHapTokenInfo (fun _ => 6) clone_params ask_policy [] ask_world.
Definition clone_token : Z := clone_created.1.2.1.

Definition clone_granted : Z * World MemRdb MemDevice :=
  set_permission (fun _ _ => true) true (fun _ => inl 0) true app_token CAMERA PERMISSION_USER_SET USER_GRANTED_PERM true clone_created.2.
Definition clone_policy : Z * World MemRdb MemDevice :=
  SetPermissionStatusWithPolicy true (fun _ => inl 0) app_token [CAMERA] PERMISSION_GRANTED PERMISSION_FIXED_BY_ADMIN_POLICY
    clone_created.2.

(** A grant is shared with the sandbox clones of an application, a policy is not.
    [GrantPermission] changes the permission of the clone along with that of the main
    application.  [SetPermissionStatusWithPolicy] goes over the same clones and passes the
    main application's token object for each of them: it succeeds, announces a change of
    the clone's token, and leaves the clone's permission and flag as they were. *)
Theorem policy_skips_sandbox_clones :
  GetRelatedSandBoxHapList app_token clone_created.2 = [clone_token] /\
  clone_granted.1 = RET_SUCCESS /\
  VerifyHapAccessToken app_token CAMERA clone_granted.2 = PERMISSION_GRANTED /\
  VerifyHapAccessToken clone_token CAMERA clone_granted.2 = PERMISSION_GRANTED /\
  clone_policy.1 = RET_SUCCESS /\
  VerifyHapAccessToken app_token CAMERA clone_policy.2 = PERMISSION_GRANTED /\
  GetPermissionFlag app_token CAMERA clone_policy.2 = inr PERMISSION_FIXED_BY_ADMIN_POLICY /\
  VerifyHapAccessToken clone_token CAMERA clone_policy.2 = PERMISSION_DENIED /\
  GetPermissionFlag clone_token CAMERA clone_policy.2 = inr PERMISSION_DEFAULT_FLAG /\
  NotifyTokenModify clone_token ∈ w_events clone_policy.2.
Proof.
  split_and!; try (vm_compute; reflexivity). apply (bool_decide_unpack _). vm_compute. exact I.
Qed.

(** A grant whose own flag carries PERMISSION_RESTRICTED_BY_ADMIN, which the checks of the flag
    let through: the store denies the permission from then on, and the bit of the device stays. *)
Definition restricted_grant : Z * World MemRdb MemDevice :=
  set_permission (fun _ _ => true) true (fun _ => inl 0) true app_token CAMERA
    (PERMISSION_USER_SET .| PERMISSION_RESTRICTED_BY_ADMIN) USER_GRANTED_PERM true camera_granted.2.
Example restricted_grant_keeps_bit :
  restricted_grant.1 = RET_SUCCESS /\ VerifyHapAccessToken app_token CAMERA restricted_grant.2 = PERMISSION_DENIED /\
  (VerifyAccessToken false 0 false app_token CAMERA restricted_grant.2).1 = PERMISSION_GRANTED.
Proof. split_and!; vm_compute; reflexivity. Qed.

End Sample.
