(* ===== verification/ClawTicket.v ===== *)
(** * Tickets of command-line tools

    services/accesstokenmanager/main/cpp/src/clawtoken/claw_ticket_manager.cpp: an
    application obtains, for each command it is about to run, a challenge that stands for the
    permissions authorised for the command; the process of the command presents the challenge
    when its token is created.  The agent fence that signs and verifies is a library outside
    the repository: [AgentFence].  Also claw_permission_status_helper.cpp and
    claw_permission_metadata_provider.cpp. *)

From stdpp Require Import base gmap list strings.
From S2P Require Import Prelude AccessTokenTypes TokenId Database PermissionMap Json Validator PermissionDataBrief IdManager UserPolicy ConstraintCheck HapTokenInfo Kernel InfoManager InfoManagerOps PermissionManager.
#[local] Open Scope string_scope.
#[local] Open Scope list_scope.
#[local] Open Scope Z_scope.
#[local] Open Scope cxx_scope.

(** ** Build switches and error numbers. *)
Class ClawConfig := {
  SAF_AGENT_FENCE_ENABLE : bool;
  ENHANCE_CAPABILITY : bool;
}.

Definition TICKET_CODE_BASE : Z := 0x19 .<< 12.
Definition ERR_TICKET_NETWORK_DISCONNECTED : Z := TICKET_CODE_BASE .| 3.
Definition ERR_TICKET_NOT_LOGGED_IN : Z := TICKET_CODE_BASE .| 4.
Definition ERROR_IPC_REQUEST_FAIL : Z := 12100017.
Definition ERR_READ_PARCEL_FAILED : Z := 12100018.
Definition ERR_WRITE_PARCEL_FAILED : Z := 12100019.
Definition ERR_TOOL_TOKEN_ALREADY_EXIST : Z := 12100200.
Definition ERR_NOT_LOGGED_IN : Z := 12100201.
Definition ERR_NETWORK_DISCONNECTED : Z := 12100202.
Definition ERR_QUERY_PERMISSION_FAILED : Z := 12100203.

(** ** Data. *)
Record CliInfo := mkCliInfo {
  cliName : string;
  subCliName : string;
}.
Record CliAuthInfo := mkCliAuthInfo {
  ca_cliInfo : CliInfo;
  ca_permissionNames : list string;
  ca_authorizationResults : list bool;
}.
Record ClawTicket := mkClawTicket {
  ct_callerTokenId : Z;
  ct_message : string;
  ct_ticket : string;
}.

(** The structures of the agent fence. *)
Record VerifyTicketInfo := mkVerifyTicketInfo {
  vt_message : string;
  vt_challenge : string;
  vt_ticket : string;
}.
Record SafCliInfo := mkSafCliInfo {
  sc_callerTokenId : string;
  sc_cliCmdName : string;
  sc_subCliCmdName : string;
  sc_permissionList : list string;
}.
Record CommandInfo := mkCommandInfo {
  cmdName : string;
  subCmd : string;
}.
Record CommandPermissionInfo := mkCommandPermissionInfo {
  cp_cmd : CommandInfo;
  cp_permissions : list string;
  cp_queryRet : Z;
}.

(** The calls of the agent fence, its result codes first. *)
Class AgentFence := {
  SAF_ERR_IPC_WRITE_DATA_FAIL : Z;
  SAF_ERR_IPC_READ_DATA_FAIL : Z;
  SAF_ERR_IPC_SEND_REQUEST_FAIL : Z;
  SAF_ERR_IPC_PROXY_FAIL : Z;
  SAF_ERR_IPC_ERROR : Z;
  SAF_ERR_IPC_INVALID_IPC_CODE : Z;
  SAF_ERR_SERVICE_UNAVAILABLE : Z;
  SAF_ERR_SERVICE_IS_STOPPING : Z;
  BatchQueryCommandPermission : list CommandInfo -> Z * list CommandPermissionInfo;
  BatchGenerateTicket : Z -> string -> list string -> Z * list VerifyTicketInfo;
  BatchVerifyTicket : Z -> string -> list VerifyTicketInfo -> Z * list Z;
  VerifyTicket : Z -> string -> string -> Z * list SafCliInfo;
}.

(** ** The message of a ticket. *)
Section Message.
Context `{!JsonText}.

Definition SerializeCliAuthInfo (cliAuth : CliAuthInfo) : string :=
  let cliInfoObj := AddStringToJson CreateJson "cliName" (cliName (ca_cliInfo cliAuth)) in
  let cliInfoObj := AddStringToJson cliInfoObj "subCliName" (subCliName (ca_cliInfo cliAuth)) in
  let cliObj := AddObjToJson CreateJson "cliInfo" cliInfoObj in
  let permNamesArr := fold_left AddStringToArray (ca_permissionNames cliAuth) CreateJsonArray in
  let cliObj := AddObjToJson cliObj "permissionNames" permNamesArr in
  let permStatusArr :=
    fold_left (fun arr (status : bool) => AddStringToArray arr (if status then "true" else "false"))
      (ca_authorizationResults cliAuth) CreateJsonArray in
  PackJsonToString (AddObjToJson cliObj "authorizationResults" permStatusArr).

(** The strings among the items of an array; a string is built from a C string. *)
Definition string_items (items : list Json) : list string :=
  omap (fun item => match item with JString s => Some (c_str s) | _ => None end) items.

Definition DeserializeCliAuthInfo (json : string) : bool * CliAuthInfo :=
  let empty := mkCliAuthInfo (mkCliInfo "" "") [] [] in
  if str_empty json then (false, empty)
  else
    match CreateJsonFromString json with
    | None => (false, empty)
    | Some root =>
        let cliInfo :=
          match GetObjFromJson root "cliInfo" with
          | Some cliInfoObj =>
              mkCliInfo (GetStringFromJson cliInfoObj "cliName" "").2 (GetStringFromJson cliInfoObj "subCliName" "").2
          | None => mkCliInfo "" ""
          end in
        let permissionNames :=
          match GetArrayFromJson root "permissionNames" with Some l => string_items l | None => [] end in
        let authorizationResults :=
          match GetArrayFromJson root "authorizationResults" with
          | Some l => map (fun s => String.eqb s "true") (string_items l)
          | None => []
          end in
        let cliAuth := mkCliAuthInfo cliInfo permissionNames authorizationResults in
        (bool_decide (length permissionNames = length authorizationResults), cliAuth)
    end.

End Message.

Definition LEGACY_CHALLENGE_PREFIX : string := "legacy:".
Definition IsLegacyChallenge (challenge : string) : bool := String.prefix LEGACY_CHALLENGE_PREFIX challenge.
Definition NormalizeLegacyChallenge (challenge : string) : string :=
  if negb (IsLegacyChallenge challenge) then challenge
  else str_drop (String.length LEGACY_CHALLENGE_PREFIX) challenge.
Definition WrapLegacyChallenge (challenge : string) : string := LEGACY_CHALLENGE_PREFIX +:+ challenge.

Definition IsCliInfoMatched (expectedCliInfo actualCliInfo : CliInfo) : bool :=
  String.eqb (cliName expectedCliInfo) (cliName actualCliInfo) &&
  String.eqb (subCliName expectedCliInfo) (subCliName actualCliInfo).

Definition IsReturnedCliInfoMatched (verifyCliInfo : SafCliInfo) (hostTokenId : Z) (cliInfo : CliInfo) : bool :=
  if negb (String.eqb (sc_callerTokenId verifyCliInfo) (to_string hostTokenId)) then false
  else String.eqb (sc_cliCmdName verifyCliInfo) (cliName cliInfo) &&
       String.eqb (sc_subCliCmdName verifyCliInfo) (subCliName cliInfo).

(** The first occurrence of each value stays. *)
Fixpoint StableUnique_loop (seen : gset string) (values : list string) : list string :=
  match values with
  | [] => []
  | value :: rest =>
      if bool_decide (value ∈ seen) then StableUnique_loop seen rest
      else value :: StableUnique_loop ({[value]} ∪ seen) rest
  end.
Definition StableUnique (values : list string) : list string := StableUnique_loop ∅ values.

(** A status with the default fields of the structure. *)
Definition ticket_status (permissionName : string) (granted : bool) : PermissionStatus :=
  mkPermissionStatus 0 permissionName "" (if granted then PERMISSION_GRANTED else PERMISSION_DENIED) PERMISSION_DEFAULT_FLAG 0.

Section Fence.
Context {PT : PermTable} {CC : ClawConfig} {AF : AgentFence} {JT : JsonText}.

Definition TransferErrorCode (ret : Z) : Z :=
  if ret =? ERR_TICKET_NOT_LOGGED_IN then ERR_NOT_LOGGED_IN
  else if ret =? ERR_TICKET_NETWORK_DISCONNECTED then ERR_NETWORK_DISCONNECTED
  else if negb SAF_AGENT_FENCE_ENABLE then ret
  else if ret =? SAF_ERR_IPC_WRITE_DATA_FAIL then ERR_WRITE_PARCEL_FAILED
  else if ret =? SAF_ERR_IPC_READ_DATA_FAIL then ERR_READ_PARCEL_FAILED
  else if (ret =? SAF_ERR_IPC_SEND_REQUEST_FAIL) || (ret =? SAF_ERR_IPC_PROXY_FAIL) || (ret =? SAF_ERR_IPC_ERROR) ||
          (ret =? SAF_ERR_IPC_INVALID_IPC_CODE) then ERROR_IPC_REQUEST_FAIL
  else if (ret =? SAF_ERR_SERVICE_UNAVAILABLE) || (ret =? SAF_ERR_SERVICE_IS_STOPPING) then ERR_SERVICE_ABNORMAL
  else ret.

(** ** claw_permission_metadata_provider.cpp. *)
Definition CheckClawCliControlPermission (clawTokenId : Z) : Z :=
  if clawTokenId =? INVALID_TOKENID then ERR_PERMISSION_DENIED else RET_SUCCESS.

Definition TransferQueryRet (queryRet : Z) : Z :=
  if queryRet =? 1 then ERR_PARAM_INVALID else ERR_QUERY_PERMISSION_FAILED.

Fixpoint GetCliCallablePermissions_loop (permissionInfos : list CommandPermissionInfo) (cliPermissions : list (list string))
    : Z * list (list string) :=
  match permissionInfos with
  | [] => (RET_SUCCESS, cliPermissions)
  | permissionInfo :: rest =>
      if negb (cp_queryRet permissionInfo =? RET_SUCCESS) then (TransferQueryRet (cp_queryRet permissionInfo), cliPermissions)
      else GetCliCallablePermissions_loop rest (cliPermissions ++ [StableUnique (cp_permissions permissionInfo)])
  end.
Definition GetCliCallablePermissions (cliInfoList : list CliInfo) : Z * list (list string) :=
  if negb SAF_AGENT_FENCE_ENABLE then (RET_SUCCESS, [])
  else
    let cmds := map (fun c => mkCommandInfo (cliName c) (subCliName c)) cliInfoList in
    let '(ret, permissionInfos) := BatchQueryCommandPermission cmds in
    if negb (ret =? RET_SUCCESS) then (TransferErrorCode ret, [])
    else if negb (bool_decide (length permissionInfos = length cliInfoList)) then (ERR_PERMISSION_NOT_EXIST, [])
    else GetCliCallablePermissions_loop permissionInfos [].

Definition GetRequiredCliPermissions (cliInfo : CliInfo) : Z * list string :=
  if negb SAF_AGENT_FENCE_ENABLE then (RET_SUCCESS, [])
  else
    let '(ret, permissionInfos) := BatchQueryCommandPermission [mkCommandInfo (cliName cliInfo) (subCliName cliInfo)] in
    if negb (ret =? RET_SUCCESS) then (TransferErrorCode ret, [])
    else
      match permissionInfos with
      | [] => (ERR_PERMISSION_NOT_EXIST, [])
      | permissionInfo :: _ =>
          if negb (cp_queryRet permissionInfo =? RET_SUCCESS) then (TransferQueryRet (cp_queryRet permissionInfo), [])
          else (RET_SUCCESS, StableUnique (cp_permissions permissionInfo))
      end.

Definition GetUsedPermissionsByCliPermission (requiredCliPermission : string) : Z * list string :=
  if str_empty requiredCliPermission then (ERR_PARAM_INVALID, [])
  else
    match QueryRequredPermissions requiredCliPermission with
    | None =>
        if negb (IsDefinedPermissionInner requiredCliPermission) then (ERR_PERMISSION_NOT_EXIST, [])
        else (RET_SUCCESS, [requiredCliPermission])
    | Some usedPermissions => (RET_SUCCESS, StableUnique usedPermissions)
    end.

(** The statuses the permissions behind one command-line permission add. *)
Fixpoint append_granted (usedPermissions : list string) (grantedPermissionSet : gset string) (permList : list PermissionStatus)
    : gset string * list PermissionStatus :=
  match usedPermissions with
  | [] => (grantedPermissionSet, permList)
  | permissionName :: rest =>
      if bool_decide (permissionName ∈ grantedPermissionSet) then append_granted rest grantedPermissionSet permList
      else append_granted rest ({[permissionName]} ∪ grantedPermissionSet) (permList ++ [ticket_status permissionName true])
  end.
Definition AppendGrantedPermissionsByCliPermission (requiredCliPermission : string) (grantedPermissionSet : gset string)
    (permList : list PermissionStatus) : Z * gset string * list PermissionStatus :=
  let '(ret, usedPermissions) := GetUsedPermissionsByCliPermission requiredCliPermission in
  if negb (ret =? RET_SUCCESS) then (ret, grantedPermissionSet, permList)
  else let '(grantedPermissionSet, permList) := append_granted usedPermissions grantedPermissionSet permList in
       (RET_SUCCESS, grantedPermissionSet, permList).

Fixpoint append_cli_permissions (cliPermissions : list string) (grantedPermissionSet : gset string)
    (permList : list PermissionStatus) : Z * list PermissionStatus :=
  match cliPermissions with
  | [] => (RET_SUCCESS, permList)
  | requiredCliPermission :: rest =>
      let '(ret, grantedPermissionSet, permList) :=
        AppendGrantedPermissionsByCliPermission requiredCliPermission grantedPermissionSet permList in
      if negb (ret =? RET_SUCCESS) then (ret, permList) else append_cli_permissions rest grantedPermissionSet permList
  end.
End Fence.

(** ** The ticket manager.  Its state is [ticketMap_], keyed by the raw challenge. *)
Section TicketManager.
Context {PT : PermTable} {BC : BuildConfig} {CC : ClawConfig} {AF : AgentFence} {JT : JsonText}.
Context {S K : Type} `{!AtmDb S} `{!TokenDevice K}.
Implicit Types (w : World S K) (ticketMap : gmap string ClawTicket).

Definition GetUserIdByTokenId (callerTokenId : Z) w : Z * World S K :=
  match GetHapTokenInfoInner callerTokenId w with
  | (None, w) => (-1, w)
  | (Some hapInfo, w) => (hti_userID (tokenInfoBasic_ hapInfo), w)
  end.

(** The loop over the tickets: the challenges handed out and the map. *)
Fixpoint store_tickets (callerTokenId : Z) (tickets : list VerifyTicketInfo) (authResults : list string) ticketMap
    : list string * gmap string ClawTicket :=
  match tickets with
  | [] => (authResults, ticketMap)
  | t :: rest =>
      if str_empty (vt_challenge t) then store_tickets callerTokenId rest (authResults ++ [""]) ticketMap
      else store_tickets callerTokenId rest (authResults ++ [WrapLegacyChallenge (vt_challenge t)])
             (<[vt_challenge t := mkClawTicket callerTokenId (vt_message t) (vt_ticket t)]> ticketMap)
  end.

Definition GenerateCliTicket (callerTokenId : Z) (cliAuthInfos : list CliAuthInfo) (authResults : list string) ticketMap w
    : Z * list string * gmap string ClawTicket * World S K :=
  if callerTokenId =? INVALID_TOKENID then (ERR_TOKEN_INVALID, authResults, ticketMap, w)
  else
    let '(userId, w) := GetUserIdByTokenId callerTokenId w in
    if userId <? 0 then (ERR_TOKENID_NOT_EXIST, authResults, ticketMap, w)
    else
      let messages := map SerializeCliAuthInfo cliAuthInfos in
      if negb SAF_AGENT_FENCE_ENABLE then (RET_SUCCESS, authResults, ticketMap, w)
      else
        let '(ret, tickets) := BatchGenerateTicket userId (to_string callerTokenId) messages in
        if negb (ret =? RET_SUCCESS) then (TransferErrorCode ret, authResults, ticketMap, w)
        else
          let '(authResults, ticketMap) := store_tickets callerTokenId tickets authResults ticketMap in
          (RET_SUCCESS, authResults, ticketMap, w).

(** The ticket with the information to verify and the results. *)
Definition PrepareVerifiedTicketInfo (hostTokenId : Z) (challenge : string) ticketMap w
    : (Z + (ClawTicket * list VerifyTicketInfo * list Z)) * World S K :=
  match ticketMap !! challenge with
  | None => (inl ERR_PARAM_INVALID, w)
  | Some ticket =>
      let '(userId, w) := GetUserIdByTokenId hostTokenId w in
      if userId <? 0 then (inl ERR_TOKENID_NOT_EXIST, w)
      else
        let verifyInfos := [mkVerifyTicketInfo (ct_message ticket) challenge (ct_ticket ticket)] in
        let '(ret, verifyRes) := BatchVerifyTicket userId (to_string hostTokenId) verifyInfos in
        if negb (ret =? RET_SUCCESS) then (inl (TransferErrorCode ret), w)
        else if negb (bool_decide (length verifyInfos = length verifyRes)) then (inl ERR_PARAM_INVALID, w)
        else (inr (ticket, verifyInfos, verifyRes), w)
  end.

Fixpoint legacy_tickets (cliInfo : CliInfo) (infos : list (VerifyTicketInfo * Z)) (permList : list PermissionStatus)
    : Z * list PermissionStatus :=
  match infos with
  | [] => (RET_SUCCESS, permList)
  | (info, res) :: rest =>
      let ticketValid := res =? 0 in
      let '(ok, cliAuth) := DeserializeCliAuthInfo (vt_message info) in
      if negb ok then (ERR_PARAM_INVALID, permList)
      else if negb (IsCliInfoMatched cliInfo (ca_cliInfo cliAuth)) then (ERR_PARAM_INVALID, permList)
      else
        legacy_tickets cliInfo rest
          (permList ++ map (fun nr : string * bool => ticket_status nr.1 (ticketValid && nr.2))
             (combine (ca_permissionNames cliAuth) (ca_authorizationResults cliAuth)))
  end.

Definition VerifyCliClawTicketLegacy (hostTokenId : Z) (challenge : string) (cliInfo : CliInfo) (permList : list PermissionStatus)
    ticketMap w : Z * list PermissionStatus * World S K :=
  match PrepareVerifiedTicketInfo hostTokenId challenge ticketMap w with
  | (inl ret, w) => (ret, permList, w)
  | (inr (ticket, verifyInfos, verifyRes), w) =>
      if negb (hostTokenId =? ct_callerTokenId ticket) then (ERR_PARAM_INVALID, permList, w)
      else let '(ret, permList) := legacy_tickets cliInfo (combine verifyInfos verifyRes) permList in (ret, permList, w)
  end.

Definition VerifyCliClawTicketByVerifyInfo (hostTokenId : Z) (challenge : string) (cliInfo : CliInfo)
    (permList : list PermissionStatus) w : Z * list PermissionStatus * World S K :=
  let '(userId, w) := GetUserIdByTokenId hostTokenId w in
  if userId <? 0 then (ERR_TOKENID_NOT_EXIST, permList, w)
  else
    let '(ret, verifiedCliInfos) := VerifyTicket userId (to_string hostTokenId) challenge in
    if negb (ret =? RET_SUCCESS) then (TransferErrorCode ret, permList, w)
    else
      let matched := filter (fun v => IsReturnedCliInfoMatched v hostTokenId cliInfo = true) verifiedCliInfos in
      if bool_decide (matched = []) then (ERR_PARAM_INVALID, permList, w)
      else
        let grantedCliPermissions := StableUnique (concat (map sc_permissionList matched)) in
        let '(ret, permList) := append_cli_permissions grantedCliPermissions ∅ permList in
        (ret, permList, w).

Definition VerifyCliClawTicket (hostTokenId : Z) (challenge : string) (cliInfo : CliInfo) (permList : list PermissionStatus)
    ticketMap w : Z * list PermissionStatus * World S K :=
  let rawChallenge := NormalizeLegacyChallenge challenge in
  if negb ENHANCE_CAPABILITY && str_empty rawChallenge then (RET_SUCCESS, permList, w)
  else if negb SAF_AGENT_FENCE_ENABLE then (RET_SUCCESS, permList, w)
  else if IsLegacyChallenge challenge || bool_decide (is_Some (ticketMap !! rawChallenge))
  then VerifyCliClawTicketLegacy hostTokenId rawChallenge cliInfo permList ticketMap w
  else VerifyCliClawTicketByVerifyInfo hostTokenId challenge cliInfo permList w.

Definition DeleteClawTicket (challenge : string) ticketMap : Z * gmap string ClawTicket :=
  let rawChallenge := NormalizeLegacyChallenge challenge in
  if str_empty rawChallenge then (ERR_PARAM_INVALID, ticketMap)
  else match ticketMap !! rawChallenge with
       | None => (ERR_PARAM_INVALID, ticketMap)
       | Some _ => (RET_SUCCESS, delete rawChallenge ticketMap)
       end.

Definition DeleteClawTicketByCallerTokenId (callerTokenId : Z) ticketMap : gmap string ClawTicket :=
  let challengesToDelete :=
    map fst (filter (fun e : string * ClawTicket => ct_callerTokenId e.2 = callerTokenId) (map_to_list ticketMap)) in
  fold_left (fun m c => delete c m) challengesToDelete ticketMap.

(** The observer of applications. *)
Definition APP_STATE_TERMINATED : Z := 5.
Definition OnAppStopped (state accessTokenId : Z) ticketMap : gmap string ClawTicket :=
  if state =? APP_STATE_TERMINATED then DeleteClawTicketByCallerTokenId accessTokenId ticketMap else ticketMap.

End TicketManager.
