(* ===== verification/ToolToken.v ===== *)
(** * Tokens of command-line tools

    services/accesstokenmanager/main/cpp/src/clawtoken/claw_token_info_manager.cpp with
    claw_token_info_inner_base.cpp and cli_token_info_inner.cpp: the token of the process of
    a command, created from the ticket the process presents.  Creation runs under the lock of
    the service; a deletion goes through two critical sections with the kernel call between
    them, modelled as two steps. *)

From stdpp Require Import base gmap list strings.
From S2P Require Import Prelude AccessTokenTypes TokenId Database PermissionMap Json Validator PermissionDataBrief IdManager UserPolicy ConstraintCheck HapTokenInfo Kernel InfoManager InfoManagerOps PermissionManager ClawTicket.
#[local] Open Scope string_scope.
#[local] Open Scope list_scope.
#[local] Open Scope Z_scope.
#[local] Open Scope cxx_scope.

Definition ERR_KERNEL_OPERATION_FAILED : Z := 12100045.
Definition MAX_CHALLENGE_LENGTH : Z := 40960.
Definition MAX_CLAW_SUB_CLI_NAME_LEN : Z := 256.

Inductive ToolTokenType := CLI | SKILL.

Record ClawTokenBaseInfo := mkClawTokenBaseInfo {
  cb_toolType : ToolTokenType;
  cb_hostTokenId : Z;
  cb_userId : Z;
  cb_callerPid : Z;
  cb_tokenId : Z;
  cb_tokenAttr : Z;
  cb_challenge : string;
}.
(** [CliTokenInfoInner]: the base with its command. *)
Record CliTokenInfoInner := mkCliTokenInfoInner {
  baseInfo : ClawTokenBaseInfo;
  info : CliInfo;
}.
Record CliInitInfo := mkCliInitInfo {
  ci_hostTokenId : Z;
  ci_challenge : string;
  ci_cliInfo : CliInfo;
}.

(** The members of [ToolTokenInfoManager]. *)
Record ToolMgr := mkToolMgr {
  toolTokenInfoMap : gmap Z CliTokenInfoInner;
  hostToolTokenMap : gmap Z (gset Z);
  pidToolTokenMap : gmap Z Z;
  deletingToolTokenIdSet : gset Z;
}.
Definition set_deleting (s : gset Z) (m : ToolMgr) : ToolMgr :=
  mkToolMgr (toolTokenInfoMap m) (hostToolTokenMap m) (pidToolTokenMap m) s.

Definition IsPermissionRestrictedByAdminFlag (flag : Z) : bool := nz (flag .& PERMISSION_RESTRICTED_BY_ADMIN).
Definition GetTokenTypeByToolType (toolType : ToolTokenType) : Z :=
  match toolType with CLI => TOKEN_SHELL | SKILL => TOKEN_HAP end.

(** ** The maps. *)
Definition AddToolTokenInfoLocked (inner : CliTokenInfoInner) (m : ToolMgr) : Z * ToolMgr :=
  let callerPid := cb_callerPid (baseInfo inner) in
  if callerPid <? 0 then (ERR_PARAM_INVALID, m)
  else if bool_decide (is_Some (pidToolTokenMap m !! callerPid)) then (ERR_TOOL_TOKEN_ALREADY_EXIST, m)
  else
    let tokenId := cb_tokenId (baseInfo inner) in
    let hostTokenId := cb_hostTokenId (baseInfo inner) in
    (RET_SUCCESS,
     mkToolMgr (<[tokenId := inner]> (toolTokenInfoMap m))
       (<[hostTokenId := {[tokenId]} ∪ default ∅ (hostToolTokenMap m !! hostTokenId)]> (hostToolTokenMap m))
       (<[callerPid := tokenId]> (pidToolTokenMap m)) (deletingToolTokenIdSet m)).

Definition RemoveToolTokenInfoLocked (tokenId : Z) (m : ToolMgr) : option CliTokenInfoInner * ToolMgr :=
  match toolTokenInfoMap m !! tokenId with
  | None => (None, m)
  | Some inner =>
      let hostTokenId := cb_hostTokenId (baseInfo inner) in
      let hosts :=
        match hostToolTokenMap m !! hostTokenId with
        | Some owned =>
            let owned := owned ∖ {[tokenId]} in
            if bool_decide (owned = ∅) then delete hostTokenId (hostToolTokenMap m)
            else <[hostTokenId := owned]> (hostToolTokenMap m)
        | None => hostToolTokenMap m
        end in
      let callerPid := cb_callerPid (baseInfo inner) in
      let pids :=
        match pidToolTokenMap m !! callerPid with
        | Some t => if t =? tokenId then delete callerPid (pidToolTokenMap m) else pidToolTokenMap m
        | None => pidToolTokenMap m
        end in
      (Some inner, mkToolMgr (delete tokenId (toolTokenInfoMap m)) hosts pids (deletingToolTokenIdSet m))
  end.

Definition IsToolToken (tokenId : Z) (m : ToolMgr) : bool := bool_decide (is_Some (toolTokenInfoMap m !! tokenId)).

Definition GetHostTokenId (toolTokenId : Z) (m : ToolMgr) : Z + Z :=
  if negb (IsToolTokenId toolTokenId) then inl ERR_PARAM_INVALID
  else match toolTokenInfoMap m !! toolTokenId with
       | None => inl ERR_TOKENID_NOT_EXIST
       | Some inner =>
           let hostTokenId := cb_hostTokenId (baseInfo inner) in
           if hostTokenId =? INVALID_TOKENID then inl ERR_PARAM_INVALID else inr hostTokenId
       end.
Definition GetUserId (toolTokenId : Z) (m : ToolMgr) : Z + Z :=
  if negb (IsToolTokenId toolTokenId) then inl ERR_PARAM_INVALID
  else match toolTokenInfoMap m !! toolTokenId with
       | None => inl ERR_TOKENID_NOT_EXIST
       | Some inner => inr (cb_userId (baseInfo inner))
       end.
Definition GetToolTokenIDByUserID (userId : Z) (m : ToolMgr) : list Z :=
  map fst (filter (fun e : Z * CliTokenInfoInner => cb_userId (baseInfo e.2) = userId) (map_items (toolTokenInfoMap m))).

(** ** Checks of the request. *)
Definition NormalizeChallengeForValidation (challenge : string) : string := NormalizeLegacyChallenge challenge.
Definition CheckCliInfo (i : CliInfo) : bool :=
  if negb (IsProcessNameValid (cliName i)) then false
  else if negb (str_empty (subCliName i)) && (MAX_CLAW_SUB_CLI_NAME_LEN <? Z.of_nat (String.length (subCliName i)))
  then false else true.
Definition CheckToolInitCommonInput (hostTokenId : Z) (challenge : string) : bool :=
  if hostTokenId =? INVALID_TOKENID then false
  else
    let rawChallenge := NormalizeChallengeForValidation challenge in
    if negb (str_empty rawChallenge) && (MAX_CHALLENGE_LENGTH <? Z.of_nat (String.length rawChallenge)) then false else true.

Section Lists.
Context {PT : PermTable} {BC : BuildConfig}.

(** The permissions granted to the process that the kernel enforces itself. *)
Definition BuildGrantedKernelPermList (toolType : ToolTokenType) (permStateList : list PermissionStatus) : list string :=
  omap (fun permState =>
    if negb (ps_grantStatus permState =? PERMISSION_GRANTED) || IsPermissionRestrictedByAdminFlag (ps_grantFlag permState)
    then None
    else match GetPermissionBriefDef_name (ps_permissionName permState) with
         | Some briefDef => if pbd_isKernelEffect briefDef then Some (ps_permissionName permState) else None
         | None => None
         end) (FilterInvalidPermissionState (GetTokenTypeByToolType toolType) true permStateList).

Definition BuildPermStatusList (toolType : ToolTokenType) (permStateList : list PermissionStatus) : list Z * list bool :=
  split (omap (fun permState =>
    match TransferPermissionToOpcode (ps_permissionName permState) with
    | None => None
    | Some opCode =>
        Some (opCode, (ps_grantStatus permState =? PERMISSION_GRANTED) &&
                      negb (IsPermissionRestrictedByAdminFlag (ps_grantFlag permState)))
    end) (FilterInvalidPermissionState (GetTokenTypeByToolType toolType) true permStateList)).
End Lists.

(** ** The whole state. *)
Record ToolState (S K : Type) := mkToolState {
  t_world : World S K;
  t_tools : ToolMgr;
  t_tickets : gmap string ClawTicket;
}.
#[global] Arguments mkToolState {S K}.
#[global] Arguments t_world {S K}.
#[global] Arguments t_tools {S K}.
#[global] Arguments t_tickets {S K}.

Section ToolManager.
Context {PT : PermTable} {BC : BuildConfig} {CC : ClawConfig} {AF : AgentFence} {JT : JsonText}.
Context {S K : Type} `{!AtmDb S} `{!TokenDevice K}.
Context (parentHapToken : Z -> Z + Z).
Implicit Types (w : World S K) (t : ToolState S K).

Definition on_world (f : World S K -> World S K) t : ToolState S K := mkToolState (f (t_world t)) (t_tools t) (t_tickets t).

(** [~ClawTokenInfoInnerBase]. *)
Definition drop_tool (b : ClawTokenBaseInfo) w : World S K :=
  if negb (cb_tokenId b =? INVALID_TOKENID)
  then set_brief (DeleteBriefPermDataByTokenId (cb_tokenId b) (w_brief w)).2 w else w.

Definition GetUserIdByHostTokenId (hostTokenId : Z) w : (Z + Z) * World S K :=
  match GetHapTokenInfo parentHapToken hostTokenId w with
  | (inl ret, w) => (inl ret, w)
  | (inr hapTokenInfo, w) => (inr (hti_userID hapTokenInfo), w)
  end.

Definition CreateToolTokenId (rands : nat -> Z) (type : ToolTokenType) w : Z * World S K :=
  let '(tokenId, ids) := CreateAndRegisterTokenId rands (GetTokenTypeByToolType type) 0 0 1 (w_ids w) in
  (tokenId, set_ids ids w).

Definition VerifyCliInitInputAndTicket (i : CliInitInfo) t : Z * list PermissionStatus * ToolState S K :=
  if negb (CheckCliInfo (ci_cliInfo i)) || negb (CheckToolInitCommonInput (ci_hostTokenId i) (ci_challenge i))
  then (ERR_PARAM_INVALID, [], t)
  else
    let '(ret, permStateList, w) :=
      VerifyCliClawTicket (ci_hostTokenId i) (ci_challenge i) (ci_cliInfo i) [] (t_tickets t) (t_world t) in
    (ret, permStateList, mkToolState w (t_tools t) (t_tickets t)).

Definition BuildToolTokenBaseInfo (rands : nat -> Z) (hostTokenId callerPid : Z) (type : ToolTokenType) (challenge : string) w
    : (Z + ClawTokenBaseInfo) * World S K :=
  match GetUserIdByHostTokenId hostTokenId w with
  | (inl ret, w) => (inl ret, w)
  | (inr userId, w) =>
      let '(tokenId, w) := CreateToolTokenId rands type w in
      if tokenId =? INVALID_TOKENID then (inl ERR_TOKENID_CREATE_FAILED, w)
      else (inr (mkClawTokenBaseInfo type hostTokenId userId callerPid tokenId 0 challenge), w)
  end.

(** [CliTokenInfoInner::Init], which cannot fail. *)
Definition CliInit (b : ClawTokenBaseInfo) (i : CliInfo) (permStateList : list PermissionStatus) w
    : CliTokenInfoInner * World S K :=
  (mkCliTokenInfoInner b i, set_brief (AddPermToBriefPermission (cb_tokenId b) permStateList ∅ true (w_brief w)) w).

(** The code, [kernelPermList] and the state. *)
Definition FinalizeToolTokenInit (inner : CliTokenInfoInner) (permStateList : list PermissionStatus) t
    : Z * list string * ToolState S K :=
  let b := baseInfo inner in
  let kernelPermList := BuildGrantedKernelPermList (cb_toolType b) permStateList in
  let '(opCodeList, statusList) := BuildPermStatusList (cb_toolType b) permStateList in
  let '(ret, k) := AddNativePermToKernel (w_kernel (t_world t)) (cb_tokenId b) opCodeList statusList in
  let t := on_world (set_kernel k) t in
  let release w := set_ids (ReleaseTokenId (cb_tokenId b) (w_ids w)) w in
  if negb (ret =? RET_SUCCESS) then (ERR_KERNEL_OPERATION_FAILED, kernelPermList, on_world release t)
  else
    let '(ret, tools) := AddToolTokenInfoLocked inner (t_tools t) in
    let t := mkToolState (t_world t) tools (t_tickets t) in
    if negb (ret =? RET_SUCCESS) then
      let '(removeRet, k) := RemovePermFromKernel (w_kernel (t_world t)) (cb_tokenId b) in
      let t := on_world (set_kernel k) t in
      if negb (removeRet =? RET_SUCCESS) then (ERR_KERNEL_OPERATION_FAILED, kernelPermList, t)
      else (ret, kernelPermList, on_world release t)
    else
      (RET_SUCCESS, kernelPermList,
       mkToolState (t_world t) (t_tools t) (DeleteClawTicket (cb_challenge b) (t_tickets t)).2).

(** The code, the token id, [kernelPermList] and the state; the object of a token that was
    not added ends with the call. *)
Definition InitCliToken (rands : nat -> Z) (i : CliInitInfo) (callerPid : Z) t : Z * Z * list string * ToolState S K :=
  let '(ret, permStateList, t) := VerifyCliInitInputAndTicket i t in
  if negb (ret =? RET_SUCCESS) then (ret, 0, [], t)
  else
    match BuildToolTokenBaseInfo rands (ci_hostTokenId i) callerPid CLI (ci_challenge i) (t_world t) with
    | (inl ret, w) => (ret, 0, [], mkToolState w (t_tools t) (t_tickets t))
    | (inr b, w) =>
        let permStateList := UpdatePermissionStatusListForUserPolicy (cb_tokenId b) (cb_userId b) (w_policies w) permStateList in
        let '(inner, w) := CliInit b (ci_cliInfo i) permStateList w in
        let '(ret, kernelPermList, t) := FinalizeToolTokenInit inner permStateList (mkToolState w (t_tools t) (t_tickets t)) in
        if negb (ret =? RET_SUCCESS) then (ret, 0, [], on_world (drop_tool b) t)
        else (RET_SUCCESS, cb_tokenId b, kernelPermList, t)
    end.

(** ** Deletion, up to the kernel call and after it. *)
Definition DeleteToolToken_begin (pid : Z) t : (Z + Z) * ToolState S K :=
  let m := t_tools t in
  match pidToolTokenMap m !! pid with
  | None => (inl ERR_TOKENID_NOT_EXIST, t)
  | Some tokenId =>
      if bool_decide (tokenId ∈ deletingToolTokenIdSet m) then (inl ERR_TOKENID_NOT_EXIST, t)
      else (inr tokenId, mkToolState (t_world t) (set_deleting ({[tokenId]} ∪ deletingToolTokenIdSet m) m) (t_tickets t))
  end.
Definition DeleteToolToken_end (pid tokenId : Z) t : Z * ToolState S K :=
  let '(ret, k) := RemovePermFromKernel (w_kernel (t_world t)) tokenId in
  let t := on_world (set_kernel k) t in
  let m := t_tools t in
  if negb (ret =? RET_SUCCESS)
  then (ERR_KERNEL_OPERATION_FAILED, mkToolState (t_world t) (set_deleting (deletingToolTokenIdSet m ∖ {[tokenId]}) m) (t_tickets t))
  else
    let '(inner, m) :=
      match pidToolTokenMap m !! pid with
      | Some x => if x =? tokenId then RemoveToolTokenInfoLocked tokenId m else (None, m)
      | None => (None, m)
      end in
    let m := set_deleting (deletingToolTokenIdSet m ∖ {[tokenId]}) m in
    let t := mkToolState (t_world t) m (t_tickets t) in
    match inner with
    | None => (RET_SUCCESS, t)
    | Some inner =>
        (RET_SUCCESS, on_world (fun w => drop_tool (baseInfo inner) (set_ids (ReleaseTokenId tokenId (w_ids w)) w)) t)
    end.
Definition DeleteToolTokenByPid (pid : Z) t : Z * ToolState S K :=
  match DeleteToolToken_begin pid t with
  | (inl ret, t) => (ret, t)
  | (inr tokenId, t) => DeleteToolToken_end pid tokenId t
  end.

Definition VerifyToolAccessToken (tokenId : Z) (permissionName : string) t : Z :=
  match toolTokenInfoMap (t_tools t) !! tokenId with
  | None => PERMISSION_DENIED
  | Some inner => VerifyPermissionStatus (cb_tokenId (baseInfo inner)) permissionName (w_brief (t_world t))
  end.

End ToolManager.
