(* ===== verification/ClawDecision.v ===== *)
(** * What a command-line tool may do

    claw_permission_decision_engine.cpp and claw_permission_status_helper.cpp: from the
    permission states of the application that runs commands, what each command needs and
    whether the user has to be asked. *)

From stdpp Require Import base gmap list strings.
From S2P Require Import Prelude AccessTokenTypes TokenId Database PermissionMap Json Validator PermissionDataBrief IdManager UserPolicy ConstraintCheck HapTokenInfo Kernel InfoManager InfoManagerOps PermissionManager ClawTicket.
#[local] Open Scope string_scope.
#[local] Open Scope list_scope.
#[local] Open Scope Z_scope.
#[local] Open Scope cxx_scope.

Inductive PermissionDecisionStatus :=
  | NEED_PERMISSION_DIALOG
  | NO_DIALOG_DENIED
  | NO_DIALOG_RESTRICTED
  | NO_DIALOG_GRANTED
  | NO_DIALOG_NOT_DECLARED
  | NO_DIALOG_CLI_PERMISSION_RESOLVED.
#[export] Instance PermissionDecisionStatus_eq_dec : EqDecision PermissionDecisionStatus.
Proof. solve_decision. Defined.

Record PermissionDialogDetail := mkPermissionDialogDetail {
  needPermissionDialog : bool;
  permissionNameList : list string;
  statusList : list PermissionDecisionStatus;
  authResult : string;
}.
Definition set_needDialog (b : bool) (d : PermissionDialogDetail) : PermissionDialogDetail :=
  mkPermissionDialogDetail b (permissionNameList d) (statusList d) (authResult d).
Definition default_detail : PermissionDialogDetail := mkPermissionDialogDetail false [] [] "".

Record CliPermissionDetail := mkCliPermissionDetail {
  cd_requiredCliPermission : string;
  cd_cliPermissionStatus : PermissionDecisionStatus;
  cd_usedPermissions : list string;
}.

(** ** claw_permission_status_helper.cpp. *)
Definition IsUserDeniedFlag (flag : Z) : bool := nz (flag .& PERMISSION_USER_FIXED).
Definition RESTRICTED_FLAGS : Z :=
  PERMISSION_SYSTEM_FIXED .| PERMISSION_FIXED_FOR_SECURITY_POLICY .| PERMISSION_FIXED_BY_ADMIN_POLICY.
Definition IsRestrictedFlag (flag : Z) : bool := nz (flag .& RESTRICTED_FLAGS).
Definition IsAllowThisTimeFlag (flag : Z) : bool := nz (flag .& PERMISSION_ALLOW_THIS_TIME).
Definition IsGrantedWithoutDialog (status : PermissionStatus) : bool :=
  (ps_grantStatus status =? PERMISSION_GRANTED) && negb (IsAllowThisTimeFlag (ps_grantFlag status)) &&
  negb (ps_grantFlag status =? PERMISSION_DEFAULT_FLAG).

Abbreviation PermissionStatusMap := (gmap string PermissionStatus).

Definition ResolveCliGrantedPermission (permissionStatusMap : PermissionStatusMap) (permissionName : string)
    (cliAuthorizationResult : bool) : bool :=
  match permissionStatusMap !! permissionName with
  | None => cliAuthorizationResult
  | Some status =>
      if IsGrantedWithoutDialog status then true
      else if IsRestrictedFlag (ps_grantFlag status) || IsUserDeniedFlag (ps_grantFlag status) then false
      else cliAuthorizationResult
  end.

(** ** The decision for one permission ([DecisionContext::GetPermissionDecisionStatus]). *)
Definition GetPermissionDecisionStatus (permissionStatusMap : PermissionStatusMap) (permissionName : string)
    (notDeclaredStatus : PermissionDecisionStatus) : PermissionDecisionStatus :=
  match permissionStatusMap !! permissionName with
  | None => notDeclaredStatus
  | Some status =>
      if IsGrantedWithoutDialog status then NO_DIALOG_GRANTED
      else if (ps_grantStatus status =? PERMISSION_GRANTED) && IsAllowThisTimeFlag (ps_grantFlag status)
      then NEED_PERMISSION_DIALOG
      else if IsRestrictedFlag (ps_grantFlag status) then NO_DIALOG_RESTRICTED
      else if IsUserDeniedFlag (ps_grantFlag status) then NO_DIALOG_DENIED
      else NEED_PERMISSION_DIALOG
  end.

Definition HasDialogPermission (permissionStatusMap : PermissionStatusMap) (permissions : list string)
    (notDeclaredStatus : PermissionDecisionStatus) : bool :=
  existsb (fun p => bool_decide (GetPermissionDecisionStatus permissionStatusMap p notDeclaredStatus = NEED_PERMISSION_DIALOG))
    permissions.

Definition AppendDialogDetailStatus (detail : PermissionDialogDetail) (permissionName : string) (status : PermissionDecisionStatus)
    : PermissionDialogDetail :=
  if bool_decide (permissionName ∈ permissionNameList detail) then detail
  else mkPermissionDialogDetail (needPermissionDialog detail) (permissionNameList detail ++ [permissionName])
         (statusList detail ++ [status]) (authResult detail).
Definition ShouldReturnDialogDetailStatus (status : PermissionDecisionStatus) : bool :=
  match status with NO_DIALOG_DENIED | NO_DIALOG_RESTRICTED | NO_DIALOG_NOT_DECLARED => true | _ => false end.
Definition HasNotDeclaredStatus (detail : PermissionDialogDetail) : bool :=
  bool_decide (NO_DIALOG_NOT_DECLARED ∈ statusList detail).

Definition GetCliPermissionResolvedStatus (context : PermissionStatusMap) (usedPermissions : list string)
    : PermissionDecisionStatus :=
  if existsb (fun p => bool_decide (GetPermissionDecisionStatus context p NEED_PERMISSION_DIALOG = NEED_PERMISSION_DIALOG))
       usedPermissions
  then NEED_PERMISSION_DIALOG else NO_DIALOG_CLI_PERMISSION_RESOLVED.

Section Engine.
Context {PT : PermTable} {CC : ClawConfig} {AF : AgentFence}.

Definition append_used (context : PermissionStatusMap) (usedPermissions : list string) (detail : PermissionDialogDetail)
    : PermissionDialogDetail :=
  fold_left (fun detail usedPermission =>
    let usedPermissionStatus := GetPermissionDecisionStatus context usedPermission NEED_PERMISSION_DIALOG in
    if bool_decide (usedPermissionStatus = NEED_PERMISSION_DIALOG) then detail
    else if ShouldReturnDialogDetailStatus usedPermissionStatus
    then AppendDialogDetailStatus detail usedPermission usedPermissionStatus else detail) usedPermissions detail.

Definition BuildCliDialogDetailByRequiredPermission (context : PermissionStatusMap) (requiredCliPermission : string)
    (detail : PermissionDialogDetail) : Z * PermissionDialogDetail :=
  let '(ret, usedPermissions) := GetUsedPermissionsByCliPermission requiredCliPermission in
  if negb (ret =? RET_SUCCESS) then (ret, detail)
  else
    let cliPermissionStatus := GetPermissionDecisionStatus context requiredCliPermission NO_DIALOG_NOT_DECLARED in
    let detail :=
      if bool_decide (cliPermissionStatus = NEED_PERMISSION_DIALOG)
      then set_needDialog (bool_decide (GetCliPermissionResolvedStatus context usedPermissions = NEED_PERMISSION_DIALOG)) detail
      else detail in
    let detail := if ShouldReturnDialogDetailStatus cliPermissionStatus
                  then AppendDialogDetailStatus detail requiredCliPermission cliPermissionStatus else detail in
    if bool_decide (cliPermissionStatus = NO_DIALOG_NOT_DECLARED) then (RET_SUCCESS, detail)
    else (RET_SUCCESS, append_used context usedPermissions detail).

(** The loop over the permissions of a command; the flag is [hasNotDeclaredRequiredPermission]. *)
Fixpoint BuildCliPermissionDialogDetail_loop (context : PermissionStatusMap) (requiredCliPermissions : list string)
    (hasNotDeclared : bool) (detail : PermissionDialogDetail) : Z * bool * PermissionDialogDetail :=
  match requiredCliPermissions with
  | [] => (RET_SUCCESS, hasNotDeclared, detail)
  | requiredCliPermission :: rest =>
      let '(ret, _) := GetUsedPermissionsByCliPermission requiredCliPermission in
      if negb (ret =? RET_SUCCESS) then (ret, hasNotDeclared, detail)
      else
        let cliPermissionStatus := GetPermissionDecisionStatus context requiredCliPermission NO_DIALOG_NOT_DECLARED in
        if bool_decide (cliPermissionStatus = NO_DIALOG_NOT_DECLARED) then
          BuildCliPermissionDialogDetail_loop context rest true
            (AppendDialogDetailStatus (set_needDialog false detail) requiredCliPermission cliPermissionStatus)
        else if hasNotDeclared then BuildCliPermissionDialogDetail_loop context rest hasNotDeclared detail
        else
          let '(ret, detail) := BuildCliDialogDetailByRequiredPermission context requiredCliPermission detail in
          if negb (ret =? RET_SUCCESS) then (ret, hasNotDeclared, detail)
          else BuildCliPermissionDialogDetail_loop context rest hasNotDeclared detail
  end.
Definition BuildCliPermissionDialogDetail (context : PermissionStatusMap) (cliInfo : CliInfo) (detail : PermissionDialogDetail)
    : Z * PermissionDialogDetail :=
  let '(ret, requiredCliPermissions) := GetRequiredCliPermissions cliInfo in
  if negb (ret =? RET_SUCCESS) then (ret, detail)
  else
    let '(ret, hasNotDeclared, detail) := BuildCliPermissionDialogDetail_loop context requiredCliPermissions false detail in
    if negb (ret =? RET_SUCCESS) then (ret, detail)
    else (RET_SUCCESS, if hasNotDeclared && HasNotDeclaredStatus detail then set_needDialog false detail else detail).

Definition BuildCliPermissionDetailByRequiredPermission (context : PermissionStatusMap) (requiredCliPermission : string)
    : Z + CliPermissionDetail :=
  let '(ret, usedPermissions) := GetUsedPermissionsByCliPermission requiredCliPermission in
  if negb (ret =? RET_SUCCESS) then inl ret
  else
    match GetPermissionDecisionStatus context requiredCliPermission NO_DIALOG_NOT_DECLARED with
    | NO_DIALOG_NOT_DECLARED => inr (mkCliPermissionDetail requiredCliPermission NO_DIALOG_NOT_DECLARED [])
    | NEED_PERMISSION_DIALOG =>
        inr (mkCliPermissionDetail requiredCliPermission (GetCliPermissionResolvedStatus context usedPermissions) usedPermissions)
    | s => inr (mkCliPermissionDetail requiredCliPermission s usedPermissions)
    end.

Fixpoint details_of (context : PermissionStatusMap) (requiredCliPermissions : list string) : Z + list CliPermissionDetail :=
  match requiredCliPermissions with
  | [] => inr []
  | r :: rest =>
      match BuildCliPermissionDetailByRequiredPermission context r with
      | inl ret => inl ret
      | inr detail => match details_of context rest with inl ret => inl ret | inr l => inr (detail :: l) end
      end
  end.

Definition ValidateClawCliAccess (clawTokenId : Z) (cliInfoList : list CliInfo) : Z :=
  let ret := CheckClawCliControlPermission clawTokenId in
  if negb (ret =? RET_SUCCESS) then ERR_PERMISSION_DENIED
  else (GetCliCallablePermissions cliInfoList).1.

Section Context.
Context {BC : BuildConfig} {S K : Type} `{!AtmDb S} `{!TokenDevice K}.
Implicit Types (w : World S K).

Definition BuildPermissionStatusMap (tokenId : Z) w : (Z + PermissionStatusMap) * World S K :=
  match GetReqPermissions tokenId false w with
  | (inl ret, w) => (inl ret, w)
  | (inr userGrantPermissions, w) =>
      match GetReqPermissions tokenId true w with
      | (inl ret, w) => (inl ret, w)
      | (inr systemGrantPermissions, w) =>
          let put m (permission : PermissionStatus) := <[ps_permissionName permission := permission]> m in
          (inr (fold_left put systemGrantPermissions (fold_left put userGrantPermissions ∅)), w)
      end
  end.

Fixpoint dialog_details (context : PermissionStatusMap) (cliInfoList : list CliInfo) : Z + list PermissionDialogDetail :=
  match cliInfoList with
  | [] => inr []
  | cliInfo :: rest =>
      let '(ret, detail) := BuildCliPermissionDialogDetail context cliInfo default_detail in
      if negb (ret =? RET_SUCCESS) then inl ret
      else match dialog_details context rest with inl ret => inl ret | inr l => inr (detail :: l) end
  end.
Definition BuildCliPermissionDialogInfo (clawTokenId : Z) (cliInfoList : list CliInfo) w
    : (Z + list PermissionDialogDetail) * World S K :=
  match BuildPermissionStatusMap clawTokenId w with
  | (inl ret, w) => (inl ret, w)
  | (inr context, w) => (dialog_details context cliInfoList, w)
  end.

Fixpoint command_results (context : PermissionStatusMap) (cliInfoList : list CliInfo) : Z + list (list CliPermissionDetail) :=
  match cliInfoList with
  | [] => inr []
  | cliInfo :: rest =>
      let '(ret, requiredCliPermissions) := GetRequiredCliPermissions cliInfo in
      if negb (ret =? RET_SUCCESS) then inl ret
      else
        match details_of context requiredCliPermissions with
        | inl ret => inl ret
        | inr l => match command_results context rest with inl ret => inl ret | inr ls => inr (l :: ls) end
        end
  end.
Definition BuildCliPermissions (clawTokenId : Z) (cliInfoList : list CliInfo) w : (Z + list (list CliPermissionDetail)) * World S K :=
  match BuildPermissionStatusMap clawTokenId w with
  | (inl ret, w) => (inl ret, w)
  | (inr context, w) => (command_results context cliInfoList, w)
  end.
End Context.
End Engine.
