(* ===== verification/ClawTicketProps.v ===== *)
(** * What a ticket guarantees

    The message of a ticket is read back as it was written; a ticket handed out to an
    application grants, to that application and for that command only, exactly what was
    authorised; and a ticket that was deleted grants nothing. *)

From stdpp Require Import base gmap list strings.
From S2P Require Import Prelude AccessTokenTypes TokenId Database PermissionMap Json Validator PermissionDataBrief IdManager UserPolicy ConstraintCheck HapTokenInfo Kernel InfoManager InfoManagerOps InfoManagerTheory InfoManagerProps PermissionManager ClawTicket.
#[local] Open Scope string_scope.
#[local] Open Scope list_scope.
#[local] Open Scope Z_scope.
#[local] Open Scope cxx_scope.

(** ** The message. *)

(** No embedded NUL. *)
Definition plain_string (s : string) : Prop := c_str s = s.
Record plain_auth (a : CliAuthInfo) : Prop := {
  pa_cli : plain_string (cliName (ca_cliInfo a));
  pa_sub : plain_string (subCliName (ca_cliInfo a));
  pa_names : Forall plain_string (ca_permissionNames a);
}.

Lemma fold_strings l arr : Forall plain_string l -> fold_left AddStringToArray l (JArray arr) = JArray (arr ++ map JString l).
Proof.
  intros H. revert arr. induction H as [|s l Hs _ IH]; intros arr; cbn; [by rewrite app_nil_r|].
  rewrite IH, Hs. cbn. by rewrite <- app_assoc.
Qed.

Lemma fold_bools l : forall arr,
  fold_left (fun arr (b : bool) => AddStringToArray arr (if b then "true" else "false")) l (JArray arr) =
  JArray (arr ++ map (fun b : bool => JString (if b then "true" else "false")) l).
Proof.
  induction l as [|b l IH]; intros arr; cbn; [by rewrite app_nil_r|].
  destruct b; cbn; rewrite IH; cbn; by rewrite <- app_assoc.
Qed.

Lemma string_items_map {A} (f : A -> string) l :
  Forall (fun x => plain_string (f x)) l -> string_items (map (fun x => JString (f x)) l) = map f l.
Proof. induction 1 as [|x l Hx _ IH]; cbn; [done|]. rewrite Hx. by f_equal. Qed.

Lemma put_get l key s :
  plain_string s -> String.eqb key "" = false ->
  exists l', AddStringToJson (JObject l) key s = JObject l' /\
    (forall key', GetObjectItem (JObject l') key' =
       if String.eqb (c_str key') (c_str key) && negb (String.eqb s "") then Some (JString s) else GetObjectItem (JObject l) key').
Proof.
  intros Hs Hk. unfold AddStringToJson. rewrite Hk. cbn [orb]. destruct (String.eqb s "") eqn:Es.
  - exists l. split; [done|]. intros key'. by rewrite andb_false_r.
  - assert (exists l', put_item (JObject l) key (JString (c_str s)) = JObject l') as [l' E].
    { unfold put_item. destruct (GetObjectItem (JObject l) key); cbn; by eexists. }
    exists l'. split; [done|]. intros key'. rewrite <- E, GetObjectItem_put, Hs. by rewrite andb_true_r.
Qed.

Section Message.
Context `{!JsonText} `{!JsonTextLaws}.

(** The value that is written. *)
Definition auth_json (a : CliAuthInfo) : Json :=
  let info := AddStringToJson (AddStringToJson CreateJson "cliName" (cliName (ca_cliInfo a))) "subCliName"
                (subCliName (ca_cliInfo a)) in
  JObject [("cliInfo", info); ("permissionNames", JArray (map JString (ca_permissionNames a)));
           ("authorizationResults",
            JArray (map (fun b : bool => JString (if b then "true" else "false")) (ca_authorizationResults a)))].

Lemma Serialize_json a : plain_auth a -> SerializeCliAuthInfo a = PackJsonToString (auth_json a).
Proof.
  intros [_ _ Hn]. unfold SerializeCliAuthInfo, CreateJsonArray. cbv zeta.
  rewrite fold_strings by done. rewrite fold_bools. reflexivity.
Qed.

Lemma auth_json_plain a : plain_auth a -> json_plain (auth_json a) = true.
Proof.
  intros [Hc Hs Hn]. cbn [auth_json json_plain forallb fst snd]. rewrite !andb_true_iff. split_and!; try reflexivity.
  - unfold AddStringToJson, CreateJson, plain_string in *. rewrite Hc, Hs. cbn [orb].
    destruct (String.eqb (cliName _) "") eqn:E1, (String.eqb (subCliName _) "") eqn:E2; cbn; rewrite ?Hc, ?Hs, ?String.eqb_refl; done.
  - apply forallb_forall. intros j Hj. apply in_map_iff in Hj as (s & <- & Hs'). apply list_elem_of_In in Hs'.
    rewrite Forall_forall in Hn. cbn. by rewrite (Hn s Hs'), String.eqb_refl.
  - apply forallb_forall. intros j Hj. apply in_map_iff in Hj as (b & <- & _). by destruct b.
Qed.

(** Reading a message back. *)
Lemma Deserialize_Serialize a : plain_auth a ->
  DeserializeCliAuthInfo (SerializeCliAuthInfo a) =
    (bool_decide (length (ca_permissionNames a) = length (ca_authorizationResults a)), a).
Proof.
  intros Hp. rewrite Serialize_json by done. unfold DeserializeCliAuthInfo, PackJsonToString, CreateJsonFromString.
  pose proof (json_print_nonempty (auth_json a)) as Hne.
  assert (str_empty (json_print (auth_json a)) = false) as -> by (by destruct (json_print (auth_json a))).
  rewrite (proj2 (String.eqb_neq _ _) Hne), json_print_c_str, json_read_print by (by apply auth_json_plain).
  destruct Hp as [Hc Hs Hn]. destruct a as [[n s] names results]. cbn [ca_cliInfo cliName subCliName ca_permissionNames ca_authorizationResults] in *.
  destruct (put_get [] "cliName" n Hc eq_refl) as (l1 & E1 & H1). destruct (put_get l1 "subCliName" s Hs eq_refl) as (l2 & E2 & H2).
  set (a := mkCliAuthInfo (mkCliInfo n s) names results).
  assert (GetObjFromJson (auth_json a) "cliInfo" = Some (JObject l2)) as ->.
  { unfold GetObjFromJson, auth_json, a. cbn [ca_cliInfo cliName subCliName]. unfold CreateJson. rewrite E1, E2. reflexivity. }
  assert (GetArrayFromJson (auth_json a) "permissionNames" = Some (map JString names)) as -> by reflexivity.
  assert (GetArrayFromJson (auth_json a) "authorizationResults" =
    Some (map (fun b : bool => JString (if b then "true" else "false")) results)) as -> by reflexivity.
  assert (GetStringFromJson (JObject l2) "cliName" "" = (negb (String.eqb n ""), n)) as ->.
  { unfold GetStringFromJson. change (String.eqb "cliName" "") with false. cbn [GetStringFromJson].
    rewrite H2, H1. change (String.eqb (c_str "cliName") (c_str "subCliName")) with false.
    rewrite String.eqb_refl. cbn [andb]. by destruct (String.eqb_spec n "") as [->|]; cbn; rewrite ?Hc. }
  assert (GetStringFromJson (JObject l2) "subCliName" "" = (negb (String.eqb s ""), s)) as ->.
  { unfold GetStringFromJson. change (String.eqb "subCliName" "") with false.
    rewrite H2, H1. change (String.eqb (c_str "subCliName") (c_str "cliName")) with false.
    rewrite String.eqb_refl. cbn [andb]. by destruct (String.eqb_spec s "") as [->|]; cbn; rewrite ?Hs. }
  rewrite (string_items_map (fun s => s)), (string_items_map (fun b : bool => if b then "true" else "false")), map_id, map_map;
    [|by apply Forall_forall; intros [] _|done].
  assert (map (fun b : bool => String.eqb (if b then "true" else "false") "true") results = results) as ->.
  { rewrite <- (map_id results) at 2. apply map_ext. by intros []. }
  reflexivity.
Qed.
End Message.

(** ** Challenges. *)
Lemma legacy_wrap c : IsLegacyChallenge (WrapLegacyChallenge c) = true /\ NormalizeLegacyChallenge (WrapLegacyChallenge c) = c.
Proof. split; [by destruct c|]. unfold NormalizeLegacyChallenge. assert (IsLegacyChallenge (WrapLegacyChallenge c) = true) as -> by (by destruct c). done. Qed.

Lemma GetUserId_in_map {PT : PermTable} {BC : BuildConfig} {S K} `{!AtmDb S} `{!TokenDevice K} (w : World S K) id i :
  hapTokenInfoMap_ w !! id = Some i -> GetUserIdByTokenId id w = (hti_userID (tokenInfoBasic_ i), w).
Proof. intros Hi. unfold GetUserIdByTokenId. by rewrite (in_map _ _ _ Hi). Qed.

Lemma delete_all_lookup (l : list string) : forall (m : gmap string ClawTicket) c,
  fold_left (fun m c => delete c m) l m !! c = if bool_decide (c ∈ l) then None else m !! c.
Proof.
  induction l as [|x l IH]; intros m c; cbn [fold_left]; [by rewrite bool_decide_eq_false_2 by apply not_elem_of_nil|].
  rewrite IH. destruct (decide (c ∈ l)) as [Hc|Hc].
  - by rewrite !bool_decide_eq_true_2 by set_solver.
  - rewrite (bool_decide_eq_false_2 _ Hc). destruct (decide (c = x)) as [->|Hne].
    + rewrite lookup_delete_eq, bool_decide_eq_true_2 by set_solver. done.
    + rewrite lookup_delete_ne, bool_decide_eq_false_2 by set_solver. done.
Qed.

(** The tickets of the caller go, the others stay. *)
Lemma DeleteByCaller_lookup id m c :
  DeleteClawTicketByCallerTokenId id m !! c =
    match m !! c with Some t => if ct_callerTokenId t =? id then None else Some t | None => None end.
Proof.
  unfold DeleteClawTicketByCallerTokenId. rewrite delete_all_lookup.
  assert (c ∈ map fst (filter (fun e : string * ClawTicket => ct_callerTokenId e.2 = id) (map_to_list m)) <->
    exists t, m !! c = Some t /\ ct_callerTokenId t = id) as Hiff.
  { rewrite list_elem_of_fmap. setoid_rewrite list_elem_of_filter. split.
    - intros ([c' t] & -> & Ht & Hm%elem_of_map_to_list). by exists t.
    - intros (t & Hm & Ht). exists (c, t). split; [done|]. split; [done|]. by apply elem_of_map_to_list. }
  destruct (m !! c) as [t|] eqn:Hm; cycle 1.
  { by case_bool_decide as Hc. }
  destruct (Z.eqb_spec (ct_callerTokenId t) id) as [E|E].
  - rewrite bool_decide_eq_true_2; [done|]. apply Hiff. by exists t.
  - rewrite bool_decide_eq_false_2; [done|]. intros (t' & [= <-] & ?)%Hiff. done.
Qed.

Section Tickets.
Context {PT : PermTable} {BC : BuildConfig} {CC : ClawConfig} {AF : AgentFence} {JT : JsonText}.
Context {S K : Type} `{!AtmDb S} `{!TokenDevice K}.
Implicit Types (w : World S K) (m : gmap string ClawTicket).

(** The statuses a message stands for. *)
Definition auth_statuses (valid : bool) (a : CliAuthInfo) : list PermissionStatus :=
  map (fun nr : string * bool => ticket_status nr.1 (valid && nr.2)) (combine (ca_permissionNames a) (ca_authorizationResults a)).

(** A ticket that is accepted was handed out to the host for this command. *)
Lemma Legacy_sound host c cli m w l w' :
  VerifyCliClawTicketLegacy host c cli [] m w = (RET_SUCCESS, l, w') ->
  exists t a res, m !! c = Some t /\ ct_callerTokenId t = host /\ DeserializeCliAuthInfo (ct_message t) = (true, a) /\
    IsCliInfoMatched cli (ca_cliInfo a) = true /\ l = auth_statuses (res =? 0) a /\
    BatchVerifyTicket (GetUserIdByTokenId host w).1 (to_string host) [mkVerifyTicketInfo (ct_message t) c (ct_ticket t)] =
      (RET_SUCCESS, [res]).
Proof.
  unfold VerifyCliClawTicketLegacy, PrepareVerifiedTicketInfo. destruct (m !! c) as [t|] eqn:Hm; [|done].
  destruct (GetUserIdByTokenId host w) as [u w1]. split_if; [done|]. cbv zeta.
  destruct (BatchVerifyTicket u (to_string host) _) as [r vs] eqn:Hv. cbn [fst]. destruct (Z.eqb_spec r RET_SUCCESS) as [->|Hr]; cbn [negb]; cycle 1.
  { intros [= Ht _ _]. exfalso. revert Ht. unfold TransferErrorCode.
    repeat (split_if; [done|]). done. }
  case_bool_decide as Hlen; cbn [negb]; [|done]. destruct vs as [|v [|]]; try done.
  destruct (Z.eqb_spec host (ct_callerTokenId t)) as [Hh|]; cbn [negb]; [|done]. cbn [combine legacy_tickets vt_message].
  destruct (DeserializeCliAuthInfo (ct_message t)) as [ok a] eqn:Hd. destruct ok; cbn [negb]; [|done].
  destruct (IsCliInfoMatched cli (ca_cliInfo a)) eqn:Hc; cbn [negb]; [|done]. intros [= <- <-].
  exists t, a, v. by split_and!.
Qed.

(** A legacy challenge that is not stored grants nothing. *)
Lemma Legacy_unknown host c cli l m w : m !! c = None -> VerifyCliClawTicketLegacy host c cli l m w = (ERR_PARAM_INVALID, l, w).
Proof. intros Hm. unfold VerifyCliClawTicketLegacy, PrepareVerifiedTicketInfo. by rewrite Hm. Qed.

Lemma Verify_legacy host c cli l m w :
  SAF_AGENT_FENCE_ENABLE = true -> IsLegacyChallenge c = true -> NormalizeLegacyChallenge c <> "" ->
  VerifyCliClawTicket host c cli l m w = VerifyCliClawTicketLegacy host (NormalizeLegacyChallenge c) cli l m w.
Proof.
  intros Hs Hl Hne. unfold VerifyCliClawTicket. rewrite Hs, Hl. cbn [negb orb].
  assert (str_empty (NormalizeLegacyChallenge c) = false) as -> by (by destruct (NormalizeLegacyChallenge c)).
  by rewrite andb_false_r.
Qed.

(** ** Storing. *)
Lemma store_tickets_spec host : forall ts rs m,
  Forall (fun t => vt_challenge t <> "") ts -> NoDup (map vt_challenge ts) ->
  (store_tickets host ts rs m).1 = rs ++ map (fun t => WrapLegacyChallenge (vt_challenge t)) ts /\
  (forall t, t ∈ ts -> (store_tickets host ts rs m).2 !! vt_challenge t = Some (mkClawTicket host (vt_message t) (vt_ticket t))) /\
  (forall c, c ∉ map vt_challenge ts -> (store_tickets host ts rs m).2 !! c = m !! c).
Proof.
  induction ts as [|t ts IH]; intros rs m Hne Hnd; cbn [store_tickets].
  { rewrite app_nil_r. split_and!; [done| |done]. by intros t ?%elem_of_nil. }
  apply Forall_cons in Hne as [Ht Hne]. cbn in Hnd. apply NoDup_cons in Hnd as [Hn Hnd].
  assert (str_empty (vt_challenge t) = false) as -> by (by destruct (vt_challenge t)).
  destruct (IH (rs ++ [WrapLegacyChallenge (vt_challenge t)])
              (<[vt_challenge t := mkClawTicket host (vt_message t) (vt_ticket t)]> m) Hne Hnd) as (H1 & H2 & H3).
  rewrite H1, <- app_assoc. split_and!; [done| |].
  - intros t' [->|Ht']%elem_of_cons; [|by apply H2]. by rewrite H3, lookup_insert_eq.
  - intros c [Hc Hc']%not_elem_of_cons. by rewrite H3, lookup_insert_ne.
Qed.

(** C18: from authorisation to use.  When the agent fence signs the messages of an
    application (one ticket for each, with a challenge of its own) every authorised command
    gets a challenge, and presenting it later grants what was authorised for the command,
    or, where the fence does not confirm the ticket, denies it all; for another command, or
    from another application, the same challenge is refused. *)
Theorem cli_ticket_roundtrip `{!JsonTextLaws} host auths tickets m w i ret results m' w' :
  SAF_AGENT_FENCE_ENABLE = true -> host <> INVALID_TOKENID ->
  hapTokenInfoMap_ w !! host = Some i -> 0 <= hti_userID (tokenInfoBasic_ i) ->
  Forall (fun a => plain_auth a /\ length (ca_permissionNames a) = length (ca_authorizationResults a)) auths ->
  BatchGenerateTicket (hti_userID (tokenInfoBasic_ i)) (to_string host) (map SerializeCliAuthInfo auths) = (RET_SUCCESS, tickets) ->
  map vt_message tickets = map SerializeCliAuthInfo auths ->
  Forall (fun t => vt_challenge t <> "") tickets -> NoDup (map vt_challenge tickets) ->
  GenerateCliTicket host auths [] m w = (ret, results, m', w') ->
  ret = RET_SUCCESS /\ w' = w /\ length results = length auths /\
  forall n a t r v, auths !! n = Some a -> tickets !! n = Some t -> results !! n = Some r ->
    BatchVerifyTicket (hti_userID (tokenInfoBasic_ i)) (to_string host) [t] = (RET_SUCCESS, [v]) ->
    (forall cli, VerifyCliClawTicket host r cli [] m' w =
       if IsCliInfoMatched cli (ca_cliInfo a) then (RET_SUCCESS, auth_statuses (v =? 0) a, w) else (ERR_PARAM_INVALID, [], w)) /\
    (forall host' cli w1 l w2, host' <> host -> VerifyCliClawTicket host' r cli [] m' w1 <> (RET_SUCCESS, l, w2)).
Proof.
  intros Hs Hh Hi Hu Ha Hg Hm Hne Hnd. unfold GenerateCliTicket. change INVALID_TOKENID with 0 in *.
  rewrite (proj2 (Z.eqb_neq _ _) Hh), (GetUserId_in_map _ _ _ Hi), (proj2 (Z.ltb_ge _ _) Hu), Hs, Hg. cbn [negb Z.eqb].
  destruct (store_tickets_spec host tickets [] m Hne Hnd) as (St1 & St2 & _). cbn [app] in St1.
  destruct (store_tickets host tickets [] m) as [rs m1]. cbn [fst snd] in *. intros [= <- <- <- <-]. subst rs.
  assert (length tickets = length auths) as Hlen by (by rewrite <- (length_map vt_message), Hm, length_map).
  split_and!; [done|done|by rewrite length_map|]. intros n a t r v Hna Hnt Hnr Hv.
  rewrite list_lookup_fmap, Hnt in Hnr. injection Hnr as <-. destruct (legacy_wrap (vt_challenge t)) as [L1 L2].
  rewrite Forall_forall in Hne. rewrite Forall_forall in Ha. assert (t ∈ tickets) as Ht by (by eapply list_elem_of_lookup_2).
  assert (vt_message t = SerializeCliAuthInfo a) as Emsg.
  { apply (f_equal (fun l => l !! n)) in Hm. rewrite !list_lookup_fmap, Hna, Hnt in Hm. by injection Hm. }
  destruct (Ha a) as [Hp Hl]; [by eapply list_elem_of_lookup_2|].
  split.
  - intros cli. rewrite Verify_legacy by (rewrite ?L2; auto). rewrite L2.
    unfold VerifyCliClawTicketLegacy, PrepareVerifiedTicketInfo. rewrite (St2 t Ht), (GetUserId_in_map _ _ _ Hi), (proj2 (Z.ltb_ge _ _) Hu).
    cbn [ct_message ct_ticket ct_callerTokenId]. assert (mkVerifyTicketInfo (vt_message t) (vt_challenge t) (vt_ticket t) = t) as -> by (by destruct t).
    rewrite Hv. cbn [negb Z.eqb length]. rewrite bool_decide_eq_true_2, Z.eqb_refl by done. cbn [negb combine legacy_tickets].
    rewrite Emsg, Deserialize_Serialize, bool_decide_eq_true_2 by done. cbn [ct_callerTokenId]. rewrite Z.eqb_refl. by destruct (IsCliInfoMatched _ _).
  - intros host' cli w1 l w2 Hne'. rewrite Verify_legacy by (rewrite ?L2; auto). rewrite L2.
    intros (t' & a' & res & Ht' & Hc & _)%Legacy_sound. rewrite (St2 t Ht) in Ht'. injection Ht' as <-. by cbn in Hc.
Qed.

End Tickets.

(** ** A concrete fence. *)
Definition sample_claw : ClawConfig := {| SAF_AGENT_FENCE_ENABLE := true; ENHANCE_CAPABILITY := true |}.
Definition sample_fence : AgentFence := {|
  SAF_ERR_IPC_WRITE_DATA_FAIL := 1; SAF_ERR_IPC_READ_DATA_FAIL := 2; SAF_ERR_IPC_SEND_REQUEST_FAIL := 3;
  SAF_ERR_IPC_PROXY_FAIL := 4; SAF_ERR_IPC_ERROR := 5; SAF_ERR_IPC_INVALID_IPC_CODE := 6; SAF_ERR_SERVICE_UNAVAILABLE := 7;
  SAF_ERR_SERVICE_IS_STOPPING := 8;
  BatchQueryCommandPermission cmds := (0, map (fun c => mkCommandPermissionInfo c [INTERNET] 0) cmds);
  BatchGenerateTicket _ _ messages := (0, imap (fun n m => mkVerifyTicketInfo m ("c" +:+ print_N (N.of_nat n)) "sig") messages);
  BatchVerifyTicket _ _ infos := (0, map (fun _ => 0) infos);
  VerifyTicket _ _ _ := (0, []);
|}.

Section Samples.
#[local] Existing Instance sample_table.
#[local] Existing Instance sample_table_laws.
#[local] Existing Instance full_config.
#[local] Existing Instance sample_claw.
#[local] Existing Instance sample_fence.
#[local] Existing Instance sample_text.
#[local] Existing Instance sample_text_laws.

Definition sample_cli : CliInfo := mkCliInfo "curl" "".
Definition sample_auth : CliAuthInfo := mkCliAuthInfo sample_cli [INTERNET; CAMERA] [true; true].
Definition sample_tickets : list VerifyTicketInfo := (BatchGenerateTicket 100 (to_string app_token) (map SerializeCliAuthInfo [sample_auth])).2.
Definition handed_out : Z * list string * gmap string ClawTicket * World MemRdb MemDevice :=
  GenerateCliTicket app_token [sample_auth] [] ∅ created.2.

Lemma sample_auth_plain : plain_auth sample_auth.
Proof. split; [reflexivity..|]. by repeat constructor. Qed.

Lemma handed_out_map i : hapTokenInfoMap_ created.2 !! app_token = Some i -> hti_userID (tokenInfoBasic_ i) = 100.
Proof. intros H. apply (f_equal (fmap (fun i => hti_userID (tokenInfoBasic_ i)))) in H. vm_compute in H. by injection H. Qed.

Lemma cli_ticket_roundtrip_witness :
  handed_out.1.1.1 = RET_SUCCESS /\
  VerifyCliClawTicket app_token "legacy:c0" sample_cli [] handed_out.1.2 created.2 =
    (RET_SUCCESS, [ticket_status INTERNET true; ticket_status CAMERA true], created.2).
Proof.
  destruct (hapTokenInfoMap_ created.2 !! app_token) as [i|] eqn:Hi; [|vm_compute in Hi; discriminate Hi].
  pose proof (handed_out_map i Hi) as Hu. destruct handed_out as [[[ret results] m'] w'] eqn:E.
  assert (results = ["legacy:c0"]) as ->.
  { apply (f_equal (fun x => x.1.1.2)) in E. cbn [fst snd] in E. rewrite <- E. vm_compute. reflexivity. }
  edestruct (cli_ticket_roundtrip app_token [sample_auth] sample_tickets ∅ created.2 i ret ["legacy:c0"] m' w') as (-> & _ & _ & H).
  1: reflexivity. 1: discriminate. 1: exact Hi. all: rewrite ?Hu.
  - lia.
  - constructor; [|constructor]. split; [apply sample_auth_plain|vm_compute; reflexivity].
  - vm_compute. reflexivity.
  - vm_compute. reflexivity.
  - vm_compute. repeat constructor; discriminate.
  - vm_compute. apply NoDup_singleton.
  - exact E.
  - split; [reflexivity|]. rewrite Hu in H. cbn [fst snd].
    edestruct (H 0%nat sample_auth _ "legacy:c0" 0 eq_refl eq_refl eq_refl eq_refl) as [Hv _]. rewrite Hv. vm_compute. reflexivity.
Defined.

End Samples.
