(* ===== verification/ToolTokenProps.v ===== *)
(** * What tool tokens guarantee

    The three maps of the manager describe one set of tokens whatever creations and
    interleaved deletions run, and a token holds what its ticket authorised, cut by the user
    policies, in the store and in the kernel; the ticket is used up. *)

From stdpp Require Import base gmap list strings.
From S2P Require Import Prelude AccessTokenTypes TokenId Database PermissionMap Json Validator DataTranslator PermissionDataBrief PermissionDataBriefTheory IdManager IdManagerProps UserPolicy ConstraintCheck HapTokenInfo Kernel InfoManager InfoManagerOps InfoManagerTheory InfoManagerProps PermissionManager ClawTicket ClawTicketProps ToolToken.
#[local] Open Scope string_scope.
#[local] Open Scope list_scope.
#[local] Open Scope Z_scope.
#[local] Open Scope cxx_scope.

(** ** The maps. *)

(** Processes and tokens correspond one to one, the tokens of a host are the tokens it is
    the host of, and a token marked for deletion is a token some deletion under way holds. *)
Record maps_inv (pending : list (Z * Z)) (m : ToolMgr) : Prop := {
  mi_info id i : toolTokenInfoMap m !! id = Some i ->
    cb_tokenId (baseInfo i) = id /\ pidToolTokenMap m !! cb_callerPid (baseInfo i) = Some id;
  mi_owned id i : toolTokenInfoMap m !! id = Some i ->
    exists s, hostToolTokenMap m !! cb_hostTokenId (baseInfo i) = Some s /\ id ∈ s;
  mi_pid p id : pidToolTokenMap m !! p = Some id ->
    exists i, toolTokenInfoMap m !! id = Some i /\ cb_callerPid (baseInfo i) = p;
  mi_host h s : hostToolTokenMap m !! h = Some s ->
    s <> ∅ /\ forall id, id ∈ s -> exists i, toolTokenInfoMap m !! id = Some i /\ cb_hostTokenId (baseInfo i) = h;
  mi_deleting id : id ∈ deletingToolTokenIdSet m <-> exists p, (p, id) ∈ pending;
  mi_pending p id : (p, id) ∈ pending -> pidToolTokenMap m !! p = Some id;
}.

Lemma AddTool_cases inner m r m' :
  AddToolTokenInfoLocked inner m = (r, m') ->
  (r <> RET_SUCCESS /\ m' = m) \/
  (r = RET_SUCCESS /\ 0 <= cb_callerPid (baseInfo inner) /\ pidToolTokenMap m !! cb_callerPid (baseInfo inner) = None /\
   let id := cb_tokenId (baseInfo inner) in let h := cb_hostTokenId (baseInfo inner) in
   m' = mkToolMgr (<[id := inner]> (toolTokenInfoMap m)) (<[h := {[id]} ∪ default ∅ (hostToolTokenMap m !! h)]> (hostToolTokenMap m))
          (<[cb_callerPid (baseInfo inner) := id]> (pidToolTokenMap m)) (deletingToolTokenIdSet m)).
Proof.
  unfold AddToolTokenInfoLocked. cbv zeta. destruct (Z.ltb_spec (cb_callerPid (baseInfo inner)) 0).
  { intros [= <- <-]. by left. }
  case_bool_decide as Hp; intros [= <- <-]; [by left|]. right. split_and!; try done. by apply eq_None_not_Some.
Qed.

Lemma AddTool_inv pending inner m m' :
  maps_inv pending m -> toolTokenInfoMap m !! cb_tokenId (baseInfo inner) = None ->
  AddToolTokenInfoLocked inner m = (RET_SUCCESS, m') -> maps_inv pending m'.
Proof.
  intros H Hf E. apply AddTool_cases in E as [[? _]|(_ & _ & Hp & ->)]; [done|]. destruct inner as [b i]. cbn [baseInfo] in *.
  set (id := cb_tokenId b) in *. set (h := cb_hostTokenId b) in *. set (pid := cb_callerPid b) in *.
  split; cbn.
  - intros x j [[<- <-]|[Hne Hj]]%lookup_insert_Some; cbn; [split; [done|apply lookup_insert_eq]|].
    destruct (mi_info _ _ H _ _ Hj) as [E1 E2]. split; [done|]. rewrite lookup_insert_ne; [done|]. intros E. fold pid in E. congruence.
  - intros x j [[<- <-]|[Hne Hj]]%lookup_insert_Some; cbn; [rewrite lookup_insert_eq; eexists; split; [done|set_solver]|].
    destruct (mi_owned _ _ H _ _ Hj) as (s & Hs & Hx). destruct (decide (cb_hostTokenId (baseInfo j) = h)) as [E|E].
    + rewrite E, lookup_insert_eq. eexists. split; [done|]. rewrite <- E, Hs. cbn. set_solver.
    + rewrite lookup_insert_ne by done. by exists s.
  - intros p x [[<- <-]|[Hne Hx]]%lookup_insert_Some; [eexists; by rewrite lookup_insert_eq|].
    destruct (mi_pid _ _ H _ _ Hx) as (j & Hj & Ej). exists j. rewrite lookup_insert_ne; [done|]. intros E. fold id in E. congruence.
  - intros x s [[<- <-]|[Hne Hs]]%lookup_insert_Some.
    + split; [set_solver|]. intros y [->%elem_of_singleton|Hy]%elem_of_union; [eexists; by rewrite lookup_insert_eq|].
      destruct (hostToolTokenMap m !! h) as [s0|] eqn:Hs0; [|set_solver]. cbn in Hy. destruct (mi_host _ _ H _ _ Hs0) as [_ Hall].
      destruct (Hall y Hy) as (j & Hj & Ej). exists j. rewrite lookup_insert_ne; [done|]. intros E. fold id in E. congruence.
    + destruct (mi_host _ _ H _ _ Hs) as [H1 Hall]. split; [done|]. intros y Hy. destruct (Hall y Hy) as (j & Hj & Ej).
      exists j. rewrite lookup_insert_ne; [done|]. intros E. fold id in E. congruence.
  - apply H.
  - intros p x Hx. pose proof (mi_pending _ _ H _ _ Hx) as Hpx. rewrite lookup_insert_ne; [done|]. intros E. congruence.
Qed.

(** Removing a token that a deletion under way holds. *)
Lemma RemoveTool_inv pending p id inner m m' :
  maps_inv pending m -> pidToolTokenMap m !! p = Some id -> RemoveToolTokenInfoLocked id m = (inner, m') ->
  toolTokenInfoMap m' = delete id (toolTokenInfoMap m) /\ (exists i, inner = Some i /\ toolTokenInfoMap m !! id = Some i) /\
  maps_inv (filter (fun pi => pi.2 <> id) pending) (set_deleting (deletingToolTokenIdSet m' ∖ {[id]}) m').
Proof.
  intros H Hp. unfold RemoveToolTokenInfoLocked. destruct (mi_pid _ _ H _ _ Hp) as (i & Hi & Ep). rewrite Hi. cbv zeta.
  destruct (mi_owned _ _ H _ _ Hi) as (s & Hs & His). rewrite Hs, Ep, Hp, Z.eqb_refl. intros [= <- <-].
  split; [done|]. split; [by exists i|]. set (h := cb_hostTokenId (baseInfo i)) in *.
  assert (forall p' x, pidToolTokenMap m !! p' = Some x -> x = id -> p' = p) as Hinj.
  { intros p' x Hx ->. destruct (mi_pid _ _ H _ _ Hx) as (j & Hj & Ej). congruence. }
  assert (forall h' s', (if bool_decide (s ∖ {[id]} = ∅) then delete h (hostToolTokenMap m)
            else <[h:=s ∖ {[id]}]> (hostToolTokenMap m)) !! h' = Some s' ->
          s' <> ∅ /\ exists s0, hostToolTokenMap m !! h' = Some s0 /\ s' = s0 ∖ {[id]}) as Hhost.
  { intros h' s'. case_bool_decide as He.
    - intros [Hne Hs']%lookup_delete_Some. destruct (mi_host _ _ H _ _ Hs') as [H1 Hall]. split; [done|]. exists s'. split; [done|].
      symmetry. apply difference_disjoint_L. apply disjoint_singleton_r. intros Hin. destruct (Hall _ Hin) as (j & Hj & Ej). assert (j = i) as -> by congruence. done.
    - intros [[<- <-]|[Hne Hs']]%lookup_insert_Some; [split; [done|by exists s]|]. destruct (mi_host _ _ H _ _ Hs') as [H1 Hall].
      split; [done|]. exists s'. split; [done|]. symmetry. apply difference_disjoint_L. apply disjoint_singleton_r.
      intros Hin. destruct (Hall _ Hin) as (j & Hj & Ej). assert (j = i) as -> by congruence. done. }
  assert (forall h' s0 x, hostToolTokenMap m !! h' = Some s0 -> x ∈ s0 -> x <> id ->
    exists s', (if bool_decide (s ∖ {[id]} = ∅) then delete h (hostToolTokenMap m)
            else <[h:=s ∖ {[id]}]> (hostToolTokenMap m)) !! h' = Some s' /\ x ∈ s') as Hkeep.
  { intros h' s0 x Hs0 Hx Hne. destruct (decide (h' = h)) as [->|Hn].
    - rewrite Hs in Hs0. injection Hs0 as <-. rewrite bool_decide_eq_false_2 by set_solver. exists (s ∖ {[id]}).
      rewrite lookup_insert_eq. split; [done|set_solver].
    - exists s0. split; [|done]. case_bool_decide; [by rewrite lookup_delete_ne|by rewrite lookup_insert_ne]. }
  split; cbn.
  - intros x j [Hne Hj]%lookup_delete_Some. destruct (mi_info _ _ H _ _ Hj) as [E1 E2]. split; [done|].
    rewrite lookup_delete_ne; [done|]. intros E. congruence.
  - intros x j [Hne Hj]%lookup_delete_Some. destruct (mi_owned _ _ H _ _ Hj) as (s0 & Hs0 & Hx). by eapply Hkeep.
  - intros p' x [Hne Hx]%lookup_delete_Some. destruct (mi_pid _ _ H _ _ Hx) as (j & Hj & Ej). exists j.
    rewrite lookup_delete_ne; [done|]. intros E. subst x. by destruct (Hinj _ _ Hx eq_refl).
  - intros h' s' (Hn & s0 & Hs0 & ->)%Hhost. split; [done|]. intros x [Hx Hxi]%elem_of_difference.
    destruct (mi_host _ _ H _ _ Hs0) as [_ Hall]. destruct (Hall x Hx) as (j & Hj & Ej). exists j. rewrite lookup_delete_ne; [done|set_solver].
  - intros x. rewrite elem_of_difference, (mi_deleting _ _ H), elem_of_singleton. setoid_rewrite list_elem_of_filter. cbn. naive_solver.
  - intros p' x [Hx Hpe]%list_elem_of_filter. pose proof (mi_pending _ _ H _ _ Hpe) as Hpx. rewrite lookup_delete_ne; [done|].
    intros ->. cbn in Hx. congruence.
Qed.

(** ** The whole state. *)
Section Tools.
Context {PT : PermTable} {BC : BuildConfig} {CC : ClawConfig} {AF : AgentFence} {JT : JsonText}.
Context {S K : Type} `{!AtmDb S} `{!TokenDevice K}.
Context (parentHapToken : Z -> Z + Z).
Implicit Types (w : World S K) (t : ToolState S K).

Local Ltac same_world := cbv beta iota; by intros [= _ _ <-].

Lemma Verify_world host c cli l m w i ret l' w' :
  hapTokenInfoMap_ w !! host = Some i -> VerifyCliClawTicket host c cli l m w = (ret, l', w') -> w' = w.
Proof.
  intros Hi. unfold VerifyCliClawTicket, VerifyCliClawTicketLegacy, PrepareVerifiedTicketInfo, VerifyCliClawTicketByVerifyInfo.
  cbv zeta. rewrite (GetUserId_in_map _ _ _ Hi). do 2 (split_if; [same_world|]).
  split_if.
  - destruct (m !! _) as [t|]; [|same_world]. split_if; [same_world|].
    destruct (BatchVerifyTicket _ _ _) as [r vs]. split_if; [same_world|]. split_if; [same_world|].
    split_if; [same_world|]. destruct (legacy_tickets _ _ _) as [r2 l2]. same_world.
  - split_if; [same_world|]. destruct (VerifyTicket _ _ _) as [r vs]. split_if; [same_world|].
    split_if; [same_world|]. destruct (append_cli_permissions _ _ _) as [r2 l2]. same_world.
Qed.

(** The outcome of the last part of a creation. *)
Lemma Finalize_cases inner states t ret kp t' :
  FinalizeToolTokenInit inner states t = (ret, kp, t') ->
  let id := cb_tokenId (baseInfo inner) in
  (ret <> RET_SUCCESS /\ t_tools t' = t_tools t /\ t_tickets t' = t_tickets t /\
   exists k ids, (ids = w_ids (t_world t) \/ ids = ReleaseTokenId id (w_ids (t_world t))) /\
     t_world t' = set_ids ids (set_kernel k (t_world t))) \/
  (ret = RET_SUCCESS /\ kp = BuildGrantedKernelPermList (cb_toolType (baseInfo inner)) states /\
   let '(codes, sts) := BuildPermStatusList (cb_toolType (baseInfo inner)) states in
   exists k, AddNativePermToKernel (w_kernel (t_world t)) id codes sts = (RET_SUCCESS, k) /\
     t_world t' = set_kernel k (t_world t) /\
     AddToolTokenInfoLocked inner (t_tools t) = (RET_SUCCESS, t_tools t') /\
     t_tickets t' = (DeleteClawTicket (cb_challenge (baseInfo inner)) (t_tickets t)).2).
Proof.
  intros E id. unfold FinalizeToolTokenInit in E. cbv zeta in E. fold id in E.
  destruct (BuildPermStatusList _ _) as [codes sts]. destruct (AddNativePermToKernel _ _ _ _) as [e k].
  destruct (Z.eqb_spec e RET_SUCCESS) as [->|He]; cbn [negb on_world t_world t_tools t_tickets] in E.
  2: { left. injection E as <- <- <-. split_and!; try done. exists k, (ReleaseTokenId id (w_ids (t_world t))). split; [by right|]. done. }
  destruct (AddToolTokenInfoLocked inner (t_tools t)) as [e tools] eqn:A.
  destruct (Z.eqb_spec e RET_SUCCESS) as [->|He]; cbn [negb] in E.
  { right. injection E as <- <- <-. split_and!; try done. by exists k. }
  apply AddTool_cases in A as [[_ ->]|[? _]]; [|done]. left.
  destruct (RemovePermFromKernel _ _) as [e2 k2]. split_if_in E; injection E as <- <- <-; split_and!; try done.
  - exists k2, (w_ids (t_world t)). split; [by left|]. done.
  - exists k2, (ReleaseTokenId id (w_ids (t_world t))). split; [by right|]. done.
Qed.

(** A new id, and what it looks like. *)
Definition tool_id (ids ids' : IdMgr) (id : Z) : Prop :=
  GetTokenIdStatusLocked id ids = None /\ id <> 0 /\ is_u32 id /\ GetTokenIdTypeEnum id = TOKEN_SHELL /\ IsToolTokenId id = true /\
  ids' = set_tokens ({[id]} ∪ tokenIdSet_ ids) (reservedTokenIdSet_ ids) (untrustedTokenIdSet_ ids) ids.

Lemma CreateTool_cases rands w id w' :
  CreateToolTokenId rands CLI w = (id, w') ->
  if decide (id = 0) then w' = w else exists ids', w' = set_ids ids' w /\ tool_id (w_ids w) ids' id.
Proof.
  unfold CreateToolTokenId, CreateAndRegisterTokenId. cbn [GetTokenTypeByToolType].
  destruct (CreateAndRegisterTokenId_loop _ _ _ _ _ _ _) as [x ids'] eqn:C. intros [= <- <-].
  apply Create_loop_spec in C; [|done]. change INVALID_TOKENID with 0 in C. destruct (decide (x = 0)) as [->|Hne].
  { destruct C as [-> _]. by rewrite set_ids_same. }
  destruct C as (H1 & -> & n & _ & Hr & ->). eexists. split; [done|]. split_and!; try done.
  - unfold CreateTokenId. apply Z.eqb_neq in Hr as ->. apply id_of_inner_u32.
  - unfold GetTokenIdTypeEnum. by rewrite CreateTokenId_inner.
  - unfold IsToolTokenId. by rewrite CreateTokenId_inner.
Qed.

(** The host of a request is loaded, and is an application. *)
Definition host_loaded (w : World S K) (host : Z) (i : HapTokenInfoInner) : Prop :=
  hapTokenInfoMap_ w !! host = Some i /\ IsBinTokenId host = false.

(** The states a token is created with. *)
Definition tool_states (w : World S K) (id : Z) (i : HapTokenInfoInner) (perms : list PermissionStatus) : list PermissionStatus :=
  UpdatePermissionStatusListForUserPolicy id (hti_userID (tokenInfoBasic_ i)) (w_policies w) perms.
Definition tool_inner (req : CliInitInfo) (pid id : Z) (i : HapTokenInfoInner) : CliTokenInfoInner :=
  mkCliTokenInfoInner (mkClawTokenBaseInfo CLI (ci_hostTokenId req) (hti_userID (tokenInfoBasic_ i)) pid id 0 (ci_challenge req))
    (ci_cliInfo req).

Definition init_done (req : CliInitInfo) (pid : Z) (i : HapTokenInfoInner) t (id : Z) (kp : list string) t'
    (perms : list PermissionStatus) : Prop :=
  let w := t_world t in
  let states := tool_states w id i perms in
  VerifyCliClawTicket (ci_hostTokenId req) (ci_challenge req) (ci_cliInfo req) [] (t_tickets t) w = (RET_SUCCESS, perms, w) /\
  kp = BuildGrantedKernelPermList CLI states /\
  exists ids' k, tool_id (w_ids w) ids' id /\
    AddNativePermToKernel (w_kernel w) id (BuildPermStatusList CLI states).1 (BuildPermStatusList CLI states).2 = (RET_SUCCESS, k) /\
    t_world t' = set_kernel k (set_brief (AddPermToBriefPermission id states ∅ true (w_brief w)) (set_ids ids' w)) /\
    AddToolTokenInfoLocked (tool_inner req pid id i) (t_tools t) = (RET_SUCCESS, t_tools t') /\
    t_tickets t' = (DeleteClawTicket (ci_challenge req) (t_tickets t)).2.

(** A creation that fails leaves tokens, tickets, registered ids and permission data as they
    were (an id can stay registered when the kernel refuses the rollback). *)
Definition init_failed t t' : Prop :=
  t_tools t' = t_tools t /\ t_tickets t' = t_tickets t /\
  hapTokenInfoMap_ (t_world t') = hapTokenInfoMap_ (t_world t) /\
  tokenIdSet_ (w_ids (t_world t)) ⊆ tokenIdSet_ (w_ids (t_world t')) /\
  (forall x, is_Some (requestedPermData_ (w_brief (t_world t')) !! x) -> is_Some (requestedPermData_ (w_brief (t_world t)) !! x)).

Lemma Init_cases rands req pid t i ret id kp t' :
  host_loaded (t_world t) (ci_hostTokenId req) i ->
  InitCliToken parentHapToken rands req pid t = (ret, id, kp, t') ->
  if decide (ret = RET_SUCCESS) then exists perms, init_done req pid i t id kp t' perms
  else id = 0 /\ kp = [] /\ init_failed t t'.
Proof.
  intros [Hi Hb] E. unfold InitCliToken, VerifyCliInitInputAndTicket in E.
  assert (forall e, e <> RET_SUCCESS -> (e, 0, [], t) = (ret, id, kp, t') ->
    if decide (ret = RET_SUCCESS) then exists perms, init_done req pid i t id kp t' perms
    else id = 0 /\ kp = [] /\ init_failed t t') as Hfail.
  { intros e He [= <- <- <- <-]. rewrite decide_False by done. unfold init_failed. by split_and!. }
  split_if_in E; [eapply Hfail; [|exact E]; done|].
  destruct (VerifyCliClawTicket _ _ _ _ _ _) as [[e perms] w1] eqn:V. pose proof (Verify_world _ _ _ _ _ _ _ _ _ _ Hi V) as ->.
  assert (mkToolState (t_world t) (t_tools t) (t_tickets t) = t) as Et by (by destruct t). rewrite Et in E.
  destruct (Z.eqb_spec e RET_SUCCESS) as [->|He]; cbn [negb] in E; [|by eapply Hfail].
  unfold BuildToolTokenBaseInfo, GetUserIdByHostTokenId, GetHapTokenInfo, ResolveQueryTokenID in E. rewrite Hb in E. cbn [negb] in E.
  rewrite (in_map _ _ _ Hi) in E. destruct (CreateToolTokenId rands CLI (t_world t)) as [x w2] eqn:C. apply CreateTool_cases in C.
  change INVALID_TOKENID with 0 in E. destruct (Z.eqb_spec x 0) as [->|Hx].
  { rewrite decide_True in C by done. subst w2. rewrite Et in E. eapply Hfail; [|exact E]; done. }
  rewrite decide_False in C by done. destruct C as (ids' & -> & Hid). unfold CliInit in E. cbn [cb_tokenId cb_userId] in E.
  destruct (FinalizeToolTokenInit _ _ _) as [[e2 kp2] t2] eqn:F.
  apply Finalize_cases in F as [(He2 & Ht & Htk & k & ids & Hids & Ew)|(-> & -> & F)]; cbv zeta in *.
  - rewrite (proj2 (Z.eqb_neq _ _) He2) in E. cbn [negb] in E. injection E as <- <- <- <-. rewrite decide_False by done.
    split_and!; try done. unfold init_failed. cbn [on_world t_tools t_tickets t_world]. rewrite Ew.
    destruct Hid as ((Hn & _)%status_None & Hx0 & _ & _ & _ & Eids). unfold drop_tool. cbn [cb_tokenId].
    change INVALID_TOKENID with 0. rewrite (proj2 (Z.eqb_neq _ _) Hx). cbn. split_and!; try done.
    + destruct Hids as [->| ->]; cbn [w_ids set_brief set_ids baseInfo cb_tokenId]; rewrite ?Release_set, Eids; cbn; set_solver.
    + intros y. rewrite delete_data_lookup. destruct (decide (y = x)) as [->|Hy]; [by intros []|].
      by rewrite AddPerm_within.
  - rewrite Z.eqb_refl in E. cbn [negb] in E. injection E as <- <- <- <-. rewrite decide_True by done. exists perms.
    unfold init_done. cbv zeta. split_and!; try done. exists ids'. cbn [baseInfo cb_toolType cb_tokenId t_world cb_challenge] in F.
    unfold tool_states. destruct (BuildPermStatusList CLI _) as [codes sts]. destruct F as (k & F1 & F2 & F3 & F4). exists k.
    by split_and!.
Qed.

(** ** The invariant. *)
Record tool_inv (pending : list (Z * Z)) t : Prop := {
  ti_maps : maps_inv pending (t_tools t);
  ti_ids id : is_Some (toolTokenInfoMap (t_tools t) !! id) -> id ∈ tokenIdSet_ (w_ids (t_world t)) /\ id <> 0;
  ti_data id : is_Some (requestedPermData_ (w_brief (t_world t)) !! id) -> id ∈ tokenIdSet_ (w_ids (t_world t));
  ti_once : NoDup (map snd pending);
}.


Lemma init_done_inv pending req pid i t id kp t' perms :
  tool_inv pending t -> init_done req pid i t id kp t' perms -> tool_inv pending t' /\
  toolTokenInfoMap (t_tools t) !! id = None /\ requestedPermData_ (w_brief (t_world t)) !! id = None.
Proof.
  intros [H1 H2 H3 H4] (_ & _ & ids' & k & Hid & _ & Ew & Ha & _). destruct Hid as ((Hn & _)%status_None & Hz & _ & _ & _ & Ei).
  assert (toolTokenInfoMap (t_tools t) !! id = None) as Hf by (apply eq_None_not_Some; by intros [? _]%H2).
  assert (requestedPermData_ (w_brief (t_world t)) !! id = None) as Hd by (apply eq_None_not_Some; by intros ?%H3).
  split_and!; try done. split; [refine (AddTool_inv _ _ _ _ H1 _ Ha); exact Hf|rewrite Ew; cbn; rewrite Ei; cbn..|done].
  - apply AddTool_cases in Ha as [[? _]|(_ & _ & _ & Em)]; [done|]. rewrite Em. cbn. intros x [y [[<- _]|[_ Hy]]%lookup_insert_Some]; [set_solver|].
    destruct (H2 x) as [? ?]; [by exists y|]. set_solver.
  - intros x Hx. destruct (decide (x = id)) as [->|Hne]; [set_solver|]. rewrite AddPerm_within in Hx by done.
    apply H3 in Hx. set_solver.
Qed.

Lemma init_failed_inv pending t t' : tool_inv pending t -> init_failed t t' -> tool_inv pending t'.
Proof.
  intros [H1 H2 H3 H4] (Et & _ & _ & Hs & Hd). split; rewrite ?Et; [done| | |done].
  - intros id Hi. destruct (H2 id Hi). set_solver.
  - intros id Hi. apply Hs. by apply H3, Hd.
Qed.

Lemma begin_inv pending pid id t t' :
  tool_inv pending t -> DeleteToolToken_begin pid t = (inr id, t') -> tool_inv ((pid, id) :: pending) t'.
Proof.
  intros [H1 H2 H3 H4]. unfold DeleteToolToken_begin. destruct (pidToolTokenMap (t_tools t) !! pid) as [x|] eqn:Hp; [|done].
  case_bool_decide as Hd; [done|]. intros [= <- <-]. destruct H1 as [M1 M2 M3 M4 M5 M6].
  split; cbn; [|done..|]; [|apply NoDup_cons; split; [|done]; intros ([p y] & Ey & Hin)%list_elem_of_fmap; cbn in Ey; subst y; apply Hd, M5; by exists p].
  split; cbn; try done.
  - intros y. rewrite elem_of_union, elem_of_singleton, M5. setoid_rewrite elem_of_cons. naive_solver.
  - intros p y [[= -> ->]|Hy]%elem_of_cons; [done|by apply M6].
Qed.

(** The end of a deletion: with the kernel's consent the token is gone from every map and its
    id and permission data with it; otherwise only the mark is taken back. *)
Lemma end_inv pending pid id t ret t' :
  tool_inv pending t -> (pid, id) ∈ pending -> DeleteToolToken_end pid id t = (ret, t') ->
  tool_inv (filter (fun pi => pi.2 <> id) pending) t' /\
  (ret = RET_SUCCESS -> toolTokenInfoMap (t_tools t') = delete id (toolTokenInfoMap (t_tools t)) /\
     deletingToolTokenIdSet (t_tools t') = deletingToolTokenIdSet (t_tools t) ∖ {[id]} /\
     id ∉ tokenIdSet_ (w_ids (t_world t')) /\ requestedPermData_ (w_brief (t_world t')) !! id = None) /\
  (ret <> RET_SUCCESS -> t_tools t' = set_deleting (deletingToolTokenIdSet (t_tools t) ∖ {[id]}) (t_tools t)).
Proof.
  intros [H1 H2 H3 H4] Hpend. pose proof (mi_pending _ _ H1 _ _ Hpend) as Hp. unfold DeleteToolToken_end.
  assert (NoDup (map snd (filter (fun pi : Z * Z => pi.2 <> id) pending))) as H4'.
  { eapply NoDup_map_sublist; [|exact H4]. apply sublist_filter. }
  destruct (RemovePermFromKernel _ _) as [e k]. cbn [on_world t_world t_tools t_tickets].
  destruct (Z.eqb_spec e RET_SUCCESS) as [->|He]; cbn [negb].
  2: { intros [= <- <-]. split_and!; try done. split; cbn; [|done..]. destruct H1 as [M1 M2 M3 M4 M5 M6]. split; cbn; try done.
       - intros x. rewrite elem_of_difference, M5, elem_of_singleton. setoid_rewrite list_elem_of_filter. cbn. naive_solver.
       - intros p x [_ Hx]%list_elem_of_filter. by apply M6. }
  rewrite Hp, Z.eqb_refl. destruct (RemoveToolTokenInfoLocked id (t_tools t)) as [inner m] eqn:R.
  assert (deletingToolTokenIdSet m = deletingToolTokenIdSet (t_tools t)) as Edel.
  { unfold RemoveToolTokenInfoLocked in R. destruct (toolTokenInfoMap (t_tools t) !! id); by injection R as _ <-. }
  destruct (RemoveTool_inv _ _ _ _ _ _ H1 Hp R) as (Em & (i & -> & Hi) & Hinv). intros [= <- <-].
  destruct (mi_info _ _ H1 _ _ Hi) as [Eid _].
  destruct (H2 id) as [Hreg Hz]; [by exists i|].
  unfold drop_tool. rewrite Eid. change INVALID_TOKENID with 0. rewrite (proj2 (Z.eqb_neq _ _) Hz).
  cbn [negb on_world t_world t_tools t_tickets]. split_and!; try done.
  - split; cbn; rewrite ?Release_set, ?Em; [done| | |done].
    + intros x [y [Hne Hy]%lookup_delete_Some]. destruct (H2 x) as [? ?]; [by exists y|]. set_solver.
    + intros x. rewrite delete_data_lookup. destruct (decide (x = id)) as [->|Hne]; [by intros []|]. intros Hx%H3. set_solver.
  - intros _. cbn. rewrite Release_set, delete_data_lookup, decide_True, Edel by done. split_and!; [done|done|set_solver|done].
Qed.

End Tools.

Section Interleavings.
Context {PT : PermTable} {BC : BuildConfig} {CC : ClawConfig} {JT : JsonText}.
Context {S K : Type} `{!AtmDb S} `{!TokenDevice K}.
Context (parentHapToken : Z -> Z + Z).
Implicit Types (w : World S K) (t : ToolState S K).

(** ** Every interleaving.  A creation and the two halves of a deletion are steps; so are
    changes of the tickets, and changes of the rest of the service that keep the ids of tool
    tokens registered. *)
Inductive tool_step : list (Z * Z) * ToolState S K -> list (Z * Z) * ToolState S K -> Prop :=
  | step_init pending t (fence : AgentFence) rands req pid i :
      host_loaded (t_world t) (ci_hostTokenId req) i ->
      tool_step (pending, t) (pending, (InitCliToken (AF := fence) parentHapToken rands req pid t).2)
  | step_begin pending t pid id t' :
      DeleteToolToken_begin pid t = (inr id, t') -> tool_step (pending, t) ((pid, id) :: pending, t')
  | step_end pending t pid id :
      (pid, id) ∈ pending ->
      tool_step (pending, t) (filter (fun pi => pi.2 <> id) pending, (DeleteToolToken_end pid id t).2)
  | step_tickets pending t m : tool_step (pending, t) (pending, mkToolState (t_world t) (t_tools t) m)
  | step_rest pending t w' :
      (forall id, is_Some (toolTokenInfoMap (t_tools t) !! id) -> id ∈ tokenIdSet_ (w_ids w')) ->
      (forall id, is_Some (requestedPermData_ (w_brief w') !! id) -> id ∈ tokenIdSet_ (w_ids w')) ->
      tool_step (pending, t) (pending, mkToolState w' (t_tools t) (t_tickets t)).


Lemma tool_step_inv a b : tool_step a b -> tool_inv a.1 a.2 -> tool_inv b.1 b.2.
Proof.
  intros [pending t fence rands req pid i Hi|pending t pid id t' E|pending t pid id Hp|pending t m|pending t w' Hi Hd] H; cbn [fst snd] in *.
  - destruct (InitCliToken _ _ _ _ _) as [[[ret id] kp] t'] eqn:E. cbn [snd]. eapply (Init_cases (AF := fence)) in E; [|done].
    destruct (decide (ret = RET_SUCCESS)); [destruct E as [perms E]; by eapply init_done_inv in E as [? _]|]. destruct E as (_ & _ & E).
    by eapply init_failed_inv.
  - by eapply begin_inv.
  - destruct (DeleteToolToken_end pid id t) as [ret t'] eqn:E. cbn [snd]. by eapply end_inv in E as [? _].
  - destruct H as [H1 H2 H3 H4]. by split.
  - destruct H as [H1 H2 H3 H4]. split; cbn; [done| |done|done]. intros id Hs. split; [by apply Hi|by apply H2].
Qed.

Lemma tool_steps_inv a b : rtc tool_step a b -> tool_inv a.1 a.2 -> tool_inv b.1 b.2.
Proof. induction 1 as [|a b c Hs _ IH]; [done|]. intros H. by eapply IH, tool_step_inv. Qed.

Definition no_tools : ToolMgr := mkToolMgr ∅ ∅ ∅ ∅.

Lemma no_tools_inv w m :
  (forall id, is_Some (requestedPermData_ (w_brief w) !! id) -> id ∈ tokenIdSet_ (w_ids w)) ->
  tool_inv [] (mkToolState w no_tools m).
Proof.
  intros Hd. split; cbn; [|by intros id [x Hx]|done|constructor].
  split; cbn; try (by intros ??; rewrite lookup_empty); [|by intros p id ?%elem_of_nil].
  intros id. split; [set_solver|]. by intros [p ?%elem_of_nil].
Qed.

(** C12: however creations (for a host whose data is loaded), changes of the tickets and of the
    rest of the service (which keep the ids of tool tokens registered and give permission data to
    registered ids only) and the two halves of concurrent deletions interleave, starting without
    tool tokens: processes and tool tokens correspond one to one, the tokens listed under a host
    are exactly those whose host it is, every token has a registered id, and a process that has a
    token gets no second one.  The tokens marked for deletion are exactly those of the deletions
    under way, one deletion each: a deletion of a process whose token is not marked puts the mark
    and changes nothing else of the maps; a second one is refused and changes nothing; and
    finishing takes back the mark and, when the kernel agrees, removes the token with its id and
    its permission data, so that its process has none, and otherwise leaves the maps as they were,
    so that the deletion can be asked for again. *)
Theorem tool_tokens_consistent (AF : AgentFence) w0 tickets pending t :
  (forall id, is_Some (requestedPermData_ (w_brief w0) !! id) -> id ∈ tokenIdSet_ (w_ids w0)) ->
  rtc tool_step ([], mkToolState w0 no_tools tickets) (pending, t) ->
  let m := t_tools t in
  (forall p id, pidToolTokenMap m !! p = Some id <->
     exists i, toolTokenInfoMap m !! id = Some i /\ cb_callerPid (baseInfo i) = p) /\
  (forall h id, (exists s, hostToolTokenMap m !! h = Some s /\ id ∈ s) <->
     exists i, toolTokenInfoMap m !! id = Some i /\ cb_hostTokenId (baseInfo i) = h) /\
  (forall id i, toolTokenInfoMap m !! id = Some i -> cb_tokenId (baseInfo i) = id /\ id ∈ tokenIdSet_ (w_ids (t_world t))) /\
  (forall rands req p i, is_Some (pidToolTokenMap m !! p) -> host_loaded (t_world t) (ci_hostTokenId req) i ->
     (InitCliToken parentHapToken rands req p t).1.1.1 <> RET_SUCCESS) /\
  ((forall id, id ∈ deletingToolTokenIdSet m <-> exists p, (p, id) ∈ pending) /\ NoDup (map snd pending)) /\
  (forall p id, pidToolTokenMap m !! p = Some id -> id ∉ deletingToolTokenIdSet m ->
     DeleteToolToken_begin p t = (inr id, mkToolState (t_world t) (set_deleting ({[id]} ∪ deletingToolTokenIdSet m) m) (t_tickets t))) /\
  (forall p id, (p, id) ∈ pending ->
     DeleteToolToken_begin p t = (inl ERR_TOKENID_NOT_EXIST, t) /\
     let '(ret, t') := DeleteToolToken_end p id t in
     deletingToolTokenIdSet (t_tools t') = deletingToolTokenIdSet m ∖ {[id]} /\
     (ret = RET_SUCCESS -> toolTokenInfoMap (t_tools t') = delete id (toolTokenInfoMap m) /\ pidToolTokenMap (t_tools t') !! p = None /\
        id ∉ tokenIdSet_ (w_ids (t_world t')) /\ requestedPermData_ (w_brief (t_world t')) !! id = None) /\
     (ret <> RET_SUCCESS -> t_tools t' = set_deleting (deletingToolTokenIdSet m ∖ {[id]}) m /\
        (DeleteToolToken_begin p t').1 = inr id)).
Proof.
  intros Hd Hst m. pose proof (tool_steps_inv _ _ Hst (no_tools_inv w0 tickets Hd)) as H. cbn [fst snd] in H.
  pose proof (ti_maps _ _ H) as Hm. split_and!.
  - intros p id. split; [apply Hm|]. intros (i & Hi & <-). by apply (mi_info _ _ Hm) in Hi as [_ ?].
  - intros h id. split; [|intros (i & Hi & <-); by eapply mi_owned].
    intros (s & Hs & Hin). destruct (mi_host _ _ Hm _ _ Hs) as [_ Ha]. by apply Ha.
  - intros id i Hi. split; [by apply (mi_info _ _ Hm) in Hi as [? _]|]. eapply ti_ids; [exact H|]. by exists i.
  - intros rands req p i Hp Hh. destruct (InitCliToken _ _ _ _ _) as [[[ret id] kp] t'] eqn:E. cbn. intros ->.
    eapply Init_cases in E; [|exact Hh]. rewrite decide_True in E by done. destruct E as (perms & _ & _ & ids & k & _ & _ & _ & Ha & _).
    apply AddTool_cases in Ha as [[? _]|(_ & _ & Hn & _)]; [done|]. cbn in Hn. fold m in Hn. rewrite Hn in Hp. by destruct Hp.
  - apply Hm.
  - apply H.
  - intros p id Hp Hn. unfold DeleteToolToken_begin. fold m. by rewrite Hp, bool_decide_eq_false_2.
  - intros p id Hp. pose proof (mi_pending _ _ Hm _ _ Hp) as Hpid. fold m in Hpid. split.
    + unfold DeleteToolToken_begin. fold m. cbv zeta. rewrite Hpid, bool_decide_eq_true_2; [done|]. apply (mi_deleting _ _ Hm). by exists p.
    + destruct (DeleteToolToken_end p id t) as [ret t'] eqn:E. destruct (end_inv parentHapToken pending p id t ret t' H Hp E) as (Hi' & H1 & H2).
      destruct (decide (ret = RET_SUCCESS)) as [->|Hne].
      * destruct (H1 eq_refl) as (E1 & E2 & E3 & E4). split; [exact E2|]. split; [|done]. intros _. split_and!; [done| |done|done].
        apply eq_None_not_Some. intros [x Hx]. pose proof (mi_pid _ _ (ti_maps _ _ Hi') _ _ Hx) as (i & Hix & Ec). rewrite E1 in Hix.
        apply lookup_delete_Some in Hix as [Hne Hix]. apply Hne. destruct (mi_info _ _ Hm _ _ Hix) as [_ Hx']. rewrite Ec in Hx'. subst m. congruence.
      * specialize (H2 Hne). rewrite H2. split; [done|]. split; [done|]. intros _. split; [done|].
        unfold DeleteToolToken_begin. rewrite H2. cbn. fold m. rewrite Hpid, bool_decide_eq_false_2 by set_solver. done.
Qed.

End Interleavings.

(** ** What a new token may do. *)
Lemma c_str_idem s : c_str (c_str s) = c_str s.
Proof. induction s as [|a s IH]; cbn; [done|]. destruct (Ascii.eqb a Ascii.zero) eqn:E; cbn; [done|]. by rewrite E, IH. Qed.

Lemma Deserialize_plain {JT : JsonText} s ok a : DeserializeCliAuthInfo s = (ok, a) -> Forall plain_string (ca_permissionNames a).
Proof.
  unfold DeserializeCliAuthInfo. cbv zeta. split_if; [intros [= _ <-]; constructor|].
  destruct (CreateJsonFromString s) as [root|]; [|intros [= _ <-]; constructor]. intros [= _ <-]. cbn [ca_permissionNames].
  destruct (GetArrayFromJson root "permissionNames") as [l|]; [|constructor]. apply Forall_forall.
  intros n (j & _ & Hj)%list_elem_of_omap. destruct j; try done. injection Hj as <-. apply c_str_idem.
Qed.

Section Answers.
Context {PT : PermTable} `{!PermTableLaws PT} {BC : BuildConfig} {K : Type} `{!TokenDevice K} `{!TokenDeviceLaws K}.

(** A state stands for a permission that is granted and not restricted. *)
Definition state_grants (s : PermissionStatus) (c : Z) : Prop :=
  TransferPermissionToOpcode (ps_permissionName s) = Some c /\ ps_grantStatus s = PERMISSION_GRANTED /\
  Z.testbit (u32 (ps_grantFlag s)) 9 = false.

Lemma created_answer id states acl st c :
  is_u32 id -> brief_wf st -> requestedPermData_ st !! id = None -> plain_names states ->
  Forall (fun s => Z.testbit (u32 (ps_grantFlag s)) 4 = false) states ->
  VerifyPermissionStatus_code id c (AddPermToBriefPermission id states acl true st) = PERMISSION_GRANTED <->
  exists s, s ∈ FilterInvalidPermissionState (GetTokenIdTypeEnum id) true states /\ state_grants s c.
Proof.
  intros Hid Hw Hnone Hp H4. rewrite Verify_entry, AddPerm_entry by done. set (l := FilterInvalidPermissionState _ _ _).
  assert (forall s d, s ∈ l -> brief_of_state s = Some d -> bpd_permCode d = c ->
    (GetEffectivePermissionStatus d = PERMISSION_GRANTED <-> state_grants s c)) as Heff.
  { intros s d [Hs _]%FilterInvalidPermissionState_ok Hd Hc. rewrite Forall_forall in H4. specialize (H4 s Hs).
    pose proof (brief_of_state_name _ _ Hd) as Hn. rewrite Hc in Hn. unfold brief_of_state in Hd. split_if_in Hd; [done|].
    rewrite Hn in Hd. injection Hd as <-. rewrite effective_bits. cbn [bpd_flag bpd_status]. rewrite H4. unfold state_grants. rewrite Hn.
    destruct (Z.testbit (u32 (ps_grantFlag s)) 9); naive_solver. }
  destruct (find_if (has_code c) (omap brief_of_state l)) as [d|] eqn:F.
  - pose proof F as [(s & Hs & Hd)%list_elem_of_omap Hcode]%find_if_Some. unfold has_code in Hcode. breflect. rewrite (Heff s d Hs Hd Hcode). split; [naive_solver|].
    intros (s' & Hs' & Hg). enough (s' = s) as -> by done. destruct Hg as [Hn' _]. pose proof (brief_of_state_name _ _ Hd) as Hn.
    rewrite Hcode in Hn. pose proof (opcode_inj _ _ _ Hn Hn') as Heq.
    eapply (NoDup_map_inj (fun s => c_str (ps_permissionName s))); [by apply plain_filter| | |]; eauto.
  - rewrite (secComp_absent st), andb_false_r; [|done..|intros x; by rewrite AddPerm_secComp]. split; [done|].
    intros (s & Hs & Hg). pose proof Hs as [_ Hok]%FilterInvalidPermissionState_ok. destruct Hg as (Hn & Hst & _).
    assert (exists d, brief_of_state s = Some d /\ bpd_permCode d = c) as (d & Hd & Hc).
    { unfold brief_of_state. rewrite Hst, Hn. cbn. by eexists. }
    pose proof (proj1 (find_if_None _ _) F d) as Hno. unfold has_code in Hno. rewrite Hc, Z.eqb_refl in Hno.
    discriminate Hno. apply list_elem_of_omap. by exists s.
Qed.

(** The codes that reach the kernel. *)
Lemma zip_split {A B} (l : list (A * B)) : length (split l).1 = length (split l).2 /\ zip (split l).1 (split l).2 = l.
Proof. induction l as [|[a b] l [IH1 IH2]]; [done|]. cbn. destruct (split l) as [x y]. cbn in *. by rewrite IH1, IH2. Qed.

Lemma restricted_flag f : IsPermissionRestrictedByAdminFlag f = Z.testbit (u32 f) 9.
Proof.
  unfold IsPermissionRestrictedByAdminFlag. change PERMISSION_RESTRICTED_BY_ADMIN with (2 ^ 9). rewrite nz_land_bit by lia.
  by rewrite u32_testbit.
Qed.

Lemma tool_codes states c :
  length (BuildPermStatusList CLI states).1 = length (BuildPermStatusList CLI states).2 /\
  (c ∈ status_codes (BuildPermStatusList CLI states) <->
   exists s, s ∈ FilterInvalidPermissionState TOKEN_SHELL true states /\ state_grants s c).
Proof.
  unfold BuildPermStatusList, status_codes. cbn [GetTokenTypeByToolType]. set (l := FilterInvalidPermissionState _ _ _).
  destruct (zip_split (omap (fun permState : PermissionStatus =>
    match TransferPermissionToOpcode (ps_permissionName permState) with
    | None => None
    | Some opCode => Some (opCode, (ps_grantStatus permState =? PERMISSION_GRANTED) &&
                      negb (IsPermissionRestrictedByAdminFlag (ps_grantFlag permState)))
    end) l)) as [H1 ->]. split; [exact H1|]. rewrite list_elem_of_omap. setoid_rewrite list_elem_of_omap. unfold state_grants. split.
  - intros ([c' b] & (s & Hs & Hb) & Hc). exists s. split; [done|].
    destruct (TransferPermissionToOpcode (ps_permissionName s)) as [x|]; [|done]. injection Hb as -> <-. cbn in Hc.
    split_if_in Hc; [|done]. injection Hc as ->. rewrite restricted_flag in E. breflect. by split_and!.
  - intros (s & Hs & Hn & Hg & Hf). exists (c, true). split; [|done]. exists s. split; [done|]. rewrite Hn, Hg, restricted_flag, Hf. done.
Qed.

End Answers.

(** ** Creation, from the ticket to the kernel. *)
Section Creation.
Context {PT : PermTable} `{!PermTableLaws PT} {BC : BuildConfig} {CC : ClawConfig} {AF : AgentFence} {JT : JsonText}.
Context {S K : Type} `{!AtmDb S} `{!TokenDevice K, !TokenDeviceLaws K}.
Context (parentHapToken : Z -> Z + Z).
Implicit Types (w : World S K) (t : ToolState S K).

(** The state of a permission of a message, after the user policies. *)
Lemma tool_state_of w id i valid a s :
  s ∈ tool_states w id i (auth_statuses valid a) ->
  exists n r, (n, r) ∈ combine (ca_permissionNames a) (ca_authorizationResults a) /\ ps_permissionName s = n /\
    ps_grantStatus s = (if valid && r then PERMISSION_GRANTED else PERMISSION_DENIED) /\ Z.testbit (u32 (ps_grantFlag s)) 4 = false /\
    (Z.testbit (u32 (ps_grantFlag s)) 9 = false -> SUPPORT_MANAGE_USER_POLICY = true ->
     forall c, TransferPermissionToOpcode n = Some c ->
       IsPermissionRestricted id (hti_userID (tokenInfoBasic_ i)) c (w_policies w) = false).
Proof.
  unfold tool_states, UpdatePermissionStatusListForUserPolicy, auth_statuses. split_if.
  - intros ([n r] & -> & Hin)%list_elem_of_fmap. exists n, r. split_and!; try done. intros _ Hs. by rewrite Hs in E.
  - intros (s0 & -> & ([n r] & -> & Hin)%list_elem_of_fmap)%list_elem_of_fmap. exists n, r. cbn [ticket_status ps_permissionName fst snd].
    destruct (TransferPermissionToOpcode n) as [c|]; [destruct (IsPermissionRestricted id _ c (w_policies w)) eqn:R|]; cbn [set_ps_flag ps_permissionName ps_grantStatus ps_grantFlag].
    + split_and!; try done.
    + split_and!; try done. congruence.
    + split_and!; try done.
Qed.

Lemma auth_plain s a w id i valid : DeserializeCliAuthInfo s = (true, a) -> plain_names (tool_states w id i (auth_statuses valid a)).
Proof.
  intros Hp%Deserialize_plain. rewrite Forall_forall in Hp. apply Forall_forall.
  intros x (n & r & Hin & -> & _)%tool_state_of. apply Hp. apply list_elem_of_In in Hin. apply in_combine_l in Hin. by apply list_elem_of_In.
Qed.

(** What a new token answers is what its states grant, in the store and in the device. *)
Lemma init_done_answers pending req pid i t id kp t' perms name c :
  tool_inv pending t -> brief_wf (w_brief (t_world t)) -> init_done req pid i t id kp t' perms ->
  let states := tool_states (t_world t) id i perms in
  plain_names states -> Forall (fun s => Z.testbit (u32 (ps_grantFlag s)) 4 = false) states ->
  TransferPermissionToOpcode name = Some c ->
  (VerifyToolAccessToken id name t' = PERMISSION_GRANTED <->
   exists s, s ∈ FilterInvalidPermissionState TOKEN_SHELL true states /\ state_grants s c) /\
  (dev_granted (w_kernel (t_world t')) id c = true <-> VerifyToolAccessToken id name t' = PERMISSION_GRANTED).
Proof.
  intros Hinv Hw Hd states Hp H4 Hn. assert (requestedPermData_ (w_brief (t_world t)) !! id = None) as Hnone by (by eapply init_done_inv in Hd as (_ & _ & ?)).
  destruct Hd as (_ & _ & ids' & k & Hid & Hk & Ew & Ha & _). destruct Hid as (_ & _ & Hu & Hty & _ & _). fold states in Hk, Ew.
  apply AddTool_cases in Ha as [[? _]|(_ & _ & _ & Em)]; [done|].
  assert (VerifyToolAccessToken id name t' = PERMISSION_GRANTED <->
    exists s, s ∈ FilterInvalidPermissionState TOKEN_SHELL true states /\ state_grants s c) as Hs.
  { unfold VerifyToolAccessToken. rewrite Em. cbn [toolTokenInfoMap tool_inner baseInfo cb_tokenId]. rewrite lookup_insert_eq.
    cbn [baseInfo cb_tokenId]. unfold VerifyPermissionStatus. rewrite Hn, Ew. cbn [w_brief set_kernel set_brief].
    rewrite <- Hty. by apply created_answer. }
  split; [done|]. rewrite Hs. destruct (tool_codes states c) as [Hl Hc]. rewrite <- Hc.
  pose proof (opcode_range _ _ Hn) as Hr. apply AddNativePermToKernel_law in Hk; [|done|].
  - rewrite Ew. cbn [w_kernel set_kernel]. rewrite Hk, (Z.eqb_refl id) by lia. rewrite <- surjective_pairing. apply bool_decide_eq_true.
  - apply Forall_forall. intros x Hx. destruct (tool_codes states x) as [_ Hx']. destruct (BuildPermStatusList CLI states).
    apply Hx' in Hx as (s & _ & Hg & _). apply opcode_range in Hg. lia.
Qed.

(** C11: the permissions of a command-line token come from its ticket.  A creation with a
    legacy challenge that succeeds found a ticket handed out to this host for this command
    and asked the agent fence about it; a permission the new token holds was authorised in
    the ticket, which the fence confirmed, and is not restricted by a user policy; the kernel
    answers for every permission as the store does.  The ticket is used up: until a new one
    is handed out under the challenge, no creation that presents it succeeds, whatever the
    fence says and whichever process and application asks. *)
Theorem cli_token_permissions pending rands req pid t i id kp t' :
  let raw := NormalizeLegacyChallenge (ci_challenge req) in
  let user := hti_userID (tokenInfoBasic_ i) in
  SAF_AGENT_FENCE_ENABLE = true -> IsLegacyChallenge (ci_challenge req) = true -> raw <> "" ->
  tool_inv pending t -> brief_wf (w_brief (t_world t)) -> host_loaded (t_world t) (ci_hostTokenId req) i ->
  InitCliToken parentHapToken rands req pid t = (RET_SUCCESS, id, kp, t') ->
  exists ticket auth res,
    t_tickets t !! raw = Some ticket /\ ct_callerTokenId ticket = ci_hostTokenId req /\
    DeserializeCliAuthInfo (ct_message ticket) = (true, auth) /\ IsCliInfoMatched (ci_cliInfo req) (ca_cliInfo auth) = true /\
    BatchVerifyTicket user (to_string (ci_hostTokenId req)) [mkVerifyTicketInfo (ct_message ticket) raw (ct_ticket ticket)] =
      (RET_SUCCESS, [res]) /\
    (forall name c, TransferPermissionToOpcode name = Some c ->
       (VerifyToolAccessToken id name t' = PERMISSION_GRANTED <-> dev_granted (w_kernel (t_world t')) id c = true) /\
       (VerifyToolAccessToken id name t' = PERMISSION_GRANTED ->
        res = 0 /\ (c_str name, true) ∈ combine (ca_permissionNames auth) (ca_authorizationResults auth) /\
        (SUPPORT_MANAGE_USER_POLICY = true -> IsPermissionRestricted id user c (w_policies (t_world t)) = false))) /\
    t_tickets t' = delete raw (t_tickets t) /\
    (forall (fence : AgentFence) w tools rands' req' pid' i',
       ci_challenge req' = ci_challenge req -> host_loaded w (ci_hostTokenId req') i' ->
       (InitCliToken (AF := fence) parentHapToken rands' req' pid' (mkToolState w tools (t_tickets t'))).1.1.1 <> RET_SUCCESS).
Proof.
  intros raw user Hsaf Hleg Hraw Hinv Hw Hh E. pose proof Hh as [Hi _].
  apply (Init_cases _ _ _ _ _ i) in E; [|done]. rewrite decide_True in E by done. destruct E as [perms Hd].
  pose proof Hd as (Hv & _ & ids' & k & _ & _ & _ & _ & Htk). rewrite Verify_legacy in Hv by done. fold raw in Hv.
  apply Legacy_sound in Hv as (ticket & auth & res & Ht & Hc & Hde & Hm & -> & Hb).
  rewrite (GetUserId_in_map _ _ _ Hi) in Hb. exists ticket, auth, res. split_and!; try done.
  - intros name c Hn. destruct (init_done_answers _ _ _ _ _ _ _ _ _ name c Hinv Hw Hd) as [Hs Hk]; [by eapply auth_plain| |done|].
    { apply Forall_forall. by intros s (? & ? & _ & _ & _ & ? & _)%tool_state_of. }
    split; [by rewrite Hk|]. intros (s & [Hin _]%FilterInvalidPermissionState_ok & Hg1 & Hg2 & Hg3)%Hs.
    pose proof Hin as (n & r & Hnr & En & Est & _ & Hp)%tool_state_of. rewrite En in Hg1. rewrite Hg2 in Est.
    assert (c_str n = n) as Hpl. { pose proof (auth_plain _ _ (t_world t) id i (res =? 0) Hde) as Hpl. unfold plain_names in Hpl.
      rewrite Forall_forall in Hpl. specialize (Hpl _ Hin). by rewrite En in Hpl. }
    destruct (Z.eqb_spec res 0) as [Hres|]; [|done]. destruct r; [|done]. split_and!; [done| |eauto].
    by rewrite (opcode_inj _ _ _ Hn Hg1), Hpl.
  - rewrite Htk. unfold DeleteClawTicket. fold raw. rewrite Ht. by destruct raw.
  - intros fence w tools rands' req' pid' i' Ec Hh'. destruct (InitCliToken _ _ _ _ _) as [[[ret x] kp2] t2] eqn:E. cbn [fst]. intros ->.
    apply (Init_cases (AF := fence) _ _ _ _ _ i') in E; [|done]. rewrite decide_True in E by done. destruct E as (perms & Hv & _).
    cbn [t_world t_tickets] in Hv. rewrite (Verify_legacy (AF := fence)) in Hv by (by rewrite ?Ec). rewrite Ec in Hv. fold raw in Hv.
    rewrite (Legacy_unknown (AF := fence)) in Hv; [done|]. rewrite Htk. unfold DeleteClawTicket. fold raw. rewrite Ht.
    destruct raw; [done|]. apply lookup_delete_eq.
Qed.

End Creation.

Section Samples.
#[local] Existing Instance sample_table.
#[local] Existing Instance sample_table_laws.
#[local] Existing Instance full_config.
#[local] Existing Instance sample_claw.
#[local] Existing Instance sample_fence.
#[local] Existing Instance sample_text.

Definition no_parent (_ : Z) : Z + Z := inl ERR_TOKENID_NOT_EXIST.
Definition sample_request : CliInitInfo := mkCliInitInfo app_token "legacy:c0" sample_cli.
Definition tool_start : ToolState MemRdb MemDevice := mkToolState created.2 no_tools handed_out.1.2.
Definition tool_created : Z * Z * list string * ToolState MemRdb MemDevice :=
  InitCliToken no_parent (fun _ => 7) sample_request 321 tool_start.

Definition tool_token : Z := 806354951.

Lemma sample_data_ids id : is_Some (requestedPermData_ (w_brief created.2) !! id) -> id ∈ tokenIdSet_ (w_ids created.2).
Proof.
  assert ((fun _ => tt) <$> requestedPermData_ (w_brief created.2) = {[app_token := tt]}) as H by (vm_compute; reflexivity).
  intros [x Hx]. apply (f_equal (fun m : gmap Z unit => m !! id)) in H. rewrite lookup_fmap, Hx in H. symmetry in H.
  apply lookup_singleton_Some in H as [<- _]. apply (bool_decide_eq_true_1 _). vm_compute. reflexivity.
Qed.

Lemma tool_start_inv : tool_inv [] tool_start.
Proof. apply no_tools_inv, sample_data_ids. Qed.

Lemma tool_host : host_loaded created.2 app_token (default default_HapTokenInfoInner (hapTokenInfoMap_ created.2 !! app_token)).
Proof. split; vm_compute; reflexivity. Qed.

Lemma tool_created_eq : InitCliToken no_parent (fun _ => 7) sample_request 321 tool_start = (RET_SUCCESS, tool_token, [], tool_created.2).
Proof. fold tool_created. destruct tool_created as [x w] eqn:E. cbn [snd]. f_equal. change x with (x, w).1. rewrite <- E. vm_compute. reflexivity. Qed.

Lemma tool_tokens_consistent_witness :
  pidToolTokenMap (t_tools tool_created.2) !! 321 = Some tool_token /\
  (InitCliToken no_parent (fun _ => 8) sample_request 321 tool_created.2).1.1.1 <> RET_SUCCESS /\
  (DeleteToolToken_begin 321 tool_created.2).1 = inr tool_token.
Proof.
  destruct (tool_tokens_consistent (CC := sample_claw) no_parent sample_fence created.2 handed_out.1.2 [] tool_created.2 sample_data_ids)
    as (H1 & _ & _ & H4 & _ & H6 & _).
  - apply rtc_once. apply (step_init no_parent [] tool_start sample_fence (fun _ => 7) sample_request 321 _ tool_host).
  - assert (pidToolTokenMap (t_tools tool_created.2) !! 321 = Some tool_token) as Hp by (vm_compute; reflexivity).
    split; [exact Hp|]. split; [eapply H4; [by exists tool_token|]; split; [vm_compute; reflexivity|reflexivity]|].
    rewrite (H6 321 tool_token Hp); [reflexivity|]. intros Hin. apply (bool_decide_eq_true_2 _ (Decision0 := decide _)) in Hin. vm_compute in Hin. discriminate Hin.
Defined.

Lemma cli_token_permissions_witness :
  VerifyToolAccessToken tool_token INTERNET tool_created.2 = PERMISSION_GRANTED /\
  VerifyToolAccessToken tool_token CAMERA tool_created.2 = PERMISSION_DENIED /\
  dev_granted (w_kernel (t_world tool_created.2)) tool_token 4 = true /\
  t_tickets tool_created.2 = delete "c0" (t_tickets tool_start).
Proof.
  destruct (cli_token_permissions (CC := sample_claw) (AF := sample_fence) (JT := sample_text) no_parent [] (fun _ => 7) sample_request 321 tool_start _ tool_token [] tool_created.2
    eq_refl eq_refl ltac:(discriminate) tool_start_inv sample_brief_wf tool_host tool_created_eq)
    as (ticket & auth & res & _ & _ & _ & _ & _ & Hp & Hd & _).
  assert (VerifyToolAccessToken tool_token INTERNET tool_created.2 = PERMISSION_GRANTED) as Hg by (vm_compute; reflexivity).
  assert (NormalizeLegacyChallenge (ci_challenge sample_request) = "c0") as En by (vm_compute; reflexivity). rewrite En in Hd.
  assert (TransferPermissionToOpcode INTERNET = Some 4) as Ec by (vm_compute; reflexivity). destruct (Hp INTERNET 4 Ec) as [Hk _].
  split; [exact Hg|]. split; [vm_compute; reflexivity|]. split; [exact (proj1 Hk Hg)|exact Hd].
Defined.

End Samples.
