(* ===== verification/ClawDecisionProps.v ===== *)
(** * What the decision engine answers

    The dialog of a command (claw_permission_decision_engine.cpp) agrees with the per-permission
    decisions of the same engine on which permissions stand in the way; whether a dialog is
    needed is decided by the last permission of the command that could be asked for. *)

From stdpp Require Import base gmap list strings.
From S2P Require Import Prelude AccessTokenTypes PermissionMap Validator ClawTicket ClawTicketProps ClawDecision.
#[local] Open Scope string_scope.
#[local] Open Scope list_scope.
#[local] Open Scope Z_scope.
#[local] Open Scope cxx_scope.

Section Dialog.
Context {PT : PermTable} {CC : ClawConfig} {AF : AgentFence}.
Implicit Types (ctx : PermissionStatusMap) (d : PermissionDialogDetail) (l : list CliPermissionDetail).

(** A listed permission is listed once, with the decision made for it, which is one that
    keeps the command from being granted. *)
Record listed ctx d : Prop := {
  li_nodup : NoDup (permissionNameList d);
  li_length : length (permissionNameList d) = length (statusList d);
  li_status n s : (n, s) ∈ zip (permissionNameList d) (statusList d) ->
    ShouldReturnDialogDetailStatus s = true /\ GetPermissionDecisionStatus ctx n NO_DIALOG_NOT_DECLARED = s;
}.

Lemma listed_append ctx d n s :
  listed ctx d -> ShouldReturnDialogDetailStatus s = true -> GetPermissionDecisionStatus ctx n NO_DIALOG_NOT_DECLARED = s ->
  listed ctx (AppendDialogDetailStatus d n s).
Proof.
  intros [H1 H2 H3] Hs Hd. unfold AppendDialogDetailStatus. case_bool_decide as Hn; [done|]. split; cbn.
  - apply NoDup_app. split_and!; [done|set_solver|apply NoDup_singleton].
  - rewrite !length_app, H2. done.
  - intros n' s'. rewrite zip_with_app by done. intros [?|Hin]%elem_of_app; [by apply H3|].
    apply elem_of_cons in Hin as [[= -> ->]|?%elem_of_nil]; [done|done].
Qed.

Lemma listed_need ctx d b : listed ctx d -> listed ctx (set_needDialog b d).
Proof. by intros [H1 H2 H3]. Qed.

(** A permission with a decision of its own has it whatever stands for an undeclared one. *)
Lemma decision_default ctx n (s s1 s2 : PermissionDecisionStatus) :
  GetPermissionDecisionStatus ctx n s1 = s -> s <> s1 -> GetPermissionDecisionStatus ctx n s2 = s.
Proof. unfold GetPermissionDecisionStatus. destruct (ctx !! n); [done|]. by intros ->. Qed.

Lemma append_frame d n s :
  needPermissionDialog (AppendDialogDetailStatus d n s) = needPermissionDialog d /\
  permissionNameList d ⊆ permissionNameList (AppendDialogDetailStatus d n s) /\ n ∈ permissionNameList (AppendDialogDetailStatus d n s).
Proof.
  unfold AppendDialogDetailStatus. destruct (bool_decide_reflect (n ∈ permissionNameList d)); cbn; split_and!; try done.
  - intros x Hx. apply elem_of_app. by left.
  - apply elem_of_app. right. left.
Qed.

Lemma append_used_cons ctx u used d :
  append_used ctx (u :: used) d = append_used ctx used
    (let s := GetPermissionDecisionStatus ctx u NEED_PERMISSION_DIALOG in
     if bool_decide (s = NEED_PERMISSION_DIALOG) then d
     else if ShouldReturnDialogDetailStatus s then AppendDialogDetailStatus d u s else d).
Proof. reflexivity. Qed.

Lemma append_used_listed ctx used : forall d, listed ctx d ->
  listed ctx (append_used ctx used d) /\ needPermissionDialog (append_used ctx used d) = needPermissionDialog d /\
  permissionNameList d ⊆ permissionNameList (append_used ctx used d).
Proof.
  induction used as [|u used IH]; intros d Hd; [done|]. rewrite append_used_cons. cbv zeta.
  case_bool_decide as Hu; [by apply IH|]. destruct (ShouldReturnDialogDetailStatus _) eqn:Hs; [|by apply IH].
  destruct (IH (AppendDialogDetailStatus d u (GetPermissionDecisionStatus ctx u NEED_PERMISSION_DIALOG))) as (H1 & H2 & H3).
  { apply listed_append; [done|done|]. by eapply decision_default. }
  destruct (append_frame d u (GetPermissionDecisionStatus ctx u NEED_PERMISSION_DIALOG)) as (F1 & F2 & _).
  split_and!; [done|congruence|by etrans].
Qed.

(** The verdict on a dialog after one more permission: a permission that could be asked for
    replaces what the permissions before it said. *)
Definition dialog_verdict (l : list CliPermissionDetail) (b : bool) : bool :=
  fold_left (fun b c => match cd_cliPermissionStatus c with
                        | NEED_PERMISSION_DIALOG => true
                        | NO_DIALOG_CLI_PERMISSION_RESOLVED => false
                        | _ => b
                        end) l b.
Definition undeclared (c : CliPermissionDetail) : bool :=
  bool_decide (cd_cliPermissionStatus c = NO_DIALOG_NOT_DECLARED).

Lemma decision_not_resolved ctx n (s0 : PermissionDecisionStatus) : s0 <> NO_DIALOG_CLI_PERMISSION_RESOLVED ->
  GetPermissionDecisionStatus ctx n s0 <> NO_DIALOG_CLI_PERMISSION_RESOLVED.
Proof. intros H. unfold GetPermissionDecisionStatus. destruct (ctx !! n); [|done]. by repeat split_if. Qed.

Local Ltac used_listed Hd :=
  match goal with |- context [append_used ?ctx ?used ?x] =>
    destruct (append_used_listed ctx used x) as (H1 & H2 & H3);
    [first [exact Hd | by apply listed_need | by apply listed_append]|]
  end.

(** One permission of the command. *)
Lemma required_step ctx r d c :
  listed ctx d -> BuildCliPermissionDetailByRequiredPermission ctx r = inr c -> undeclared c = false ->
  exists d', BuildCliDialogDetailByRequiredPermission ctx r d = (RET_SUCCESS, d') /\ listed ctx d' /\
    needPermissionDialog d' = dialog_verdict [c] (needPermissionDialog d) /\ permissionNameList d ⊆ permissionNameList d'.
Proof.
  intros Hd. unfold BuildCliPermissionDetailByRequiredPermission, BuildCliDialogDetailByRequiredPermission.
  destruct (GetUsedPermissionsByCliPermission r) as [ret used]. split_if; [done|].
  pose proof (decision_not_resolved ctx r NO_DIALOG_NOT_DECLARED ltac:(done)) as Hnr.
  destruct (GetPermissionDecisionStatus ctx r NO_DIALOG_NOT_DECLARED) eqn:S; intros [= <-] Hu; try done;
    repeat (rewrite bool_decide_eq_false_2 by done); cbn [ShouldReturnDialogDetailStatus].
  - rewrite (bool_decide_eq_true_2 (NEED_PERMISSION_DIALOG = _)) by done. eexists. split; [done|].
    used_listed Hd. split_and!; [done|rewrite H2; cbn|done]. unfold GetCliPermissionResolvedStatus. by destruct (existsb _ used).
  - eexists. split; [done|]. used_listed Hd. destruct (append_frame d r NO_DIALOG_DENIED) as (F1 & F2 & _). split_and!; [done|by rewrite H2, F1|by etrans].
  - eexists. split; [done|]. used_listed Hd. destruct (append_frame d r NO_DIALOG_RESTRICTED) as (F1 & F2 & _). split_and!; [done|by rewrite H2, F1|by etrans].
  - eexists. split; [done|]. used_listed Hd. by split_and!.
Qed.

(** The answer for an undeclared permission names it. *)
Lemma undeclared_detail ctx r c : BuildCliPermissionDetailByRequiredPermission ctx r = inr c ->
  (GetUsedPermissionsByCliPermission r).1 = RET_SUCCESS /\ cd_requiredCliPermission c = r /\
  (undeclared c = true <-> GetPermissionDecisionStatus ctx r NO_DIALOG_NOT_DECLARED = NO_DIALOG_NOT_DECLARED).
Proof.
  unfold BuildCliPermissionDetailByRequiredPermission, undeclared. destruct (GetUsedPermissionsByCliPermission r) as [ret used].
  destruct (Z.eqb_spec ret RET_SUCCESS) as [->|]; cbn [negb]; [|done].
  destruct (GetPermissionDecisionStatus ctx r NO_DIALOG_NOT_DECLARED); intros [= <-]; cbn; split_and!; try done.
  unfold GetCliPermissionResolvedStatus. by split_if.
Qed.

Lemma dialog_loop ctx reqs : forall b d l,
  details_of ctx reqs = inr l -> listed ctx d -> (b = true -> needPermissionDialog d = false) ->
  exists d', BuildCliPermissionDialogDetail_loop ctx reqs b d = (RET_SUCCESS, b || existsb undeclared l, d') /\ listed ctx d' /\
    needPermissionDialog d' = (if b || existsb undeclared l then false else dialog_verdict l (needPermissionDialog d)) /\
    permissionNameList d ⊆ permissionNameList d' /\
    (forall c, c ∈ l -> undeclared c = true -> cd_requiredCliPermission c ∈ permissionNameList d').
Proof.
  induction reqs as [|r reqs IH]; intros b d l; cbn [details_of BuildCliPermissionDialogDetail_loop].
  { intros [= <-] Hd Hb. cbn. rewrite orb_false_r. exists d. split_and!; try done; [by destruct b; auto|]. by intros c ?%elem_of_nil. }
  destruct (BuildCliPermissionDetailByRequiredPermission ctx r) as [|c] eqn:C; [done|].
  destruct (details_of ctx reqs) as [|l0]; [done|]. intros [= <-] Hd Hb. destruct (undeclared_detail _ _ _ C) as (Hr & Hn & Hu).
  destruct (GetUsedPermissionsByCliPermission r) as [ret used]. cbn in Hr. subst ret. cbn [negb Z.eqb].
  destruct (undeclared c) eqn:U.
  - rewrite (proj1 Hu eq_refl). rewrite bool_decide_eq_true_2 by done. cbn [existsb]. rewrite U, orb_true_r.
    set (d1 := AppendDialogDetailStatus _ _ _).
    assert (r ∈ permissionNameList d1 /\ permissionNameList d ⊆ permissionNameList d1 /\ needPermissionDialog d1 = false) as (Hin & Hsub & Hnd).
    { destruct (append_frame (set_needDialog false d) r NO_DIALOG_NOT_DECLARED) as (F1 & F2 & F3). by split_and!. }
    destruct (IH true d1 l0 eq_refl) as (d' & -> & H1 & H2 & H3 & H4); [apply listed_append, Hu; [by apply listed_need|done|done]|done|].
    cbn [orb] in *. exists d'. split_and!; try done; [by etrans|]. intros x [->|Hx]%elem_of_cons Hux; [rewrite Hn; by apply H3|by apply H4].
  - rewrite bool_decide_eq_false_2 by (by intros ?%Hu). destruct b.
    + destruct (IH true d l0 eq_refl Hd Hb) as (d' & -> & H1 & H2 & H3 & H4). cbn [orb] in *. exists d'. split_and!; try done.
      intros x [->|Hx]%elem_of_cons Hux; [congruence|by apply H4].
    + destruct (required_step _ _ _ _ Hd C U) as (d1 & -> & Hd1 & Hv & Hs). cbn [negb Z.eqb].
      destruct (IH false d1 l0 eq_refl Hd1) as (d' & -> & H1 & H2 & H3 & H4); [done|]. cbn [orb existsb] in *. rewrite U. cbn [orb].
      exists d'. split_and!; try done; [by rewrite H2, Hv|by etrans|]. intros x [->|Hx]%elem_of_cons Hux; [congruence|by apply H4].
Qed.

(** C19: the dialog for a command agrees with the decisions for its permissions.  It lists
    each permission once, with the decision made for it, and only permissions that are
    denied, restricted or undeclared; every undeclared permission of the command is listed,
    and then no dialog is shown.  Otherwise the last of the command's permissions that could
    be asked for decides: a dialog when something it stands for is still to be asked, none
    when everything it stands for is settled. *)
Theorem cli_dialog_spec ctx cli reqs l :
  GetRequiredCliPermissions cli = (RET_SUCCESS, reqs) -> details_of ctx reqs = inr l ->
  exists d, BuildCliPermissionDialogDetail ctx cli default_detail = (RET_SUCCESS, d) /\ listed ctx d /\
    needPermissionDialog d = negb (existsb undeclared l) && dialog_verdict l false /\
    (forall c, c ∈ l -> undeclared c = true -> cd_requiredCliPermission c ∈ permissionNameList d).
Proof.
  intros Hr Hl. unfold BuildCliPermissionDialogDetail. rewrite Hr. cbn [negb Z.eqb].
  destruct (dialog_loop ctx reqs false default_detail l Hl) as (d & -> & H1 & H2 & H3 & H4); [split; cbn; [constructor|done|by intros ?? ?%elem_of_nil]|done|].
  cbn [negb Z.eqb orb] in *. eexists. split; [done|]. destruct (existsb undeclared l); cbn [andb negb]; [split_if|]; split_and!; try done.
  by apply listed_need.
Qed.

End Dialog.

(** ** A command with two permissions of its own. *)
Definition CLI_PHOTO : string := "ohos.permission.cli.PHOTO".
Definition CLI_FETCH : string := "ohos.permission.cli.FETCH".
Definition cli_table : PermTable := mkPermTable (@g_permList sample_table) {[CLI_PHOTO := [CAMERA]; CLI_FETCH := [INTERNET]]}.
Definition two_fence (reqs : list string) : AgentFence := {|
  SAF_ERR_IPC_WRITE_DATA_FAIL := 1; SAF_ERR_IPC_READ_DATA_FAIL := 2; SAF_ERR_IPC_SEND_REQUEST_FAIL := 3;
  SAF_ERR_IPC_PROXY_FAIL := 4; SAF_ERR_IPC_ERROR := 5; SAF_ERR_IPC_INVALID_IPC_CODE := 6; SAF_ERR_SERVICE_UNAVAILABLE := 7;
  SAF_ERR_SERVICE_IS_STOPPING := 8;
  BatchQueryCommandPermission cmds := (0, map (fun c => mkCommandPermissionInfo c reqs 0) cmds);
  BatchGenerateTicket _ _ _ := (0, []);
  BatchVerifyTicket _ _ _ := (0, []);
  VerifyTicket _ _ _ := (0, []);
|}.

Section Samples.
#[local] Existing Instance cli_table.
#[local] Existing Instance sample_claw.

(** The camera is not decided, the network granted; both command permissions can be asked for. *)
Definition cli_context : PermissionStatusMap :=
  {[CLI_PHOTO := mkPermissionStatus 0 CLI_PHOTO "" PERMISSION_DENIED PERMISSION_DEFAULT_FLAG 0;
    CLI_FETCH := mkPermissionStatus 0 CLI_FETCH "" PERMISSION_DENIED PERMISSION_DEFAULT_FLAG 0;
    CAMERA := mkPermissionStatus 0 CAMERA "" PERMISSION_DENIED PERMISSION_DEFAULT_FLAG 0;
    INTERNET := mkPermissionStatus 0 INTERNET "" PERMISSION_GRANTED PERMISSION_SYSTEM_FIXED 0]}.

Definition need_dialog (reqs : list string) : bool :=
  needPermissionDialog (BuildCliPermissionDialogDetail (AF := two_fence reqs) cli_context sample_cli default_detail).2.

(** The same command, with its permissions in the two orders: the undecided camera asks for
    a dialog only when it comes last. *)
Theorem cli_dialog_order :
  need_dialog [CLI_FETCH; CLI_PHOTO] = true /\ need_dialog [CLI_PHOTO; CLI_FETCH] = false /\
  (exists l c, details_of cli_context [CLI_PHOTO; CLI_FETCH] = inr l /\ c ∈ l /\
     cd_cliPermissionStatus c = NEED_PERMISSION_DIALOG).
Proof.
  split; [vm_compute; reflexivity|]. split; [vm_compute; reflexivity|]. do 2 eexists.
  split; [vm_compute; reflexivity|]. split; [left|reflexivity].
Qed.

Lemma cli_dialog_spec_witness :
  exists d, BuildCliPermissionDialogDetail (AF := two_fence [CLI_FETCH; CLI_PHOTO]) cli_context sample_cli default_detail =
    (RET_SUCCESS, d) /\ needPermissionDialog d = true.
Proof.
  destruct (cli_dialog_spec (AF := two_fence [CLI_FETCH; CLI_PHOTO]) cli_context sample_cli [CLI_FETCH; CLI_PHOTO]
    [mkCliPermissionDetail CLI_FETCH NO_DIALOG_CLI_PERMISSION_RESOLVED [INTERNET];
     mkCliPermissionDetail CLI_PHOTO NEED_PERMISSION_DIALOG [CAMERA]]) as (d & Hd & _ & Hn & _); [vm_compute; reflexivity..|].
  exists d. split; [exact Hd|]. rewrite Hn. vm_compute. reflexivity.
Defined.

End Samples.
