(* ===== verification/UserPolicyRefresh.v ===== *)
(** * Refreshing permissions after a change of the user policies

    When a policy or a white list changes, the flag PERMISSION_RESTRICTED_BY_ADMIN of the
    tokens concerned, their rows and their kernel bits are brought in line: the functions of
    accesstoken_info_manager.cpp for applications and of claw_token_info_manager.cpp for
    command-line tokens, with the snapshots they keep and the rollback from them. *)

From stdpp Require Import base gmap list strings sorting.
From S2P Require Import Prelude AccessTokenTypes TokenId Database PermissionMap PermissionDataBrief IdManager UserPolicy HapTokenInfo Kernel InfoManager InfoManagerOps ClawTicket ToolToken.
#[local] Open Scope string_scope.
#[local] Open Scope list_scope.
#[local] Open Scope Z_scope.
#[local] Open Scope cxx_scope.

Inductive UserPolicyRefreshTarget := HAP | TOOL.
#[export] Instance UserPolicyRefreshTarget_eq_dec : EqDecision UserPolicyRefreshTarget.
Proof. solve_decision. Defined.

Record UserPolicyRefreshSnapshot := mkUserPolicyRefreshSnapshot {
  ups_target : UserPolicyRefreshTarget;
  ups_tokenId : Z;
  ups_permCode : Z;
  ups_originalStatus : Z;
  ups_originalFlag : Z;
}.

Definition DEFAULT_SUBPROFILE_INDEX : Z := -1.

(** Whether the kernel lets a permission with this status and flag pass. *)
Definition kernel_status (status flag : Z) : bool :=
  (flag .& PERMISSION_RESTRICTED_BY_ADMIN =? 0) && (status =? PERMISSION_GRANTED).

Section Refresh.
Context {PT : PermTable} {BC : BuildConfig} {S K : Type} `{!AtmDb S} `{!TokenDevice K}.
Implicit Types (w : World S K) (snaps : list UserPolicyRefreshSnapshot).

(** [subProfileIndex] is OsAccountManagerLite::GetOsAccountSubProfileIndex: a code and an index. *)
Definition GetTokenIDByUserID (subProfileIndex : Z -> Z -> Z * Z) (userID subProfileId : Z) w : gset Z :=
  let '(failed, resolvedIndex) :=
    if ACCESS_TOKEN_SUPPORT_SUBPROFILE && (0 <=? subProfileId) then
      let '(ret, index) := subProfileIndex userID subProfileId in
      (negb (ret =? ERR_OK) || (index <? 0), index)
    else (false, DEFAULT_SUBPROFILE_INDEX) in
  if failed : bool then ∅
  else
    list_to_set (omap (fun item : Z * HapTokenInfoInner =>
      let b := tokenInfoBasic_ item.2 in
      if negb (hti_userID b =? userID) then None
      else if negb (resolvedIndex =? DEFAULT_SUBPROFILE_INDEX) && negb (hti_instIndex b =? resolvedIndex) then None
      else Some (hti_tokenID b)) (map_items (hapTokenInfoMap_ w))).

(** All the application tokens of a user: the call with the sub-profile id -1. *)
Definition user_tokens (userID : Z) w : gset Z := GetTokenIDByUserID (fun _ _ => (ERR_OK, 0)) userID (-1) w.

(** ** The flag, its row and the kernel bit of one token. *)
Definition set_restricted (tokenId permCode : Z) (isRestricted : bool) w : Z * bool * World S K :=
  let '(ret, changeType, st) :=
    UpdatePermissionFlag tokenId permCode PERMISSION_RESTRICTED_BY_ADMIN isRestricted (w_brief w) in
  (ret, bool_decide (changeType = Some FLAG_ONLY), set_brief st w).

Definition RollbackRestrictedFlag (tokenId permCode : Z) (isRestricted : bool) w : World S K :=
  (set_restricted tokenId permCode (negb isRestricted) w).2.

Definition UpdateRestrictedFlagToDb (tokenId permCode : Z) w : Z * World S K :=
  let permissionName := TransferOpcodeToPermission permCode in
  let '(now, w) := take_clock w in
  let '(ret, permStateValues) := BuildPermissionStateValues now tokenId [] (w_brief w) in
  if negb (ret =? RET_SUCCESS) then (ret, w)
  else
    match find (fun v => String.eqb (GetString FIELD_PERMISSION_NAME v) permissionName) permStateValues with
    | None => (ERR_PERMISSION_NOT_EXIST, w)
    | Some permStateValue =>
        let conditionValue := Put FIELD_PERMISSION_NAME (TYPE_STRING permissionName) (id_condition tokenId) in
        let '(ret, db) := db_Modify (w_db w) ACCESSTOKEN_PERMISSION_STATE permStateValue conditionValue in
        (if negb (ret =? RET_SUCCESS) then ERR_DATABASE_OPERATE_FAILED else RET_SUCCESS, set_db db w)
    end.

(** The code, [hasFlagChanged] and the state. *)
Definition UpdateRestrictedFlag (tokenId permCode : Z) (isRestricted isPersist : bool) w : Z * bool * World S K :=
  let '(ret, hasFlagChanged, w) := set_restricted tokenId permCode isRestricted w in
  if negb (ret =? RET_SUCCESS) then (ret, false, w)
  else if negb hasFlagChanged || negb isPersist then (RET_SUCCESS, hasFlagChanged, w)
  else
    let '(ret, w) := UpdateRestrictedFlagToDb tokenId permCode w in
    (ret, hasFlagChanged,
     if negb (ret =? RET_SUCCESS) then RollbackRestrictedFlag tokenId permCode isRestricted w else w).

(** The notifications and the kernel, once the flag is set. *)
Definition refresh_kernel (tokenId permCode originalStatus originalFlag : Z) (isRestricted isFlagChanged : bool) w
    : World S K :=
  let permissionName := TransferOpcodeToPermission permCode in
  let kernelStatusBefore := kernel_status originalStatus originalFlag in
  let kernelStatusAfter := negb isRestricted && (originalStatus =? PERMISSION_GRANTED) in
  let w := if isFlagChanged then emit [ParamFlagUpdate] w else w in
  if negb (eqb kernelStatusBefore kernelStatusAfter)
  then emit [ExecuteCallbackAsync tokenId permissionName
               (if kernelStatusAfter then STATE_CHANGE_GRANTED else STATE_CHANGE_REVOKED)]
         (set_kernel (SetPermToKernel (w_kernel w) tokenId permissionName kernelStatusAfter) w)
  else w.

Definition UpdateRestrictedFlagAndRefreshKernel (tokenId permCode : Z) (isRestricted isPersist : bool) w
    : Z * World S K :=
  match QueryStoredPermissionStatusAndFlag tokenId permCode (w_brief w) with
  | inl ret => (ret, w)
  | inr (originalStatus, originalFlag) =>
      let '(ret, isFlagChanged, w) := UpdateRestrictedFlag tokenId permCode isRestricted isPersist w in
      if negb (ret =? RET_SUCCESS) then (ret, w)
      else (RET_SUCCESS, refresh_kernel tokenId permCode originalStatus originalFlag isRestricted isFlagChanged w)
  end.

Definition RestoreRestrictedFlag (tokenId permCode originalFlag : Z) w : Z * World S K :=
  match QueryStoredPermissionStatusAndFlag tokenId permCode (w_brief w) with
  | inl ret => (ret, w)
  | inr (_, currentFlag) =>
      let currentRestricted := nz (currentFlag .& PERMISSION_RESTRICTED_BY_ADMIN) in
      let originalRestricted := nz (originalFlag .& PERMISSION_RESTRICTED_BY_ADMIN) in
      if eqb currentRestricted originalRestricted then (RET_SUCCESS, w)
      else let '(ret, _, w) := set_restricted tokenId permCode originalRestricted w in (ret, w)
  end.

Definition RestoreKernelPermissionState (tokenId permCode originalStatus originalFlag : Z) w : World S K :=
  set_kernel (SetPermToKernel (w_kernel w) tokenId (TransferOpcodeToPermission permCode)
                (kernel_status originalStatus originalFlag)) w.

(** ** The applications of the users whose policy changed. *)

(** The loop over the tokens of a user, with the snapshots taken so far. *)
Fixpoint RefreshUserPolicyFlagForUser_loop (tokens : list Z) (userId : Z) (policy : UserPolicyChange) snaps w
    : Z * list UserPolicyRefreshSnapshot * World S K :=
  match tokens with
  | [] => (RET_SUCCESS, snaps, w)
  | tokenId :: rest =>
      let permCode := upc_permCode policy in
      let isRestricted := IsPermissionRestricted tokenId userId permCode (w_policies w) in
      match QueryStoredPermissionStatusAndFlag tokenId permCode (w_brief w) with
      | inl ret =>
          if ret =? ERR_PERMISSION_NOT_EXIST then RefreshUserPolicyFlagForUser_loop rest userId policy snaps w
          else (ret, snaps, w)
      | inr (originalStatus, originalFlag) =>
          let '(ret, w) := UpdateRestrictedFlagAndRefreshKernel tokenId permCode isRestricted (upc_isPersist policy) w in
          if ret =? ERR_PERMISSION_NOT_EXIST then RefreshUserPolicyFlagForUser_loop rest userId policy snaps w
          else if negb (ret =? RET_SUCCESS) then (ret, snaps, w)
          else
            RefreshUserPolicyFlagForUser_loop rest userId policy
              (snaps ++ [mkUserPolicyRefreshSnapshot HAP tokenId permCode originalStatus originalFlag]) w
      end
  end.
Definition RefreshUserPolicyFlagForUser (userId : Z) (policy : UserPolicyChange) snaps w
    : Z * list UserPolicyRefreshSnapshot * World S K :=
  RefreshUserPolicyFlagForUser_loop (elements (user_tokens userId w)) userId policy snaps w.

(** The two nested loops over the changes: every user of every change, in order. *)
Definition policy_users (changes : list UserPolicyChange) : list (Z * UserPolicyChange) :=
  flat_map (fun policy => map (fun userId => (userId, policy)) (merge_sort Z.le (elements (upc_changedUserList policy))))
    changes.

Fixpoint RefreshUserPolicyFlag_loop (users : list (Z * UserPolicyChange)) snaps w
    : Z * list UserPolicyRefreshSnapshot * World S K :=
  match users with
  | [] => (RET_SUCCESS, snaps, w)
  | (userId, policy) :: rest =>
      let '(ret, snaps, w) := RefreshUserPolicyFlagForUser userId policy snaps w in
      if negb (ret =? RET_SUCCESS) then (ret, snaps, w) else RefreshUserPolicyFlag_loop rest snaps w
  end.
Definition RefreshUserPolicyFlag (changedPolicyList : list UserPolicyChange) snaps w
    : Z * list UserPolicyRefreshSnapshot * World S K :=
  RefreshUserPolicyFlag_loop (policy_users changedPolicyList) snaps w.

Definition RollbackUserPolicyFlag_item w (snap : UserPolicyRefreshSnapshot) : World S K :=
  if negb (bool_decide (ups_target snap = HAP)) then w
  else
    let '(_, w) := RestoreRestrictedFlag (ups_tokenId snap) (ups_permCode snap) (ups_originalFlag snap) w in
    let '(_, w) := UpdateRestrictedFlagToDb (ups_tokenId snap) (ups_permCode snap) w in
    RestoreKernelPermissionState (ups_tokenId snap) (ups_permCode snap) (ups_originalStatus snap) (ups_originalFlag snap) w.
Definition RollbackUserPolicyFlag snaps w : World S K := fold_left RollbackUserPolicyFlag_item (rev snaps) w.

(** ** The command-line tokens. *)
Implicit Types (t : ToolState S K).

(** ToolTokenInfoManager::UpdateRestrictedFlag through ClawTokenInfoInnerBase. *)
Definition ToolUpdateRestrictedFlag (toolTokenId permCode : Z) (isRestricted : bool) t : Z * bool * ToolState S K :=
  match toolTokenInfoMap (t_tools t) !! toolTokenId with
  | None => (ERR_TOKENID_NOT_EXIST, false, t)
  | Some inner =>
      let '(ret, changed, w) := set_restricted (cb_tokenId (baseInfo inner)) permCode isRestricted (t_world t) in
      (ret, (ret =? RET_SUCCESS) && changed, mkToolState w (t_tools t) (t_tickets t))
  end.

Fixpoint ToolRefreshUserPolicyFlagForUser_loop (tokens : list Z) (userId : Z) (policy : UserPolicyChange) snaps t
    : Z * list UserPolicyRefreshSnapshot * ToolState S K :=
  match tokens with
  | [] => (RET_SUCCESS, snaps, t)
  | tokenId :: rest =>
      let permCode := upc_permCode policy in
      let isRestricted := IsPermissionRestricted tokenId userId permCode (w_policies (t_world t)) in
      match QueryStoredPermissionStatusAndFlag tokenId permCode (w_brief (t_world t)) with
      | inl ret =>
          if ret =? ERR_PERMISSION_NOT_EXIST then ToolRefreshUserPolicyFlagForUser_loop rest userId policy snaps t
          else (ret, snaps, t)
      | inr (originalStatus, originalFlag) =>
          let '(ret, isFlagChanged, t) := ToolUpdateRestrictedFlag tokenId permCode isRestricted t in
          if negb (ret =? RET_SUCCESS) then (ret, snaps, t)
          else
            ToolRefreshUserPolicyFlagForUser_loop rest userId policy
              (snaps ++ [mkUserPolicyRefreshSnapshot TOOL tokenId permCode originalStatus originalFlag])
              (on_world (refresh_kernel tokenId permCode originalStatus originalFlag isRestricted isFlagChanged) t)
      end
  end.

Fixpoint ToolRefreshUserPolicyFlag_loop (users : list (Z * UserPolicyChange)) snaps t
    : Z * list UserPolicyRefreshSnapshot * ToolState S K :=
  match users with
  | [] => (RET_SUCCESS, snaps, t)
  | (userId, policy) :: rest =>
      let '(ret, snaps, t) :=
        ToolRefreshUserPolicyFlagForUser_loop (GetToolTokenIDByUserID userId (t_tools t)) userId policy snaps t in
      if negb (ret =? RET_SUCCESS) then (ret, snaps, t) else ToolRefreshUserPolicyFlag_loop rest snaps t
  end.
Definition ToolRefreshUserPolicyFlag (changedPolicyList : list UserPolicyChange) snaps t
    : Z * list UserPolicyRefreshSnapshot * ToolState S K :=
  ToolRefreshUserPolicyFlag_loop (policy_users changedPolicyList) snaps t.

(** RestoreRestrictedFlagForToolToken is RestoreRestrictedFlag again; a failure skips the kernel. *)
Definition ToolRollbackUserPolicyFlag_item w (snap : UserPolicyRefreshSnapshot) : World S K :=
  if negb (bool_decide (ups_target snap = TOOL)) then w
  else
    let '(ret, w) := RestoreRestrictedFlag (ups_tokenId snap) (ups_permCode snap) (ups_originalFlag snap) w in
    if negb (ret =? RET_SUCCESS) then w
    else RestoreKernelPermissionState (ups_tokenId snap) (ups_permCode snap) (ups_originalStatus snap) (ups_originalFlag snap) w.
Definition ToolRollbackUserPolicyFlag snaps w : World S K := fold_left ToolRollbackUserPolicyFlag_item (rev snaps) w.

(** ** Both, from the service (RefreshUserPolicyPermState). *)
Definition RefreshUserPolicyPermState (changedPolicyList : list UserPolicyChange) t : Z * ToolState S K :=
  match changedPolicyList with
  | [] => (RET_SUCCESS, t)
  | _ =>
      let '(ret, hapSnapshots, w) := RefreshUserPolicyFlag changedPolicyList [] (t_world t) in
      let t := mkToolState w (t_tools t) (t_tickets t) in
      if negb (ret =? RET_SUCCESS) then (ret, on_world (RollbackUserPolicyFlag hapSnapshots) t)
      else
        let '(ret, toolSnapshots, t) := ToolRefreshUserPolicyFlag changedPolicyList [] t in
        if negb (ret =? RET_SUCCESS)
        then (ret, on_world (RollbackUserPolicyFlag hapSnapshots) (on_world (ToolRollbackUserPolicyFlag toolSnapshots) t))
        else (RET_SUCCESS, t)
  end.

End Refresh.
