(* ===== verification/UserPolicyRefreshTheory.v ===== *)
(** * The refresh after a policy change, as marks on the permission store

    Each step of a refresh puts or removes one restriction mark.  A mark can be undone, so the
    rollback from the snapshots gives back the store the refresh started from; and what
    marks decide does not depend on their order. *)

From stdpp Require Import base gmap list strings sorting.
From S2P Require Import Prelude AccessTokenTypes TokenId Database PermissionMap DataTranslator PermissionDataBrief PermissionDataBriefTheory IdManager UserPolicy HapTokenInfo HapTokenInfoProps Kernel InfoManager InfoManagerOps InfoManagerTheory ClawTicket ToolToken UserPolicyRefresh.
#[local] Open Scope string_scope.
#[local] Open Scope list_scope.
#[local] Open Scope Z_scope.
#[local] Open Scope cxx_scope.

(** ** One mark. *)
Definition marked_flag (b : bool) (f : Z) : Z :=
  if b then f .| PERMISSION_RESTRICTED_BY_ADMIN else f .& u32_not PERMISSION_RESTRICTED_BY_ADMIN.
Definition mark_entry (b : bool) (d : BriefPermData) : BriefPermData := set_bpd_flag (marked_flag b (bpd_flag d)) d.
Definition mark (t c : Z) (b : bool) (st : Brief) : Brief :=
  (UpdatePermissionFlag t c PERMISSION_RESTRICTED_BY_ADMIN b st).2.
Definition is_marked (d : BriefPermData) : bool := Z.testbit (bpd_flag d) 9.

Lemma marked_flag_bit b f n : 0 <= n -> is_u32 f ->
  Z.testbit (marked_flag b f) n = if n =? 9 then b else Z.testbit f n.
Proof.
  intros Hn Hf. unfold marked_flag. change PERMISSION_RESTRICTED_BY_ADMIN with (2 ^ 9). destruct b.
  - rewrite Z.lor_spec, Z.pow2_bits_eqb by lia. rewrite Z.eqb_sym. by destruct (Z.eqb_spec n 9); [rewrite orb_true_r|rewrite orb_false_r].
  - rewrite Z.land_spec, u32_not_testbit, Z.pow2_bits_eqb by lia. rewrite (Z.eqb_sym 9).
    destruct (Z.eqb_spec n 9); cbn; [by rewrite andb_false_r, andb_false_r|]. rewrite andb_true_r.
    destruct (Z.ltb_spec n 32); [by rewrite andb_true_r|]. rewrite andb_false_r. symmetry. apply is_u32_bits in Hf as [_ Hf]. apply Hf. lia.
Qed.

Lemma marked_flag_u32 b f : is_u32 f -> is_u32 (marked_flag b f).
Proof. intros Hf. destruct b; [by apply lor_is_u32|]. apply land_is_u32; [done|]. apply u32_not_is_u32. Qed.

Lemma marked_flag_twice b b' f : is_u32 f -> marked_flag b' (marked_flag b f) = marked_flag b' f.
Proof.
  intros Hf. apply Z.bits_inj'. intros n Hn. rewrite !marked_flag_bit by auto using marked_flag_u32. by destruct (n =? 9).
Qed.

Lemma marked_flag_same f : is_u32 f -> marked_flag (Z.testbit f 9) f = f.
Proof.
  intros Hf. apply Z.bits_inj'. intros n Hn. rewrite marked_flag_bit by done. by destruct (Z.eqb_spec n 9) as [->|].
Qed.

Lemma update_first_compose {A} (p : A -> bool) (f g : A -> A) l : (forall x, p (g x) = p x) ->
  update_first p f (update_first p g l) = update_first p (fun x => f (g x)) l.
Proof. intros Hp. induction l as [|x l IH]; cbn; [done|]. destruct (p x) eqn:E; cbn; rewrite ?Hp, E; [done|by rewrite IH]. Qed.

Lemma update_first_found {A} (p : A -> bool) (f g : A -> A) l x :
  find_if p l = Some x -> f x = g x -> update_first p f l = update_first p g l.
Proof.
  induction l as [|y l IH]; cbn; [done|]. destruct (p y) eqn:E; [by intros [= ->] ->|]. intros F Hx. by rewrite IH.
Qed.

Lemma update_first_noop {A} (p : A -> bool) (f : A -> A) l x :
  find_if p l = Some x -> f x = x -> update_first p f l = l.
Proof. intros F E. rewrite (update_first_found p f id l x F E). clear. induction l as [|y l IH]; cbn; [done|]. by destruct (p y); [|rewrite IH]. Qed.

Lemma set_requested_same st : set_requested (requestedPermData_ st) st = st.
Proof. by destruct st. Qed.

(** What a mark is, on the list of the token. *)
Lemma mark_cases t c b st :
  (entry st t c = None /\ mark t c b st = st) \/
  exists l d, requestedPermData_ st !! t = Some l /\ find_if (has_code c) l = Some d /\ entry st t c = Some d /\
    mark t c b st = set_requested (<[t := update_first (has_code c) (mark_entry b) l]> (requestedPermData_ st)) st.
Proof.
  unfold mark, UpdatePermissionFlag, entry. destruct (requestedPermData_ st !! t) as [l|] eqn:E; cbn; [|by left].
  destruct (find_if (has_code c) l) as [d|] eqn:F; [|by left]. right. exists l, d. split_and!; try done. cbn.
  by rewrite (update_first_found _ _ (mark_entry b) l d F).
Qed.

Lemma mark_update t c b st d : entry st t c = Some d ->
  UpdatePermissionFlag t c PERMISSION_RESTRICTED_BY_ADMIN b st =
    (RET_SUCCESS, Some (if bpd_flag d =? marked_flag b (bpd_flag d) then NO_CHANGE else FLAG_ONLY), mark t c b st).
Proof.
  unfold mark, UpdatePermissionFlag, entry. destruct (requestedPermData_ st !! t) as [l|] eqn:E; cbn; [|done].
  by intros ->.
Qed.

Lemma entry_mark t c b st t' c' :
  entry (mark t c b st) t' c' = if decide (t = t' /\ c = c') then mark_entry b <$> entry st t c else entry st t' c'.
Proof.
  destruct (mark_cases t c b st) as [[En ->]|(l & d & El & _ & _ & ->)].
  - destruct (decide _) as [[<- <-]|]; [by rewrite En|done].
  - by apply entry_update.
Qed.

Section Store.
Context {PT : PermTable}.

Lemma mark_u32 st t c d : brief_wf st -> entry st t c = Some d -> is_u32 (bpd_flag d).
Proof. intros Hw En. destruct (entry_of_wf _ _ _ _ Hw En) as [Hd _]. by apply entry_wf_u32. Qed.

Lemma mark_wf t c b st : brief_wf st -> brief_wf (mark t c b st).
Proof. intros Hw. by apply UpdatePermissionFlag_wf. Qed.

Lemma mark_mark t c b b' st : brief_wf st -> mark t c b' (mark t c b st) = mark t c b' st.
Proof.
  intros Hw. destruct (mark_cases t c b st) as [[En ->]|(l & d & El & F & En & E1)]; [done|].
  assert (entry (mark t c b st) t c = Some (mark_entry b d)) as En1 by (rewrite entry_mark, decide_True, En; done).
  destruct (mark_cases t c b' (mark t c b st)) as [[En2 _]|(l1 & d1 & El1 & F1 & _ & ->)]; [congruence|].
  rewrite E1 in El1 |- *. cbn in El1. rewrite lookup_insert_eq in El1. injection El1 as <-.
  destruct (mark_cases t c b' st) as [[En2 _]|(l2 & d2 & El2 & F2 & _ & ->)]; [congruence|].
  assert (l2 = l) as -> by congruence. cbn. rewrite insert_insert_eq, update_first_compose by done.
  rewrite (update_first_found _ _ (mark_entry b') l d F); [done|].
  unfold mark_entry. cbn. rewrite marked_flag_twice; [done|]. by eapply mark_u32.
Qed.

Lemma mark_same t c st d : brief_wf st -> entry st t c = Some d -> mark t c (is_marked d) st = st.
Proof.
  intros Hw En. destruct (mark_cases t c (is_marked d) st) as [[_ ->]|(l & d' & El & F & En' & ->)]; [done|].
  assert (d' = d) as -> by congruence.
  rewrite (update_first_noop _ _ l d F), insert_id, set_requested_same by done || (unfold mark_entry, is_marked;
    rewrite marked_flag_same by (by eapply mark_u32); by destruct d). done.
Qed.

Lemma is_marked_mark b d : is_u32 (bpd_flag d) -> is_marked (mark_entry b d) = b.
Proof. intros Hd. unfold is_marked, mark_entry. cbn. by rewrite marked_flag_bit. Qed.

(** Taking a mark back. *)
Lemma mark_undo t c b st d : brief_wf st -> entry st t c = Some d -> mark t c (is_marked d) (mark t c b st) = st.
Proof. intros Hw En. rewrite mark_mark by done. by apply mark_same. Qed.

Lemma query_stored t c st :
  QueryStoredPermissionStatusAndFlag t c st =
    match entry st t c with
    | Some d => inr (bpd_status d, bpd_flag d)
    | None => inl (if bool_decide (is_Some (requestedPermData_ st !! t)) then ERR_PERMISSION_NOT_EXIST else ERR_TOKEN_INVALID)
    end.
Proof.
  unfold QueryStoredPermissionStatusAndFlag, GetBriefPermDataByTokenIdInner, entry.
  destruct (requestedPermData_ st !! t) as [l|]; cbn; [|done]. by destruct (find_if _ _).
Qed.

End Store.

(** ** One token. *)
Section World.
Context {PT : PermTable} `{!PermTableLaws PT} {BC : BuildConfig} {S K : Type} `{!AtmDb S} `{!TokenDevice K}.
Implicit Types (w : World S K) (snaps : list UserPolicyRefreshSnapshot).

(** A refresh touches the permission store, the database, the device, the clock and the
    notifications, and nothing else. *)
Record refresh_frame w w' : Prop := {
  rf_haps : hapTokenInfoMap_ w' = hapTokenInfoMap_ w;
  rf_names : hapTokenIdMap_ w' = hapTokenIdMap_ w;
  rf_reserved : reservedHapTokenIdMap_ w' = reservedHapTokenIdMap_ w;
  rf_natives : nativeTokenInfoMap_ w' = nativeTokenInfoMap_ w;
  rf_ids : w_ids w' = w_ids w;
  rf_policies : w_policies w' = w_policies w;
  rf_modes : w_modes w' = w_modes w;
}.
#[export] Instance refresh_frame_preorder : PreOrder refresh_frame.
Proof. split; [by split|]. intros w1 w2 w3 [] []. split; congruence. Qed.

(** The kernel after one step. *)
Definition kernel_refreshed (t c : Z) (b : bool) (d : BriefPermData) (k : K) : K :=
  let after := negb b && (bpd_status d =? PERMISSION_GRANTED) in
  if negb (eqb (kernel_status (bpd_status d) (bpd_flag d)) after)
  then SetPermToKernel k t (TransferOpcodeToPermission c) after else k.

Lemma refresh_kernel_spec t c b ch d w :
  let w' := refresh_kernel t c (bpd_status d) (bpd_flag d) b ch w in
  refresh_frame w w' /\ w_brief w' = w_brief w /\ w_db w' = w_db w /\ w_kernel w' = kernel_refreshed t c b d (w_kernel w).
Proof. unfold refresh_kernel, kernel_refreshed. destruct (negb (eqb _ _)), ch; cbn; split_and!; by try split. Qed.

Lemma set_restricted_spec t c b w d : entry (w_brief w) t c = Some d ->
  set_restricted t c b w =
    (RET_SUCCESS, negb (bpd_flag d =? marked_flag b (bpd_flag d)), set_brief (mark t c b (w_brief w)) w).
Proof.
  intros En. unfold set_restricted. rewrite (mark_update _ _ _ _ _ En).
  by destruct (bpd_flag d =? _).
Qed.

(** A requested permission has its row. *)
Lemma state_row_found now t c st d : brief_wf st -> entry st t c = Some d ->
  exists vals v, BuildPermissionStateValues now t [] st = (RET_SUCCESS, vals) /\
    find (fun v => String.eqb (GetString FIELD_PERMISSION_NAME v) (TransferOpcodeToPermission c)) vals = Some v.
Proof.
  intros Hw En. unfold entry in En. destruct (requestedPermData_ st !! t) as [l|] eqn:E; [|done]. cbn in En.
  unfold BuildPermissionStateValues, GetBriefPermDataByTokenIdInner. rewrite E. cbn.
  destruct (brief_wf_lookup _ _ _ Hw E) as [_ [_ Hl]].
  set (vals := imap _ l).
  destruct (find (fun v => String.eqb (GetString FIELD_PERMISSION_NAME v) (TransferOpcodeToPermission c)) vals) as [v|] eqn:F; [eauto|].
  exfalso. subst vals. apply find_if_Some in En as [Hin Hc].
  apply list_elem_of_lookup_1 in Hin as [i Hi]. pose proof (Forall_lookup_1 _ _ _ _ Hl Hi) as Hd.
  set (v := BuildPermissionStateValue (now i) t ∅ d).
  assert (v ∈ imap (fun i x => BuildPermissionStateValue (now i) t ∅ x) l) as Hv.
  { apply elem_of_lookup_imap. by exists i, d. }
  pose proof (find_none _ _ F v ltac:(by apply list_elem_of_In)) as Hn. cbn in Hn.
  subst v. rewrite state_value_name in Hn by done. unfold has_code in Hc. breflect. by subst c.
Qed.

Lemma RestrictedToDb_spec t c w d : brief_wf (w_brief w) -> entry (w_brief w) t c = Some d ->
  let '(ret, w') := UpdateRestrictedFlagToDb t c w in
  refresh_frame w w' /\ w_brief w' = w_brief w /\ w_kernel w' = w_kernel w /\
  (ret = RET_SUCCESS \/ ret = ERR_DATABASE_OPERATE_FAILED).
Proof.
  intros Hw En. unfold UpdateRestrictedFlagToDb. cbn [take_clock].
  destruct (state_row_found (fun n => w_clock w (2 * n)%nat) t c (w_brief w) d Hw En) as (vals & v & B & F). cbn [w_brief].
  rewrite B, F. cbn [negb Z.eqb RET_SUCCESS]. destruct (db_Modify _ _ _ _) as [e db]. destruct (negb (e =? _)); cbn; split_and!; auto; by split.
Qed.

(** Marking one token: on success the mark, else nothing of it. *)
Lemma refresh_one t c b p w d ret w' :
  brief_wf (w_brief w) -> entry (w_brief w) t c = Some d ->
  UpdateRestrictedFlagAndRefreshKernel t c b p w = (ret, w') ->
  refresh_frame w w' /\
  (ret = RET_SUCCESS /\ w_brief w' = mark t c b (w_brief w) /\ w_kernel w' = kernel_refreshed t c b d (w_kernel w) \/
   ret = ERR_DATABASE_OPERATE_FAILED /\ w_brief w' = w_brief w /\ w_kernel w' = w_kernel w).
Proof.
  intros Hw En. unfold UpdateRestrictedFlagAndRefreshKernel, UpdateRestrictedFlag.
  rewrite query_stored, En, (set_restricted_spec _ _ _ _ _ En). cbn [negb Z.eqb RET_SUCCESS].
  set (w1 := set_brief _ w). assert (refresh_frame w w1) as F1 by by split.
  destruct (negb (negb _) || negb p) eqn:Hp.
  - cbn [negb Z.eqb RET_SUCCESS]. destruct (refresh_kernel_spec t c b (negb (bpd_flag d =? marked_flag b (bpd_flag d))) d w1) as (F2 & E2 & _ & K2).
    intros [= <- <-]. split; [by etrans|]. left. by rewrite E2, K2.
  - apply orb_false_iff in Hp as [Hch _]. rewrite negb_involutive in Hch. rewrite Hch.
    pose proof (RestrictedToDb_spec t c w1 (mark_entry b d) (mark_wf _ _ _ _ Hw)) as Hdb.
    change (w_brief w1) with (mark t c b (w_brief w)) in Hdb.
    rewrite (entry_mark t c b (w_brief w) t c), decide_True, En in Hdb by done. specialize (Hdb eq_refl).
    destruct (UpdateRestrictedFlagToDb t c w1) as [e w2]. destruct Hdb as (F2 & E2 & K2 & [-> | ->]); cbn [negb Z.eqb RET_SUCCESS].
    + destruct (refresh_kernel_spec t c b true d w2) as (F3 & E3 & _ & K3).
      intros [= <- <-]. split; [do 2 (etrans; [eassumption|]); done|]. left. by rewrite E3, K3, E2, K2.
    + intros [= <- <-]. unfold RollbackRestrictedFlag.
      assert (entry (w_brief w2) t c = Some (mark_entry b d)) as En2 by (rewrite E2; cbn; by rewrite entry_mark, decide_True, En).
      rewrite (set_restricted_spec _ _ _ _ _ En2). cbn. split; [by etrans; [exact F1|]; etrans; [exact F2|]; split|]. right.
      rewrite E2. split_and!; [done| |done]. cbn. replace (negb b) with (is_marked d); [by apply mark_undo|].
      pose proof (mark_u32 _ _ _ _ Hw En) as Hu. destruct (decide (is_marked d = b)) as [<-|]; [|by destruct (is_marked d), b].
      unfold is_marked in Hch. by rewrite marked_flag_same, Z.eqb_refl in Hch.
Qed.

(** ** A series of marks.

    [R t c] is the restriction the policies put on permission [c] of token [t]. *)
Definition snap_key (s : UserPolicyRefreshSnapshot) : Z * Z := (ups_tokenId s, ups_permCode s).

Inductive marks (R : Z -> Z -> bool) (tg : UserPolicyRefreshTarget)
    : Brief -> K -> list UserPolicyRefreshSnapshot -> Brief -> K -> Prop :=
  | marks_nil st k : marks R tg st k [] st k
  | marks_cons st k t c d snaps st' k' : entry st t c = Some d ->
      marks R tg (mark t c (R t c) st) (kernel_refreshed t c (R t c) d k) snaps st' k' ->
      marks R tg st k (mkUserPolicyRefreshSnapshot tg t c (bpd_status d) (bpd_flag d) :: snaps) st' k'.

Lemma marks_app R tg st k l1 st1 k1 l2 st2 k2 :
  marks R tg st k l1 st1 k1 -> marks R tg st1 k1 l2 st2 k2 -> marks R tg st k (l1 ++ l2) st2 k2.
Proof. induction 1; [done|]. intros H2. cbn. econstructor; eauto. Qed.

Lemma marks_wf R tg st k l st' k' : marks R tg st k l st' k' -> brief_wf st -> brief_wf st'.
Proof. induction 1 as [|st k t c d snaps st' k' En _ IH]; [done|]. intros Hw. by apply IH, mark_wf. Qed.

Lemma mark_other t c b st :
  secCompList_ (mark t c b st) = secCompList_ st /\ extendedValue_ (mark t c b st) = extendedValue_ st /\
  forall t', is_Some (requestedPermData_ (mark t c b st) !! t') <-> is_Some (requestedPermData_ st !! t').
Proof.
  destruct (mark_cases t c b st) as [[_ ->]|(l & d & El & _ & _ & ->)]; [done|]. cbn. split_and!; try done.
  intros t'. destruct (decide (t' = t)) as [->|]; [rewrite lookup_insert_eq, El; by split; eauto|by rewrite lookup_insert_ne].
Qed.

Lemma marks_other R tg st k l st' k' : marks R tg st k l st' k' ->
  secCompList_ st' = secCompList_ st /\ extendedValue_ st' = extendedValue_ st /\
  forall t', is_Some (requestedPermData_ st' !! t') <-> is_Some (requestedPermData_ st !! t').
Proof.
  induction 1 as [|st k t c d snaps st' k' En _ (-> & -> & IH)]; [done|].
  destruct (mark_other t c (R t c) st) as (-> & -> & Hd). split_and!; try done. intros t'. by rewrite IH.
Qed.

(** What a series leaves: the marks of its keys, as decided, whatever the order. *)
Lemma marks_entry R tg st k l st' k' : marks R tg st k l st' k' -> brief_wf st -> forall t c,
  entry st' t c = if decide ((t, c) ∈ map snap_key l) then mark_entry (R t c) <$> entry st t c else entry st t c.
Proof.
  induction 1 as [|st k t c d snaps st' k' En _ IH]; intros Hw t' c'.
  { by rewrite decide_False by (cbn; set_solver). }
  rewrite (IH (mark_wf _ _ _ _ Hw)), entry_mark. cbn [map snap_key ups_tokenId ups_permCode].
  pose proof (mark_u32 _ _ _ _ Hw En) as Hu. destruct (decide (t = t' /\ c = c')) as [[<- <-]|Hne].
  - rewrite (decide_True (P := (t, c) ∈ (t, c) :: _)) by set_solver. rewrite En. cbn.
    destruct (decide _); [|done]. unfold mark_entry. cbn. by rewrite marked_flag_twice.
  - destruct (decide ((t', c') ∈ map snap_key snaps)) as [Hin|Hin].
    + rewrite decide_True; [done|]. by apply list_elem_of_further.
    + rewrite decide_False; [done|]. intros [[= -> ->]|]%elem_of_cons; [naive_solver|done].
Qed.

(** The keys of a series have entries. *)
Lemma marks_keys R tg st k l st' k' : marks R tg st k l st' k' -> brief_wf st -> forall t c, (t, c) ∈ map snap_key l ->
  is_Some (entry st t c).
Proof.
  induction 1 as [|st k t c d snaps st' k' En _ IH]; intros Hw t' c'; [by intros ?%not_elem_of_nil|].
  cbn. intros [[= -> ->]|Hin]%elem_of_cons; [by rewrite En|]. specialize (IH (mark_wf _ _ _ _ Hw) _ _ Hin).
  rewrite entry_mark in IH. destruct (decide _) as [[<- <-]|]; [by rewrite En|done].
Qed.

(** ** The loop over the tokens of a user. *)
Lemma refresh_user_loop R u p tokens : forall snaps w ret snaps' w',
  brief_wf (w_brief w) ->
  (forall t, t ∈ tokens -> R t (upc_permCode p) = IsPermissionRestricted t u (upc_permCode p) (w_policies w)) ->
  RefreshUserPolicyFlagForUser_loop tokens u p snaps w = (ret, snaps', w') ->
  refresh_frame w w' /\ exists new, snaps' = snaps ++ new /\
    marks R HAP (w_brief w) (w_kernel w) new (w_brief w') (w_kernel w') /\
    (forall t c, (t, c) ∈ map snap_key new -> t ∈ tokens /\ c = upc_permCode p) /\
    (ret = RET_SUCCESS -> forall t, t ∈ tokens -> is_Some (entry (w_brief w) t (upc_permCode p)) ->
       (t, upc_permCode p) ∈ map snap_key new).
Proof.
  induction tokens as [|t tokens IH]; intros snaps w ret snaps' w' Hw HR; cbn [RefreshUserPolicyFlagForUser_loop].
  { intros [= <- <- <-]. split; [done|]. exists []. rewrite app_nil_r. split_and!; [done|constructor| |]; cbn; set_solver. }
  cbv zeta. rewrite <- HR by left. rewrite query_stored. destruct (entry (w_brief w) t _) as [d|] eqn:En.
  - destruct (UpdateRestrictedFlagAndRefreshKernel _ _ _ _ w) as [e w1] eqn:U.
    apply (refresh_one _ _ _ _ _ d) in U as [F1 [(-> & E1 & K1)|(-> & E1 & K1)]]; [| |done..].
    + cbn [Z.eqb ERR_PERMISSION_NOT_EXIST RET_SUCCESS negb]. intros H. apply IH in H as (F2 & new & -> & M & Hk & Hall).
      2: { rewrite E1. by apply mark_wf. }
      2: { intros x Hx. rewrite (rf_policies _ _ F1). apply HR. by right. }
      split; [by etrans|]. rewrite E1, K1 in M. eexists (_ :: new). split_and!.
      * by rewrite <- app_assoc.
      * by econstructor.
      * intros x c [[= -> ->]|Hx]%elem_of_cons; [split; [left|done]|]. destruct (Hk _ _ Hx). split; [by right|done].
      * intros Hr x Hx Hen. cbn. destruct (decide (x = t)) as [->|Hne]; [left|]. right.
        apply elem_of_cons in Hx as [|Hx]; [done|]. apply Hall; [done..|].
        rewrite E1, entry_mark, decide_False by naive_solver. done.
    + cbn [Z.eqb ERR_PERMISSION_NOT_EXIST ERR_DATABASE_OPERATE_FAILED RET_SUCCESS negb]. intros [= <- <- <-].
      split; [done|]. exists []. rewrite app_nil_r, E1, K1. split_and!; [done|constructor| |done]. cbn. set_solver.
  - destruct (bool_decide _); cbn [Z.eqb ERR_PERMISSION_NOT_EXIST ERR_TOKEN_INVALID].
    + intros H. apply IH in H as (F2 & new & -> & M & Hk & Hall); [|done|intros; apply HR; by right].
      split; [done|]. exists new. split_and!; try done.
      * intros x c Hx. destruct (Hk _ _ Hx). split; [by right|done].
      * intros Hr x [->|Hx]%elem_of_cons Hen; [by rewrite En in Hen; destruct Hen|]. by apply Hall.
    + intros [= <- <- <-]. split; [done|]. exists []. rewrite app_nil_r. split_and!; [done|constructor| |done]. cbn. set_solver.
Qed.

(** ** All the users of the changes. *)

(** The tokens of the map carry their key as id. *)
Definition keyed w : Prop := forall id info, hapTokenInfoMap_ w !! id = Some info -> hti_tokenID (tokenInfoBasic_ info) = id.

Lemma elem_of_user_tokens u w t : keyed w ->
  t ∈ user_tokens u w <-> exists info, hapTokenInfoMap_ w !! t = Some info /\ hti_userID (tokenInfoBasic_ info) = u.
Proof.
  intros Hk. unfold user_tokens, GetTokenIDByUserID. rewrite andb_false_r. cbn [Z.eqb Pos.eqb DEFAULT_SUBPROFILE_INDEX negb andb].
  rewrite elem_of_list_to_set, list_elem_of_omap. split.
  - intros ([id info] & Hin%elem_of_map_items & E). cbn in E. destruct (Z.eqb_spec (hti_userID (tokenInfoBasic_ info)) u); [|done].
    injection E as <-. exists info. by rewrite (Hk _ _ Hin).
  - intros (info & Hi & <-). exists (t, info). split; [by apply elem_of_map_items|]. cbn. by rewrite Z.eqb_refl, (Hk _ _ Hi).
Qed.

Lemma elem_of_policy_users changes u p :
  (u, p) ∈ policy_users changes <-> p ∈ changes /\ u ∈ upc_changedUserList p.
Proof.
  unfold policy_users. rewrite list_elem_of_In, in_flat_map. split.
  - intros (q & Hq & (x & [= -> ->] & Hx)%in_map_iff). rewrite <- list_elem_of_In in Hq. rewrite <- list_elem_of_In in Hx. split; [done|].
    rewrite merge_sort_Permutation in Hx. by apply elem_of_elements.
  - intros [Hp Hu]. exists p. rewrite <- list_elem_of_In. split; [done|]. apply in_map_iff. exists u. split; [done|].
    rewrite <- list_elem_of_In, merge_sort_Permutation. by apply elem_of_elements.
Qed.

(** What the policies say of a permission of an installed application. *)
Definition hap_restricted w (t c : Z) : bool :=
  match hapTokenInfoMap_ w !! t with
  | Some info => IsPermissionRestricted t (hti_userID (tokenInfoBasic_ info)) c (w_policies w)
  | None => false
  end.

Lemma hap_restricted_frame w w' : refresh_frame w w' -> hap_restricted w' = hap_restricted w.
Proof. intros F. unfold hap_restricted. by rewrite (rf_haps _ _ F), (rf_policies _ _ F). Qed.

Lemma keyed_frame w w' : refresh_frame w w' -> keyed w -> keyed w'.
Proof. intros F. unfold keyed. by rewrite (rf_haps _ _ F). Qed.

Lemma refresh_loop users : forall snaps w ret snaps' w',
  brief_wf (w_brief w) -> keyed w -> RefreshUserPolicyFlag_loop users snaps w = (ret, snaps', w') ->
  refresh_frame w w' /\ exists new, snaps' = snaps ++ new /\
    marks (hap_restricted w) HAP (w_brief w) (w_kernel w) new (w_brief w') (w_kernel w') /\
    (forall t c, (t, c) ∈ map snap_key new -> exists u p, (u, p) ∈ users /\ t ∈ user_tokens u w /\ c = upc_permCode p) /\
    (ret = RET_SUCCESS -> forall u p t, (u, p) ∈ users -> t ∈ user_tokens u w ->
       is_Some (entry (w_brief w) t (upc_permCode p)) -> (t, upc_permCode p) ∈ map snap_key new).
Proof.
  induction users as [|[u p] users IH]; intros snaps w ret snaps' w' Hw Hk; cbn [RefreshUserPolicyFlag_loop].
  { intros [= <- <- <-]. split; [done|]. exists []. rewrite app_nil_r. split_and!; [done|constructor| |]; cbn; set_solver. }
  destruct (RefreshUserPolicyFlagForUser u p snaps w) as [[e snaps1] w1] eqn:E.
  apply (refresh_user_loop (hap_restricted w)) in E as (F1 & new1 & -> & M1 & K1 & A1); [|done|].
  2: { intros t (info & Hi & <-)%elem_of_elements%(elem_of_user_tokens _ _ _ Hk). unfold hap_restricted. by rewrite Hi. }
  assert (forall x, user_tokens x w1 = user_tokens x w) as Eu
    by (intros x; unfold user_tokens, GetTokenIDByUserID; by rewrite (rf_haps _ _ F1)).
  destruct (Z.eqb_spec e RET_SUCCESS) as [->|He]; cbn [negb].
  - intros H. apply IH in H as (F2 & new2 & -> & M2 & K2 & A2); [|by eapply marks_wf|by eapply keyed_frame].
    rewrite (hap_restricted_frame _ _ F1) in M2. split; [by etrans|]. exists (new1 ++ new2). split_and!.
    + by rewrite app_assoc.
    + by eapply marks_app.
    + intros t c. rewrite map_app. intros [H1|H2]%elem_of_app.
      * apply K1 in H1 as [?%elem_of_elements ->]. exists u, p. split; [left|done].
      * apply K2 in H2 as (u' & p' & H2 & Ht & ->). rewrite Eu in Ht. exists u', p'. split; [by right|done].
    + intros Hr u' p' t [[= -> ->]|Hin]%elem_of_cons Ht Hen; rewrite map_app; apply elem_of_app.
      * left. apply A1; [done|by apply elem_of_elements|done].
      * right. apply (A2 Hr u'); [done|by rewrite Eu|].
        rewrite (marks_entry _ _ _ _ _ _ _ M1 Hw). by destruct (decide _); [apply fmap_is_Some|].
  - intros [= <- <- <-]. split; [done|]. exists new1. split_and!; try done.
    intros t c H1. apply K1 in H1 as [?%elem_of_elements ->]. exists u, p. split; [left|done].
Qed.

(** ** The command-line tokens. *)
Implicit Types (t : ToolState S K).

Definition tools_keyed t : Prop :=
  forall id i, toolTokenInfoMap (t_tools t) !! id = Some i -> cb_tokenId (baseInfo i) = id.

Definition tool_restricted t (id c : Z) : bool :=
  match toolTokenInfoMap (t_tools t) !! id with
  | Some i => IsPermissionRestricted id (cb_userId (baseInfo i)) c (w_policies (t_world t))
  | None => false
  end.

Lemma elem_of_user_tools u m id :
  id ∈ GetToolTokenIDByUserID u m <-> exists i, toolTokenInfoMap m !! id = Some i /\ cb_userId (baseInfo i) = u.
Proof.
  unfold GetToolTokenIDByUserID. rewrite list_elem_of_fmap. split.
  - intros ([x i] & -> & [Hu Hin%elem_of_map_items]%list_elem_of_filter). by exists i.
  - intros (i & Hi & Hu). exists (id, i). split; [done|]. apply list_elem_of_filter. split; [done|]. by apply elem_of_map_items.
Qed.

(** A refresh of command-line tokens changes the world below only. *)
Definition tool_frame t t' : Prop :=
  refresh_frame (t_world t) (t_world t') /\ t_tools t' = t_tools t /\ t_tickets t' = t_tickets t.
#[export] Instance tool_frame_preorder : PreOrder tool_frame.
Proof.
  split; [intros t; by split|]. intros t1 t2 t3 (F1 & E1 & K1) (F2 & E2 & K2). split; [by etrans|]. split; congruence.
Qed.

Lemma tool_restricted_frame t t' : tool_frame t t' -> tool_restricted t' = tool_restricted t.
Proof. intros (F & E & _). unfold tool_restricted. by rewrite E, (rf_policies _ _ F). Qed.

Lemma tool_refresh_user R u p tokens : forall snaps t ret snaps' t',
  brief_wf (w_brief (t_world t)) -> tools_keyed t ->
  (forall x, x ∈ tokens -> is_Some (toolTokenInfoMap (t_tools t) !! x) /\
     R x (upc_permCode p) = IsPermissionRestricted x u (upc_permCode p) (w_policies (t_world t))) ->
  ToolRefreshUserPolicyFlagForUser_loop tokens u p snaps t = (ret, snaps', t') ->
  tool_frame t t' /\ exists new, snaps' = snaps ++ new /\
    marks R TOOL (w_brief (t_world t)) (w_kernel (t_world t)) new (w_brief (t_world t')) (w_kernel (t_world t')) /\
    (forall x c, (x, c) ∈ map snap_key new -> x ∈ tokens /\ c = upc_permCode p) /\
    (ret = RET_SUCCESS -> forall x, x ∈ tokens -> is_Some (entry (w_brief (t_world t)) x (upc_permCode p)) ->
       (x, upc_permCode p) ∈ map snap_key new).
Proof.
  induction tokens as [|x tokens IH]; intros snaps t ret snaps' t' Hw Hk HR; cbn [ToolRefreshUserPolicyFlagForUser_loop].
  { intros [= <- <- <-]. split; [done|]. exists []. rewrite app_nil_r. split_and!; [done|constructor| |]; cbn; set_solver. }
  cbv zeta. destruct (HR x ltac:(left)) as [[i Hi] HRx]. rewrite <- HRx, query_stored. destruct (entry _ x _) as [d|] eqn:En.
  - unfold ToolUpdateRestrictedFlag. rewrite Hi, (Hk _ _ Hi), (set_restricted_spec _ _ _ _ _ En).
    cbn [Z.eqb RET_SUCCESS negb andb]. set (w1 := set_brief _ _).
    destruct (refresh_kernel_spec x (upc_permCode p) (R x (upc_permCode p))
      (negb (bpd_flag d =? marked_flag (R x (upc_permCode p)) (bpd_flag d))) d w1) as (F2 & E2 & _ & K2).
    set (t2 := on_world _ _). assert (tool_frame t t2) as F1 by (split_and!; [etrans; [|exact F2]; by split|done|done]).
    intros H. apply IH in H as (F3 & new & -> & M & Hn & Hall).
    2: { cbn. rewrite E2. by apply mark_wf. }
    2: { done. }
    2: { intros y Hy. cbn. rewrite (rf_policies _ _ F2). apply HR. by right. }
    split; [by etrans|]. cbn [t2 on_world t_world] in M. rewrite E2, K2 in M. eexists (_ :: new). split_and!.
    + by rewrite <- app_assoc.
    + by econstructor.
    + intros y c [[= -> ->]|Hy]%elem_of_cons; [split; [left|done]|]. destruct (Hn _ _ Hy). split; [by right|done].
    + intros Hr y Hy Hen. cbn. destruct (decide (y = x)) as [->|Hne]; [left|]. right.
      apply elem_of_cons in Hy as [|Hy]; [done|]. apply Hall; [done..|].
      cbn. rewrite E2. cbn. rewrite entry_mark, decide_False by naive_solver. done.
  - destruct (bool_decide _); cbn [Z.eqb ERR_PERMISSION_NOT_EXIST ERR_TOKEN_INVALID].
    + intros H. apply IH in H as (F2 & new & -> & M & Hn & Hall); [|done..|intros; apply HR; by right].
      split; [done|]. exists new. split_and!; try done.
      * intros y c Hy. destruct (Hn _ _ Hy). split; [by right|done].
      * intros Hr y [->|Hy]%elem_of_cons Hen; [by rewrite En in Hen; destruct Hen|]. by apply Hall.
    + intros [= <- <- <-]. split; [done|]. exists []. rewrite app_nil_r. split_and!; [done|constructor| |done]. cbn. set_solver.
Qed.

Lemma tool_refresh_loop users : forall snaps t ret snaps' t',
  brief_wf (w_brief (t_world t)) -> tools_keyed t -> ToolRefreshUserPolicyFlag_loop users snaps t = (ret, snaps', t') ->
  tool_frame t t' /\ exists new, snaps' = snaps ++ new /\
    marks (tool_restricted t) TOOL (w_brief (t_world t)) (w_kernel (t_world t)) new (w_brief (t_world t')) (w_kernel (t_world t')) /\
    (forall x c, (x, c) ∈ map snap_key new -> exists u p, (u, p) ∈ users /\ x ∈ GetToolTokenIDByUserID u (t_tools t) /\ c = upc_permCode p) /\
    (ret = RET_SUCCESS -> forall u p x, (u, p) ∈ users -> x ∈ GetToolTokenIDByUserID u (t_tools t) ->
       is_Some (entry (w_brief (t_world t)) x (upc_permCode p)) -> (x, upc_permCode p) ∈ map snap_key new).
Proof.
  induction users as [|[u p] users IH]; intros snaps t ret snaps' t' Hw Hk; cbn [ToolRefreshUserPolicyFlag_loop].
  { intros [= <- <- <-]. split; [done|]. exists []. rewrite app_nil_r. split_and!; [done|constructor| |]; cbn; set_solver. }
  destruct (ToolRefreshUserPolicyFlagForUser_loop _ u p snaps t) as [[e snaps1] t1] eqn:E.
  apply (tool_refresh_user (tool_restricted t)) in E as (F1 & new1 & -> & M1 & K1 & A1); [|done..|].
  2: { intros x (i & Hi & <-)%elem_of_user_tools. unfold tool_restricted. by rewrite Hi. }
  destruct (Z.eqb_spec e RET_SUCCESS) as [->|He]; cbn [negb].
  - assert (t_tools t1 = t_tools t) as Et by apply F1.
    intros H. apply IH in H as (F2 & new2 & -> & M2 & K2 & A2); [|by eapply marks_wf|unfold tools_keyed; by rewrite Et].
    rewrite (tool_restricted_frame _ _ F1) in M2. rewrite Et in K2, A2. split; [by etrans|]. exists (new1 ++ new2). split_and!.
    + by rewrite app_assoc.
    + by eapply marks_app.
    + intros x c. rewrite map_app. intros [H1|H2]%elem_of_app.
      * apply K1 in H1 as [? ->]. exists u, p. split; [left|done].
      * apply K2 in H2 as (u' & p' & H2 & Ht & ->). exists u', p'. split; [by right|done].
    + intros Hr u' p' x [[= -> ->]|Hin]%elem_of_cons Ht Hen; rewrite map_app; apply elem_of_app.
      * left. by apply A1.
      * right. apply (A2 Hr u'); [done..|].
        rewrite (marks_entry _ _ _ _ _ _ _ M1 Hw). by destruct (decide _); [apply fmap_is_Some|].
  - intros [= <- <- <-]. split; [done|]. exists new1. split_and!; try done.
    intros x c H1. apply K1 in H1 as [? ->]. exists u, p. split; [left|done].
Qed.

(** ** Taking the marks back. *)
Lemma RestrictedToDb_frame x c w :
  let w' := (UpdateRestrictedFlagToDb x c w).2 in
  refresh_frame w w' /\ w_brief w' = w_brief w /\ w_kernel w' = w_kernel w.
Proof.
  unfold UpdateRestrictedFlagToDb. cbn [take_clock w_brief]. destruct (BuildPermissionStateValues _ _ _ _) as [e vals].
  destruct (negb _); [cbn; split_and!; by try split|]. destruct (find (A := GenericValues) _ _) as [v|]; [|cbn; split_and!; by try split].
  destruct (db_Modify _ _ _ _) as [e2 db]. cbn. split_and!; by try split.
Qed.

Lemma restore_flag x c d b st w : brief_wf st -> entry st x c = Some d -> w_brief w = mark x c b st ->
  exists w', RestoreRestrictedFlag x c (bpd_flag d) w = (RET_SUCCESS, w') /\
    refresh_frame w w' /\ w_brief w' = st /\ w_kernel w' = w_kernel w.
Proof.
  intros Hw En Eb. pose proof (mark_u32 _ _ _ _ Hw En) as Hu.
  assert (entry (w_brief w) x c = Some (mark_entry b d)) as En1 by (by rewrite Eb, entry_mark, decide_True, En).
  unfold RestoreRestrictedFlag. rewrite query_stored, En1. change PERMISSION_RESTRICTED_BY_ADMIN with (2 ^ 9).
  rewrite !nz_land_bit by lia. fold (is_marked (mark_entry b d)) (is_marked d). rewrite is_marked_mark by done.
  destruct (eqb b (is_marked d)) eqn:E.
  - apply eqb_prop in E as ->. exists w. split_and!; try done. rewrite Eb. by apply mark_same.
  - rewrite (set_restricted_spec _ _ _ _ _ En1). eexists. split; [done|]. split_and!; [by split| |done].
    cbn. rewrite Eb. by apply mark_undo.
Qed.

Definition unkernel (k : K) (s : UserPolicyRefreshSnapshot) : K :=
  SetPermToKernel k (ups_tokenId s) (TransferOpcodeToPermission (ups_permCode s))
    (kernel_status (ups_originalStatus s) (ups_originalFlag s)).

(** Both rollbacks, given what one item of each does. *)
Lemma rollback_marks tg item :
  (forall x c d b st w, brief_wf st -> entry st x c = Some d -> w_brief w = mark x c b st ->
     let s := mkUserPolicyRefreshSnapshot tg x c (bpd_status d) (bpd_flag d) in
     refresh_frame w (item w s) /\ w_brief (item w s) = st /\ w_kernel (item w s) = unkernel (w_kernel w) s) ->
  forall R st k l st' k', marks R tg st k l st' k' -> brief_wf st -> forall w, w_brief w = st' ->
  let w' := fold_left item (rev l) w in
  refresh_frame w w' /\ w_brief w' = st /\ w_kernel w' = fold_left unkernel (rev l) (w_kernel w).
Proof.
  intros Hitem R st k l st' k'. induction 1 as [|st k x c d snaps st' k' En _ IH]; intros Hw w Eb; [done|].
  cbn [rev]. rewrite !fold_left_app. destruct (IH (mark_wf _ _ _ _ Hw) w Eb) as (F1 & E1 & K1).
  destruct (Hitem _ _ _ _ _ _ Hw En E1) as (F2 & E2 & K2). cbn [fold_left]. split_and!; [by etrans|done|]. by rewrite K2, K1.
Qed.

Lemma rollback_haps R st k l st' k' w : marks R HAP st k l st' k' -> brief_wf st -> w_brief w = st' ->
  let w' := RollbackUserPolicyFlag l w in
  refresh_frame w w' /\ w_brief w' = st /\ w_kernel w' = fold_left unkernel (rev l) (w_kernel w).
Proof.
  intros M Hw. eapply (rollback_marks HAP); [|done..]. intros x c d b st0 w0 Hw0 En Eb. cbv zeta. unfold RollbackUserPolicyFlag_item.
  cbn [ups_target ups_tokenId ups_permCode ups_originalStatus ups_originalFlag]. rewrite bool_decide_true by done. cbn [negb].
  destruct (restore_flag _ _ _ _ _ _ Hw0 En Eb) as (w1 & -> & F1 & E1 & K1).
  destruct (RestrictedToDb_frame x c w1) as (F2 & E2 & K2). destruct (UpdateRestrictedFlagToDb x c w1) as [e w2]. cbn [fst snd] in *.
  split_and!; [etrans; [exact F1|]; etrans; [exact F2|]; by split|cbn; congruence|]. unfold unkernel. cbn. by rewrite K2, K1.
Qed.

Lemma rollback_tools R st k l st' k' w : marks R TOOL st k l st' k' -> brief_wf st -> w_brief w = st' ->
  let w' := ToolRollbackUserPolicyFlag l w in
  refresh_frame w w' /\ w_brief w' = st /\ w_kernel w' = fold_left unkernel (rev l) (w_kernel w).
Proof.
  intros M Hw. eapply (rollback_marks TOOL); [|done..]. intros x c d b st0 w0 Hw0 En Eb. cbv zeta. unfold ToolRollbackUserPolicyFlag_item.
  cbn [ups_target ups_tokenId ups_permCode ups_originalStatus ups_originalFlag]. rewrite bool_decide_true by done. cbn [negb].
  destruct (restore_flag _ _ _ _ _ _ Hw0 En Eb) as (w1 & -> & F1 & E1 & K1). cbn [negb Z.eqb RET_SUCCESS].
  split_and!; [etrans; [exact F1|]; by split|cbn; congruence|]. unfold unkernel. cbn. by rewrite K1.
Qed.

(** ** The bits of the device. *)
Context `{!TokenDeviceLaws K} `{!TokenDeviceHealth K}.

Lemma SetPermToKernel_bits k x c b : dev_ok k -> 0 <= c < MAX_PERM_SIZE ->
  let k' := SetPermToKernel k x (TransferOpcodeToPermission c) b in
  dev_ok k' /\ forall x' c', 0 <= c' ->
    dev_granted k' x' c' = if decide (x' = x /\ c' = c) then b else dev_granted k x' c'.
Proof.
  intros Hk Hc. cbv zeta. unfold SetPermToKernel. rewrite name_to_opcode by done.
  destruct (SetPermissionToKernel k x (i32 c) b) as [e k'] eqn:E. cbn.
  pose proof (SetPermissionToKernel_ok _ _ _ _ _ _ Hk E) as [-> Hk']. split; [done|]. intros x' c' Hc'.
  rewrite (SetPermissionToKernel_law k x c b 0 k' ltac:(pose proof (MAX_PERM_SIZE_u16 c Hc); unfold is_u32; lia) E) by done.
  cbn. destruct (decide _) as [[-> ->]|Hne]; [by rewrite !Z.eqb_refl|].
  destruct (Z.eqb_spec x' x), (Z.eqb_spec c' c); naive_solver.
Qed.

(** The device lets exactly the granted and unrestricted permissions pass. *)
Definition bit_agrees (k : K) (st : Brief) (x c : Z) : Prop :=
  forall d, entry st x c = Some d -> dev_granted k x c = kernel_status (bpd_status d) (bpd_flag d).

Lemma kernel_status_bits s f : kernel_status s f = negb (Z.testbit f 9) && (s =? PERMISSION_GRANTED).
Proof.
  unfold kernel_status. f_equal. change PERMISSION_RESTRICTED_BY_ADMIN with (2 ^ 9). by apply eqb_0_bit.
Qed.

Lemma kernel_status_mark b d : is_u32 (bpd_flag d) ->
  kernel_status (bpd_status (mark_entry b d)) (bpd_flag (mark_entry b d)) = negb b && (bpd_status d =? PERMISSION_GRANTED).
Proof. intros Hu. rewrite kernel_status_bits. fold (is_marked (mark_entry b d)). by rewrite is_marked_mark. Qed.

Lemma mark_bits st x c b d k : brief_wf st -> entry st x c = Some d -> dev_ok k ->
  let k' := kernel_refreshed x c b d k in
  dev_ok k' /\
  (forall x' c', 0 <= c' -> ~ (x' = x /\ c' = c) -> dev_granted k' x' c' = dev_granted k x' c') /\
  (forall x' c', 0 <= c' -> bit_agrees k st x' c' -> bit_agrees k' (mark x c b st) x' c').
Proof.
  intros Hw En Hk. destruct (entry_of_wf _ _ _ _ Hw En) as [Hd Hc0]. destruct Hd as (_ & Hc & Hu & _). rewrite Hc0 in Hc.
  cbv zeta. unfold kernel_refreshed. set (after := negb b && _).
  assert (forall k', dev_ok k' -> (forall x' c', 0 <= c' -> dev_granted k' x' c' = if decide (x' = x /\ c' = c) then
      (if eqb (kernel_status (bpd_status d) (bpd_flag d)) after then dev_granted k x' c' else after) else dev_granted k x' c') ->
    dev_ok k' /\ (forall x' c', 0 <= c' -> ~ (x' = x /\ c' = c) -> dev_granted k' x' c' = dev_granted k x' c') /\
    (forall x' c', 0 <= c' -> bit_agrees k st x' c' -> bit_agrees k' (mark x c b st) x' c')) as Hall.
  { intros k' Hk' Hg. split_and!; [done| |].
    - intros x' c' Hc' Hne. by rewrite Hg, decide_False.
    - intros x' c' Hc' Ha d'. rewrite entry_mark, Hg by done. destruct (decide (x = x' /\ c = c')) as [[<- <-]|Hne].
      + rewrite En. cbn. intros [= <-]. rewrite decide_True, kernel_status_mark by done. fold after.
        destruct (eqb _ after) eqn:E; [|done]. apply eqb_prop in E. rewrite <- E. by apply Ha.
      + rewrite decide_False by naive_solver. by apply Ha. }
  destruct (eqb (kernel_status (bpd_status d) (bpd_flag d)) after) eqn:E; cbn [negb].
  - apply Hall; [done|]. intros x' c' _. by destruct (decide _).
  - destruct (SetPermToKernel_bits k x c after Hk Hc) as [Hk' Hg]. apply Hall; done.
Qed.

Lemma marks_bits R tg st k l st' k' : marks R tg st k l st' k' -> brief_wf st -> dev_ok k ->
  dev_ok k' /\
  (forall x c, 0 <= c -> (x, c) ∉ map snap_key l -> dev_granted k' x c = dev_granted k x c) /\
  (forall x c, 0 <= c -> bit_agrees k st x c -> bit_agrees k' st' x c).
Proof.
  induction 1 as [|st k x c d snaps st' k' En _ IH]; intros Hw Hk; [done|].
  destruct (mark_bits st x c (R x c) d k Hw En Hk) as (Hk1 & Ho1 & Ha1).
  destruct (IH (mark_wf _ _ _ _ Hw) Hk1) as (Hk2 & Ho2 & Ha2). split_and!; [done| |auto].
  intros x' c' Hc'. cbn. intros Hnot. rewrite not_elem_of_cons in Hnot. destruct Hnot as [Hne Hnot]. rewrite Ho2 by done.
  apply Ho1; [done|]. by intros [-> ->].
Qed.

(** After a rollback the device is as before. *)
Lemma unmarks_bits R tg st k l st' k' : marks R tg st k l st' k' -> brief_wf st -> dev_ok k ->
  (forall x c, (x, c) ∈ map snap_key l -> bit_agrees k st x c) -> forall k1, dev_ok k1 ->
  (forall x c, 0 <= c -> dev_granted k1 x c = dev_granted k' x c) ->
  let k2 := fold_left unkernel (rev l) k1 in
  dev_ok k2 /\ forall x c, 0 <= c -> dev_granted k2 x c = dev_granted k x c.
Proof.
  induction 1 as [|st k x c d snaps st' k' En M IH]; intros Hw Hk Ha k1 Hk1 Eq; [done|].
  cbn [rev]. rewrite fold_left_app. cbn [fold_left]. destruct (entry_of_wf _ _ _ _ Hw En) as [(_ & Hc & _) Hc0]. rewrite Hc0 in Hc.
  destruct (mark_bits st x c (R x c) d k Hw En Hk) as (Hk3 & Ho3 & Ha3).
  destruct (IH (mark_wf _ _ _ _ Hw) Hk3) with (k1 := k1) as [Hk2 E2]; [|done..|].
  { intros x' c' Hin. apply Ha3; [|apply Ha; by right].
    destruct (marks_keys _ _ _ _ _ _ _ M (mark_wf _ _ _ _ Hw) _ _ Hin) as [d' Hd'].
    destruct (entry_of_wf _ _ _ _ (mark_wf _ _ _ _ Hw) Hd') as [(_ & Hc' & _) Hc1]. rewrite Hc1 in Hc'. lia. }
  cbv zeta. unfold unkernel at 1 4. cbn. destruct (SetPermToKernel_bits (fold_left unkernel (rev snaps) k1) x c
    (kernel_status (bpd_status d) (bpd_flag d)) Hk2 Hc) as [Hk4 E4]. split; [done|].
  intros x' c' Hc'. rewrite E4 by done. destruct (decide _) as [[-> ->]|Hne].
  - symmetry. apply (Ha x c); [by left|done].
  - rewrite E2 by done. by apply Ho3.
Qed.

(** ** The whole refresh. *)

(** The store is well formed, tokens carry their keys, and no id is both an application's and
    a command-line token's. *)
Record refresh_ready t : Prop := {
  rr_wf : brief_wf (w_brief (t_world t));
  rr_keyed : keyed (t_world t);
  rr_tools : tools_keyed t;
  rr_disjoint x : is_Some (toolTokenInfoMap (t_tools t) !! x) -> hapTokenInfoMap_ (t_world t) !! x = None;
}.

Definition token_user t (x : Z) : option Z :=
  match hapTokenInfoMap_ (t_world t) !! x with
  | Some info => Some (hti_userID (tokenInfoBasic_ info))
  | None => (fun i => cb_userId (baseInfo i)) <$> toolTokenInfoMap (t_tools t) !! x
  end.

(** The tokens and permissions a list of changes concerns. *)
Definition concerned t (changes : list UserPolicyChange) (x c : Z) : Prop :=
  exists u p, token_user t x = Some u /\ p ∈ changes /\ u ∈ upc_changedUserList p /\ c = upc_permCode p.

Definition policy_restricts t (x c : Z) : bool :=
  match token_user t x with Some u => IsPermissionRestricted x u c (w_policies (t_world t)) | None => false end.

Section Whole.
Context (t : ToolState S K) (ready : refresh_ready t) (changes : list UserPolicyChange).

Lemma concerned_hap x c : is_Some (hapTokenInfoMap_ (t_world t) !! x) ->
  hap_restricted (t_world t) x c = policy_restricts t x c /\
  (concerned t changes x c <-> exists u p, (u, p) ∈ policy_users changes /\ x ∈ user_tokens u (t_world t) /\ c = upc_permCode p).
Proof.
  intros [info Hi]. unfold hap_restricted, policy_restricts, concerned, token_user. rewrite Hi. split; [done|]. split.
  - intros (u & p & [= <-] & Hp & Hu & ->). exists (hti_userID (tokenInfoBasic_ info)), p.
    rewrite elem_of_policy_users, elem_of_user_tokens by apply ready. split_and!; try done. by exists info.
  - intros (u & p & [Hp Hu]%elem_of_policy_users & (i & Hi' & <-)%elem_of_user_tokens & ->); [|apply ready].
    exists (hti_userID (tokenInfoBasic_ i)), p. split_and!; try done. congruence.
Qed.

Lemma concerned_tool x c : is_Some (toolTokenInfoMap (t_tools t) !! x) ->
  tool_restricted t x c = policy_restricts t x c /\
  (concerned t changes x c <->
   exists u p, (u, p) ∈ policy_users changes /\ x ∈ GetToolTokenIDByUserID u (t_tools t) /\ c = upc_permCode p).
Proof.
  intros Hs. pose proof (rr_disjoint _ ready x Hs) as Hn. destruct Hs as [i Hi].
  unfold tool_restricted, policy_restricts, concerned, token_user. rewrite Hi, Hn. split; [done|]. split.
  - intros (u & p & [= <-] & Hp & Hu & ->). exists (cb_userId (baseInfo i)), p.
    rewrite elem_of_policy_users, elem_of_user_tools. split_and!; try done. by exists i.
  - intros (u & p & [Hp Hu]%elem_of_policy_users & (j & Hj & <-)%elem_of_user_tools & ->).
    exists (cb_userId (baseInfo j)), p. split_and!; try done. cbn. congruence.
Qed.

(** The keys of the two series: those of the applications and those of the tools. *)
Lemma refresh_keys (haps tools : list (Z * Z)) :
  (forall x c, (x, c) ∈ haps -> exists u p, (u, p) ∈ policy_users changes /\ x ∈ user_tokens u (t_world t) /\ c = upc_permCode p) ->
  (forall x c, (x, c) ∈ tools -> exists u p, (u, p) ∈ policy_users changes /\ x ∈ GetToolTokenIDByUserID u (t_tools t) /\ c = upc_permCode p) ->
  forall x c,
  ((x, c) ∈ haps -> is_Some (hapTokenInfoMap_ (t_world t) !! x) /\ concerned t changes x c /\ (x, c) ∉ tools) /\
  ((x, c) ∈ tools -> is_Some (toolTokenInfoMap (t_tools t) !! x) /\ concerned t changes x c /\ (x, c) ∉ haps).
Proof.
  intros Hh Ht x c.
  assert ((x, c) ∈ haps -> is_Some (hapTokenInfoMap_ (t_world t) !! x)) as Sh.
  { intros (u & p & _ & (i & Hi & _)%elem_of_user_tokens & _)%Hh; [by rewrite Hi|apply ready]. }
  assert ((x, c) ∈ tools -> is_Some (toolTokenInfoMap (t_tools t) !! x)) as St.
  { intros (u & p & _ & (i & Hi & _)%elem_of_user_tools & _)%Ht. by rewrite Hi. }
  assert (is_Some (hapTokenInfoMap_ (t_world t) !! x) -> is_Some (toolTokenInfoMap (t_tools t) !! x) -> False) as D.
  { intros [i Hi] H2. rewrite (rr_disjoint _ ready x H2) in Hi. done. }
  split; intros H; (split; [by auto|]); (split; [|intros H'; apply D; by auto]).
  - apply (concerned_hap x c); auto.
  - apply (concerned_tool x c); auto.
Qed.

(** What a refresh guarantees: the outcome is all or nothing. *)
Lemma refresh_spec ret t' : RefreshUserPolicyPermState changes t = (ret, t') ->
  tool_frame t t' /\
  (ret <> RET_SUCCESS -> w_brief (t_world t') = w_brief (t_world t)) /\
  (ret = RET_SUCCESS -> brief_wf (w_brief (t_world t')) /\ secCompList_ (w_brief (t_world t')) = secCompList_ (w_brief (t_world t)) /\
     (forall x, is_Some (requestedPermData_ (w_brief (t_world t')) !! x) <-> is_Some (requestedPermData_ (w_brief (t_world t)) !! x)) /\
     forall x c,
     (concerned t changes x c -> entry (w_brief (t_world t')) x c =
        mark_entry (policy_restricts t x c) <$> entry (w_brief (t_world t)) x c) /\
     (~ concerned t changes x c -> entry (w_brief (t_world t')) x c = entry (w_brief (t_world t)) x c)) /\
  (dev_ok (w_kernel (t_world t)) ->
     (ret = RET_SUCCESS -> dev_ok (w_kernel (t_world t')) /\
        forall x c, 0 <= c -> bit_agrees (w_kernel (t_world t)) (w_brief (t_world t)) x c ->
        bit_agrees (w_kernel (t_world t')) (w_brief (t_world t')) x c) /\
     (ret <> RET_SUCCESS ->
        (forall x c, concerned t changes x c -> bit_agrees (w_kernel (t_world t)) (w_brief (t_world t)) x c) ->
        forall x c, 0 <= c -> dev_granted (w_kernel (t_world t')) x c = dev_granted (w_kernel (t_world t)) x c)).
Proof.
  pose proof (rr_wf _ ready) as Hw. unfold RefreshUserPolicyPermState. destruct changes as [|p0 rest] eqn:Ec.
  { intros [= <- <-]. split; [done|]. split_and!; try done. intros _. split_and!; try done. intros x c. split; [|done].
    intros (u & p & _ & Hp%not_elem_of_nil & _). done. }
  rewrite <- Ec. clear Ec p0 rest.
  destruct (RefreshUserPolicyFlag changes [] (t_world t)) as [[e1 snaps1] w1] eqn:E1.
  apply refresh_loop in E1 as (F1 & haps & -> & M1 & K1 & A1); [|done|apply ready]. cbn [app].
  assert (brief_wf (w_brief w1)) as Hw1 by by eapply marks_wf.
  destruct (Z.eqb_spec e1 RET_SUCCESS) as [->|He1]; cbn [negb].
  2: { intros [= <- <-]. destruct (rollback_haps _ _ _ _ _ _ w1 M1 Hw eq_refl) as (F2 & E2 & K2).
    pose proof (refresh_keys (map snap_key haps) [] K1 ltac:(set_solver)) as Hkeys. cbn [on_world t_world].
    split; [split; [by etrans|done]|]. split_and!; [done..|]. intros Hk. split; [done|]. intros _ Ha. rewrite K2.
    destruct (marks_bits _ _ _ _ _ _ _ M1 Hw Hk) as (Hk1 & _).
    eapply (unmarks_bits _ _ _ _ _ _ _ M1 Hw Hk); [|done..]. intros x c Hin. apply Ha. exact (proj1 (proj2 (proj1 (Hkeys x c) Hin))). }
  set (t1 := mkToolState w1 (t_tools t) (t_tickets t)).
  assert (tool_frame t t1) as Ft1 by by split.
  destruct (ToolRefreshUserPolicyFlag changes [] t1) as [[e2 snaps2] t2] eqn:E2.
  apply tool_refresh_loop in E2 as (F2 & tools & -> & M2 & K2 & A2); [|done|apply ready].
  rewrite (tool_restricted_frame _ _ Ft1) in M2. cbn [t1 t_world t_tools app] in M2, K2, A2 |- *.
  pose proof (refresh_keys (map snap_key haps) (map snap_key tools) K1 K2) as Hkeys.
  destruct (Z.eqb_spec e2 RET_SUCCESS) as [->|He2]; cbn [negb]; intros [= <- <-].
  - split; [by etrans|]. split_and!; [done| |].
    + intros _. destruct (marks_other _ _ _ _ _ _ _ M1) as (So1 & _ & D1), (marks_other _ _ _ _ _ _ _ M2) as (So2 & _ & D2).
      split_and!; [by eapply marks_wf|congruence|intros x; by rewrite D2, D1|]. intros x c.
      rewrite (marks_entry _ _ _ _ _ _ _ M2 Hw1), (marks_entry _ _ _ _ _ _ _ M1 Hw). destruct (Hkeys x c) as [Hh Ht]. split.
      * intros Hc. destruct (decide ((x, c) ∈ map snap_key tools)) as [Hin|Hnt].
        { destruct (Ht Hin) as (Hs & _ & Hnh). rewrite (decide_False (P := _ ∈ map snap_key haps)) by done.
          by rewrite (proj1 (concerned_tool x c Hs)). }
        destruct (decide ((x, c) ∈ map snap_key haps)) as [Hin|Hnh].
        { destruct (Hh Hin) as (Hs & _ & _). by rewrite (proj1 (concerned_hap x c Hs)). }
        destruct (entry (w_brief (t_world t)) x c) as [d|] eqn:En; [|done]. exfalso.
        pose proof Hc as (u & p & Hu & _ & _ & _). unfold token_user in Hu. destruct (hapTokenInfoMap_ (t_world t) !! x) as [info|] eqn:Hi.
        { apply (concerned_hap x c) in Hc as (u' & p' & Hp & Hx & ->); [|by rewrite Hi].
          apply Hnh. by eapply A1. }
        apply fmap_Some in Hu as (i & Hi' & _). apply (concerned_tool x c) in Hc as (u' & p' & Hp & Hx & ->); [|by rewrite Hi'].
        apply Hnt. eapply A2; [done..|]. rewrite (marks_entry _ _ _ _ _ _ _ M1 Hw), decide_False, En by done. done.
      * intros Hn. rewrite decide_False by (intros H; by apply Hn, Ht). by rewrite decide_False by (intros H; by apply Hn, Hh).
    + intros Hk. split; [|done]. intros _. destruct (marks_bits _ _ _ _ _ _ _ M1 Hw Hk) as (Hk1 & _ & B1).
      destruct (marks_bits _ _ _ _ _ _ _ M2 Hw1 Hk1) as (Hk2 & _ & B2). split; [done|]. auto.
  - destruct (rollback_tools _ _ _ _ _ _ (t_world t2) M2 Hw1 eq_refl) as (F3 & E3 & K3).
    destruct (rollback_haps _ _ _ _ _ _ (ToolRollbackUserPolicyFlag tools (t_world t2)) M1 Hw E3) as (F4 & E4 & K4).
    cbn [on_world t_world t_tools t_tickets]. destruct F2 as (F2 & T2 & Tk2).
    split; [split; [|by rewrite ?T2, ?Tk2]; cbn; do 3 (etrans; [eassumption|]); done|]. split_and!; [done..|].
    intros Hk. split; [done|]. intros _ Ha. rewrite K4, K3.
    destruct (marks_bits _ _ _ _ _ _ _ M1 Hw Hk) as (Hk1 & _ & B1), (marks_bits _ _ _ _ _ _ _ M2 Hw1 ltac:(done)) as (Hk2 & _ & _).
    assert (forall x c, (x, c) ∈ map snap_key tools -> bit_agrees (w_kernel w1) (w_brief w1) x c) as Hb.
    { intros x c Hin. destruct (marks_keys _ _ _ _ _ _ _ M2 Hw1 _ _ Hin) as [d Hd].
      destruct (entry_of_wf _ _ _ _ Hw1 Hd) as [(_ & Hc & _) Hc0]. rewrite Hc0 in Hc. apply B1; [lia|]. apply Ha.
      exact (proj1 (proj2 (proj2 (Hkeys x c) Hin))). }
    destruct (unmarks_bits _ _ _ _ _ _ _ M2 Hw1 Hk1 Hb _ Hk2 ltac:(done)) as [Hk5 E5].
    eapply (unmarks_bits _ _ _ _ _ _ _ M1 Hw Hk); [|done..]. intros x c Hin. apply Ha. exact (proj1 (proj2 (proj1 (Hkeys x c) Hin))).
Qed.
End Whole.
End World.
