(* ===== verification/ShortGrant.v ===== *)
(** * Grants for a short time

    ShortGrantManager (short_grant_manager.cpp): some permissions can be granted for a few
    minutes.  The manager keeps when each was first granted and posts a task that revokes it; a
    new request moves the task, within a total time.  The queue of the event handler is part of
    the state; a task is run by [RunShortGrantTask]. *)

From stdpp Require Import base gmap list strings.
From S2P Require Import Prelude AccessTokenTypes TokenId Database PermissionMap DataTranslator PermissionDataBrief IdManager UserPolicy HapTokenInfo Kernel InfoManager InfoManagerOps PermissionManager.
#[local] Open Scope string_scope.
#[local] Open Scope list_scope.
#[local] Open Scope Z_scope.
#[local] Open Scope cxx_scope.

Definition DEFAULT_MAX_TIME_MILLISECONDS : Z := 30 * 60.
Definition DEFAULT_MAX_ONCE_TIME_MILLISECONDS : Z := 5 * 60.
Definition TASK_NAME_SHORT_GRANT_PERMISSION : string := "atm_permission_manager_short_grant".

(** Whether the build has event handlers, and whether one can be made. *)
Class Timers := { EVENTHANDLER_ENABLE : bool; eventRunner : bool }.

(** A task of the event handler: its name, what it revokes, and when, in milliseconds. *)
Record Task := mkTask { tk_name : string; tk_tokenID : Z; tk_permissionName : string; tk_due : Z }.

Record PermTimerData := mkPermTimerData {
  pt_tokenID : Z;
  pt_permissionName : string;
  pt_firstGrantTimes : Z;
  pt_revokeTimes : Z;
}.

(** The members, the queue, and whether the application manager reports to the listener. *)
Record ShortGrantManager := mkShortGrantManager {
  shortGrantData_ : list PermTimerData;
  maxTime_ : Z;
  sg_tasks : list Task;
  appStopCallBack_ : bool;
  sg_deathCallback_ : bool;
  sg_observed : bool;
}.

Definition new_ShortGrantManager : ShortGrantManager :=
  mkShortGrantManager [] DEFAULT_MAX_TIME_MILLISECONDS [] false false false.

Definition set_grants (l : list PermTimerData) (m : ShortGrantManager) : ShortGrantManager :=
  mkShortGrantManager l (maxTime_ m) (sg_tasks m) (appStopCallBack_ m) (sg_deathCallback_ m) (sg_observed m).
Definition set_sg_tasks (l : list Task) (m : ShortGrantManager) : ShortGrantManager :=
  mkShortGrantManager (shortGrantData_ m) (maxTime_ m) l (appStopCallBack_ m) (sg_deathCallback_ m) (sg_observed m).
Definition set_stop_listener (callback observed : bool) (m : ShortGrantManager) : ShortGrantManager :=
  mkShortGrantManager (shortGrantData_ m) (maxTime_ m) (sg_tasks m) callback (sg_deathCallback_ m) observed.

(** [CancelTaskOfPermissionRevoking]: the handler drops all tasks of that name. *)
Definition remove_tasks (name : string) (l : list Task) : list Task := filter (fun t => tk_name t <> name) l.

Definition short_grant_task_name (tokenID : Z) (permission : string) : string :=
  TASK_NAME_SHORT_GRANT_PERMISSION ++ to_string tokenID ++ permission.

Definition is_short_grant (tokenID : Z) (permission : string) (data : PermTimerData) : bool :=
  (pt_tokenID data =? tokenID) && String.eqb (pt_permissionName data) permission.

Section ShortGrant.
Context {PT : PermTable} {BC : BuildConfig} {TM : Timers} {S K : Type} `{!AtmDb S} `{!TokenDevice K}.
Context (allowTemp : Z -> string -> bool) (abilityManager : bool) (parentHapToken : Z -> Z + Z).
Implicit Types (m : ShortGrantManager) (w : World S K).

Definition CancelTaskOfPermissionRevoking (taskName : string) m : ShortGrantManager :=
  if EVENTHANDLER_ENABLE && eventRunner then set_sg_tasks (remove_tasks taskName (sg_tasks m)) m else m.

(** [posted] is the time, in seconds, at which the handler takes the task. *)
Definition ScheduleRevokeTask (posted tokenID : Z) (permission taskName : string) (cancelTimes : Z) m : ShortGrantManager :=
  if EVENTHANDLER_ENABLE && eventRunner
  then set_sg_tasks (sg_tasks m ++ [mkTask taskName tokenID permission (posted * 1000 + u32 (cancelTimes * 1000))]) m
  else m.

(** [registered] is the code of the application manager. *)
Definition RegisterAppStopListener (registered : Z) m : ShortGrantManager :=
  let m := mkShortGrantManager (shortGrantData_ m) (maxTime_ m) (sg_tasks m) (appStopCallBack_ m) true (sg_observed m) in
  if negb (appStopCallBack_ m) then set_stop_listener true (registered =? ERR_OK) m else m.
Definition UnRegisterAppStopListener m : ShortGrantManager :=
  if appStopCallBack_ m then set_stop_listener false false m else m.

(** [now] gives the readings of [GetCurrentTime] in the order of the text, then the time at
    which the task is posted. *)
Definition RefreshPermission (now : nat -> Z) (registered tokenID : Z) (permission : string) (onceTime : Z) m w
    : Z * ShortGrantManager * World S K :=
  if (tokenID =? 0) || (onceTime =? 0) || (DEFAULT_MAX_ONCE_TIME_MILLISECONDS <? onceTime) || (maxTime_ m <? onceTime)
  then (ERR_PARAM_INVALID, m, w)
  else
    let taskName := short_grant_task_name tokenID permission in
    match find_if (is_short_grant tokenID permission) (shortGrantData_ m) with
    | None =>
        if negb (IsShortGrantPermission permission) then (ERR_PARAM_INVALID, m, w)
        else
          let data := mkPermTimerData tokenID permission (now 0%nat) (u32 (now 0%nat + onceTime)) in
          let '(ret, w) := GrantPermission allowTemp abilityManager parentHapToken tokenID permission PERMISSION_USER_FIXED
                             USER_GRANTED_PERM w in
          if negb (ret =? RET_SUCCESS) then (ret, m, w)
          else
            let m := set_grants (shortGrantData_ m ++ [data]) m in
            let m := ScheduleRevokeTask (now 5%nat) tokenID permission taskName onceTime m in
            (RET_SUCCESS, RegisterAppStopListener registered m, w)
    | Some iter =>
        let maxRemainedTime :=
          if u32 (now 0%nat - pt_firstGrantTimes iter) <? maxTime_ m
          then u32 (maxTime_ m - u32 (now 1%nat - pt_firstGrantTimes iter)) else 0 in
        let currRemainedTime := if now 2%nat <? pt_revokeTimes iter then u32 (pt_revokeTimes iter - now 3%nat) else 0 in
        let cancelTimes := if onceTime <? maxRemainedTime then onceTime else maxRemainedTime in
        if currRemainedTime <? cancelTimes then
          let m := set_grants (update_first (is_short_grant tokenID permission)
                     (fun d => mkPermTimerData (pt_tokenID d) (pt_permissionName d) (pt_firstGrantTimes d) (u32 (now 4%nat + cancelTimes)))
                     (shortGrantData_ m)) m in
          let m := CancelTaskOfPermissionRevoking taskName m in
          let '(ret, w) := GrantPermission allowTemp abilityManager parentHapToken tokenID permission PERMISSION_USER_FIXED
                             USER_GRANTED_PERM w in
          if negb (ret =? RET_SUCCESS) then (ret, m, w)
          else
            let m := ScheduleRevokeTask (now 5%nat) (pt_tokenID iter) (pt_permissionName iter) taskName cancelTimes m in
            (RET_SUCCESS, RegisterAppStopListener registered m, w)
        else (RET_SUCCESS, RegisterAppStopListener registered m, w)
    end.

(** The end of the short time: revoke without killing the application. *)
Definition ClearShortPermissionData (tokenID : Z) (permission : string) m w : ShortGrantManager * World S K :=
  match find_if (is_short_grant tokenID permission) (shortGrantData_ m) with
  | None => (m, w)
  | Some _ =>
      let '(ret, w) := UpdatePermission allowTemp abilityManager tokenID permission false PERMISSION_USER_FIXED false w in
      if negb (ret =? RET_SUCCESS) then (m, w)
      else
        let m := set_grants (erase_first (is_short_grant tokenID permission) (shortGrantData_ m)) m in
        (if bool_decide (shortGrantData_ m = []) then UnRegisterAppStopListener m else m, w)
  end.

(** The handler runs the [i]-th task of its queue. *)
Definition RunShortGrantTask (i : nat) m w : ShortGrantManager * World S K :=
  match sg_tasks m !! i with
  | None => (m, w)
  | Some task => ClearShortPermissionData (tk_tokenID task) (tk_permissionName task) (set_sg_tasks (delete i (sg_tasks m)) m) w
  end.

(** The loop over the grants: the grants that stay, and whether the loop came to its end. *)
Fixpoint ClearShortPermissionByTokenID_loop (tokenID : Z) (l : list PermTimerData) m w
    : list PermTimerData * bool * ShortGrantManager * World S K :=
  match l with
  | [] => ([], true, m, w)
  | item :: rest =>
      if pt_tokenID item =? tokenID then
        let '(ret, w) := UpdatePermission allowTemp abilityManager tokenID (pt_permissionName item) false PERMISSION_USER_FIXED false w in
        if negb (ret =? RET_SUCCESS) then (item :: rest, false, m, w)
        else
          ClearShortPermissionByTokenID_loop tokenID rest
            (CancelTaskOfPermissionRevoking (short_grant_task_name tokenID (pt_permissionName item)) m) w
      else
        let '(kept, done, m, w) := ClearShortPermissionByTokenID_loop tokenID rest m w in (item :: kept, done, m, w)
  end.
Definition ClearShortPermissionByTokenID (tokenID : Z) m w : ShortGrantManager * World S K :=
  let '(kept, finished, m, w) := ClearShortPermissionByTokenID_loop tokenID (shortGrantData_ m) m w in
  let m := set_grants kept m in
  (if finished && bool_decide (kept = []) then UnRegisterAppStopListener m else m, w).

(** The application manager died. *)
Fixpoint ShortGrantRemoteDied_loop (l : list PermTimerData) m w : ShortGrantManager * World S K :=
  match l with
  | [] => (m, w)
  | item :: rest =>
      let '(_, w) := UpdatePermission allowTemp abilityManager (pt_tokenID item) (pt_permissionName item) false
                       PERMISSION_USER_FIXED false w in
      ShortGrantRemoteDied_loop rest
        (CancelTaskOfPermissionRevoking (short_grant_task_name (pt_tokenID item) (pt_permissionName item)) m) w
  end.
Definition ShortGrantRemoteDied m w : ShortGrantManager * World S K :=
  let '(m, w) := ShortGrantRemoteDied_loop (shortGrantData_ m) m w in
  (set_stop_listener false false (set_grants [] m), w).

End ShortGrant.
