(* ===== verification/ShortGrantProps.v ===== *)
(** * Properties of the grants for a short time *)

From stdpp Require Import base gmap list strings.
From S2P Require Import Prelude AccessTokenTypes TokenId Database PermissionMap DataTranslator PermissionDataBrief PermissionDataBriefTheory IdManager UserPolicy HapTokenInfo Kernel InfoManager InfoManagerOps InfoManagerTheory ConstraintCheck PermissionManager ShortGrant.
#[local] Open Scope string_scope.
#[local] Open Scope list_scope.
#[local] Open Scope Z_scope.
#[local] Open Scope cxx_scope.

(** ** The names of the tasks. *)
Lemma string_length_app a b : String.length (a +:+ b) = (String.length a + String.length b)%nat.
Proof. induction a as [|c a IH]; simpl; [done|]. by rewrite IH. Qed.

Lemma string_app_cancel_r p : forall a b : string, a +:+ p = b +:+ p -> a = b.
Proof.
  induction a as [|c a IH]; intros [|c' b]; simpl; intros E; try done.
  - apply (f_equal String.length) in E. simpl in E. rewrite !string_length_app in E. simpl in E. lia.
  - apply (f_equal String.length) in E. simpl in E. rewrite !string_length_app in E. simpl in E. lia.
  - injection E as <- E. f_equal. by apply IH.
Qed.

(** A grant: the token, the permission, and the time of the first grant. *)
Definition grant_of (r : PermTimerData) : Z * string * Z := (pt_tokenID r, pt_permissionName r, pt_firstGrantTimes r).
Definition grants (m : ShortGrantManager) : list (Z * string * Z) := map grant_of (shortGrantData_ m).
Definition grant_name (k : Z * string) : string := short_grant_task_name k.1 k.2.

Lemma name_inj x y p q : IsShortGrantPermission p = true -> IsShortGrantPermission q = true ->
  short_grant_task_name x p = short_grant_task_name y q -> x = y /\ p = q.
Proof.
  unfold IsShortGrantPermission. intros Hp%bool_decide_eq_true_1 Hq%bool_decide_eq_true_1.
  apply list_elem_of_singleton in Hp as ->. apply list_elem_of_singleton in Hq as ->.
  unfold short_grant_task_name. intros E%(inj (String.append _)). apply string_app_cancel_r, to_string_inj in E as ->. done.
Qed.

Lemma is_short_grant_spec x p r : is_short_grant x p r = true <-> (grant_of r).1 = (x, p).
Proof.
  unfold is_short_grant, grant_of. cbn. rewrite andb_true_iff, Z.eqb_eq, String.eqb_eq. split; [by intros [-> ->]|by intros [= -> ->]].
Qed.

(** ** What holds between the grants and the queue. *)
Record sg_inv {TM : Timers} (d : Z) (m : ShortGrantManager) : Prop := {
  sg_max : maxTime_ m = DEFAULT_MAX_TIME_MILLISECONDS;
  sg_keys : NoDup (map fst (grants m));
  sg_data x p f : (x, p, f) ∈ grants m -> IsShortGrantPermission p = true /\ x <> 0 /\ is_u32 (f + 4000) /\ 0 <= f;
  sg_owned t : t ∈ sg_tasks m -> exists f, (tk_tokenID t, tk_permissionName t, f) ∈ grants m /\
    tk_name t = short_grant_task_name (tk_tokenID t) (tk_permissionName t) /\
    f * 1000 <= tk_due t <= (f + DEFAULT_MAX_TIME_MILLISECONDS + d) * 1000;
  sg_single : NoDup (map tk_name (sg_tasks m));
  sg_handler : EVENTHANDLER_ENABLE && eventRunner = false -> sg_tasks m = [];
}.

(** Every grant has its task. *)
Definition sg_covered (m : ShortGrantManager) : Prop :=
  forall g, g ∈ grants m -> exists t, t ∈ sg_tasks m /\ tk_name t = grant_name g.1.

(** The clock during one call: readings in seconds, not decreasing and below 2^32 - 4000, of which
    the first five lie within [j] seconds and the last, when a task is posted, within [d]. *)
Definition readings (j d : Z) (now : nat -> Z) : Prop :=
  0 <= now 0%nat /\ is_u32 (now 0%nat + 4000) /\ (forall i, (i <= 4)%nat -> now 0%nat <= now i <= now 0%nat + j /\ is_u32 (now i)) /\
  (forall i, (i <= 4)%nat -> now i <= now 5%nat) /\ now 5%nat <= now 0%nat + d.

(** What a grant may last beyond its total time: nothing when the readings are a second apart at
    most; otherwise the second reading may have passed the end, the remaining time wraps around,
    and the grant is renewed once more in full. *)
Definition overrun (j : Z) : Z := if j <=? 1 then 0 else DEFAULT_MAX_ONCE_TIME_MILLISECONDS.

Section Steps.
Context {PT : PermTable} {BC : BuildConfig} {TM : Timers} {S K : Type} `{!AtmDb S} `{!TokenDevice K}.
Context (allowTemp : Z -> string -> bool) (abilityManager : bool) (parentHapToken : Z -> Z + Z).
Implicit Types (m : ShortGrantManager) (w : World S K).

(** The calls and events; in a strict history every request and every revocation succeeds. *)
Inductive sg_step (strict : bool) (j d : Z) : ShortGrantManager * World S K -> ShortGrantManager * World S K -> Prop :=
  | sg_refresh now registered x p once ret m w m' w' : readings j d now -> 0 <= once ->
      RefreshPermission allowTemp abilityManager parentHapToken now registered x p once m w = (ret, m', w') ->
      (strict = true -> ret = RET_SUCCESS) -> sg_step strict j d (m, w) (m', w')
  | sg_run i t m w m' w' : sg_tasks m !! i = Some t ->
      RunShortGrantTask allowTemp abilityManager i m w = (m', w') ->
      (strict = true -> (UpdatePermission allowTemp abilityManager (tk_tokenID t) (tk_permissionName t) false
                           PERMISSION_USER_FIXED false w).1 = RET_SUCCESS) ->
      sg_step strict j d (m, w) (m', w')
  | sg_stop x m w m' w' : ClearShortPermissionByTokenID allowTemp abilityManager x m w = (m', w') -> sg_step strict j d (m, w) (m', w')
  | sg_died m w m' w' : ShortGrantRemoteDied allowTemp abilityManager m w = (m', w') -> sg_step strict j d (m, w) (m', w').

Lemma no_grant x p m : find_if (is_short_grant x p) (shortGrantData_ m) = None -> (x, p) ∉ map fst (grants m).
Proof.
  intros F. unfold grants. rewrite map_map. intros (r & E & Hr)%list_elem_of_fmap.
  pose proof (proj1 (find_if_None _ _) F r Hr) as Hf. by rewrite (proj2 (is_short_grant_spec x p r)) in Hf.
Qed.

(** Tasks are named after their grants. *)
Lemma task_key d m t k : sg_inv d m -> t ∈ sg_tasks m -> IsShortGrantPermission k.2 = true -> tk_name t = grant_name k ->
  (tk_tokenID t, tk_permissionName t) = k.
Proof.
  intros H Ht Hk E. destruct (sg_owned d m H t Ht) as (f & Hin & En & _). rewrite En in E.
  apply name_inj in E as [-> ->]; [by destruct k|by apply (sg_data d m H _ _ _ Hin)|done].
Qed.

Lemma cancel_tasks name m :
  sg_tasks (CancelTaskOfPermissionRevoking name m) =
    if EVENTHANDLER_ENABLE && eventRunner then remove_tasks name (sg_tasks m) else sg_tasks m.
Proof. unfold CancelTaskOfPermissionRevoking. by destruct (_ && _). Qed.

Definition queue_ok m : Prop := EVENTHANDLER_ENABLE && eventRunner = false -> sg_tasks m = [].

Lemma cancel_elem name m t : queue_ok m ->
  t ∈ sg_tasks (CancelTaskOfPermissionRevoking name m) <-> t ∈ sg_tasks m /\ tk_name t <> name.
Proof.
  intros H. rewrite cancel_tasks. destruct (_ && _) eqn:E.
  - unfold remove_tasks. rewrite list_elem_of_filter. tauto.
  - rewrite (H E). split; [by intros ?%not_elem_of_nil|by intros [?%not_elem_of_nil _]].
Qed.

Lemma cancel_queue_ok name m : queue_ok m -> queue_ok (CancelTaskOfPermissionRevoking name m).
Proof. intros H E. rewrite cancel_tasks, E. auto. Qed.

Lemma cancel_grants name m : shortGrantData_ (CancelTaskOfPermissionRevoking name m) = shortGrantData_ m /\
  maxTime_ (CancelTaskOfPermissionRevoking name m) = maxTime_ m.
Proof. unfold CancelTaskOfPermissionRevoking. by destruct (_ && _). Qed.

(** Fewer tasks, and fewer grants of which no task is left. *)
Lemma inv_fewer d m m' : sg_inv d m -> maxTime_ m' = maxTime_ m -> sg_tasks m' `sublist_of` sg_tasks m ->
  grants m' `sublist_of` grants m ->
  (forall t f, t ∈ sg_tasks m' -> (tk_tokenID t, tk_permissionName t, f) ∈ grants m -> (tk_tokenID t, tk_permissionName t, f) ∈ grants m') ->
  sg_inv d m'.
Proof.
  intros H Em St Sg Hk. split.
  - rewrite Em. apply H.
  - eapply NoDup_map_sublist; [exact Sg|apply (sg_keys d m H)].
  - intros x p f Hin. apply (sg_data d m H). by eapply elem_of_sublist.
  - intros t Ht. destruct (sg_owned d m H t) as (f & Hin & E); [by eapply elem_of_sublist|]. exists f. auto.
  - eapply NoDup_map_sublist; [exact St|apply (sg_single d m H)].
  - intros E. rewrite (sg_handler d m H E) in St. by apply sublist_nil_r in St.
Qed.

Lemma remove_sublist name m : sg_tasks (CancelTaskOfPermissionRevoking name m) `sublist_of` sg_tasks m.
Proof. rewrite cancel_tasks. destruct (_ && _); [apply sublist_filter|done]. Qed.

(** Listeners do not matter. *)
Lemma inv_listeners d m m' : shortGrantData_ m' = shortGrantData_ m -> maxTime_ m' = maxTime_ m -> sg_tasks m' = sg_tasks m ->
  (sg_inv d m -> sg_inv d m') /\ (sg_covered m -> sg_covered m').
Proof.
  intros E1 E2 E3. unfold sg_covered, grants. split.
  - intros H. apply (inv_fewer d m); unfold grants; rewrite ?E1, ?E2, ?E3; done.
  - by rewrite E1, E3.
Qed.

Lemma register_same registered m : let m' := RegisterAppStopListener registered m in
  shortGrantData_ m' = shortGrantData_ m /\ maxTime_ m' = maxTime_ m /\ sg_tasks m' = sg_tasks m.
Proof. unfold RegisterAppStopListener. cbn. by destruct (appStopCallBack_ m). Qed.

Lemma unregister_same m : let m' := UnRegisterAppStopListener m in
  shortGrantData_ m' = shortGrantData_ m /\ maxTime_ m' = maxTime_ m /\ sg_tasks m' = sg_tasks m.
Proof. unfold UnRegisterAppStopListener. cbn. by destruct (appStopCallBack_ m). Qed.

(** Posting the task of a grant that has none. *)
Lemma inv_schedule d posted x p f cancel m : sg_inv d m -> (x, p, f) ∈ grants m ->
  (forall t, t ∈ sg_tasks m -> tk_name t <> short_grant_task_name x p) ->
  f * 1000 <= posted * 1000 + u32 (cancel * 1000) <= (f + DEFAULT_MAX_TIME_MILLISECONDS + d) * 1000 ->
  let m' := ScheduleRevokeTask posted x p (short_grant_task_name x p) cancel m in
  sg_inv d m' /\ grants m' = grants m /\
  (EVENTHANDLER_ENABLE && eventRunner = true -> forall n, (exists t, t ∈ sg_tasks m /\ tk_name t = n) \/ n = short_grant_task_name x p ->
     exists t, t ∈ sg_tasks m' /\ tk_name t = n).
Proof.
  intros H Hg Hn Hd. unfold ScheduleRevokeTask. destruct (_ && _) eqn:E; [|done]. cbv zeta. split_and!; [|done|].
  - split; cbn; [apply H|apply H|apply H| | |by rewrite E].
    + intros t [Ht|Ht%list_elem_of_singleton]%elem_of_app; [by apply H|]. subst t. cbn. by exists f.
    + rewrite map_app. apply NoDup_app. split_and!; [apply H| |apply NoDup_singleton].
      intros n (t & -> & Ht)%list_elem_of_fmap Hs%list_elem_of_singleton. cbn in Hs. by apply (Hn t).
  - intros _ n [(t & Ht & <-)| ->]; cbn.
    + exists t. split; [|done]. apply elem_of_app. by left.
    + eexists. split; [apply elem_of_app; right; by apply list_elem_of_singleton|done].
Qed.

(** How long a known grant may still last. *)
Lemma refresh_times j d now f once : readings j d now -> is_u32 (f + 4000) -> 0 <= f -> 0 <= once <= DEFAULT_MAX_ONCE_TIME_MILLISECONDS ->
  let rest := if u32 (now 0%nat - f) <? DEFAULT_MAX_TIME_MILLISECONDS
              then u32 (DEFAULT_MAX_TIME_MILLISECONDS - u32 (now 1%nat - f)) else 0 in
  let cancel := if once <? rest then once else rest in
  0 < cancel -> f * 1000 <= now 5%nat * 1000 + u32 (cancel * 1000) <= (f + DEFAULT_MAX_TIME_MILLISECONDS + (d + overrun j)) * 1000.
Proof.
  intros (H0 & Hu & Hnow & Hpost & Hlate) Hf Hf0 Ho rest cancel.
  unfold is_u32, overrun, DEFAULT_MAX_TIME_MILLISECONDS, DEFAULT_MAX_ONCE_TIME_MILLISECONDS in *.
  pose proof (Hnow 1%nat ltac:(lia)) as [N1 U1]. pose proof (Hpost 0%nat ltac:(lia)) as P0. pose proof (Hpost 1%nat ltac:(lia)) as P1.
  subst rest. destruct (Z.ltb_spec (u32 (now 0%nat - f)) (30 * 60)) as [Hl|]; [|subst cancel; destruct (Z.ltb_spec once 0); lia].
  assert (f <= now 0%nat) as Hle.
  { destruct (Z.le_gt_cases f (now 0%nat)) as [|Hgt]; [done|]. unfold u32 in Hl.
    rewrite <- (Z.mod_unique (now 0%nat - f) (2 ^ 32) (-1) (now 0%nat - f + 2 ^ 32)) in Hl; lia. }
  rewrite u32_small in Hl by (unfold is_u32; lia). subst cancel. rewrite (u32_small (now 1%nat - f)) by (unfold is_u32; lia).
  destruct (Z.le_gt_cases (now 1%nat - f) (30 * 60)) as [Hin|Hout].
  - rewrite (u32_small (30 * 60 - _)) by (unfold is_u32; lia). assert (0 <= (if j <=? 1 then 0 else 5 * 60)) by (split_if; lia).
    destruct (Z.ltb_spec once (30 * 60 - (now 1%nat - f))); intros Hc; rewrite u32_small by (unfold is_u32; lia); lia.
  - assert (u32 (30 * 60 - (now 1%nat - f)) = 30 * 60 - (now 1%nat - f) + 2 ^ 32) as ->.
    { symmetry. apply (Z.mod_unique _ _ (-1)); lia. }
    destruct (Z.ltb_spec once (30 * 60 - (now 1%nat - f) + 2 ^ 32)); [|lia]. intros Hc. rewrite u32_small by (unfold is_u32; lia).
    destruct (Z.leb_spec j 1); lia.
Qed.

(** The task of a known grant is taken back and posted again. *)
Lemma repost d posted x p f cancel m m1 : sg_inv d m -> grants m1 = grants m -> sg_tasks m1 = sg_tasks m -> maxTime_ m1 = maxTime_ m ->
  (x, p, f) ∈ grants m ->
  f * 1000 <= posted * 1000 + u32 (cancel * 1000) <= (f + DEFAULT_MAX_TIME_MILLISECONDS + d) * 1000 ->
  let m2 := CancelTaskOfPermissionRevoking (short_grant_task_name x p) m1 in
  let m3 := ScheduleRevokeTask posted x p (short_grant_task_name x p) cancel m2 in
  sg_inv d m2 /\ sg_inv d m3 /\ (EVENTHANDLER_ENABLE && eventRunner = true -> sg_covered m -> sg_covered m3).
Proof.
  intros H Eg Et Em Hg Hd m2 m3.
  assert (sg_inv d m1) as H1 by (apply (inv_fewer d m); rewrite ?Eg, ?Et; done).
  destruct (cancel_grants (short_grant_task_name x p) m1) as [Ed2 Em2]. fold m2 in Ed2, Em2.
  assert (grants m2 = grants m) as Eg2 by (rewrite <- Eg; unfold grants; by rewrite Ed2).
  assert (sg_inv d m2) as H2 by (apply (inv_fewer d m1); [done|done|apply remove_sublist|by rewrite Eg2, Eg|by rewrite Eg2, Eg]).
  destruct (inv_schedule d posted x p f cancel m2) as (H3 & Eg3 & C3); [done|by rewrite Eg2| |done|].
  { intros t Ht. by apply (cancel_elem _ m1 t (sg_handler d m1 H1)) in Ht as [_ ?]. }
  split_and!; [done..|]. intros Hh Hcov g Hgg. fold m3 in Eg3, C3. rewrite Eg3, Eg2 in Hgg. apply C3; [done|].
  destruct (Hcov g Hgg) as (t & Ht & En). destruct (decide (tk_name t = short_grant_task_name x p)) as [En'|Hn]; [right; congruence|].
  left. exists t. split; [|done]. apply (cancel_elem _ m1 _ (sg_handler d m1 H1)). by rewrite Et.
Qed.

(** A new grant gets its first task. *)
Lemma first_post d posted x p f rv cancel m : sg_inv d m -> find_if (is_short_grant x p) (shortGrantData_ m) = None ->
  IsShortGrantPermission p = true -> x <> 0 -> is_u32 (f + 4000) -> 0 <= f ->
  f * 1000 <= posted * 1000 + u32 (cancel * 1000) <= (f + DEFAULT_MAX_TIME_MILLISECONDS + d) * 1000 ->
  let m1 := set_grants (shortGrantData_ m ++ [mkPermTimerData x p f rv]) m in
  let m3 := ScheduleRevokeTask posted x p (short_grant_task_name x p) cancel m1 in
  sg_inv d m3 /\ (EVENTHANDLER_ENABLE && eventRunner = true -> sg_covered m -> sg_covered m3).
Proof.
  intros H F Hp Hx Hf Hf0 Hd m1 m3. pose proof (no_grant x p m F) as Hno.
  assert (grants m1 = grants m ++ [(x, p, f)]) as Eg by (unfold grants, m1; cbn; by rewrite map_app).
  assert (sg_inv d m1) as H1.
  { split; [apply H| | | |apply H|apply H].
    - rewrite Eg, map_app. apply NoDup_app. split_and!; [apply H| |apply NoDup_singleton].
      intros k Hk Hs%list_elem_of_singleton. cbn in Hs. by subst k.
    - intros y q f'. rewrite Eg. intros [Hin|[= -> -> ->]%list_elem_of_singleton]%elem_of_app; [by apply H|done].
    - intros t Ht. destruct (sg_owned d m H t Ht) as (f' & Hin & E). exists f'. rewrite Eg. split; [apply elem_of_app; by left|done]. }
  destruct (inv_schedule d posted x p f cancel m1) as (H3 & Eg3 & C3); [done| | |done|].
  { rewrite Eg. apply elem_of_app. right. by apply list_elem_of_singleton. }
  { intros t Ht En. apply Hno. destruct (sg_owned d m H t Ht) as (f' & Hin & _). pose proof (task_key d m t (x, p) H Ht Hp En) as Ek.
    apply list_elem_of_fmap. exists (tk_tokenID t, tk_permissionName t, f'). by rewrite <- Ek. }
  split; [done|]. intros Hh Hcov g Hgg. fold m3 in Eg3, C3. rewrite Eg3, Eg in Hgg.
  apply C3; [done|]. apply elem_of_app in Hgg as [Hgg| ->%list_elem_of_singleton]; [left; by apply Hcov|by right].
Qed.

Lemma refresh_keeps j d0 now registered x p once ret m w m' w' : let d := d0 + overrun j in readings j d0 now -> 0 <= once -> sg_inv d m ->
  RefreshPermission allowTemp abilityManager parentHapToken now registered x p once m w = (ret, m', w') ->
  sg_inv d m' /\ (ret = RET_SUCCESS -> EVENTHANDLER_ENABLE && eventRunner = true -> sg_covered m -> sg_covered m').
Proof.
  intros d R Ho H. unfold RefreshPermission. split_if; [by intros [= _ <- _]|].
  apply orb_false_iff in E as [[[Hx _]%orb_false_iff Homax]%orb_false_iff _]. apply Z.eqb_neq in Hx. apply Z.ltb_ge in Homax.
  assert (forall m3, sg_inv d m3 /\ (EVENTHANDLER_ENABLE && eventRunner = true -> sg_covered m -> sg_covered m3) ->
    let m' := RegisterAppStopListener registered m3 in
    sg_inv d m' /\ (RET_SUCCESS = RET_SUCCESS -> EVENTHANDLER_ENABLE && eventRunner = true -> sg_covered m -> sg_covered m')) as Hreg.
  { intros m3 [H3 C3]. destruct (register_same registered m3) as (E1 & E2 & E3). destruct (inv_listeners d _ _ E1 E2 E3) as [I1 I2]. auto. }
  destruct (find_if (is_short_grant x p) (shortGrantData_ m)) as [iter|] eqn:F.
  - pose proof F as [Hin Hi%is_short_grant_spec]%find_if_Some. unfold grant_of in Hi. cbn in Hi. injection Hi as Ex Ep.
    assert ((x, p, pt_firstGrantTimes iter) ∈ grants m) as Hg.
    { unfold grants. apply list_elem_of_fmap. exists iter. unfold grant_of. by rewrite Ex, Ep. }
    destruct (sg_data d m H _ _ _ Hg) as (Hp & _ & Hf & Hf0). cbv zeta. rewrite (sg_max d m H).
    pose proof (refresh_times j d0 now (pt_firstGrantTimes iter) once R Hf Hf0 ltac:(done)) as Ht. cbv zeta in Ht.
    set (cancel := if once <? _ then once else _) in *. set (curr := if now 2%nat <? _ then _ else 0).
    assert (0 <= curr) as Hcu by (subst curr; split_if; [apply u32_range|done]).
    destruct (Z.ltb_spec curr cancel) as [Hlt|_]; [|intros [= <- <- _]; apply Hreg; auto].
    set (m1 := set_grants _ m). destruct (repost d (now 5%nat) x p (pt_firstGrantTimes iter) cancel m m1) as (H2 & H3);
      [done|unfold grants, m1; cbn; by apply update_first_map|done|done|done|apply Ht; lia|].
    destruct (GrantPermission _ _ _ _ _ _ _ _) as [e w1]. destruct (Z.eqb_spec e RET_SUCCESS) as [->|Hne]; cbn [negb].
    + rewrite Ex, Ep. intros [= <- <- _]. by apply Hreg.
    + by intros [= <- <- _].
  - destruct (IsShortGrantPermission p) eqn:Hp; cbn [negb]; [|by intros [= _ <- _]]. cbv zeta.
    destruct (GrantPermission _ _ _ _ _ _ _ _) as [e w1]. destruct (Z.eqb_spec e RET_SUCCESS) as [->|Hne]; cbn [negb]; [|by intros [= <- <- _]].
    intros [= <- <- _]. apply Hreg. destruct R as (R0 & Ru & _ & Rp & Rl). pose proof (Rp 0%nat ltac:(lia)).
    apply first_post; try done. assert (0 <= overrun j) by (unfold overrun; by split_if). unfold d, DEFAULT_MAX_ONCE_TIME_MILLISECONDS, DEFAULT_MAX_TIME_MILLISECONDS, is_u32 in *.
    rewrite (u32_small (once * 1000)) by (unfold is_u32; lia). lia.
Qed.

(** Dropping a grant. *)
Lemma erase_grant x p m m' : shortGrantData_ m' = erase_first (is_short_grant x p) (shortGrantData_ m) ->
  grants m' `sublist_of` grants m /\
  (forall g, g ∈ grants m -> g.1 <> (x, p) -> g ∈ grants m') /\
  (NoDup (map fst (grants m)) -> forall g, g ∈ grants m' -> g.1 <> (x, p)).
Proof.
  intros E. unfold grants. rewrite E. clear E m'. generalize (shortGrantData_ m). clear m. intros l.
  split; [apply (fmap_sublist grant_of), erase_first_sublist|]. induction l as [|r l IH]; cbn.
  { split; [by intros|]. intros _ g Hg%elem_of_nil. done. }
  destruct (is_short_grant x p r) eqn:Er.
  - apply is_short_grant_spec in Er. split.
    + intros g [->|Hg]%elem_of_cons Hne; [done|done].
    + intros Hd g Hg Ek. apply NoDup_cons in Hd as [Hn _]. change ((grant_of r).1 ∉ map fst (map grant_of l)) in Hn. rewrite Er in Hn. apply Hn. rewrite <- Ek. by apply list_elem_of_fmap_2.
  - destruct IH as [IH1 IH2]. assert ((grant_of r).1 <> (x, p)) as Hr by (intros Hr%is_short_grant_spec; congruence). split.
    + intros g [->|Hg]%elem_of_cons Hne; [by left|right; auto].
    + intros Hd g [->|Hg]%elem_of_cons; [done|]. apply NoDup_cons in Hd as [_ Hd]. auto.
Qed.

Lemma run_keeps d i t m w m' w' : sg_inv d m -> sg_tasks m !! i = Some t ->
  RunShortGrantTask allowTemp abilityManager i m w = (m', w') ->
  sg_inv d m' /\
  ((UpdatePermission allowTemp abilityManager (tk_tokenID t) (tk_permissionName t) false PERMISSION_USER_FIXED false w).1 = RET_SUCCESS ->
   sg_covered m -> sg_covered m').
Proof.
  intros H Hi. unfold RunShortGrantTask. rewrite Hi. set (x := tk_tokenID t). set (p := tk_permissionName t). set (m1 := set_sg_tasks _ m).
  pose proof (list_elem_of_lookup_2 _ _ _ Hi) as Ht. destruct (sg_owned d m H t Ht) as (f & Hg & En & _). fold x p in Hg, En.
  assert (forall t', t' ∈ sg_tasks m1 <-> t' ∈ sg_tasks m /\ tk_name t' <> tk_name t) as Hrest.
  { pose proof (sg_single d m H) as Hs. rewrite <- (take_drop_middle (sg_tasks m) i t Hi), map_app in Hs. cbn in Hs.
    apply NoDup_app in Hs as (_ & Hs1 & [Hs2 _]%NoDup_cons). intros t'. unfold m1. cbn [sg_tasks set_sg_tasks]. rewrite delete_take_drop.
    rewrite <- (take_drop_middle (sg_tasks m) i t Hi) at 3. rewrite !elem_of_app, elem_of_cons. split.
    - intros [Hin|Hin]; (split; [tauto|]); intros E.
      + apply (Hs1 (tk_name t')); [by apply list_elem_of_fmap_2|]. rewrite E. by left.
      + apply Hs2. rewrite <- E. by apply list_elem_of_fmap_2.
    - intros [[?|[->|?]] Hne]; [by left|done|by right]. }
  assert (sg_tasks m1 `sublist_of` sg_tasks m) as Hsub by apply sublist_delete.
  assert (sg_inv d m1) as H1 by by apply (inv_fewer d m).
  unfold ClearShortPermissionData. destruct (find_if (is_short_grant x p) (shortGrantData_ m1)) as [r|] eqn:F.
  2: { intros _. exfalso. apply (no_grant x p m1 F). apply list_elem_of_fmap. by exists (x, p, f). }
  destruct (UpdatePermission _ _ _ _ _ _ _ _) as [e w1]. destruct (Z.eqb_spec e RET_SUCCESS) as [->|Hne]; cbn [negb].
  2: { intros [= <- <-]. split; [done|]. by intros E. }
  set (m2 := set_grants _ m1). destruct (erase_grant x p m1 m2 eq_refl) as (Sg & Hkeep & Hgone).
  assert (sg_inv d m2) as H2.
  { apply (inv_fewer d m1); try done. intros t' f' [Ht' Hn]%Hrest Hg'. apply Hkeep; [done|]. cbn. intros Ek. apply Hn.
    destruct (sg_owned d m H t' Ht') as (_ & _ & En' & _). injection Ek as E1 E2. rewrite En', En. congruence. }
  assert (sg_covered m -> sg_covered m2) as C2.
  { intros Hcov g Hg2. pose proof (Hgone (sg_keys d m H) g Hg2) as Hk. pose proof (elem_of_sublist _ _ _ Hg2 Sg) as Hg1.
    destruct (Hcov g Hg1) as (t' & Ht' & En'). exists t'. split; [|done]. apply Hrest. split; [done|]. rewrite En', En. destruct g as [[y q] fg].
    intros [Ey Eq]%name_inj; [by apply Hk; cbn in *; subst|by apply (sg_data d m H _ _ _ Hg1)|by apply (sg_data d m H _ _ _ Hg)]. }
  destruct (unregister_same m2) as (E1 & E2 & E3). destruct (inv_listeners d _ _ E1 E2 E3) as [I1 I2].
  intros [= <- <-]. destruct (bool_decide _); auto.
Qed.

(** The grants a loop drops, with their tasks. *)
Definition dropped (l : list PermTimerData) m m' (kept : list PermTimerData) : Prop :=
  exists gone, l ≡ₚ kept ++ gone /\ kept `sublist_of` l /\ shortGrantData_ m' = shortGrantData_ m /\ maxTime_ m' = maxTime_ m /\
    sg_tasks m' `sublist_of` sg_tasks m /\
    forall t, t ∈ sg_tasks m' <-> t ∈ sg_tasks m /\ tk_name t ∉ map (fun r => grant_name (grant_of r).1) gone.

Lemma drop_one x p r l m m' kept : queue_ok m -> (grant_of r).1 = (x, p) ->
  dropped l (CancelTaskOfPermissionRevoking (short_grant_task_name x p) m) m' kept -> dropped (r :: l) m m' kept.
Proof.
  intros Hq Er (gone & Hp & Hk & E1 & E2 & Hs & Ht). exists (r :: gone). destruct (cancel_grants (short_grant_task_name x p) m) as [F1 F2].
  split_and!; [by rewrite Hp, Permutation_middle|by apply sublist_cons|congruence|congruence|etrans; [done|apply remove_sublist]|].
  intros t. rewrite Ht, (cancel_elem _ _ _ Hq). cbn [map]. rewrite Er, not_elem_of_cons. unfold grant_name. cbn. tauto.
Qed.

Lemma keep_one r l m m' kept : dropped l m m' kept -> dropped (r :: l) m m' (r :: kept).
Proof. intros (gone & Hp & Hk & H). exists gone. split; [by rewrite Hp|]. split; [by apply sublist_skip|done]. Qed.

Lemma keep_all l m : dropped l m m l.
Proof. exists []. split_and!; try done; [by rewrite app_nil_r|]. intros t. cbn. rewrite elem_of_nil. tauto. Qed.

Lemma stop_loop x l : forall m w kept fin m' w', queue_ok m ->
  ClearShortPermissionByTokenID_loop allowTemp abilityManager x l m w = (kept, fin, m', w') -> dropped l m m' kept.
Proof.
  induction l as [|r l IH]; intros m w kept fin m' w' Hq; cbn [ClearShortPermissionByTokenID_loop].
  { intros [= <- _ <- _]. apply keep_all. }
  destruct (Z.eqb_spec (pt_tokenID r) x) as [Ex|_].
  - destruct (UpdatePermission _ _ _ _ _ _ _ _) as [e w1]. split_if; [intros [= <- _ <- _]; apply keep_all|].
    intros D%IH; [|by apply cancel_queue_ok]. eapply drop_one; [done| |done]. unfold grant_of. cbn. by rewrite Ex.
  - destruct (ClearShortPermissionByTokenID_loop _ _ x l m w) as [[[kept1 fin1] m1] w1] eqn:L. intros [= <- _ <- _].
    apply keep_one. by eapply IH.
Qed.

Lemma died_loop l : forall m w m' w', queue_ok m ->
  ShortGrantRemoteDied_loop allowTemp abilityManager l m w = (m', w') -> dropped l m m' [].
Proof.
  induction l as [|r l IH]; intros m w m' w' Hq; cbn [ShortGrantRemoteDied_loop]; [intros [= <- _]; apply keep_all|].
  destruct (UpdatePermission _ _ _ _ _ _ _ _) as [e w1]. intros D%IH; [|by apply cancel_queue_ok].
  eapply drop_one; [done| |done]. done.
Qed.

Lemma dropped_keeps d m m1 kept m2 : sg_inv d m -> dropped (shortGrantData_ m) m m1 kept ->
  shortGrantData_ m2 = kept -> sg_tasks m2 = sg_tasks m1 -> maxTime_ m2 = maxTime_ m1 ->
  sg_inv d m2 /\ (sg_covered m -> sg_covered m2).
Proof.
  intros H (gone & Hp & Hk & _ & E2 & Hs & Ht) Ed Et Em.
  assert (forall g, g ∈ grants m <-> g ∈ grants m2 \/ g ∈ map grant_of gone) as Hg.
  { intros g. unfold grants. rewrite Ed, Hp, map_app, elem_of_app. done. }
  assert (forall g g', g ∈ grants m2 -> g' ∈ map grant_of gone -> g.1 <> g'.1) as Hd.
  { pose proof (sg_keys d m H) as Hn. unfold grants in Hn. rewrite Hp, map_app, map_app in Hn. apply NoDup_app in Hn as (_ & Hn & _).
    intros g g' Hg1 Hg2 E. unfold grants in Hg1. rewrite Ed in Hg1. apply (Hn g.1); [by apply list_elem_of_fmap_2|]. rewrite E. by apply list_elem_of_fmap_2. }
  assert (forall g, g ∈ map grant_of gone -> grant_name g.1 ∈ map (fun r => grant_name (grant_of r).1) gone) as Hn.
  { intros g (r & -> & Hr)%list_elem_of_fmap. apply list_elem_of_fmap. by exists r. }
  split.
  - apply (inv_fewer d m); [done|congruence|by rewrite Et| |].
    + unfold grants. rewrite Ed. by apply (fmap_sublist grant_of).
    + intros t f. rewrite Et. intros [Hin Hno]%Ht [Hf|Hf]%Hg; [done|]. destruct Hno. destruct (sg_owned d m H t Hin) as (_ & _ & -> & _).
      exact (Hn _ Hf).
  - intros Hcov g Hg2. assert (g ∈ grants m) as Hgm by (apply Hg; by left). destruct (Hcov g Hgm) as (t & Hin & En). exists t. split; [|done]. rewrite Et. apply Ht.
    split; [done|]. rewrite En. intros (r & E & Hr)%list_elem_of_fmap.
    assert (grant_of r ∈ map grant_of gone) as Hr' by by apply list_elem_of_fmap_2. apply (Hd g (grant_of r) Hg2 Hr').
    assert (grant_of r ∈ grants m) as Hrm by (apply Hg; by right). destruct g as [[y q] f].
    apply name_inj in E as [E1 E3]; [cbn in *; by rewrite E1, E3|by apply (sg_data d m H _ _ _ Hgm)|by apply (sg_data d m H _ _ _ Hrm)].
Qed.

Lemma stop_keeps d x m w m' w' : sg_inv d m -> ClearShortPermissionByTokenID allowTemp abilityManager x m w = (m', w') ->
  sg_inv d m' /\ (sg_covered m -> sg_covered m').
Proof.
  intros H. unfold ClearShortPermissionByTokenID. destruct (ClearShortPermissionByTokenID_loop _ _ _ _ _ _) as [[[kept fin] m1] w1] eqn:L.
  apply stop_loop in L; [|exact (sg_handler d m H)]. intros [= <- <-].
  destruct (unregister_same (set_grants kept m1)) as (E1 & E2 & E3).
  destruct (fin && _); eapply (dropped_keeps d m m1 kept); try done; by rewrite ?E1, ?E2, ?E3.
Qed.

Lemma died_keeps d m w m' w' : sg_inv d m -> ShortGrantRemoteDied allowTemp abilityManager m w = (m', w') ->
  sg_inv d m' /\ (sg_covered m -> sg_covered m').
Proof.
  intros H. unfold ShortGrantRemoteDied. destruct (ShortGrantRemoteDied_loop _ _ _ _ _) as [m1 w1] eqn:L.
  apply died_loop in L; [|exact (sg_handler d m H)]. intros [= <- <-]. by eapply (dropped_keeps d m m1 []).
Qed.

Lemma steps_keep strict j d0 s s' : let d := d0 + overrun j in rtc (sg_step strict j d0) s s' -> sg_inv d s.1 ->
  sg_inv d s'.1 /\ (strict = true -> EVENTHANDLER_ENABLE && eventRunner = true -> sg_covered s.1 -> sg_covered s'.1).
Proof.
  intros d. induction 1 as [|s1 s2 s3 Hs _ IH]; intros H; [done|].
  assert (sg_inv d s2.1 /\ (strict = true -> EVENTHANDLER_ENABLE && eventRunner = true -> sg_covered s1.1 -> sg_covered s2.1)) as [H2 C2].
  { destruct Hs as [? ? ? ? ? ? ? ? ? ? Hr Ho E Hok|? ? ? ? ? ? Hi E Hok|? ? ? ? ? E|? ? ? ? E]; cbn in *.
    - destruct (refresh_keeps _ _ _ _ _ _ _ _ _ _ _ _ Hr Ho H E) as [? C]. split; [done|]. intros Hst ? ?. apply C; auto.
    - destruct (run_keeps _ _ _ _ _ _ _ H Hi E) as [? C]. split; [done|]. intros Hst _ ?. apply C; auto.
    - destruct (stop_keeps _ _ _ _ _ _ H E) as [? C]. auto.
    - destruct (died_keeps _ _ _ _ _ H E) as [? C]. auto. }
  destruct (IH H2) as [H3 C3]. split; [done|]. auto.
Qed.

Lemma start_inv d : sg_inv d new_ShortGrantManager.
Proof. split; cbn; try done; try constructor; intros; exfalso; by eapply elem_of_nil. Qed.

(** C6: a short grant ends in time.  In every history of requests, tasks that run, applications
    that stop and deaths of the application manager, where the clock does not go back during one
    request and stays 4000 seconds below 2^32: each task in the queue belongs to a grant on record
    and is due between the first grant and half an hour after it, plus the [d] seconds a request
    may take until it posts the task, however often the grant was renewed, provided that the
    readings of the clock in one request lie within a second; when they may lie further apart, the
    code can compute a negative remaining time, and the bound is five minutes more.  No grant has
    two tasks; no permission outside the list is on record; and as long as requests and
    revocations succeed and the event handler is there, every grant on record has its task, so no
    grant is left without an end. *)
Theorem short_grants_bounded strict j d w0 m w :
  rtc (sg_step strict j d) (new_ShortGrantManager, w0) (m, w) ->
  (forall t, t ∈ sg_tasks m -> exists r, r ∈ shortGrantData_ m /\ pt_tokenID r = tk_tokenID t /\
     pt_permissionName r = tk_permissionName t /\
     pt_firstGrantTimes r * 1000 <= tk_due t <= (pt_firstGrantTimes r + 30 * 60 + d + (if j <=? 1 then 0 else 5 * 60)) * 1000) /\
  NoDup (map tk_name (sg_tasks m)) /\
  (forall r, r ∈ shortGrantData_ m -> IsShortGrantPermission (pt_permissionName r) = true) /\
  (strict = true -> EVENTHANDLER_ENABLE && eventRunner = true -> forall r, r ∈ shortGrantData_ m ->
     exists t, t ∈ sg_tasks m /\ tk_tokenID t = pt_tokenID r /\ tk_permissionName t = pt_permissionName r).
Proof.
  intros [H C]%steps_keep; [|apply start_inv]. cbn in H, C. set (d' := d + overrun j) in *.
  assert (forall r, r ∈ shortGrantData_ m -> (pt_tokenID r, pt_permissionName r, pt_firstGrantTimes r) ∈ grants m) as Hg
    by (intros r Hr; by apply (list_elem_of_fmap_2 grant_of)).
  split_and!.
  - intros t Ht. destruct (sg_owned d' m H t Ht) as (f & (r & [= E1 E2 E3] & Hr)%list_elem_of_fmap & _ & Hd).
    exists r. rewrite <- E3. rewrite <- (Z.add_assoc _ d). done.
  - apply H.
  - intros r Hr. by apply (sg_data d' m H _ _ _ (Hg r Hr)).
  - intros Hst Hh r Hr. destruct (C Hst Hh) with (g := grant_of r) as (t & Ht & En); [by intros g ?%elem_of_nil|by apply Hg|].
    exists t. split; [done|]. pose proof (task_key d' m t (grant_of r).1 H Ht (proj1 (sg_data d' m H _ _ _ (Hg r Hr))) En) as [= E1 E2]. done.
Qed.
End Steps.

(** ** A run: a grant, its renewal, and its end. *)
Definition SHORT_TERM : string := "ohos.permission.SHORT_TERM_WRITE_IMAGEVIDEO".
Definition short_table : PermTable := mkPermTable
  (@g_permList sample_table ++ [plain_def SHORT_TERM USER_GRANT APL_NORMAL AVAILABLE_NORMAL]) ∅.
Definition working_timers : Timers := {| EVENTHANDLER_ENABLE := true; eventRunner := true |}.
#[local] Existing Instances short_table full_config working_timers.

Section Samples.
Definition short_world : World MemRdb MemDevice :=
  (CreateHapTokenInfo (fun _ => 5)
     (mkHapInfoParams 100 "com.example.app" 0 DLP_COMMON "id" 12 false false 0 false "release" false)
     (mkHapPolicy APL_NORMAL "domain" [] [mkPermissionStatus 0 SHORT_TERM "" PERMISSION_DENIED PERMISSION_DEFAULT_FLAG 0] [] [] 0 ∅ false) []
     (mkWorld ∅ ∅ ∅ ∅ empty_brief initial_IdMgr ∅ ∅ (mkMemRdb ∅ []) (mkMemDevice ∅ []) (fun _ => 1) [])).2.
Definition short_token : Z := 0x20000005.
Definition ask_short (at_second : Z) (s : ShortGrantManager * World MemRdb MemDevice) :=
  let '(ret, m, w) := RefreshPermission (fun _ _ => true) true (fun _ => inl 0) (fun _ => at_second) 0 short_token SHORT_TERM 300 s.1 s.2 in
  (ret, (m, w)).
Definition short_first : Z * (ShortGrantManager * World MemRdb MemDevice) := ask_short 1000 (new_ShortGrantManager, short_world).
Definition short_again : Z * (ShortGrantManager * World MemRdb MemDevice) := ask_short 2700 short_first.2.
Definition short_status (w : World MemRdb MemDevice) : Z := VerifyPermissionStatus short_token SHORT_TERM (w_brief w).

(** Renewed 28 minutes after the first grant, it still ends after 30 minutes; then it is gone. *)
Lemma short_grants_bounded_witness :
  short_status short_again.2.2 = PERMISSION_GRANTED /\ map tk_due (sg_tasks short_again.2.1) = [2800000] /\
  (forall t, t ∈ sg_tasks short_again.2.1 -> exists r, r ∈ shortGrantData_ short_again.2.1 /\ tk_due t <= (pt_firstGrantTimes r + 30 * 60) * 1000) /\
  short_status (RunShortGrantTask (fun _ _ => true) true 0 short_again.2.1 short_again.2.2).2 = PERMISSION_DENIED.
Proof.
  split; [vm_compute; reflexivity|]. split; [vm_compute; reflexivity|]. split; [|vm_compute; reflexivity].
  destruct (short_grants_bounded (fun _ _ => true) true (fun _ => inl 0) true 0 0 short_world short_again.2.1 short_again.2.2) as (H & _).
  - eapply (rtc_l _ _ (short_first.2.1, short_first.2.2)); [|apply rtc_once].
    + eapply (sg_refresh _ _ _ _ _ _ (fun _ => 1000) 0 short_token SHORT_TERM 300 RET_SUCCESS); [|lia|vm_compute; reflexivity|done].
      unfold readings, is_u32. split_and!; try lia; intros; lia.
    + eapply (sg_refresh _ _ _ _ _ _ (fun _ => 2700) 0 short_token SHORT_TERM 300 RET_SUCCESS); [|lia|vm_compute; reflexivity|done].
      unfold readings, is_u32. split_and!; try lia; intros; lia.
  - intros t Ht. destruct (H t Ht) as (r & Hr & _ & _ & Hd). exists r. split; [exact Hr|cbn in Hd; lia].
Defined.
End Samples.
