(* ===== verification/AtmService.v ===== *)
(** * The service: who may call what, and the entry points

    AccessTokenManagerService (accesstoken_manager_service.cpp).  Every request is checked
    against the identity of the caller, then handed to the managers.  A handler is a
    function of the state of all managers; checking a permission may itself load a token or
    use the device, so the guards thread the state too. *)

From stdpp Require Import base gmap list strings.
From S2P Require Import Prelude AccessTokenTypes TokenId Database PermissionMap Json Validator DataTranslator PermissionDataBrief IdManager UserPolicy ToggleManager ConstraintCheck HapTokenInfo PermissionRequest PermissionInit Kernel InfoManager InfoManagerOps PermissionManager ClawTicket ToolToken UserPolicyRefresh.
#[local] Open Scope string_scope.
#[local] Open Scope list_scope.
#[local] Open Scope Z_scope.
#[local] Open Scope cxx_scope.

Definition ERR_NOT_SYSTEM_APP : Z := 202.
Definition ERR_PERM_REQUEST_CFG_FAILED : Z := 12100024.
Definition ERR_BUNDLE_NOT_EXIST : Z := 12100047.
Definition ERROR : Z := -1.
Definition ROOT_UID : Z := 0.
Definition MAX_PERMISSION_SIZE : Z := 1024.
Definition BASE_USER_RANGE : Z := 200000.
Definition MAX_SET_USER_POLICY_SIZE : Z := 200.
Definition MANAGE_HAP_TOKENID_PERMISSION : string := "ohos.permission.MANAGE_HAP_TOKENID".
Definition GRANT_SENSITIVE_PERMISSIONS : string := "ohos.permission.GRANT_SENSITIVE_PERMISSIONS".
Definition REVOKE_SENSITIVE_PERMISSIONS : string := "ohos.permission.REVOKE_SENSITIVE_PERMISSIONS".
Definition GET_SENSITIVE_PERMISSIONS : string := "ohos.permission.GET_SENSITIVE_PERMISSIONS".
Definition DISABLE_PERMISSION_DIALOG : string := "ohos.permission.DISABLE_PERMISSION_DIALOG".
Definition MANAGE_EDM_POLICY : string := "ohos.permission.MANAGE_EDM_POLICY".
Definition MANAGE_TOOL_TOKENID : string := "ohos.permission.MANAGE_TOOL_TOKENID".
Definition MANAGE_USER_POLICY : string := "ohos.permission.MANAGE_USER_POLICY".

(** What IPCSkeleton answers during a call. *)
Record Caller := mkCaller {
  callingTokenID : Z;
  callingFullTokenID : Z;
  callingUid : Z;
  callingPid : Z;
}.

(** The build switch of the service, and what it asks of others: whether the kernel keeps the
    permissions of native processes, the parent of a binary's token, the observer of temporary
    grants, whether the ability manager can be loaded, the monitor of checks, the bundle
    verifier, the features of the device, the accounts and the random numbers. *)
Class ServiceEnv := {
  ATM_BUILD_VARIANT_USER_ENABLE : bool;
  kernelSpm : bool;
  parentHapToken : Z -> Z + Z;
  allowTemp : Z -> string -> bool;
  abilityManager : bool;
  isInPunishingTime : Z -> bool;
  ParseAppDistType : string -> Z;
  features : gset string;
  subProfileIndex : Z -> Z -> Z * Z;
  rands : nat -> Z;
}.

(** ** Requests on the state of the managers. *)
Definition Op (S K A : Type) : Type := ToolState S K -> A * ToolState S K.
#[export] Instance Op_ret {S K} : MRet (Op S K) := fun _ a t => (a, t).
#[export] Instance Op_bind {S K} : MBind (Op S K) := fun _ _ f m t => let '(a, t) := m t in f a t.

(** Conjunction that stops at the first [false], as && does. *)
Definition and_also {S K} (m1 m2 : Op S K bool) : Op S K bool := b ← m1; if b : bool then m2 else mret false.
Definition not_so {S K} (m : Op S K bool) : Op S K bool := b ← m; mret (negb b).
Infix "&&&" := and_also (at level 40, left associativity) : cxx_scope.

Definition on_managers {S K A} (f : World S K -> A * World S K) : Op S K A :=
  fun t => let '(a, w) := f (t_world t) in (a, mkToolState w (t_tools t) (t_tickets t)).
Definition on_database {S K A} (f : S -> A * S) : Op S K A :=
  on_managers (fun w => let '(a, db) := f (w_db w) in (a, set_db db w)).
Definition read_world {S K A} (f : World S K -> A) : Op S K A := fun t => (f (t_world t), t).

Definition set_policies {S K} (records : UserPolicy.Records) (w : World S K) : World S K :=
  mkWorld (hapTokenInfoMap_ w) (hapTokenIdMap_ w) (reservedHapTokenIdMap_ w) (nativeTokenInfoMap_ w) (w_brief w)
    (w_ids w) records (w_modes w) (w_db w) (w_kernel w) (w_clock w) (w_events w).

(** ** Parameters of requests. *)
Definition IsRenderToken (tokenID : Z) : bool := nz (renderFlag (inner_of_id tokenID)).

Definition CheckPermissionUpdateParam (tokenID : Z) (permissionName : string) (flag updateFlag : Z) : Z :=
  if negb (IsTokenIDValid tokenID) then ERR_PARAM_INVALID
  else if IsRenderToken tokenID then ERR_TOKENID_NOT_EXIST
  else if negb (IsPermissionNameValid permissionName) then ERR_PARAM_INVALID
  else if negb (IsPermissionFlagValid flag) || IsAdminPermissionFlag flag then ERR_PARAM_INVALID
  else if (updateFlag =? USER_GRANTED_PERM) || (updateFlag =? OPERABLE_PERM) then RET_SUCCESS else ERR_PARAM_INVALID.

Definition ArePermissionNamesValid (permissionList : list string) : bool := forallb IsPermissionNameValid permissionList.

Definition NormalizeSideloadParams (isSideloadApp : bool) (appDistributionType : string) : bool :=
  isSideloadApp && String.eqb appDistributionType "developer_id".

(** The members of [HapInfoParcel] and [UpdateHapInfoParamsIdl] only the service reads. *)
Record HapInfoParcel := mkHapInfoParcel {
  hi_params : HapInfoParams;
  hi_appDistributionType : string;
  hi_isSkillHap : bool;
}.
Record UpdateHapInfoParamsIdl := mkUpdateHapInfoParamsIdl {
  ui_params : UpdateHapInfoParams;
  ui_appDistributionType : string;
  ui_dataRefresh : bool;
  ui_isSkillHap : bool;
}.
(** [HapInfoCheckResultIdl]. *)
Record HapInfoCheckResultIdl := mkHapInfoCheckResultIdl {
  idl_permissionName : string;
  idl_rule : Z;
  idl_realResult : Z;
}.
Definition FillPermissionCheckResultIdl (permCheckResult : HapInfoCheckResult) : HapInfoCheckResultIdl :=
  mkHapInfoCheckResultIdl (hicr_permissionName permCheckResult) (hicr_rule permCheckResult) ERROR.

Definition set_hip_sideload (b : bool) (p : HapInfoParams) : HapInfoParams :=
  mkHapInfoParams (hip_userID p) (hip_bundleName p) (hip_instIndex p) (hip_dlpType p) (hip_appIDDesc p) (hip_apiVersion p)
    (hip_isSystemApp p) (hip_isRestore p) (hip_tokenID p) (hip_isAtomicService p) (hip_appProvisionType p) b.
Definition set_uhip_sideload (b : bool) (p : UpdateHapInfoParams) : UpdateHapInfoParams :=
  mkUpdateHapInfoParams (uhip_appIDDesc p) (uhip_apiVersion p) (uhip_isSystemApp p) (uhip_isAtomicService p)
    (uhip_appProvisionType p) b.

(** TransferHapPolicy: the states keep name, status, flag and feature. *)
Definition TransferHapPolicy (policyIn : HapPolicy) : HapPolicy :=
  with_permStateList (map (fun perm =>
    mkPermissionStatus 0 (ps_permissionName perm) (ps_feature perm) (ps_grantStatus perm) (ps_grantFlag perm) 0)
    (hp_permStateList policyIn)) policyIn.

(** [PermissionResultTypeIdl] and [PermissionStatusDetailIdl]. *)
Inductive PermissionResultTypeIdl := PERMISSION_VALID | PERMISSION_NOT_EXIST | PERMISSION_NOT_DECLARED.
Record PermissionStatusDetailIdl := mkPermissionStatusDetailIdl {
  psd_permissionName : string;
  psd_resultType : PermissionResultTypeIdl;
  psd_grantStatus : Z;
  psd_grantFlag : Z;
}.

(** ** The names of the permission manager application, from the configuration. *)
Record GrantConfig := mkGrantConfig {
  grantBundleName_ : string;
  grantAbilityName_ : string;
  grantServiceAbilityName_ : string;
  permStateAbilityName_ : string;
  globalSwitchAbilityName_ : string;
  applicationSettingAbilityName_ : string;
  openSettingAbilityName_ : string;
}.
(** [AccessTokenServiceConfig]. *)
Record AccessTokenServiceConfig := mkAccessTokenServiceConfig { cfg_names : GrantConfig; cfg_cancelTime : Z }.

(** The names before the configuration is read (GetConfigValue). *)
Definition default_GrantConfig : GrantConfig :=
  mkGrantConfig "com.ohos.permissionmanager" "com.ohos.permissionmanager.GrantAbility"
    "com.ohos.permissionmanager.GrantAbility" "com.ohos.permissionmanager.PermissionStateSheetAbility"
    "com.ohos.permissionmanager.GlobalSwitchSheetAbility" "com.ohos.permissionmanager.MainAbility"
    "com.ohos.permissionmanager.OpenSettingAbility".

(** The names, the time to cancel and the flag that says which values were read. *)
Definition SetFlagIfNeed (atConfig : AccessTokenServiceConfig) (cancelTime : Z) (g : GrantConfig) : GrantConfig * Z * Z :=
  let n := cfg_names atConfig in
  let pick (value old : string) := if str_empty value then old else value in
  let bit (value : string) (i : Z) := if str_empty value then 0 else 1 .<< i in
  (mkGrantConfig (pick (grantBundleName_ n) (grantBundleName_ g)) (pick (grantAbilityName_ n) (grantAbilityName_ g))
     (pick (grantServiceAbilityName_ n) (grantServiceAbilityName_ g)) (pick (permStateAbilityName_ n) (permStateAbilityName_ g))
     (pick (globalSwitchAbilityName_ n) (globalSwitchAbilityName_ g))
     (pick (applicationSettingAbilityName_ n) (applicationSettingAbilityName_ g))
     (pick (openSettingAbilityName_ n) (openSettingAbilityName_ g)),
   if cfg_cancelTime atConfig =? 0 then cancelTime else cfg_cancelTime atConfig,
   bit (grantBundleName_ n) 0 .| bit (grantAbilityName_ n) 1 .| bit (grantServiceAbilityName_ n) 2 .|
   bit (permStateAbilityName_ n) 3 .| bit (globalSwitchAbilityName_ n) 4 .|
   (if cfg_cancelTime atConfig =? 0 then 0 else 1 .<< 5) .|
   bit (applicationSettingAbilityName_ n) 6 .| bit (openSettingAbilityName_ n) 7).

Section Service.
Context {PT : PermTable} {BC : BuildConfig} {VE : VerifyEnv} {OA : OsAccount} {CC : ClawConfig} {AF : AgentFence} {JT : JsonText}.
Context {SE : ServiceEnv} {S K : Type} `{!AtmDb S} `{!TokenDevice K}.
Context (c : Caller).
Implicit Types (t : ToolState S K).
Abbreviation Op := (Op S K).

(** ** Checking a permission. *)
Definition AtmVerifyAccessToken (tokenID : Z) (permissionName : string) : Op Z := fun t =>
  if IsToolToken tokenID (t_tools t) then (VerifyToolAccessToken tokenID permissionName t, t)
  else on_managers (VerifyAccessToken kernelSpm (callingFullTokenID c) (isInPunishingTime (callingTokenID c))
                      tokenID permissionName) t.

Fixpoint AtmVerifyAccessToken_list (tokenID : Z) (permissionList : list string) : Op (list Z) :=
  match permissionList with
  | [] => mret []
  | permissionName :: rest =>
      state ← AtmVerifyAccessToken tokenID permissionName;
      states ← AtmVerifyAccessToken_list tokenID rest;
      mret (state :: states)
  end.

(** The caller lacks a permission. *)
Definition lacks (permissionName : string) : Op bool :=
  res ← AtmVerifyAccessToken (callingTokenID c) permissionName; mret (res =? PERMISSION_DENIED).

(** ** The identity of the caller. *)
Definition AtmGetTokenType (tokenID : Z) : Op Z := read_world (fun w => GetTokenIdType tokenID (w_ids w)).
Definition AtmGetTokenType_call (tokenID : Z) : Op Z :=
  if negb (GetTokenIdTypeEnum (callingTokenID c) =? TOKEN_HAP) then AtmGetTokenType tokenID
  else mret (GetTokenIdTypeEnum tokenID).

Definition IsPrivilegedCalling : bool :=
  if ATM_BUILD_VARIANT_USER_ENABLE then false else callingUid c =? ROOT_UID.
Definition IsNativeProcessCalling : Op bool :=
  type ← AtmGetTokenType (callingTokenID c); mret (type =? TOKEN_NATIVE).
Definition IsShellProcessCalling : Op bool :=
  type ← AtmGetTokenType (callingTokenID c); mret (type =? TOKEN_SHELL).
Definition IsSystemAppCalling : bool := IsSystemApp (callingFullTokenID c).
Definition IsDebugHapToken (tokenID : Z) : Op bool :=
  infoPtr ← on_managers (GetHapTokenInfoInner tokenID);
  mret (match infoPtr with
        | None => false
        | Some info => IsDebugAppAttr (hti_tokenAttr (tokenInfoBasic_ info))
        end).
Definition IsShellCallingForDebugHap (tokenID : Z) : Op bool := IsShellProcessCalling &&& IsDebugHapToken tokenID.

(** An application that is not a system application: the first refusal of many requests. *)
Definition is_third_party : Op bool :=
  type ← AtmGetTokenType (callingTokenID c); mret ((type =? TOKEN_HAP) && negb IsSystemAppCalling).
(** Neither a native process nor root. *)
Definition is_unprivileged : Op bool := not_so IsNativeProcessCalling &&& mret (negb IsPrivilegedCalling).

Definition ResolveRequestToggleUserId (userID : Z) : Z :=
  let callingUserId := callingUid c ÷ BASE_USER_RANGE in
  if callingUserId =? 0 then userID else callingUserId.

(** ** Permissions: queries. *)
(** A refused caller gets the invalid type also as the code of the call. *)
Definition AtmGetPermissionUsedType (tokenID : Z) (permissionName : string) : Op (Z * PermUsedTypeEnum) :=
  no ← is_unprivileged;
  if no : bool then mret (-1, INVALID_USED_TYPE)
  else read_world (fun w => (ERR_OK, PmGetPermissionUsedType tokenID permissionName w)).

Definition AtmGetDefPermission (permissionName : string) (def : PermissionDef) : Op (Z + PermissionDef) :=
  if negb (IsPermissionNameValid permissionName) then mret (inl ERR_PARAM_INVALID)
  else
    match GetPermissionBriefDef_name permissionName with
    | None => mret (inl ERR_PERMISSION_NOT_EXIST)
    | Some briefDef =>
        if negb (pbd_isEnable briefDef) then mret (inl ERR_PERMISSION_NOT_EXIST)
        else
          let def := ConvertPermissionBriefToDef briefDef def in
          if pbd_grantMode briefDef =? SYSTEM_GRANT then mret (inr def)
          else
            '(res, results) ← on_database (fun db =>
              let '(res, results, db) := db_Find db ACCESSTOKEN_PERMISSION_DEF
                (Put FIELD_PERMISSION_NAME (TYPE_STRING permissionName) ∅) in (res, results, db));
            if negb (res =? 0) then mret (inl res)
            else
              match results with
              | [] => mret (inl ERR_SERVICE_ABNORMAL)
              | row :: _ =>
                  mret (inr (mkPermissionDef (pd_permissionName def) (pd_bundleName def) (pd_grantMode def)
                    (pd_availableLevel def) (pd_provisionEnable def) (pd_distributedSceneEnable def) (pd_label def)
                    (GetInt FIELD_LABEL_ID row) (pd_description def) (GetInt FIELD_DESCRIPTION_ID row)
                    (pd_availableType def) (pd_isKernelEffect def) (pd_hasValue def)))
              end
    end.

Definition AtmGetReqPermissions (tokenID : Z) (isSystemGrant : bool) : Op (Z + list PermissionStatus) :=
  third ← is_third_party;
  if third : bool then mret (inl ERR_NOT_SYSTEM_APP)
  else
    refused ← mret (negb IsPrivilegedCalling) &&& lacks GET_SENSITIVE_PERMISSIONS;
    if refused : bool then mret (inl ERR_PERMISSION_DENIED)
    else on_managers (GetReqPermissions tokenID isSystemGrant).

(** The declared permissions; both kinds are asked for even when the first call fails. *)
Definition GetAppReqPermissions (tokenID : Z) : Op (option (list PermissionStatus)) :=
  userGrant ← on_managers (GetReqPermissions tokenID false);
  sysGrant ← on_managers (GetReqPermissions tokenID true);
  mret (match userGrant, sysGrant with inr l1, inr l2 => Some (l1 ++ l2) | _, _ => None end).

Definition AtmGetPermissionsState (tokenID : Z) (reqPermList : list PermissionListState)
    : Op (Z * list PermissionListState) :=
  apiVersion ← on_managers (GetApiVersionByTokenId parentHapToken tokenID);
  match apiVersion with
  | None => mret (INVALID_OPER, reqPermList)
  | Some apiVersion =>
      permsList ← GetAppReqPermissions tokenID;
      match permsList with
      | None => mret (INVALID_OPER, reqPermList)
      | Some permsList =>
          read_world (fun w =>
            GetPermissionsState (GetHapTokenDlpType (callingTokenID c) w) (w_modes w)
              (VerifyHapAccessToken tokenID VAGUE_LOCATION_PERMISSION_NAME w =? PERMISSION_GRANTED)
              ((GetTokenIdType tokenID (w_ids w) =? TOKEN_HAP) && GetPermDialogCap tokenID w)
              permsList apiVersion reqPermList)
      end
  end.

(** The reason given with the request is not set and not read. *)
Definition GetSelfPermissionStatus (permissionName : string) : Op Z :=
  '(_, list) ← AtmGetPermissionsState (callingTokenID c) [mkPermissionListState permissionName INVALID_OPER REQ_SUCCESS];
  mret (match list with p :: _ => pls_state p | [] => INVALID_OPER end).

Definition GetSelfPermissionsState (g : GrantConfig) (reqPermList : list PermissionListState)
    : Op (Z * list PermissionListState * option (string * string * string)) :=
  if MAX_PERMISSION_SIZE <? Z.of_nat (length reqPermList)
  then mret (INVALID_OPER, map (set_answer INVALID_OPER PERM_INVALID) reqPermList, None)
  else
    '(permOper, reqPermList) ← AtmGetPermissionsState (callingTokenID c) reqPermList;
    mret (permOper, reqPermList, Some (grantBundleName_ g, grantAbilityName_ g, grantServiceAbilityName_ g)).

Definition GetPermissionsStatus (tokenID : Z) (reqPermList : list PermissionListState) : Op (Z * list PermissionListState) :=
  third ← is_third_party;
  if third : bool then mret (ERR_NOT_SYSTEM_APP, reqPermList)
  else
    refused ← mret (negb IsPrivilegedCalling) &&& lacks GET_SENSITIVE_PERMISSIONS;
    if refused : bool then mret (ERR_PERMISSION_DENIED, reqPermList)
    else if MAX_PERMISSION_SIZE <? Z.of_nat (length reqPermList) then mret (ERR_PARAM_INVALID, reqPermList)
    else
      exist ← read_world (IsTokenIdExist tokenID);
      if negb exist then mret (ERR_TOKENID_NOT_EXIST, reqPermList)
      else
        '(ret, reqPermList) ← AtmGetPermissionsState tokenID reqPermList;
        mret (if ret =? INVALID_OPER then RET_FAILED else RET_SUCCESS, reqPermList).

(** ** The detailed status of a list of permissions. *)
Definition PreCheckPermissionStatusDetails (tokenID : Z) (permissionList : list string) : Op Z :=
  native ← IsNativeProcessCalling;
  if negb native then mret ERR_PERMISSION_DENIED
  else if negb (IsTokenIDValid tokenID) || negb (IsListSizeValid (Z.of_nat (length permissionList))) ||
          negb (ArePermissionNamesValid permissionList) then mret ERR_PARAM_INVALID
  else
    tokenType ← AtmGetTokenType tokenID;
    mret (if tokenType =? TOKEN_INVALID then ERR_TOKENID_NOT_EXIST
          else if negb (tokenType =? TOKEN_HAP) then ERR_PARAM_INVALID else RET_SUCCESS).

(** The kind of result, with the code of a valid permission; or an error. *)
Definition ResolvePermissionDetailBase (permissionName : string) (declaredPermissions : gset string)
    : Z + (PermissionResultTypeIdl * Z) :=
  match GetPermissionBriefDef_name permissionName with
  | None => inr (PERMISSION_NOT_EXIST, 0)
  | Some briefDef =>
      if negb (pbd_isEnable briefDef) then inr (PERMISSION_NOT_EXIST, 0)
      else if negb (bool_decide (permissionName ∈ declaredPermissions)) then inr (PERMISSION_NOT_DECLARED, 0)
      else match TransferPermissionToOpcode permissionName with
           | None => inl ERR_PERMISSION_NOT_EXIST
           | Some permCode => inr (PERMISSION_VALID, permCode)
           end
  end.

Definition BuildPermissionStatusDetail (tokenID : Z) (permissionName : string) (declaredPermissions : gset string) (st : Brief)
    : Z + PermissionStatusDetailIdl :=
  match ResolvePermissionDetailBase permissionName declaredPermissions with
  | inl ret => inl ret
  | inr (PERMISSION_VALID, permCode) =>
      match QueryEffectivePermissionStatusAndFlag tokenID permCode st with
      | inl ret => inl ret
      | inr (status, flag) => inr (mkPermissionStatusDetailIdl permissionName PERMISSION_VALID status flag)
      end
  | inr (resultType, _) =>
      inr (mkPermissionStatusDetailIdl permissionName resultType PERMISSION_DENIED PERMISSION_DEFAULT_FLAG)
  end.

Fixpoint status_details (tokenID : Z) (permissionList : list string) (declaredPermissions : gset string) (st : Brief)
    : Z + list PermissionStatusDetailIdl :=
  match permissionList with
  | [] => inr []
  | permissionName :: rest =>
      match BuildPermissionStatusDetail tokenID permissionName declaredPermissions st with
      | inl ret => inl ret
      | inr result =>
          match status_details tokenID rest declaredPermissions st with
          | inl ret => inl ret
          | inr results => inr (result :: results)
          end
      end
  end.

Definition GetPermissionStatusDetails (tokenID : Z) (permissionList : list string) : Op (Z + list PermissionStatusDetailIdl) :=
  ret ← PreCheckPermissionStatusDetails tokenID permissionList;
  if negb (ret =? RET_SUCCESS) then mret (inl ret)
  else
    permsList ← GetAppReqPermissions tokenID;
    match permsList with
    | None => mret (inl ERR_SERVICE_ABNORMAL)
    | Some permsList =>
        read_world (fun w =>
          status_details tokenID permissionList (list_to_set (map ps_permissionName permsList)) (w_brief w))
    end.

Definition AtmGetPermissionFlag (tokenID : Z) (permissionName : string) : Op (Z + Z) :=
  third ← is_third_party;
  if third : bool then mret (inl ERR_NOT_SYSTEM_APP)
  else
    refused ← mret (negb IsPrivilegedCalling) &&& lacks GRANT_SENSITIVE_PERMISSIONS &&&
      lacks REVOKE_SENSITIVE_PERMISSIONS &&& lacks GET_SENSITIVE_PERMISSIONS &&& lacks MANAGE_EDM_POLICY;
    if refused : bool then mret (inl ERR_PERMISSION_DENIED)
    else read_world (GetPermissionFlag tokenID permissionName).

(** ** The toggles of permission requests. *)
Definition AtmSetPermissionRequestToggleStatus (permissionName : string) (status userID subProfileId : Z) : Op Z :=
  third ← is_third_party;
  if third : bool then mret ERR_NOT_SYSTEM_APP
  else
    refused ← mret (negb IsPrivilegedCalling) &&& lacks DISABLE_PERMISSION_DIALOG;
    if refused : bool then mret ERR_PERMISSION_DENIED
    else on_database (SetPermissionRequestToggleStatus permissionName status (ResolveRequestToggleUserId userID) subProfileId).
Definition AtmGetPermissionRequestToggleStatus (permissionName : string) (userID subProfileId : Z) : Op (Z + Z) :=
  third ← is_third_party;
  if third : bool then mret (inl ERR_NOT_SYSTEM_APP)
  else
    refused ← mret (negb IsPrivilegedCalling) &&& lacks GET_SENSITIVE_PERMISSIONS;
    if refused : bool then mret (inl ERR_PERMISSION_DENIED)
    else on_database (GetPermissionRequestToggleStatus permissionName (ResolveRequestToggleUserId userID) subProfileId).

(** ** Permissions: changes. *)
Definition AtmGrantPermission (tokenID : Z) (permissionName : string) (flag updateFlag : Z) : Op Z :=
  let ret := CheckPermissionUpdateParam tokenID permissionName flag updateFlag in
  if negb (ret =? RET_SUCCESS) then mret ret
  else
    third ← is_third_party;
    if third : bool then mret ERR_NOT_SYSTEM_APP
    else
      refused ← mret (negb IsPrivilegedCalling) &&& lacks GRANT_SENSITIVE_PERMISSIONS &&&
        not_so (IsShellCallingForDebugHap tokenID);
      if refused : bool then mret ERR_PERMISSION_DENIED
      else on_managers (GrantPermission allowTemp abilityManager parentHapToken tokenID permissionName flag updateFlag).

Definition AtmRevokePermission (tokenID : Z) (permissionName : string) (flag updateFlag : Z) (killProcess : bool) : Op Z :=
  let ret := CheckPermissionUpdateParam tokenID permissionName flag updateFlag in
  if negb (ret =? RET_SUCCESS) then mret ret
  else
    third ← is_third_party;
    if third : bool then mret ERR_NOT_SYSTEM_APP
    else
      refused ← mret (negb IsPrivilegedCalling) &&& lacks REVOKE_SENSITIVE_PERMISSIONS &&&
        not_so (IsShellCallingForDebugHap tokenID);
      if refused : bool then mret ERR_PERMISSION_DENIED
      else on_managers (RevokePermission allowTemp abilityManager parentHapToken tokenID permissionName flag updateFlag killProcess).

Definition AtmClearUserGrantedPermissionState (tokenID : Z) : Op Z :=
  refused ← mret (negb IsPrivilegedCalling) &&& lacks REVOKE_SENSITIVE_PERMISSIONS &&&
    not_so (IsShellCallingForDebugHap tokenID);
  if refused : bool then mret ERR_PERMISSION_DENIED
  else
    exist ← read_world (IsHapTokenIdExist tokenID);
    if negb exist then mret ERR_TOKENID_NOT_EXIST
    else
      ret ← on_managers (ClearUserGrantedPermissionState tokenID);
      if negb (ret =? RET_SUCCESS) then mret ret
      else _ ← on_managers (SetPermDialogCap tokenID false); mret RET_SUCCESS.

Definition GetHapTokenIdListByBundleName (bundleName : string) (w : World S K) : Z * list Z :=
  let tokenIdList := omap (fun item : Z * HapTokenInfoInner =>
    if negb (isRemote_ item.2) && String.eqb (hti_bundleName (tokenInfoBasic_ item.2)) bundleName
    then Some (hti_tokenID (tokenInfoBasic_ item.2)) else None) (map_items (hapTokenInfoMap_ w)) in
  if bool_decide (tokenIdList = []) then (ERR_BUNDLE_NOT_EXIST, []) else (RET_SUCCESS, tokenIdList).

(** The loop over the tokens of the bundle; the result is [isCleared]. *)
Fixpoint clear_bundle (tokenIdList : list Z) (isCleared : bool) : Op bool :=
  match tokenIdList with
  | [] => mret isCleared
  | tokenID :: rest =>
      skip ← mret ATM_BUILD_VARIANT_USER_ENABLE &&& not_so (IsDebugHapToken tokenID);
      if skip : bool then clear_bundle rest isCleared
      else
        ret ← on_managers (ClearUserGrantedPermissionState tokenID);
        if negb (ret =? RET_SUCCESS) then clear_bundle rest isCleared
        else _ ← on_managers (SetPermDialogCap tokenID false); clear_bundle rest true
  end.
Definition ClearUserGrantedPermStateByBundle (bundleName : string) : Op Z :=
  shell ← IsShellProcessCalling;
  if negb shell then mret ERR_PERMISSION_DENIED
  else if negb (IsBundleNameValid bundleName) then mret ERR_PARAM_INVALID
  else
    '(ret, tokenIdList) ← read_world (GetHapTokenIdListByBundleName bundleName);
    if negb (ret =? RET_SUCCESS) then mret ret
    else
      isCleared ← clear_bundle tokenIdList false;
      mret (if negb isCleared then ERR_PERMISSION_DENIED else RET_SUCCESS).

Definition AtmSetPermissionStatusWithPolicy (tokenID : Z) (permissionList : list string) (status flag : Z) : Op Z :=
  third ← is_third_party;
  if third : bool then mret ERR_NOT_SYSTEM_APP
  else
    refused ← mret (negb IsPrivilegedCalling) &&& lacks MANAGE_EDM_POLICY;
    if refused : bool then mret ERR_PERMISSION_DENIED
    else if negb (IsTokenIDValid tokenID) || negb (IsListSizeValid (Z.of_nat (length permissionList)))
    then mret ERR_PARAM_INVALID
    else on_managers (SetPermissionStatusWithPolicy abilityManager parentHapToken tokenID permissionList status flag).

(** ** Installing, updating and removing applications. *)
Definition FilterPermFeature (isSystemApp : bool) (policy : HapPolicy) : HapPolicy :=
  if negb isSystemApp then policy
  else with_permStateList (filter (fun state => IsSupportFeature features state = true) (hp_permStateList policy)) policy.

Definition BuildBundleParam (info : HapInfoParams) (appDistributionType : string) : BundleParam :=
  mkBundleParam (hip_bundleName info) (hip_appIDDesc info) 0 0 (hip_apiVersion info)
    (if IS_SUPPORT_HAP_RUNNING then ParseAppDistType appDistributionType else 0)
    (hip_isSystemApp info) (hip_isAtomicService info)
    (String.eqb (hip_appProvisionType info) "debug" || String.eqb appDistributionType "none")
    (NormalizeSideloadParams (hip_isSideloadApp info) appDistributionType).
Definition BuildBundleParam_update (info : UpdateHapInfoParams) (appDistributionType bundleName : string) : BundleParam :=
  mkBundleParam bundleName (uhip_appIDDesc info) 0 0 (uhip_apiVersion info)
    (if IS_SUPPORT_HAP_RUNNING then ParseAppDistType appDistributionType else 0)
    (uhip_isSystemApp info) (uhip_isAtomicService info)
    (String.eqb (uhip_appProvisionType info) "debug" || String.eqb appDistributionType "none")
    (NormalizeSideloadParams (uhip_isSideloadApp info) appDistributionType).

Definition no_check_result : HapInfoCheckResultIdl := mkHapInfoCheckResultIdl "" 0 ERR_OK.
Definition default_check_result : HapInfoCheckResult := mkHapInfoCheckResult "" 0.

(** The full token id (id and attributes); (0, 0) when the token was not made. *)
Definition AllocHapToken (info : HapInfoParcel) (policy : HapPolicy) : Op (Z * (Z * Z)) :=
  refused ← mret (negb IsPrivilegedCalling) &&& lacks MANAGE_HAP_TOKENID_PERMISSION;
  if refused : bool then mret (ERR_OK, (0, 0))
  else
    let p := hi_params info in
    let p := set_hip_sideload (NormalizeSideloadParams (hip_isSideloadApp p) (hi_appDistributionType info)) p in
    '(_, tokenIdEx) ← on_managers (CreateHapTokenInfo rands p (FilterPermFeature (hip_isSystemApp p) policy) []);
    mret (ERR_OK, tokenIdEx).

(** The initial permissions: the check of the package, or the list of the main application. *)
Definition init_permissions (info : HapInfoParcel) (p : HapInfoParams) (policy : HapPolicy)
    : Op ((Z * HapInfoCheckResultIdl) + (list PermissionStatus * list GenericValues)) :=
  if hip_dlpType p =? DLP_COMMON then
    let '(ok, initializedList, permCheckResult, undefValues) :=
      InitPermissionList (BuildBundleParam p (hi_appDistributionType info)) policy [] default_check_result [] false in
    mret (if negb ok then inl (ERR_OK, FillPermissionCheckResultIdl permCheckResult) else inr (initializedList, undefValues))
  else
    '(ok, initializedList, undefValues) ← on_managers (InitDlpPermissionList p [] []);
    mret (if negb ok then inl (ERR_PERM_REQUEST_CFG_FAILED, no_check_result) else inr (initializedList, undefValues)).

Definition InitHapToken (info : HapInfoParcel) (policy : HapPolicy) : Op (Z * (Z * Z) * HapInfoCheckResultIdl) :=
  refused ← mret (negb IsPrivilegedCalling) &&& lacks MANAGE_HAP_TOKENID_PERMISSION;
  if refused : bool then mret (ERR_PERMISSION_DENIED, (0, 0), no_check_result)
  else
    let p := hi_params info in
    let policyCopy := FilterPermFeature (hip_isSystemApp p) (TransferHapPolicy policy) in
    let p := set_hip_sideload (NormalizeSideloadParams (hip_isSideloadApp p) (hi_appDistributionType info)) p in
    r ← init_permissions info p policyCopy;
    match r with
    | inl (ret, result) => mret (ret, (0, 0), result)
    | inr (initializedList, undefValues) =>
        if hi_isSkillHap info then mret (RET_SUCCESS, (INVALID_TOKENID, 0), no_check_result)
        else
          '(ret, tokenIdEx) ← on_managers (CreateHapTokenInfo rands p (with_permStateList initializedList policyCopy) undefValues);
          mret (ret, tokenIdEx, no_check_result)
    end.

(** [fullTokenId] is the id and the attributes, in and out. *)
Definition AtmUpdateHapToken (tokenID attr : Z) (infoIdl : UpdateHapInfoParamsIdl) (hapPolicy : HapPolicy)
    : Op (Z * (Z * Z) * HapInfoCheckResultIdl) :=
  refused ← mret (negb IsPrivilegedCalling) &&& lacks MANAGE_HAP_TOKENID_PERMISSION;
  if refused : bool then mret (ERR_PERMISSION_DENIED, (tokenID, attr), no_check_result)
  else
    let info := ui_params infoIdl in
    let info := set_uhip_sideload (NormalizeSideloadParams (uhip_isSideloadApp info) (ui_appDistributionType infoIdl)) info in
    let policy := FilterPermFeature (uhip_isSystemApp info) hapPolicy in
    hapInfo ← (if negb (ui_isSkillHap infoIdl)
               then r ← on_managers (GetHapTokenInfo parentHapToken tokenID);
                    mret (match r with inl error => inl error | inr i => inr (hti_bundleName i) end)
               else mret (inr ""));
    match hapInfo with
    | inl error => mret (error, (tokenID, attr), no_check_result)
    | inr bundleName =>
        let '(ok, initializedList, permCheckResult, undefValues) :=
          InitPermissionList (BuildBundleParam_update info (ui_appDistributionType infoIdl) bundleName) policy []
            default_check_result [] (ui_dataRefresh infoIdl) in
        if negb ok then mret (ERR_OK, (tokenID, attr), FillPermissionCheckResultIdl permCheckResult)
        else if ui_isSkillHap infoIdl then mret (RET_SUCCESS, (INVALID_TOKENID, 0), no_check_result)
        else
          '(error, attr) ← on_managers (UpdateHapToken tokenID attr info initializedList policy undefValues);
          mret (error, (tokenID, attr), no_check_result)
    end.

Definition drop_from_white_lists (tokenID : Z) : Op Z :=
  on_managers (fun w =>
    let '(ret, records, db) := RemoveTokenFromPolicyWhiteList tokenID (w_policies w) (w_db w) in
    (ret, set_db db (set_policies records w))).

Definition DeleteToken (tokenID : Z) (isTokenReserved : bool) : Op Z :=
  refused ← mret (negb IsPrivilegedCalling) &&& lacks MANAGE_HAP_TOKENID_PERMISSION;
  if refused : bool then mret ERR_PERMISSION_DENIED
  else
    type ← AtmGetTokenType tokenID;
    if negb (type =? TOKEN_HAP) then mret ERR_PARAM_INVALID
    else
      hapInfo ← on_managers (GetHapTokenInfo parentHapToken tokenID);
      match hapInfo with
      | inl errorCode => mret errorCode
      | inr _ =>
          errorCode ← on_managers (RemoveHapTokenInfo tokenID isTokenReserved);
          if (errorCode =? RET_SUCCESS) && negb isTokenReserved
          then _ ← drop_from_white_lists tokenID; mret errorCode
          else mret errorCode
      end.

(** ** Information on tokens. *)
Definition AtmGetHapTokenID (userID : Z) (bundleName : string) (instIndex : Z) : Op (Z * Z) :=
  no ← is_unprivileged;
  if no : bool then mret (0, 0) else read_world (GetHapTokenID userID bundleName instIndex).

Definition AtmGetTokenIDByUserID (userID subProfileId : Z) : Op (Z + gset Z) :=
  native ← IsNativeProcessCalling;
  if negb native then mret (inl ERR_PERMISSION_DENIED)
  else read_world (fun w => inr (GetTokenIDByUserID subProfileIndex userID subProfileId w)).

Definition AtmGetHapTokenInfo (tokenID : Z) : Op (Z + HapTokenInfo) :=
  no ← is_unprivileged;
  if negb no then on_managers (GetHapTokenInfo parentHapToken tokenID)
  else
    shell ← IsShellProcessCalling;
    if negb shell then mret (inl ERR_PERMISSION_DENIED)
    else
      infoPtr ← on_managers (GetHapTokenInfoInner tokenID);
      mret (match infoPtr with
            | None => inl ERR_TOKENID_NOT_EXIST
            | Some info =>
                if negb (IsDebugAppAttr (hti_tokenAttr (tokenInfoBasic_ info))) then inl ERR_PERMISSION_DENIED
                else inr (tokenInfoBasic_ info)
            end).

(** The overload for [HapTokenInfoCompatIdl]: bundle, user, clone index and API version. *)
Definition AtmGetHapTokenInfo_compat (tokenID : Z) : Op (Z + (string * Z * Z * Z)) :=
  native ← IsNativeProcessCalling;
  if negb native then mret (inl ERR_PERMISSION_DENIED)
  else
    r ← on_managers (GetHapTokenInfo parentHapToken tokenID);
    mret (match r with
          | inl error => inl error
          | inr i => inr (hti_bundleName i, hti_userID i, hti_instIndex i, hti_apiVersion i)
          end).

Definition GetHapAppIdByTokenId (tokenID : Z) (w : World S K) : (Z + string) * World S K :=
  let '(ret, hapTokenResults, db) := db_Find (w_db w) ACCESSTOKEN_HAP_TOKEN_INFO (id_condition tokenID) in
  let w := set_db db w in
  (if negb (ret =? RET_SUCCESS) then inl ret
   else match hapTokenResults with
        | [] => inl ERR_TOKENID_NOT_EXIST
        | row :: _ =>
            let result := GetString FIELD_APP_ID row in
            if negb (IsAppIDDescValid result) then inl ERR_PARAM_INVALID else inr result
        end, w).

Definition GetHapTokenInfoExtension (tokenID : Z) : Op (Z + (HapTokenInfo * string)) :=
  no ← is_unprivileged;
  if no : bool then mret (inl ERR_PERMISSION_DENIED)
  else
    r ← on_managers (GetHapTokenInfo parentHapToken tokenID);
    match r with
    | inl ret => mret (inl ret)
    | inr info =>
        appId ← on_managers (GetHapAppIdByTokenId (hti_tokenID info));
        mret (match appId with inl ret => inl ret | inr appId => inr (info, appId) end)
    end.

Definition GetNativeTokenInfo (tokenID : Z) (w : World S K) : Z + (Z * string) :=
  match nativeTokenInfoMap_ w !! tokenID with
  | None => inl ERR_TOKENID_NOT_EXIST
  | Some cache => inr (ntc_apl cache, ntc_processName cache)
  end.
Definition AtmGetNativeTokenInfo (tokenID : Z) : Op (Z + (Z * string)) :=
  no ← is_unprivileged;
  if no : bool then mret (inl ERR_PERMISSION_DENIED) else read_world (GetNativeTokenInfo tokenID).

Definition GetNativeTokenId (processName : string) (w : World S K) : Z :=
  match find (fun item : Z * NativeTokenInfoCache => String.eqb (ntc_processName item.2) processName)
          (map_items (nativeTokenInfoMap_ w)) with
  | Some item => item.1
  | None => INVALID_TOKENID
  end.
Definition AtmGetNativeTokenId (processName : string) : Op Z :=
  no ← is_unprivileged;
  if no : bool then mret INVALID_TOKENID else read_world (GetNativeTokenId processName).

(** [tokenInfos] is what the configuration loader reads: a code or the native tokens. *)
Definition ReloadNativeTokenInfo (tokenInfos : Z + list NativeTokenInfoBase) : Op Z :=
  if negb IsPrivilegedCalling then mret ERR_PERMISSION_DENIED
  else match tokenInfos with
       | inl res => mret res
       | inr infos => on_managers (fun w => (RET_SUCCESS, InitNativeTokenInfos kernelSpm infos w))
       end.

Definition GetPermissionCode (permission : string) : Z + Z :=
  if negb (IsDefinedPermissionInner permission) then inl ERR_PERMISSION_NOT_EXIST
  else match TransferPermissionToOpcode permission with None => inl ERR_PERMISSION_NOT_EXIST | Some opCode => inr opCode end.
Definition IsSupportPermission (permission : string) : bool := IsDefinedPermissionInner permission.

Definition AtmGetKernelPermissions (tokenId : Z) : Op (Z * list PermissionWithValue) :=
  no ← is_unprivileged;
  if no : bool then mret (ERR_PERMISSION_DENIED, [])
  else read_world (fun w => GetKernelPermissions tokenId (w_brief w)).
Definition AtmGetReqPermissionByName (tokenId : Z) (permissionName : string) : Op (Z + string) :=
  no ← is_unprivileged;
  if no : bool then mret (inl ERR_PERMISSION_DENIED)
  else read_world (fun w => GetReqPermissionByName tokenId permissionName true (w_brief w)).

Definition GetVersion : Op (Z + Z) :=
  third ← is_third_party;
  mret (if third : bool then inl ERR_NOT_SYSTEM_APP else inr DEFAULT_TOKEN_VERSION).

Definition AtmSetPermDialogCap (userID : Z) (bundleName : string) (instIndex : Z) (enable : bool) : Op Z :=
  refused ← lacks DISABLE_PERMISSION_DIALOG;
  if refused : bool then mret ERR_PERMISSION_DENIED
  else
    '(tokenID, _) ← read_world (GetHapTokenID userID bundleName instIndex);
    on_managers (SetPermDialogCap tokenID enable).

(** ** Command-line tokens. *)
Definition AtmInitCliToken (i : CliInitInfo) : Op (Z * Z * list string) :=
  if negb (callingUid c =? ROOT_UID) then mret (ERR_PERMISSION_DENIED, 0, [])
  else fun t => InitCliToken parentHapToken rands i (callingPid c) t.
Definition AtmDeleteToolTokenByPid (pid : Z) : Op Z :=
  native ← IsNativeProcessCalling;
  if negb native then mret ERR_PERMISSION_DENIED
  else
    refused ← lacks MANAGE_TOOL_TOKENID;
    if refused : bool then mret ERR_PERMISSION_DENIED else DeleteToolTokenByPid pid.
Definition AtmGetHostTokenId (toolTokenId : Z) : Op (Z + Z) :=
  native ← IsNativeProcessCalling;
  if negb native then mret (inl ERR_PERMISSION_DENIED) else fun t => (GetHostTokenId toolTokenId (t_tools t), t).

(** ** User policies: requests of the builds with SUPPORT_MANAGE_USER_POLICY. *)
Definition on_policies {A} (f : UserPolicy.Records -> S -> A * UserPolicy.Records * S) : Op A :=
  on_managers (fun w =>
    let '(a, records, db) := f (w_policies w) (w_db w) in (a, set_db db (set_policies records w))).

Definition AtmSetUserPolicy (userPermissionList : list UserPermissionPolicy) : Op Z :=
  refused ← lacks MANAGE_USER_POLICY;
  if refused : bool then mret ERR_PERMISSION_DENIED
  else
    let policySize := Z.of_nat (length userPermissionList) in
    if policySize =? 0 then mret ERR_PARAM_INVALID
    else if MAX_SET_USER_POLICY_SIZE <? policySize then mret ERR_PARAM_INVALID
    else
      '(ret, changedPolicyList) ← on_policies (SetUserPolicy userPermissionList (callingTokenID c));
      if negb (ret =? RET_SUCCESS) then mret ret else RefreshUserPolicyPermState changedPolicyList.

Definition AtmClearUserPolicy (permissionList : list string) : Op Z :=
  refused ← lacks MANAGE_USER_POLICY;
  if refused : bool then mret ERR_PERMISSION_DENIED
  else
    let permSize := Z.of_nat (length permissionList) in
    if permSize =? 0 then mret ERR_PARAM_INVALID
    else if negb (IsListSizeValid permSize) then mret ERR_OVERSIZE
    else
      '(ret, changedPolicyList) ← on_policies (ClearUserPolicy permissionList (callingTokenID c));
      if negb (ret =? RET_SUCCESS) then mret ret else RefreshUserPolicyPermState changedPolicyList.

Definition GetHapUserIdByTokenId (tokenId : Z) : Op (Z + Z) :=
  r ← on_managers (GetHapTokenInfo parentHapToken tokenId);
  mret (match r with inl ret => inl ret | inr hapInfo => inr (hti_userID hapInfo) end).

Definition RollbackPolicyWhiteList (context : PolicyWhiteListUpdateInfo) : Op unit :=
  let rollbackContext := mkPolicyWhiteListUpdateInfo (pwl_tokenId context) (pwl_userId context) (pwl_permCode context)
    (if pwl_type context =? ADD then DELETE else ADD) (pwl_callerToken context) in
  _ ← on_policies (UpdatePolicyWhiteList rollbackContext); mret tt.

Definition HandlePolicyWhiteListUpdate (policyContext : PolicyWhiteListUpdateInfo) : Op Z :=
  '(ret, isPersist) ← on_policies (UpdatePolicyWhiteList policyContext);
  if negb (ret =? RET_SUCCESS) then mret ret
  else
    let targetRestricted := pwl_type policyContext =? DELETE in
    ret ← on_managers (UpdateRestrictedFlagAndRefreshKernel (pwl_tokenId policyContext) (pwl_permCode policyContext)
                         targetRestricted (default false isPersist));
    if negb (ret =? RET_SUCCESS) then _ ← RollbackPolicyWhiteList policyContext; mret ret else mret RET_SUCCESS.

Definition AtmUpdatePolicyWhiteList (tokenId permCode type : Z) : Op Z :=
  refused ← lacks MANAGE_USER_POLICY;
  if refused : bool then mret ERR_PERMISSION_DENIED
  else if negb (IsTokenIDValid tokenId) || negb (IsUpdateWhiteListTypeValid type) then mret ERR_PARAM_INVALID
  else
    tokenType ← AtmGetTokenType tokenId;
    if negb (tokenType =? TOKEN_HAP) then mret ERR_PARAM_INVALID
    else if str_empty (TransferOpcodeToPermission permCode) then mret ERR_PARAM_INVALID
    else
      userId ← GetHapUserIdByTokenId tokenId;
      match userId with
      | inl _ => mret ERR_PARAM_INVALID
      | inr userId =>
          HandlePolicyWhiteListUpdate (mkPolicyWhiteListUpdateInfo tokenId userId permCode type (callingTokenID c))
      end.

Definition AtmGetPolicyWhiteList (permCode : Z) : Op (Z * list Z) :=
  refused ← lacks MANAGE_USER_POLICY;
  if refused : bool then mret (ERR_PERMISSION_DENIED, [])
  else if str_empty (TransferOpcodeToPermission permCode) then mret (ERR_PARAM_INVALID, [])
  else read_world (fun w => GetPolicyWhiteList permCode (w_policies w)).

End Service.
