(* ===== verification/AtmServiceTheory.v ===== *)
(** * What the checks of the service do to the state

    A handler first looks: it asks the device and the permission store about its caller, and
    may load a token on the way.  This file shows what the answers mean and that looking
    leaves everything but the device's own state alone. *)

From stdpp Require Import base gmap list strings.
From S2P Require Import Prelude AccessTokenTypes TokenId Database PermissionMap Json Validator DataTranslator PermissionDataBrief IdManager UserPolicy ToggleManager ConstraintCheck HapTokenInfo PermissionRequest PermissionInit Kernel InfoManager InfoManagerOps PermissionManager ClawTicket ToolToken UserPolicyRefresh AtmService.
#[local] Open Scope string_scope.
#[local] Open Scope list_scope.
#[local] Open Scope Z_scope.
#[local] Open Scope cxx_scope.

(** ** Loading a token does not depend on the device. *)
Section Load.
Context {PT : PermTable} {BC : BuildConfig} {S K : Type} `{!AtmDb S} `{!TokenDevice K}.
Implicit Types (w : World S K).

Lemma set_kernel_twice k k' w : set_kernel k' (set_kernel k w) = set_kernel k' w.
Proof. done. Qed.

Lemma set_kernel_same w : set_kernel (w_kernel w) w = w.
Proof. by destruct w. Qed.

Lemma load_kernel id k w : (GetHapTokenInfoInner id (set_kernel k w)).1 = (GetHapTokenInfoInner id w).1.
Proof.
  unfold GetHapTokenInfoInner. cbn. destruct (hapTokenInfoMap_ w !! id) as [i|]; [done|].
  destruct (GetTokenIdStatus id (w_ids w)) as [r st]. destruct (_ && _); [done|].
  unfold GetHapTokenInfoInnerFromDb, AddReservedHapInfoFromDbValues, AddReservedHapTokenId.
  repeat (cbn; first [done | match goal with |- context [match ?x with _ => _ end] =>
    lazymatch x with context [match _ with _ => _ end] => fail | _ => destruct x end end]).
Qed.
End Load.

(** ** Who holds a permission. *)
Section Looking.
Context {PT : PermTable} `{!PermTableLaws PT} {BC : BuildConfig} {VE : VerifyEnv} {OA : OsAccount} {CC : ClawConfig} {AF : AgentFence} {JT : JsonText}.
Context {SE : ServiceEnv} {S K : Type} `{!AtmDb S} `{!TokenDevice K} `{!TokenDeviceLaws K} `{!TokenDeviceHealth K}.
Context (c : Caller).
Implicit Types (t : ToolState S K) (w : World S K).

(** The status the store gives a token that is not a command-line token. *)
Definition stored_status (x : Z) (p : string) w : Z :=
  let type := GetTokenIdType x (w_ids w) in
  if (type =? TOKEN_NATIVE) || (type =? TOKEN_SHELL) then VerifyNativeAccessToken kernelSpm x p w
  else if type =? TOKEN_HAP then HapVerifyPermissionStatus x p (w_brief w) else PERMISSION_DENIED.

(** A token holds a permission when the store or the device grants it. *)
Definition holds (x : Z) (p : string) t : Prop :=
  if IsToolToken x (t_tools t) then VerifyToolAccessToken x p t <> PERMISSION_DENIED
  else stored_status x p (t_world t) <> PERMISSION_DENIED \/
       exists code, TransferPermissionToOpcode p = Some code /\ dev_granted (w_kernel (t_world t)) x code = true.

(** The two ids of the caller belong to the same token. *)
Definition caller_wf : Prop := callingTokenID c = u32 (callingFullTokenID c .& TOKEN_ID_LOWMASK).

(** Only the device was asked. *)
Definition looked t t' : Prop :=
  exists k, t' = on_world (set_kernel k) t /\ dev_granted k = dev_granted (w_kernel (t_world t)) /\
    (dev_ok (w_kernel (t_world t)) -> dev_ok k).
(** Only the device was asked, and perhaps one token loaded. *)
Definition looked_at (x : Z) t t' : Prop :=
  exists t1, looked t t1 /\ (t' = t1 \/ t' = on_world (fun w => (GetHapTokenInfoInner x w).2) t1).

#[export] Instance looked_preorder : PreOrder looked.
Proof.
  split.
  - intros [w m tk]. exists (w_kernel w). unfold on_world. cbn. by rewrite set_kernel_same.
  - intros t t1 t2 (k & -> & E & O) (k' & -> & E' & O'). exists k'. cbn in *. split_and!; [done|congruence|auto].
Qed.

Lemma looked_at_of x t t' : looked t t' -> looked_at x t t'.
Proof. intros H. exists t'. auto. Qed.

Lemma looked_stored x p t t' : looked t t' -> stored_status x p (t_world t') = stored_status x p (t_world t).
Proof. by intros (k & -> & _). Qed.

Lemma looked_holds x p t t' : looked t t' -> holds x p t' <-> holds x p t.
Proof. intros (k & -> & E & _). unfold holds. cbn. rewrite E. done. Qed.

Lemma kernel_cache x p w r w' : GetPermissionFromKernelCache x p w = (r, w') ->
  exists k, w' = set_kernel k w /\ dev_granted k = dev_granted (w_kernel w) /\ (dev_ok (w_kernel w) -> dev_ok k) /\
  forall s, r = Some s -> s <> PERMISSION_DENIED ->
    exists code, TransferPermissionToOpcode p = Some code /\ dev_granted (w_kernel w) x code = true.
Proof.
  unfold GetPermissionFromKernelCache. destruct (IsDefinedPermissionInner p) eqn:D; cbn [negb].
  2: { intros [= <- <-]. exists (w_kernel w). rewrite set_kernel_same. split_and!; try done. by intros ? [= <-]. }
  assert (exists code, TransferPermissionToOpcode p = Some code) as [code T].
  { unfold IsDefinedPermissionInner, with_def in D. destruct (TransferPermissionToOpcode p); [eauto|done]. }
  rewrite T. cbn [default]. change (Datatypes.id code) with code. pose proof (opcode_u16 _ _ T) as Hc.
  destruct (GetPermissionFromKernel _ _ _) as [[e g] k] eqn:G.
  assert (dev_ok (w_kernel w) -> dev_ok k) as Ho by (intros Hk; by eapply GetPermFromKernel_ok in G as [_ ?]).
  apply GetPermFromKernel_law in G as [Ek Hg]; [|unfold is_u32; lia].
  destruct (Z.eqb_spec e RET_SUCCESS) as [->|]; cbn [negb]; intros [= <- <-]; exists k; split_and!; try done.
  intros s [= <-] Hs. exists code. split; [done|]. rewrite <- Hg by done. by destruct g.
Qed.

(** The service asks for its own caller: it only looks, and it denies a permission the caller
    does not hold. *)
Lemma verify_caller p t : caller_wf ->
  let r := AtmVerifyAccessToken c (callingTokenID c) p t in
  looked t r.2 /\ (r.1 <> PERMISSION_DENIED -> holds (callingTokenID c) p t).
Proof.
  intros Hc. unfold AtmVerifyAccessToken, holds. destruct (IsToolToken _ _); cbn [fst snd]; [done|].
  unfold on_managers, VerifyAccessToken. rewrite <- Hc, Z.eqb_refl. cbn [negb]. rewrite andb_false_r. cbn [andb].
  split_if; [cbn; split; [by destruct t|done]|]. split_if; [cbn; split; [by destruct t|done]|].
  destruct (GetPermissionFromKernelCache _ _ _) as [r w'] eqn:G. apply kernel_cache in G as (k & -> & Ed & Ho & Hr).
  assert (looked t (mkToolState (set_kernel k (t_world t)) (t_tools t) (t_tickets t))) as L by by exists k.
  destruct r as [s|]; cbn; [split; [done|]; intros Hs; right; by apply (Hr s)|].
  unfold stored_status. destruct (_ || _); [cbn; auto|]. destruct (_ =? TOKEN_HAP); cbn; auto.
Qed.

Lemma lacks_caller p t : caller_wf ->
  exists t', looked t t' /\ lacks c p t = (bool_decide ((AtmVerifyAccessToken c (callingTokenID c) p t).1 = PERMISSION_DENIED), t').
Proof.
  intros Hc. destruct (verify_caller p t Hc) as [L _]. unfold lacks, mbind, Op_bind, mret, Op_ret.
  destruct (AtmVerifyAccessToken _ _ _ _) as [r t'] eqn:E. exists t'. split; [done|]. cbn. f_equal.
  destruct (Z.eqb_spec r PERMISSION_DENIED); [by rewrite bool_decide_true|by rewrite bool_decide_false].
Qed.

Lemma lacks_unheld p t : caller_wf -> ~ holds (callingTokenID c) p t -> exists t', looked t t' /\ lacks c p t = (true, t').
Proof.
  intros Hc Hn. destruct (lacks_caller p t Hc) as (t' & L & ->). exists t'. split; [done|]. f_equal. apply bool_decide_true.
  destruct (decide ((AtmVerifyAccessToken c (callingTokenID c) p t).1 = PERMISSION_DENIED)) as [|Hne]; [done|].
  by destruct Hn; apply verify_caller.
Qed.

(** ** The guards. *)
Definition third_party t : Prop :=
  GetTokenIdType (callingTokenID c) (w_ids (t_world t)) = TOKEN_HAP /\ IsSystemApp (callingFullTokenID c) = false.
Definition from_native t : Prop := GetTokenIdType (callingTokenID c) (w_ids (t_world t)) = TOKEN_NATIVE.
Definition from_shell t : Prop := GetTokenIdType (callingTokenID c) (w_ids (t_world t)) = TOKEN_SHELL.
(** The token is that of a debuggable application. *)
Definition debuggable (x : Z) t : Prop :=
  exists info, (GetHapTokenInfoInner x (t_world t)).1 = Some info /\ IsDebugAppAttr (hti_tokenAttr (tokenInfoBasic_ info)) = true.

Lemma third_party_guard t : is_third_party c t = (bool_decide (third_party t), t).
Proof.
  unfold is_third_party, AtmGetTokenType, read_world, mbind, Op_bind, mret, Op_ret, third_party, IsSystemAppCalling. f_equal.
  destruct (Z.eqb_spec (GetTokenIdType (callingTokenID c) (w_ids (t_world t))) TOKEN_HAP) as [->|Hne]; cbn.
  - destruct (IsSystemApp _); [by rewrite bool_decide_false by naive_solver|by rewrite bool_decide_true].
  - by rewrite bool_decide_false by naive_solver.
Qed.

Lemma native_guard t : IsNativeProcessCalling c t = (bool_decide (from_native t), t).
Proof.
  unfold IsNativeProcessCalling, AtmGetTokenType, read_world, mbind, Op_bind, mret, Op_ret, from_native. f_equal.
  by destruct (Z.eqb_spec (GetTokenIdType (callingTokenID c) (w_ids (t_world t))) TOKEN_NATIVE) as [->|Hne];
    [rewrite bool_decide_true|rewrite bool_decide_false].
Qed.

Lemma shell_guard t : IsShellProcessCalling c t = (bool_decide (from_shell t), t).
Proof.
  unfold IsShellProcessCalling, AtmGetTokenType, read_world, mbind, Op_bind, mret, Op_ret, from_shell. f_equal.
  by destruct (Z.eqb_spec (GetTokenIdType (callingTokenID c) (w_ids (t_world t))) TOKEN_SHELL) as [->|Hne];
    [rewrite bool_decide_true|rewrite bool_decide_false].
Qed.

(** Neither root of a debug build nor a holder of the permission: refused. *)
Lemma permission_guard p t : caller_wf -> IsPrivilegedCalling c = false -> ~ holds (callingTokenID c) p t ->
  exists t', looked t t' /\ (mret (negb (IsPrivilegedCalling c)) &&& lacks c p) t = (true, t').
Proof.
  intros Hc Hp Hn. destruct (lacks_unheld p t Hc Hn) as (t' & L & E). exists t'. split; [done|].
  unfold and_also, mbind, Op_bind, mret, Op_ret. by rewrite Hp.
Qed.

Lemma shell_debug_guard p x t : caller_wf -> IsPrivilegedCalling c = false -> ~ holds (callingTokenID c) p t ->
  ~ (from_shell t /\ debuggable x t) ->
  exists t', looked_at x t t' /\
    (mret (negb (IsPrivilegedCalling c)) &&& lacks c p &&& not_so (IsShellCallingForDebugHap c x)) t = (true, t').
Proof.
  intros Hc Hp Hn Hs. destruct (permission_guard p t Hc Hp Hn) as (t1 & L & E).
  unfold and_also at 1, mbind at 1, Op_bind at 1. rewrite E.
  unfold not_so, IsShellCallingForDebugHap, and_also, mbind, Op_bind. rewrite shell_guard.
  destruct L as (k & -> & Ek & Ho). assert (looked t (on_world (set_kernel k) t)) as L by by exists k.
  case_bool_decide as Hsh; cbn; [|eexists; split; [by apply looked_at_of|done]].
  unfold IsDebugHapToken, on_managers, mbind, Op_bind, mret, Op_ret. cbn [t_world on_world].
  pose proof (load_kernel x k (t_world t)) as El.
  destruct (GetHapTokenInfoInner x (set_kernel k (t_world t))) as [r w'] eqn:G. cbn in El.
  exists (mkToolState w' (t_tools t) (t_tickets t)). split.
  - exists (on_world (set_kernel k) t). split; [done|]. right. unfold on_world. cbn. by rewrite G.
  - f_equal. destruct r as [info|]; [|done]. destruct (IsDebugAppAttr _) eqn:D; [|done].
    destruct Hs. split; [done|]. by exists info.
Qed.
End Looking.
