(* ===== verification/AtmServiceSamples.v ===== *)
(** * A small system on which the service is evaluated

    One application that asks for the camera, and one native process that may grant permissions
    and manage user policies; the database and the device are in memory. *)

From stdpp Require Import base gmap list strings.
From S2P Require Import Prelude AccessTokenTypes TokenId Database PermissionMap Json Validator DataTranslator PermissionDataBrief PermissionDataBriefTheory IdManager UserPolicy ToggleManager ConstraintCheck HapTokenInfo PermissionRequest PermissionInit Kernel InfoManager InfoManagerOps InfoManagerTheory InfoManagerProps PermissionManager PermissionManagerProps ClawTicket ClawTicketProps ToolToken ToolTokenProps UserPolicyRefresh UserPolicyRefreshTheory AtmService AtmServiceTheory.
#[local] Open Scope string_scope.
#[local] Open Scope list_scope.
#[local] Open Scope Z_scope.
#[local] Open Scope cxx_scope.

(** The table of [sample_table] with the permissions some requests need. *)
Definition service_table : PermTable := mkPermTable
  (@g_permList sample_table ++
   [plain_def GRANT_SENSITIVE_PERMISSIONS SYSTEM_GRANT APL_SYSTEM_BASIC AVAILABLE_NORMAL;
    plain_def MANAGE_USER_POLICY SYSTEM_GRANT APL_SYSTEM_BASIC AVAILABLE_NORMAL]) ∅.

Lemma service_table_laws : PermTableLaws service_table.
Proof.
  split.
  - vm_compute. repeat constructor; vm_compute; set_solver.
  - intros d Hd. repeat (apply elem_of_cons in Hd as [->|Hd]; [done|]). by apply not_elem_of_nil in Hd.
  - intros d Hd. repeat (apply elem_of_cons in Hd as [->|Hd]; [done|]). by apply not_elem_of_nil in Hd.
  - intros d Hd. repeat (apply elem_of_cons in Hd as [->|Hd]; [done|]). by apply not_elem_of_nil in Hd.
  - done.
Qed.

Definition service_env : ServiceEnv := {|
  ATM_BUILD_VARIANT_USER_ENABLE := true;
  kernelSpm := false;
  parentHapToken := fun _ => inl 0;
  allowTemp := fun _ _ => true;
  abilityManager := true;
  isInPunishingTime := fun _ => false;
  ParseAppDistType := fun _ => 0;
  features := ∅;
  subProfileIndex := fun _ _ => (ERR_OK, 0);
  rands := fun n => Z.of_nat n + 1;
|}.

#[local] Existing Instances service_table service_table_laws full_config sample_verify sample_accounts sample_claw sample_fence sample_text service_env.

Section Samples.

Definition bare_world : World MemRdb MemDevice :=
  mkWorld ∅ ∅ ∅ ∅ empty_brief initial_IdMgr ∅ ∅ (mkMemRdb ∅ []) (mkMemDevice ∅ []) (fun _ => 1) [].

Definition app_installed : Z * (Z * Z) * World MemRdb MemDevice :=
  CreateHapTokenInfo (fun _ => 5) (app_params 100) ask_policy [] bare_world.

(** The process of the device manager. *)
Definition manager_token : Z := 0x28000001.
Definition service_world : World MemRdb MemDevice :=
  let w := app_installed.2 in
  set_natives {[manager_token := mkNativeTokenInfoCache APL_SYSTEM_BASIC "device_manager" [6; 7]]}
    (set_kernel (mkMemDevice (<[manager_token := {[6; 7]}]> (md_bits (w_kernel w))) [])
      (set_ids (set_tokens ({[manager_token]} ∪ tokenIdSet_ (w_ids w)) ∅ ∅ (w_ids w)) w)).
Definition service_start : ToolState MemRdb MemDevice := mkToolState service_world no_tools ∅.

Definition app_caller : Caller := mkCaller app_token app_token 20010042 4242.
Definition manager_caller : Caller := mkCaller manager_token manager_token 3057 1001.

(** The camera, granted by the user and by a security component. *)
Definition camera_by_user : Z * ToolState MemRdb MemDevice :=
  AtmGrantPermission manager_caller app_token CAMERA PERMISSION_USER_SET USER_GRANTED_PERM service_start.
Definition camera_by_component : Z * ToolState MemRdb MemDevice :=
  AtmGrantPermission manager_caller app_token CAMERA PERMISSION_COMPONENT_SET USER_GRANTED_PERM service_start.

(** No camera for user 100, also after a restart. *)
Definition no_camera : list UserPermissionPolicy := [mkUserPermissionPolicy CAMERA [mkUserPolicy 100 true] true].

(** The next statements of the database fail as listed. *)
Definition with_faults (faults : list Z) (t : ToolState MemRdb MemDevice) : ToolState MemRdb MemDevice :=
  on_world (fun w => set_db (mkMemRdb (mem_tables (w_db w)) faults) w) t.

Definition camera_check (t : ToolState MemRdb MemDevice) : Z := (AtmVerifyAccessToken app_caller app_token CAMERA t).1.

Lemma bare_world_ok : starting bare_world.
Proof. by split. Qed.

End Samples.
