(* ===== verification/AtmServiceProps.v ===== *)
(** * Properties of the service

    Requests that change the state reach the managers only for the callers the rules of the
    service name; the others are refused, with the answer the rules fix, and nothing but
    looking has happened. *)

From stdpp Require Import base gmap list strings.
From S2P Require Import Prelude AccessTokenTypes TokenId Database PermissionMap Json Validator DataTranslator PermissionDataBrief IdManager UserPolicy ToggleManager ConstraintCheck HapTokenInfo PermissionRequest PermissionInit Kernel InfoManager InfoManagerOps InfoManagerProps PermissionManager ClawTicket ClawTicketProps ToolToken UserPolicyRefresh AtmService AtmServiceTheory AtmServiceSamples.
#[local] Open Scope string_scope.
#[local] Open Scope list_scope.
#[local] Open Scope Z_scope.
#[local] Open Scope cxx_scope.

(** ** The requests that change tokens, permissions and policies. *)
Inductive Request :=
  | Grant (tokenID : Z) (permissionName : string) (flag updateFlag : Z)
  | Revoke (tokenID : Z) (permissionName : string) (flag updateFlag : Z) (killProcess : bool)
  | ClearGranted (tokenID : Z)
  | ClearGrantedOf (bundleName : string)
  | SetStatusWithPolicy (tokenID : Z) (permissionList : list string) (status flag : Z)
  | SetToggle (permissionName : string) (status userID subProfileId : Z)
  | Alloc (info : HapInfoParcel) (policy : HapPolicy)
  | Init (info : HapInfoParcel) (policy : HapPolicy)
  | Update (tokenID attr : Z) (info : UpdateHapInfoParamsIdl) (policy : HapPolicy)
  | Delete (tokenID : Z) (isTokenReserved : bool)
  | SetDialogCap (userID : Z) (bundleName : string) (instIndex : Z) (enable : bool)
  | ReloadNative (tokenInfos : Z + list NativeTokenInfoBase)
  | InitCli (i : CliInitInfo)
  | DeleteTool (pid : Z)
  | SetPolicy (userPermissionList : list UserPermissionPolicy)
  | ClearPolicy (permissionList : list string)
  | WhiteList (tokenId permCode type : Z).

(** The code of the call and the token id it gives back, 0 when it gives none. *)
Definition Answer : Type := Z * (Z * Z).

Section Authority.
Context {PT : PermTable} `{!PermTableLaws PT} {BC : BuildConfig} {VE : VerifyEnv} {OA : OsAccount} {CC : ClawConfig} {AF : AgentFence} {JT : JsonText}.
Context {SE : ServiceEnv} {S K : Type} `{!AtmDb S} `{!TokenDevice K} `{!TokenDeviceLaws K} `{!TokenDeviceHealth K}.
Context (c : Caller).
Implicit Types (t : ToolState S K).

Definition code_only (m : Op S K Z) : Op S K Answer := ret ← m; mret (ret, (0, 0)).

Definition serve (r : Request) : Op S K Answer :=
  match r with
  | Grant x p f u => code_only (AtmGrantPermission c x p f u)
  | Revoke x p f u kill => code_only (AtmRevokePermission c x p f u kill)
  | ClearGranted x => code_only (AtmClearUserGrantedPermissionState c x)
  | ClearGrantedOf b => code_only (ClearUserGrantedPermStateByBundle c b)
  | SetStatusWithPolicy x l s f => code_only (AtmSetPermissionStatusWithPolicy c x l s f)
  | SetToggle p s u i => code_only (AtmSetPermissionRequestToggleStatus c p s u i)
  | Alloc info policy => AllocHapToken c info policy
  | Init info policy => '(ret, id, _) ← InitHapToken c info policy; mret (ret, id)
  | Update x attr info policy => '(ret, id, _) ← AtmUpdateHapToken c x attr info policy; mret (ret, id)
  | Delete x res => code_only (DeleteToken c x res)
  | SetDialogCap u b i e => code_only (AtmSetPermDialogCap c u b i e)
  | ReloadNative infos => code_only (ReloadNativeTokenInfo c infos)
  | InitCli i => '(ret, id, _) ← AtmInitCliToken c i; mret (ret, (id, 0))
  | DeleteTool pid => code_only (AtmDeleteToolTokenByPid c pid)
  | SetPolicy l => code_only (AtmSetUserPolicy c l)
  | ClearPolicy l => code_only (AtmClearUserPolicy c l)
  | WhiteList x code type => code_only (AtmUpdatePolicyWhiteList c x code type)
  end.

(** Root of a debug build, or a holder of the permission. *)
Definition may (p : string) t : Prop := IsPrivilegedCalling c = true \/ holds (callingTokenID c) p t.

(** The rules. *)
Definition authorised (r : Request) t : Prop :=
  match r with
  | Grant x _ _ _ => ~ third_party c t /\ (may GRANT_SENSITIVE_PERMISSIONS t \/ (from_shell c t /\ debuggable x t))
  | Revoke x _ _ _ _ => ~ third_party c t /\ (may REVOKE_SENSITIVE_PERMISSIONS t \/ (from_shell c t /\ debuggable x t))
  | ClearGranted x => may REVOKE_SENSITIVE_PERMISSIONS t \/ (from_shell c t /\ debuggable x t)
  | ClearGrantedOf _ => from_shell c t
  | SetStatusWithPolicy _ _ _ _ => ~ third_party c t /\ may MANAGE_EDM_POLICY t
  | SetToggle _ _ _ _ => ~ third_party c t /\ may DISABLE_PERMISSION_DIALOG t
  | Alloc _ _ | Init _ _ | Update _ _ _ _ | Delete _ _ => may MANAGE_HAP_TOKENID_PERMISSION t
  | SetDialogCap _ _ _ _ => holds (callingTokenID c) DISABLE_PERMISSION_DIALOG t
  | ReloadNative _ => IsPrivilegedCalling c = true
  | InitCli _ => callingUid c = ROOT_UID
  | DeleteTool _ => from_native c t /\ holds (callingTokenID c) MANAGE_TOOL_TOKENID t
  | SetPolicy _ | ClearPolicy _ | WhiteList _ _ _ => holds (callingTokenID c) MANAGE_USER_POLICY t
  end.

(** The answer to a request that is not authorised. *)
Definition refusal (r : Request) t : Answer :=
  let system_only := if bool_decide (third_party c t) then ERR_NOT_SYSTEM_APP else ERR_PERMISSION_DENIED in
  match r with
  | Grant x p f u | Revoke x p f u _ =>
      let param := CheckPermissionUpdateParam x p f u in (if param =? RET_SUCCESS then system_only else param, (0, 0))
  | SetStatusWithPolicy _ _ _ _ | SetToggle _ _ _ _ => (system_only, (0, 0))
  | Alloc _ _ => (ERR_OK, (0, 0))
  | Update x attr _ _ => (ERR_PERMISSION_DENIED, (x, attr))
  | _ => (ERR_PERMISSION_DENIED, (0, 0))
  end.

(** What a refused request may have done: ask the device, and load the token it names. *)
Definition only_looked (r : Request) t t' : Prop :=
  match r with
  | Grant x _ _ _ | Revoke x _ _ _ _ | ClearGranted x => looked_at x t t'
  | _ => looked t t'
  end.

(** The three forms of guard. *)
Lemma permission_refusal {A} p (no : A) (k : Op S K A) t : caller_wf c -> ~ may p t ->
  exists t', (refused ← mret (negb (IsPrivilegedCalling c)) &&& lacks c p; if refused : bool then mret no else k : Op S K A) t = (no, t') /\ looked t t'.
Proof.
  intros Hc Hm. destruct (IsPrivilegedCalling c) eqn:P; [by destruct Hm; left|].
  destruct (permission_guard c p t Hc P) as (t' & L & E); [by intros H; apply Hm; right|].
  exists t'. split; [|done]. unfold mbind at 1, Op_bind at 1. rewrite P in E. by rewrite E.
Qed.

Lemma shell_refusal {A} p x (no : A) (k : Op S K A) t : caller_wf c -> ~ (may p t \/ (from_shell c t /\ debuggable x t)) ->
  exists t', (refused ← mret (negb (IsPrivilegedCalling c)) &&& lacks c p &&& not_so (IsShellCallingForDebugHap c x);
    if refused : bool then mret no else k : Op S K A) t = (no, t') /\ looked_at x t t'.
Proof.
  intros Hc Hm. destruct (IsPrivilegedCalling c) eqn:P; [by destruct Hm; left; left|].
  destruct (shell_debug_guard c p x t Hc P) as (t' & L & E); [by intros H; apply Hm; left; right|by intros H; apply Hm; right|].
  exists t'. split; [|done]. unfold mbind at 1, Op_bind at 1. rewrite P in E. by rewrite E.
Qed.

Lemma system_refusal {A} (no a : A) (m : Op S K A) (P : ToolState S K -> Prop) t : P t ->
  (~ third_party c t -> exists t', m t = (a, t') /\ P t') ->
  exists t', (third ← is_third_party c; if third : bool then mret no else m : Op S K A) t =
    (if bool_decide (third_party c t) then no else a, t') /\ P t'.
Proof.
  intros Ht Hm. unfold mbind, Op_bind. rewrite third_party_guard. case_bool_decide as H; [by exists t|]. by apply Hm.
Qed.

Lemma code_refusal (m : Op S K Z) ret (P : ToolState S K -> Prop) t :
  (exists t', m t = (ret, t') /\ P t') -> exists t', code_only m t = ((ret, (0, 0)), t') /\ P t'.
Proof. intros (t' & E & H). exists t'. split; [|done]. unfold code_only, mbind, Op_bind. by rewrite E. Qed.

Lemma token_refusal {A} (m : Op S K (Z * (Z * Z) * A)) ret id x (P : ToolState S K -> Prop) t :
  (exists t', m t = ((ret, id, x), t') /\ P t') ->
  exists t', ('(ret, id, _) ← m; mret (ret, id) : Op S K Answer) t = ((ret, id), t') /\ P t'.
Proof. intros (t' & E & H). exists t'. split; [|done]. unfold mbind, Op_bind. by rewrite E. Qed.

Lemma look_nothing_at x t : looked_at x t t.
Proof. by apply looked_at_of. Qed.

Lemma look_nothing {A} x (a : A) t : exists t', (mret a : Op S K A) t = (a, t') /\ looked_at x t t'.
Proof. exists t. split; [done|]. apply look_nothing_at. Qed.

(** A permission without the root exception. *)
Lemma holder_refusal {A} p (no : A) (k : Op S K A) t : caller_wf c -> ~ holds (callingTokenID c) p t ->
  exists t', (refused ← lacks c p; if refused : bool then mret no else k : Op S K A) t = (no, t') /\ looked t t'.
Proof.
  intros Hc Hn. destruct (lacks_unheld c p t Hc Hn) as (t' & L & E). exists t'. split; [|done].
  unfold mbind at 1, Op_bind at 1. by rewrite E.
Qed.

(** C3: the rules of the service.  Granting, revoking and clearing permissions, installing,
    updating and removing applications, toggles, dialogs, enterprise and user policies, native
    tokens and command-line tokens: a request whose caller the rules do not name (root of a
    debug build, a holder of the permission of the request by the store or the device, the
    shell for a debuggable application, never an application that is not a system
    application where the rules say so) gets the answer the rules fix, an error or no token,
    and the state of every manager, the database, the events and the bits of the device stay
    as they were, but for the load of the token named in the request. *)
Theorem unauthorised_refused (r : Request) t :
  caller_wf c -> ~ authorised r t ->
  exists t', serve r t = (refusal r t, t') /\ only_looked r t t'.
Proof.
  intros Hc Ha. destruct r; cbn [serve refusal only_looked authorised] in *.
  - apply code_refusal. unfold AtmGrantPermission. destruct (_ =? RET_SUCCESS); cbn [negb]; [|by apply look_nothing].
    apply system_refusal; [by apply look_nothing_at|]. intros Ht. apply shell_refusal; tauto.
  - apply code_refusal. unfold AtmRevokePermission. destruct (_ =? RET_SUCCESS); cbn [negb]; [|by apply look_nothing].
    apply system_refusal; [by apply look_nothing_at|]. intros Ht. apply shell_refusal; tauto.
  - apply code_refusal, shell_refusal; tauto.
  - apply code_refusal. unfold ClearUserGrantedPermStateByBundle, mbind, Op_bind. rewrite shell_guard, bool_decide_false by done.
    by exists t.
  - apply code_refusal, system_refusal; [done|]. intros Ht. apply permission_refusal; tauto.
  - apply code_refusal, system_refusal; [done|]. intros Ht. apply permission_refusal; tauto.
  - by apply permission_refusal.
  - by apply (token_refusal _ _ _ no_check_result), permission_refusal.
  - by apply (token_refusal _ _ _ no_check_result), permission_refusal.
  - by apply code_refusal, permission_refusal.
  - by apply code_refusal, holder_refusal.
  - apply code_refusal. unfold ReloadNativeTokenInfo. destruct (IsPrivilegedCalling c); [done|]. by exists t.
  - unfold AtmInitCliToken. rewrite (proj2 (Z.eqb_neq _ _) Ha). by exists t.
  - apply code_refusal. unfold AtmDeleteToolTokenByPid, mbind at 1, Op_bind at 1. rewrite native_guard.
    case_bool_decide as Hn; cbn [negb]; [|by exists t]. apply holder_refusal; tauto.
  - by apply code_refusal, holder_refusal.
  - by apply code_refusal, holder_refusal.
  - by apply code_refusal, holder_refusal.
Qed.

End Authority.

(** ** An application tries to grant itself the camera. *)
#[local] Existing Instances service_table service_table_laws full_config sample_verify sample_accounts sample_claw sample_fence sample_text service_env.

Lemma unauthorised_refused_witness :
  exists t', serve app_caller (Grant app_token CAMERA PERMISSION_USER_SET USER_GRANTED_PERM) service_start =
    ((ERR_NOT_SYSTEM_APP, (0, 0)), t') /\ looked_at app_token service_start t'.
Proof.
  assert (third_party app_caller service_start) as Ht by (split; vm_compute; reflexivity).
  pose proof (unauthorised_refused app_caller (Grant app_token CAMERA PERMISSION_USER_SET USER_GRANTED_PERM) service_start) as H.
  cbn [authorised refusal only_looked] in H. rewrite bool_decide_true in H by exact Ht. apply H.
  - vm_compute. reflexivity.
  - intros [Hn _]. exact (Hn Ht).
Defined.
