(* ===== verification/AtmPolicyProps.v ===== *)
(** * User policies, from the request to the checks

    The restriction flags of the permission store follow the recorded policies: a request that
    succeeds leaves every token of every user with the flag its policy asks for.  A request
    whose refresh fails leaves the store as it was and the new policy recorded. *)

From stdpp Require Import base gmap list strings.
From S2P Require Import Prelude AccessTokenTypes TokenId Database PermissionMap Json Validator DataTranslator PermissionDataBrief PermissionDataBriefTheory IdManager UserPolicy ToggleManager ConstraintCheck HapTokenInfo PermissionRequest PermissionInit Kernel InfoManager InfoManagerOps InfoManagerTheory InfoManagerProps PermissionManager PermissionManagerProps ClawTicket ClawTicketProps ToolToken UserPolicyRefresh UserPolicyRefreshTheory AtmService AtmServiceTheory AtmServiceSamples.
#[local] Open Scope string_scope.
#[local] Open Scope list_scope.
#[local] Open Scope Z_scope.
#[local] Open Scope cxx_scope.

(** ** The list of changes names every user whose restriction changes. *)
Section Changes.
Context {PT : PermTable} {BC : BuildConfig} {S : Type} `{!AtmDb S}.

Definition covers (ch : list UserPolicyChange) (recs next : UserPolicy.Records) : Prop :=
  forall x u c, (forall p, p ∈ ch -> upc_permCode p = c -> u ∉ upc_changedUserList p) ->
  IsPermissionRestricted x u c next = IsPermissionRestricted x u c recs.

Lemma restricted_user_list items : forall l ch ch' l', UpdateRestrictedUserList items l ch = (ch', l') ->
  ch ⊆ ch' /\ forall u, u ∉ ch' -> u ∈ l' <-> u ∈ l.
Proof.
  assert (forall u v (l : list Z), u <> v -> u ∈ erase_first (fun x => x =? v) l <-> u ∈ l) as Her.
  { intros u v l Hne. induction l as [|x l IH]; cbn; [done|]. destruct (Z.eqb_spec x v) as [->|]; set_solver. }
  induction items as [|item items IH]; intros l ch ch' l'; cbn; [by intros [= <- <-]|].
  split_if; [|split_if]; intros [Hs Hu]%IH; (split; [set_solver|]); intros u Hn; rewrite (Hu u Hn); [apply Her|..]; set_solver.
Qed.

Lemma cache_step_covers caller policy code recs ch next ch' :
  UpdateUserPolicyCache_step caller policy code (recs, ch) = (next, ch') ->
  (exists l, ch' = ch ++ l) /\ covers ch' recs next.
Proof.
  unfold UpdateUserPolicyCache_step. set (old := match recs !! code with Some r => r | None => _ end).
  destruct (UpdateRestrictedUserList _ _ ∅) as [changed users] eqn:U. apply restricted_user_list in U as [_ Hu].
  assert (forall x u, u ∉ changed -> IsPermissionRestricted x u code recs =
    SUPPORT_MANAGE_USER_POLICY && negb (bool_decide (x ∈ upr_whiteList old)) && bool_decide (u ∈ users)) as Hold.
  { intros x u Hn. unfold IsPermissionRestricted, IsInPolicyWhiteList. destruct SUPPORT_MANAGE_USER_POLICY; [|done]. cbn [negb andb].
    rewrite (bool_decide_ext _ _ (Hu u Hn)). unfold old. destruct (recs !! code) as [r|]; cbn.
    - destruct (bool_decide (x ∈ _)); [done|]. by destruct (bool_decide (u ∈ _)).
    - by rewrite (bool_decide_false (u ∈ [])), andb_false_r by set_solver. }
  assert (forall extra, (exists l, (if negb (negb (bool_decide (changed = ∅))) then ch else ch ++ [extra]) = ch ++ l)) as Hl.
  { intros extra. destruct (negb _); [exists []; by rewrite app_nil_r|by exists [extra]]. }
  destruct (bool_decide_reflect (users = [])) as [Hn|Hn]; intros [= <- <-]; (split; [apply Hl|]); intros x u c Hno.
  all: assert (c = code -> u ∉ changed) as Hch by (intros -> Hin; rewrite bool_decide_false in Hno by set_solver; cbn in Hno;
    eapply (Hno (mkUserPolicyChange code (upr_isPersist old) changed)); [set_solver|done|done]).
  - destruct (decide (c = code)) as [->|Hne].
    + rewrite (Hold x u) by auto. rewrite Hn, (bool_decide_false (u ∈ [])), andb_false_r by set_solver.
      unfold IsPermissionRestricted. destruct (negb SUPPORT_MANAGE_USER_POLICY); [done|].
      destruct (recs !! code) as [r|] eqn:R; [by rewrite bool_decide_true, lookup_delete_eq|].
      by rewrite bool_decide_false, R by by intros [? ?].
    + unfold IsPermissionRestricted. destruct (negb SUPPORT_MANAGE_USER_POLICY); [done|].
      destruct (bool_decide (is_Some _)); [|done]. by rewrite lookup_delete_ne.
  - destruct (decide (c = code)) as [->|Hne].
    + rewrite (Hold x u) by auto. unfold IsPermissionRestricted, IsInPolicyWhiteList.
      destruct SUPPORT_MANAGE_USER_POLICY; [|done]. cbn [negb andb]. rewrite lookup_insert_eq. cbn.
      destruct (bool_decide (x ∈ _)); [done|]. by destruct (bool_decide (u ∈ _)).
    + unfold IsPermissionRestricted. destruct (negb SUPPORT_MANAGE_USER_POLICY); [done|]. by rewrite lookup_insert_ne.
Qed.

Lemma covers_app ch l recs mid next : covers ch recs mid -> covers (ch ++ l) mid next -> covers (ch ++ l) recs next.
Proof. intros H1 H2 x u c Hn. rewrite H2 by done. apply H1. intros p Hp. apply Hn. set_solver. Qed.

Lemma cache_covers caller items : forall recs ch next ch',
  UpdateUserPolicyCache_loop caller items (recs, ch) = (next, ch') -> (exists l, ch' = ch ++ l) /\ covers ch' recs next.
Proof.
  induction items as [|[policy code] items IH]; intros recs ch next ch'; cbn [UpdateUserPolicyCache_loop].
  { intros [= <- <-]. split; [exists []; by rewrite app_nil_r|]. by intros x u c. }
  destruct (UpdateUserPolicyCache_step caller policy code (recs, ch)) as [mid ch1] eqn:E.
  apply cache_step_covers in E as [[l1 ->] H1]. intros [[l2 ->] H2]%IH. split; [exists (l1 ++ l2); by rewrite app_assoc|].
  by eapply covers_app.
Qed.

Lemma set_covers pl caller recs db ch next db' :
  SetUserPolicy pl caller recs db = (RET_SUCCESS, ch, next, db') -> covers ch recs next.
Proof.
  unfold SetUserPolicy. split_if; [by intros|]. destruct (ValidateSetUserPolicy _ _ _) as [e|codes] eqn:V.
  { intros [= -> <- <- <-]. by intros x u c. }
  destruct (UpdateUserPolicyCache _ _ _ _) as [next1 ch1] eqn:C. split_if; [by intros|].
  destruct (UpdateUserPolicyDatabase _ _ _ _) as [e db1]. split_if; [intros [= -> <- <- <-]; by intros x u c|].
  intros [= <- <- <-]. by apply cache_covers in C as [_ H].
Qed.

Lemma clear_loop_covers codes : forall recs ch dels next ch' dels',
  ClearUserPolicy_loop codes recs ch dels = (next, ch', dels') -> (exists l, ch' = ch ++ l) /\ covers ch' recs next.
Proof.
  induction codes as [|code codes IH]; intros recs ch dels next ch' dels'; cbn.
  { intros [= <- <- <-]. split; [exists []; by rewrite app_nil_r|]. by intros x u c. }
  destruct (recs !! code) as [r|] eqn:R; [|by apply IH]. intros [[l ->] H]%IH.
  split; [rewrite <- app_assoc; eauto|]. eapply covers_app; [|exact H]. intros x u c Hn.
  unfold IsPermissionRestricted. destruct (negb _); [done|]. destruct (decide (c = code)) as [->|Hne]; [|by rewrite lookup_delete_ne].
  rewrite lookup_delete_eq, R. destruct (IsInPolicyWhiteList _ _); [done|]. rewrite bool_decide_false; [done|]. intros Hin.
  eapply Hn; [apply elem_of_app; right; by apply list_elem_of_singleton|done|]. cbn. set_solver.
Qed.

Lemma clear_covers names caller recs db ch next db' :
  ClearUserPolicy names caller recs db = (RET_SUCCESS, ch, next, db') -> covers ch recs next.
Proof.
  unfold ClearUserPolicy. split_if; [by intros|]. destruct (ValidateClearUserPolicy _ _ _) as [e|codes].
  { intros [= -> <- <- <-]. by intros x u c. }
  destruct (ClearUserPolicy_loop _ _ _ _) as [[next1 ch1] dels] eqn:C. destruct (if bool_decide _ then _ else _) as [e db1].
  split_if; [by intros|]. intros [= <- <- <-]. by apply clear_loop_covers in C as [_ H].
Qed.
End Changes.

(** ** The flags follow the policies. *)
Inductive PolicyRequest :=
  | ReqSet (userPermissionList : list UserPermissionPolicy)
  | ReqClear (permissionList : list string)
  | ReqWhiteList (tokenId permCode type : Z).

Section Follow.
Context {PT : PermTable} `{!PermTableLaws PT} {BC : BuildConfig} {VE : VerifyEnv} {OA : OsAccount} {CC : ClawConfig} {AF : AgentFence} {JT : JsonText}.
Context {SE : ServiceEnv} {S K : Type} `{!AtmDb S} `{!TokenDevice K} `{!TokenDeviceLaws K} `{!TokenDeviceHealth K}.
Implicit Types (t : ToolState S K) (w : World S K).

(** Every permission of every token carries the restriction flag exactly when the policies
    restrict it for that token. *)
Definition flags_follow t : Prop :=
  forall x c d, is_Some (token_user t x) -> entry (w_brief (t_world t)) x c = Some d -> is_marked d = policy_restricts t x c.

(** The device passes the permission of the token exactly when it is granted and not restricted. *)
Definition in_step t (x c : Z) : Prop := bit_agrees (w_kernel (t_world t)) (w_brief (t_world t)) x c.

(** A request that succeeds keeps in step what was; one that fails does, when everything was. *)
Definition stays_in_step t (ret : Z) t' : Prop :=
  dev_ok (w_kernel (t_world t)) -> forall x c, 0 <= c -> in_step t x c ->
  ret = RET_SUCCESS \/ (forall y c', 0 <= c' -> in_step t y c') -> in_step t' x c.

(** Up to the policies, the database, the device, the clock and the events. *)
Record same_tokens t t' : Prop := {
  st_haps : hapTokenInfoMap_ (t_world t') = hapTokenInfoMap_ (t_world t);
  st_tools : t_tools t' = t_tools t;
}.

Lemma same_users t t' x : same_tokens t t' -> token_user t' x = token_user t x.
Proof. intros [E1 E2]. unfold token_user. by rewrite E1, E2. Qed.

Lemma same_ready t t' : same_tokens t t' -> brief_wf (w_brief (t_world t')) -> refresh_ready t -> refresh_ready t'.
Proof.
  intros [E1 E2] Hw [_ H2 H3 H4]. split; [done| | |].
  - unfold keyed. by rewrite E1.
  - unfold tools_keyed. by rewrite E2.
  - rewrite E1, E2. done.
Qed.

Lemma frame_same t t' : tool_frame t t' -> same_tokens t t'.
Proof. intros (F & E & _). split; [apply F|done]. Qed.

#[export] Instance same_tokens_trans : Transitive same_tokens.
Proof. intros t1 t2 t3 [] []. split; congruence. Qed.

(** A refresh that covers the difference between two sets of policies. *)
Lemma refresh_follows ch t t2 ret t' :
  refresh_ready t -> flags_follow t -> same_tokens t t2 -> w_brief (t_world t2) = w_brief (t_world t) ->
  covers ch (w_policies (t_world t)) (w_policies (t_world t2)) ->
  RefreshUserPolicyPermState ch t2 = (ret, t') ->
  same_tokens t t' /\ brief_wf (w_brief (t_world t')) /\
  (ret <> RET_SUCCESS -> w_brief (t_world t') = w_brief (t_world t)) /\ (ret = RET_SUCCESS -> flags_follow t').
Proof.
  intros Hr Hf Hs Eb Hc E. pose proof (rr_wf _ Hr) as Hw.
  assert (refresh_ready t2) as Hr2 by (apply (same_ready t); rewrite ?Eb; done).
  destruct (refresh_spec t2 Hr2 ch ret t' E) as (F & Hfail & Hok & _). rewrite Eb in Hfail, Hok.
  assert (same_tokens t t') as Hs' by (etrans; [exact Hs|by apply frame_same]). split; [done|]. split.
  { destruct (decide (ret = RET_SUCCESS)) as [->|Hne]; [by apply Hok|]. by rewrite Hfail. }
  split; [done|]. intros -> x c d Hu En. destruct (Hok eq_refl) as (_ & _ & _ & Hent). destruct (Hent x c) as [H1 H2].
  rewrite (same_users _ _ _ Hs') in Hu. destruct Hu as [u Hu].
  assert (token_user t2 x = Some u) as Hu2 by by rewrite (same_users _ _ _ Hs).
  assert (policy_restricts t' x c = policy_restricts t2 x c) as ->.
  { unfold policy_restricts. by rewrite (same_users _ _ _ (frame_same _ _ F)), (rf_policies _ _ (proj1 F)). }
  destruct (decide (Exists (fun p => u ∈ upc_changedUserList p /\ c = upc_permCode p) ch)) as [(p & Hp & Hin & Ec)%Exists_exists|Hno].
  - rewrite H1 in En by (exists u, p; done). apply fmap_Some in En as (d0 & En & ->). apply is_marked_mark. by eapply mark_u32.
  - assert (~ concerned t2 ch x c) as Hnc.
    { intros (u' & p & Hu' & Hp & Hin & Ec). apply Hno, Exists_exists. exists p. split; [done|]. split; [congruence|done]. }
    rewrite H2 in En by done. rewrite (Hf x c d) by (rewrite ?Hu; done).
    unfold policy_restricts. rewrite Hu, Hu2. symmetry. apply Hc. intros p Hp Ec Hin. apply Hno, Exists_exists. eauto.
Qed.

Lemma refresh_device ch t t2 ret t' :
  refresh_ready t2 -> w_brief (t_world t2) = w_brief (t_world t) -> w_kernel (t_world t2) = w_kernel (t_world t) ->
  RefreshUserPolicyPermState ch t2 = (ret, t') -> stays_in_step t ret t'.
Proof.
  intros Hr2 Eb Ek E Hk x c Hc Hx Hall. unfold in_step in *. destruct (refresh_spec t2 Hr2 ch ret t' E) as (_ & Hfail & _ & Hd).
  rewrite Eb, Ek in *. destruct (Hd Hk) as [H1 H2].
  destruct (decide (ret = RET_SUCCESS)) as [->|Hne]; [apply H1; auto|]. destruct Hall as [|Hb]; [done|].
  intros d En. rewrite Hfail in En by done. rewrite H2; [by apply Hb|done| |done]. intros y c' Hc'. intros d' En'.
  destruct (entry_of_wf _ _ _ _ (eq_rect _ brief_wf (rr_wf _ Hr2) _ Eb) En') as [(_ & Hcc & _) Ec]. rewrite Ec in Hcc.
  apply Hb; [lia|done].
Qed.
(** ** The white list of a policy. *)

(** The records after an entry is added or taken out. *)
Lemma white_list_records ctx recs db ret persist next db' :
  UpdatePolicyWhiteList ctx recs db = (ret, persist, next, db') ->
  (ret <> RET_SUCCESS /\ next = recs) \/
  (ret = RET_SUCCESS /\ (pwl_type ctx = ADD \/ pwl_type ctx = DELETE ->
     forall x u c, ~ (x = pwl_tokenId ctx /\ c = pwl_permCode ctx) ->
       IsPermissionRestricted x u c next = IsPermissionRestricted x u c recs) /\
   (pwl_type ctx = ADD \/ pwl_type ctx = DELETE ->
      IsPermissionRestricted (pwl_tokenId ctx) (pwl_userId ctx) (pwl_permCode ctx) next = (pwl_type ctx =? DELETE))).
Proof.
  unfold UpdatePolicyWhiteList. destruct SUPPORT_MANAGE_USER_POLICY eqn:Sup; cbn [negb]; [|intros [= <- _ <- _]; by left].
  split_if; [intros [= <- _ <- _]; by left|]. unfold ValidatePolicyWhiteListUpdateLocked.
  destruct (recs !! pwl_permCode ctx) as [r|] eqn:R; [|intros [= <- _ <- _]; by left].
  split_if; [intros [= <- _ <- _]; by left|]. split_if; [intros [= <- _ <- _]; by left|].
  apply negb_false_iff, bool_decide_eq_true_1 in E1. set (m := if _ =? ADD then _ else _).
  assert (match m with inl e => e <> RET_SUCCESS | inr r' => r' = r end) as Hm.
  { subst m. repeat (split_if; try done). }
  destruct m as [e|r']; [intros [= <- _ <- _]; by left|]. subst r'.
  destruct (if upr_isPersist r then _ else _) as [e db1]. split_if; [intros [= <- _ <- _]; by left|].
  intros [= <- _ <- _]. right. split; [done|]. unfold IsPermissionRestricted, IsInPolicyWhiteList. rewrite Sup. cbn [negb]. split.
  - intros _ x u c Hne. destruct (decide (c = pwl_permCode ctx)) as [->|Hc]; [|by rewrite lookup_insert_ne].
    rewrite lookup_insert_eq, R. cbn.
    assert (x ∈ (if pwl_type ctx =? ADD then {[pwl_tokenId ctx]} ∪ upr_whiteList r else upr_whiteList r ∖ {[pwl_tokenId ctx]}) <->
            x ∈ upr_whiteList r) as Hw by (split_if; set_solver). by rewrite (bool_decide_ext _ _ Hw).
  - intros [Ht|Ht]; rewrite lookup_insert_eq, Ht; cbn.
    + by rewrite bool_decide_true by set_solver.
    + by rewrite bool_decide_false, bool_decide_true by set_solver.
Qed.

Lemma rollback_white_list ctx t : exists db recs,
  (RollbackPolicyWhiteList ctx t).2 = on_world (fun w => set_db db (set_policies recs w)) t.
Proof.
  unfold RollbackPolicyWhiteList, on_policies, on_managers, mbind, Op_bind, mret, Op_ret.
  destruct (UpdatePolicyWhiteList _ _ _) as [[r recs] db] eqn:E. destruct r. cbn. by exists db, recs.
Qed.

Lemma white_list_follows ctx t ret t' :
  refresh_ready t -> flags_follow t -> pwl_type ctx = ADD \/ pwl_type ctx = DELETE ->
  token_user t (pwl_tokenId ctx) = Some (pwl_userId ctx) ->
  HandlePolicyWhiteListUpdate ctx t = (ret, t') ->
  same_tokens t t' /\ brief_wf (w_brief (t_world t')) /\
  (ret <> RET_SUCCESS -> w_brief (t_world t') = w_brief (t_world t)) /\ (ret = RET_SUCCESS -> flags_follow t') /\
  stays_in_step t ret t'.
Proof.
  intros Hr Hf Hty Hu. unfold HandlePolicyWhiteListUpdate, on_policies, on_managers, mbind, Op_bind, mret, Op_ret.
  destruct (UpdatePolicyWhiteList _ _ _) as [[[e persist] recs] db] eqn:U. cbn [fst snd].
  pose proof (rr_wf _ Hr) as Hw.
  apply white_list_records in U as [[Hne ->]|(-> & Hoth & Hown)].
  { apply Z.eqb_neq in Hne as Hne'. rewrite Hne'. cbn [negb]. intros [= <- <-]. cbn. split_and!; try done. by intros ?. }
  specialize (Hoth Hty). specialize (Hown Hty). cbn [negb Z.eqb RET_SUCCESS t_world]. set (w1 := set_db db _).
  set (x := pwl_tokenId ctx) in *. set (c := pwl_permCode ctx) in *. set (b := pwl_type ctx =? DELETE) in *.
  destruct (UpdateRestrictedFlagAndRefreshKernel x c b (default false persist) w1) as [e w2] eqn:R.
  destruct (entry (w_brief w1) x c) as [d|] eqn:En.
  - destruct (refresh_one x c b _ w1 d _ _ Hw En R) as (F & [(-> & Eb & Ek)|(-> & Eb & Ek)]); clear R.
    + cbn [negb Z.eqb RET_SUCCESS]. intros [= <- <-]. cbn. split_and!; [split; [cbn; by rewrite (rf_haps _ _ F)|done]|..].
      * rewrite Eb. by apply mark_wf.
      * done.
      * intros _ y c' d' Hy En'. cbn in En', Hy. rewrite Eb, entry_mark in En'.
        assert (same_tokens t (mkToolState w2 (t_tools t) (t_tickets t))) as Hs by (split; [cbn; by rewrite (rf_haps _ _ F)|done]).
        unfold policy_restricts. rewrite (same_users _ _ _ Hs) in Hy |- *. cbn [t_world]. rewrite (rf_policies _ _ F). cbn [w1 w_policies set_db set_policies].
        destruct (decide (x = y /\ c = c')) as [[<- <-]|Hd].
        { rewrite Hu, Hown. apply fmap_Some in En' as (d0 & En0 & ->). apply is_marked_mark. by eapply mark_u32. }
        rewrite (Hf y c' d' Hy En'). unfold policy_restricts. destruct Hy as [u ->]. symmetry. apply Hoth. naive_solver.
      * intros Hk y c' Hc' Hy _. unfold in_step. cbn. rewrite Eb, Ek. destruct (mark_bits (w_brief w1) x c b d (w_kernel w1) Hw En Hk) as (_ & _ & H).
        by apply H.
    + cbn [negb Z.eqb RET_SUCCESS ERR_DATABASE_OPERATE_FAILED].
      destruct (rollback_white_list ctx (mkToolState w2 (t_tools t) (t_tickets t))) as (db2 & recs2 & Erb).
      destruct (RollbackPolicyWhiteList _ _) as [[] t3]. cbn in Erb. subst t3. intros [= <- <-]. cbn.
      split_and!; try done; [split; [cbn; by rewrite (rf_haps _ _ F)|done]|by rewrite Eb|].
      intros Hk y c' Hc' Hy _. unfold in_step. cbn. by rewrite Eb, Ek.
  - unfold UpdateRestrictedFlagAndRefreshKernel in R. rewrite query_stored, En in R. injection R as <- <-.
    destruct (rollback_white_list ctx (mkToolState w1 (t_tools t) (t_tickets t))) as (db2 & recs2 & Erb).
    destruct (bool_decide _); cbn [negb Z.eqb RET_SUCCESS ERR_PERMISSION_NOT_EXIST ERR_TOKEN_INVALID t_tools t_tickets].
    all: destruct (RollbackPolicyWhiteList _ _) as [[] t3]; cbn in Erb; subst t3; intros [= <- <-]; cbn; split_and!; try done;
      by intros ?.
Qed.

(** ** A request. *)
Definition followed t ret t' : Prop :=
  same_tokens t t' /\ brief_wf (w_brief (t_world t')) /\
  (ret <> RET_SUCCESS -> w_brief (t_world t') = w_brief (t_world t)) /\ (ret = RET_SUCCESS -> flags_follow t') /\
  stays_in_step t ret t'.

Lemma looked_facts t t1 : looked t t1 -> refresh_ready t -> flags_follow t ->
  same_tokens t t1 /\ refresh_ready t1 /\ flags_follow t1 /\
  forall ret t', stays_in_step t1 ret t' -> stays_in_step t ret t'.
Proof.
  intros (k & -> & Ek & Ho) Hr Hf. assert (same_tokens t (on_world (set_kernel k) t)) as Hs by done. split_and!; [done| |done|].
  - by apply (same_ready t); [|apply Hr|].
  - assert (forall x c, in_step (on_world (set_kernel k) t) x c <-> in_step t x c) as Hi
      by (intros x c; unfold in_step, bit_agrees; cbn; by rewrite Ek).
    intros ret t' H Hk x c Hc Hx Hall. apply (H (Ho Hk)); [done|by apply Hi|]. destruct Hall as [|Hall]; [by left|right].
    intros y c' Hc'. apply Hi. auto.
Qed.

Lemma followed_look t t1 ret t' : looked t t1 -> followed t1 ret t' -> refresh_ready t -> flags_follow t -> followed t ret t'.
Proof.
  intros L (H1 & H2 & H3 & H4 & H5) Hr Hf. destruct (looked_facts t t1 L Hr Hf) as (Hs & _ & _ & Hd).
  assert (w_brief (t_world t1) = w_brief (t_world t)) as Eb by by destruct L as (k & -> & _).
  split_and!; [by etrans|done|by rewrite <- Eb|done|auto].
Qed.

Lemma followed_refused t ret : refresh_ready t -> ret <> RET_SUCCESS -> followed t ret t.
Proof. intros Hr Hne. split_and!; [done|apply Hr|done|done|]. by intros ?. Qed.

(** Policies recorded with their list of changes, then the refresh. *)
Lemma policies_then_refresh f t ret t' : refresh_ready t -> flags_follow t ->
  (forall e ch recs db, f (w_policies (t_world t)) (w_db (t_world t)) = (e, ch, recs, db) ->
     e = RET_SUCCESS -> covers ch (w_policies (t_world t)) recs) ->
  ('(e, ch) ← on_policies f; if negb (e =? RET_SUCCESS) then mret e else RefreshUserPolicyPermState ch : Op S K Z) t = (ret, t') ->
  followed t ret t'.
Proof.
  intros Hr Hf Hc. unfold on_policies, on_managers, mbind, Op_bind, mret, Op_ret.
  destruct (f _ _) as [[[e ch] recs] db] eqn:E. cbn [fst snd]. set (t2 := mkToolState _ _ _).
  assert (same_tokens t t2) as Hs by done. assert (refresh_ready t2) as Hr2 by (apply (same_ready t); [done|apply Hr|done]).
  destruct (Z.eqb_spec e RET_SUCCESS) as [->|Hne]; cbn [negb].
  - intros R. destruct (refresh_follows ch t t2 ret t') as (H1 & H2 & H3 & H4); [done..|by eapply Hc|done|].
    split_and!; try done. by eapply (refresh_device ch t t2).
  - intros [= <- <-]. split_and!; [done|apply Hr|done|done|]. by intros ?.
Qed.

Context (caller : Caller).

Definition serve_policy (r : PolicyRequest) : Op S K Z :=
  match r with
  | ReqSet l => AtmSetUserPolicy caller l
  | ReqClear l => AtmClearUserPolicy caller l
  | ReqWhiteList x code type => AtmUpdatePolicyWhiteList caller x code type
  end.

(** A request on a white list names an application whose data is loaded. *)
Definition names_loaded (r : PolicyRequest) t : Prop :=
  match r with
  | ReqWhiteList x _ _ => IsBinTokenId x = false /\ is_Some (hapTokenInfoMap_ (t_world t) !! x)
  | _ => True
  end.

Lemma policy_request_follows r t ret t' : caller_wf caller -> refresh_ready t -> flags_follow t -> names_loaded r t ->
  serve_policy r t = (ret, t') -> followed t ret t'.
Proof.
  intros Hc Hr Hf Hn. destruct (lacks_caller caller MANAGE_USER_POLICY t Hc) as (t1 & L & E).
  destruct (looked_facts t t1 L Hr Hf) as (Hs & Hr1 & Hf1 & _). set (b := bool_decide _) in E.
  assert (forall e, e <> RET_SUCCESS -> (e, t1) = (ret, t') -> followed t ret t') as Href.
  { intros e He [= <- <-]. eapply followed_look; [exact L|by apply followed_refused|done..]. }
  assert (followed t1 ret t' -> followed t ret t') as Hgo by (intros H; by eapply followed_look).
  destruct r as [l|l|x code type]; cbn [serve_policy].
  - unfold AtmSetUserPolicy. unfold mbind at 1, Op_bind at 1. rewrite E. destruct b; [by apply Href|]. cbv zeta.
    split_if; [by apply Href|]. split_if; [by apply Href|]. intros R. apply Hgo.
    eapply policies_then_refresh; [done..| |exact R]. intros e ch recs db Es ->. by eapply set_covers.
  - unfold AtmClearUserPolicy. unfold mbind at 1, Op_bind at 1. rewrite E. destruct b; [by apply Href|]. cbv zeta.
    split_if; [by apply Href|]. split_if; [by apply Href|]. intros R. apply Hgo.
    eapply policies_then_refresh; [done..| |exact R]. intros e ch recs db Es ->. by eapply clear_covers.
  - unfold AtmUpdatePolicyWhiteList. unfold mbind at 1, Op_bind at 1. rewrite E. destruct b; [by apply Href|].
    split_if; [by apply Href|]. unfold AtmGetTokenType, read_world. unfold mbind at 1, Op_bind at 1. split_if; [by apply Href|].
    split_if; [by apply Href|]. destruct Hn as [Hbin [info Hi]].
    unfold GetHapUserIdByTokenId, on_managers, GetHapTokenInfo, ResolveQueryTokenID, mbind, Op_bind, mret, Op_ret. rewrite Hbin.
    cbn [negb]. rewrite <- (st_haps _ _ Hs) in Hi. rewrite (in_map _ _ _ Hi). intros R. apply Hgo.
    apply orb_false_iff in E0 as [_ Hty%negb_false_iff]. unfold IsUpdateWhiteListTypeValid in Hty.
    apply (white_list_follows (mkPolicyWhiteListUpdateInfo x (hti_userID (tokenInfoBasic_ info)) code type (callingTokenID caller)));
      [done..| | |].
    + cbn. destruct (Z.eqb_spec type ADD); [by left|]. destruct (Z.eqb_spec type DELETE); [by right|done].
    + cbn. unfold token_user. by rewrite Hi.
    + destruct t1. exact R.
Qed.
(** A restricted permission is denied, whoever asks. *)
Lemma restricted_checks t x p code d who : tools_keyed t -> TransferPermissionToOpcode p = Some code ->
  entry (w_brief (t_world t)) x code = Some d -> is_marked d = true ->
  bit_agrees (w_kernel (t_world t)) (w_brief (t_world t)) x code ->
  GetTokenIdTypeEnum x = TOKEN_HAP \/ IsToolToken x (t_tools t) = true ->
  (AtmVerifyAccessToken who x p t).1 = PERMISSION_DENIED.
Proof.
  intros Hk T En Hm Hb Hx. pose proof (restricted_denied _ _ _ _ En Hm) as Hv. unfold AtmVerifyAccessToken.
  destruct (IsToolToken x (t_tools t)) eqn:Et.
  { unfold VerifyToolAccessToken. destruct (toolTokenInfoMap (t_tools t) !! x) as [i|] eqn:Ei; [|done].
    rewrite (Hk _ _ Ei). cbn. unfold VerifyPermissionStatus. by rewrite T. }
  destruct Hx as [Hx|]; [|done]. unfold on_managers, VerifyAccessToken. repeat (split_if; [done|]).
  destruct (GetPermissionFromKernelCache _ _ _) as [r w'] eqn:G. apply kernel_cache in G as (k & -> & _ & _ & Hr).
  assert (dev_granted (w_kernel (t_world t)) x code = false) as Hd.
  { rewrite (Hb _ En), kernel_status_bits. unfold is_marked in Hm. by rewrite Hm. }
  destruct r as [s|]; cbn [fst].
  - destruct (Z.eq_dec s PERMISSION_DENIED) as [->|Hs]; [done|]. destruct (Hr s eq_refl Hs) as (code' & T' & Hg). congruence.
  - assert (GetTokenIdType x (w_ids (t_world t)) = TOKEN_HAP \/ GetTokenIdType x (w_ids (t_world t)) = TOKEN_INVALID) as [-> | ->]
      by (unfold GetTokenIdType; rewrite Hx; case_bool_decide; auto); cbn; [|done].
    unfold HapVerifyPermissionStatus, VerifyPermissionStatus. by rewrite T.
Qed.

End Follow.

(** ** Histories of requests. *)
Section History.
Context {PT : PermTable} `{!PermTableLaws PT} {BC : BuildConfig} {VE : VerifyEnv} {OA : OsAccount} {CC : ClawConfig} {AF : AgentFence} {JT : JsonText}.
Context {SE : ServiceEnv} {S K : Type} `{!AtmDb S} `{!TokenDevice K} `{!TokenDeviceLaws K} `{!TokenDeviceHealth K}.
Implicit Types (t : ToolState S K).

(** What other requests may do in between: anything that keeps the policies and the restriction
    flag of the entries of known tokens, and gives new entries the flag the policies ask for. *)
Definition leaves_policies t t' : Prop :=
  refresh_ready t' /\ w_policies (t_world t') = w_policies (t_world t) /\
  forall x c d', is_Some (token_user t' x) -> entry (w_brief (t_world t')) x c = Some d' ->
    is_marked d' = policy_restricts t' x c \/
    (token_user t' x = token_user t x /\ exists d, entry (w_brief (t_world t)) x c = Some d /\ is_marked d' = is_marked d).

(** A policy request that succeeds or, when it fails, has recorded no policy. *)
Inductive policy_step : ToolState S K -> ToolState S K -> Prop :=
  | ps_request caller r t ret t' : caller_wf caller -> names_loaded r t -> serve_policy caller r t = (ret, t') ->
      ret = RET_SUCCESS \/ w_policies (t_world t') = w_policies (t_world t) -> policy_step t t'
  | ps_other t t' : leaves_policies t t' -> policy_step t t'.

(** No policy is recorded and no entry carries the flag. *)
Definition no_restrictions t : Prop :=
  refresh_ready t /\ w_policies (t_world t) = ∅ /\
  map_Forall (fun _ l => Forall (fun d => is_marked d = false) l) (requestedPermData_ (w_brief (t_world t))).

Lemma unrestricted_follow t : no_restrictions t -> flags_follow t.
Proof.
  intros (_ & Hp & Hm) x c d _ En. unfold entry in En. apply bind_Some in En as (l & El & [Hin _]%find_if_Some).
  rewrite (proj1 (Forall_forall _ _) (Hm _ _ El) _ Hin). unfold policy_restricts, IsPermissionRestricted.
  destruct (token_user t x); [|done]. by rewrite Hp, lookup_empty; destruct (negb _).
Qed.

Lemma policy_step_follows t t' : policy_step t t' -> refresh_ready t -> flags_follow t -> refresh_ready t' /\ flags_follow t'.
Proof.
  intros [caller r t1 ret t1' Hc Hn E Hok|t1 t1' (Hr' & Ep & He)] Hr Hf.
  - destruct (policy_request_follows caller r t1 ret t1' Hc Hr Hf Hn E) as (Hs & Hw & Hfail & Hsucc & _).
    split; [by apply (same_ready t1)|]. destruct (decide (ret = RET_SUCCESS)) as [|Hne]; [by apply Hsucc|].
    destruct Hok as [|Ep]; [done|]. intros x c d Hu En. rewrite Hfail in En by done. unfold policy_restricts.
    rewrite (same_users _ _ _ Hs) in Hu |- *. rewrite Ep. by apply Hf.
  - split; [done|]. intros x c d Hu En. destruct (He x c d Hu En) as [|(Eu & d0 & En0 & ->)]; [done|].
    unfold policy_restricts. rewrite Eu in Hu |- *. rewrite Ep. by apply Hf.
Qed.

Lemma policy_steps_follow t t' : rtc policy_step t t' -> refresh_ready t -> flags_follow t -> refresh_ready t' /\ flags_follow t'.
Proof. induction 1 as [|t1 t2 t3 Hs _ IH]; [done|]. intros Hr Hf. destruct (policy_step_follows _ _ Hs Hr Hf). auto. Qed.

(** C4: the restrictions follow the policies.  Take a state without policies and without
    restriction flags, and any history of requests that set a policy, clear it or change its
    white list, from any callers, each of which succeeds or fails without recording a policy
    (a white-list request names an application whose data is in memory), interleaved with any
    other changes that keep the policies and the restriction flags of known tokens and give
    new entries the flag the policies ask for.  Then, for one more such request: when it
    succeeds, every permission of every application and command-line token carries the
    restriction flag exactly when the recorded policies restrict it for the user of the token
    and the white list does not exempt the token, whatever the number of users, tokens and
    permissions the request changes; and, if the device answers and was in step with the store
    for a restricted permission, the service denies that permission whoever asks.  When the
    request fails, the permission store is as it was.  While the device answers, it stays in
    step with the store: entry by entry when the request succeeds, and when it fails provided
    that all of it was in step. *)
Theorem policy_flags_follow caller (r : PolicyRequest) t0 t ret t' :
  no_restrictions t0 -> rtc policy_step t0 t -> caller_wf caller -> names_loaded r t -> serve_policy caller r t = (ret, t') ->
  refresh_ready t' /\ (ret <> RET_SUCCESS -> w_brief (t_world t') = w_brief (t_world t)) /\
  stays_in_step t ret t' /\
  (ret = RET_SUCCESS -> flags_follow t' /\
     forall who x p code, dev_ok (w_kernel (t_world t)) -> TransferPermissionToOpcode p = Some code -> in_step t x code ->
        is_Some (entry (w_brief (t_world t')) x code) -> policy_restricts t' x code = true ->
        GetTokenIdTypeEnum x = TOKEN_HAP \/ IsToolToken x (t_tools t') = true ->
        (AtmVerifyAccessToken who x p t').1 = PERMISSION_DENIED).
Proof.
  intros H0 Hh Hc Hn E. destruct (policy_steps_follow _ _ Hh) as [Hr Hf]; [apply H0|by apply unrestricted_follow|].
  destruct (policy_request_follows caller r t ret t' Hc Hr Hf Hn E) as (Hs & Hw & Hfail & Hok & Hdev).
  assert (refresh_ready t') as Hr' by by apply (same_ready t). split_and!; try done. intros Hret. split; [by apply Hok|].
  intros who x p code Hd T Hin [d En] Hres Hx. pose proof (opcode_u16 _ _ T) as Hcode.
  eapply restricted_checks; [apply Hr'|done|done| |apply Hdev; [done|lia|done|by left]|done].
  rewrite (Hok Hret x code d); [done| |done]. unfold policy_restricts in Hres. by destruct (token_user t' x).
Qed.
End History.

(** ** The camera of user 100. *)
#[local] Existing Instances service_table service_table_laws full_config sample_verify sample_accounts sample_claw sample_fence sample_text service_env.

Section Samples.
Definition camera_entries : list BriefPermData :=
  [mkBriefPermData PERMISSION_GRANTED 0 0 1; mkBriefPermData PERMISSION_GRANTED 0 4 4].

Lemma camera_store : w_brief (t_world camera_by_user.2) = mkBrief {[app_token := camera_entries]} ∅ [].
Proof. vm_compute. reflexivity. Qed.

Lemma camera_haps : exists info, hapTokenInfoMap_ (t_world camera_by_user.2) = {[app_token := info]} /\
  hti_tokenID (tokenInfoBasic_ info) = app_token /\ hti_userID (tokenInfoBasic_ info) = 100.
Proof. eexists. split; [vm_compute; reflexivity|]. split; vm_compute; reflexivity. Qed.

Lemma camera_tools : toolTokenInfoMap (t_tools camera_by_user.2) = ∅.
Proof. vm_compute. reflexivity. Qed.

Lemma camera_policies : w_policies (t_world camera_by_user.2) = ∅.
Proof. vm_compute. reflexivity. Qed.

Lemma camera_ready : refresh_ready camera_by_user.2.
Proof.
  destruct camera_haps as (info & Eh & Eid & _). split.
  - rewrite camera_store. split_and!.
    + cbn [requestedPermData_]. unfold requested_wf. rewrite map_Forall_singleton. split; [unfold is_u32, app_token; lia|]. split; [apply (bool_decide_eq_true_1 _ (Decision0 := NoDup_dec _)); vm_compute; reflexivity|].
      rewrite Forall_forall. intros d [->|[->| []%elem_of_nil]%elem_of_cons]%elem_of_cons.
      all: split; [left; reflexivity|]; split; [change MAX_PERM_SIZE with 8; cbn [bpd_permCode]; lia|].
      all: split; [unfold is_u32; cbn [bpd_flag]; lia|vm_compute; reflexivity].
    + split; constructor.
    + apply map_Forall_empty.
  - unfold keyed. rewrite Eh. intros id i [<- <-]%lookup_singleton_Some. exact Eid.
  - intros id i. rewrite camera_tools, lookup_empty. intros [=].
  - intros x. rewrite camera_tools, lookup_empty. intros [? [=]].
Qed.

Lemma camera_unrestricted : no_restrictions camera_by_user.2.
Proof.
  split; [apply camera_ready|]. split; [apply camera_policies|]. rewrite camera_store. cbn [requestedPermData_].
  apply map_Forall_singleton. rewrite Forall_forall.
  intros d [->|[->| []%elem_of_nil]%elem_of_cons]%elem_of_cons; vm_compute; reflexivity.
Qed.

Definition camera_forbidden : Z * ToolState MemRdb MemDevice := AtmSetUserPolicy manager_caller no_camera camera_by_user.2.
Definition camera_again : Z * ToolState MemRdb MemDevice := AtmSetUserPolicy manager_caller no_camera camera_forbidden.2.

(** The camera is forbidden, and then forbidden again. *)
Lemma policy_flags_follow_witness :
  camera_check camera_by_user.2 = PERMISSION_GRANTED /\ camera_forbidden.1 = RET_SUCCESS /\ camera_again.1 = RET_SUCCESS /\
  camera_check camera_again.2 = PERMISSION_DENIED.
Proof.
  split; [vm_compute; reflexivity|]. split; [vm_compute; reflexivity|]. split; [vm_compute; reflexivity|].
  destruct (policy_flags_follow manager_caller (ReqSet no_camera) camera_by_user.2 camera_forbidden.2 camera_again.1 camera_again.2)
    as (_ & _ & _ & H).
  - apply camera_unrestricted.
  - apply rtc_once, (ps_request manager_caller (ReqSet no_camera) _ camera_forbidden.1); [vm_compute; reflexivity|exact I|apply surjective_pairing|].
    left. vm_compute. reflexivity.
  - vm_compute. reflexivity.
  - exact I.
  - apply surjective_pairing.
  - destruct H as [_ H]; [vm_compute; reflexivity|]. unfold camera_check. apply (H app_caller app_token CAMERA 0).
    + change (md_errors (w_kernel (t_world camera_forbidden.2)) = []). vm_compute. reflexivity.
    + vm_compute. reflexivity.
    + intros d En. vm_compute in En. injection En as <-. vm_compute. reflexivity.
    + vm_compute. eexists. reflexivity.
    + vm_compute. reflexivity.
    + left. vm_compute. reflexivity.
Defined.

(** The policy is recorded, then the database fails while the flags are refreshed. *)
Definition policy_failed : Z * ToolState MemRdb MemDevice :=
  AtmSetUserPolicy manager_caller no_camera (with_faults [0; 0; 1] camera_by_user.2).
(** The same request again, with the database working. *)
Definition policy_retried : Z * ToolState MemRdb MemDevice := AtmSetUserPolicy manager_caller no_camera policy_failed.2.

(** A user policy whose refresh fails is recorded and never applied.  The request to forbid
    the camera to a user returns an error, and the flags are rolled back; the policy itself is
    not.  The same request again finds the user already listed, so its list of changes is
    empty, and it answers success: the policy says restricted, and the service still grants
    the camera. *)
Theorem failed_policy_never_applied :
  policy_failed.1 = ERR_DATABASE_OPERATE_FAILED /\
  policy_retried.1 = RET_SUCCESS /\ mem_faults (w_db (t_world policy_failed.2)) = [] /\
  IsPermissionRestricted app_token 100 0 (w_policies (t_world policy_retried.2)) = true /\
  camera_check policy_retried.2 = PERMISSION_GRANTED.
Proof. split_and!; vm_compute; reflexivity. Qed.

(** The camera granted by a security component when the policy forbids it. *)
Definition component_policy : Z * ToolState MemRdb MemDevice := AtmSetUserPolicy manager_caller no_camera camera_by_component.2.

(** A grant of a security component survives a user policy.  The component's grant sets the
    bit of the device and leaves the stored status denied.  The policy then marks the entry
    restricted, but clears the bit only when the stored status was granted: the request
    succeeds, the store denies the camera, and the service, which asks the device first, still
    grants it. *)
Theorem component_grant_survives_policy :
  camera_by_component.1 = RET_SUCCESS /\ component_policy.1 = RET_SUCCESS /\
  IsPermissionRestricted app_token 100 0 (w_policies (t_world component_policy.2)) = true /\
  VerifyPermissionStatus app_token CAMERA (w_brief (t_world component_policy.2)) = PERMISSION_DENIED /\
  camera_check component_policy.2 = PERMISSION_GRANTED.
Proof. split_and!; vm_compute; reflexivity. Qed.
End Samples.
