(* ===== verification/PrivacyTypes.v ===== *)
(** * Shared data of the privacy manager

    services/privacymanager/include/common/constant.h and src/common/constant.cpp with the
    headers under interfaces/innerkits/privacy/include: the codes of the permissions whose
    use is recorded, the error codes, and the structures of a use. *)

From stdpp Require Import base gmap list strings.
From S2P Require Import Prelude.
#[local] Open Scope string_scope.
#[local] Open Scope list_scope.
#[local] Open Scope Z_scope.
#[local] Open Scope cxx_scope.

(** ** privacy_error.h.  The numbers differ from those of the access token manager. *)
Definition ERR_PERMISSION_DENIED : Z := 201.
Definition ERR_NOT_SYSTEM_APP : Z := 202.
Definition ERR_PARAM_INVALID : Z := 13100001.
Definition ERR_TOKENID_NOT_EXIST : Z := 13100002.
Definition ERR_PERMISSION_NOT_EXIST : Z := 13100003.
Definition ERR_CALLBACKS_EXCEED_LIMITATION : Z := 13100004.
Definition ERR_IDENTITY_CHECK_FAILED : Z := 13100005.
Definition ERR_SERVICE_ABNORMAL : Z := 13100006.
Definition ERR_MALLOC_FAILED : Z := 13100007.
Definition ERR_OVERSIZE : Z := 13100008.
Definition ERROR_IPC_REQUEST_FAIL : Z := 13100009.
Definition ERR_READ_PARCEL_FAILED : Z := 13100010.
Definition ERR_WRITE_PARCEL_FAILED : Z := 13100011.
Definition ERR_CALLBACK_ALREADY_EXIST : Z := 13100012.
Definition ERR_CALLBACK_NOT_EXIST : Z := 13100013.
Definition ERR_PERMISSION_ALREADY_START_USING : Z := 13100014.
Definition ERR_PERMISSION_NOT_START_USING : Z := 13100015.
Definition ERR_FILE_OPERATE_FAILED : Z := 13100016.
Definition ERR_WINDOW_CALLBACK_FAILED : Z := 13100017.
Definition ERR_EDM_POLICY_CHECK_FAILED : Z := 13100018.
Definition ERR_PRIVACY_POLICY_CHECK_FAILED : Z := 13100019.
Definition ERR_REMOTE_CONNECTION : Z := 13100020.
Definition ERR_FIRST_CALLER_NOT_EDM : Z := 13100021.
Definition ERR_ADD_DEATH_RECIPIENT_FAILED : Z := 13100022.
Definition ERR_PRIVACY_TOGGELE_RESTRICTED : Z := 13100023.
Definition ERR_PERMISSION_NOT_SUPPORT : Z := 13100024.
Definition ERR_DATABASE_OPERATE_FAILED : Z := 13100025.
Definition ERR_REMOTE_USING_CONFLICT : Z := 13100026.
Definition ERR_PERMISSION_USED_RECORD_SUBPROFILE_NOT_EXIST : Z := 13100027.
Definition ERR_PERMISSION_USED_RECORD_STORAGE_MODE_CONFLICT : Z := 13100028.
Definition ERR_PERMISSION_USED_RECORD_LEGACY_QUERY_CONFLICT : Z := 13100029.
Definition ERR_CAPABILITY_NOT_SUPPORT : Z := 13110000.

Definition SUCCESS : Z := 0.
Definition FAILURE : Z := -1.

(** ** [Constant::OpCode]. *)
Definition OP_INVALID : Z := -1.
Definition OP_ANSWER_CALL : Z := 0.
Definition OP_READ_CALENDAR : Z := 1.
Definition OP_WRITE_CALENDAR : Z := 2.
Definition OP_SEND_MESSAGES : Z := 3.
Definition OP_WRITE_CALL_LOG : Z := 4.
Definition OP_READ_CALL_LOG : Z := 5.
Definition OP_READ_CELL_MESSAGES : Z := 6.
Definition OP_MICROPHONE : Z := 7.
Definition OP_RECEIVE_WAP_MESSAGES : Z := 8.
Definition OP_RECEIVE_SMS : Z := 9.
Definition OP_RECEIVE_MMS : Z := 10.
Definition OP_READ_MESSAGES : Z := 11.
Definition OP_READ_CONTACTS : Z := 12.
Definition OP_WRITE_CONTACTS : Z := 13.
Definition OP_LOCATION_IN_BACKGROUND : Z := 14.
Definition OP_LOCATION : Z := 15.
Definition OP_MEDIA_LOCATION : Z := 16.
Definition OP_APPROXIMATELY_LOCATION : Z := 17.
Definition OP_CAMERA : Z := 18.
Definition OP_READ_MEDIA : Z := 19.
Definition OP_WRITE_MEDIA : Z := 20.
Definition OP_ACTIVITY_MOTION : Z := 21.
Definition OP_READ_HEALTH_DATA : Z := 22.
Definition OP_MANAGE_VOICEMAIL : Z := 23.
Definition OP_DISTRIBUTED_DATASYNC : Z := 24.
Definition OP_READ_IMAGEVIDEO : Z := 25.
Definition OP_READ_AUDIO : Z := 26.
Definition OP_READ_DOCUMENT : Z := 27.
Definition OP_WRITE_IMAGEVIDEO : Z := 28.
Definition OP_WRITE_AUDIO : Z := 29.
Definition OP_WRITE_DOCUMENT : Z := 30.
Definition OP_READ_WHOLE_CALENDAR : Z := 31.
Definition OP_WRITE_WHOLE_CALENDAR : Z := 32.
Definition OP_APP_TRACKING_CONSENT : Z := 33.
Definition OP_GET_INSTALLED_BUNDLE_LIST : Z := 34.
Definition OP_ACCESS_BLUETOOTH : Z := 35.
Definition OP_READ_PASTEBOARD : Z := 36.
Definition OP_READ_WRITE_DOWNLOAD_DIRECTORY : Z := 37.
Definition OP_READ_WRITE_DOCUMENTS_DIRECTORY : Z := 38.
Definition OP_READ_WRITE_DESKTOP_DIRECTORY : Z := 39.
Definition OP_ACCESS_NEARLINK : Z := 40.
Definition OP_CAPTURE_SCREEN : Z := 41.
Definition SHORT_TERM_WRITE_IMAGEVIDEO : Z := 42.
Definition CAMERA_BACKGROUND : Z := 43.
Definition OP_CUSTOM_SCREEN_CAPTURE : Z := 44.
Definition OP_CUSTOM_SCREEN_RECORDING : Z := 45.
Definition OP_HOOK_KEY_EVENT : Z := 46.
Definition OP_ACCESS_USER_FULL_DISK : Z := 47.
Definition OP_CONTROL_DEVICE : Z := 48.
Definition OP_FLOAT_VIEW : Z := 49.
Definition OP_CLI_CONTROL_LOCATION_SWITCH : Z := 50.
Definition OP_CLI_BUNDLE_ACTIVE_INFO : Z := 51.
Definition OP_CLI_WRITE_ACCESSIBILITY_CONFIG_VISION : Z := 52.
Definition OP_CLI_WRITE_ACCESSIBILITY_CONFIG_HEARING : Z := 53.
Definition OP_CLI_WRITE_ACCESSIBILITY_CONFIG_ACTION : Z := 54.
Definition OP_CLI_SET_HOTSPOT : Z := 55.
Definition OP_CLI_GET_HOTSPOT : Z := 56.
Definition OP_CLI_NFC_SWITCH : Z := 57.
Definition OP_CLI_MANAGE_WIFI_TOGGLE : Z := 58.
Definition OP_CLI_MANAGE_WIFI_SCAN : Z := 59.
Definition OP_CLI_MANAGE_WIFI_CONNECT : Z := 60.
Definition OP_CLI_UNINSTALL_BUNDLE : Z := 61.
Definition OP_CLI_GET_BUNDLE_INFO_PRIVILEGED : Z := 62.
Definition OP_CLI_REMOVE_BUNDLE_DATA_AND_CACHE_FILES : Z := 63.
Definition OP_CLI_MANAGE_DISPOSED_APP_STATUS : Z := 64.
Definition OP_AGENT_FILE_ACCESS : Z := 65.
Definition OP_ONSCREEN_AWARENESS : Z := 66.
Definition OP_CLI_INSTALL_BUNDLE : Z := 67.
Definition OP_GET_ALL_BUNDLE_INFO : Z := 68.
Definition OP_READ_WRITE_DOWNLOAD_DIRECTORY_MEDIA_READ : Z := 100.
Definition OP_READ_WRITE_DOWNLOAD_DIRECTORY_MEDIA_WRITE : Z := 101.
Definition OP_READ_WRITE_DOWNLOAD_DIRECTORY_OTHER_READ : Z := 102.
Definition OP_READ_WRITE_DOWNLOAD_DIRECTORY_OTHER_WRITE : Z := 103.
Definition OP_READ_WRITE_DOCUMENTS_DIRECTORY_MEDIA_READ : Z := 104.
Definition OP_READ_WRITE_DOCUMENTS_DIRECTORY_MEDIA_WRITE : Z := 105.
Definition OP_READ_WRITE_DOCUMENTS_DIRECTORY_OTHER_READ : Z := 106.
Definition OP_READ_WRITE_DOCUMENTS_DIRECTORY_OTHER_WRITE : Z := 107.
Definition OP_READ_WRITE_DESKTOP_DIRECTORY_MEDIA_READ : Z := 108.
Definition OP_READ_WRITE_DESKTOP_DIRECTORY_MEDIA_WRITE : Z := 109.
Definition OP_READ_WRITE_DESKTOP_DIRECTORY_OTHER_READ : Z := 110.
Definition OP_READ_WRITE_DESKTOP_DIRECTORY_OTHER_WRITE : Z := 111.
Definition OP_ACCESS_USER_FULL_DISK_READ : Z := 112.
Definition OP_ACCESS_USER_FULL_DISK_WRITE : Z := 113.
Definition OP_AGENT_FILE_ACCESS_READ_IMAGEVIDEO : Z := 114.
Definition OP_AGENT_FILE_ACCESS_WRITE_IMAGEVIDEO : Z := 115.
Definition OP_AGENT_FILE_ACCESS_READ_AUDIO : Z := 116.
Definition OP_AGENT_FILE_ACCESS_WRITE_AUDIO : Z := 117.
Definition OP_AGENT_FILE_ACCESS_READ_MEDIA : Z := 118.
Definition OP_AGENT_FILE_ACCESS_WRITE_MEDIA : Z := 119.
Definition OP_DVRCAMERA : Z := 120.

(** [Constant::PERMISSION_OPCODE_MAP]. *)
Definition PERMISSION_OPCODE_MAP : list (string * Z) := [
  ("ohos.permission.ANSWER_CALL", OP_ANSWER_CALL);
  ("ohos.permission.READ_CALENDAR", OP_READ_CALENDAR);
  ("ohos.permission.READ_CALL_LOG", OP_READ_CALL_LOG);
  ("ohos.permission.READ_CELL_MESSAGES", OP_READ_CELL_MESSAGES);
  ("ohos.permission.READ_CONTACTS", OP_READ_CONTACTS);
  ("ohos.permission.READ_MESSAGES", OP_READ_MESSAGES);
  ("ohos.permission.RECEIVE_MMS", OP_RECEIVE_MMS);
  ("ohos.permission.RECEIVE_SMS", OP_RECEIVE_SMS);
  ("ohos.permission.RECEIVE_WAP_MESSAGES", OP_RECEIVE_WAP_MESSAGES);
  ("ohos.permission.MICROPHONE", OP_MICROPHONE);
  ("ohos.permission.SEND_MESSAGES", OP_SEND_MESSAGES);
  ("ohos.permission.WRITE_CALENDAR", OP_WRITE_CALENDAR);
  ("ohos.permission.WRITE_CALL_LOG", OP_WRITE_CALL_LOG);
  ("ohos.permission.WRITE_CONTACTS", OP_WRITE_CONTACTS);
  ("ohos.permission.DISTRIBUTED_DATASYNC", OP_DISTRIBUTED_DATASYNC);
  ("ohos.permission.MANAGE_VOICEMAIL", OP_MANAGE_VOICEMAIL);
  ("ohos.permission.LOCATION_IN_BACKGROUND", OP_LOCATION_IN_BACKGROUND);
  ("ohos.permission.LOCATION", OP_LOCATION);
  ("ohos.permission.APPROXIMATELY_LOCATION", OP_APPROXIMATELY_LOCATION);
  ("ohos.permission.cli.CONTROL_LOCATION_SWITCH", OP_CLI_CONTROL_LOCATION_SWITCH);
  ("ohos.permission.cli.SET_HOTSPOT", OP_CLI_SET_HOTSPOT);
  ("ohos.permission.cli.GET_HOTSPOT", OP_CLI_GET_HOTSPOT);
  ("ohos.permission.cli.MANAGE_WIFI_TOGGLE", OP_CLI_MANAGE_WIFI_TOGGLE);
  ("ohos.permission.cli.MANAGE_WIFI_SCAN", OP_CLI_MANAGE_WIFI_SCAN);
  ("ohos.permission.cli.MANAGE_WIFI_CONNECT", OP_CLI_MANAGE_WIFI_CONNECT);
  ("ohos.permission.cli.MANAGE_NFC_SWITCH", OP_CLI_NFC_SWITCH);
  ("ohos.permission.MEDIA_LOCATION", OP_MEDIA_LOCATION);
  ("ohos.permission.CAMERA", OP_CAMERA);
  ("ohos.permission.READ_MEDIA", OP_READ_MEDIA);
  ("ohos.permission.WRITE_MEDIA", OP_WRITE_MEDIA);
  ("ohos.permission.ACTIVITY_MOTION", OP_ACTIVITY_MOTION);
  ("ohos.permission.READ_HEALTH_DATA", OP_READ_HEALTH_DATA);
  ("ohos.permission.READ_IMAGEVIDEO", OP_READ_IMAGEVIDEO);
  ("ohos.permission.READ_AUDIO", OP_READ_AUDIO);
  ("ohos.permission.READ_DOCUMENT", OP_READ_DOCUMENT);
  ("ohos.permission.WRITE_IMAGEVIDEO", OP_WRITE_IMAGEVIDEO);
  ("ohos.permission.WRITE_AUDIO", OP_WRITE_AUDIO);
  ("ohos.permission.WRITE_DOCUMENT", OP_WRITE_DOCUMENT);
  ("ohos.permission.READ_WHOLE_CALENDAR", OP_READ_WHOLE_CALENDAR);
  ("ohos.permission.WRITE_WHOLE_CALENDAR", OP_WRITE_WHOLE_CALENDAR);
  ("ohos.permission.APP_TRACKING_CONSENT", OP_APP_TRACKING_CONSENT);
  ("ohos.permission.GET_INSTALLED_BUNDLE_LIST", OP_GET_INSTALLED_BUNDLE_LIST);
  ("ohos.permission.ACCESS_BLUETOOTH", OP_ACCESS_BLUETOOTH);
  ("ohos.permission.READ_PASTEBOARD", OP_READ_PASTEBOARD);
  ("ohos.permission.READ_WRITE_DOWNLOAD_DIRECTORY", OP_READ_WRITE_DOWNLOAD_DIRECTORY);
  ("ohos.permission.READ_WRITE_DOCUMENTS_DIRECTORY", OP_READ_WRITE_DOCUMENTS_DIRECTORY);
  ("ohos.permission.READ_WRITE_DESKTOP_DIRECTORY", OP_READ_WRITE_DESKTOP_DIRECTORY);
  ("ohos.permission.ACCESS_NEARLINK", OP_ACCESS_NEARLINK);
  ("ohos.permission.CAPTURE_SCREEN", OP_CAPTURE_SCREEN);
  ("ohos.permission.SHORT_TERM_WRITE_IMAGEVIDEO", SHORT_TERM_WRITE_IMAGEVIDEO);
  ("ohos.permission.CAMERA_BACKGROUND", CAMERA_BACKGROUND);
  ("ohos.permission.CUSTOM_SCREEN_CAPTURE", OP_CUSTOM_SCREEN_CAPTURE);
  ("ohos.permission.HOOK_KEY_EVENT", OP_HOOK_KEY_EVENT);
  ("ohos.permission.CONTROL_DEVICE", OP_CONTROL_DEVICE);
  ("ohos.permission.FLOAT_VIEW", OP_FLOAT_VIEW);
  ("ohos.permission.AGENT_FILE_ACCESS", OP_AGENT_FILE_ACCESS);
  ("ohos.permission.READ_WRITE_DOWNLOAD_DIRECTORY_MEDIA_READ", OP_READ_WRITE_DOWNLOAD_DIRECTORY_MEDIA_READ);
  ("ohos.permission.READ_WRITE_DOWNLOAD_DIRECTORY_MEDIA_WRITE", OP_READ_WRITE_DOWNLOAD_DIRECTORY_MEDIA_WRITE);
  ("ohos.permission.READ_WRITE_DOWNLOAD_DIRECTORY_OTHER_READ", OP_READ_WRITE_DOWNLOAD_DIRECTORY_OTHER_READ);
  ("ohos.permission.READ_WRITE_DOWNLOAD_DIRECTORY_OTHER_WRITE", OP_READ_WRITE_DOWNLOAD_DIRECTORY_OTHER_WRITE);
  ("ohos.permission.READ_WRITE_DOCUMENTS_DIRECTORY_MEDIA_READ", OP_READ_WRITE_DOCUMENTS_DIRECTORY_MEDIA_READ);
  ("ohos.permission.READ_WRITE_DOCUMENTS_DIRECTORY_MEDIA_WRITE", OP_READ_WRITE_DOCUMENTS_DIRECTORY_MEDIA_WRITE);
  ("ohos.permission.READ_WRITE_DOCUMENTS_DIRECTORY_OTHER_READ", OP_READ_WRITE_DOCUMENTS_DIRECTORY_OTHER_READ);
  ("ohos.permission.READ_WRITE_DOCUMENTS_DIRECTORY_OTHER_WRITE", OP_READ_WRITE_DOCUMENTS_DIRECTORY_OTHER_WRITE);
  ("ohos.permission.READ_WRITE_DESKTOP_DIRECTORY_MEDIA_READ", OP_READ_WRITE_DESKTOP_DIRECTORY_MEDIA_READ);
  ("ohos.permission.ACCESS_USER_FULL_DISK", OP_ACCESS_USER_FULL_DISK);
  ("ohos.permission.READ_WRITE_DESKTOP_DIRECTORY_MEDIA_WRITE", OP_READ_WRITE_DESKTOP_DIRECTORY_MEDIA_WRITE);
  ("ohos.permission.READ_WRITE_DESKTOP_DIRECTORY_OTHER_READ", OP_READ_WRITE_DESKTOP_DIRECTORY_OTHER_READ);
  ("ohos.permission.READ_WRITE_DESKTOP_DIRECTORY_OTHER_WRITE", OP_READ_WRITE_DESKTOP_DIRECTORY_OTHER_WRITE);
  ("ohos.permission.CUSTOM_SCREEN_RECORDING", OP_CUSTOM_SCREEN_RECORDING);
  ("ohos.permission.ACCESS_USER_FULL_DISK_READ", OP_ACCESS_USER_FULL_DISK_READ);
  ("ohos.permission.ACCESS_USER_FULL_DISK_WRITE", OP_ACCESS_USER_FULL_DISK_WRITE);
  ("ohos.permission.cli.BUNDLE_ACTIVE_INFO", OP_CLI_BUNDLE_ACTIVE_INFO);
  ("ohos.permission.cli.WRITE_ACCESSIBILITY_CONFIG_VISION", OP_CLI_WRITE_ACCESSIBILITY_CONFIG_VISION);
  ("ohos.permission.cli.WRITE_ACCESSIBILITY_CONFIG_HEARING", OP_CLI_WRITE_ACCESSIBILITY_CONFIG_HEARING);
  ("ohos.permission.cli.WRITE_ACCESSIBILITY_CONFIG_ACTION", OP_CLI_WRITE_ACCESSIBILITY_CONFIG_ACTION);
  ("ohos.permission.cli.UNINSTALL_BUNDLE", OP_CLI_UNINSTALL_BUNDLE);
  ("ohos.permission.cli.GET_BUNDLE_INFO_PRIVILEGED", OP_CLI_GET_BUNDLE_INFO_PRIVILEGED);
  ("ohos.permission.cli.REMOVE_BUNDLE_DATA_AND_CACHE_FILES", OP_CLI_REMOVE_BUNDLE_DATA_AND_CACHE_FILES);
  ("ohos.permission.cli.MANAGE_DISPOSED_APP_STATUS", OP_CLI_MANAGE_DISPOSED_APP_STATUS);
  ("ohos.permission.cli.INSTALL_BUNDLE", OP_CLI_INSTALL_BUNDLE);
  ("ohos.permission.ONSCREEN_AWARENESS", OP_ONSCREEN_AWARENESS);
  ("ohos.permission.AGENT_FILE_ACCESS_READ_IMAGEVIDEO", OP_AGENT_FILE_ACCESS_READ_IMAGEVIDEO);
  ("ohos.permission.AGENT_FILE_ACCESS_WRITE_IMAGEVIDEO", OP_AGENT_FILE_ACCESS_WRITE_IMAGEVIDEO);
  ("ohos.permission.AGENT_FILE_ACCESS_READ_AUDIO", OP_AGENT_FILE_ACCESS_READ_AUDIO);
  ("ohos.permission.AGENT_FILE_ACCESS_WRITE_AUDIO", OP_AGENT_FILE_ACCESS_WRITE_AUDIO);
  ("ohos.permission.AGENT_FILE_ACCESS_READ_MEDIA", OP_AGENT_FILE_ACCESS_READ_MEDIA);
  ("ohos.permission.AGENT_FILE_ACCESS_WRITE_MEDIA", OP_AGENT_FILE_ACCESS_WRITE_MEDIA);
  ("ohos.permission.GET_ALL_BUNDLE_INFO", OP_GET_ALL_BUNDLE_INFO);
  ("ohos.permission.DVRCAMERA", OP_DVRCAMERA)].

Definition TransferPermissionToOpcode (permissionName : string) : option Z :=
  snd <$> find_if (fun item : string * Z => String.eqb item.1 permissionName) PERMISSION_OPCODE_MAP.
(** The output is left as it was when no item has the code. *)
Definition TransferOpcodeToPermission (opCode : Z) (permissionName : string) : bool * string :=
  match find_if (fun item : string * Z => item.2 =? opCode) PERMISSION_OPCODE_MAP with
  | None => (false, permissionName)
  | Some item => (true, item.1)
  end.
Definition IsPrivacyPermission (permissionName : string) : bool :=
  bool_decide (is_Some (TransferPermissionToOpcode permissionName)).
Definition IsCameraPermission (permissionName : string) : bool :=
  String.eqb permissionName "ohos.permission.CAMERA" || String.eqb permissionName "ohos.permission.DVRCAMERA".

(** ** The enums. *)
Definition PERM_INACTIVE : Z := 0.
Definition PERM_ACTIVE_IN_FOREGROUND : Z := 1.
Definition PERM_ACTIVE_IN_BACKGROUND : Z := 2.
Definition PERM_TEMPORARY_CALL : Z := 3.
Definition PERM_REMOTE_USING : Z := 4.
Definition PERM_ADD : Z := 5.

Definition PERM_ACTIVE_IN_UNLOCKED : Z := 1.
Definition PERM_ACTIVE_IN_LOCKED : Z := 2.

Definition NORMAL_TYPE : Z := 0.
Definition PICKER_TYPE : Z := 1.
Definition SECURITY_COMPONENT_TYPE : Z := 2.

Inductive PolicyType := EDM | PRIVACY | TEMPORARY | MIXED.
Inductive CallerType := MICROPHONE | CAMERA.
Inductive CallbackRegisterType := ALL | TOKEN_ONLY.
#[export] Instance PolicyType_eq_dec : EqDecision PolicyType.
Proof. solve_decision. Defined.

(** ** What a listener is told. *)
Record ActiveChangeResponse := mkActiveChangeResponse {
  ac_callingTokenID : Z;
  ac_tokenID : Z;
  ac_permissionName : string;
  ac_type : Z;
  ac_usedType : Z;
  ac_pid : Z;
  ac_isRemote : bool;
  ac_deviceId : string;
  ac_remoteDeviceName : string;
  ac_extra : string;
  ac_enhancedIdentity : string;
  ac_bundleName : string;
}.
