(* ===== verification/PrivacyRecordSet.v ===== *)
(** * The permissions in use

    services/privacymanager: the record of one use in progress
    (src/record/permission_record.cpp, [ContinuousPermissionRecord]) and the operations on the
    ordered set of such records (src/record/permission_record_set.cpp), with what they compute. *)

From Stdlib Require Import OrdersEx.
From stdpp Require Import base gmap list strings sorting.
From S2P Require Import Prelude AccessTokenTypes TokenId PermissionMap Validator PrivacyTypes.
#[local] Open Scope string_scope.
#[local] Open Scope list_scope.
#[local] Open Scope Z_scope.
#[local] Open Scope cxx_scope.

Record ContinuousPermissionRecord := mkContinuousPermissionRecord {
  cr_tokenId : Z;
  cr_opCode : Z;
  cr_status : Z;
  cr_pid : Z;
  cr_callerPid : Z;
  cr_usedType : Z;
  cr_callertokenId : Z;
  cr_enhancedIdentity : string;
}.
Definition set_cr_status (status : Z) (r : ContinuousPermissionRecord) : ContinuousPermissionRecord :=
  mkContinuousPermissionRecord (cr_tokenId r) (cr_opCode r) status (cr_pid r) (cr_callerPid r) (cr_usedType r)
    (cr_callertokenId r) (cr_enhancedIdentity r).

(** [operator<] on [std::string]: the order of the bytes. *)
Definition str_ltb (a b : string) : bool :=
  match String_as_OT.compare a b with Lt => true | _ => false end.

(** [ContinuousPermissionRecord::operator<]. *)
Definition record_ltb (a b : ContinuousPermissionRecord) : bool :=
  if negb (cr_tokenId a =? cr_tokenId b) then cr_tokenId a <? cr_tokenId b
  else if negb (String.eqb (cr_enhancedIdentity a) (cr_enhancedIdentity b))
  then str_ltb (cr_enhancedIdentity a) (cr_enhancedIdentity b)
  else if negb (cr_opCode a =? cr_opCode b) then cr_opCode a <? cr_opCode b
  else if negb (cr_pid a =? cr_pid b) then cr_pid a <? cr_pid b
  else cr_callerPid a <? cr_callerPid b.

Definition GetTokenIdAndPermCode (r : ContinuousPermissionRecord) : Z :=
  u64 (u64 (cr_tokenId r) .<< 32) .| (u64 (cr_opCode r) .& 0xFFFFFFFF).
Definition GetTokenIdAndPid (r : ContinuousPermissionRecord) : Z :=
  let tmpPid := if cr_pid r <=? 0 then 0 else u32 (cr_pid r) in
  u64 (tmpPid .<< 32) .| (cr_tokenId r .& 0xFFFFFFFF).

(** ** The comparisons; the second record is the argument of the method. *)
Definition IsPidValid (pid : Z) : bool := 0 <? pid.
Definition IsEqualPermCode (this record : ContinuousPermissionRecord) : bool := cr_opCode record =? cr_opCode this.
Definition IsEqualCallerPid (this record : ContinuousPermissionRecord) : bool := cr_callerPid record =? cr_callerPid this.
Definition IsEqualPid (this record : ContinuousPermissionRecord) : bool :=
  negb (IsPidValid (cr_pid record)) || (cr_pid record =? cr_pid this).
Definition IsEqualTokenIdAndPid (this record : ContinuousPermissionRecord) : bool :=
  (cr_tokenId this =? cr_tokenId record) && IsEqualPid this record.
Definition IsEqualBasicRecord (this record : ContinuousPermissionRecord) : bool :=
  IsEqualTokenIdAndPid this record && IsEqualPermCode this record && IsEqualCallerPid this record.
Definition IsEqualRecord (this record : ContinuousPermissionRecord) : bool :=
  IsEqualBasicRecord this record && String.eqb (cr_enhancedIdentity this) (cr_enhancedIdentity record).
Definition IsEqualTokenIdAndIdentity (this record : ContinuousPermissionRecord) : bool :=
  (cr_tokenId this =? cr_tokenId record) &&
  (str_empty (cr_enhancedIdentity record) || String.eqb (cr_enhancedIdentity this) (cr_enhancedIdentity record)).

(** ** [std::set<ContinuousPermissionRecord>]: a list in the order of its elements. *)
Fixpoint set_emplace (r : ContinuousPermissionRecord) (l : list ContinuousPermissionRecord) : list ContinuousPermissionRecord :=
  match l with
  | [] => [r]
  | x :: l' => if record_ltb r x then r :: l else if record_ltb x r then x :: set_emplace r l' else l
  end.
Definition set_insert_all (rs l : list ContinuousPermissionRecord) : list ContinuousPermissionRecord :=
  fold_left (fun l r => set_emplace r l) rs l.

Definition RemoveByKey (recordList : list ContinuousPermissionRecord) (record : ContinuousPermissionRecord)
    (isEqualFunc : ContinuousPermissionRecord -> ContinuousPermissionRecord -> bool)
    : list ContinuousPermissionRecord * list ContinuousPermissionRecord :=
  (filter (fun it => isEqualFunc it record = false) recordList, filter (fun it => isEqualFunc it record = true) recordList).

(** ** A walk over two ordered lists, as the two [while] loops below have it: at each step
    the first element of the left list is kept, or dropped, or the right list advances. *)
Inductive walk_step := Keep | Drop | Next.
Section Walk.
Context {A B : Type} (step : A -> B -> walk_step).
Fixpoint walk (removed : list A) : list B -> list A :=
  match removed with
  | [] => fun _ => []
  | r :: removed' =>
      fix inner (remain : list B) : list A :=
        match remain with
        | [] => r :: removed'
        | x :: remain' =>
            match step r x with
            | Keep => r :: walk removed' remain
            | Drop => walk removed' remain
            | Next => inner remain'
            end
        end
  end.

(** The kept elements are those no element of the right list hits, when each step that
    passes an element by is sound for the rest of its list. *)
Lemma walk_spec (PA : A -> Prop) (PB : B -> Prop) (hit : A -> B -> Prop) (RA : A -> A -> Prop) (RB : B -> B -> Prop) removed remain :
  (forall r x, PA r -> PB x -> step r x = Drop -> hit r x) ->
  (forall r x, PA r -> PB x -> step r x = Keep -> ~ hit r x /\ forall x', PB x' -> RB x x' -> ~ hit r x') ->
  (forall r x, PA r -> PB x -> step r x = Next -> ~ hit r x /\ forall r', PA r' -> RA r r' -> ~ hit r' x) ->
  StronglySorted RA removed -> StronglySorted RB remain -> Forall PA removed -> Forall PB remain ->
  forall r, r ∈ walk removed remain <-> r ∈ removed /\ forall x, x ∈ remain -> ~ hit r x.
Proof.
  intros Hdrop Hkeep Hnext HA. revert remain. induction HA as [|r0 removed HA IH Hr0]; intros remain HB FA FB r.
  { cbn. rewrite elem_of_nil. naive_solver. }
  pose proof FA as [Pr0 FA']%Forall_cons. induction HB as [|x remain HB IHB Hx].
  { cbn. split; [|naive_solver]. intros ?. split; [done|]. by intros x ?%elem_of_nil. }
  assert (walk (r0 :: removed) (x :: remain) = match step r0 x with Keep => r0 :: walk removed (x :: remain)
    | Drop => walk removed (x :: remain) | Next => walk (r0 :: removed) remain end) as -> by reflexivity.
  pose proof FB as [Px FB']%Forall_cons. pose proof (IH (x :: remain) (SSorted_cons _ HB Hx) FA' FB r) as IH'.
  rewrite Forall_forall in Hx. rewrite Forall_forall in Hr0. rewrite Forall_forall in FA'. rewrite Forall_forall in FB'.
  destruct (step r0 x) eqn:S.
  - rewrite !elem_of_cons, IH'. destruct (Hkeep _ _ Pr0 Px S) as [Hn Hn'].
    split; [|tauto]. intros [->|[Hr Hh]]; [|tauto]. split; [by left|]. intros y [->|Hy]%elem_of_cons; [done|by apply Hn'; auto].
  - rewrite elem_of_cons, IH'. pose proof (Hdrop _ _ Pr0 Px S) as Hh.
    split; [tauto|]. intros [[->|Hr] Hall]; [|done]. destruct (Hall x); [left|done].
  - rewrite IHB by (apply Forall_forall; auto). destruct (Hnext _ _ Pr0 Px S) as [Hn Hn']. rewrite elem_of_cons.
    split; [|intros [? Hall]; split; [done|]; intros y Hy; apply Hall; by right].
    intros [Hr Hall]. split; [done|]. intros y [->|Hy]%elem_of_cons; [|by apply Hall]. destruct Hr as [->|Hr]; [done|by apply Hn'; auto].
Qed.
End Walk.

(** ** Which removals to report: the first removed record of each group. *)
Definition IsSameInActiveGroup (lhs rhs : ContinuousPermissionRecord) : bool :=
  (cr_tokenId lhs =? cr_tokenId rhs) && (cr_opCode lhs =? cr_opCode rhs) &&
  String.eqb (cr_enhancedIdentity lhs) (cr_enhancedIdentity rhs).
Definition IsLessInActiveGroup (lhs rhs : ContinuousPermissionRecord) : bool :=
  if negb (cr_tokenId lhs =? cr_tokenId rhs) then cr_tokenId lhs <? cr_tokenId rhs
  else if negb (String.eqb (cr_enhancedIdentity lhs) (cr_enhancedIdentity rhs))
  then str_ltb (cr_enhancedIdentity lhs) (cr_enhancedIdentity rhs)
  else cr_opCode lhs <? cr_opCode rhs.

Definition unique_removed (removedList : list ContinuousPermissionRecord) : list ContinuousPermissionRecord :=
  fold_left (fun unique record =>
    match last unique with
    | None => set_emplace record unique
    | Some r => if negb (IsSameInActiveGroup r record) then set_emplace record unique else unique
    end) removedList [].

Definition inactive_step (iterRemoved iterRemain : ContinuousPermissionRecord) : walk_step :=
  if IsLessInActiveGroup iterRemoved iterRemain then Keep
  else if IsLessInActiveGroup iterRemain iterRemoved then Next
  else if negb (cr_status iterRemain =? PERM_INACTIVE) then Drop
  else Next.

Definition GetInActiveUniqueRecord (recordList removedList : list ContinuousPermissionRecord) : list ContinuousPermissionRecord :=
  walk inactive_step (unique_removed removedList) recordList.

(** ** Which camera callbacks are no longer needed. *)
Fixpoint unique_cameras (filterOpCode lastUniqueKey : Z) (removedList : list ContinuousPermissionRecord)
    : list ContinuousPermissionRecord :=
  match removedList with
  | [] => []
  | r :: rest =>
      if negb (cr_opCode r =? filterOpCode) then unique_cameras filterOpCode lastUniqueKey rest
      else
        let curUniqueKey := GetTokenIdAndPid r in
        if lastUniqueKey =? curUniqueKey then unique_cameras filterOpCode lastUniqueKey rest
        else r :: unique_cameras filterOpCode curUniqueKey rest
  end.

Definition camera_step (iterRemoved iterRemain : ContinuousPermissionRecord) : walk_step :=
  let removeKey := GetTokenIdAndPermCode iterRemoved in
  let remainKey := GetTokenIdAndPermCode iterRemain in
  if removeKey <? remainKey then Keep
  else if removeKey =? remainKey then
    if IsEqualPid iterRemoved iterRemain then Drop
    else if cr_pid iterRemoved <? cr_pid iterRemain then Keep else Next
  else Next.

Definition GetUnusedCameraRecords (recordList removedList : list ContinuousPermissionRecord) (filterOpCode : Z)
    : list ContinuousPermissionRecord :=
  walk camera_step (unique_cameras filterOpCode 0 removedList) recordList.

(** ** The order. *)
Abbreviation slt := String_as_OT.lt.

Lemma str_ltb_lt a b : str_ltb a b = true <-> slt a b.
Proof. unfold str_ltb, slt. by destruct (String_as_OT.compare a b). Qed.
Lemma slt_trans a b c : slt a b -> slt b c -> slt a c.
Proof. apply String_as_OT.lt_strorder. Qed.
Lemma slt_irrefl a : ~ slt a a.
Proof. apply String_as_OT.lt_strorder. Qed.
Lemma slt_total a b : slt a b \/ a = b \/ slt b a.
Proof. destruct (String_as_OT.compare_spec a b); auto. Qed.

(** Records in the same group, and groups in order. *)
Definition geq (a b : ContinuousPermissionRecord) : Prop :=
  cr_tokenId a = cr_tokenId b /\ cr_enhancedIdentity a = cr_enhancedIdentity b /\ cr_opCode a = cr_opCode b.
Definition glt (a b : ContinuousPermissionRecord) : Prop :=
  cr_tokenId a < cr_tokenId b \/ cr_tokenId a = cr_tokenId b /\
    (slt (cr_enhancedIdentity a) (cr_enhancedIdentity b) \/
     cr_enhancedIdentity a = cr_enhancedIdentity b /\ cr_opCode a < cr_opCode b).
Definition rlt (a b : ContinuousPermissionRecord) : Prop :=
  glt a b \/ geq a b /\ (cr_pid a < cr_pid b \/ cr_pid a = cr_pid b /\ cr_callerPid a < cr_callerPid b).
(** The same use: a set holds at most one such record. *)
Definition req (a b : ContinuousPermissionRecord) : Prop := geq a b /\ cr_pid a = cr_pid b /\ cr_callerPid a = cr_callerPid b.

Local Ltac order_cases :=
  unfold rlt, req, glt, geq in *; intros;
  repeat match goal with H : _ \/ _ |- _ => destruct H | H : _ /\ _ |- _ => destruct H end.

Lemma glt_trans a b c : glt a b -> glt b c -> glt a c.
Proof. order_cases; try (left; lia); right; (split; [lia|]); [left; by eapply slt_trans|left; congruence|left; congruence|right; split; [congruence|lia]]. Qed.
Lemma glt_irrefl a : ~ glt a a.
Proof. intros H. order_cases; try lia. by eapply slt_irrefl. Qed.
Lemma glt_total a b : glt a b \/ geq a b \/ glt b a.
Proof.
  unfold glt, geq. destruct (Z.lt_total (cr_tokenId a) (cr_tokenId b)) as [?|[?|?]]; [tauto| |tauto].
  destruct (slt_total (cr_enhancedIdentity a) (cr_enhancedIdentity b)) as [?|[?|?]]; [tauto| |intuition congruence].
  destruct (Z.lt_total (cr_opCode a) (cr_opCode b)) as [?|[?|?]]; intuition congruence.
Qed.
Lemma geq_glt a b c : geq a b -> glt b c -> glt a c.
Proof. unfold geq, glt. intros (-> & -> & ->). done. Qed.
Lemma glt_geq a b c : glt a b -> geq b c -> glt a c.
Proof. unfold geq, glt. intros H (<- & <- & <-). done. Qed.
Lemma geq_sym a b : geq a b -> geq b a.
Proof. by intros (? & ? & ?). Qed.
Lemma geq_trans a b c : geq a b -> geq b c -> geq a c.
Proof. unfold geq. intuition congruence. Qed.

Lemma rlt_trans a b c : rlt a b -> rlt b c -> rlt a c.
Proof.
  intros [H1|[H1 P1]] [H2|[H2 P2]].
  - left. by eapply glt_trans.
  - left. by eapply glt_geq.
  - left. by eapply geq_glt.
  - right. split; [by eapply geq_trans|]. lia.
Qed.
Lemma rlt_irrefl a : ~ rlt a a.
Proof. intros [?%glt_irrefl|[_ ?]]; [done|lia]. Qed.
Lemma rlt_total a b : rlt a b \/ req a b \/ rlt b a.
Proof.
  unfold rlt, req. destruct (glt_total a b) as [?|[Hg|?]]; [auto| |auto 6].
  destruct (Z.lt_total (cr_pid a) (cr_pid b)) as [?|[?|?]]; [auto 6| |auto 8 using geq_sym].
  destruct (Z.lt_total (cr_callerPid a) (cr_callerPid b)) as [?|[?|?]]; [auto 8|auto 8|].
  right. right. right. split; [by apply geq_sym|]. right. by split.
Qed.
Lemma req_rlt a b : req a b -> ~ rlt a b.
Proof. intros ((E1 & E2 & E3) & E4 & E5) H. apply (rlt_irrefl a). unfold rlt, glt, geq in *. by rewrite <- E1, <- E2, <- E3, <- E4, <- E5 in H. Qed.
Lemma rlt_group a b : rlt a b -> glt a b \/ geq a b.
Proof. intros [?|[? _]]; auto. Qed.

Lemma IsLess_glt a b : IsLessInActiveGroup a b = true <-> glt a b.
Proof.
  unfold IsLessInActiveGroup, glt. destruct (Z.eqb_spec (cr_tokenId a) (cr_tokenId b)) as [E|E]; cbn [negb].
  - destruct (String.eqb_spec (cr_enhancedIdentity a) (cr_enhancedIdentity b)) as [I|I]; cbn [negb].
    + rewrite Z.ltb_lt, I. split; [auto 6|]. intros [?|(_ & [?%slt_irrefl|?])]; [lia|done|tauto].
    + rewrite str_ltb_lt. split; [auto 6|]. intros [?|(_ & [?|[? _]])]; [lia|done|done].
  - rewrite Z.ltb_lt. split; [auto|]. intros [?|[? _]]; done.
Qed.
Lemma IsSame_geq a b : IsSameInActiveGroup a b = true <-> geq a b.
Proof.
  unfold IsSameInActiveGroup, geq. rewrite !andb_true_iff, !Z.eqb_eq, String.eqb_eq. tauto.
Qed.
Lemma record_ltb_lt a b : record_ltb a b = true <-> rlt a b.
Proof.
  unfold record_ltb. destruct (Z.eqb_spec (cr_tokenId a) (cr_tokenId b)) as [E|E]; cbn [negb]; cycle 1.
  { rewrite Z.ltb_lt. unfold rlt, glt, geq. intuition congruence. }
  destruct (String.eqb_spec (cr_enhancedIdentity a) (cr_enhancedIdentity b)) as [I|I]; cbn [negb]; cycle 1.
  { rewrite str_ltb_lt. unfold rlt, glt, geq. intuition (congruence || lia). }
  destruct (Z.eqb_spec (cr_opCode a) (cr_opCode b)) as [O|O]; cbn [negb]; cycle 1.
  { rewrite Z.ltb_lt. unfold rlt, glt, geq. rewrite I. pose proof (slt_irrefl (cr_enhancedIdentity b)). intuition (congruence || lia). }
  assert (geq a b) as G by done. assert (~ glt a b) as NG by (intros H; eapply glt_irrefl, glt_geq, geq_sym; eauto).
  unfold rlt. destruct (Z.eqb_spec (cr_pid a) (cr_pid b)) as [P|P]; cbn [negb]; rewrite Z.ltb_lt; intuition lia.
Qed.

(** ** Sets. *)
Abbreviation record_set l := (StronglySorted rlt l).

Lemma elem_of_emplace r l x : x ∈ set_emplace r l -> x = r \/ x ∈ l.
Proof.
  induction l as [|y l IH]; cbn; [by rewrite list_elem_of_singleton; left|]. split_if; [rewrite !elem_of_cons; tauto|]. split_if; [|by right].
  rewrite !elem_of_cons. intros [?|[?|?]%IH]; tauto.
Qed.
Lemma emplace_subset r l x : x ∈ l -> x ∈ set_emplace r l.
Proof.
  induction l as [|y l IH]; cbn; [by intros ?%elem_of_nil|]. split_if; [by right|]. split_if; [|done].
  rewrite !elem_of_cons. intros [?|?%IH]; tauto.
Qed.
Lemma emplace_new r l : (forall x, x ∈ l -> ~ req r x) -> r ∈ set_emplace r l.
Proof.
  induction l as [|y l IH]; cbn; intros Hn; [by left|]. destruct (record_ltb r y) eqn:E1; [by left|].
  destruct (record_ltb y r) eqn:E2; [right; apply IH; intros x Hx; apply Hn; by right|].
  destruct (rlt_total r y) as [H%record_ltb_lt|[H|H%record_ltb_lt]]; [congruence| |congruence]. destruct (Hn y); [left|done].
Qed.
Lemma emplace_sorted r l : record_set l -> record_set (set_emplace r l).
Proof.
  induction 1 as [|y l Hl IH Hy]; cbn; [by repeat constructor|]. destruct (record_ltb r y) eqn:E1.
  - apply record_ltb_lt in E1. constructor; [by constructor|]. constructor; [done|]. eapply Forall_impl; [exact Hy|]. intros x. by apply rlt_trans.
  - destruct (record_ltb y r) eqn:E2; [|by constructor]. apply record_ltb_lt in E2. constructor; [done|].
    rewrite Forall_forall in *. intros x [->|Hx]%elem_of_emplace; auto.
Qed.
Lemma insert_all_sorted rs : forall l, record_set l -> record_set (set_insert_all rs l).
Proof. induction rs as [|r rs IH]; intros l Hl; cbn; [done|]. by apply IH, emplace_sorted. Qed.
Lemma emplace_last r l : Forall (fun x => rlt x r) l -> set_emplace r l = l ++ [r].
Proof.
  induction 1 as [|x l Hx Hl IH]; cbn; [done|]. destruct (record_ltb r x) eqn:E1.
  { apply record_ltb_lt in E1. destruct (rlt_irrefl r). by eapply rlt_trans. }
  apply record_ltb_lt in Hx. by rewrite Hx, IH.
Qed.

Lemma sorted_filter (P : ContinuousPermissionRecord -> Prop) `{!forall x, Decision (P x)} l : record_set l -> record_set (filter P l).
Proof.
  induction 1 as [|x l Hl IH Hx]; cbn; [constructor|]. case_decide; [|done]. constructor; [done|].
  rewrite Forall_forall in *. intros y [_ Hy]%list_elem_of_filter. auto.
Qed.
Lemma sorted_unique l x y : record_set l -> x ∈ l -> y ∈ l -> req x y -> x = y.
Proof.
  induction 1 as [|z l Hl IH Hz]; [by intros ?%elem_of_nil|]. rewrite Forall_forall in Hz. rewrite !elem_of_cons.
  intros [->|Hx] [->|Hy] E; [done| | |by apply IH].
  - destruct (req_rlt _ _ E). by apply Hz.
  - destruct (req_rlt z x); [|by apply Hz]. destruct E as (? & ? & ?). split; [by apply geq_sym|done].
Qed.
Lemma sorted_app_last (R : ContinuousPermissionRecord -> ContinuousPermissionRecord -> Prop) l x :
  StronglySorted R (l ++ [x]) <-> StronglySorted R l /\ Forall (fun y => R y x) l.
Proof.
  rewrite StronglySorted_app, Forall_forall. setoid_rewrite list_elem_of_singleton. split; [naive_solver|].
  intros [H1 H2]. split_and!; [naive_solver|done|by repeat constructor].
Qed.

(** ** The first removed record of each group. *)
Lemma unique_removed_spec p : record_set p ->
  let u := unique_removed p in
  StronglySorted glt u /\
  (forall r, r ∈ u <-> r ∈ p /\ forall r', r' ∈ p -> geq r r' -> ~ rlt r' r) /\
  match last p, last u with Some z, Some y => geq y z | None, None => True | _, _ => False end.
Proof.
  cbv zeta. induction p as [|x p IH] using rev_ind.
  { intros _. split_and!; [constructor| |done]. intros r. cbn. rewrite elem_of_nil. tauto. }
  rewrite sorted_app_last. intros [Hp Hx]. destruct (IH Hp) as (H1 & H2 & H3). rewrite Forall_forall in Hx.
  unfold unique_removed. rewrite fold_left_app. fold (unique_removed p). cbn [fold_left]. set (u := unique_removed p) in *.
  assert (forall y, y ∈ u -> y ∈ p) as Hup by (intros y Hy; by apply H2).
  assert (set_emplace x u = u ++ [x]) as Eapp by (apply emplace_last, Forall_forall; auto).
  assert (forall r, r ∈ p -> (forall r', r' ∈ p ++ [x] -> geq r r' -> ~ rlt r' r) <-> (forall r', r' ∈ p -> geq r r' -> ~ rlt r' r)) as Hext.
  { intros r Hr. setoid_rewrite elem_of_app. setoid_rewrite list_elem_of_singleton. split; [naive_solver|].
    intros Ha r' [Hr'| ->] Hg; [by apply Ha|]. intros Hlt. eapply rlt_irrefl, rlt_trans; [exact Hlt|by apply Hx]. }
  rewrite last_snoc. destruct (last u) as [y|] eqn:Lu.
  - destruct (last p) as [z|] eqn:Lp; [|done]. pose proof (Hup y (last_Some_elem_of _ _ Lu)) as Hy.
    pose proof (last_Some_elem_of _ _ Lp) as Hz.
    destruct (IsSameInActiveGroup y x) eqn:S; cbn [negb].
    + apply IsSame_geq in S. rewrite Lu. split_and!; [done| |done]. intros r. rewrite H2, elem_of_app, list_elem_of_singleton.
      split; [intros [Hr Hm]; split; [by left|by apply Hext]|]. intros [[Hr| ->] Hm]; [split; [done|by apply Hext]|].
      destruct (Hm y); [by rewrite elem_of_app; left|by apply geq_sym|by apply Hx].
    + assert (~ geq y x) as NS by (by intros ?%IsSame_geq; congruence).
      assert (forall r', r' ∈ p -> glt r' x) as Hgl.
      { intros r' Hr'. destruct (rlt_group _ _ (Hx r' Hr')) as [|Hg]; [done|]. destruct NS.
        assert (r' = z \/ rlt r' z) as [-> | Hrz].
        { apply last_Some in Lp as [p' ->]. apply sorted_app_last in Hp as [_ Hp]. rewrite Forall_forall in Hp.
          apply elem_of_app in Hr' as [?| ->%list_elem_of_singleton]; auto. }
        - by eapply geq_trans.
        - destruct (rlt_group _ _ Hrz) as [Hg1|Hg1]; [|eapply geq_trans; [exact H3|]; eapply geq_trans; [by apply geq_sym|done]].
          exfalso. destruct (rlt_group _ _ (Hx z Hz)) as [Hg2|Hg2]; eapply glt_irrefl.
          + eapply glt_trans; [exact Hg1|]. eapply glt_geq; [exact Hg2|by apply geq_sym].
          + eapply glt_geq; [exact Hg1|]. eapply geq_trans; [exact Hg2|by apply geq_sym]. }
      rewrite Eapp, last_snoc. split_and!; [|  |by split_and!].
      * apply sorted_app_last. split; [done|]. apply Forall_forall. auto.
      * intros r. rewrite !elem_of_app, H2, !list_elem_of_singleton. split.
        -- intros [[Hr Hm]| ->]; [split; [by left|by apply Hext]|]. split; [by right|].
           intros r' [Hr'| ->%list_elem_of_singleton]%elem_of_app Hg; [|intros ?%rlt_irrefl; done].
           exfalso. eapply glt_irrefl, glt_geq, Hg. by apply Hgl.
        -- intros [[Hr| ->] Hm]; [left; split; [done|by apply Hext]|by right].
  - destruct (last p) as [z|] eqn:Lp; [done|]. apply last_None in Lp, Lu. rewrite Eapp, Lu, Lp. cbn. split_and!; [by repeat constructor| |by split_and!].
    intros r. rewrite list_elem_of_singleton. split; [intros ->; split; [done|]; intros r' ->%list_elem_of_singleton _; apply rlt_irrefl|tauto].
Qed.

(** What is reported: of each group of removed records the first, when no record of the group
    that is still in use remains. *)
Lemma GetInActive_spec recordList removedList : record_set recordList -> record_set removedList ->
  forall r, r ∈ GetInActiveUniqueRecord recordList removedList <->
    r ∈ removedList /\ (forall r', r' ∈ removedList -> geq r r' -> ~ rlt r' r) /\
    (forall x, x ∈ recordList -> geq r x -> cr_status x = PERM_INACTIVE).
Proof.
  intros H1 H2 r. destruct (unique_removed_spec _ H2) as (Hs & Hu & _). unfold GetInActiveUniqueRecord.
  rewrite (walk_spec inactive_step (fun _ => True) (fun _ => True) (fun r x => geq r x /\ cr_status x <> PERM_INACTIVE) glt rlt);
    [|..|done|done|by apply Forall_true|by apply Forall_true].
  - rewrite Hu. split; [intros [[? ?] Hn]|intros (? & ? & Hn)].
    + split_and!; try done. intros x Hx Hg. specialize (Hn x Hx). destruct (Z.eq_dec (cr_status x) PERM_INACTIVE); tauto.
    + split_and!; try done. intros x Hx [Hg ?]. naive_solver.
  - intros a x _ _. unfold inactive_step. repeat split_if; try done. intros _. breflect. split; [|done].
    destruct (glt_total a x) as [?%IsLess_glt|[?|?%IsLess_glt]]; congruence.
  - intros a x _ _. unfold inactive_step. split_if; [|by repeat split_if]. intros _. apply IsLess_glt in E. split.
    + intros [Hg _]. eapply glt_irrefl, glt_geq; [exact E|by apply geq_sym].
    + intros x' _ Hx' [Hg _]. apply (glt_irrefl a). apply rlt_group in Hx' as [?|?].
      * eapply glt_geq; [by eapply glt_trans|by apply geq_sym].
      * eapply glt_geq; [exact E|]. eapply geq_trans; [done|by apply geq_sym].
  - intros a x _ _. unfold inactive_step. split_if; [done|]. split_if.
    + intros _. apply IsLess_glt in E0. split.
      * intros [Hg _]. eapply glt_irrefl, glt_geq; [exact E0|done].
      * intros r' _ Hr' [Hg _]. apply (glt_irrefl x). eapply glt_trans; [exact E0|]. by eapply glt_geq.
    + split_if; [done|]. intros _. breflect. split; [tauto|]. intros r' _ Hr' [Hg _]. apply (glt_irrefl x). apply IsLess_glt.
      destruct (glt_total a x) as [?%IsLess_glt|[Ha|?%IsLess_glt]]; [congruence| |congruence]. apply IsLess_glt.
      eapply geq_glt; [by apply geq_sym|]. by eapply glt_geq.
Qed.

(** ** Cameras. *)
Definition record_ok (r : ContinuousPermissionRecord) : Prop := is_u32 (cr_tokenId r) /\ is_u32 (cr_opCode r).

Lemma perm_key r : record_ok r -> GetTokenIdAndPermCode r = cr_tokenId r * 2 ^ 32 + cr_opCode r.
Proof.
  intros [Ht Ho]. unfold GetTokenIdAndPermCode. unfold_int. rewrite Z.shiftl_mul_pow2 by lia.
  rewrite !(Z.mod_small _ (2 ^ 64)) by (rewrite ?(Z.mod_small _ (2 ^ 64)); lia).
  change 0xFFFFFFFF with (Z.ones 32). rewrite Z.land_ones, Z.mod_small by lia.
  assert (Z.land (cr_tokenId r * 2 ^ 32) (cr_opCode r) = 0) as Hl; [|pose proof (Z.add_lor_land (cr_tokenId r * 2 ^ 32) (cr_opCode r)); lia].
  apply Z.bits_inj'. intros n Hn. rewrite Z.land_spec, Z.bits_0, <- Z.shiftl_mul_pow2, Z.shiftl_spec by lia.
  destruct (Z.lt_ge_cases n 32); [by rewrite (Z.testbit_neg_r (cr_tokenId r)) by lia|].
  rewrite (Z.bits_above_log2 (cr_opCode r)), andb_false_r; [done|lia|].
  destruct (Z.eq_dec (cr_opCode r) 0) as [->|]; [cbn; lia|]. apply Z.log2_lt_pow2; [lia|].
  eapply Z.lt_le_trans; [apply Ho|]. apply Z.pow_le_mono_r; lia.
Qed.

Lemma unique_cameras_sub op l : forall k, unique_cameras op k l `sublist_of` l /\ Forall (fun r => cr_opCode r = op) (unique_cameras op k l).
Proof.
  induction l as [|r l IH]; intros k; cbn; [done|]. destruct (Z.eqb_spec (cr_opCode r) op) as [E|E]; cbn [negb].
  - split_if; [destruct (IH k); split; [by apply sublist_cons|done]|]. destruct (IH (GetTokenIdAndPid r)). split; [by apply sublist_skip|by constructor].
  - destruct (IH k). split; [by apply sublist_cons|done].
Qed.

(** Every process among the removed records has a representative. *)
Lemma unique_cameras_cover op l : forall k r, r ∈ l -> cr_opCode r = op ->
  GetTokenIdAndPid r = k \/ exists r', r' ∈ unique_cameras op k l /\ GetTokenIdAndPid r' = GetTokenIdAndPid r.
Proof.
  induction l as [|x l IH]; intros k r; [by intros ?%elem_of_nil|]. rewrite elem_of_cons. cbn. intros [->|Hr] Ho.
  - rewrite Ho, Z.eqb_refl. cbn [negb]. destruct (Z.eqb_spec k (GetTokenIdAndPid x)) as [<-|]; [by left|]. right. exists x. split; [left|done].
  - split_if; [by apply IH|]. destruct (Z.eqb_spec k (GetTokenIdAndPid x)) as [E1|E1]; [by apply IH|].
    destruct (IH (GetTokenIdAndPid x) r Hr Ho) as [E2|(r' & Hr' & E2)]; right; [exists x; split; [left|done]|exists r'; split; [by right|done]].
Qed.

Lemma sublist_sorted (R : ContinuousPermissionRecord -> ContinuousPermissionRecord -> Prop) l k : l `sublist_of` k -> StronglySorted R k -> StronglySorted R l.
Proof.
  induction 1 as [|x l k Hs IH|x l k Hs IH]; intros Hk; [done|..]; inversion_clear Hk as [|?? H1 H2]; [|auto].
  constructor; [auto|]. rewrite Forall_forall in *. intros y Hy. apply H2. by eapply elem_of_sublist.
Qed.

(** Among records that share their identity the callbacks that go are those of the processes
    for which no record of the camera remains. *)
Lemma GetUnusedCamera_spec e op recordList removedList :
  record_set recordList -> record_set removedList ->
  Forall (fun x => record_ok x /\ cr_enhancedIdentity x = e) recordList ->
  Forall (fun x => record_ok x /\ cr_enhancedIdentity x = e) removedList ->
  forall r, r ∈ GetUnusedCameraRecords recordList removedList op <->
    r ∈ unique_cameras op 0 removedList /\
    forall x, x ∈ recordList -> cr_tokenId x = cr_tokenId r -> cr_opCode x = op -> 0 < cr_pid x /\ cr_pid x <> cr_pid r.
Proof.
  intros S1 S2 F1 F2 r. destruct (unique_cameras_sub op removedList 0) as [Hsub Hop]. unfold GetUnusedCameraRecords.
  assert (Forall (fun x => record_ok x /\ cr_enhancedIdentity x = e /\ cr_opCode x = op) (unique_cameras op 0 removedList)) as F3.
  { rewrite Forall_forall in *. intros x Hx. destruct (F2 x); [by eapply elem_of_sublist|]. auto. }
  rewrite (walk_spec camera_step (fun x => record_ok x /\ cr_enhancedIdentity x = e /\ cr_opCode x = op)
    (fun x => record_ok x /\ cr_enhancedIdentity x = e)
    (fun r x => cr_tokenId x = cr_tokenId r /\ cr_opCode x = op /\ ~ (0 < cr_pid x /\ cr_pid x <> cr_pid r)) rlt rlt);
    [|..|by eapply sublist_sorted|done|done|done].
  - split; intros [H1 H2]; (split; [done|]).
    + intros x Hx Et Eo. specialize (H2 x Hx). lia.
    + intros x Hx (Et & Eo & Hn). by apply Hn, H2.
  - intros a x (Oa & Ia & Pa) (Ox & Ix). unfold camera_step. rewrite !perm_key by done. cbv zeta. unfold_int. destruct Oa, Ox. unfold_int.
    repeat split_if; try done. intros _. unfold IsEqualPid, IsPidValid in *. breflect. lia.
  - intros a x (Oa & Ia & Pa) (Ox & Ix). unfold camera_step. rewrite !perm_key by done. cbv zeta. intros Hk.
    assert (cr_tokenId a < cr_tokenId x \/ cr_tokenId a = cr_tokenId x /\ (cr_opCode a < cr_opCode x \/
      cr_opCode a = cr_opCode x /\ 0 < cr_pid x /\ cr_pid a < cr_pid x)) as Hc.
    { destruct Oa, Ox. unfold IsEqualPid, IsPidValid in Hk. unfold_int. repeat split_if_in Hk; try done; breflect; try lia. }
    clear Hk. split; [lia|]. intros x' (Ox' & Ix') Hlt. unfold rlt, glt, geq in Hlt. rewrite Ix, Ix' in Hlt.
    pose proof (slt_irrefl e). intros (E1 & E2 & E3). intuition lia.
  - intros a x (Oa & Ia & Pa) (Ox & Ix). unfold camera_step. rewrite !perm_key by done. cbv zeta. intros Hk.
    assert (cr_tokenId x < cr_tokenId a \/ cr_tokenId a = cr_tokenId x /\ (cr_opCode x < cr_opCode a \/
      cr_opCode a = cr_opCode x /\ 0 < cr_pid x /\ cr_pid x < cr_pid a)) as Hc.
    { destruct Oa, Ox. unfold IsEqualPid, IsPidValid in Hk. unfold_int. repeat split_if_in Hk; try done; breflect; try lia. }
    clear Hk. split; [lia|]. intros r' (Or & Ir & Pr) Hlt. unfold rlt, glt, geq in Hlt. rewrite Ia, Ir in Hlt.
    pose proof (slt_irrefl e). intros (E1 & E2 & E3). intuition lia.
Qed.
