(* ===== verification/PrivacyUsage.v ===== *)
(** * Use of permissions

    services/privacymanager/src/record/permission_record_manager.cpp, the part that follows
    uses in progress: starting and stopping a use, the events of applications and processes,
    the mute and disable policies of microphone and camera, and the questions about them.
    The other services the code asks (access tokens, applications, audio, camera, system
    parameters) are [Services], their answers during a call. *)

From stdpp Require Import base gmap list strings.
From S2P Require Import Prelude AccessTokenTypes TokenId PermissionMap Validator PrivacyTypes PrivacyRecordSet.
#[local] Open Scope string_scope.
#[local] Open Scope list_scope.
#[local] Open Scope Z_scope.
#[local] Open Scope cxx_scope.

(** ** Build switches. *)
Class PrivacyConfig := {
  REMOTE_PRIVACY_ENABLE : bool;
  PRIVACY_BUNDLE_START_STOP_ENABLE : bool;
  APP_SECURITY_PRIVACY_SERVICE : bool;
  CAMERA_FLOAT_WINDOW_ENABLE : bool;
}.

Definition CAMERA_PERMISSION_NAME : string := "ohos.permission.CAMERA".
Definition CAMERA_BACKGROUND_PERMISSION_NAME : string := "ohos.permission.CAMERA_BACKGROUND".
Definition MICROPHONE_PERMISSION_NAME : string := "ohos.permission.MICROPHONE".
Definition MICROPHONE_BACKGROUND_PERMISSION_NAME : string := "ohos.permission.MICROPHONE_BACKGROUND".

(** ** Data. *)
Record PermissionUsedTypeInfo := mkPermissionUsedTypeInfo {
  pu_tokenId : Z;
  pu_pid : Z;
  pu_permissionName : string;
  pu_type : Z;
  pu_enhancedIdentity : string;
}.
Definition with_tokenId (tokenId : Z) (info : PermissionUsedTypeInfo) : PermissionUsedTypeInfo :=
  mkPermissionUsedTypeInfo tokenId (pu_pid info) (pu_permissionName info) (pu_type info) (pu_enhancedIdentity info).
Record RemotePermissionUsedInfo := mkRemotePermissionUsedInfo {
  ru_remoteDeviceId : string;
  ru_remoteDeviceName : string;
  ru_permissionName : string;
}.
Record RemoteContinuousPermissionRecord := mkRemoteContinuousPermissionRecord {
  rc_opCode : Z;
  rc_callerPid : Z;
}.

(** What leaves the manager: a change told to listeners, and a camera callback. *)
Inductive UseEvent :=
  | EvActive (info : ActiveChangeResponse) (source : CallbackRegisterType)
  | EvCameraTask (tokenId pid : Z)
  | EvCamera (tokenId : Z).

(** The answers of other services. *)
Class Services := {
  VerifyAccessToken : Z -> string -> Z;
  AtKitGetHostTokenId : Z -> Z + Z;
  GetParentHapTokenID : Z -> Z + Z;
  GetForegroundApplications : list (Z * Z);
  GetPersistentMicMuteState : bool;
  IsCameraMuted : bool;
  GetParameter : string -> option string;
  RegisterApplicationStateObserver : Z;
  StartAbility : string -> option Z;
  GetCallingTokenID : Z;
  EdmTokenId : Z;
}.

(** The members of [PermissionRecordManager] that follow uses; callbacks are named by numbers. *)
Record Using := mkUsing {
  startRecordList : list ContinuousPermissionRecord;
  cameraCallbackMap : gmap Z Z;
  dvrCameraCallbackMap : gmap Z Z;
  isMicEdmMute : bool;
  isMicMixMute : bool;
  isCamEdmMute : bool;
  isCamMixMute : bool;
  lockScreenStatus : Z;
  isScreenOn : bool;
  foreTokenIdList : list Z;
  cameraPrivacyControlEnhanceEnable : bool;
  bundleStartRecordMap : gmap string (list (Z * Z));
  startRemoteRecordList : list RemoteContinuousPermissionRecord;
  uniqueDeviceId : string;
  uniqueDeviceName : string;
  disablePolicyMap : gmap Z bool;
  appStateCallback : bool;
  events : list UseEvent;
}.
Definition set_list (l : list ContinuousPermissionRecord) (u : Using) : Using :=
  mkUsing l (cameraCallbackMap u) (dvrCameraCallbackMap u) (isMicEdmMute u) (isMicMixMute u) (isCamEdmMute u) (isCamMixMute u)
    (lockScreenStatus u) (isScreenOn u) (foreTokenIdList u) (cameraPrivacyControlEnhanceEnable u) (bundleStartRecordMap u)
    (startRemoteRecordList u) (uniqueDeviceId u) (uniqueDeviceName u) (disablePolicyMap u) (appStateCallback u) (events u).
Definition set_cameras (c d : gmap Z Z) (u : Using) : Using :=
  mkUsing (startRecordList u) c d (isMicEdmMute u) (isMicMixMute u) (isCamEdmMute u) (isCamMixMute u)
    (lockScreenStatus u) (isScreenOn u) (foreTokenIdList u) (cameraPrivacyControlEnhanceEnable u) (bundleStartRecordMap u)
    (startRemoteRecordList u) (uniqueDeviceId u) (uniqueDeviceName u) (disablePolicyMap u) (appStateCallback u) (events u).
Definition set_mutes (micEdm micMix camEdm camMix : bool) (u : Using) : Using :=
  mkUsing (startRecordList u) (cameraCallbackMap u) (dvrCameraCallbackMap u) micEdm micMix camEdm camMix
    (lockScreenStatus u) (isScreenOn u) (foreTokenIdList u) (cameraPrivacyControlEnhanceEnable u) (bundleStartRecordMap u)
    (startRemoteRecordList u) (uniqueDeviceId u) (uniqueDeviceName u) (disablePolicyMap u) (appStateCallback u) (events u).
Definition set_screen (lock : Z) (on : bool) (fore : list Z) (u : Using) : Using :=
  mkUsing (startRecordList u) (cameraCallbackMap u) (dvrCameraCallbackMap u) (isMicEdmMute u) (isMicMixMute u) (isCamEdmMute u) (isCamMixMute u)
    lock on fore (cameraPrivacyControlEnhanceEnable u) (bundleStartRecordMap u)
    (startRemoteRecordList u) (uniqueDeviceId u) (uniqueDeviceName u) (disablePolicyMap u) (appStateCallback u) (events u).
Definition set_bundles (m : gmap string (list (Z * Z))) (u : Using) : Using :=
  mkUsing (startRecordList u) (cameraCallbackMap u) (dvrCameraCallbackMap u) (isMicEdmMute u) (isMicMixMute u) (isCamEdmMute u) (isCamMixMute u)
    (lockScreenStatus u) (isScreenOn u) (foreTokenIdList u) (cameraPrivacyControlEnhanceEnable u) m
    (startRemoteRecordList u) (uniqueDeviceId u) (uniqueDeviceName u) (disablePolicyMap u) (appStateCallback u) (events u).
Definition set_remote (l : list RemoteContinuousPermissionRecord) (id name : string) (u : Using) : Using :=
  mkUsing (startRecordList u) (cameraCallbackMap u) (dvrCameraCallbackMap u) (isMicEdmMute u) (isMicMixMute u) (isCamEdmMute u) (isCamMixMute u)
    (lockScreenStatus u) (isScreenOn u) (foreTokenIdList u) (cameraPrivacyControlEnhanceEnable u) (bundleStartRecordMap u)
    l id name (disablePolicyMap u) (appStateCallback u) (events u).
Definition set_policies (m : gmap Z bool) (registered : bool) (u : Using) : Using :=
  mkUsing (startRecordList u) (cameraCallbackMap u) (dvrCameraCallbackMap u) (isMicEdmMute u) (isMicMixMute u) (isCamEdmMute u) (isCamMixMute u)
    (lockScreenStatus u) (isScreenOn u) (foreTokenIdList u) (cameraPrivacyControlEnhanceEnable u) (bundleStartRecordMap u)
    (startRemoteRecordList u) (uniqueDeviceId u) (uniqueDeviceName u) m registered (events u).
Definition tell (evs : list UseEvent) (u : Using) : Using :=
  mkUsing (startRecordList u) (cameraCallbackMap u) (dvrCameraCallbackMap u) (isMicEdmMute u) (isMicMixMute u) (isCamEdmMute u) (isCamMixMute u)
    (lockScreenStatus u) (isScreenOn u) (foreTokenIdList u) (cameraPrivacyControlEnhanceEnable u) (bundleStartRecordMap u)
    (startRemoteRecordList u) (uniqueDeviceId u) (uniqueDeviceName u) (disablePolicyMap u) (appStateCallback u) (events u ++ evs).

(** ** Mute and disable policies. *)
Definition ModifyMuteStatus (permissionName : string) (index : PolicyType) (isMute : bool) (u : Using) : Using :=
  let edm := bool_decide (index = EDM) in
  if String.eqb permissionName MICROPHONE_PERMISSION_NAME then
    if edm then set_mutes isMute (isMicMixMute u) (isCamEdmMute u) (isCamMixMute u) u
    else set_mutes (isMicEdmMute u) isMute (isCamEdmMute u) (isCamMixMute u) u
  else if String.eqb permissionName CAMERA_PERMISSION_NAME then
    if edm then set_mutes (isMicEdmMute u) (isMicMixMute u) isMute (isCamMixMute u) u
    else set_mutes (isMicEdmMute u) (isMicMixMute u) (isCamEdmMute u) isMute u
  else u.

Definition GetCacheDisablePolicy (opCode : Z) (u : Using) : bool := default false (disablePolicyMap u !! opCode).
Definition GetCacheDisablePolicy_name (permissionName : string) (u : Using) : bool :=
  match TransferPermissionToOpcode permissionName with None => false | Some opCode => GetCacheDisablePolicy opCode u end.
Definition UpdateDisablePolicyCache (opCode : Z) (isDisable : bool) (u : Using) : Using :=
  set_policies (<[opCode := isDisable]> (disablePolicyMap u)) (appStateCallback u) u.

Definition GetMuteStatus (permissionName : string) (index : PolicyType) (u : Using) : bool :=
  let edm := bool_decide (index = EDM) in
  if String.eqb permissionName MICROPHONE_PERMISSION_NAME then
    if edm then isMicEdmMute u || GetCacheDisablePolicy OP_MICROPHONE u else isMicMixMute u
  else if String.eqb permissionName CAMERA_PERMISSION_NAME then
    if edm then isCamEdmMute u || GetCacheDisablePolicy OP_CAMERA u else isCamMixMute u
  else false.
Definition IsEdmMuteOrDisable (permissionName : string) (u : Using) : bool :=
  GetMuteStatus permissionName EDM u || GetCacheDisablePolicy_name permissionName u.
Definition GetGlobalSwitchStatus (permissionName : string) (u : Using) : bool :=
  if String.eqb permissionName MICROPHONE_PERMISSION_NAME then negb (isMicMixMute u)
  else if String.eqb permissionName CAMERA_PERMISSION_NAME then negb (isCamMixMute u)
  else true.

Definition GetUniqueId (tokenId pid : Z) : Z :=
  let tmpPid := if pid <=? 0 then 0 else u32 pid in
  u64 (tmpPid .<< 32) .| (tokenId .& 0xFFFFFFFF).

(** [AccessTokenKit::GetTokenTypeFlag]. *)
Definition GetTokenTypeFlag (tokenID : Z) : Z :=
  if tokenID =? INVALID_TOKENID then TOKEN_INVALID else GetTokenIdTypeEnum tokenID.

Section Manager.
Context {PC : PrivacyConfig} {SV : Services}.
Implicit Types (u : Using).

Definition GetAppStatus (tokenId pid : Z) : Z :=
  if existsb (fun app : Z * Z => if pid =? -1 then app.1 =? tokenId else (app.1 =? tokenId) && (app.2 =? pid)) GetForegroundApplications
  then PERM_ACTIVE_IN_FOREGROUND else PERM_ACTIVE_IN_BACKGROUND.

Definition Register u : bool * Using :=
  if appStateCallback u then (true, u)
  else if negb (RegisterApplicationStateObserver =? 0) then (false, u)
  else (true, set_policies (disablePolicyMap u) true u).
Definition Unregister u : Using := set_policies (disablePolicyMap u) false u.
Definition OnAppMgrRemoteDiedHandle u : Using := set_policies (disablePolicyMap u) false u.

Definition GetMuteParameter (key : string) : option bool :=
  match GetParameter key with None => None | Some value => Some (String.eqb value "true") end.
Definition EDM_MIC_MUTE_KEY : string := "persist.edm.mic_disable".
Definition EDM_CAMERA_MUTE_KEY : string := "persist.edm.camera_disable".

Definition InitializeMuteState (permissionName : string) u : Using :=
  if String.eqb permissionName MICROPHONE_PERMISSION_NAME then
    let u := ModifyMuteStatus MICROPHONE_PERMISSION_NAME MIXED GetPersistentMicMuteState u in
    match GetMuteParameter EDM_MIC_MUTE_KEY with
    | None => u
    | Some isEdmMute => ModifyMuteStatus MICROPHONE_PERMISSION_NAME EDM isEdmMute u
    end
  else if String.eqb permissionName CAMERA_PERMISSION_NAME then
    let u := ModifyMuteStatus CAMERA_PERMISSION_NAME MIXED IsCameraMuted u in
    match GetMuteParameter EDM_CAMERA_MUTE_KEY with
    | None => u
    | Some isEdmMute => ModifyMuteStatus CAMERA_PERMISSION_NAME EDM isEdmMute u
    end
  else u.

(** ** The token a use is recorded for. *)
Definition NormalizeBinRecordTokenId (inputTokenId : Z) : Z + Z :=
  match GetParentHapTokenID inputTokenId with
  | inl _ => inl PrivacyTypes.ERR_TOKENID_NOT_EXIST
  | inr parent => if parent =? INVALID_TOKENID then inl PrivacyTypes.ERR_TOKENID_NOT_EXIST else inr (u32 parent)
  end.
Definition NormalizeRecordTokenId (inputTokenId : Z) : Z + Z :=
  if IsToolTokenId inputTokenId then
    match AtKitGetHostTokenId inputTokenId with inl _ => inl PrivacyTypes.ERR_PARAM_INVALID | inr host => inr host end
  else if IsBinTokenId inputTokenId then NormalizeBinRecordTokenId inputTokenId
  else inr inputTokenId.

Definition VerifyNativeRecordPermission (permissionName : string) (tokenId : Z) : bool :=
  if String.eqb permissionName CAMERA_PERMISSION_NAME
  then VerifyAccessToken tokenId CAMERA_BACKGROUND_PERMISSION_NAME =? PERMISSION_GRANTED
  else if String.eqb permissionName MICROPHONE_PERMISSION_NAME
  then VerifyAccessToken tokenId MICROPHONE_BACKGROUND_PERMISSION_NAME =? PERMISSION_GRANTED
  else false.

(** ** Telling listeners. *)
Definition CallbackExecute (record : ContinuousPermissionRecord) (permissionName : string) (type : Z) : UseEvent :=
  EvActive (mkActiveChangeResponse GetCallingTokenID (cr_tokenId record) permissionName (cr_status record) type (cr_pid record)
              false "" "" "" (cr_enhancedIdentity record) "") TOKEN_ONLY.

(** A loop that calls back for each record, [perm] keeping its value when a code has no name. *)
Fixpoint tell_inactive (records : list ContinuousPermissionRecord) (perm : string) : list UseEvent :=
  match records with
  | [] => []
  | r :: rest =>
      let '(_, perm) := TransferOpcodeToPermission (cr_opCode r) perm in
      CallbackExecute (mkContinuousPermissionRecord (cr_tokenId r) 0 PERM_INACTIVE (cr_pid r) (cr_callerPid r) NORMAL_TYPE 0
                         (cr_enhancedIdentity r)) perm NORMAL_TYPE :: tell_inactive rest perm
  end.

(** ** The list of uses in progress. *)
Definition AddRecordToStartList (info : PermissionUsedTypeInfo) (status callerPid : Z) u : Z * Using :=
  match TransferPermissionToOpcode (pu_permissionName info) with
  | None => (PrivacyTypes.ERR_PERMISSION_NOT_EXIST, u)
  | Some opCode =>
      let newRecord := mkContinuousPermissionRecord (pu_tokenId info) opCode status (pu_pid info) callerPid (pu_type info)
                         GetCallingTokenID (pu_enhancedIdentity info) in
      if existsb (fun it => IsEqualRecord it newRecord) (startRecordList u) then (ERR_PERMISSION_ALREADY_START_USING, u)
      else (SUCCESS, tell [CallbackExecute newRecord (pu_permissionName info) (pu_type info)]
                       (set_list (set_emplace newRecord (startRecordList u)) u))
  end.

Definition erase_camera (u : Using) (record : ContinuousPermissionRecord) : Using :=
  let id := GetUniqueId (cr_tokenId record) (cr_pid record) in
  if cr_opCode record =? OP_CAMERA then set_cameras (delete id (cameraCallbackMap u)) (dvrCameraCallbackMap u) u
  else set_cameras (cameraCallbackMap u) (delete id (dvrCameraCallbackMap u)) u.

Definition ToRemoveRecord (targetRecord : ContinuousPermissionRecord)
    (isEqualFunc : ContinuousPermissionRecord -> ContinuousPermissionRecord -> bool) (needClearCamera : bool) u : bool * Using :=
  let '(recordList, removeList) := RemoveByKey (startRecordList u) targetRecord isEqualFunc in
  let u := set_list recordList u in
  match removeList with
  | [] => (false, u)
  | _ =>
      let inactiveList := GetInActiveUniqueRecord recordList (set_insert_all removeList []) in
      let u := tell (tell_inactive inactiveList "") u in
      if negb needClearCamera then (true, u)
      else
        let unusedCameraRecord := GetUnusedCameraRecords recordList removeList OP_CAMERA ++
                                  GetUnusedCameraRecords recordList removeList OP_DVRCAMERA in
        (true, fold_left erase_camera unusedCameraRecord u)
  end.

Definition RemoveRecordFromStartList (tokenId pid : Z) (permissionName : string) (callerPid : Z) (enhancedIdentity : string) u
    : Z * Using :=
  match TransferPermissionToOpcode permissionName with
  | None => (PrivacyTypes.ERR_PERMISSION_NOT_EXIST, u)
  | Some opCode =>
      let record := mkContinuousPermissionRecord tokenId opCode 0 pid callerPid NORMAL_TYPE 0 enhancedIdentity in
      let '(removed, u) := ToRemoveRecord record IsEqualRecord true u in
      if negb removed then (ERR_PERMISSION_NOT_START_USING, u) else (SUCCESS, u)
  end.
Definition RemoveRecordFromStartListByPid (tokenId pid : Z) u : Using :=
  (ToRemoveRecord (mkContinuousPermissionRecord tokenId 0 0 pid 0 NORMAL_TYPE 0 "") IsEqualPid true u).2.
Definition RemoveRecordFromStartListByTokenAndIdentity (tokenId : Z) (enhancedIdentity : string) u : Using :=
  (ToRemoveRecord (mkContinuousPermissionRecord tokenId 0 0 0 0 NORMAL_TYPE 0 enhancedIdentity) IsEqualTokenIdAndIdentity true u).2.

(** ** Uses from another device. *)
Definition remote_ltb (a b : RemoteContinuousPermissionRecord) : bool :=
  if negb (rc_opCode a =? rc_opCode b) then rc_opCode a <? rc_opCode b else rc_callerPid a <? rc_callerPid b.
(** [std::multiset::emplace]: after the elements that are not greater. *)
Fixpoint multiset_emplace (r : RemoteContinuousPermissionRecord) (l : list RemoteContinuousPermissionRecord)
    : list RemoteContinuousPermissionRecord :=
  match l with [] => [r] | x :: l' => if remote_ltb r x then r :: l else x :: multiset_emplace r l' end.

Definition CallbackRemoteExecute (remoteDeviceId remoteDeviceName permissionName : string) (type : Z) : UseEvent :=
  EvActive (mkActiveChangeResponse 0 0 permissionName type NORMAL_TYPE (-1) true remoteDeviceId remoteDeviceName "" "" "") TOKEN_ONLY.

Definition AddRecordToStartRemoteList (info : RemotePermissionUsedInfo) (type callerPid : Z) u : Z * Using :=
  match TransferPermissionToOpcode (ru_permissionName info) with
  | None => (PrivacyTypes.ERR_PERMISSION_NOT_EXIST, u)
  | Some opCode =>
      if negb (str_empty (uniqueDeviceId u)) && negb (String.eqb (uniqueDeviceId u) (ru_remoteDeviceId info))
      then (ERR_REMOTE_USING_CONFLICT, u)
      else
        let u := set_remote (multiset_emplace (mkRemoteContinuousPermissionRecord opCode callerPid) (startRemoteRecordList u))
                   (ru_remoteDeviceId info) (ru_remoteDeviceName info) u in
        (SUCCESS, tell [CallbackRemoteExecute (uniqueDeviceId u) (ru_remoteDeviceName info) (ru_permissionName info) type] u)
  end.

Definition StartRemoteUsingPermission (info : RemotePermissionUsedInfo) (callerPid : Z) u : Z * Using :=
  if negb (IsPermissionNameValid (ru_permissionName info)) || negb (IsDeviceIdValid (ru_remoteDeviceId info)) ||
     negb (IsDeviceNameValid (ru_remoteDeviceName info)) then (PrivacyTypes.ERR_PARAM_INVALID, u)
  else
    let permissionName := ru_permissionName info in
    let u := InitializeMuteState permissionName u in
    if IsEdmMuteOrDisable permissionName u then (ERR_EDM_POLICY_CHECK_FAILED, u)
    else
      let '(ok, u) := Register u in
      if negb ok then (PrivacyTypes.ERR_MALLOC_FAILED, u)
      else
        let type := if negb APP_SECURITY_PRIVACY_SERVICE && negb (GetGlobalSwitchStatus permissionName u)
                    then PERM_INACTIVE else PERM_REMOTE_USING in
        AddRecordToStartRemoteList info type callerPid u.

(** The loop of [ToRemoveRemoteRecord]: the records left and the changes told. *)
Fixpoint remove_remote (hit : RemoteContinuousPermissionRecord -> bool) (removeAll : bool) (id name : string)
    (l : list RemoteContinuousPermissionRecord) : list RemoteContinuousPermissionRecord * list UseEvent :=
  match l with
  | [] => ([], [])
  | it :: rest =>
      if hit it then
        let event := CallbackRemoteExecute id name (TransferOpcodeToPermission (rc_opCode it) "").2 PERM_INACTIVE in
        if removeAll then let '(rest, evs) := remove_remote hit removeAll id name rest in (rest, event :: evs)
        else (rest, [event])
      else let '(rest, evs) := remove_remote hit removeAll id name rest in (it :: rest, evs)
  end.
Definition ToRemoveRemoteRecord (hit : RemoteContinuousPermissionRecord -> bool) (removeAll : bool) u : bool * Using :=
  let '(rest, evs) := remove_remote hit removeAll (uniqueDeviceId u) (uniqueDeviceName u) (startRemoteRecordList u) in
  let id := match rest with [] => "" | _ => uniqueDeviceId u end in
  (match evs with [] => false | _ => true end, tell evs (set_remote rest id (uniqueDeviceName u) u)).

Definition StopRemoteUsingPermission (remoteDeviceId remoteDeviceName permissionName : string) (callerPid : Z) u : Z * Using :=
  if negb (IsDeviceIdValid remoteDeviceId) || negb (IsDeviceNameValid remoteDeviceName) then (PrivacyTypes.ERR_PARAM_INVALID, u)
  else
    match TransferPermissionToOpcode permissionName with
    | None => (PrivacyTypes.ERR_PERMISSION_NOT_EXIST, u)
    | Some opCode =>
        if str_empty (uniqueDeviceId u) || negb (String.eqb (uniqueDeviceId u) remoteDeviceId)
        then (ERR_PERMISSION_NOT_START_USING, u)
        else
          let '(removed, u) :=
            ToRemoveRemoteRecord (fun it => (opCode =? rc_opCode it) && (callerPid =? rc_callerPid it)) false u in
          if negb removed then (ERR_PERMISSION_NOT_START_USING, u) else (SUCCESS, u)
    end.

(** ** The end of a caller. *)
Definition remove_caller_bundles (callerPid : Z) (m : gmap string (list (Z * Z))) : gmap string (list (Z * Z)) :=
  omap (fun records => match filter (fun r : Z * Z => r.2 <> callerPid) records with [] => None | l => Some l end) m.
Definition RemoveRecordFromStartListByCallerPid (callerPid : Z) u : Using :=
  let u := (ToRemoveRecord (mkContinuousPermissionRecord 0 0 0 0 callerPid NORMAL_TYPE 0 "") IsEqualCallerPid true u).2 in
  let u := if PRIVACY_BUNDLE_START_STOP_ENABLE then set_bundles (remove_caller_bundles callerPid (bundleStartRecordMap u)) u else u in
  if REMOTE_PRIVACY_ENABLE then (ToRemoveRemoteRecord (fun it => callerPid =? rc_callerPid it) true u).2 else u.

(** ** Starting. *)
Definition ShowGlobalDialog (permissionName : string) : bool :=
  let ask resource := match StartAbility resource with None => false | Some err => err =? 0 end in
  if String.eqb permissionName CAMERA_PERMISSION_NAME then ask "camera"
  else if String.eqb permissionName MICROPHONE_PERMISSION_NAME then ask "microphone"
  else true.

(** From the policy check to the status of the new record, common to the two overloads. *)
Definition start_status (tokenId : Z) (permissionName : string) u : (Z + Z) * Using :=
  let u := InitializeMuteState permissionName u in
  if IsEdmMuteOrDisable permissionName u then (inl ERR_EDM_POLICY_CHECK_FAILED, u)
  else
    let '(ok, u) := Register u in
    if negb ok then (inl PrivacyTypes.ERR_MALLOC_FAILED, u)
    else
      let status := GetAppStatus tokenId (-1) in
      if negb APP_SECURITY_PRIVACY_SERVICE && negb (GetGlobalSwitchStatus permissionName u) then
        if negb (ShowGlobalDialog permissionName) then (inl PrivacyTypes.ERR_SERVICE_ABNORMAL, u) else (inr PERM_INACTIVE, u)
      else (inr status, u).

Definition StartUsingPermission (info : PermissionUsedTypeInfo) (callerPid : Z) u : Z * Using :=
  match NormalizeRecordTokenId (pu_tokenId info) with
  | inl ret => (ret, u)
  | inr tokenId =>
      let permissionName := pu_permissionName info in
      if negb (IsEnhancedIdentityValid (pu_enhancedIdentity info)) then (PrivacyTypes.ERR_PARAM_INVALID, u)
      else if GetTokenTypeFlag tokenId =? TOKEN_NATIVE
      then (if VerifyNativeRecordPermission permissionName tokenId then SUCCESS else PrivacyTypes.ERR_PARAM_INVALID, u)
      else if negb (GetTokenTypeFlag tokenId =? TOKEN_HAP) then (PrivacyTypes.ERR_PARAM_INVALID, u)
      else
        match start_status tokenId permissionName u with
        | (inl ret, u) => (ret, u)
        | (inr status, u) => AddRecordToStartList (with_tokenId tokenId info) status callerPid u
        end
  end.

Definition StartUsingPermission_callback (info : PermissionUsedTypeInfo) (callback callerPid : Z) u : Z * Using :=
  match NormalizeRecordTokenId (pu_tokenId info) with
  | inl ret => (ret, u)
  | inr tokenId =>
      let permissionName := pu_permissionName info in
      if GetTokenTypeFlag tokenId =? TOKEN_NATIVE
      then (if VerifyNativeRecordPermission permissionName tokenId then SUCCESS else PrivacyTypes.ERR_PARAM_INVALID, u)
      else if negb (IsCameraPermission permissionName) || negb (GetTokenTypeFlag tokenId =? TOKEN_HAP)
      then (PrivacyTypes.ERR_PARAM_INVALID, u)
      else
        match start_status tokenId permissionName u with
        | (inl ret, u) => (ret, u)
        | (inr status, u) =>
            let camera := String.eqb permissionName CAMERA_PERMISSION_NAME in
            let id := GetUniqueId tokenId (pu_pid info) in
            let u := if camera then set_cameras (<[id := callback]> (cameraCallbackMap u)) (dvrCameraCallbackMap u) u
                     else set_cameras (cameraCallbackMap u) (<[id := callback]> (dvrCameraCallbackMap u)) u in
            let '(ret, u) := AddRecordToStartList (with_tokenId tokenId info) status callerPid u in
            if negb (ret =? RET_SUCCESS) then
              (ret, if camera then set_cameras (delete id (cameraCallbackMap u)) (dvrCameraCallbackMap u) u
                    else set_cameras (cameraCallbackMap u) (delete id (dvrCameraCallbackMap u)) u)
            else (ret, u)
        end
  end.

Definition StopUsingPermission (tokenId pid : Z) (permissionName : string) (callerPid : Z) (enhancedIdentity : string) u : Z * Using :=
  if negb (IsEnhancedIdentityValid enhancedIdentity) then (PrivacyTypes.ERR_PARAM_INVALID, u)
  else
    match NormalizeRecordTokenId tokenId with
    | inl ret => (ret, u)
    | inr tokenId =>
        if GetTokenTypeFlag tokenId =? TOKEN_NATIVE
        then (if VerifyNativeRecordPermission permissionName tokenId then SUCCESS else PrivacyTypes.ERR_PARAM_INVALID, u)
        else if negb (GetTokenTypeFlag tokenId =? TOKEN_HAP) then (PrivacyTypes.ERR_PARAM_INVALID, u)
        else RemoveRecordFromStartList tokenId pid permissionName callerPid enhancedIdentity u
    end.

(** ** Uses by bundle. *)
Definition bundle_event (bundleName permissionName : string) (type : Z) : UseEvent :=
  EvActive (mkActiveChangeResponse GetCallingTokenID INVALID_TOKENID permissionName type NORMAL_TYPE (-1) false "" "" "" "" bundleName) ALL.

Definition StartUsingPermission_bundle (bundleName permissionName : string) (callerPid : Z) u : Z * Using :=
  if negb (IsBundleNameValid bundleName) || negb (IsPermissionNameValid permissionName) then (PrivacyTypes.ERR_PARAM_INVALID, u)
  else
    match TransferPermissionToOpcode permissionName with
    | None => (PrivacyTypes.ERR_PERMISSION_NOT_EXIST, u)
    | Some opCode =>
        let u := InitializeMuteState permissionName u in
        if IsEdmMuteOrDisable permissionName u then (ERR_EDM_POLICY_CHECK_FAILED, u)
        else
          let '(ok, u) := Register u in
          if negb ok then (PrivacyTypes.ERR_MALLOC_FAILED, u)
          else
            let records := default [] (bundleStartRecordMap u !! bundleName) in
            if bool_decide ((opCode, callerPid) ∈ records)
            then (ERR_PERMISSION_ALREADY_START_USING, set_bundles (<[bundleName := records]> (bundleStartRecordMap u)) u)
            else
              (SUCCESS, tell [bundle_event bundleName permissionName PERM_ACTIVE_IN_FOREGROUND]
                          (set_bundles (<[bundleName := records ++ [(opCode, callerPid)]]> (bundleStartRecordMap u)) u))
    end.

Definition StopUsingPermission_bundle (bundleName permissionName : string) (callerPid : Z) u : Z * Using :=
  if negb (IsBundleNameValid bundleName) || negb (IsPermissionNameValid permissionName) then (PrivacyTypes.ERR_PARAM_INVALID, u)
  else
    match TransferPermissionToOpcode permissionName with
    | None => (PrivacyTypes.ERR_PERMISSION_NOT_EXIST, u)
    | Some opCode =>
        match bundleStartRecordMap u !! bundleName with
        | None => (ERR_PERMISSION_NOT_START_USING, u)
        | Some records =>
            if bool_decide ((opCode, callerPid) ∈ records) then
              let records := erase_first (fun r : Z * Z => (r.1 =? opCode) && (r.2 =? callerPid)) records in
              let m := match records with
                       | [] => delete bundleName (bundleStartRecordMap u)
                       | _ => <[bundleName := records]> (bundleStartRecordMap u)
                       end in
              (SUCCESS, tell [bundle_event bundleName permissionName PERM_INACTIVE] (set_bundles m u))
            else (ERR_PERMISSION_NOT_START_USING, u)
        end
    end.

(** ** Events of applications. *)

(** The loop of [ExecuteAndUpdateRecord]: the records left, the updated ones, and whether a
    camera was met that may not go on in the background. *)
Definition update_loop (tokenId status : Z) (hasCameraBackground : bool) u
    : list ContinuousPermissionRecord * list ContinuousPermissionRecord * bool :=
  fold_left (fun '(kept, updated, cam) it =>
    if (cr_tokenId it =? tokenId) && negb (cr_status it =? PERM_INACTIVE) && negb (cr_status it =? status) then
      let perm := (TransferOpcodeToPermission (cr_opCode it) "").2 in
      if GetMuteStatus perm EDM u || negb (GetGlobalSwitchStatus perm u) then (kept ++ [it], updated, cam)
      else if CAMERA_FLOAT_WINDOW_ENABLE && IsCameraPermission perm && (status =? PERM_ACTIVE_IN_BACKGROUND) && negb hasCameraBackground
      then (kept ++ [it], updated, true)
      else (kept, set_emplace (set_cr_status status it) updated, cam)
    else (kept ++ [it], updated, cam)) (startRecordList u) ([], [], false).

Definition ExecuteAndUpdateRecord (tokenId pid status : Z) u : Using :=
  let hasCameraBackground :=
    CAMERA_FLOAT_WINDOW_ENABLE && (status =? PERM_ACTIVE_IN_BACKGROUND) &&
    (VerifyAccessToken tokenId CAMERA_BACKGROUND_PERMISSION_NAME =? PERMISSION_GRANTED) in
  let '(kept, updateList, cam) := update_loop tokenId status hasCameraBackground u in
  let u := set_list (set_insert_all updateList kept) u in
  if cam then tell [EvCameraTask tokenId pid] u else u.

Definition NotifyAppStateChange (tokenId pid status : Z) u : Using :=
  if GetAppStatus tokenId (-1) =? PERM_ACTIVE_IN_FOREGROUND then u else ExecuteAndUpdateRecord tokenId pid status u.

Definition APP_STATE_FOREGROUND : Z := 2.
Definition APP_STATE_BACKGROUND : Z := 4.
Definition APP_STATE_TERMINATED : Z := 5.
Definition OnAppStateChanged (tokenId pid state : Z) u : Using :=
  let status := if state =? APP_STATE_FOREGROUND then PERM_ACTIVE_IN_FOREGROUND
                else if state =? APP_STATE_BACKGROUND then PERM_ACTIVE_IN_BACKGROUND else PERM_INACTIVE in
  NotifyAppStateChange tokenId pid status u.
Definition OnAppStopped (tokenId state : Z) u : Using :=
  if state =? APP_STATE_TERMINATED then RemoveRecordFromStartListByTokenAndIdentity tokenId "" u else u.
Definition OnProcessDied (tokenId pid : Z) u : Using := RemoveRecordFromStartListByPid tokenId pid u.

(** The camera callbacks: the detached task for one token, and all of them. *)
Definition camera_task (callbackTokenId : Z) u : list UseEvent :=
  let notify (m : gmap Z Z) :=
    omap (fun e : Z * Z => if callbackTokenId =? e.1 .& 0xFFFFFFFF then Some (EvCamera (e.1 .& 0xFFFFFFFF)) else None) (map_to_list m) in
  notify (cameraCallbackMap u) ++ notify (dvrCameraCallbackMap u).
Definition ExecuteAllCameraExecuteCallback u : Using :=
  let notify (m : gmap Z Z) := map (fun e : Z * Z => EvCamera (u32 e.1)) (map_to_list m) in
  tell (notify (cameraCallbackMap u) ++ notify (dvrCameraCallbackMap u)) u.

(** ** Changes of policies. *)
Definition UpdateStartUsingRecord (permissionName : string) (switchStatus : bool) u : Using :=
  match TransferPermissionToOpcode permissionName with
  | None => u
  | Some opCode =>
      let kept := filter (fun r => cr_opCode r <> opCode) (startRecordList u) in
      let updated := map (fun r => set_cr_status (if switchStatus then GetAppStatus (cr_tokenId r) (-1) else PERM_INACTIVE) r)
                       (filter (fun r => cr_opCode r = opCode) (startRecordList u)) in
      let updatedRecordList := set_insert_all updated [] in
      tell (map (fun r => CallbackExecute r permissionName NORMAL_TYPE) updatedRecordList)
        (set_list (set_insert_all updatedRecordList kept) u)
  end.

Definition UpdateStartRemoteUsingRecord (permissionName : string) (switchStatus : bool) u : Using :=
  if switchStatus then u
  else
    let opCode := default 0 (TransferPermissionToOpcode permissionName) in
    let updated := filter (fun r => rc_opCode r = opCode) (startRemoteRecordList u) in
    let rest := filter (fun r => rc_opCode r <> opCode) (startRemoteRecordList u) in
    let evs := map (fun _ => CallbackRemoteExecute (uniqueDeviceId u) (uniqueDeviceName u) permissionName PERM_INACTIVE) updated in
    tell evs (set_remote rest (match rest with [] => "" | _ => uniqueDeviceId u end) (uniqueDeviceName u) u).

Definition ExecuteAndUpdateRecordByPerm (permissionName : string) (switchStatus : bool) u : Using :=
  let u := UpdateStartUsingRecord permissionName switchStatus u in
  if REMOTE_PRIVACY_ENABLE then UpdateStartRemoteUsingRecord permissionName switchStatus u else u.

Definition SetEdmMutePolicy (permissionName : string) (isMute : bool) u : Z * Using :=
  if isMute then
    let u := ModifyMuteStatus permissionName EDM isMute u in
    let u := ModifyMuteStatus permissionName MIXED isMute u in
    (RET_SUCCESS, if negb APP_SECURITY_PRIVACY_SERVICE then ExecuteAndUpdateRecordByPerm permissionName false u else u)
  else
    let u := ModifyMuteStatus permissionName EDM isMute u in
    if GetMuteStatus permissionName MIXED u then (ERR_PRIVACY_POLICY_CHECK_FAILED, u) else (RET_SUCCESS, u).
Definition SetPrivacyMutePolicy (permissionName : string) (isMute : bool) u : Z * Using :=
  if negb isMute && GetMuteStatus permissionName EDM u then (ERR_EDM_POLICY_CHECK_FAILED, u)
  else
    let u := ModifyMuteStatus permissionName MIXED isMute u in
    (RET_SUCCESS, if negb APP_SECURITY_PRIVACY_SERVICE then ExecuteAndUpdateRecordByPerm permissionName (negb isMute) u else u).
Definition SetTempMutePolicy (permissionName : string) (isMute : bool) u : Z * Using :=
  if negb isMute then
    if GetMuteStatus permissionName EDM u then (ERR_EDM_POLICY_CHECK_FAILED, u)
    else if GetMuteStatus permissionName MIXED u then
      (ERR_PRIVACY_POLICY_CHECK_FAILED,
       tell [CallbackExecute (mkContinuousPermissionRecord GetCallingTokenID 0 PERM_TEMPORARY_CALL (-1) (-1) NORMAL_TYPE 0 "")
               permissionName NORMAL_TYPE] u)
    else (RET_SUCCESS, u)
  else (RET_SUCCESS, u).
Definition SetMutePolicy (policyType : PolicyType) (callerType : CallerType) (isMute : bool) (tokenID : Z) u : Z * Using :=
  let permissionName := match callerType with MICROPHONE => MICROPHONE_PERMISSION_NAME | CAMERA => CAMERA_PERMISSION_NAME end in
  match policyType with
  | EDM => if negb (EdmTokenId =? tokenID) then (ERR_FIRST_CALLER_NOT_EDM, u) else SetEdmMutePolicy permissionName isMute u
  | PRIVACY => SetPrivacyMutePolicy permissionName isMute u
  | TEMPORARY => SetTempMutePolicy permissionName isMute u
  | MIXED => (PrivacyTypes.ERR_PARAM_INVALID, u)
  end.

Definition SetHapWithFGReminder (tokenId : Z) (isAllowed : bool) u : Z * Using :=
  if negb (GetTokenTypeFlag tokenId =? TOKEN_HAP) then (PrivacyTypes.ERR_PARAM_INVALID, u)
  else
    let found := bool_decide (tokenId ∈ foreTokenIdList u) in
    if negb found && isAllowed
    then (RET_SUCCESS, set_screen (lockScreenStatus u) (isScreenOn u) (foreTokenIdList u ++ [tokenId]) u)
    else if found && negb isAllowed
    then (RET_SUCCESS, set_screen (lockScreenStatus u) (isScreenOn u) (erase_first (Z.eqb tokenId) (foreTokenIdList u)) u)
    else (PrivacyTypes.ERR_PARAM_INVALID, u).
Definition SetLockScreenStatus (status : Z) u : Using := set_screen status (isScreenOn u) (foreTokenIdList u) u.
Definition SetScreenOn (on : bool) u : Using := set_screen (lockScreenStatus u) on (foreTokenIdList u) u.

(** ** Questions. *)
Definition IsAllowedUsingCamera (tokenId pid : Z) u : bool :=
  if cameraPrivacyControlEnhanceEnable u && (lockScreenStatus u =? PERM_ACTIVE_IN_LOCKED) then false
  else if cameraPrivacyControlEnhanceEnable u && negb (isScreenOn u) then false
  else if GetAppStatus tokenId pid =? PERM_ACTIVE_IN_FOREGROUND then true
  else VerifyAccessToken tokenId CAMERA_BACKGROUND_PERMISSION_NAME =? PERMISSION_GRANTED.
Definition IsAllowedUsingMicrophone (tokenId pid : Z) u : bool :=
  if GetAppStatus tokenId pid =? PERM_ACTIVE_IN_FOREGROUND then true
  else if bool_decide (tokenId ∈ foreTokenIdList u) then true
  else VerifyAccessToken tokenId MICROPHONE_BACKGROUND_PERMISSION_NAME =? PERMISSION_GRANTED.
Definition IsAllowedUsingPermission (tokenId : Z) (permissionName : string) (pid : Z) u : bool :=
  let allowed normalizedTokenId normalizedPid :=
    if GetTokenTypeFlag normalizedTokenId =? TOKEN_NATIVE then VerifyNativeRecordPermission permissionName normalizedTokenId
    else if negb (GetTokenTypeFlag normalizedTokenId =? TOKEN_HAP) then false
    else if IsCameraPermission permissionName then IsAllowedUsingCamera normalizedTokenId normalizedPid u
    else if String.eqb permissionName MICROPHONE_PERMISSION_NAME then IsAllowedUsingMicrophone normalizedTokenId normalizedPid u
    else false in
  if IsBinTokenId tokenId then
    match NormalizeBinRecordTokenId tokenId with inl _ => false | inr parent => allowed parent (-1) end
  else allowed tokenId pid.

Definition HasCallerInStartList (callerPid : Z) u : bool :=
  existsb (fun r => cr_callerPid r =? callerPid) (startRecordList u) ||
  (PRIVACY_BUNDLE_START_STOP_ENABLE &&
   existsb (fun item : string * list (Z * Z) => existsb (fun r : Z * Z => r.2 =? callerPid) item.2) (map_to_list (bundleStartRecordMap u))) ||
  (REMOTE_PRIVACY_ENABLE && existsb (fun r => rc_callerPid r =? callerPid) (startRemoteRecordList u)).

Definition CheckPermissionInUse (permissionName : string) u : Z + bool :=
  match TransferPermissionToOpcode permissionName with
  | None => inl PrivacyTypes.ERR_PERMISSION_NOT_EXIST
  | Some opCode =>
      inr (existsb (fun r => (cr_opCode r =? opCode) && negb (cr_status r =? PERM_INACTIVE)) (startRecordList u) ||
           (PRIVACY_BUNDLE_START_STOP_ENABLE &&
            existsb (fun item : string * list (Z * Z) => existsb (fun r : Z * Z => r.1 =? opCode) item.2) (map_to_list (bundleStartRecordMap u))) ||
           (REMOTE_PRIVACY_ENABLE && existsb (fun r => rc_opCode r =? opCode) (startRemoteRecordList u)))
  end.

Definition GetCurrUsingPermInfo u : list ActiveChangeResponse :=
  map (fun r => mkActiveChangeResponse (cr_callertokenId r) (cr_tokenId r) (TransferOpcodeToPermission (cr_opCode r) "").2
                  (cr_status r) (cr_usedType r) (cr_pid r) false "" "" "" (cr_enhancedIdentity r) "") (startRecordList u) ++
  (if PRIVACY_BUNDLE_START_STOP_ENABLE then
     concat (map (fun item : string * list (Z * Z) =>
       map (fun r : Z * Z => mkActiveChangeResponse INVALID_TOKENID INVALID_TOKENID (TransferOpcodeToPermission r.1 "").2
                               PERM_ACTIVE_IN_FOREGROUND NORMAL_TYPE (-1) false "" "" "" "" item.1) item.2)
       (map_to_list (bundleStartRecordMap u)))
   else []) ++
  (if REMOTE_PRIVACY_ENABLE then
     map (fun r => mkActiveChangeResponse INVALID_TOKENID INVALID_TOKENID (TransferOpcodeToPermission (rc_opCode r) "").2
                     PERM_REMOTE_USING NORMAL_TYPE (-1) true (uniqueDeviceId u) (uniqueDeviceName u) "" "" "") (startRemoteRecordList u)
   else []).

End Manager.
