(* ===== verification/PrivacyUsageProps.v ===== *)
(** * What the privacy manager knows about uses in progress

    The list of uses stays an ordered set of well-formed records whatever happens: the
    operations on it, and the histories of the manager as a step relation. *)

From stdpp Require Import base gmap list strings sorting.
From S2P Require Import Prelude AccessTokenTypes TokenId PermissionMap Validator PrivacyTypes PrivacyRecordSet PrivacyUsage.
#[local] Open Scope string_scope.
#[local] Open Scope list_scope.
#[local] Open Scope Z_scope.
#[local] Open Scope cxx_scope.

(** ** Names and codes. *)
Lemma opcode_names : forallb (fun item : string * Z =>
    bool_decide ((TransferOpcodeToPermission item.2 "").2 = item.1) && bool_decide (TransferPermissionToOpcode item.1 = Some item.2) &&
    (0 <=? item.2) && (item.2 <? 2 ^ 32)) PERMISSION_OPCODE_MAP = true.
Proof. vm_compute. reflexivity. Qed.

Lemma opcode_item name op : TransferPermissionToOpcode name = Some op -> (name, op) ∈ PERMISSION_OPCODE_MAP.
Proof.
  unfold TransferPermissionToOpcode. destruct (find_if _ _) as [[n o]|] eqn:F; [|done]. intros [= <-].
  apply find_if_Some in F as [Hin E]. cbn in E. by apply String.eqb_eq in E as ->.
Qed.
Lemma opcode_name name op p : TransferPermissionToOpcode name = Some op -> (TransferOpcodeToPermission op p).2 = name /\ is_u32 op.
Proof.
  intros H. pose proof (opcode_item _ _ H) as Hin. pose proof opcode_names as Ha. rewrite forallb_forall in Ha.
  apply list_elem_of_In in Hin. specialize (Ha _ Hin). cbn [fst snd] in Ha.
  rewrite !andb_true_iff, !bool_decide_eq_true, Z.leb_le, Z.ltb_lt in Ha. destruct Ha as [[[Ha _] ?] ?].
  split; [|unfold is_u32; lia]. revert Ha. unfold TransferOpcodeToPermission. destruct (find_if _ _) as [item|] eqn:F; [done|].
  rewrite find_if_None in F. apply list_elem_of_In in Hin. specialize (F _ Hin). cbn in F. by rewrite Z.eqb_refl in F.
Qed.

(** ** The invariant. *)
Definition record_wf (r : ContinuousPermissionRecord) : Prop :=
  GetTokenTypeFlag (cr_tokenId r) = TOKEN_HAP /\ is_u32 (cr_tokenId r) /\
  (exists name, TransferPermissionToOpcode name = Some (cr_opCode r)) /\
  cr_status r ∈ [PERM_INACTIVE; PERM_ACTIVE_IN_FOREGROUND; PERM_ACTIVE_IN_BACKGROUND].

Lemma record_wf_ok r : record_wf r -> record_ok r.
Proof. intros (_ & ? & (name & Hn) & _). split; [done|]. by eapply (opcode_name _ _ ""). Qed.

Record using_inv (u : Using) : Prop := {
  ui_set : record_set (startRecordList u);
  ui_wf : Forall record_wf (startRecordList u);
  ui_bundles b l : bundleStartRecordMap u !! b = Some l -> l <> [] /\ NoDup l;
  ui_remote : uniqueDeviceId u = "" <-> startRemoteRecordList u = [];
}.

(** The part of the state the invariant looks at. *)
Definition same_uses (u u' : Using) : Prop :=
  startRecordList u' = startRecordList u /\ bundleStartRecordMap u' = bundleStartRecordMap u /\
  startRemoteRecordList u' = startRemoteRecordList u /\ uniqueDeviceId u' = uniqueDeviceId u.

Lemma same_uses_inv u u' : same_uses u u' -> using_inv u -> using_inv u'.
Proof. intros (E1 & E2 & E3 & E4) [H1 H2 H3 H4]. split; rewrite ?E1, ?E2, ?E3, ?E4; done. Qed.

(** ** Updating records in place. *)
Lemma sorted_ext l : forall k, record_set l -> record_set k -> (forall x, x ∈ l <-> x ∈ k) -> l = k.
Proof.
  induction l as [|x l IH]; intros k Hl Hk Hx.
  { destruct k as [|y k]; [done|]. assert (y ∈ @nil ContinuousPermissionRecord) as ?%elem_of_nil by (apply Hx; left). done. }
  destruct k as [|y k]; [assert (x ∈ @nil ContinuousPermissionRecord) as ?%elem_of_nil by (apply Hx; left); done|].
  inversion_clear Hl as [|?? Hl' Fx]. inversion_clear Hk as [|?? Hk' Fy]. rewrite Forall_forall in Fx. rewrite Forall_forall in Fy.
  assert (x = y) as <-.
  { assert (x ∈ y :: k) as [->|H1]%elem_of_cons by (apply Hx; left); [done|].
    assert (y ∈ x :: l) as [->|H2]%elem_of_cons by (apply Hx; left); [done|].
    destruct (rlt_irrefl x). eapply rlt_trans; [by apply Fx|by apply Fy]. }
  f_equal. apply IH; [done..|]. intros z. split; intros Hz.
  - assert (z ∈ x :: k) as [->|?]%elem_of_cons by (apply Hx; by right); [|done]. destruct (rlt_irrefl x). by apply Fx.
  - assert (z ∈ x :: l) as [->|?]%elem_of_cons by (apply Hx; by right); [|done]. destruct (rlt_irrefl x). by apply Fy.
Qed.

Lemma insert_all_elem rs : forall l, record_set rs -> (forall r x, r ∈ rs -> x ∈ l -> ~ req r x) ->
  forall x, x ∈ set_insert_all rs l <-> x ∈ rs \/ x ∈ l.
Proof.
  induction rs as [|r rs IH]; intros l Hrs Hd x; cbn [set_insert_all fold_left]; [rewrite elem_of_nil; tauto|].
  fold (set_insert_all rs (set_emplace r l)). inversion_clear Hrs as [|?? Hrs' Hr]. rewrite Forall_forall in Hr.
  rewrite IH; [|done|].
  - rewrite elem_of_cons. split.
    + intros [?|[?|?]%elem_of_emplace]; tauto.
    + intros [[->|?]|?]; [right; apply emplace_new; intros y Hy; apply Hd; [left|done]|tauto|right; by apply emplace_subset].
  - intros a y Ha [->|Hy]%elem_of_emplace; [|apply Hd; [by right|done]]. intros E. destruct (req_rlt r a); [|by apply Hr].
    destruct E as (? & ? & ?). split; [by apply geq_sym|done].
Qed.

Lemma status_order s r x : (rlt (set_cr_status s r) x <-> rlt r x) /\ (rlt x (set_cr_status s r) <-> rlt x r) /\
  (req (set_cr_status s r) x <-> req r x).
Proof. done. Qed.

Definition set_where (c : ContinuousPermissionRecord -> bool) (f : ContinuousPermissionRecord -> Z) (l : list ContinuousPermissionRecord)
    : list ContinuousPermissionRecord := map (fun r => if c r then set_cr_status (f r) r else r) l.

Lemma set_where_sorted c f l : record_set l -> record_set (set_where c f l).
Proof.
  induction 1 as [|r l Hl IH Hr]; cbn; [constructor|]. constructor; [done|]. rewrite Forall_forall in *.
  intros x (y & -> & Hy)%list_elem_of_fmap. specialize (Hr y Hy). by destruct (c r), (c y).
Qed.

(** Taking records out, changing their status and putting them back. *)
Lemma update_in_place c f l : record_set l ->
  set_insert_all (set_insert_all (map (fun r => set_cr_status (f r) r) (filter (fun r => c r = true) l)) []) (filter (fun r => c r = false) l) =
  set_where c f l.
Proof.
  intros Hl. assert (record_set (map (fun r => set_cr_status (f r) r) (filter (fun r => c r = true) l))) as Hm.
  { assert (record_set (filter (fun r => c r = true) l)) as Hf by (by apply sorted_filter).
    clear Hl. induction Hf as [|r k Hk IH Hr]; cbn; [constructor|]. constructor; [done|]. rewrite Forall_forall in *.
    intros x (y & -> & Hy)%list_elem_of_fmap. by apply (Hr y). }
  assert (set_insert_all (map (fun r => set_cr_status (f r) r) (filter (fun r => c r = true) l)) [] =
    map (fun r => set_cr_status (f r) r) (filter (fun r => c r = true) l)) as ->.
  { apply sorted_ext; [apply insert_all_sorted; constructor|done|]. intros x. rewrite insert_all_elem; [|done|by intros ?? _ ?%elem_of_nil].
    rewrite elem_of_nil. tauto. }
  apply sorted_ext; [apply insert_all_sorted; by apply sorted_filter|by apply set_where_sorted|].
  intros x. rewrite insert_all_elem; [|done|].
  - unfold set_where. rewrite !list_elem_of_fmap, list_elem_of_filter. setoid_rewrite list_elem_of_filter. split.
    + intros [(y & -> & Hc & Hy)|[Hc Hx]]; [exists y; by rewrite Hc|exists x; by rewrite Hc].
    + intros (y & -> & Hy). destruct (c y) eqn:E; [left; by exists y|by right].
  - intros a b (y & -> & [Hc Hy]%list_elem_of_filter)%list_elem_of_fmap [Hb Hbl]%list_elem_of_filter E.
    assert (y = b) as -> by (eapply sorted_unique; [exact Hl|exact Hy|exact Hbl|exact E]). congruence.
Qed.

Section Manager.
Context {PC : PrivacyConfig}.
Implicit Types (SV : Services) (u : Using).

Lemma Modify_same p i b u : same_uses u (ModifyMuteStatus p i b u).
Proof. unfold ModifyMuteStatus. by repeat split_if. Qed.
Lemma Init_same SV p u : same_uses u (InitializeMuteState p u).
Proof.
  unfold InitializeMuteState. repeat split_if; try done; cbv zeta; destruct (GetMuteParameter _); by unfold ModifyMuteStatus; cbn; rewrite ?String.eqb_refl; cbn.
Qed.
Lemma Register_same SV u ok u' : Register u = (ok, u') -> same_uses u u'.
Proof. unfold Register. repeat split_if; by intros [= <- <-]. Qed.

Lemma same_uses_trans u v w : same_uses u v -> same_uses v w -> same_uses u w.
Proof. unfold same_uses. intuition congruence. Qed.

Lemma set_list_inv l u : using_inv u -> record_set l -> Forall record_wf l -> using_inv (set_list l u).
Proof. intros [H1 H2 H3 H4] ??. by split. Qed.
Lemma tell_inv evs u : using_inv u -> using_inv (tell evs u).
Proof. by intros [H1 H2 H3 H4]. Qed.

Lemma GetAppStatus_cases SV t p : GetAppStatus t p ∈ [PERM_INACTIVE; PERM_ACTIVE_IN_FOREGROUND; PERM_ACTIVE_IN_BACKGROUND].
Proof. unfold GetAppStatus. split_if; set_solver. Qed.

Lemma Forall_emplace (P : ContinuousPermissionRecord -> Prop) r l : P r -> Forall P l -> Forall P (set_emplace r l).
Proof. rewrite !Forall_forall. intros Hr Hl x [->|Hx]%elem_of_emplace; auto. Qed.
Lemma Forall_insert_all (P : ContinuousPermissionRecord -> Prop) rs : forall l, Forall P rs -> Forall P l -> Forall P (set_insert_all rs l).
Proof. induction rs as [|r rs IH]; intros l Hr Hl; cbn; [done|]. apply Forall_cons in Hr as [? ?]. apply IH; [done|by apply Forall_emplace]. Qed.

(** ** Starting. *)
Lemma AddRecord_cases SV info status caller u ret u' :
  AddRecordToStartList info status caller u = (ret, u') ->
  (ret <> SUCCESS /\ u' = u) \/
  exists op, TransferPermissionToOpcode (pu_permissionName info) = Some op /\ ret = SUCCESS /\
    let r := mkContinuousPermissionRecord (pu_tokenId info) op status (pu_pid info) caller (pu_type info) GetCallingTokenID
               (pu_enhancedIdentity info) in
    (forall x, x ∈ startRecordList u -> IsEqualRecord x r = false) /\
    u' = tell [CallbackExecute r (pu_permissionName info) (pu_type info)] (set_list (set_emplace r (startRecordList u)) u).
Proof.
  unfold AddRecordToStartList. destruct (TransferPermissionToOpcode _) as [op|]; [|by intros [= <- <-]; left].
  cbv zeta. split_if; intros [= <- <-]; [by left|]. right. exists op. split_and!; try done.
  intros x Hx. destruct (IsEqualRecord x _) eqn:Er; [|done]. exfalso. rewrite <- not_true_iff_false in E. apply E, existsb_exists.
  exists x. split; [by apply list_elem_of_In|done].
Qed.

Lemma AddRecord_inv SV info status caller u ret u' :
  using_inv u -> GetTokenTypeFlag (pu_tokenId info) = TOKEN_HAP -> is_u32 (pu_tokenId info) ->
  status ∈ [PERM_INACTIVE; PERM_ACTIVE_IN_FOREGROUND; PERM_ACTIVE_IN_BACKGROUND] ->
  AddRecordToStartList info status caller u = (ret, u') -> using_inv u'.
Proof.
  intros Hu Ht H32 Hs [[_ ->]|(op & Hop & -> & _ & ->)]%AddRecord_cases; [done|]. apply tell_inv, set_list_inv; [done|apply emplace_sorted, Hu|].
  apply Forall_emplace; [|apply Hu]. split_and!; [done|done|by exists (pu_permissionName info)|done].
Qed.

Lemma start_status_cases SV t p u r u' : start_status t p u = (r, u') ->
  same_uses u u' /\ (forall s, r = inr s -> s ∈ [PERM_INACTIVE; PERM_ACTIVE_IN_FOREGROUND; PERM_ACTIVE_IN_BACKGROUND]) /\
  (forall e, r = inl e -> e <> SUCCESS).
Proof.
  unfold start_status. pose proof (Init_same SV p u) as H1. set (v := InitializeMuteState p u) in *. cbv zeta.
  split_if; [intros [= <- <-]; split_and!; [done|done|by intros e [= <-]]|].
  destruct (Register v) as [ok w] eqn:R. apply Register_same in R. pose proof (same_uses_trans _ _ _ H1 R) as H2.
  split_if; [intros [= <- <-]; split_and!; [done|done|by intros e [= <-]]|].
  split_if; [split_if|]; intros [= <- <-]; split_and!; try done.
  - by intros e [= <-].
  - intros s [= <-]. set_solver.
  - intros s [= <-]. apply GetAppStatus_cases.
Qed.

(** ** Removing. *)
Lemma erase_cameras_same rs : forall u, same_uses u (fold_left erase_camera rs u).
Proof.
  induction rs as [|r rs IH]; intros u; cbn [fold_left]; [done|]. eapply same_uses_trans; [|apply IH].
  unfold erase_camera. cbv zeta. by split_if.
Qed.

Lemma insert_all_id l : record_set l -> set_insert_all l [] = l.
Proof.
  intros H. assert (forall acc, record_set (acc ++ l) -> set_insert_all l acc = acc ++ l) as Ha; [|exact (Ha [] H)].
  clear H. induction l as [|r l IH]; intros acc Hs; cbn; [by rewrite app_nil_r|].
  rewrite emplace_last.
  - rewrite IH; rewrite <- app_assoc; [done|exact Hs].
  - apply StronglySorted_app in Hs as (H1 & _ & _). apply Forall_forall. intros x Hx. apply H1; [done|left].
Qed.

(** The records that do not match stay, and each group of matching records that leaves no
    active record behind is reported once. *)
Lemma ToRemove_spec SV target eqf clear u ok u' :
  record_set (startRecordList u) -> ToRemoveRecord target eqf clear u = (ok, u') ->
  let removed := filter (fun it => eqf it target = true) (startRecordList u) in
  startRecordList u' = filter (fun it => eqf it target = false) (startRecordList u) /\
  bundleStartRecordMap u' = bundleStartRecordMap u /\ startRemoteRecordList u' = startRemoteRecordList u /\
  uniqueDeviceId u' = uniqueDeviceId u /\ ok = bool_decide (removed <> []) /\
  events u' = events u ++ tell_inactive (GetInActiveUniqueRecord (startRecordList u') removed) "".
Proof.
  intros Hs. unfold ToRemoveRecord, RemoveByKey. cbn [startRecordList]. set (removed := filter (fun it => eqf it target = true) _).
  assert (record_set removed) as Hr by (by apply sorted_filter). rewrite insert_all_id by done.
  assert (forall v : Using, same_uses v (fold_left erase_camera (GetUnusedCameraRecords (filter (fun it => eqf it target = false) (startRecordList u)) removed OP_CAMERA ++
            GetUnusedCameraRecords (filter (fun it => eqf it target = false) (startRecordList u)) removed OP_DVRCAMERA) v)) as Hc
    by (intros; apply erase_cameras_same).
  assert (forall rs v, events (fold_left erase_camera rs v) = events v) as He.
  { induction rs as [|r rs IH]; intros v; cbn [fold_left]; [done|]. rewrite IH. unfold erase_camera. cbv zeta. by split_if. }
  destruct removed as [|r0 rest] eqn:Er.
  { intros [= <- <-]. cbn. split_and!; try done. unfold GetInActiveUniqueRecord. cbn. by rewrite app_nil_r. }
  rewrite <- Er in *. split_if; intros [= <- <-].
  - cbn. split_and!; try done. by rewrite bool_decide_eq_true_2 by (by rewrite Er).
  - destruct (Hc (tell (tell_inactive (GetInActiveUniqueRecord (filter (fun it => eqf it target = false) (startRecordList u)) removed) "")
      (set_list (filter (fun it => eqf it target = false) (startRecordList u)) u))) as (E1 & E2 & E3 & E4). cbv zeta.
    rewrite E1, E2, E3, E4, He. cbn. split_and!; try done. by rewrite bool_decide_eq_true_2 by (by rewrite Er).
Qed.

Lemma Forall_filter_keep (P : ContinuousPermissionRecord -> Prop) (Q : ContinuousPermissionRecord -> Prop) `{!forall x, Decision (Q x)} l :
  Forall P l -> Forall P (filter Q l).
Proof. rewrite !Forall_forall. intros Hl x [_ Hx]%list_elem_of_filter. auto. Qed.

Lemma ToRemove_inv SV target eqf clear u : using_inv u -> using_inv (ToRemoveRecord target eqf clear u).2.
Proof.
  intros Hu. destruct (ToRemoveRecord target eqf clear u) as [ok u'] eqn:E. cbn [snd].
  apply ToRemove_spec in E as (E1 & E2 & E3 & E4 & _); [|apply Hu]. destruct Hu as [H1 H2 H3 H4]. split; rewrite ?E1, ?E2, ?E3, ?E4; try done.
  - by apply sorted_filter.
  - by apply Forall_filter_keep.
Qed.

(** ** Changes of status. *)
Lemma set_where_wf c f l : (forall r, f r ∈ [PERM_INACTIVE; PERM_ACTIVE_IN_FOREGROUND; PERM_ACTIVE_IN_BACKGROUND]) ->
  Forall record_wf l -> Forall record_wf (set_where c f l).
Proof.
  intros Hf. rewrite !Forall_forall. intros Hl x (y & -> & Hy)%list_elem_of_fmap. destruct (Hl y Hy) as (? & ? & ? & ?).
  destruct (c y); [|by apply Hl]. split_and!; [done..|apply Hf].
Qed.

(** The records an event of the application updates. *)
Definition updated_by SV (tokenId status : Z) u (it : ContinuousPermissionRecord) : bool :=
  let perm := (TransferOpcodeToPermission (cr_opCode it) "").2 in
  (cr_tokenId it =? tokenId) && negb (cr_status it =? PERM_INACTIVE) && negb (cr_status it =? status) &&
  negb (GetMuteStatus perm EDM u || negb (GetGlobalSwitchStatus perm u)) &&
  negb (CAMERA_FLOAT_WINDOW_ENABLE && IsCameraPermission perm && (status =? PERM_ACTIVE_IN_BACKGROUND) &&
        negb (VerifyAccessToken tokenId CAMERA_BACKGROUND_PERMISSION_NAME =? PERMISSION_GRANTED)).

Lemma update_loop_spec SV t s u :
  exists cam, update_loop t s (CAMERA_FLOAT_WINDOW_ENABLE && (s =? PERM_ACTIVE_IN_BACKGROUND) &&
      (VerifyAccessToken t CAMERA_BACKGROUND_PERMISSION_NAME =? PERMISSION_GRANTED)) u =
    (filter (fun r => updated_by SV t s u r = false) (startRecordList u),
     set_insert_all (map (set_cr_status s) (filter (fun r => updated_by SV t s u r = true) (startRecordList u))) [], cam).
Proof.
  unfold update_loop. match goal with |- exists cam, fold_left ?g _ _ = _ => set (f := g) end.
  assert (forall l kept upd c, exists cam, fold_left f l (kept, upd, c) =
    (kept ++ filter (fun r => updated_by SV t s u r = false) l,
     set_insert_all (map (set_cr_status s) (filter (fun r => updated_by SV t s u r = true) l)) upd, cam)) as H; [|apply (H _ [] [])].
  induction l as [|r l IH]; intros kept upd c; cbn [fold_left]; [exists c; by rewrite app_nil_r|].
  assert (exists c', f (kept, upd, c) r = if updated_by SV t s u r then (kept, set_emplace (set_cr_status s r) upd, c') else (kept ++ [r], upd, c')) as [c' ->].
  { unfold f, updated_by. destruct (cr_tokenId r =? t), (cr_status r =? PERM_INACTIVE), (cr_status r =? s), (GetMuteStatus _ EDM u),
      (GetGlobalSwitchStatus _ u), CAMERA_FLOAT_WINDOW_ENABLE, (IsCameraPermission _), (s =? PERM_ACTIVE_IN_BACKGROUND),
      (VerifyAccessToken _ _ =? PERMISSION_GRANTED); cbn; by eexists. }
  destruct (updated_by SV t s u r) eqn:E; destruct (IH (if updated_by SV t s u r then kept else kept ++ [r])
      (if updated_by SV t s u r then set_emplace (set_cr_status s r) upd else upd) c') as [cam Hc]; rewrite E in Hc; rewrite Hc; exists cam.
  - rewrite (filter_cons_False (fun r => updated_by SV t s u r = false)), (filter_cons_True (fun r => updated_by SV t s u r = true)) by congruence. done.
  - rewrite (filter_cons_True (fun r => updated_by SV t s u r = false)), (filter_cons_False (fun r => updated_by SV t s u r = true)) by congruence.
    by rewrite <- app_assoc.
Qed.

Lemma Execute_spec SV t p s u : record_set (startRecordList u) ->
  let u' := ExecuteAndUpdateRecord t p s u in
  startRecordList u' = set_where (updated_by SV t s u) (fun _ => s) (startRecordList u) /\
  bundleStartRecordMap u' = bundleStartRecordMap u /\ startRemoteRecordList u' = startRemoteRecordList u /\ uniqueDeviceId u' = uniqueDeviceId u.
Proof.
  intros Hs. unfold ExecuteAndUpdateRecord. cbv zeta. destruct (update_loop_spec SV t s u) as [cam ->].
  rewrite (update_in_place (updated_by SV t s u) (fun _ => s)) by done. by destruct cam.
Qed.

Lemma UpdateStart_spec SV name b op u : record_set (startRecordList u) -> TransferPermissionToOpcode name = Some op ->
  let u' := UpdateStartUsingRecord name b u in
  startRecordList u' = set_where (fun r => cr_opCode r =? op) (fun r => if b then GetAppStatus (cr_tokenId r) (-1) else PERM_INACTIVE) (startRecordList u) /\
  bundleStartRecordMap u' = bundleStartRecordMap u /\ startRemoteRecordList u' = startRemoteRecordList u /\ uniqueDeviceId u' = uniqueDeviceId u.
Proof.
  intros Hs Hop. unfold UpdateStartUsingRecord. rewrite Hop. cbv zeta. cbn. split_and!; try done.
  rewrite <- update_in_place by done. f_equal; [f_equal; f_equal|]; apply list_filter_iff; intros r; by rewrite ?Z.eqb_eq, ?Z.eqb_neq.
Qed.

Lemma device_opcodes : TransferPermissionToOpcode MICROPHONE_PERMISSION_NAME = Some OP_MICROPHONE /\
  TransferPermissionToOpcode CAMERA_PERMISSION_NAME = Some OP_CAMERA.
Proof. split; vm_compute; reflexivity. Qed.

(** ** Remote uses. *)
Lemma remove_remote_left hit all id name l : forall rest evs, remove_remote hit all id name l = (rest, evs) -> rest `sublist_of` l.
Proof.
  induction l as [|x l IH]; intros rest evs; cbn; [by intros [= <- <-]|]. destruct (remove_remote hit all id name l) as [r e] eqn:Er.
  pose proof (IH _ _ eq_refl) as Hs. split_if; [split_if|]; intros [= <- <-]; [by apply sublist_cons|by apply sublist_cons|by apply sublist_skip].
Qed.

Lemma multiset_nonempty r l : multiset_emplace r l <> [].
Proof. destruct l; cbn; [done|]. by split_if. Qed.

Lemma ToRemoveRemote_inv hit all u : using_inv u -> using_inv (ToRemoveRemoteRecord hit all u).2.
Proof.
  intros [H1 H2 H3 H4]. unfold ToRemoveRemoteRecord. destruct (remove_remote _ _ _ _ _) as [rest evs] eqn:E.
  apply remove_remote_left in E. split; cbn; try done. destruct rest as [|x rest]; [done|]. rewrite H4. split; [|done].
  intros Hn. rewrite Hn in E. by apply sublist_nil_r in E.
Qed.

Lemma UpdateRemote_inv name b u : using_inv u -> using_inv (UpdateStartRemoteUsingRecord name b u).
Proof.
  intros [H1 H2 H3 H4]. unfold UpdateStartRemoteUsingRecord. split_if; [by split|]. cbv zeta.
  set (op := default 0 _). destruct (filter (fun r => rc_opCode r <> op) (startRemoteRecordList u)) as [|x rest] eqn:Ef; split; cbn; try done.
  rewrite H4. split; [|done]. intros Hn. by rewrite Hn in Ef.
Qed.

(** ** Every operation. *)
Definition services_ok (SV : Services) : Prop := forall t h, AtKitGetHostTokenId t = inr h -> is_u32 h.

Lemma Normalize_u32 SV t t' : services_ok SV -> is_u32 t -> NormalizeRecordTokenId t = inr t' -> is_u32 t'.
Proof.
  intros Hs Ht. unfold NormalizeRecordTokenId, NormalizeBinRecordTokenId. split_if.
  - destruct (AtKitGetHostTokenId t) as [|h] eqn:Eh; [done|]. intros [= <-]. by eapply Hs.
  - split_if; [|by intros [= <-]]. destruct (GetParentHapTokenID t); [done|]. split_if; [done|]. intros [= <-]. apply u32_range.
Qed.

Lemma Start_inv SV info caller u : services_ok SV -> is_u32 (pu_tokenId info) -> using_inv u -> using_inv (StartUsingPermission info caller u).2.
Proof.
  intros Hs H32 Hu. unfold StartUsingPermission. destruct (NormalizeRecordTokenId _) as [|t] eqn:En; [done|]. apply Normalize_u32 in En; [|done..].
  cbv zeta. repeat (split_if; [done|]). destruct (start_status _ _ _) as [r v] eqn:Es. apply start_status_cases in Es as (Hsame & Hst & _).
  pose proof (same_uses_inv _ _ Hsame Hu) as Hv. destruct r as [e|status]; [done|].
  destruct (AddRecordToStartList _ _ _ _) as [ret w] eqn:A. breflect. eapply AddRecord_inv in A; eauto.
Qed.

Lemma Start_callback_inv SV info cb caller u : services_ok SV -> is_u32 (pu_tokenId info) -> using_inv u ->
  using_inv (StartUsingPermission_callback info cb caller u).2.
Proof.
  intros Hs H32 Hu. unfold StartUsingPermission_callback. destruct (NormalizeRecordTokenId _) as [|t] eqn:En; [done|]. apply Normalize_u32 in En; [|done..].
  cbv zeta. repeat (split_if; [done|]). destruct (start_status _ _ _) as [r v] eqn:Es. apply start_status_cases in Es as (Hsame & Hst & _).
  pose proof (same_uses_inv _ _ Hsame Hu) as Hv. destruct r as [e|status]; [done|]. set (v' := if String.eqb _ _ then _ else _).
  assert (using_inv v') as Hv' by (subst v'; split_if; eapply same_uses_inv; [|done|..|done]; done).
  destruct (AddRecordToStartList _ _ _ _) as [ret w] eqn:A. breflect. eapply AddRecord_inv in A; eauto.
  split_if; [|done]. eapply same_uses_inv; [|exact A]. by split_if.
Qed.

Lemma Start_bundle_inv SV b p caller u : using_inv u -> using_inv (StartUsingPermission_bundle b p caller u).2.
Proof.
  intros Hu. unfold StartUsingPermission_bundle. split_if; [done|]. destruct (TransferPermissionToOpcode p) as [op|]; [|done]. cbv zeta.
  pose proof (same_uses_inv _ _ (Init_same SV p u) Hu) as Hv. set (v := InitializeMuteState p u) in *. split_if; [done|].
  destruct (Register v) as [ok w] eqn:R. apply Register_same in R. pose proof (same_uses_inv _ _ R Hv) as [H1 H2 H3 H4]. split_if; [by split|].
  assert (NoDup (default [] (bundleStartRecordMap w !! b))) as Hnd.
  { destruct (bundleStartRecordMap w !! b) as [l|] eqn:El; [by apply (H3 b)|constructor]. }
  case_bool_decide as Hin; split; cbn; try done; intros b' l'; intros [[<- <-]|[_ ?]]%lookup_insert_Some; eauto.
  - split; [|done]. intros Hn. rewrite Hn in Hin. by apply elem_of_nil in Hin.
  - split; [by intros [_ ?]%app_nil|]. apply NoDup_app. split_and!; [done|set_solver|apply NoDup_singleton].
Qed.

Lemma NoDup_sublist {A} (l k : list A) : l `sublist_of` k -> NoDup k -> NoDup l.
Proof.
  induction 1 as [|x l k Hs IH|x l k Hs IH]; intros Hk; [done|..]; apply NoDup_cons in Hk as [H1 H2]; [|auto].
  apply NoDup_cons. split; [|auto]. intros Hx. apply H1. by eapply elem_of_sublist.
Qed.

Lemma Stop_bundle_inv SV b p caller u : using_inv u -> using_inv (StopUsingPermission_bundle b p caller u).2.
Proof.
  intros Hu. pose proof Hu as [H1 H2 H3 H4]. unfold StopUsingPermission_bundle. split_if; [done|]. destruct (TransferPermissionToOpcode p) as [op|]; [|done].
  destruct (bundleStartRecordMap u !! b) as [l|] eqn:Eb; [|done]. case_bool_decide as Hin; [|done]. cbv zeta.
  pose proof (NoDup_sublist _ _ (erase_first_sublist (fun r : Z * Z => (r.1 =? op) && (r.2 =? caller)) l) (proj2 (H3 _ _ Eb))) as Hnd.
  destruct (erase_first _ l) as [|x rest]; split; cbn; try done; intros b' l'.
  - intros [_ ?]%lookup_delete_Some. eauto.
  - intros [[<- <-]|[_ ?]]%lookup_insert_Some; eauto.
Qed.

Lemma Start_remote_inv SV info caller u : using_inv u -> using_inv (StartRemoteUsingPermission info caller u).2.
Proof.
  intros Hu. unfold StartRemoteUsingPermission. destruct (_ || _ || _) eqn:Ev; [done|]. cbv zeta.
  pose proof (same_uses_inv _ _ (Init_same SV (ru_permissionName info) u) Hu) as Hv. set (v := InitializeMuteState _ u) in *. split_if; [done|].
  destruct (Register v) as [ok w] eqn:R. apply Register_same in R. pose proof (same_uses_inv _ _ R Hv) as [H1 H2 H3 H4]. split_if; [by split|].
  unfold AddRecordToStartRemoteList. destruct (TransferPermissionToOpcode _) as [op|]; [|by split]. destruct (_ && _) eqn:Ec; [by split|].
  split; cbn; try done. split; [|by intros ?%multiset_nonempty]. intros Hn. exfalso. revert Ev. unfold IsDeviceIdValid. rewrite Hn.
  cbn. by rewrite !orb_true_r.
Qed.

Lemma caller_bundles_inv caller m : (forall b l, m !! b = Some l -> l <> [] /\ NoDup l) ->
  forall b l, remove_caller_bundles caller m !! b = Some l -> l <> [] /\ NoDup l.
Proof.
  intros Hm b l. unfold remove_caller_bundles. rewrite lookup_omap. destruct (m !! b) as [k|] eqn:E; [|done]. cbn.
  pose proof (NoDup_filter (fun r : Z * Z => r.2 <> caller) k (proj2 (Hm _ _ E))) as Hnd.
  destruct (filter _ k); [done|]. by intros [= <-].
Qed.

Lemma Caller_died_inv SV caller u : using_inv u -> using_inv (RemoveRecordFromStartListByCallerPid caller u).
Proof.
  intros Hu. unfold RemoveRecordFromStartListByCallerPid. cbv zeta.
  pose proof (ToRemove_inv SV (mkContinuousPermissionRecord 0 0 0 0 caller NORMAL_TYPE 0 "") IsEqualCallerPid true u Hu) as Hv.
  set (v := (ToRemoveRecord _ _ _ u).2) in *.
  assert (using_inv (if PRIVACY_BUNDLE_START_STOP_ENABLE then set_bundles (remove_caller_bundles caller (bundleStartRecordMap v)) v else v)) as Hw.
  { split_if; [|done]. destruct Hv as [H1 H2 H3 H4]. split; cbn; try done. by apply caller_bundles_inv. }
  split_if; [by apply ToRemoveRemote_inv|done].
Qed.

Lemma Execute_inv SV t p s u : s ∈ [PERM_INACTIVE; PERM_ACTIVE_IN_FOREGROUND; PERM_ACTIVE_IN_BACKGROUND] ->
  using_inv u -> using_inv (ExecuteAndUpdateRecord t p s u).
Proof.
  intros Hs [H1 H2 H3 H4]. destruct (Execute_spec SV t p s u H1) as (E1 & E2 & E3 & E4). split; rewrite ?E1, ?E2, ?E3, ?E4; try done.
  - by apply set_where_sorted.
  - by apply set_where_wf.
Qed.

Lemma ByPerm_inv SV c b u : using_inv u ->
  using_inv (ExecuteAndUpdateRecordByPerm (match c with MICROPHONE => MICROPHONE_PERMISSION_NAME | CAMERA => CAMERA_PERMISSION_NAME end) b u).
Proof.
  intros Hu. pose proof Hu as [H1 H2 H3 H4]. set (name := match c with MICROPHONE => _ | CAMERA => _ end).
  assert (exists op, TransferPermissionToOpcode name = Some op) as [op Hop] by (destruct device_opcodes; destruct c; eauto).
  unfold ExecuteAndUpdateRecordByPerm. destruct (UpdateStart_spec SV name b op u H1 Hop) as (E1 & E2 & E3 & E4).
  assert (using_inv (UpdateStartUsingRecord name b u)) as Hv.
  { split; rewrite ?E1, ?E2, ?E3, ?E4; try done; [by apply set_where_sorted|]. apply set_where_wf; [|done].
    intros r. split_if; [apply GetAppStatus_cases|set_solver]. }
  split_if; [by apply UpdateRemote_inv|done].
Qed.

Definition device_name (c : CallerType) : string :=
  match c with MICROPHONE => MICROPHONE_PERMISSION_NAME | CAMERA => CAMERA_PERMISSION_NAME end.
Definition device_op (c : CallerType) : Z := match c with MICROPHONE => OP_MICROPHONE | CAMERA => OP_CAMERA end.

(** ** Histories.  At each step the other services answer as they like, within [allow];
    without [lift] the administrator's mute is not taken back. *)
Inductive use_step (allow : Services -> Prop) (lift : bool) : Using -> Using -> Prop :=
  | us_start SV info caller u : allow SV -> services_ok SV -> is_u32 (pu_tokenId info) ->
      use_step allow lift u (StartUsingPermission info caller u).2
  | us_start_callback SV info cb caller u : allow SV -> services_ok SV -> is_u32 (pu_tokenId info) ->
      use_step allow lift u (StartUsingPermission_callback info cb caller u).2
  | us_start_bundle SV b p caller u : allow SV -> use_step allow lift u (StartUsingPermission_bundle b p caller u).2
  | us_start_remote SV info caller u : allow SV -> use_step allow lift u (StartRemoteUsingPermission info caller u).2
  | us_stop SV t pid p caller e u : allow SV -> use_step allow lift u (StopUsingPermission t pid p caller e u).2
  | us_stop_bundle SV b p caller u : allow SV -> use_step allow lift u (StopUsingPermission_bundle b p caller u).2
  | us_stop_remote id name p caller u : use_step allow lift u (StopRemoteUsingPermission id name p caller u).2
  | us_caller_died SV caller u : allow SV -> use_step allow lift u (RemoveRecordFromStartListByCallerPid caller u)
  | us_process_died SV t pid u : allow SV -> use_step allow lift u (OnProcessDied t pid u)
  | us_app_stopped SV t state u : allow SV -> use_step allow lift u (OnAppStopped t state u)
  | us_app_state SV t pid state u : allow SV -> use_step allow lift u (OnAppStateChanged t pid state u)
  | us_mute SV pt c b t u : allow SV -> (pt = EDM -> b = false -> lift = true) -> use_step allow lift u (SetMutePolicy pt c b t u).2
  | us_disable op b u : use_step allow lift u (UpdateDisablePolicyCache op b u)
  | us_reminder t b u : use_step allow lift u (SetHapWithFGReminder t b u).2
  | us_lock st u : use_step allow lift u (SetLockScreenStatus st u)
  | us_screen b u : use_step allow lift u (SetScreenOn b u)
  | us_cameras u : use_step allow lift u (ExecuteAllCameraExecuteCallback u)
  | us_app_mgr_died u : use_step allow lift u (OnAppMgrRemoteDiedHandle u).

Lemma Mute_inv SV pt c b t u : using_inv u -> using_inv (SetMutePolicy pt c b t u).2.
Proof.
  intros Hu. unfold SetMutePolicy. fold (device_name c). cbv zeta.
  assert (forall i v, using_inv v -> using_inv (ModifyMuteStatus (device_name c) i b v)) as Hm.
  { intros i v Hv. eapply same_uses_inv; [apply Modify_same|done]. }
  assert (forall sw v, using_inv v -> using_inv (if negb APP_SECURITY_PRIVACY_SERVICE then ExecuteAndUpdateRecordByPerm (device_name c) sw v else v)) as Hp.
  { intros sw v Hv. destruct APP_SECURITY_PRIVACY_SERVICE; [done|]. cbn [negb]. by apply (ByPerm_inv SV c). }
  destruct pt; [split_if; [done|]| | |done].
  - unfold SetEdmMutePolicy. destruct b; cbn [snd]; [by apply Hp, Hm, Hm|]. split_if; by apply Hm.
  - unfold SetPrivacyMutePolicy. split_if; [done|]. cbn [snd]. by apply Hp, Hm.
  - unfold SetTempMutePolicy. repeat split_if; try done. by apply tell_inv.
Qed.

Lemma use_step_inv allow lift u u' : use_step allow lift u u' -> using_inv u -> using_inv u'.
Proof.
  destruct 1; intros Hu.
  - by apply Start_inv.
  - by apply Start_callback_inv.
  - by apply Start_bundle_inv.
  - by apply Start_remote_inv.
  - unfold StopUsingPermission, RemoveRecordFromStartList. split_if; [done|]. destruct (NormalizeRecordTokenId t); [done|].
    repeat (split_if; [done|]). destruct (TransferPermissionToOpcode p) as [op|]; [|done]. cbv zeta.
    pose proof (ToRemove_inv SV (mkContinuousPermissionRecord z op 0 pid caller NORMAL_TYPE 0 e) IsEqualRecord true u Hu) as Hv.
    destruct (ToRemoveRecord _ _ _ u) as [ok v]. by split_if.
  - by apply Stop_bundle_inv.
  - unfold StopRemoteUsingPermission. split_if; [done|]. destruct (TransferPermissionToOpcode p) as [op|]; [|done]. split_if; [done|].
    pose proof (ToRemoveRemote_inv (fun it => (op =? rc_opCode it) && (caller =? rc_callerPid it)) false u Hu) as Hv.
    destruct (ToRemoveRemoteRecord _ _ u) as [ok v]. by split_if.
  - by apply Caller_died_inv.
  - by apply ToRemove_inv.
  - unfold OnAppStopped. split_if; [by apply ToRemove_inv|done].
  - unfold OnAppStateChanged, NotifyAppStateChange. cbv zeta. split_if; [done|]. apply Execute_inv; [|done]. repeat split_if; set_solver.
  - by apply Mute_inv.
  - eapply same_uses_inv; [|exact Hu]; done.
  - unfold SetHapWithFGReminder. cbv zeta. split_if; [done|]. split_if; [by eapply same_uses_inv; [|exact Hu]|]. split_if; [eapply same_uses_inv; [|exact Hu]; done|done].
  - eapply same_uses_inv; [|exact Hu]; done.
  - eapply same_uses_inv; [|exact Hu]; done.
  - by apply tell_inv.
  - eapply same_uses_inv; [|exact Hu]; done.
Qed.

Lemma use_steps_inv allow lift u u' : rtc (use_step allow lift) u u' -> using_inv u -> using_inv u'.
Proof. induction 1 as [|u v w Hs _ IH]; [done|]. intros H. by eapply IH, use_step_inv. Qed.

(** The manager after construction. *)
Definition nothing_used (mic enhance : bool) : Using :=
  mkUsing [] ∅ ∅ mic false false false PERM_ACTIVE_IN_UNLOCKED true [] enhance ∅ [] "" "" ∅ false [].

Lemma nothing_used_inv mic enhance : using_inv (nothing_used mic enhance).
Proof. split; cbn; [constructor|constructor|by intros ??|done]. Qed.

End Manager.
