(* ===== verification/PrivacyUseSpecs.v ===== *)
(** * Uses of permissions from start to end

    The list of uses in progress is well formed in every history; a use that is started is
    seen and one that is stopped leaves no trace; no use outlives its process, its application
    or the caller that reported it, and listeners hear of its end; under an administrator's
    mute nothing that uses the device is or becomes active; and two ways in which a camera
    callback is lost. *)

From stdpp Require Import base gmap list strings sorting.
From S2P Require Import Prelude AccessTokenTypes TokenId PermissionMap Validator PrivacyTypes PrivacyRecordSet PrivacyUsage PrivacyUsageProps.
#[local] Open Scope string_scope.
#[local] Open Scope list_scope.
#[local] Open Scope Z_scope.
#[local] Open Scope cxx_scope.

Section Specs.
Context {PC : PrivacyConfig}.
Implicit Types (SV : Services) (u : Using) (r : ContinuousPermissionRecord) (l : list ContinuousPermissionRecord).

(** C17: whatever requests, application events, policy changes and service failures come, in
    any order, the uses in progress form a strictly ordered set of records, each of an
    application token, a known permission and one of the three statuses a record can have; no
    bundle is listed with no use or with the same use twice; and a remote device is
    registered exactly as long as it has a use. *)
Theorem uses_reachable_inv allow lift mic enhance u :
  rtc (use_step allow lift) (nothing_used mic enhance) u -> using_inv u.
Proof. intros H. eapply use_steps_inv; [exact H|apply nothing_used_inv]. Qed.

(** ** Starting and stopping. *)
Lemma filter_emplace (P : ContinuousPermissionRecord -> Prop) `{!forall x, Decision (P x)} r l : ~ P r -> filter P (set_emplace r l) = filter P l.
Proof.
  intros Hr. induction l as [|x l IH]; cbn [set_emplace]; [by rewrite filter_cons_False|].
  split_if; [by rewrite filter_cons_False|]. split_if; [|done]. by rewrite !filter_cons, IH.
Qed.
(** What the set gains and loses again. *)
Lemma filter_emplace_new (P : ContinuousPermissionRecord -> Prop) `{!forall x, Decision (P x)} r l :
  (forall x, x ∈ l -> ~ req r x) -> (forall x, x ∈ l -> ~ P x) -> P r -> filter P (set_emplace r l) = [r].
Proof.
  intros Hn Hl Hr. induction l as [|x l IH]; cbn [set_emplace]; [by rewrite filter_cons_True|].
  assert (filter P (x :: l) = []) as Hf by (by apply filter_none).
  destruct (record_ltb r x) eqn:E1; [rewrite filter_cons_True by done; by rewrite Hf|].
  destruct (record_ltb x r) eqn:E2.
  - rewrite filter_cons_False by (apply Hl; left). apply IH; intros y Hy; [apply Hn|apply Hl]; by right.
  - destruct (rlt_total r x) as [Ho%record_ltb_lt|[Ho|Ho%record_ltb_lt]]; [congruence| |congruence]. destruct (Hn x); [left|done].
Qed.
Lemma emplace_perm r l : (forall x, x ∈ l -> ~ req r x) -> set_emplace r l ≡ₚ r :: l.
Proof.
  intros Hn. induction l as [|x l IH]; cbn [set_emplace]; [done|]. destruct (record_ltb r x) eqn:E1; [done|].
  destruct (record_ltb x r) eqn:E2.
  - rewrite IH by (intros y Hy; apply Hn; by right). by constructor.
  - destruct (rlt_total r x) as [Ho%record_ltb_lt|[Ho|Ho%record_ltb_lt]]; [congruence| |congruence]. destruct (Hn x); [left|done].
Qed.
Lemma req_IsEqualRecord r x : req r x -> IsEqualRecord x r = true.
Proof.
  intros ((E1 & E2 & E3) & E4 & E5). unfold IsEqualRecord, IsEqualBasicRecord, IsEqualTokenIdAndPid, IsEqualPid, IsEqualPermCode, IsEqualCallerPid.
  rewrite <- E1, <- E2, <- E3, <- E4, <- E5, !Z.eqb_refl, String.eqb_refl. by rewrite orb_true_r.
Qed.

Lemma start_status_events SV t p u res u' : start_status t p u = (res, u') -> events u' = events u.
Proof.
  unfold start_status. assert (events (InitializeMuteState p u) = events u) as Hi.
  { unfold InitializeMuteState. repeat split_if; try done; cbv zeta; destruct (GetMuteParameter _); by unfold ModifyMuteStatus; cbn; rewrite ?String.eqb_refl; cbn. }
  cbv zeta. split_if; [by intros [= _ <-]|]. destruct (Register _) as [ok w] eqn:R.
  assert (events w = events u) as Hw by (revert R; unfold Register; repeat split_if; intros [= _ <-]; cbn; done).
  repeat split_if; by intros [= _ <-].
Qed.

(** What a listener is told when the uses of a group end. *)
Definition told_inactive SV (r : ContinuousPermissionRecord) : UseEvent :=
  EvActive (mkActiveChangeResponse GetCallingTokenID (cr_tokenId r) (TransferOpcodeToPermission (cr_opCode r) "").2 PERM_INACTIVE NORMAL_TYPE
              (cr_pid r) false "" "" "" (cr_enhancedIdentity r) "") TOKEN_ONLY.
Lemma tell_inactive_map SV rs : forall p, Forall record_wf rs -> tell_inactive rs p = map (told_inactive SV) rs.
Proof.
  induction rs as [|r rs IH]; intros p Hrs; cbn [tell_inactive map]; [done|]. apply Forall_cons in Hrs as [(_ & _ & (name & Hn) & _) Hrs].
  destruct (TransferOpcodeToPermission (cr_opCode r) p) as [b q] eqn:Eq. rewrite IH by done. f_equal.
  unfold told_inactive, CallbackExecute. cbn. destruct (opcode_name _ _ p Hn) as [<- _]. destruct (opcode_name _ _ "" Hn) as [-> _]. by rewrite Eq.
Qed.

Lemma inactive_one recordList r : record_set recordList ->
  GetInActiveUniqueRecord recordList [r] =
  if existsb (fun x => IsSameInActiveGroup r x && negb (cr_status x =? PERM_INACTIVE)) recordList then [] else [r].
Proof.
  intros Hs. assert (GetInActiveUniqueRecord recordList [r] = [] \/ GetInActiveUniqueRecord recordList [r] = [r]) as Hc.
  { unfold GetInActiveUniqueRecord. cbn [unique_removed fold_left last set_emplace]. clear Hs.
    induction recordList as [|x l IH]; [by right|]. cbn. destruct (inactive_step r x); [by right|by left|exact IH]. }
  pose proof (GetInActive_spec recordList [r] Hs ltac:(repeat constructor) r) as Hspec.
  assert ((exists x, x ∈ recordList /\ geq r x /\ cr_status x <> PERM_INACTIVE) <->
    existsb (fun x => IsSameInActiveGroup r x && negb (cr_status x =? PERM_INACTIVE)) recordList = true) as He.
  { rewrite existsb_exists. setoid_rewrite andb_true_iff. setoid_rewrite IsSame_geq. setoid_rewrite negb_true_iff. setoid_rewrite Z.eqb_neq.
    by setoid_rewrite list_elem_of_In. }
  destruct Hc as [Hc|Hc]; rewrite Hc in *; destruct (existsb _ _); try done; exfalso.
  - assert (r ∈ @nil ContinuousPermissionRecord) as ?%elem_of_nil; [|done]. apply Hspec. split_and!; [left|by intros r' ->%list_elem_of_singleton _ ?%rlt_irrefl|].
    intros x Hx Hg. destruct (Z.eq_dec (cr_status x) PERM_INACTIVE); [done|]. assert (false = true); [apply He; by exists x|done].
  - destruct (proj2 He eq_refl) as (x & Hx & Hg & Hst). apply Hst. apply (proj1 Hspec); [left|done|done].
Qed.

(** C16: while the uses are well formed (as they are after any history of requests), a request
    to start a use that answers success either names an application, or a native process that
    holds the background permission of the device.  For an application the use is seen: one
    record of it joins the list and listeners are told its status, and the permission counts as
    in use unless the global switch made the use inactive; stopping it with the same arguments
    succeeds, leaves exactly the uses there were before, and listeners hear that the permission
    is inactive exactly when no other active use of the same application, permission and
    identity remains.  For a native process nothing is recorded and nobody is told: both the
    start and the stop answer success and leave the state as it was.  (The token is the one the
    request is charged to: the host of a tool, the parent of a bin.) *)
Theorem start_then_stop SV info caller u u1 t :
  using_inv u -> NormalizeRecordTokenId (pu_tokenId info) = inr t -> is_u32 t ->
  StartUsingPermission info caller u = (SUCCESS, u1) ->
  if GetTokenTypeFlag t =? TOKEN_NATIVE
  then VerifyNativeRecordPermission (pu_permissionName info) t = true /\ u1 = u /\
    StopUsingPermission (pu_tokenId info) (pu_pid info) (pu_permissionName info) caller (pu_enhancedIdentity info) u1 = (SUCCESS, u)
  else exists r u2,
    GetTokenTypeFlag t = TOKEN_HAP /\
    cr_tokenId r = t /\ cr_pid r = pu_pid info /\ cr_callerPid r = caller /\ cr_enhancedIdentity r = pu_enhancedIdentity info /\
    TransferPermissionToOpcode (pu_permissionName info) = Some (cr_opCode r) /\
    startRecordList u1 ≡ₚ r :: startRecordList u /\
    events u1 = events u ++ [EvActive (mkActiveChangeResponse GetCallingTokenID t (pu_permissionName info) (cr_status r) (pu_type info)
                                         (pu_pid info) false "" "" "" (pu_enhancedIdentity info) "") TOKEN_ONLY] /\
    (cr_status r <> PERM_INACTIVE -> CheckPermissionInUse (pu_permissionName info) u1 = inr true) /\
    StopUsingPermission (pu_tokenId info) (pu_pid info) (pu_permissionName info) caller (pu_enhancedIdentity info) u1 = (SUCCESS, u2) /\
    startRecordList u2 = startRecordList u /\
    events u2 = events u1 ++
      if existsb (fun x => IsSameInActiveGroup r x && negb (cr_status x =? PERM_INACTIVE)) (startRecordList u)
      then [] else [told_inactive SV r].
Proof.
  intros Hu Ht H32. unfold StartUsingPermission, StopUsingPermission. rewrite Ht. cbv zeta.
  destruct (IsEnhancedIdentityValid _); cbn [negb]; [|done].
  destruct (GetTokenTypeFlag t =? TOKEN_NATIVE); [by destruct (VerifyNativeRecordPermission _ t); intros [= <-]|].
  destruct (Z.eqb_spec (GetTokenTypeFlag t) TOKEN_HAP) as [Hhap|]; cbn [negb]; [|done]. cbn iota.
  destruct (start_status t _ u) as [[e|status] v] eqn:Es; [intros [= -> ->]; destruct (start_status_cases _ _ _ _ _ _ Es) as (_ & _ & Hno); by destruct (Hno SUCCESS)|].
  pose proof (start_status_cases _ _ _ _ _ _ Es) as (Hsame & Hst & _). pose proof (start_status_events _ _ _ _ _ _ Es) as Hev.
  destruct (AddRecordToStartList _ _ _ _) as [ret w] eqn:A. intros [= -> ->]. pose proof A as Hinv.
  eapply AddRecord_inv in Hinv; [|by eapply same_uses_inv|done|done|by apply Hst].
  apply AddRecord_cases in A as [[? _]|(op & Hop & _ & Hnew & E1)]; [done|]. cbn [pu_permissionName pu_tokenId pu_pid pu_type pu_enhancedIdentity with_tokenId] in Hop, E1, Hnew.
  set (r := mkContinuousPermissionRecord t op status (pu_pid info) caller (pu_type info) GetCallingTokenID (pu_enhancedIdentity info)) in *.
  destruct Hsame as (El & _). rewrite El in *.
  assert (forall x, x ∈ startRecordList u -> ~ req r x) as Hfresh by (intros x Hx ?%req_IsEqualRecord; by rewrite Hnew in *).
  unfold RemoveRecordFromStartList. rewrite Hop.
  set (target := mkContinuousPermissionRecord t op 0 (pu_pid info) caller NORMAL_TYPE 0 (pu_enhancedIdentity info)).
  destruct (ToRemoveRecord target IsEqualRecord true u1) as [ok u2] eqn:R. apply ToRemove_spec in R as (F1 & _ & _ & _ & Fok & Fev); [|apply Hinv].
  assert (startRecordList u1 = set_emplace r (startRecordList u)) as L1 by (by rewrite E1).
  assert (forall x, IsEqualRecord x target = IsEqualRecord x r) as Ht' by done.
  assert (IsEqualRecord r r = true) as Hrr by (by apply req_IsEqualRecord).
  rewrite L1 in F1, Fok, Fev. rewrite (filter_emplace (fun it => IsEqualRecord it target = false)) in F1 by (rewrite Ht'; congruence).
  rewrite (filter_all (fun it => IsEqualRecord it target = false)) in F1 by (apply Forall_forall; intros x Hx; rewrite Ht'; by apply Hnew).
  rewrite (filter_emplace_new (fun it => IsEqualRecord it target = true)) in Fok, Fev by (try done; intros x Hx; rewrite Ht', Hnew; done).
  rewrite F1, inactive_one in Fev by apply Hu.
  exists r, u2. split_and!; try done.
  - rewrite L1. by apply emplace_perm.
  - rewrite E1. cbn. by rewrite Hev.
  - intros Hne. unfold CheckPermissionInUse. rewrite Hop. f_equal. apply orb_true_iff. left. apply orb_true_iff. left. apply existsb_exists.
    exists r. split; [apply list_elem_of_In; rewrite L1; by apply emplace_new|]. cbn. rewrite Z.eqb_refl. cbn. by apply negb_true_iff, Z.eqb_neq.
  - rewrite Fok. by rewrite bool_decide_eq_true_2.
  - rewrite Fev. f_equal. destruct (existsb _ _); [done|]. rewrite tell_inactive_map; [done|]. constructor; [|constructor].
    split_and!; [done|done|by exists (pu_permissionName info)|by apply Hst].
Qed.

(** ** The end of processes, applications and callers. *)

(** The uses that satisfy [gone] end: the others stay as they are, and for each application,
    permission and identity that keeps no active use listeners are told once. *)
Record uses_end SV (gone : ContinuousPermissionRecord -> bool) u u' (told : list UseEvent) : Prop := {
  ue_left : startRecordList u' = filter (fun r => gone r = false) (startRecordList u);
  ue_told ev : ev ∈ told <-> exists r, r ∈ startRecordList u /\ gone r = true /\
    (forall r', r' ∈ startRecordList u -> gone r' = true -> geq r r' -> ~ rlt r' r) /\
    (forall x, x ∈ startRecordList u' -> geq r x -> cr_status x = PERM_INACTIVE) /\ ev = told_inactive SV r;
  ue_once : NoDup told;
}.

Lemma told_inactive_inj SV r r' : record_wf r -> record_wf r' -> told_inactive SV r = told_inactive SV r' -> geq r r'.
Proof.
  intros (_ & _ & (n & Hn) & _) (_ & _ & (n' & Hn') & _) [= E1 E2 E3 E4]. split_and!; [done|done|].
  destruct (opcode_name _ _ "" Hn) as [F _]. destruct (opcode_name _ _ "" Hn') as [F' _]. congruence.
Qed.

Lemma walk_sublist {A B} (step : A -> B -> walk_step) a : forall b, walk step a b `sublist_of` a.
Proof.
  induction a as [|x a IHa]; [done|]. induction b as [|y b IHb]; cbn; [done|].
  destruct (step x y); [apply sublist_skip, IHa|apply sublist_cons, IHa|exact IHb].
Qed.

Lemma ToRemove_uses_end SV target eqf clear u ok u' : using_inv u -> ToRemoveRecord target eqf clear u = (ok, u') ->
  exists told, uses_end SV (fun r => eqf r target) u u' told /\ events u' = events u ++ told.
Proof.
  intros Hu R. apply ToRemove_spec in R as (F1 & _ & _ & _ & _ & Fev); [|apply Hu]. destruct Hu as [H1 H2 _ _].
  set (removed := filter (fun it => eqf it target = true) (startRecordList u)) in *.
  assert (record_set removed) as Hr by (by apply sorted_filter). assert (record_set (startRecordList u')) as Hs by (rewrite F1; by apply sorted_filter).
  pose proof (GetInActive_spec _ _ Hs Hr) as Hsp. set (rs := GetInActiveUniqueRecord _ removed) in *.
  assert (Forall record_wf rs) as Hwf.
  { apply Forall_forall. intros r ([_ Hin]%list_elem_of_filter & _)%Hsp. rewrite Forall_forall in H2. auto. }
  exists (map (told_inactive SV) rs). split; [|by rewrite Fev, (tell_inactive_map SV)]. split; [done|..].
  - intros ev. rewrite list_elem_of_fmap. split.
    + intros (r & -> & ([? ?]%list_elem_of_filter & Hm & Hn)%Hsp). exists r. split_and!; try done.
      intros r' ???. apply Hm; [by apply list_elem_of_filter|done].
    + intros (r & Hr1 & Hr2 & Hm & Hn & ->). exists r. split; [done|]. apply Hsp. split_and!; [by apply list_elem_of_filter| |done].
      intros r' [??]%list_elem_of_filter. by apply Hm.
  - assert (StronglySorted glt rs) as Hg.
    { eapply sublist_sorted; [apply walk_sublist|]. by apply (unique_removed_spec _ Hr). }
    clear Hsp Fev. revert Hwf. induction Hg as [|r l Hl IH Hlt]; intros Hwf; cbn; [constructor|]. apply Forall_cons in Hwf as [Wr Wl].
    apply NoDup_cons. split; [|auto]. intros (r' & E' & Hr')%list_elem_of_fmap. rewrite Forall_forall in Hlt. rewrite Forall_forall in Wl.
    apply told_inactive_inj in E'; auto. apply (glt_irrefl r). eapply glt_geq; [by apply Hlt|by apply geq_sym].
Qed.

(** What is left of the remote uses of a caller that died. *)
Lemma remove_remote_all hit id name (k : list RemoteContinuousPermissionRecord) : (remove_remote hit true id name k).1 = filter (fun x => hit x = false) k.
Proof.
  induction k as [|x k IH]; [done|]. rewrite filter_cons. cbn [remove_remote]. destruct (remove_remote hit true id name k) as [rest evs].
  cbn in IH. rewrite <- IH. by destruct (hit x).
Qed.

Lemma after_remote caller u :
  let u' := if REMOTE_PRIVACY_ENABLE then (ToRemoveRemoteRecord (fun it => caller =? rc_callerPid it) true u).2 else u in
  startRecordList u' = startRecordList u /\ bundleStartRecordMap u' = bundleStartRecordMap u /\ (exists evs, events u' = events u ++ evs) /\
  REMOTE_PRIVACY_ENABLE && existsb (fun it => rc_callerPid it =? caller) (startRemoteRecordList u') = false.
Proof.
  cbv zeta. destruct REMOTE_PRIVACY_ENABLE; [|split_and!; try done; exists []; by rewrite app_nil_r]. unfold ToRemoveRemoteRecord.
  pose proof (remove_remote_all (fun it => caller =? rc_callerPid it) (uniqueDeviceId u) (uniqueDeviceName u) (startRemoteRecordList u)) as Hl.
  destruct (remove_remote _ _ _ _ _) as [rest evs]. cbn in Hl |- *. split_and!; [done|done|by exists evs|]. subst rest.
  apply not_true_iff_false. rewrite existsb_exists. setoid_rewrite <- list_elem_of_In. intros (r & [Hr _]%list_elem_of_filter & Hc).
  rewrite Z.eqb_sym in Hr. congruence.
Qed.

Lemma caller_bundles_gone caller m :
  existsb (fun item : string * list (Z * Z) => existsb (fun b : Z * Z => b.2 =? caller) item.2) (map_to_list (remove_caller_bundles caller m)) = false.
Proof.
  apply not_true_iff_false. rewrite existsb_exists. intros ([b records] & Hin%list_elem_of_In%elem_of_map_to_list & Hx). cbn in Hx.
  unfold remove_caller_bundles in Hin. rewrite lookup_omap in Hin. destruct (m !! b) as [k|]; [|done]. cbn in Hin.
  apply existsb_exists in Hx as (x & Hx%list_elem_of_In & Ec%Z.eqb_eq).
  assert (x ∈ filter (fun r : Z * Z => r.2 <> caller) k) as [? _]%list_elem_of_filter; [|done].
  destruct (filter _ k); [done|]. by injection Hin as <-.
Qed.

Lemma uses_end_ext SV g g' u u' told : (forall r, g' r = g r) -> uses_end SV g u u' told -> uses_end SV g' u u' told.
Proof.
  intros E [E1 E2 E3]. split; [|intros ev; rewrite E2; by setoid_rewrite E|done].
  rewrite E1. apply list_filter_iff. intros r. by rewrite E.
Qed.

(** C15: no use outlives its process, its application or the process that reported it.  When a
    process dies all uses recorded for it end, when an application terminates all uses of its
    token, and when a caller dies all uses it reported, those by bundle and remote ones
    included, so that it is no longer known.  Every other use stays as it is, and listeners are
    told, once each, of the permissions no longer actively used. *)
Theorem ended_uses SV u : using_inv u ->
  (forall t pid, 0 < pid -> let u' := OnProcessDied t pid u in
     exists told, uses_end SV (fun r => cr_pid r =? pid) u u' told /\ events u' = events u ++ told) /\
  (forall t, let u' := OnAppStopped t APP_STATE_TERMINATED u in
     exists told, uses_end SV (fun r => cr_tokenId r =? t) u u' told /\ events u' = events u ++ told) /\
  (forall caller, let u' := RemoveRecordFromStartListByCallerPid caller u in
     HasCallerInStartList caller u' = false /\
     exists told remote, uses_end SV (fun r => cr_callerPid r =? caller) u u' told /\ events u' = events u ++ told ++ remote).
Proof.
  intros Hu. split_and!.
  - intros t pid Hp. cbv zeta. unfold OnProcessDied, RemoveRecordFromStartListByPid.
    set (target := mkContinuousPermissionRecord t 0 0 pid 0 NORMAL_TYPE 0 "").
    destruct (ToRemoveRecord target _ _ u) as [ok u'] eqn:R. destruct (ToRemove_uses_end _ _ _ _ _ _ _ Hu R) as (told & He & Hev).
    exists told. split; [|done]. eapply uses_end_ext; [|exact He]. intros r. unfold IsEqualPid, IsPidValid. cbn.
    rewrite (proj2 (Z.ltb_lt _ _) Hp). cbn. apply Z.eqb_sym.
  - intros t. cbv zeta. unfold OnAppStopped, RemoveRecordFromStartListByTokenAndIdentity. rewrite Z.eqb_refl.
    set (target := mkContinuousPermissionRecord t 0 0 0 0 NORMAL_TYPE 0 "").
    destruct (ToRemoveRecord target _ _ u) as [ok u'] eqn:R. destruct (ToRemove_uses_end _ _ _ _ _ _ _ Hu R) as (told & He & Hev).
    exists told. split; [|done]. eapply uses_end_ext; [|exact He]. intros r. unfold IsEqualTokenIdAndIdentity. cbn. by rewrite andb_true_r.
  - intros caller. cbv zeta. unfold RemoveRecordFromStartListByCallerPid.
    set (target := mkContinuousPermissionRecord 0 0 0 0 caller NORMAL_TYPE 0 "").
    destruct (ToRemoveRecord target _ _ u) as [ok v] eqn:R. destruct (ToRemove_uses_end _ _ _ _ _ _ _ Hu R) as (told & He & Hev). cbn [snd].
    set (w := if PRIVACY_BUNDLE_START_STOP_ENABLE then _ else v). cbv zeta.
    assert (startRecordList w = startRecordList v /\ events w = events v) as [L1 L2] by (subst w; by split_if).
    destruct (after_remote caller w) as (F1 & F2 & [evs F3] & F4). split.
    + unfold HasCallerInStartList. rewrite F1, F2, L1, (ue_left _ _ _ _ _ He). apply orb_false_iff. split; [apply orb_false_iff; split|exact F4].
      * apply not_true_iff_false. rewrite existsb_exists. setoid_rewrite <- list_elem_of_In. intros (r & [Hr _]%list_elem_of_filter & Hc).
        unfold IsEqualCallerPid in Hr. cbn in Hr. rewrite Z.eqb_sym in Hr. congruence.
      * subst w. destruct PRIVACY_BUNDLE_START_STOP_ENABLE; [|done]. cbn [andb]. apply caller_bundles_gone.
    + exists told, evs. split; [|by rewrite F3, L2, Hev, app_assoc]. destruct He as [E1 E2 E3]. split.
      * rewrite F1, L1, E1. apply list_filter_iff. intros r. unfold IsEqualCallerPid. cbn. by rewrite Z.eqb_sym.
      * intros ev. rewrite E2, F1, L1. unfold IsEqualCallerPid. cbn. by setoid_rewrite (Z.eqb_sym caller).
      * done.
Qed.

(** ** The administrator's mute. *)
Definition edm_muted (c : CallerType) u : bool := match c with MICROPHONE => isMicEdmMute u | CAMERA => isCamEdmMute u end.
Definition edm_key (c : CallerType) : string := match c with MICROPHONE => EDM_MIC_MUTE_KEY | CAMERA => EDM_CAMERA_MUTE_KEY end.
(** The parameter of the administrator does not say that the device is free. *)
Definition keeps_mute (c : CallerType) (SV : Services) : Prop := GetMuteParameter (edm_key c) <> Some false.

Record device_quiet (c : CallerType) u : Prop := {
  dq_mute : edm_muted c u = true;
  dq_local r : r ∈ startRecordList u -> cr_opCode r = device_op c -> cr_status r = PERM_INACTIVE;
  dq_remote it : REMOTE_PRIVACY_ENABLE = true -> it ∈ startRemoteRecordList u -> rc_opCode it <> device_op c;
}.

Lemma device_name_op c : TransferPermissionToOpcode (device_name c) = Some (device_op c).
Proof. destruct c; apply device_opcodes. Qed.
Lemma device_op_name c p : TransferPermissionToOpcode p = Some (device_op c) -> p = device_name c.
Proof. intros H. destruct (opcode_name _ _ "" H) as [<- _]. by destruct (opcode_name _ _ "" (device_name_op c)) as [<- _]. Qed.
Lemma edm_status c u : GetMuteStatus (device_name c) EDM u = edm_muted c u || GetCacheDisablePolicy (device_op c) u.
Proof. by destruct c. Qed.
Lemma muted_refused c u : edm_muted c u = true -> IsEdmMuteOrDisable (device_name c) u = true.
Proof. intros H. unfold IsEdmMuteOrDisable. by rewrite edm_status, H. Qed.

Lemma Modify_muted c d i b u :
  edm_muted c (ModifyMuteStatus (device_name d) i b u) =
  match c, d, i with MICROPHONE, MICROPHONE, EDM | CAMERA, CAMERA, EDM => b | _, _, _ => edm_muted c u end.
Proof. destruct c, d, i; reflexivity. Qed.

Lemma Init_muted SV c p u : keeps_mute c SV -> edm_muted c u = true -> edm_muted c (InitializeMuteState p u) = true.
Proof.
  intros Hk Hm. unfold keeps_mute, edm_key in Hk. unfold InitializeMuteState. change MICROPHONE_PERMISSION_NAME with (device_name MICROPHONE).
  change CAMERA_PERMISSION_NAME with (device_name CAMERA). cbv zeta.
  split_if; [|split_if; [|done]].
  - destruct (GetMuteParameter EDM_MIC_MUTE_KEY) as [[]|] eqn:Eb; rewrite !Modify_muted; destruct c; cbn in *; congruence.
  - destruct (GetMuteParameter EDM_CAMERA_MUTE_KEY) as [[]|] eqn:Eb; rewrite !Modify_muted; destruct c; cbn in *; congruence.
Qed.

Lemma quiet_same c u u' : same_uses u u' -> edm_muted c u' = true -> device_quiet c u -> device_quiet c u'.
Proof. intros (E1 & E2 & E3 & E4) Hm [H1 H2 H3]. split; [done|..]; rewrite ?E1, ?E3; eauto. Qed.
Lemma quiet_sub c u u' : edm_muted c u' = edm_muted c u -> startRecordList u' `sublist_of` startRecordList u ->
  startRemoteRecordList u' `sublist_of` startRemoteRecordList u -> device_quiet c u -> device_quiet c u'.
Proof. intros Hm S1 S2 [H1 H2 H3]. split; [congruence|..]; intros; [eapply H2|eapply H3]; try done; by eapply elem_of_sublist. Qed.

Lemma start_status_quiet SV c t p u res u' : keeps_mute c SV -> start_status t p u = (res, u') -> device_quiet c u ->
  device_quiet c u' /\ (p = device_name c -> exists e, res = inl e).
Proof.
  intros Hk Hs Hq. pose proof (start_status_cases _ _ _ _ _ _ Hs) as (Hsame & _ & _).
  pose proof (Init_muted SV c p u Hk (dq_mute _ _ Hq)) as Hm. revert Hs. unfold start_status. cbv zeta.
  destruct (IsEdmMuteOrDisable p _) eqn:Ee.
  - intros [= <- <-]. split; [by eapply quiet_same|]. intros _. by eexists.
  - destruct (Register _) as [ok w] eqn:R. intros Hs. assert (u' = w) as -> by (revert Hs; repeat split_if; by intros [= _ <-]).
    assert (edm_muted c w = true) as Hw. { revert R. unfold Register. destruct c; repeat split_if; by intros [= _ <-]. }
    split; [by eapply quiet_same|]. intros ->. by rewrite muted_refused in Ee.
Qed.

Lemma AddRecord_quiet SV c info status caller u ret u' : pu_permissionName info <> device_name c ->
  AddRecordToStartList info status caller u = (ret, u') -> device_quiet c u -> device_quiet c u'.
Proof.
  intros Hn A [H1 H2 H3]. apply AddRecord_cases in A as [[_ ->]|(op & Hop & _ & _ & ->)]; [by split|]. split; [by destruct c| |done].
  cbn. intros r [->|Hr]%elem_of_emplace Ho; [|by apply H2]. cbn in Ho. subst op. destruct Hn. by apply device_op_name.
Qed.

Lemma ToRemove_quiet SV c target eqf clear u : using_inv u -> device_quiet c u -> device_quiet c (ToRemoveRecord target eqf clear u).2.
Proof.
  intros Hu Hq. destruct (ToRemoveRecord target eqf clear u) as [ok u'] eqn:R. cbn [snd].
  assert (edm_muted c u' = edm_muted c u) as Hm.
  { revert R. unfold ToRemoveRecord, RemoveByKey. destruct (filter _ _); [by intros [= _ <-]|]. split_if; [by intros [= _ <-]|].
    intros [= _ <-]. assert (forall rs v, edm_muted c (fold_left erase_camera rs v) = edm_muted c v) as ->; [|by destruct c].
    induction rs as [|x rs IH]; intros v; cbn [fold_left]; [done|]. rewrite IH. unfold erase_camera. cbv zeta. split_if; by destruct c. }
  apply ToRemove_spec in R as (F1 & _ & F3 & _ & _); [|apply Hu]. eapply quiet_sub; [done|rewrite F1; apply sublist_filter|by rewrite F3|done].
Qed.
Lemma ToRemoveRemote_quiet c hit all u : device_quiet c u -> device_quiet c (ToRemoveRemoteRecord hit all u).2.
Proof.
  intros Hq. unfold ToRemoveRemoteRecord. destruct (remove_remote _ _ _ _ _) as [rest evs] eqn:E. apply remove_remote_left in E.
  eapply quiet_sub; [..|exact Hq]; [by destruct c|done|exact E].
Qed.

Lemma Start_quiet SV c info caller u : keeps_mute c SV -> device_quiet c u -> device_quiet c (StartUsingPermission info caller u).2.
Proof.
  intros Hk Hq. unfold StartUsingPermission. destruct (NormalizeRecordTokenId _) as [|t]; [done|]. cbv zeta. repeat (split_if; [done|]).
  destruct (start_status _ _ _) as [res v] eqn:Es. apply (start_status_quiet SV c) in Es as [Hv Hn]; [|done..]. destruct res as [e|status]; [done|].
  destruct (AddRecordToStartList _ _ _ _) as [ret w] eqn:A. eapply AddRecord_quiet in A; [exact A| |done]. cbn. intros Hp. by destruct (Hn Hp).
Qed.
Lemma Start_callback_quiet SV c info cb caller u : keeps_mute c SV -> device_quiet c u ->
  device_quiet c (StartUsingPermission_callback info cb caller u).2.
Proof.
  intros Hk Hq. unfold StartUsingPermission_callback. destruct (NormalizeRecordTokenId _) as [|t]; [done|]. cbv zeta. repeat (split_if; [done|]).
  destruct (start_status _ _ _) as [res v] eqn:Es. apply (start_status_quiet SV c) in Es as [Hv Hn]; [|done..]. destruct res as [e|status]; [done|].
  set (v' := if String.eqb _ _ then _ else _).
  assert (device_quiet c v') as Hv' by (subst v'; split_if; (eapply quiet_same; [..|exact Hv]; [done|destruct c; apply Hv])).
  destruct (AddRecordToStartList _ _ _ _) as [ret w] eqn:A. eapply AddRecord_quiet in A; [|cbn; intros Hp; by destruct (Hn Hp)|exact Hv'].
  split_if; [|done]. split_if; (eapply quiet_same; [..|exact A]; [done|destruct c; apply A]).
Qed.

Lemma Init_Register_quiet SV c p u ok w : keeps_mute c SV -> Register (InitializeMuteState p u) = (ok, w) -> device_quiet c u -> device_quiet c w.
Proof.
  intros Hk R Hq. pose proof (Register_same _ _ _ _ R) as Hs. pose proof (Init_muted SV c p u Hk (dq_mute _ _ Hq)) as Hm.
  eapply quiet_same; [eapply same_uses_trans; [apply (Init_same SV)|exact Hs]| |exact Hq].
  revert R. unfold Register. destruct c; repeat split_if; by intros [= _ <-].
Qed.
Lemma Start_bundle_quiet SV c b p caller u : keeps_mute c SV -> device_quiet c u -> device_quiet c (StartUsingPermission_bundle b p caller u).2.
Proof.
  intros Hk Hq. unfold StartUsingPermission_bundle. split_if; [done|]. destruct (TransferPermissionToOpcode p) as [op|]; [|done]. cbv zeta.
  pose proof (Init_muted SV c p u Hk (dq_mute _ _ Hq)) as Hm.
  split_if; [by eapply quiet_same; [apply (Init_same SV)|..]|]. destruct (Register _) as [ok w] eqn:R. eapply Init_Register_quiet in R; [|done..].
  split_if; [done|]. case_bool_decide; (eapply quiet_sub; [..|exact R]; [by destruct c|done|done]).
Qed.
Lemma Start_remote_quiet SV c info caller u : keeps_mute c SV -> device_quiet c u -> device_quiet c (StartRemoteUsingPermission info caller u).2.
Proof.
  intros Hk Hq. unfold StartRemoteUsingPermission. split_if; [done|]. cbv zeta. pose proof (Init_muted SV c (ru_permissionName info) u Hk (dq_mute _ _ Hq)) as Hm.
  destruct (IsEdmMuteOrDisable _ _) eqn:Ee; [by eapply quiet_same; [apply (Init_same SV)|..]|].
  destruct (Register _) as [ok w] eqn:R. eapply Init_Register_quiet in R as Hw; [|done..].
  split_if; [done|]. unfold AddRecordToStartRemoteList. destruct (TransferPermissionToOpcode _) as [op|] eqn:Eo; [|done]. split_if; [done|].
  destruct Hw as [H1 H2 H3]. split; [by destruct c|done|]. cbn. intros it He Hit.
  assert (it = mkRemoteContinuousPermissionRecord op caller \/ it ∈ startRemoteRecordList w) as [->|?]; [|cbn|by apply H3].
  { revert Hit. generalize (startRemoteRecordList w) as k. induction k as [|x k IH]; cbn; [by rewrite list_elem_of_singleton; left|].
    split_if; rewrite !elem_of_cons; [tauto|]. intros [?|?%IH]; tauto. }
  intros ->. apply device_op_name in Eo. rewrite Eo in Ee, Hm. by rewrite muted_refused in Ee.
Qed.

Lemma Execute_quiet SV c t p s u : using_inv u -> device_quiet c u -> device_quiet c (ExecuteAndUpdateRecord t p s u).
Proof.
  intros Hu Hq. destruct (Execute_spec SV t p s u (ui_set _ Hu)) as (E1 & _ & E3 & _). destruct Hq as [H1 H2 H3].
  assert (edm_muted c (ExecuteAndUpdateRecord t p s u) = edm_muted c u) as Hm.
  { unfold ExecuteAndUpdateRecord. cbv zeta. destruct (update_loop _ _ _ _) as [[kept upd] []]; by destruct c. }
  split; [congruence| |by rewrite E3]. rewrite E1. intros r (x & -> & Hx)%list_elem_of_fmap Ho.
  assert (cr_opCode x = device_op c) as Hxo by (by destruct (updated_by SV t s u x)). specialize (H2 x Hx Hxo).
  assert (updated_by SV t s u x = false) as ->; [|done]. unfold updated_by. cbv zeta. by rewrite H2, Z.eqb_refl, andb_false_r.
Qed.
Lemma ByPerm_quiet SV c d b u : using_inv u -> (c = d -> b = false) -> edm_muted c u = true ->
  (c = d \/ device_quiet c u) -> device_quiet c (ExecuteAndUpdateRecordByPerm (device_name d) b u).
Proof.
  intros Hu Hb Hm Hq. unfold ExecuteAndUpdateRecordByPerm.
  destruct (UpdateStart_spec SV (device_name d) b (device_op d) u (ui_set _ Hu) (device_name_op d)) as (E1 & _ & E3 & _).
  set (v := UpdateStartUsingRecord _ b u) in *. assert (edm_muted c v = true) as Hv.
  { subst v. unfold UpdateStartUsingRecord. rewrite device_name_op. by destruct c. }
  assert (forall r, r ∈ startRecordList v -> cr_opCode r = device_op c -> cr_status r = PERM_INACTIVE) as Hl.
  { rewrite E1. intros r (x & -> & Hx)%list_elem_of_fmap. destruct (Z.eqb_spec (cr_opCode x) (device_op d)) as [Ex|Ex].
    - destruct c, d; cbn; rewrite Ex; intros Ho; try done; by rewrite Hb.
    - intros Ho. destruct Hq as [->|Hq]; [done|by apply (dq_local _ _ Hq)]. }
  assert (c = d \/ forall it, REMOTE_PRIVACY_ENABLE = true -> it ∈ startRemoteRecordList v -> rc_opCode it <> device_op c) as Hr.
  { rewrite E3. destruct Hq as [->|[_ _ ?]]; auto. }
  destruct REMOTE_PRIVACY_ENABLE eqn:ER; [|split; [done|done|congruence]].
  unfold UpdateStartRemoteUsingRecord. destruct b; [destruct Hr as [Ec|?]; [by specialize (Hb Ec)|split; [done|done|congruence || auto]]|].
  cbv zeta. rewrite device_name_op. cbn [default]. split; [by destruct c|done|]. rewrite ER. cbn. intros it _ [Hit1 Hit2]%list_elem_of_filter.
  destruct Hr as [->|Hr]; [done|auto].
Qed.

Lemma Mute_quiet SV c pt d b t u : (pt = EDM -> b = false -> False) -> using_inv u -> device_quiet c u ->
  device_quiet c (SetMutePolicy pt d b t u).2.
Proof.
  intros Hl Hu Hq. unfold SetMutePolicy. fold (device_name d). cbv zeta. pose proof (dq_mute _ _ Hq) as Hm.
  assert (forall i v, edm_muted c v = true -> edm_muted c (ModifyMuteStatus (device_name d) i true v) = true) as Hon.
  { intros i v Hv. rewrite Modify_muted. by destruct c, d, i. }
  assert (forall v x, same_uses u v -> edm_muted c v = true -> (c = d -> x = false) ->
    device_quiet c (if negb APP_SECURITY_PRIVACY_SERVICE then ExecuteAndUpdateRecordByPerm (device_name d) x v else v)) as Hp.
  { intros v x Hs Hv Hx. pose proof (same_uses_inv _ _ Hs Hu) as Hiv. pose proof (quiet_same _ _ _ Hs Hv Hq) as Hqv.
    split_if; [|done]. by apply (ByPerm_quiet SV); [| | |right]. }
  destruct pt; [split_if; [done|]| | |done].
  - unfold SetEdmMutePolicy. destruct b; [|by destruct Hl]. cbn [snd]. apply Hp; [|by apply Hon, Hon|done].
    eapply same_uses_trans; apply Modify_same.
  - unfold SetPrivacyMutePolicy. split_if; [done|]. cbn [snd].
    assert (c = d -> b = true) as Hcd. { intros ->. rewrite edm_status, Hm in E. by destruct b. }
    apply Hp; [apply Modify_same|rewrite Modify_muted; by destruct c, d|]. intros Ec. by rewrite Hcd.
  - unfold SetTempMutePolicy. repeat split_if; try done. eapply quiet_sub; [..|exact Hq]; [by destruct c|done|done].
Qed.

Lemma use_step_quiet c u u' : use_step (keeps_mute c) false u u' -> using_inv u -> device_quiet c u -> device_quiet c u'.
Proof.
  destruct 1; intros Hu Hq.
  - by apply Start_quiet.
  - by apply Start_callback_quiet.
  - by apply Start_bundle_quiet.
  - by apply Start_remote_quiet.
  - unfold StopUsingPermission, RemoveRecordFromStartList. split_if; [done|]. destruct (NormalizeRecordTokenId t); [done|].
    repeat (split_if; [done|]). destruct (TransferPermissionToOpcode p) as [op|]; [|done]. cbv zeta.
    pose proof (ToRemove_quiet SV c (mkContinuousPermissionRecord z op 0 pid caller NORMAL_TYPE 0 e) IsEqualRecord true u Hu Hq) as Hv.
    destruct (ToRemoveRecord _ _ _ u) as [ok v]. by split_if.
  - unfold StopUsingPermission_bundle. split_if; [done|]. destruct (TransferPermissionToOpcode p) as [op|]; [|done].
    destruct (bundleStartRecordMap u !! b) as [l|]; [|done]. case_bool_decide; [|done]. eapply quiet_sub; [..|exact Hq]; [by destruct c|done|done].
  - unfold StopRemoteUsingPermission. split_if; [done|]. destruct (TransferPermissionToOpcode p) as [op|]; [|done]. split_if; [done|].
    pose proof (ToRemoveRemote_quiet c (fun it => (op =? rc_opCode it) && (caller =? rc_callerPid it)) false u Hq) as Hv.
    destruct (ToRemoveRemoteRecord _ _ u) as [ok v]. by split_if.
  - unfold RemoveRecordFromStartListByCallerPid. cbv zeta.
    pose proof (ToRemove_quiet SV c (mkContinuousPermissionRecord 0 0 0 0 caller NORMAL_TYPE 0 "") IsEqualCallerPid true u Hu Hq) as Hv.
    set (v := (ToRemoveRecord _ _ _ u).2) in *. set (w := if PRIVACY_BUNDLE_START_STOP_ENABLE then _ else v).
    assert (device_quiet c w) as Hw by (subst w; split_if; [|done]; eapply quiet_sub; [..|exact Hv]; [by destruct c|done|done]).
    split_if; [by apply ToRemoveRemote_quiet|done].
  - by apply ToRemove_quiet.
  - unfold OnAppStopped. split_if; [by apply ToRemove_quiet|done].
  - unfold OnAppStateChanged, NotifyAppStateChange. cbv zeta. split_if; [done|]. by apply (Execute_quiet SV).
  - apply (Mute_quiet SV); try done. intros Hpt Hb. by specialize (H0 Hpt Hb).
  - eapply quiet_sub; [..|exact Hq]; [by destruct c|done|done].
  - unfold SetHapWithFGReminder. cbv zeta. repeat (split_if; [try done|]); try done; (eapply quiet_sub; [..|exact Hq]; [by destruct c|done|done]).
  - eapply quiet_sub; [..|exact Hq]; [by destruct c|done|done].
  - eapply quiet_sub; [..|exact Hq]; [by destruct c|done|done].
  - eapply quiet_sub; [..|exact Hq]; [by destruct c|done|done].
  - eapply quiet_sub; [..|exact Hq]; [by destruct c|done|done].
Qed.

(** What a request to start a use of a muted device does: whatever it answers, the uses stay as
    they are; it answers success only to a native process that holds the background permission of
    the device, for which nothing is ever recorded; and a well-formed request for an application
    is refused because of the administrator's policy. *)
Definition start_refused (c : CallerType) (SV : Services) u : Prop := forall info caller,
  pu_permissionName info = device_name c ->
  let '(ret, u3) := StartUsingPermission info caller u in
  same_uses u u3 /\
  (ret = SUCCESS -> exists tok, NormalizeRecordTokenId (pu_tokenId info) = inr tok /\ GetTokenTypeFlag tok = TOKEN_NATIVE /\
     VerifyNativeRecordPermission (device_name c) tok = true) /\
  (forall tok, NormalizeRecordTokenId (pu_tokenId info) = inr tok -> GetTokenTypeFlag tok = TOKEN_HAP ->
     IsEnhancedIdentityValid (pu_enhancedIdentity info) = true -> ret = ERR_EDM_POLICY_CHECK_FAILED).

Lemma Normalize_refuses SV t e : NormalizeRecordTokenId t = inl e -> e <> SUCCESS.
Proof.
  unfold NormalizeRecordTokenId, NormalizeBinRecordTokenId. repeat split_if; [destruct (AtKitGetHostTokenId t)|destruct (GetParentHapTokenID t)|];
    repeat split_if; by intros [= <-].
Qed.

Lemma muted_start_refused SV c u : keeps_mute c SV -> edm_muted c u = true -> start_refused c SV u.
Proof.
  intros Hk Hm info caller Hp. unfold StartUsingPermission, start_status. rewrite Hp. cbv zeta.
  destruct (NormalizeRecordTokenId _) as [e|tok] eqn:Ht; [split_and!; [done|by intros ->%(Normalize_refuses SV) || by intros ->; destruct (Normalize_refuses SV _ _ Ht)|done]|].
  split_if; [split_and!; [done|done|by intros ? _ _ Hid; rewrite Hid in *]|].
  destruct (Z.eqb_spec (GetTokenTypeFlag tok) TOKEN_NATIVE) as [Hn|Hn].
  { split_and!; [done| |by intros ? [= <-] Hh; rewrite Hh in Hn]. intros Hs. exists tok. split_and!; [done|done|]. by split_if_in Hs. }
  destruct (Z.eqb_spec (GetTokenTypeFlag tok) TOKEN_HAP) as [Hh|Hh]; cbn [negb]; [|split_and!; [done|done|by intros ? [= <-]]].
  rewrite (muted_refused c (InitializeMuteState (device_name c) u)) by (by apply Init_muted).
  split_and!; [apply (Init_same SV)|done|done].
Qed.

(** C13: from a state in which the uses are well formed (as they are after any history), once
    the administrator has muted the microphone or the camera (in a build where this service
    enforces it), then until the administrator takes the mute back, and as long as the
    administrator's parameter, when it can be read, says muted, no history of requests, events
    and policy changes makes a use of the device active: every recorded use of it is inactive
    and there is no remote use of it.  A request to start a use of it leaves the uses as they
    are: one for an application, with an identity of permitted length, is refused because of the
    policy; the only requests that answer success are those of native processes that hold the
    background permission of the device, which the code answers without recording anything.
    (Uses recorded by bundle carry no status and are not touched.) *)
Theorem edm_mute_holds SV c t u u1 u2 :
  APP_SECURITY_PRIVACY_SERVICE = false -> using_inv u ->
  SetMutePolicy EDM c true t u = (RET_SUCCESS, u1) -> rtc (use_step (keeps_mute c) false) u1 u2 ->
  (forall r, r ∈ startRecordList u2 -> cr_opCode r = device_op c -> cr_status r = PERM_INACTIVE) /\
  (forall it, REMOTE_PRIVACY_ENABLE = true -> it ∈ startRemoteRecordList u2 -> rc_opCode it <> device_op c) /\
  (forall SV', keeps_mute c SV' -> start_refused c SV' u2).
Proof.
  intros Hcfg Hu Hset Hsteps. assert (using_inv u1) as Hu1 by (pose proof (Mute_inv SV EDM c true t u Hu) as Hi; by rewrite Hset in Hi).
  assert (device_quiet c u1) as Hq1.
  { revert Hset. unfold SetMutePolicy. fold (device_name c). cbv zeta. split_if; [done|]. unfold SetEdmMutePolicy. rewrite Hcfg. cbn [negb].
    intros [= <-]. apply (ByPerm_quiet SV); [|done| |by left].
    - eapply same_uses_inv; [|exact Hu]. eapply same_uses_trans; apply Modify_same.
    - rewrite !Modify_muted. by destruct c. }
  assert (device_quiet c u2) as Hq.
  { clear Hset. induction Hsteps as [|x y z Hs _ IH]; [done|]. apply IH; [by eapply use_step_inv|by eapply use_step_quiet]. }
  destruct Hq as [H1 H2 H3]. split_and!; [done|done|]. intros SV' Hk. by apply muted_start_refused.
Qed.

(** ** Lost camera callbacks. *)

(** A second request to start a use of the camera that is already in progress is refused,
    but it also takes away the callback of the use in progress, which goes on without one. *)
Theorem refused_start_drops_callback SV info cb caller u u1 t :
  NormalizeRecordTokenId (pu_tokenId info) = inr t -> GetTokenTypeFlag t = TOKEN_HAP -> pu_permissionName info = CAMERA_PERMISSION_NAME ->
  StartUsingPermission_callback info cb caller u = (ERR_PERMISSION_ALREADY_START_USING, u1) ->
  startRecordList u1 = startRecordList u /\ (exists r, r ∈ startRecordList u1 /\ cr_tokenId r = t /\ cr_opCode r = OP_CAMERA) /\
  cameraCallbackMap u1 !! GetUniqueId t (pu_pid info) = None.
Proof.
  intros Ht Hhap Hp. unfold StartUsingPermission_callback. rewrite Ht, Hhap, Hp. change (TOKEN_HAP =? TOKEN_NATIVE) with false. cbv zeta.
  split_if; [done|]. destruct (start_status t _ u) as [[e|status] v] eqn:Es.
  { pose proof Es as Es'. unfold start_status in Es'. intros [= -> ->]. cbv zeta in Es'. destruct (Register _). by repeat split_if_in Es'. }
  pose proof (start_status_cases _ _ _ _ _ _ Es) as (Hsame & _). rewrite String.eqb_refl. unfold AddRecordToStartList.
  cbn [pu_permissionName with_tokenId]. rewrite Hp, (proj2 device_opcodes). cbv zeta.
  destruct (existsb _ _) eqn:E0; cbn iota; [|change (negb (SUCCESS =? RET_SUCCESS)) with false; by intros [=]].
  change (negb (ERR_PERMISSION_ALREADY_START_USING =? RET_SUCCESS)) with true. cbn iota. intros [= <-]. cbn. destruct Hsame as (El & _). split_and!; [done| |by rewrite lookup_delete_eq].
  apply existsb_exists in E0 as (r & Hr%list_elem_of_In & Heq). exists r. split; [done|].
  unfold IsEqualRecord, IsEqualBasicRecord, IsEqualTokenIdAndPid, IsEqualPermCode in Heq. cbn [cr_tokenId cr_opCode] in Heq. breflect. done.
Qed.
End Specs.

(** ** A device with one application in the foreground. *)
Definition phone : PrivacyConfig := Build_PrivacyConfig true true false true.
Definition phone_answers : Services := {|
  VerifyAccessToken := fun _ _ => PERMISSION_DENIED;
  AtKitGetHostTokenId := fun _ => inl 1;
  GetParentHapTokenID := fun _ => inl 1;
  GetForegroundApplications := [(536870913, 5)];
  GetPersistentMicMuteState := false;
  IsCameraMuted := false;
  GetParameter := fun _ => None;
  RegisterApplicationStateObserver := 0;
  StartAbility := fun _ => Some 0;
  GetCallingTokenID := 671088641;
  EdmTokenId := 671088642 |}.
#[local] Existing Instances phone phone_answers.
Definition camera_use (pid : Z) (identity : string) : PermissionUsedTypeInfo :=
  mkPermissionUsedTypeInfo 536870913 pid CAMERA_PERMISSION_NAME NORMAL_TYPE identity.
Definition idle_phone : Using := nothing_used false false.
Definition camera_on : Using := (StartUsingPermission_callback (camera_use 5 "") 7 100 idle_phone).2.
Definition camera_shared : Using := (StartUsingPermission (camera_use 5 "a") 100 (StartUsingPermission (camera_use 9 "") 100 camera_on).2).2.

(** The callbacks that are no longer needed are found by a walk that takes both lists to be
    ordered by token and permission, but they are ordered by token, identity and permission.  An
    application uses the camera in two processes, and in the first of them also under a second
    identity; when the first use is stopped the callback of that process is dropped, although
    its use under the other identity goes on. *)
Theorem camera_callback_lost :
  let '(ret, u) := StopUsingPermission 536870913 5 CAMERA_PERMISSION_NAME 100 "" camera_shared in
  rtc (use_step (fun _ => True) false) idle_phone camera_shared /\ ret = SUCCESS /\
  (exists r, r ∈ startRecordList u /\ cr_tokenId r = 536870913 /\ cr_opCode r = OP_CAMERA /\ cr_pid r = 5 /\ cr_status r = PERM_ACTIVE_IN_FOREGROUND) /\
  cameraCallbackMap camera_shared !! GetUniqueId 536870913 5 = Some 7 /\ cameraCallbackMap u !! GetUniqueId 536870913 5 = None.
Proof.
  assert (rtc (use_step (fun _ => True) false) idle_phone camera_shared) as Hr.
  { eapply rtc_l; [apply (us_start_callback (fun _ => True) false phone_answers (camera_use 5 "") 7 100); [done|by intros ??|done]|].
    eapply rtc_l; [apply (us_start (fun _ => True) false phone_answers (camera_use 9 "") 100); [done|by intros ??|done]|].
    eapply rtc_l; [apply (us_start (fun _ => True) false phone_answers (camera_use 5 "a") 100); [done|by intros ??|done]|].
    apply rtc_refl. }
  destruct (StopUsingPermission _ _ _ _ _ _) as [ret u] eqn:E. vm_compute in E. injection E as <- <-. split; [exact Hr|]. clear Hr.
  split; [done|]. split; [|split; vm_compute; reflexivity]. eexists. split; [right; left|done].
Qed.

Lemma camera_on_inv : using_inv camera_on.
Proof. apply Start_callback_inv; [by intros ??|done|apply nothing_used_inv]. Qed.

Lemma uses_reachable_inv_witness : using_inv camera_on.
Proof.
  apply (uses_reachable_inv (fun _ => True) false false false).
  eapply rtc_l; [apply (us_start_callback (fun _ => True) false phone_answers (camera_use 5 "") 7 100); [done|by intros ??|done]|]. apply rtc_refl.
Defined.

Lemma start_then_stop_witness : exists r u2,
  StopUsingPermission 536870913 9 CAMERA_PERMISSION_NAME 100 "" (StartUsingPermission (camera_use 9 "") 100 camera_on).2 = (SUCCESS, u2) /\
  startRecordList u2 = startRecordList camera_on /\ cr_pid r = 9.
Proof.
  destruct (start_then_stop phone_answers (camera_use 9 "") 100 camera_on (StartUsingPermission (camera_use 9 "") 100 camera_on).2 536870913)
    as (r & u2 & _ & _ & Hp & _ & _ & _ & _ & _ & _ & Hs & Hl & _); [exact camera_on_inv|vm_compute; reflexivity|done|vm_compute; reflexivity|].
  exists r, u2. split; [exact Hs|]. split; [exact Hl|exact Hp].
Defined.

Lemma ended_uses_witness : exists told, uses_end phone_answers (fun r => cr_pid r =? 5) camera_on (OnProcessDied 536870913 5 camera_on) told.
Proof.
  destruct (ended_uses phone_answers camera_on) as (H & _); [exact camera_on_inv|]. destruct (H 536870913 5) as (told & He & _); [lia|].
  exists told. exact He.
Defined.

Lemma edm_mute_holds_witness : Forall (fun r => cr_opCode r = OP_CAMERA -> cr_status r = PERM_INACTIVE)
  (startRecordList (SetMutePolicy EDM CAMERA true 671088642 camera_on).2).
Proof.
  apply Forall_forall. destruct (edm_mute_holds phone_answers CAMERA 671088642 camera_on (SetMutePolicy EDM CAMERA true 671088642 camera_on).2
    (SetMutePolicy EDM CAMERA true 671088642 camera_on).2) as (H & _); [done|exact camera_on_inv|vm_compute; reflexivity|apply rtc_refl|].
  exact H.
Defined.

Lemma refused_start_drops_callback_witness :
  let '(ret, u) := StartUsingPermission_callback (camera_use 5 "") 8 100 camera_on in
  ret = ERR_PERMISSION_ALREADY_START_USING /\ startRecordList u = startRecordList camera_on /\ cameraCallbackMap u !! GetUniqueId 536870913 5 = None.
Proof.
  destruct (StartUsingPermission_callback (camera_use 5 "") 8 100 camera_on) as [ret u] eqn:E.
  assert (ret = ERR_PERMISSION_ALREADY_START_USING) as -> by (vm_compute in E; by injection E as <- _). split; [done|].
  destruct (refused_start_drops_callback phone_answers (camera_use 5 "") 8 100 camera_on u 536870913) as (H1 & _ & H2);
    [vm_compute; reflexivity|vm_compute; reflexivity|done|exact E|]. split; [exact H1|exact H2].
Defined.
