(* ===== verification/PrivacyDb.v ===== *)
(** * The database of used records

    services/privacymanager/src/database/permission_used_record_db.cpp over
    services/common/database (sqlite_helper.cpp, statement.cpp).  The statements the code
    prepares are the values of [Sql], with named parameters bound before a step.  SQLite itself
    is not part of the repository: it is the parameter [SqlStore], whose laws say that a step
    does what [run_sql] does to the rows, in whatever order SQLite keeps them, or fails and
    leaves them alone. *)

From stdpp Require Import base gmap list strings sorting.
From S2P Require Import Prelude AccessTokenTypes Database PrivacyTypes.
#[local] Open Scope string_scope.
#[local] Open Scope list_scope.
#[local] Open Scope Z_scope.

(** ** Field names (PrivacyFiledConst). *)
Definition FIELD_USER_ID := "user_id".
Definition FIELD_TOKEN_ID := "token_id".
Definition FIELD_DEVICE_ID := "device_id".
Definition FIELD_DEVICE_NAME := "device_name".
Definition FIELD_OP_CODE := "op_code".
Definition FIELD_STATUS := "status".
Definition FIELD_TIMESTAMP := "timestamp".
Definition FIELD_ACCESS_DURATION := "access_duration".
Definition FIELD_ACCESS_COUNT := "access_count".
Definition FIELD_REJECT_COUNT := "reject_count".
Definition FIELD_TIMESTAMP_BEGIN := "timestamp_begin".
Definition FIELD_TIMESTAMP_END := "timestamp_end".
Definition FIELD_LOCKSCREEN_STATUS := "lockScreenStatus".
Definition FIELD_PERMISSION_CODE := "permission_code".
Definition FIELD_USED_TYPE := "used_type".
Definition FIELD_DISABLE_POLICY := "disable_policy".
Definition FIELD_ENHANCED_IDENTITY := "enhanced_identity".
Definition FIELD_SUB_PROFILE_ID := "sub_profile_id".

(** ** Tables. *)
Inductive DataType :=
  | PERMISSION_RECORD
  | PERMISSION_USED_TYPE
  | PERMISSION_USED_RECORD_TOGGLE_STATUS
  | PERMISSION_DISABLE_POLICY.

Record SqliteTable := mkSqliteTable { tableName_ : string; tableColumnNames_ : list string }.

Definition PERMISSION_RECORD_TABLE := "permission_record_table".
Definition PERMISSION_USED_TYPE_TABLE := "permission_used_type_table".
Definition PERMISSION_USED_RECORD_TOGGLE_STATUS_TABLE := "permission_used_record_toggle_status_table".
Definition PERMISSION_DISABLE_POLICY_TABLE := "permission_disable_policy_table".
Definition REMOTE_PERMISSION_RECORD_TABLE := "remote_permission_record".

Definition InitPermRecordTableInfo : SqliteTable :=
  mkSqliteTable PERMISSION_RECORD_TABLE
    [FIELD_TOKEN_ID; FIELD_OP_CODE; FIELD_STATUS; FIELD_TIMESTAMP; FIELD_ACCESS_DURATION; FIELD_ACCESS_COUNT;
     FIELD_REJECT_COUNT; FIELD_LOCKSCREEN_STATUS; FIELD_USED_TYPE; FIELD_ENHANCED_IDENTITY].
Definition InitPermUsedTypeTableInfo : SqliteTable :=
  mkSqliteTable PERMISSION_USED_TYPE_TABLE [FIELD_TOKEN_ID; FIELD_PERMISSION_CODE; FIELD_USED_TYPE].
Definition InitPermUsedRecordToggleStatusTableInfo : SqliteTable :=
  mkSqliteTable PERMISSION_USED_RECORD_TOGGLE_STATUS_TABLE [FIELD_USER_ID; FIELD_SUB_PROFILE_ID; FIELD_STATUS].
Definition InitPermDisablePolicyTableInfo : SqliteTable :=
  mkSqliteTable PERMISSION_DISABLE_POLICY_TABLE [FIELD_PERMISSION_CODE; FIELD_DISABLE_POLICY].
Definition g_tableColumnNames : list string :=
  [FIELD_DEVICE_ID; FIELD_DEVICE_NAME; FIELD_OP_CODE; FIELD_TIMESTAMP; FIELD_ACCESS_COUNT; FIELD_REJECT_COUNT; FIELD_SUB_PROFILE_ID].
Definition remoteTable : SqliteTable := mkSqliteTable REMOTE_PERMISSION_RECORD_TABLE g_tableColumnNames.

Definition dataTypeToSqlTable_ (type : DataType) : SqliteTable :=
  match type with
  | PERMISSION_RECORD => InitPermRecordTableInfo
  | PERMISSION_USED_TYPE => InitPermUsedTypeTableInfo
  | PERMISSION_USED_RECORD_TOGGLE_STATUS => InitPermUsedRecordToggleStatusTableInfo
  | PERMISSION_DISABLE_POLICY => InitPermDisablePolicyTableInfo
  end.

(** [create table]: the columns and the primary key.  (Of the columns only [sub_profile_id] of
    the toggle table may be null; the code never leaves it out.) *)
Record TableDef := mkTableDef { td_name : string; td_columns : list string; td_key : list string }.
Definition CreatePermissionRecordTable : TableDef :=
  mkTableDef PERMISSION_RECORD_TABLE
    [FIELD_TOKEN_ID; FIELD_OP_CODE; FIELD_STATUS; FIELD_TIMESTAMP; FIELD_ACCESS_DURATION; FIELD_ACCESS_COUNT;
     FIELD_REJECT_COUNT; FIELD_LOCKSCREEN_STATUS; FIELD_USED_TYPE; FIELD_ENHANCED_IDENTITY]
    [FIELD_TOKEN_ID; FIELD_OP_CODE; FIELD_STATUS; FIELD_TIMESTAMP; FIELD_USED_TYPE; FIELD_ENHANCED_IDENTITY].
Definition CreatePermissionUsedTypeTable : TableDef :=
  mkTableDef PERMISSION_USED_TYPE_TABLE [FIELD_TOKEN_ID; FIELD_PERMISSION_CODE; FIELD_USED_TYPE] [FIELD_TOKEN_ID; FIELD_PERMISSION_CODE].
Definition CreatePermissionUsedRecordToggleStatusTable : TableDef :=
  mkTableDef PERMISSION_USED_RECORD_TOGGLE_STATUS_TABLE [FIELD_USER_ID; FIELD_SUB_PROFILE_ID; FIELD_STATUS] [FIELD_USER_ID; FIELD_SUB_PROFILE_ID].
Definition CreatePermissionDisablePolicyTable : TableDef :=
  mkTableDef PERMISSION_DISABLE_POLICY_TABLE [FIELD_PERMISSION_CODE; FIELD_DISABLE_POLICY] [FIELD_PERMISSION_CODE].
Definition CreateRemotePermissionRecordTable : TableDef :=
  mkTableDef REMOTE_PERMISSION_RECORD_TABLE g_tableColumnNames [FIELD_DEVICE_ID; FIELD_DEVICE_NAME; FIELD_OP_CODE; FIELD_TIMESTAMP].
Definition schema : list TableDef :=
  [CreatePermissionRecordTable; CreatePermissionUsedTypeTable; CreatePermissionUsedRecordToggleStatusTable;
   CreatePermissionDisablePolicyTable; CreateRemotePermissionRecordTable].
Definition find_table (name : string) : option TableDef := find_if (fun d => String.eqb (td_name d) name) schema.

(** ** Statements. *)
Inductive Cond :=
  | ColumnEq (column param : string)
  | ColumnGe (column param : string)
  | ColumnLe (column param : string)
  | ColumnIn (column : string) (values : list Z).
Inductive Sql :=
  | SqlInsert (table : string) (params : list string)
  | SqlDelete (table : string) (conds : list Cond)
  | SqlDeleteByTime (table : string) (conds : list Cond)
  | SqlDeleteOldest (table : string) (limit : Z)
  | SqlUpdate (table : string) (sets : list string) (conds : list Cond)
  | SqlSelect (table : string) (conds : list Cond)
  | SqlSelectLatest (table : string) (conds : list Cond) (limit : Z)
  | SqlCount (table : string).
Abbreviation Bindings := (gmap string RdbValue).

Definition CreateInsertPrepareSqlCmd (t : SqliteTable) : Sql := SqlInsert (tableName_ t) (tableColumnNames_ t).
Definition CreateQueryPrepareSqlCmd (t : SqliteTable) (conditionColumns : list string) : Sql :=
  SqlSelect (tableName_ t) (map (fun c => ColumnEq c c) conditionColumns).
Definition CreateDeletePrepareSqlCmd (t : SqliteTable) (columnNames : list string) : Sql :=
  SqlDelete (tableName_ t) (map (fun c => ColumnEq c c) columnNames).
Definition CreateUpdatePrepareSqlCmd (t : SqliteTable) (modifyColumns conditionColumns : list string) : option Sql :=
  match modifyColumns with
  | [] => None
  | _ => Some (SqlUpdate (tableName_ t) modifyColumns (map (fun c => ColumnEq c c) conditionColumns))
  end.
(** One condition of a selection by time. *)
Definition time_cond (name : string) : Cond :=
  if String.eqb name FIELD_TIMESTAMP_BEGIN then ColumnGe FIELD_TIMESTAMP name
  else if String.eqb name FIELD_TIMESTAMP_END then ColumnLe FIELD_TIMESTAMP name
  else ColumnEq name name.
Definition opcode_cond (opCodeList : list Z) : list Cond :=
  match opCodeList with [] => [] | _ => [ColumnIn FIELD_OP_CODE (filter (fun c => c <> OP_INVALID) opCodeList)] end.
Definition CreateSelectByConditionPrepareSqlCmd (tokenId : Z) (t : SqliteTable) (opCodeList : list Z) (andColumns : list string)
    (databaseQueryCount : Z) : Sql :=
  let cond name :=
    if String.eqb name FIELD_TIMESTAMP_BEGIN || String.eqb name FIELD_TIMESTAMP_END then [time_cond name]
    else if String.eqb name FIELD_TOKEN_ID then (if negb (tokenId =? 0) then [ColumnEq FIELD_TOKEN_ID name] else [])
    else if String.eqb name FIELD_USED_TYPE then [ColumnIn FIELD_USED_TYPE [PICKER_TYPE; SECURITY_COMPONENT_TYPE]]
    else [ColumnEq name name] in
  SqlSelectLatest (tableName_ t) (concat (map cond andColumns) ++ opcode_cond opCodeList) databaseQueryCount.
Definition CreateCountPrepareSqlCmd (t : SqliteTable) : Sql := SqlCount (tableName_ t).
Definition CreateDeleteExpireRecordsPrepareSqlCmd (t : SqliteTable) (andColumns : list string) : Sql :=
  SqlDeleteByTime (tableName_ t) (map time_cond andColumns).
Definition CreateDeleteHistoryRecordsPrepareSqlCmd (t : SqliteTable) (tokenIDList : list Z) : Sql :=
  SqlDelete (tableName_ t) [ColumnIn FIELD_TOKEN_ID tokenIDList].
Definition CreateDeleteExcessiveRecordsPrepareSqlCmd (t : SqliteTable) (excessiveSize : Z) : Sql :=
  SqlDeleteOldest (tableName_ t) excessiveSize.

(** ** What a statement does to the rows. *)
Definition cond_column (c : Cond) : string := match c with ColumnEq a _ | ColumnGe a _ | ColumnLe a _ | ColumnIn a _ => a end.
Definition cond_holds (b : Bindings) (r : Row) (c : Cond) : bool :=
  match c with
  | ColumnEq column param => match b !! param with None => false | v => bool_decide (r !! column = v) end
  | ColumnGe column param => match r !! column, b !! param with Some (VInt x), Some (VInt y) => y <=? x | _, _ => false end
  | ColumnLe column param => match r !! column, b !! param with Some (VInt x), Some (VInt y) => x <=? y | _, _ => false end
  | ColumnIn column values => match r !! column with Some (VInt x) => bool_decide (x ∈ values) | _ => false end
  end.
Definition conds_hold (b : Bindings) (conds : list Cond) (r : Row) : bool := forallb (cond_holds b r) conds.

Definition row_time (r : Row) : Z := match r !! FIELD_TIMESTAMP with Some (VInt x) => x | _ => 0 end.
Definition later (r r' : Row) : Prop := row_time r' <= row_time r.
#[export] Instance later_dec : RelDecision later := fun r r' => Z_le_dec (row_time r') (row_time r).
Definition earlier (r r' : Row) : Prop := row_time r <= row_time r'.
#[export] Instance earlier_dec : RelDecision earlier := fun r r' => Z_le_dec (row_time r) (row_time r').

(** A row from the bindings of its columns; none when one is missing. *)
Definition bound_row (b : Bindings) (columns : list string) : option Row :=
  list_to_map <$> mapM (fun c => pair c <$> b !! c) columns.
Definition same_key (key : list string) (r r' : Row) : bool := forallb (fun c => bool_decide (r !! c = r' !! c)) key.

Definition known_columns (d : TableDef) (columns : list string) : bool := forallb (fun c => bool_decide (c ∈ td_columns d)) columns.
(** [T] with new rows in one table. *)
Definition set_rows (table : string) (rows : list Row) (T : string -> list Row) : string -> list Row :=
  fun t => if String.eqb table t then rows else T t.

Definition run_sql (q : Sql) (b : Bindings) (T : string -> list Row) : option (list Row * (string -> list Row)) :=
  let on table columns (f : TableDef -> option (list Row * (string -> list Row))) :=
    match find_table table with None => None | Some d => if known_columns d columns then f d else None end in
  match q with
  | SqlInsert table params =>
      on table params (fun d =>
        match bound_row b params with
        | None => None
        | Some r => if existsb (same_key (td_key d) r) (T table) then None else Some ([], set_rows table (T table ++ [r]) T)
        end)
  | SqlDelete table conds =>
      on table (map cond_column conds) (fun _ => Some ([], set_rows table (filter (fun r => conds_hold b conds r = false) (T table)) T))
  | SqlDeleteByTime table conds =>
      on table (map cond_column conds) (fun _ =>
        let times := map row_time (filter (fun r => conds_hold b conds r = true) (T table)) in
        Some ([], set_rows table (filter (fun r => row_time r ∉ times) (T table)) T))
  | SqlDeleteOldest table limit =>
      on table [] (fun _ =>
        let times := map row_time (take (Z.to_nat limit) (merge_sort earlier (T table))) in
        Some ([], set_rows table (filter (fun r => row_time r ∉ times) (T table)) T))
  | SqlUpdate table sets conds =>
      on table (sets ++ map cond_column conds) (fun d =>
        match bound_row b sets with
        | None => None
        | Some m =>
            let rows := map (fun r => if conds_hold b conds r then m ∪ r else r) (T table) in
            if bool_decide (NoDup (map (fun r => map (fun c => r !! c) (td_key d)) rows)) then Some ([], set_rows table rows T) else None
        end)
  | SqlSelect table conds => on table (map cond_column conds) (fun _ => Some (filter (fun r => conds_hold b conds r = true) (T table), T))
  | SqlSelectLatest table conds limit =>
      on table (map cond_column conds) (fun _ =>
        Some (take (Z.to_nat limit) (merge_sort later (filter (fun r => conds_hold b conds r = true) (T table))), T))
  | SqlCount table => on table [] (fun _ => Some ([{["count" := VInt (Z.of_nat (length (T table)))]}], T))
  end.

(** ** SQLite.  [sql_rows] is what the connection sees and [sql_saved] what it saw when its
    transaction began.  A step delivers rows and says whether it ran to its end.  The results of
    [BEGIN], [COMMIT] and [ROLLBACK] are ignored by the code; here they take effect. *)
Class SqlStore (St : Type) := {
  sql_rows : St -> string -> list Row;
  sql_saved : St -> string -> list Row;
  sql_step : St -> Sql -> Bindings -> bool * list Row * St;
  BeginTransaction : St -> St;
  CommitTransaction : St -> St;
  RollbackTransaction : St -> St;
  NeedRebuild : St -> bool;
  Rebuild : St -> Z * St;
}.

Class SqlStoreLaws (St : Type) `{!SqlStore St} := {
  law_step_done s q b rows s' : sql_step s q b = (true, rows, s') ->
    same_rows (sql_saved s') (sql_saved s) /\
    exists T T', same_rows T (sql_rows s) /\ run_sql q b T = Some (rows, T') /\ same_rows (sql_rows s') T';
  law_step_failed s q b rows s' : sql_step s q b = (false, rows, s') ->
    same_rows (sql_saved s') (sql_saved s) /\ same_rows (sql_rows s') (sql_rows s);
  law_begin s : same_rows (sql_rows (BeginTransaction s)) (sql_rows s) /\ same_rows (sql_saved (BeginTransaction s)) (sql_rows s);
  law_commit s : same_rows (sql_rows (CommitTransaction s)) (sql_rows s);
  law_sql_rollback s : same_rows (sql_rows (RollbackTransaction s)) (sql_saved s);
  law_rebuild s s' : Rebuild s = (0, s') -> forall t, sql_rows s' t = [];
}.

(** A store that is not damaged and fails only what cannot be run. *)
Class SqlReliable (St : Type) `{!SqlStore St} := {
  rel_intact s : NeedRebuild s = false;
  rel_step s q b rows s' : sql_step s q b = (false, rows, s') -> forall T, same_rows T (sql_rows s) -> run_sql q b T = None;
}.

Section Db.
Context {St : Type} `{!SqlStore St}.
Implicit Types (s : St).

(** ** Binding and reading values (statement.cpp). *)
Definition bind_value (v : VariantValue) : option RdbValue :=
  match v with TYPE_STRING x => Some (VString x) | TYPE_INT z | TYPE_INT64 z => Some (VInt z) | _ => None end.
(** Binding all the fields of a value; parameters bound before keep their values. *)
Definition Bind (value : GenericValues) (b : Bindings) : Bindings := omap bind_value value ∪ b.
Definition GetValue (flagInt64 : bool) (v : RdbValue) : VariantValue :=
  match v with VInt z => if flagInt64 then TYPE_INT64 z else TYPE_INT (i32 z) | VString x => TYPE_STRING x | VBlob _ => TYPE_NULL end.
Definition GetAllKeys (value : GenericValues) : list string := (map_to_list value).*1.

(** ** The operations. *)
Definition RetryOnCorrupt (lockedAction : St -> Z * St) s : Z * St :=
  let attempt s :=
    let '(ret, s) := lockedAction (BeginTransaction s) in
    if ret =? SUCCESS then (ret, CommitTransaction s) else (ret, RollbackTransaction s) in
  let '(ret, s) := lockedAction (BeginTransaction s) in
  if ret =? SUCCESS then (ret, CommitTransaction s)
  else
    let corrupt := NeedRebuild s in
    let s := RollbackTransaction s in
    if negb corrupt then attempt s
    else
      let '(res, s) := Rebuild s in
      if res =? SUCCESS then attempt s else (ret, s).

Fixpoint insert_loop (q : Sql) (values : list GenericValues) (b : Bindings) (isAddSuccessfully : bool) s : bool * St :=
  match values with
  | [] => (isAddSuccessfully, s)
  | value :: rest =>
      let b := Bind value b in
      let '(done, _, s) := sql_step s q b in
      insert_loop q rest b (isAddSuccessfully && done) s
  end.
Definition AddLocked (t : SqliteTable) (values : list GenericValues) s : Z * St :=
  let '(ok, s) := insert_loop (CreateInsertPrepareSqlCmd t) values ∅ true s in
  (if ok then SUCCESS else PrivacyTypes.ERR_DATABASE_OPERATE_FAILED, s).
Definition Add (t : SqliteTable) (values : list GenericValues) s : Z * St := RetryOnCorrupt (AddLocked t values) s.

(** A statement that either runs to its end or fails. *)
Definition run_statement (q : Sql) (b : Bindings) s : Z * St :=
  let '(done, _, s) := sql_step s q b in (if done then SUCCESS else PrivacyTypes.ERR_DATABASE_OPERATE_FAILED, s).

Definition RemoveLocked (t : SqliteTable) (conditions : GenericValues) s : Z * St :=
  run_statement (CreateDeletePrepareSqlCmd t (GetAllKeys conditions)) (Bind conditions ∅) s.
Definition Remove (t : SqliteTable) (conditions : GenericValues) s : Z * St := RetryOnCorrupt (RemoveLocked t conditions) s.

Definition UpdateLocked (t : SqliteTable) (modifyValue conditionValue : GenericValues) s : Z * St :=
  match CreateUpdatePrepareSqlCmd t (GetAllKeys modifyValue) (GetAllKeys conditionValue) with
  | None => (PrivacyTypes.ERR_DATABASE_OPERATE_FAILED, s)
  | Some q => run_statement q (Bind conditionValue (Bind modifyValue ∅)) s
  end.
Definition Update (t : SqliteTable) (modifyValue conditionValue : GenericValues) s : Z * St :=
  RetryOnCorrupt (UpdateLocked t modifyValue conditionValue) s.

Definition DeleteExpireRecordsLocked (t : SqliteTable) (andConditions : GenericValues) s : Z * St :=
  match GetAllKeys andConditions with
  | [] => (SUCCESS, s)
  | andColumns => run_statement (CreateDeleteExpireRecordsPrepareSqlCmd t andColumns) (Bind andConditions ∅) s
  end.
Definition DeleteExpireRecords (t : SqliteTable) (andConditions : GenericValues) s : Z * St :=
  RetryOnCorrupt (DeleteExpireRecordsLocked t andConditions) s.

Fixpoint DeleteHistoryRecordsInTablesLocked (dateTypes : list SqliteTable) (tokenIDList : list Z) s : Z * St :=
  match dateTypes with
  | [] => (SUCCESS, s)
  | t :: rest =>
      let '(ret, s) := run_statement (CreateDeleteHistoryRecordsPrepareSqlCmd t tokenIDList) ∅ s in
      if ret =? SUCCESS then DeleteHistoryRecordsInTablesLocked rest tokenIDList s else (ret, s)
  end.
Definition DeleteHistoryRecordsInTables (dateTypes : list SqliteTable) (tokenIDList : list Z) s : Z * St :=
  RetryOnCorrupt (DeleteHistoryRecordsInTablesLocked dateTypes tokenIDList) s.

Definition DeleteExcessiveRecordsLocked (t : SqliteTable) (excessiveSize : Z) s : Z * St :=
  run_statement (CreateDeleteExcessiveRecordsPrepareSqlCmd t excessiveSize) ∅ s.
Definition DeleteExcessiveRecords (t : SqliteTable) (excessiveSize : Z) s : Z * St :=
  RetryOnCorrupt (DeleteExcessiveRecordsLocked t excessiveSize) s.

(** Reads take the rows delivered, also when the step that follows fails. *)
Definition Query (t : SqliteTable) (conditionValue : GenericValues) s : Z * list GenericValues * St :=
  let '(_, rows, s) := sql_step s (CreateQueryPrepareSqlCmd t (GetAllKeys conditionValue)) (Bind conditionValue ∅) in
  (SUCCESS, map (fmap (GetValue false)) rows, s).
Definition long_column (c : string) : bool := String.eqb c FIELD_TIMESTAMP || String.eqb c FIELD_ACCESS_DURATION.
Definition read_row (r : Row) : GenericValues := map_imap (fun c v => Some (GetValue (long_column c) v)) r.
Definition FindByConditions (t : SqliteTable) (opCodeList : list Z) (andConditions : GenericValues) (databaseQueryCount : Z) s
    : Z * list GenericValues * St :=
  let tokenId := GetInt FIELD_TOKEN_ID andConditions in
  let q := CreateSelectByConditionPrepareSqlCmd tokenId t opCodeList (GetAllKeys andConditions) databaseQueryCount in
  let '(_, rows, s) := sql_step s q (Bind (delete FIELD_USED_TYPE andConditions) ∅) in
  (SUCCESS, map read_row rows, s).
Definition Count (t : SqliteTable) s : Z * St :=
  let '(_, rows, s) := sql_step s (CreateCountPrepareSqlCmd t) ∅ in
  (match rows with [] => DEFAULT_VALUE | r :: _ => GetInt "count" (GetValue false <$> r) end, s).
(** ** The per-user databases of remote records (class RemotePermissionUsedRecordDb): the same
    statements and the same retry for their one table; only the selection differs. *)
Definition RemoteDb_CreateInsertPrepareSqlCmd : Sql := CreateInsertPrepareSqlCmd remoteTable.
Definition RemoteDb_CreateDeletePrepareSqlCmd (columnNames : list string) : Sql := CreateDeletePrepareSqlCmd remoteTable columnNames.
Definition RemoteDb_CreateUpdatePrepareSqlCmd (modifyColumns conditionColumns : list string) : option Sql :=
  CreateUpdatePrepareSqlCmd remoteTable modifyColumns conditionColumns.
Definition RemoteDb_CreateSelectByConditionPrepareSqlCmd (opCodeList : list Z) (andColumns : list string) (databaseQueryCount : Z) : Sql :=
  SqlSelectLatest (tableName_ remoteTable) (map time_cond andColumns ++ opcode_cond opCodeList) databaseQueryCount.
Definition RemoteDb_CreateCountPrepareSqlCmd : Sql := CreateCountPrepareSqlCmd remoteTable.
Definition RemoteDb_CreateDeleteExpireRecordsPrepareSqlCmd (andColumns : list string) : Sql := CreateDeleteExpireRecordsPrepareSqlCmd remoteTable andColumns.
Definition RemoteDb_CreateDeleteExcessiveRecordsPrepareSqlCmd (excessiveSize : Z) : Sql := CreateDeleteExcessiveRecordsPrepareSqlCmd remoteTable excessiveSize.

Definition RemoteDb_RetryOnCorrupt (lockedAction : St -> Z * St) s : Z * St := RetryOnCorrupt lockedAction s.
Definition RemoteDb_AddLocked (values : list GenericValues) s : Z * St :=
  let '(ok, s) := insert_loop RemoteDb_CreateInsertPrepareSqlCmd values ∅ true s in
  (if ok then SUCCESS else PrivacyTypes.ERR_DATABASE_OPERATE_FAILED, s).
Definition RemoteDb_Add (values : list GenericValues) s : Z * St := RemoteDb_RetryOnCorrupt (RemoteDb_AddLocked values) s.
Definition RemoteDb_RemoveLocked (conditions : GenericValues) s : Z * St :=
  run_statement (RemoteDb_CreateDeletePrepareSqlCmd (GetAllKeys conditions)) (Bind conditions ∅) s.
Definition RemoteDb_Remove (conditions : GenericValues) s : Z * St := RemoteDb_RetryOnCorrupt (RemoteDb_RemoveLocked conditions) s.
Definition RemoteDb_UpdateLocked (modifyValue conditionValue : GenericValues) s : Z * St :=
  match RemoteDb_CreateUpdatePrepareSqlCmd (GetAllKeys modifyValue) (GetAllKeys conditionValue) with
  | None => (PrivacyTypes.ERR_DATABASE_OPERATE_FAILED, s)
  | Some q => run_statement q (Bind conditionValue (Bind modifyValue ∅)) s
  end.
Definition RemoteDb_Update (modifyValue conditionValue : GenericValues) s : Z * St :=
  RemoteDb_RetryOnCorrupt (RemoteDb_UpdateLocked modifyValue conditionValue) s.
Definition RemoteDb_DeleteExpireRecordsLocked (andConditions : GenericValues) s : Z * St :=
  match GetAllKeys andConditions with
  | [] => (SUCCESS, s)
  | andColumns => run_statement (RemoteDb_CreateDeleteExpireRecordsPrepareSqlCmd andColumns) (Bind andConditions ∅) s
  end.
Definition RemoteDb_DeleteExpireRecords (andConditions : GenericValues) s : Z * St :=
  RemoteDb_RetryOnCorrupt (RemoteDb_DeleteExpireRecordsLocked andConditions) s.
Definition RemoteDb_DeleteExcessiveRecordsLocked (excessiveSize : Z) s : Z * St :=
  run_statement (RemoteDb_CreateDeleteExcessiveRecordsPrepareSqlCmd excessiveSize) ∅ s.
Definition RemoteDb_DeleteExcessiveRecords (excessiveSize : Z) s : Z * St :=
  RemoteDb_RetryOnCorrupt (RemoteDb_DeleteExcessiveRecordsLocked excessiveSize) s.
Definition RemoteDb_FindByConditions (opCodeList : list Z) (andConditions : GenericValues) (databaseQueryCount : Z) s : Z * list GenericValues * St :=
  let q := RemoteDb_CreateSelectByConditionPrepareSqlCmd opCodeList (GetAllKeys andConditions) databaseQueryCount in
  let '(_, rows, s) := sql_step s q (Bind andConditions ∅) in
  (SUCCESS, map read_row rows, s).
Definition RemoteDb_Count s : Z * St :=
  let '(_, rows, s) := sql_step s RemoteDb_CreateCountPrepareSqlCmd ∅ in
  (match rows with [] => DEFAULT_VALUE | r :: _ => GetInt "count" (GetValue false <$> r) end, s).
End Db.

(** ** A store in memory. *)
Record MemSql := mkMemSql { mem_tables : string -> list Row; mem_saved : string -> list Row }.
#[export] Instance MemSql_store : SqlStore MemSql := {|
  sql_rows := mem_tables;
  sql_saved := mem_saved;
  sql_step s q b :=
    match run_sql q b (mem_tables s) with
    | None => (false, [], s)
    | Some (rows, T) => (true, rows, mkMemSql T (mem_saved s))
    end;
  BeginTransaction s := mkMemSql (mem_tables s) (mem_tables s);
  CommitTransaction s := s;
  RollbackTransaction s := mkMemSql (mem_saved s) (mem_saved s);
  NeedRebuild _ := false;
  Rebuild s := (0, mkMemSql (fun _ => []) (fun _ => []));
|}.
#[export] Instance MemSql_laws : SqlStoreLaws MemSql.
Proof.
  split.
  - intros s q b rows s'. cbn. destruct (run_sql q b (mem_tables s)) as [[rs T]|] eqn:E; [|done].
    intros [= <- <-]; cbn; (split; [done|]); exists (mem_tables s), T; done.
  - intros s q b rows s'. cbn. destruct (run_sql q b (mem_tables s)) as [[rs T]|]; [done|]. by intros [= <- <-].
  - by intros s.
  - by intros s.
  - by intros s.
  - by intros s s' [= <-].
Qed.

(** Whether a statement can run does not depend on the order of the rows. *)
Lemma run_sql_order q b T T' : same_rows T T' -> run_sql q b T = None -> run_sql q b T' = None.
Proof.
  intros HT. unfold run_sql. destruct q; destruct (find_table _) as [d|]; try done; destruct (known_columns _ _); try done.
  - destruct (bound_row _ _) as [r|]; [|done]. destruct (existsb _ (T table)) eqn:E; [|done]. intros _.
    assert (existsb (same_key (td_key d) r) (T' table) = true) as ->; [|done]. apply existsb_exists in E as (x & Hx & Hk).
    apply existsb_exists. exists x. split; [|done]. apply list_elem_of_In. rewrite <- (HT table). by apply list_elem_of_In.
  - destruct (bound_row _ _) as [m|]; [|done]. cbv zeta. case_bool_decide as H1; [done|]. intros _. rewrite bool_decide_eq_false_2; [done|].
    intros H2. apply H1. eapply NoDup_Permutation_proper; [|exact H2]. apply fmap_Permutation, fmap_Permutation, HT.
Qed.

#[export] Instance MemSql_reliable : SqlReliable MemSql.
Proof.
  split; [done|]. intros s q b rows s'. cbn. destruct (run_sql q b (mem_tables s)) as [[rs T]|] eqn:E; [done|].
  intros _ T HT. eapply run_sql_order; [|exact E]. by symmetry.
Qed.
