(* ===== verification/PrivacyRecord.v ===== *)
(** * Records of used permissions

    services/privacymanager/src/record/permission_record_manager.cpp, the part that keeps and
    reports records of past uses: the cache in which the uses of one minute are merged and its
    writing back to the database, the toggles that switch recording off, the used types, the
    disable policies, removal and aging, and the query; with the row translations of
    permission_record.cpp and database/data_translator.cpp and the per-user databases of
    remote records (database/remote_permission_used_record_db.cpp). *)

From stdpp Require Import base gmap list strings sorting.
From S2P Require Import Prelude AccessTokenTypes TokenId PermissionMap Validator Database ToggleManager PrivacyTypes PrivacyRecordSet PrivacyUsage PrivacyDb.
#[local] Open Scope string_scope.
#[local] Open Scope list_scope.
#[local] Open Scope Z_scope.
#[local] Open Scope cxx_scope.

Definition ONE_MINUTE_MILLISECONDS : Z := 60 * 1000.
Definition ONE_DAY_MILLISECONDS : Z := 24 * 60 * 60 * 1000.
Definition MAX_USER_ID : Z := 10736.
Definition LEGACY_SUBPROFILE_ID : Z := -1.
Definition NORMAL_TYPE_ADD_VALUE : Z := 1.
Definition PICKER_TYPE_ADD_VALUE : Z := 2.
Definition SEC_COMPONENT_TYPE_ADD_VALUE : Z := 4.
Definition MAX_PERMISSION_USED_TYPE_SIZE : Z := 2000.
Definition MAX_ACCESS_RECORD_SIZE : Z := 500.
Definition MAX_PERMISSION_USED_RECORD_EXTRA_LENGTH : Z := 48 * 1024.
Definition g_supportAddCallbackPermList : list string := ["ohos.permission.READ_IMAGEVIDEO"; "ohos.permission.WRITE_IMAGEVIDEO"].

(** [TimeUtil]. *)
Definition MS_PER_MINUTE : Z := 60 * 1000.
Definition IsTimeStampsSameMinute (timeStamp1 timeStamp2 : Z) : bool := Z.quot timeStamp1 MS_PER_MINUTE =? Z.quot timeStamp2 MS_PER_MINUTE.

(** ** Data. *)
Record PermissionRecord := mkPermissionRecord {
  pr_tokenId : Z;
  pr_opCode : Z;
  pr_status : Z;
  pr_timestamp : Z;
  pr_accessDuration : Z;
  pr_type : Z;
  pr_accessCount : Z;
  pr_rejectCount : Z;
  pr_lockScreenStatus : Z;
  pr_enhancedIdentity : string;
}.
Definition set_counts (access reject : Z) (r : PermissionRecord) : PermissionRecord :=
  mkPermissionRecord (pr_tokenId r) (pr_opCode r) (pr_status r) (pr_timestamp r) (pr_accessDuration r) (pr_type r) access reject
    (pr_lockScreenStatus r) (pr_enhancedIdentity r).
Record PermissionRecordCache := mkPermissionRecordCache { ch_record : PermissionRecord; ch_needUpdateToDb : bool }.

Record RemotePermissionRecord := mkRemotePermissionRecord {
  rr_deviceId : string;
  rr_deviceName : string;
  rr_opCode : Z;
  rr_timestamp : Z;
  rr_accessCount : Z;
  rr_rejectCount : Z;
  rr_userId : Z;
  rr_subProfileId : Z;
}.
Definition set_remote_counts (access reject : Z) (r : RemotePermissionRecord) : RemotePermissionRecord :=
  mkRemotePermissionRecord (rr_deviceId r) (rr_deviceName r) (rr_opCode r) (rr_timestamp r) access reject (rr_userId r) (rr_subProfileId r).
Record RemotePermissionRecordCache := mkRemotePermissionRecordCache { rch_record : RemotePermissionRecord; rch_needUpdateToDb : bool }.

Record AddPermParamInfo := mkAddPermParamInfo {
  ai_tokenId : Z;
  ai_permissionName : string;
  ai_successCount : Z;
  ai_failCount : Z;
  ai_type : Z;
  ai_extra : string;
  ai_enhancedIdentity : string;
}.
Definition with_ai_tokenId (tokenId : Z) (info : AddPermParamInfo) : AddPermParamInfo :=
  mkAddPermParamInfo tokenId (ai_permissionName info) (ai_successCount info) (ai_failCount info) (ai_type info) (ai_extra info)
    (ai_enhancedIdentity info).
Record RemoteAddPermParamInfo := mkRemoteAddPermParamInfo {
  ra_deviceId : string;
  ra_deviceName : string;
  ra_permissionName : string;
  ra_successCount : Z;
  ra_failCount : Z;
}.

Record UsedRecordDetail := mkUsedRecordDetail {
  ud_status : Z;
  ud_lockScreenStatus : Z;
  ud_timestamp : Z;
  ud_accessDuration : Z;
  ud_count : Z;
  ud_type : Z;
}.
Record PermissionUsedRecord := mkPermissionUsedRecord {
  pur_permissionName : string;
  pur_enhancedIdentity : string;
  pur_accessCount : Z;
  pur_secAccessCount : Z;
  pur_rejectCount : Z;
  pur_lastAccessTime : Z;
  pur_lastRejectTime : Z;
  pur_lastAccessDuration : Z;
  pur_accessRecords : list UsedRecordDetail;
  pur_rejectRecords : list UsedRecordDetail;
}.
Record BundleUsedRecord := mkBundleUsedRecord {
  bur_tokenId : Z;
  bur_isRemote : bool;
  bur_deviceId : string;
  bur_deviceName : string;
  bur_bundleName : string;
  bur_permissionRecords : list PermissionUsedRecord;
}.
Definition default_BundleUsedRecord : BundleUsedRecord := mkBundleUsedRecord 0 false "" "" "" [].
Definition set_bur_records (rs : list PermissionUsedRecord) (b : BundleUsedRecord) : BundleUsedRecord :=
  mkBundleUsedRecord (bur_tokenId b) (bur_isRemote b) (bur_deviceId b) (bur_deviceName b) (bur_bundleName b) rs.
Record PermissionUsedResult := mkPermissionUsedResult {
  res_beginTimeMillis : Z;
  res_endTimeMillis : Z;
  res_bundleRecords : list BundleUsedRecord;
}.
Definition FLAG_PERMISSION_USAGE_SUMMARY : Z := 0.
Definition FLAG_PERMISSION_USAGE_DETAIL : Z := 1.
Definition FLAG_PERMISSION_USAGE_SUMMARY_IN_SCREEN_LOCKED : Z := 2.
Definition FLAG_PERMISSION_USAGE_SUMMARY_IN_SCREEN_UNLOCKED : Z := 3.
Definition FLAG_PERMISSION_USAGE_SUMMARY_IN_APP_BACKGROUND : Z := 4.
Definition FLAG_PERMISSION_USAGE_SUMMARY_IN_APP_FOREGROUND : Z := 5.
Definition FLAG_PERMISSION_SECURITY_ACCESS_DETAIL : Z := 6.
Record PermissionUsedRequest := mkPermissionUsedRequest {
  rq_tokenId : Z;
  rq_isRemote : bool;
  rq_deviceId : string;
  rq_bundleName : string;
  rq_permissionList : list string;
  rq_beginTimeMillis : Z;
  rq_endTimeMillis : Z;
  rq_flag : Z;
}.

(** ** Rows (permission_record.cpp). *)
Definition TranslationIntoGenericValues (record : PermissionRecord) : GenericValues :=
  Put FIELD_ENHANCED_IDENTITY (TYPE_STRING (pr_enhancedIdentity record)) (
  Put FIELD_LOCKSCREEN_STATUS (TYPE_INT (pr_lockScreenStatus record)) (
  Put FIELD_REJECT_COUNT (TYPE_INT (pr_rejectCount record)) (
  Put FIELD_ACCESS_COUNT (TYPE_INT (pr_accessCount record)) (
  Put FIELD_USED_TYPE (TYPE_INT (pr_type record)) (
  Put FIELD_ACCESS_DURATION (TYPE_INT64 (pr_accessDuration record)) (
  Put FIELD_TIMESTAMP (TYPE_INT64 (pr_timestamp record)) (
  Put FIELD_STATUS (TYPE_INT (pr_status record)) (
  Put FIELD_OP_CODE (TYPE_INT (pr_opCode record)) (
  Put FIELD_TOKEN_ID (TYPE_INT (i32 (pr_tokenId record))) ∅))))))))).
Definition TranslationIntoPermissionRecord (values : GenericValues) : PermissionRecord :=
  let lockScreenStatus := GetInt FIELD_LOCKSCREEN_STATUS values in
  mkPermissionRecord (u32 (GetInt FIELD_TOKEN_ID values)) (GetInt FIELD_OP_CODE values) (GetInt FIELD_STATUS values)
    (GetInt64 FIELD_TIMESTAMP values) (GetInt64 FIELD_ACCESS_DURATION values) (GetInt FIELD_USED_TYPE values)
    (GetInt FIELD_ACCESS_COUNT values) (GetInt FIELD_REJECT_COUNT values)
    (if lockScreenStatus =? DEFAULT_VALUE then PERM_ACTIVE_IN_UNLOCKED else lockScreenStatus) (GetString FIELD_ENHANCED_IDENTITY values).
Definition Remote_TranslationIntoGenericValues (record : RemotePermissionRecord) : GenericValues :=
  Put FIELD_SUB_PROFILE_ID (TYPE_INT (rr_subProfileId record)) (
  Put FIELD_REJECT_COUNT (TYPE_INT (rr_rejectCount record)) (
  Put FIELD_ACCESS_COUNT (TYPE_INT (rr_accessCount record)) (
  Put FIELD_TIMESTAMP (TYPE_INT64 (rr_timestamp record)) (
  Put FIELD_OP_CODE (TYPE_INT (rr_opCode record)) (
  Put FIELD_DEVICE_NAME (TYPE_STRING (rr_deviceName record)) (
  Put FIELD_DEVICE_ID (TYPE_STRING (rr_deviceId record)) ∅)))))).

(** ** Requests and results (database/data_translator.cpp); the clock is read twice. *)
Definition LATEST_RECORD_TIME : Z := 7 * ONE_DAY_MILLISECONDS.
Definition put_times (now now' begin end_ : Z) (v : GenericValues) : GenericValues :=
  let '(begin, end_) := if (begin =? 0) && (end_ =? 0) then (Z.max 0 (now - LATEST_RECORD_TIME), now') else (begin, end_) in
  let v := if negb (begin =? 0) then Put FIELD_TIMESTAMP_BEGIN (TYPE_INT64 begin) v else v in
  if negb (end_ =? 0) then Put FIELD_TIMESTAMP_END (TYPE_INT64 end_) v else v.
Definition Request_TranslationIntoGenericValues (now now' : Z) (request : PermissionUsedRequest) : option GenericValues :=
  let v := Put FIELD_TOKEN_ID (TYPE_INT (i32 (rq_tokenId request))) ∅ in
  let begin := rq_beginTimeMillis request in
  let end_ := rq_endTimeMillis request in
  if (begin <? 0) || (end_ <? 0) || (end_ <? begin) then None
  else
    let v := put_times now now' begin end_ v in
    let flag := rq_flag request in
    if negb (IsPermissionUsedFlagValid flag) then None
    else Some (
      if flag =? FLAG_PERMISSION_USAGE_SUMMARY_IN_SCREEN_LOCKED then Put FIELD_LOCKSCREEN_STATUS (TYPE_INT PERM_ACTIVE_IN_LOCKED) v
      else if flag =? FLAG_PERMISSION_USAGE_SUMMARY_IN_SCREEN_UNLOCKED then Put FIELD_LOCKSCREEN_STATUS (TYPE_INT PERM_ACTIVE_IN_UNLOCKED) v
      else if flag =? FLAG_PERMISSION_USAGE_SUMMARY_IN_APP_BACKGROUND then Put FIELD_STATUS (TYPE_INT PERM_ACTIVE_IN_BACKGROUND) v
      else if flag =? FLAG_PERMISSION_USAGE_SUMMARY_IN_APP_FOREGROUND then Put FIELD_STATUS (TYPE_INT PERM_ACTIVE_IN_FOREGROUND) v
      else if flag =? FLAG_PERMISSION_SECURITY_ACCESS_DETAIL then Put FIELD_USED_TYPE (TYPE_INT NORMAL_TYPE) v
      else v).

Definition TranslationGenericValuesIntoPermissionUsedRecord (flag : Z) (v : GenericValues) : option PermissionUsedRecord :=
  let accessCount := GetInt FIELD_ACCESS_COUNT v in
  let rejectCount := GetInt FIELD_REJECT_COUNT v in
  let '(known, permission) := TransferOpcodeToPermission (GetInt FIELD_OP_CODE v) "" in
  if negb known then None
  else
    let timestamp := GetInt64 FIELD_TIMESTAMP v in
    let type := GetInt FIELD_USED_TYPE v in
    let accessed := negb (accessCount =? 0) in
    let rejected := negb (rejectCount =? 0) in
    let lastAccessTime := if accessed then timestamp else 0 in
    let lastRejectTime := if rejected then timestamp else 0 in
    let summary := flag =? FLAG_PERMISSION_USAGE_SUMMARY in
    let lockScreenStatus := GetInt FIELD_LOCKSCREEN_STATUS v in
    let detail time count :=
      mkUsedRecordDetail (GetInt FIELD_STATUS v) (if lockScreenStatus =? DEFAULT_VALUE then PERM_ACTIVE_IN_UNLOCKED else lockScreenStatus)
        time (GetInt64 FIELD_ACCESS_DURATION v) count type in
    Some (mkPermissionUsedRecord permission (GetString FIELD_ENHANCED_IDENTITY v)
      (if accessed then accessCount else 0)
      (if accessed && ((type =? PICKER_TYPE) || (type =? SECURITY_COMPONENT_TYPE)) then accessCount else 0)
      (if rejected then rejectCount else 0) lastAccessTime lastRejectTime
      (if accessed then GetInt64 FIELD_ACCESS_DURATION v else 0)
      (if negb summary && (0 <? lastAccessTime) then [detail lastAccessTime accessCount] else [])
      (if negb summary && (0 <? lastRejectTime) then [detail lastRejectTime rejectCount] else [])).

(** ** The answers of other services, and of the file system for the per-user databases. *)
Record HapSummary := mkHapSummary { hs_userID : Z; hs_instIndex : Z; hs_bundleName : string }.
Class RecordServices := {
  GetPermissionFlagEx : Z -> string -> option Z;
  GetHapTokenInfo : Z -> option HapSummary;
  GetTokenIDByUserID : Z -> Z -> option (list Z);
  GetOsAccountSubProfileId : Z -> Z -> Z * Z;
  GetForegroundOsAccountLocalId : Z * Z;
  GetOsAccountForegroundSubProfileId : Z -> Z * Z;
  GetCallingPid : Z;
  IsDirExist : Z -> bool;
  IsDbFileExist : Z -> bool;
}.

(** ** Toggle keys. *)
Section Toggles.
Context {BC : BuildConfig} {OA : OsAccount}.
Abbreviation ToggleMap := (gmap string bool).

Definition BuildBundleMapKey (tokenId : Z) (enhancedIdentity : string) : string := to_string tokenId +:+ "_" +:+ enhancedIdentity.
Definition BuildToggleStatusKey (userID subProfileId : Z) : string :=
  if ACCESS_TOKEN_SUPPORT_SUBPROFILE then
    if subProfileId <? 0 then to_string userID else to_string userID +:+ "_" +:+ to_string subProfileId
  else to_string userID.
Definition NormalizeToggleSubProfileId (subProfileId : Z) : Z :=
  if ACCESS_TOKEN_SUPPORT_SUBPROFILE && (0 <=? subProfileId) then subProfileId else LEGACY_SUBPROFILE_ID.
Definition ValidateSubProfileIdForToggle (userID subProfileId : Z) : Z :=
  if negb ACCESS_TOKEN_SUPPORT_SUBPROFILE then RET_SUCCESS
  else if subProfileId =? LEGACY_SUBPROFILE_ID then RET_SUCCESS
  else
    let '(ret, localUserId) := GetOsAccountLocalIdForSubProfile subProfileId in
    if ret =? ERR_OS_ACCOUNT_SUBPROFILE_NOT_FOUND then ERR_PERMISSION_USED_RECORD_SUBPROFILE_NOT_EXIST
    else if negb (ret =? ERR_OK) then PrivacyTypes.ERR_SERVICE_ABNORMAL
    else if localUserId =? userID then RET_SUCCESS else ERR_PERMISSION_USED_RECORD_SUBPROFILE_NOT_EXIST.
Definition HasLegacyToggleStatus (m : ToggleMap) (userID : Z) : bool :=
  bool_decide (is_Some (m !! BuildToggleStatusKey userID LEGACY_SUBPROFILE_ID)).
Definition IsSubProfileToggleKey (key : string) (userID : Z) : bool :=
  let legacyKey := BuildToggleStatusKey userID LEGACY_SUBPROFILE_ID in
  let prefix := to_string userID +:+ "_" in
  negb (String.eqb key legacyKey) && String.prefix prefix key.
Definition HasSubProfileToggleStatus (m : ToggleMap) (userID : Z) : bool :=
  existsb (fun item : string * bool => IsSubProfileToggleKey item.1 userID) (map_to_list m).
Definition HasToggleStorageModeConflict (m : ToggleMap) (userID subProfileId : Z) : bool :=
  if subProfileId =? LEGACY_SUBPROFILE_ID then HasSubProfileToggleStatus m userID else HasLegacyToggleStatus m userID.
Definition GetCachedToggleStatus (m : ToggleMap) (userID subProfileId : Z) : bool :=
  match m !! BuildToggleStatusKey userID subProfileId with
  | Some status => status
  | None =>
      if ACCESS_TOKEN_SUPPORT_SUBPROFILE && (0 <=? subProfileId) then
        if HasSubProfileToggleStatus m userID then true
        else default true (m !! BuildToggleStatusKey userID LEGACY_SUBPROFILE_ID)
      else true
  end.
Definition IsUserIdValid (userID : Z) : bool := (0 <=? userID) && (userID <=? MAX_USER_ID).
End Toggles.

Definition IsPermAddCallbackSupported (permissionName : string) : bool := bool_decide (permissionName ∈ g_supportAddCallbackPermList).

(** ** Merging (the cache holds what may still be merged). *)
Definition zero_differs (a b : Z) : bool := ((0 <? a) && (b =? 0)) || ((a =? 0) && (0 <? b)).
Definition RecordMergeCheck (record1 record2 : PermissionRecord) : bool :=
  if negb (IsTimeStampsSameMinute (pr_timestamp record1) (pr_timestamp record2)) then false
  else if negb (pr_tokenId record1 =? pr_tokenId record2) || negb (pr_opCode record1 =? pr_opCode record2) ||
          negb (pr_status record1 =? pr_status record2) || negb (pr_lockScreenStatus record1 =? pr_lockScreenStatus record2) ||
          negb (pr_type record1 =? pr_type record2) || negb (String.eqb (pr_enhancedIdentity record1) (pr_enhancedIdentity record2)) then false
  else if zero_differs (pr_accessCount record1) (pr_accessCount record2) then false
  else if zero_differs (pr_rejectCount record1) (pr_rejectCount record2) then false
  else true.

Fixpoint merge_loop (record : PermissionRecord) (l : list PermissionRecordCache) : option (list PermissionRecordCache) :=
  match l with
  | [] => None
  | it :: rest =>
      if RecordMergeCheck (ch_record it) record then
        let merged := set_counts (i32 (pr_accessCount (ch_record it) + pr_accessCount record))
                        (i32 (pr_rejectCount (ch_record it) + pr_rejectCount record)) (ch_record it) in
        Some (mkPermissionRecordCache merged true :: rest)
      else match merge_loop record rest with None => None | Some rest => Some (it :: rest) end
  end.

Section RemoteMerge.
Context {BC : BuildConfig}.
Definition remote_key (r : RemotePermissionRecord) : string := BuildToggleStatusKey (rr_userId r) (rr_subProfileId r).
Definition RemoteRecordMergeCheck (record1 record2 : RemotePermissionRecord) : bool :=
  if negb (IsTimeStampsSameMinute (rr_timestamp record1) (rr_timestamp record2)) then false
  else if negb (String.eqb (rr_deviceId record1) (rr_deviceId record2)) || negb (String.eqb (rr_deviceName record1) (rr_deviceName record2)) ||
          negb (rr_opCode record1 =? rr_opCode record2) then false
  else if negb (String.eqb (remote_key record1) (remote_key record2)) then false
  else if zero_differs (rr_accessCount record1) (rr_accessCount record2) then false
  else if zero_differs (rr_rejectCount record1) (rr_rejectCount record2) then false
  else true.
Fixpoint remote_merge_loop (record : RemotePermissionRecord) (l : list RemotePermissionRecordCache) : option (list RemotePermissionRecordCache) :=
  match l with
  | [] => None
  | it :: rest =>
      if RemoteRecordMergeCheck (rch_record it) record then
        let merged := set_remote_counts (i32 (rr_accessCount (rch_record it) + rr_accessCount record))
                        (i32 (rr_rejectCount (rch_record it) + rr_rejectCount record)) (rch_record it) in
        Some (mkRemotePermissionRecordCache merged true :: rest)
      else match remote_merge_loop record rest with None => None | Some rest => Some (it :: rest) end
  end.
End RemoteMerge.

(** ** The state: the database, the cache, the toggles, and the same for remote records. *)
Record Records (St : Type) := mkRecords {
  usedDb : St;
  permUsedRecList : list PermissionRecordCache;
  permUsedRecToggleStatusMap : gmap string bool;
  remoteDbs : Z -> St;
  remotePermUsedRecList : list RemotePermissionRecordCache;
}.
Arguments mkRecords {St} _ _ _ _ _.
Arguments usedDb {St} _.
Arguments permUsedRecList {St} _.
Arguments permUsedRecToggleStatusMap {St} _.
Arguments remoteDbs {St} _ _.
Arguments remotePermUsedRecList {St} _.

Section Records.
Context {BC : BuildConfig} {PC : PrivacyConfig} {SV : Services} {OA : OsAccount} {RS : RecordServices} {St : Type} `{!SqlStore St}.
Implicit Types (R : Records St) (u : Using).

Definition set_db (s : St) R : Records St :=
  mkRecords s (permUsedRecList R) (permUsedRecToggleStatusMap R) (remoteDbs R) (remotePermUsedRecList R).
Definition set_cache (l : list PermissionRecordCache) R : Records St :=
  mkRecords (usedDb R) l (permUsedRecToggleStatusMap R) (remoteDbs R) (remotePermUsedRecList R).
Definition set_toggles (m : gmap string bool) R : Records St :=
  mkRecords (usedDb R) (permUsedRecList R) m (remoteDbs R) (remotePermUsedRecList R).
Definition set_remote_db (userId : Z) (s : St) R : Records St :=
  mkRecords (usedDb R) (permUsedRecList R) (permUsedRecToggleStatusMap R) (fun x => if x =? userId then s else remoteDbs R x) (remotePermUsedRecList R).
Definition set_remote_cache (l : list RemotePermissionRecordCache) R : Records St :=
  mkRecords (usedDb R) (permUsedRecList R) (permUsedRecToggleStatusMap R) (remoteDbs R) l.

(** An operation of the database of this device, by the type of its table. *)
Definition on_db {A} (f : St -> A * St) R : A * Records St := let '(x, s) := f (usedDb R) in (x, set_db s R).

(** ** Adding records. *)
Definition MergeOrInsertRecord (record : PermissionRecord) R : Z * Records St :=
  match merge_loop record (permUsedRecList R) with
  | Some l => (SUCCESS, set_cache l R)
  | None =>
      let R := set_cache (permUsedRecList R ++ [mkPermissionRecordCache record false]) R in
      let '(res, R) := on_db (Add (dataTypeToSqlTable_ PERMISSION_RECORD) [TranslationIntoGenericValues record]) R in
      if negb (res =? SUCCESS) then (res, R) else (SUCCESS, R)
  end.

Definition update_values (record : PermissionRecord) : GenericValues :=
  Put FIELD_REJECT_COUNT (TYPE_INT (pr_rejectCount record)) (Put FIELD_ACCESS_COUNT (TYPE_INT (pr_accessCount record)) ∅).
Definition update_condition (record : PermissionRecord) : GenericValues :=
  Put FIELD_ENHANCED_IDENTITY (TYPE_STRING (pr_enhancedIdentity record)) (
  Put FIELD_USED_TYPE (TYPE_INT (pr_type record)) (
  Put FIELD_TIMESTAMP (TYPE_INT64 (pr_timestamp record)) (
  Put FIELD_STATUS (TYPE_INT (pr_status record)) (
  Put FIELD_OP_CODE (TYPE_INT (pr_opCode record)) (
  Put FIELD_TOKEN_ID (TYPE_INT (i32 (pr_tokenId record))) ∅))))).
Definition UpdatePermissionUsedRecordToDb (record : PermissionRecord) (s : St) : Z * St :=
  Update (dataTypeToSqlTable_ PERMISSION_RECORD) (update_values record) (update_condition record) s.

(** The loop of [AddRecord] that writes back and drops what can no longer be merged. *)
Fixpoint evict_loop (updateStamp opCode : Z) (l : list PermissionRecordCache) (s : St) : list PermissionRecordCache * St :=
  match l with
  | [] => ([], s)
  | it :: rest =>
      if (updateStamp <? pr_timestamp (ch_record it)) || negb (pr_opCode (ch_record it) =? opCode) then
        let '(rest, s) := evict_loop updateStamp opCode rest s in (it :: rest, s)
      else
        let s := if ch_needUpdateToDb it then (UpdatePermissionUsedRecordToDb (ch_record it) s).2 else s in
        evict_loop updateStamp opCode rest s
  end.
Definition AddRecord (record : PermissionRecord) R : Z * Records St :=
  let '(res, R) := MergeOrInsertRecord record R in
  if negb (res =? SUCCESS) then (res, R)
  else
    let updateStamp := pr_timestamp record - ONE_MINUTE_MILLISECONDS in
    let '(l, s) := evict_loop updateStamp (pr_opCode record) (permUsedRecList R) (usedDb R) in
    (SUCCESS, set_db s (set_cache l R)).

Definition GetLockScreenStatus u : Z := lockScreenStatus u.
Definition GetPermissionRecord (now : Z) (info : AddPermParamInfo) u : Z + PermissionRecord :=
  if negb (GetTokenTypeFlag (ai_tokenId info) =? TOKEN_HAP) then inl PrivacyTypes.ERR_PARAM_INVALID
  else
    match TransferPermissionToOpcode (ai_permissionName info) with
    | None => inl PrivacyTypes.ERR_PERMISSION_NOT_EXIST
    | Some opCode =>
        let status := if IsEdmMuteOrDisable (ai_permissionName info) u then PERM_INACTIVE else GetAppStatus (ai_tokenId info) (-1) in
        inr (mkPermissionRecord (ai_tokenId info) opCode status now 0 (ai_type info) (ai_successCount info) (ai_failCount info)
               (GetLockScreenStatus u) (ai_enhancedIdentity info))
    end.

Definition TransformEnumToBitValue (type : Z) : Z :=
  if type =? NORMAL_TYPE then NORMAL_TYPE_ADD_VALUE
  else if type =? PICKER_TYPE then PICKER_TYPE_ADD_VALUE
  else if type =? SECURITY_COMPONENT_TYPE then SEC_COMPONENT_TYPE_ADD_VALUE
  else 0.
Definition used_type_condition (tokenId opCode : Z) : GenericValues :=
  Put FIELD_PERMISSION_CODE (TYPE_INT opCode) (Put FIELD_TOKEN_ID (TYPE_INT (i32 tokenId)) ∅).
Definition AddOrUpdateUsedTypeIfNeeded (tokenId opCode type : Z) (s : St) : Z * St :=
  let inputType := TransformEnumToBitValue type in
  let table := dataTypeToSqlTable_ PERMISSION_USED_TYPE in
  let '(res, results, s) := Query table (used_type_condition tokenId opCode) s in
  if negb (res =? SUCCESS) then (res, s)
  else
    match results with
    | [] => Add table [Put FIELD_USED_TYPE (TYPE_INT (i32 inputType)) (used_type_condition tokenId opCode)] s
    | result :: _ =>
        let dbType := u32 (GetInt FIELD_USED_TYPE result) in
        if dbType .& inputType =? inputType then (SUCCESS, s)
        else
          let condition := Database.Remove FIELD_USED_TYPE result in
          let newValue := Put FIELD_USED_TYPE (TYPE_INT (i32 (dbType .| inputType))) ∅ in
          Update table newValue condition s
    end.

Definition CheckPermissionUsedRecordToggleStatus (userID subProfileId : Z) R : bool :=
  GetCachedToggleStatus (permUsedRecToggleStatusMap R) userID subProfileId.
Definition ResolveAddRecordSubProfileId (tokenInfo : HapSummary) R : Z + Z :=
  if negb ACCESS_TOKEN_SUPPORT_SUBPROFILE then inr LEGACY_SUBPROFILE_ID
  else if negb (HasSubProfileToggleStatus (permUsedRecToggleStatusMap R) (hs_userID tokenInfo)) then inr LEGACY_SUBPROFILE_ID
  else
    let '(ret, subProfileId) := GetOsAccountSubProfileId (hs_userID tokenInfo) (hs_instIndex tokenInfo) in
    if negb (ret =? ERR_OK) then
      inl (if ret =? ERR_OS_ACCOUNT_SUBPROFILE_NOT_FOUND then PrivacyTypes.ERR_PARAM_INVALID else PrivacyTypes.ERR_SERVICE_ABNORMAL)
    else inr subProfileId.

Definition ExecutePermAddCallbackAsync (info : AddPermParamInfo) (callingTokenID callingPid : Z) : UseEvent :=
  EvActive (mkActiveChangeResponse callingTokenID (ai_tokenId info) (ai_permissionName info) PERM_ADD (ai_type info) callingPid
              false "" "" (ai_extra info) (ai_enhancedIdentity info) "") TOKEN_ONLY.

(** Returns the code and what is told to listeners. *)
Definition AddPermissionUsedRecordInner (now : Z) (info : AddPermParamInfo) (callingTokenID callingPid : Z) u R
    : Z * list UseEvent * Records St :=
  match GetHapTokenInfo (ai_tokenId info) with
  | None => (PrivacyTypes.ERR_TOKENID_NOT_EXIST, [], R)
  | Some tokenInfo =>
      match ResolveAddRecordSubProfileId tokenInfo R with
      | inl ret => (ret, [], R)
      | inr subProfileId =>
          if negb (CheckPermissionUsedRecordToggleStatus (hs_userID tokenInfo) subProfileId R) then (ERR_PRIVACY_TOGGELE_RESTRICTED, [], R)
          else if (ai_successCount info =? 0) && (ai_failCount info =? 0) then (PrivacyTypes.ERR_PARAM_INVALID, [], R)
          else
            match GetPermissionRecord now info u with
            | inl result => (result, [], R)
            | inr record =>
                if negb (GetGlobalSwitchStatus (ai_permissionName info) u) then (SUCCESS, [], R)
                else
                  let '(result, R) := AddRecord record R in
                  if negb (result =? SUCCESS) then (result, [], R)
                  else
                    let '(result, R) := on_db (AddOrUpdateUsedTypeIfNeeded (ai_tokenId info) (pr_opCode record) (ai_type info)) R in
                    if negb (result =? SUCCESS) then (result, [], R)
                    else
                      (SUCCESS,
                       if negb (str_empty (ai_extra info)) && IsPermAddCallbackSupported (ai_permissionName info)
                       then [ExecutePermAddCallbackAsync info callingTokenID callingPid] else [], R)
            end
      end
  end.

(** The call, and the record that a detached thread adds afterwards, if any. *)
Definition AddPermissionUsedRecord (now : Z) (info : AddPermParamInfo) u R : Z * option AddPermParamInfo * list UseEvent * Records St :=
  if (MAX_PERMISSION_USED_RECORD_EXTRA_LENGTH <? strlen (ai_extra info)) || negb (IsEnhancedIdentityValid (ai_enhancedIdentity info)) ||
     (ai_successCount info <? 0) || (ai_failCount info <? 0) then (PrivacyTypes.ERR_PARAM_INVALID, None, [], R)
  else
    match NormalizeRecordTokenId (ai_tokenId info) with
    | inl ret => (ret, None, [], R)
    | inr tokenId =>
        let info := with_ai_tokenId tokenId info in
        let inner :=
          let '(ret, evs, R) := AddPermissionUsedRecordInner now info GetCallingTokenID GetCallingPid u R in (ret, None, evs, R) in
        if GetTokenTypeFlag tokenId =? TOKEN_NATIVE
        then (if VerifyNativeRecordPermission (ai_permissionName info) tokenId then SUCCESS else PrivacyTypes.ERR_PARAM_INVALID, None, [], R)
        else
          match GetPermissionFlagEx tokenId (ai_permissionName info) with
          | None => inner
          | Some flag =>
              if negb (flag .& PERMISSION_FIXED_BY_ADMIN_POLICY =? 0) then (SUCCESS, None, [], R)
              else if (flag =? PERMISSION_SYSTEM_FIXED) && String.eqb (ai_permissionName info) CAMERA_PERMISSION_NAME
              then (SUCCESS, Some info, [], R)
              else inner
          end
    end.

(** ** Remote records. *)
Definition GetDatabase (userId : Z) (needCreate : bool) : bool := IsDirExist userId && (needCreate || IsDbFileExist userId).
Definition on_remote_db {A} (userId : Z) (f : St -> A * St) R : A * Records St :=
  let '(x, s) := f (remoteDbs R userId) in (x, set_remote_db userId s R).
Definition Remote_Add (userId : Z) (values : list GenericValues) R : Z * Records St :=
  if GetDatabase userId true then on_remote_db userId (RemoteDb_Add values) R else (ERR_FILE_OPERATE_FAILED, R).
Definition Remote_Remove (userId : Z) (conditions : GenericValues) R : Z * Records St :=
  if GetDatabase userId false then on_remote_db userId (RemoteDb_Remove conditions) R else (SUCCESS, R).
Definition Remote_Update (userId : Z) (modifyValue conditionValue : GenericValues) R : Z * Records St :=
  if GetDatabase userId true then on_remote_db userId (RemoteDb_Update modifyValue conditionValue) R else (ERR_FILE_OPERATE_FAILED, R).
Definition Remote_Count (userId : Z) R : Z * Records St :=
  if GetDatabase userId false then on_remote_db userId RemoteDb_Count R else (0, R).
Definition Remote_DeleteExpireRecords (userId : Z) (andConditions : GenericValues) R : Z * Records St :=
  if GetDatabase userId false then on_remote_db userId (RemoteDb_DeleteExpireRecords andConditions) R else (SUCCESS, R).
Definition Remote_DeleteExcessiveRecords (userId excessiveSize : Z) R : Z * Records St :=
  if GetDatabase userId false then on_remote_db userId (RemoteDb_DeleteExcessiveRecords excessiveSize) R else (SUCCESS, R).

Definition UpdateRemotePermissionUsedRecordToDb (record : RemotePermissionRecord) R : Z * Records St :=
  let modifyValue := Put FIELD_REJECT_COUNT (TYPE_INT (rr_rejectCount record)) (Put FIELD_ACCESS_COUNT (TYPE_INT (rr_accessCount record)) ∅) in
  let conditionValue :=
    Put FIELD_TIMESTAMP (TYPE_INT64 (rr_timestamp record)) (
    Put FIELD_OP_CODE (TYPE_INT (rr_opCode record)) (
    Put FIELD_DEVICE_NAME (TYPE_STRING (rr_deviceName record)) (
    Put FIELD_DEVICE_ID (TYPE_STRING (rr_deviceId record)) ∅))) in
  Remote_Update (rr_userId record) modifyValue conditionValue R.

Definition MergeOrInsertRemoteRecord (record : RemotePermissionRecord) R : Z * Records St :=
  match remote_merge_loop record (remotePermUsedRecList R) with
  | Some l => (SUCCESS, set_remote_cache l R)
  | None =>
      let '(res, R') := Remote_Add (rr_userId record) [Remote_TranslationIntoGenericValues record] R in
      if negb (res =? SUCCESS) then (res, R')
      else (SUCCESS, set_remote_cache (remotePermUsedRecList R' ++ [mkRemotePermissionRecordCache record false]) R')
  end.

Fixpoint remote_evict_loop (updateStamp opCode : Z) (key : string) (l : list RemotePermissionRecordCache) R
    : list RemotePermissionRecordCache * Records St :=
  match l with
  | [] => ([], R)
  | it :: rest =>
      let r := rch_record it in
      if (updateStamp <? rr_timestamp r) || negb (rr_opCode r =? opCode) || negb (String.eqb (remote_key r) key) then
        let '(rest, R) := remote_evict_loop updateStamp opCode key rest R in (it :: rest, R)
      else
        let R := if rch_needUpdateToDb it then (UpdateRemotePermissionUsedRecordToDb r R).2 else R in
        remote_evict_loop updateStamp opCode key rest R
  end.
Definition AddRemoteRecord (record : RemotePermissionRecord) R : Z * Records St :=
  let '(res, R) := MergeOrInsertRemoteRecord record R in
  if negb (res =? SUCCESS) then (res, R)
  else
    let updateStamp := rr_timestamp record - ONE_MINUTE_MILLISECONDS in
    let '(l, R) := remote_evict_loop updateStamp (rr_opCode record) (remote_key record) (remotePermUsedRecList R) R in
    (SUCCESS, set_remote_cache l R).

Definition GetRemotePermissionRecord (now : Z) (info : RemoteAddPermParamInfo) (userId subProfileId : Z) : Z + RemotePermissionRecord :=
  match TransferPermissionToOpcode (ra_permissionName info) with
  | None => inl PrivacyTypes.ERR_PERMISSION_NOT_EXIST
  | Some opCode => inr (mkRemotePermissionRecord (ra_deviceId info) (ra_deviceName info) opCode now (ra_successCount info) (ra_failCount info)
                          userId subProfileId)
  end.
Definition AddRemotePermissionUsedRecord (now : Z) (info : RemoteAddPermParamInfo) u R : Z * Records St :=
  if negb (IsDeviceIdValid (ra_deviceId info)) || negb (IsDeviceNameValid (ra_deviceName info)) ||
     negb (IsPermissionNameValid (ra_permissionName info)) || ((ra_successCount info =? 0) && (ra_failCount info =? 0))
  then (PrivacyTypes.ERR_PARAM_INVALID, R)
  else if (ra_successCount info <? 0) || (ra_failCount info <? 0) then (PrivacyTypes.ERR_PARAM_INVALID, R)
  else
    let '(res, userId) := GetForegroundOsAccountLocalId in
    if negb (res =? ERR_OK) then (PrivacyTypes.ERR_SERVICE_ABNORMAL, R)
    else
      let '(res, subProfileId) :=
        if ACCESS_TOKEN_SUPPORT_SUBPROFILE then GetOsAccountForegroundSubProfileId userId else (ERR_OK, LEGACY_SUBPROFILE_ID) in
      if negb (res =? ERR_OK) then (PrivacyTypes.ERR_SERVICE_ABNORMAL, R)
      else if negb (CheckPermissionUsedRecordToggleStatus userId subProfileId R) then (ERR_PRIVACY_TOGGELE_RESTRICTED, R)
      else
        match GetRemotePermissionRecord now info userId subProfileId with
        | inl result => (result, R)
        | inr record => if negb (GetGlobalSwitchStatus (ra_permissionName info) u) then (SUCCESS, R) else AddRemoteRecord record R
        end.

(** Writing every merged record back, as before a shutdown. *)
Definition UpdatePermRecImmediately R : Records St :=
  let s := fold_left (fun s it => if ch_needUpdateToDb it then (UpdatePermissionUsedRecordToDb (ch_record it) s).2 else s)
             (permUsedRecList R) (usedDb R) in
  let R := set_db s R in
  if REMOTE_PRIVACY_ENABLE
  then fold_left (fun R it => if rch_needUpdateToDb it then (UpdateRemotePermissionUsedRecordToDb (rch_record it) R).2 else R)
         (remotePermUsedRecList R) R
  else R.

(** ** Toggles. *)
Definition UpdatePermUsedRecToggleStatusMap (userID subProfileId : Z) (status : bool) R : bool * Records St :=
  let key := BuildToggleStatusKey userID subProfileId in
  match permUsedRecToggleStatusMap R !! key with
  | None => (true, set_toggles (<[key := status]> (permUsedRecToggleStatusMap R)) R)
  | Some old => if negb (eqb old status) then (true, set_toggles (<[key := status]> (permUsedRecToggleStatusMap R)) R) else (false, R)
  end.
Definition used_toggle_condition (userID subProfileId : Z) : GenericValues :=
  Put FIELD_SUB_PROFILE_ID (TYPE_INT subProfileId) (Put FIELD_USER_ID (TYPE_INT userID) ∅).
Definition DeletePermUsedRecToggleStatus (userID subProfileId : Z) R : Z * Records St :=
  let '(ret, R) := on_db (Remove (dataTypeToSqlTable_ PERMISSION_USED_RECORD_TOGGLE_STATUS) (used_toggle_condition userID subProfileId)) R in
  if negb (ret =? SUCCESS) then (ret, R)
  else (ret, set_toggles (delete (BuildToggleStatusKey userID subProfileId) (permUsedRecToggleStatusMap R)) R).
Definition z_of_status (status : bool) : Z := if status then 1 else 0.
Definition AddOrUpdateUsedStatusIfNeeded (userID subProfileId : Z) (status : bool) (s : St) : Z * St :=
  let table := dataTypeToSqlTable_ PERMISSION_USED_RECORD_TOGGLE_STATUS in
  let conditionValue := used_toggle_condition userID subProfileId in
  let '(res, results, s) := Query table conditionValue s in
  if negb (res =? SUCCESS) then (res, s)
  else
    match results with
    | [] => Add table [Put FIELD_STATUS (TYPE_INT (z_of_status status)) conditionValue] s
    | _ => Update table (Put FIELD_STATUS (TYPE_INT (z_of_status status)) ∅) conditionValue s
    end.

(** ** Removal. *)
Definition RemoveHistoryPermissionUsedRecords (tokenIDList : list Z) R : Records St :=
  let '(_, R) := on_db (DeleteHistoryRecordsInTables [dataTypeToSqlTable_ PERMISSION_RECORD; dataTypeToSqlTable_ PERMISSION_USED_TYPE] tokenIDList) R in
  set_cache (filter (fun it => pr_tokenId (ch_record it) ∉ tokenIDList) (permUsedRecList R)) R.

Definition SetPermissionUsedRecordToggleStatus (userID : Z) (status : bool) (subProfileId : Z) R : Z * Records St :=
  if negb (IsUserIdValid userID) then (PrivacyTypes.ERR_PARAM_INVALID, R)
  else
    let subProfileId := NormalizeToggleSubProfileId subProfileId in
    let ret := ValidateSubProfileIdForToggle userID subProfileId in
    if negb (ret =? RET_SUCCESS) then (ret, R)
    else if ACCESS_TOKEN_SUPPORT_SUBPROFILE && HasToggleStorageModeConflict (permUsedRecToggleStatusMap R) userID subProfileId
    then (ERR_PERMISSION_USED_RECORD_STORAGE_MODE_CONFLICT, R)
    else if status then DeletePermUsedRecToggleStatus userID subProfileId R
    else
      match GetTokenIDByUserID userID subProfileId with
      | None => (PrivacyTypes.ERR_SERVICE_ABNORMAL, R)
      | Some tokenIDList =>
          let R := match tokenIDList with [] => R | _ => RemoveHistoryPermissionUsedRecords tokenIDList R end in
          let R :=
            if REMOTE_PRIVACY_ENABLE then
              let toggleKey := BuildToggleStatusKey userID subProfileId in
              let R := set_remote_cache (filter (fun it => remote_key (rch_record it) <> toggleKey) (remotePermUsedRecList R)) R in
              (Remote_Remove userID (Put FIELD_SUB_PROFILE_ID (TYPE_INT subProfileId) ∅) R).2
            else R in
          let '(changed, R) := UpdatePermUsedRecToggleStatusMap userID subProfileId status R in
          if negb changed then (SUCCESS, R)
          else on_db (AddOrUpdateUsedStatusIfNeeded userID subProfileId status) R
      end.

Definition GetPermissionUsedRecordToggleStatus (userID subProfileId : Z) R : Z + bool :=
  if negb (IsUserIdValid userID) then inl PrivacyTypes.ERR_PARAM_INVALID
  else
    let subProfileId := NormalizeToggleSubProfileId subProfileId in
    let ret := ValidateSubProfileIdForToggle userID subProfileId in
    if negb (ret =? RET_SUCCESS) then inl ret
    else if ACCESS_TOKEN_SUPPORT_SUBPROFILE && (subProfileId =? LEGACY_SUBPROFILE_ID) &&
            HasToggleStorageModeConflict (permUsedRecToggleStatusMap R) userID subProfileId
    then inl ERR_PERMISSION_USED_RECORD_LEGACY_QUERY_CONFLICT
    else inr (GetCachedToggleStatus (permUsedRecToggleStatusMap R) userID subProfileId).

Definition UpdatePermUsedRecToggleStatusMapFromDb R : Records St :=
  let '(res, results, s) := Query (dataTypeToSqlTable_ PERMISSION_USED_RECORD_TOGGLE_STATUS) ∅ (usedDb R) in
  let R := set_db s R in
  if negb (res =? SUCCESS) then R
  else
    fold_left (fun R it =>
      let status := negb (GetInt FIELD_STATUS it =? 0) in
      if negb status then (UpdatePermUsedRecToggleStatusMap (GetInt FIELD_USER_ID it) (GetInt FIELD_SUB_PROFILE_ID it) status R).2 else R)
      results R.

Definition RemovePermissionUsedRecords (tokenId : Z) (enhancedIdentity : string) R u : Z * Records St * Using :=
  if negb (IsEnhancedIdentityValid enhancedIdentity) then (PrivacyTypes.ERR_PARAM_INVALID, R, u)
  else
    let gone (r : PermissionRecord) := (pr_tokenId r =? tokenId) && (str_empty enhancedIdentity || String.eqb (pr_enhancedIdentity r) enhancedIdentity) in
    let R := set_cache (filter (fun it => gone (ch_record it) = false) (permUsedRecList R)) R in
    let conditions := Put FIELD_TOKEN_ID (TYPE_INT (i32 tokenId)) ∅ in
    let conditions := if negb (str_empty enhancedIdentity) then Put FIELD_ENHANCED_IDENTITY (TYPE_STRING enhancedIdentity) conditions else conditions in
    let '(_, R) := on_db (Remove (dataTypeToSqlTable_ PERMISSION_RECORD) conditions) R in
    let '(_, R) := on_db (Remove (dataTypeToSqlTable_ PERMISSION_USED_TYPE) conditions) R in
    (SUCCESS, R, RemoveRecordFromStartListByTokenAndIdentity tokenId enhancedIdentity u).

(** ** Aging. *)
Definition DeletePermissionRecord (now recordSizeMaximum days : Z) R : Z * Records St :=
  let interval := days * ONE_DAY_MILLISECONDS in
  let table := dataTypeToSqlTable_ PERMISSION_RECORD in
  let '(total, R) := on_db (Count table) R in
  let '(res, R) :=
    if recordSizeMaximum <? total then on_db (DeleteExcessiveRecords table (u32 (total - recordSizeMaximum))) R else (SUCCESS, R) in
  if negb (res =? SUCCESS) then (FAILURE, R)
  else
    let '(res, R) := on_db (DeleteExpireRecords table (Put FIELD_TIMESTAMP_END (TYPE_INT64 (now - interval)) ∅)) R in
    (if negb (res =? SUCCESS) then FAILURE else SUCCESS, R).
Definition DeleteRemotePermissionRecord (now recordSizeMaximum days : Z) R : Z * Records St :=
  let '(res, userId) := GetForegroundOsAccountLocalId in
  if negb (res =? ERR_OK) then (PrivacyTypes.ERR_SERVICE_ABNORMAL, R)
  else
    let interval := days * ONE_DAY_MILLISECONDS in
    let '(total, R) := Remote_Count userId R in
    let '(res, R) :=
      if recordSizeMaximum <? total then Remote_DeleteExcessiveRecords userId (u32 (total - recordSizeMaximum)) R else (SUCCESS, R) in
    if negb (res =? SUCCESS) then (FAILURE, R)
    else
      let '(res, R) := Remote_DeleteExpireRecords userId (Put FIELD_TIMESTAMP_END (TYPE_INT64 (now - interval)) ∅) R in
      (if negb (res =? SUCCESS) then FAILURE else SUCCESS, R).

(** ** The query. *)
Definition TransferToOpcode (permissionList : list string) : list Z :=
  elements (list_to_set (map (fun p => default OP_INVALID (TransferPermissionToOpcode p)) permissionList) : gset Z).
Definition GetMergedRecordsFromCache R : list PermissionRecord := map ch_record (filter (fun it => ch_needUpdateToDb it = true) (permUsedRecList R)).

(** Does the queried row stand for this cached record? *)
Definition is_row_of (queryValue : GenericValues) (record : PermissionRecord) : bool :=
  (u32 (GetInt FIELD_TOKEN_ID queryValue) =? pr_tokenId record) && (GetInt FIELD_OP_CODE queryValue =? pr_opCode record) &&
  (GetInt FIELD_STATUS queryValue =? pr_status record) && (GetInt64 FIELD_TIMESTAMP queryValue =? pr_timestamp record) &&
  (GetInt FIELD_USED_TYPE queryValue =? pr_type record) &&
  String.eqb (GetString FIELD_ENHANCED_IDENTITY queryValue) (pr_enhancedIdentity record).
Definition put_counts (access reject : Z) (v : GenericValues) : GenericValues :=
  Put FIELD_REJECT_COUNT (TYPE_INT reject) (Database.Remove FIELD_REJECT_COUNT (
  Put FIELD_ACCESS_COUNT (TYPE_INT access) (Database.Remove FIELD_ACCESS_COUNT v))).
Definition InsteadMergedRecIfNecessary (mergedRecords : list PermissionRecord) (queryValue : GenericValues) : GenericValues :=
  match find_if (is_row_of queryValue) mergedRecords with
  | None => queryValue
  | Some record => put_counts (pr_accessCount record) (pr_rejectCount record) queryValue
  end.

Definition MergeSamePermission (flag : Z) (inRecord outRecord : PermissionUsedRecord) : PermissionUsedRecord :=
  let lastAccessTime :=
    if pur_lastAccessTime outRecord <? pur_lastAccessTime inRecord then pur_lastAccessTime inRecord else pur_lastAccessTime outRecord in
  let lastAccessDuration :=
    if lastAccessTime <? pur_lastAccessTime inRecord then pur_lastAccessDuration inRecord else pur_lastAccessDuration outRecord in
  let lastRejectTime :=
    if pur_lastRejectTime outRecord <? pur_lastRejectTime inRecord then pur_lastRejectTime inRecord else pur_lastRejectTime outRecord in
  let summary := flag =? FLAG_PERMISSION_USAGE_SUMMARY in
  mkPermissionUsedRecord (pur_permissionName outRecord) (pur_enhancedIdentity outRecord)
    (i32 (pur_accessCount outRecord + pur_accessCount inRecord)) (i32 (pur_secAccessCount outRecord + pur_secAccessCount inRecord))
    (i32 (pur_rejectCount outRecord + pur_rejectCount inRecord)) lastAccessTime lastRejectTime lastAccessDuration
    (pur_accessRecords outRecord ++ if negb summary && (0 <? pur_lastAccessTime inRecord) then take 1 (pur_accessRecords inRecord) else [])
    (pur_rejectRecords outRecord ++ if negb summary && (0 <? pur_lastRejectTime inRecord) then take 1 (pur_rejectRecords inRecord) else []).
Fixpoint FillPermissionUsedRecords (record : PermissionUsedRecord) (flag : Z) (permissionRecords : list PermissionUsedRecord)
    : list PermissionUsedRecord :=
  match permissionRecords with
  | [] => [record]
  | rec :: rest =>
      if String.eqb (pur_permissionName record) (pur_permissionName rec) then MergeSamePermission flag record rec :: rest
      else rec :: FillPermissionUsedRecords record flag rest
  end.

(** [std::map] visits its keys in order. *)
Definition key_before {A} (a b : string * A) : Prop := str_ltb b.1 a.1 = false.
#[export] Instance key_before_dec {A} : RelDecision (@key_before A).
Proof. intros a b. unfold key_before. apply _. Defined.
Definition in_order {A} (m : gmap string A) : list A := (merge_sort key_before (map_to_list m)).*2.

Definition CreateBundleUsedRecord (tokenId : Z) : option BundleUsedRecord :=
  match GetHapTokenInfo tokenId with
  | None => None
  | Some tokenInfo => Some (mkBundleUsedRecord tokenId false "" "" (hs_bundleName tokenInfo) [])
  end.

(** What the loop over the rows builds up. *)
Record QueryState := mkQueryState {
  q_bundleKeySet : gset string;
  q_bundleMap : gmap string BundleUsedRecord;
  q_begin : Z;
  q_end : Z;
}.
Definition CreateBundleUsedRecordIfNeeded (tokenId : Z) (bundleKey : string) (q : QueryState) : bool * QueryState :=
  if bool_decide (bundleKey ∈ q_bundleKeySet q) then (true, q)
  else
    let q := mkQueryState ({[bundleKey]} ∪ q_bundleKeySet q) (q_bundleMap q) (q_begin q) (q_end q) in
    match CreateBundleUsedRecord tokenId with
    | None => (false, q)
    | Some bundleRecord => (true, mkQueryState (q_bundleKeySet q) (<[bundleKey := bundleRecord]> (q_bundleMap q)) (q_begin q) (q_end q))
    end.
Definition widen (timestamp begin end_ : Z) : Z * Z :=
  (if (begin =? 0) || (timestamp <? begin) then timestamp else begin, if end_ <? timestamp then timestamp else end_).
Definition FillBundleUsedRecord (value : GenericValues) (flag : Z) (q : QueryState) : QueryState :=
  match TranslationGenericValuesIntoPermissionUsedRecord flag value with
  | None => q
  | Some record =>
      let '(begin, end_) := widen (GetInt64 FIELD_TIMESTAMP value) (q_begin q) (q_end q) in
      let bundleKey := BuildBundleMapKey (u32 (GetInt FIELD_TOKEN_ID value)) (GetString FIELD_ENHANCED_IDENTITY value) in
      let bundle := default default_BundleUsedRecord (q_bundleMap q !! bundleKey) in
      mkQueryState (q_bundleKeySet q)
        (<[bundleKey := set_bur_records (FillPermissionUsedRecords record flag (bur_permissionRecords bundle)) bundle]> (q_bundleMap q)) begin end_
  end.
Definition query_row (mergedRecords : list PermissionRecord) (flag : Z) (q : QueryState) (recordValue : GenericValues) : QueryState :=
  let recordValue := InsteadMergedRecIfNecessary mergedRecords recordValue in
  let tokenId := u32 (GetInt FIELD_TOKEN_ID recordValue) in
  let bundleKey := BuildBundleMapKey tokenId (GetString FIELD_ENHANCED_IDENTITY recordValue) in
  let '(ok, q) := CreateBundleUsedRecordIfNeeded tokenId bundleKey q in
  if negb ok then q else FillBundleUsedRecord recordValue flag q.

Definition GetRecordsFromLocalDB (now now' recordSizeMaximum : Z) (request : PermissionUsedRequest) R
    : Z * PermissionUsedResult * Records St :=
  match Request_TranslationIntoGenericValues now now' request with
  | None => (PrivacyTypes.ERR_PARAM_INVALID, mkPermissionUsedResult 0 0 [], R)
  | Some andConditionValues =>
      let flag := rq_flag request in
      let dataLimitNum :=
        if (flag =? FLAG_PERMISSION_USAGE_DETAIL) || (flag =? FLAG_PERMISSION_SECURITY_ACCESS_DETAIL) then MAX_ACCESS_RECORD_SIZE
        else recordSizeMaximum in
      let '(_, findRecordsValues, s) :=
        FindByConditions (dataTypeToSqlTable_ PERMISSION_RECORD) (TransferToOpcode (rq_permissionList request)) andConditionValues dataLimitNum
          (usedDb R) in
      let R := set_db s R in
      let q := fold_left (query_row (GetMergedRecordsFromCache R) flag) findRecordsValues (mkQueryState ∅ ∅ 0 0) in
      (SUCCESS, mkPermissionUsedResult (q_begin q) (q_end q) (in_order (q_bundleMap q)), R)
  end.
Definition GetPermissionUsedRecords (now now' recordSizeMaximum : Z) (request : PermissionUsedRequest) R
    : Z * PermissionUsedResult * Records St :=
  if negb (rq_isRemote request) then GetRecordsFromLocalDB now now' recordSizeMaximum request R
  else (SUCCESS, mkPermissionUsedResult 0 0 [], R).

(** ** Used types (the pid of the answers is not set). *)
Definition AddDataValueToResults (value : GenericValues) : list PermissionUsedTypeInfo :=
  let tokenId := u32 (GetInt FIELD_TOKEN_ID value) in
  let permissionName := (TransferOpcodeToPermission (GetInt FIELD_PERMISSION_CODE value) "").2 in
  let type := u32 (GetInt FIELD_USED_TYPE value) in
  let info t := mkPermissionUsedTypeInfo tokenId 0 permissionName t "" in
  (if type .& NORMAL_TYPE_ADD_VALUE =? NORMAL_TYPE_ADD_VALUE then [info NORMAL_TYPE] else []) ++
  (if type .& PICKER_TYPE_ADD_VALUE =? PICKER_TYPE_ADD_VALUE then [info PICKER_TYPE] else []) ++
  (if type .& SEC_COMPONENT_TYPE_ADD_VALUE =? SEC_COMPONENT_TYPE_ADD_VALUE then [info SECURITY_COMPONENT_TYPE] else []).
Definition GetPermissionUsedTypeInfos (tokenId : Z) (permissionName : string) (s : St) : (Z + list PermissionUsedTypeInfo) * St :=
  let ask value :=
    let '(res, valueResults, s) := Query (dataTypeToSqlTable_ PERMISSION_USED_TYPE) value s in
    if negb (res =? SUCCESS) then (inl FAILURE, s)
    else
      let results := concat (map AddDataValueToResults valueResults) in
      (if MAX_PERMISSION_USED_TYPE_SIZE <? Z.of_nat (length results) then inl PrivacyTypes.ERR_OVERSIZE else inr results, s) in
  let ask_permission value :=
    if negb (str_empty permissionName) then
      match TransferPermissionToOpcode permissionName with
      | None => (inl PrivacyTypes.ERR_PERMISSION_NOT_EXIST, s)
      | Some opCode => ask (Put FIELD_PERMISSION_CODE (TYPE_INT opCode) value)
      end
    else ask value in
  if negb (tokenId =? INVALID_TOKENID) then
    match GetHapTokenInfo tokenId with
    | None => (inl PrivacyTypes.ERR_TOKENID_NOT_EXIST, s)
    | Some _ => ask_permission (Put FIELD_TOKEN_ID (TYPE_INT (i32 tokenId)) ∅)
    end
  else ask_permission ∅.

(** ** Disable policies. *)
Definition IsCamOrMicroPerm (permissionName : string) : bool :=
  String.eqb permissionName CAMERA_PERMISSION_NAME || String.eqb permissionName MICROPHONE_PERMISSION_NAME.
Definition IsPermValidForDisablePolicy (permissionName : string) : Z + Z :=
  match TransferPermissionToOpcode permissionName with
  | None => inl PrivacyTypes.ERR_PERMISSION_NOT_EXIST
  | Some opCode => if negb (IsCamOrMicroPerm permissionName) then inl ERR_PERMISSION_NOT_SUPPORT else inr opCode
  end.
Definition policy_condition (opCode : Z) : GenericValues := Put FIELD_PERMISSION_CODE (TYPE_INT opCode) ∅.
Definition InsertOrUpdateDisablePolicy (opCode : Z) (isDisable : bool) (s : St) : Z * St :=
  let table := dataTypeToSqlTable_ PERMISSION_DISABLE_POLICY in
  let value := Put FIELD_DISABLE_POLICY (TYPE_INT (if isDisable then 1 else 0)) (policy_condition opCode) in
  let '(res, results, s) := Query table (policy_condition opCode) s in
  if negb (res =? SUCCESS) then (PrivacyTypes.ERR_DATABASE_OPERATE_FAILED, s)
  else
    let '(res, s) := match results with [] => Add table [value] s | _ => Update table value (policy_condition opCode) s end in
    (if negb (res =? SUCCESS) then PrivacyTypes.ERR_DATABASE_OPERATE_FAILED else SUCCESS, s).
(** Also tells whether the listeners of disable policies are called. *)
Definition SetDisablePolicy (permissionName : string) (isDisable : bool) (s : St) u : Z * bool * St * Using :=
  match IsPermValidForDisablePolicy permissionName with
  | inl res => (res, false, s, u)
  | inr opCode =>
      let '(res, s) := InsertOrUpdateDisablePolicy opCode isDisable s in
      if negb (res =? SUCCESS) then (res, false, s, u)
      else
        let needCallback := negb (eqb isDisable (GetCacheDisablePolicy opCode u)) in
        (SUCCESS, needCallback, s, UpdateDisablePolicyCache opCode isDisable u)
  end.
Definition GetDisablePolicy (permissionName : string) u : Z + bool :=
  match IsPermValidForDisablePolicy permissionName with inl res => inl res | inr opCode => inr (GetCacheDisablePolicy opCode u) end.
Definition InitDisablePolicyFromDb (s : St) u : St * Using :=
  let '(res, results, s) := Query (dataTypeToSqlTable_ PERMISSION_DISABLE_POLICY) ∅ s in
  if negb (res =? SUCCESS) then (s, u)
  else
    (s, fold_left (fun u it =>
          let opCode := GetInt FIELD_PERMISSION_CODE it in
          if bool_decide (is_Some (disablePolicyMap u !! opCode)) then u
          else UpdateDisablePolicyCache opCode (GetInt FIELD_DISABLE_POLICY it =? 1) u) results u).

(** ** The permissions a listener may name. *)
Fixpoint list_filter_loop (listSrc listRes : list string) : list string :=
  match listSrc with
  | [] => listRes
  | perm :: rest =>
      list_filter_loop rest (if IsPrivacyPermission perm && negb (bool_decide (perm ∈ listRes)) then listRes ++ [perm] else listRes)
  end.
Definition PermissionListFilter (listSrc : list string) : Z + list string :=
  let listRes := list_filter_loop listSrc [] in
  match listRes, listSrc with [], _ :: _ => inl PrivacyTypes.ERR_PARAM_INVALID | _, _ => inr listRes end.
Fixpoint PermListFilter (listSrc listRes : list string) : Z + list string :=
  match listSrc with
  | [] => inr listRes
  | perm :: rest =>
      if negb (IsPrivacyPermission perm) then inl PrivacyTypes.ERR_PARAM_INVALID
      else if negb (IsCamOrMicroPerm perm) then inl ERR_PERMISSION_NOT_SUPPORT
      else PermListFilter rest (if bool_decide (perm ∈ listRes) then listRes else listRes ++ [perm])
  end.
End Records.
