(* ===== verification/PrivacyDbTheory.v ===== *)
(** * What the database operations do

    On a store that is not damaged and fails only what cannot be run, each operation of
    PrivacyDb changes the rows of its table as [run_sql] says, or fails and changes nothing. *)

From stdpp Require Import base gmap list strings sorting.
From S2P Require Import Prelude AccessTokenTypes Database PrivacyTypes PrivacyDb.
#[local] Open Scope string_scope.
#[local] Open Scope list_scope.
#[local] Open Scope Z_scope.

Lemma set_rows_eq t rows T : set_rows t rows T t = rows.
Proof. unfold set_rows. by rewrite String.eqb_refl. Qed.
Lemma set_rows_ne t t' rows T : t <> t' -> set_rows t rows T t' = T t'.
Proof. intros H. unfold set_rows. by rewrite (proj2 (String.eqb_neq t t') H). Qed.
Lemma set_rows_same t rows rows' T T' : rows ≡ₚ rows' -> same_rows T T' -> same_rows (set_rows t rows T) (set_rows t rows' T').
Proof. intros Hr HT x. unfold set_rows. destruct (String.eqb t x); [done|apply HT]. Qed.

Lemma Bind_lookup v b k x y : v !! k = Some x -> bind_value x = Some y -> Bind v b !! k = Some y.
Proof. intros Hv Hx. unfold Bind. apply lookup_union_Some_l. by rewrite lookup_omap, Hv. Qed.
Lemma Bind_lookup_ne v b k : v !! k = None -> Bind v b !! k = b !! k.
Proof. intros Hv. unfold Bind. rewrite lookup_union_r; [done|]. by rewrite lookup_omap, Hv. Qed.

(** The rows that satisfy a condition on columns, each compared with its own field. *)
Lemma conds_hold_keys v b r : (forall k x, v !! k = Some x -> is_Some (bind_value x)) ->
  conds_hold (Bind v b) (map (fun c => ColumnEq c c) (GetAllKeys v)) r = true <-> map_Forall (fun k x => r !! k = bind_value x) v.
Proof.
  intros Hv. unfold conds_hold, GetAllKeys. rewrite forallb_forall. split.
  - intros H k x Hk. specialize (H (ColumnEq k k)). rewrite <- list_elem_of_In in H.
    destruct (Hv k x Hk) as [y Hy]. rewrite Hy. cbn in H. rewrite (Bind_lookup v b k x y Hk Hy) in H.
    refine (proj1 (bool_decide_eq_true _) (H _)). apply list_elem_of_fmap. exists k. split; [done|]. apply list_elem_of_fmap. exists (k, x).
    split; [done|by apply elem_of_map_to_list].
  - intros H c (k & -> & ((k' & x) & -> & Hk%elem_of_map_to_list)%list_elem_of_fmap)%list_elem_of_In%list_elem_of_fmap. cbn.
    destruct (Hv k' x Hk) as [y Hy]. rewrite (Bind_lookup v b k' x y Hk Hy). apply bool_decide_eq_true. rewrite <- Hy. by apply H.
Qed.

Lemma list_filter_iff_perm (P Q : Row -> Prop) `{!forall x, Decision (P x), !forall x, Decision (Q x)} (l : list Row) :
  (forall x, P x <-> Q x) -> filter P l ≡ₚ filter Q l.
Proof. intros Hpq. by rewrite (list_filter_iff P Q l Hpq). Qed.

(** The times of the oldest rows do not depend on the order of the rows. *)
Lemma oldest_times n l l' : l ≡ₚ l' -> map row_time (take n (merge_sort earlier l)) = map row_time (take n (merge_sort earlier l')).
Proof.
  intros Hp. rewrite <- !firstn_map. change (firstn (A := Z)) with (@take Z). f_equal.
  assert (Total earlier) as Ht by (intros x y; unfold earlier; lia). assert (Transitive earlier) as Htr by (intros x y z; unfold earlier; lia).
  assert (forall k, StronglySorted Z.le (map row_time (merge_sort earlier k))) as Hs.
  { intros k. pose proof (StronglySorted_merge_sort earlier k) as Hk. induction Hk as [|x k' Hk IH Hx]; cbn; constructor; [done|].
    apply Forall_forall. intros z (y & -> & Hy)%list_elem_of_fmap. rewrite Forall_forall in Hx. by apply Hx. }
  eapply (StronglySorted_unique Z.le); [apply Hs..|]. apply fmap_Permutation. by rewrite !merge_sort_Permutation.
Qed.

(** What a statement does to the rows does not depend on their order. *)
Lemma run_sql_same q b T1 T2 r1 T1' : same_rows T1 T2 -> run_sql q b T1 = Some (r1, T1') ->
  exists r2 T2', run_sql q b T2 = Some (r2, T2') /\ same_rows T2' T1'.
Proof.
  intros HT Hr. destruct (run_sql q b T2) as [[r2 T2']|] eqn:E2; [|rewrite (run_sql_order q b T2 T1) in Hr; [done|by symmetry|done]].
  exists r2, T2'. split; [done|]. revert Hr E2. unfold run_sql. destruct q; destruct (find_table _) as [d|]; try done; destruct (known_columns _ _); try done.
  - destruct (bound_row _ _) as [r|]; [|done]. destruct (existsb _ _); [done|]. destruct (existsb _ _); [done|]. intros [= <- <-] [= <- <-].
    apply set_rows_same; [by rewrite (HT table)|by symmetry].
  - intros [= <- <-] [= <- <-]. apply set_rows_same; [by rewrite (HT table)|by symmetry].
  - intros [= <- <-] [= <- <-]. apply set_rows_same; [|by symmetry]. rewrite (HT table). apply list_filter_iff_perm. intros r.
    by rewrite (HT table).
  - intros [= <- <-] [= <- <-]. apply set_rows_same; [|by symmetry]. rewrite (oldest_times _ _ _ (HT table)). by rewrite (HT table).
  - destruct (bound_row _ _) as [m|]; [|done]. cbv zeta. do 2 (case_bool_decide; [|done]). intros [= <- <-] [= <- <-].
    apply set_rows_same; [|by symmetry]. apply fmap_Permutation. symmetry. apply HT.
  - intros [= <- <-] [= <- <-]. by symmetry.
  - intros [= <- <-] [= <- <-]. by symmetry.
  - intros [= <- <-] [= <- <-]. by symmetry.
Qed.

Section Reliable.
Context {St : Type} `{!SqlStore St, !SqlStoreLaws St, !SqlReliable St}.
Implicit Types (s : St).

Lemma step_ok s q b x : run_sql q b (sql_rows s) = Some x ->
  exists rows s' T T', sql_step s q b = (true, rows, s') /\ same_rows T (sql_rows s) /\ run_sql q b T = Some (rows, T') /\
    same_rows (sql_rows s') T'.
Proof.
  intros Hr. destruct (sql_step s q b) as [[[] rows] s'] eqn:E.
  - destruct (law_step_done _ _ _ _ _ E) as (_ & T & T' & ? & ? & ?). by exists rows, s', T, T'.
  - pose proof (rel_step _ _ _ _ _ E (sql_rows s)) as Hn. rewrite Hn in Hr; done.
Qed.
Lemma step_fails s q b : run_sql q b (sql_rows s) = None -> exists rows s', sql_step s q b = (false, rows, s') /\ same_rows (sql_rows s') (sql_rows s).
Proof.
  intros Hr. destruct (sql_step s q b) as [[[] rows] s'] eqn:E.
  - destruct (law_step_done _ _ _ _ _ E) as (_ & T & T' & HT & Hx & _). rewrite (run_sql_order q b (sql_rows s) T) in Hx; [done|by symmetry|done].
  - destruct (law_step_failed _ _ _ _ _ E). by exists rows, s'.
Qed.

(** ** Transactions with a retry. *)
Definition locked (act : St -> Z * St) : Prop := forall s r s', act s = (r, s') -> same_rows (sql_saved s') (sql_saved s).

Lemma Retry_done act s T' : (forall s1, same_rows (sql_rows s1) (sql_rows s) -> exists s2, act s1 = (SUCCESS, s2) /\ same_rows (sql_rows s2) T') ->
  exists s', RetryOnCorrupt act s = (SUCCESS, s') /\ same_rows (sql_rows s') T'.
Proof.
  intros Ha. destruct (law_begin s) as [Hb _]. destruct (Ha (BeginTransaction s) Hb) as (s2 & E & H2). unfold RetryOnCorrupt. rewrite E, Z.eqb_refl.
  exists (CommitTransaction s2). split; [done|]. by rewrite law_commit.
Qed.
Lemma Retry_fails act s : locked act -> (forall s1, same_rows (sql_rows s1) (sql_rows s) -> (act s1).1 <> SUCCESS) ->
  exists ret s', RetryOnCorrupt act s = (ret, s') /\ ret <> SUCCESS /\ same_rows (sql_rows s') (sql_rows s).
Proof.
  intros Hl Ha. assert (forall s0, same_rows (sql_rows s0) (sql_rows s) -> exists ret s1, act (BeginTransaction s0) = (ret, s1) /\ ret <> SUCCESS /\
    same_rows (sql_rows (RollbackTransaction s1)) (sql_rows s)) as Htry.
  { intros s0 H0. destruct (law_begin s0) as [Hb Hs]. destruct (act (BeginTransaction s0)) as [ret s1] eqn:E. exists ret, s1. split; [done|]. split.
    - specialize (Ha (BeginTransaction s0)). rewrite E in Ha. apply Ha. by rewrite Hb.
    - apply Hl in E. by rewrite law_sql_rollback, E, Hs. }
  destruct (Htry s) as (ret & s1 & E & Hne & H1); [done|]. unfold RetryOnCorrupt. rewrite E, (proj2 (Z.eqb_neq _ _) Hne), rel_intact. cbn [negb].
  destruct (Htry (RollbackTransaction s1)) as (ret' & s2 & E' & Hne' & H2); [done|]. rewrite E', (proj2 (Z.eqb_neq _ _) Hne'). by exists ret', (RollbackTransaction s2).
Qed.

Lemma step_locked s q b d rows s' : sql_step s q b = (d, rows, s') -> same_rows (sql_saved s') (sql_saved s).
Proof. destruct d; intros E; [by apply law_step_done in E as [? _]|by apply law_step_failed in E as [? _]]. Qed.
Lemma statement_locked q b : locked (run_statement q b).
Proof. intros s r s'. unfold run_statement. destruct (sql_step s q b) as [[d rows] s1] eqn:E. intros [= _ <-]. by eapply step_locked. Qed.
Lemma insert_locked t v : locked (AddLocked t [v]).
Proof.
  intros s r s'. unfold AddLocked. cbn. destruct (sql_step s _ _) as [[d rows] s1] eqn:E. destruct d; intros [= _ <-]; by eapply step_locked.
Qed.


Lemma statement_done q b s x T' : run_sql q b (sql_rows s) = Some (x, T') ->
  exists s', RetryOnCorrupt (run_statement q b) s = (SUCCESS, s') /\ same_rows (sql_rows s') T'.
Proof.
  intros Hr. apply Retry_done. intros s1 H1. destruct (run_sql_same q b (sql_rows s) (sql_rows s1) x T') as (x1 & T1 & Hr1 & HT1); [by symmetry|done|].
  destruct (step_ok _ _ _ _ Hr1) as (rows & s2 & T & T2 & Es & HT & Hr2 & H2). unfold run_statement. rewrite Es. exists s2. split; [done|].
  destruct (run_sql_same q b T (sql_rows s1) rows T2 HT Hr2) as (x3 & T3 & Hr3 & HT3). rewrite Hr1 in Hr3. injection Hr3 as <- <-.
  by rewrite H2, <- HT3.
Qed.
Lemma statement_fails q b s : run_sql q b (sql_rows s) = None ->
  exists ret s', RetryOnCorrupt (run_statement q b) s = (ret, s') /\ ret <> SUCCESS /\ same_rows (sql_rows s') (sql_rows s).
Proof.
  intros Hr. apply Retry_fails; [apply statement_locked|]. intros s1 H1. destruct (step_fails s1 q b) as (rows & s2 & E & _).
  { eapply run_sql_order; [|exact Hr]. by symmetry. }
  unfold run_statement. by rewrite E.
Qed.

(** ** The operations. *)
Lemma Add_one t v s :
  match run_sql (CreateInsertPrepareSqlCmd t) (Bind v ∅) (sql_rows s) with
  | Some (_, T') => exists s', Add t [v] s = (SUCCESS, s') /\ same_rows (sql_rows s') T'
  | None => exists ret s', Add t [v] s = (ret, s') /\ ret <> SUCCESS /\ same_rows (sql_rows s') (sql_rows s)
  end.
Proof.
  assert (forall s, AddLocked t [v] s = run_statement (CreateInsertPrepareSqlCmd t) (Bind v ∅) s) as He.
  { intros s0. unfold AddLocked, run_statement. cbn. by destruct (sql_step _ _ _) as [[[] ?] ?]. }
  assert (forall s, Add t [v] s = RetryOnCorrupt (run_statement (CreateInsertPrepareSqlCmd t) (Bind v ∅)) s) as Ha.
  { intros s0. unfold Add, RetryOnCorrupt. rewrite !He. destruct (run_statement _ _ _) as [ret s1]. split_if; [done|]. cbv zeta. split_if; [by rewrite He|].
    destruct (Rebuild _) as [res s2]. by rewrite He. }
  destruct (run_sql _ _ _) as [[x T']|] eqn:Hr; rewrite Ha; [by eapply statement_done|by apply statement_fails].
Qed.

Lemma Remove_done t c s x T' : run_sql (CreateDeletePrepareSqlCmd t (GetAllKeys c)) (Bind c ∅) (sql_rows s) = Some (x, T') ->
  exists s', Remove t c s = (SUCCESS, s') /\ same_rows (sql_rows s') T'.
Proof. apply statement_done. Qed.
Lemma Remove_fails t c s : run_sql (CreateDeletePrepareSqlCmd t (GetAllKeys c)) (Bind c ∅) (sql_rows s) = None ->
  exists ret s', Remove t c s = (ret, s') /\ ret <> SUCCESS /\ same_rows (sql_rows s') (sql_rows s).
Proof. apply statement_fails. Qed.
Lemma Update_done t m c s q x T' : CreateUpdatePrepareSqlCmd t (GetAllKeys m) (GetAllKeys c) = Some q ->
  run_sql q (Bind c (Bind m ∅)) (sql_rows s) = Some (x, T') -> exists s', Update t m c s = (SUCCESS, s') /\ same_rows (sql_rows s') T'.
Proof. intros Hq Hr. unfold Update, UpdateLocked. rewrite Hq. by eapply statement_done. Qed.

Lemma read_done q b s x T' : run_sql q b (sql_rows s) = Some (x, T') -> T' = sql_rows s ->
  exists rows s' T, sql_step s q b = (true, rows, s') /\ same_rows T (sql_rows s) /\ (exists T2, run_sql q b T = Some (rows, T2)) /\
    same_rows (sql_rows s') (sql_rows s).
Proof.
  intros Hr ->. destruct (step_ok _ _ _ _ Hr) as (rows & s' & T & T2 & Es & HT & Hr2 & H2). exists rows, s', T. split_and!; [done|done|by exists T2|].
  destruct (run_sql_same q b T (sql_rows s) rows T2 HT Hr2) as (x3 & T3 & Hr3 & HT3). rewrite Hr in Hr3. injection Hr3 as <- <-. by rewrite H2, HT3.
Qed.

(** The rows a query delivers. *)
Lemma Query_done t c s d : find_table (tableName_ t) = Some d -> known_columns d (GetAllKeys c) = true ->
  exists rows s', Query t c s = (SUCCESS, map (fmap (GetValue false)) rows, s') /\ same_rows (sql_rows s') (sql_rows s) /\
    rows ≡ₚ filter (fun r => conds_hold (Bind c ∅) (map (fun k => ColumnEq k k) (GetAllKeys c)) r = true) (sql_rows s (tableName_ t)).
Proof.
  intros Hd Hk. assert (forall T, run_sql (CreateQueryPrepareSqlCmd t (GetAllKeys c)) (Bind c ∅) T =
    Some (filter (fun r => conds_hold (Bind c ∅) (map (fun k => ColumnEq k k) (GetAllKeys c)) r = true) (T (tableName_ t)), T)) as Hr.
  { intros T. unfold CreateQueryPrepareSqlCmd, run_sql. rewrite Hd. rewrite map_map. cbn [cond_column]. rewrite map_id. by rewrite Hk. }
  destruct (read_done _ _ _ _ _ (Hr (sql_rows s)) eq_refl) as (rows & s' & T & Es & HT & (T2 & Hr2) & Hs). rewrite Hr in Hr2. injection Hr2 as <- _.
  unfold Query. rewrite Es. eexists _, s'. split_and!; [done|done|by rewrite (HT (tableName_ t))].
Qed.
End Reliable.
