(* ===== verification/PrivacyRecordTheory.v ===== *)
(** * The rows and the cache of used records

    Rows of the record table as records; what insertion and writing back do to them; and the
    invariant that ties the cache to the table: every cached record has its row, and a record
    that was not merged since agrees with it. *)

From stdpp Require Import base gmap list strings sorting.
From S2P Require Import Prelude AccessTokenTypes Database PrivacyTypes PrivacyRecordSet PrivacyUsage PrivacyUsageProps PrivacyDb PrivacyDbTheory PrivacyRecord.
#[local] Open Scope string_scope.
#[local] Open Scope list_scope.
#[local] Open Scope Z_scope.

(** ** Sums. *)
Definition zsum (l : list Z) : Z := fold_right Z.add 0 l.
#[export] Instance zsum_proper : Proper ((≡ₚ) ==> (=)) zsum.
Proof. intros l l'. unfold zsum. induction 1; cbn; lia. Qed.
Lemma zsum_cons x l : zsum (x :: l) = x + zsum l.
Proof. done. Qed.
Lemma zsum_app l l' : zsum (l ++ l') = zsum l + zsum l'.
Proof. unfold zsum. induction l as [|x l IH]; cbn; lia. Qed.
Lemma zsum_nonneg l : Forall (fun x => 0 <= x) l -> 0 <= zsum l.
Proof. unfold zsum. induction 1; cbn; lia. Qed.
Lemma zsum_elem l x : Forall (fun x => 0 <= x) l -> x ∈ l -> x <= zsum l.
Proof.
  induction 1 as [|y l Hy Hl IH]; [by intros ?%elem_of_nil|]. intros [->|Hx]%elem_of_cons; rewrite zsum_cons.
  - pose proof (zsum_nonneg l Hl). lia.
  - specialize (IH Hx). lia.
Qed.
(** The values of the elements that satisfy [f]. *)
Definition sum_where {A} (f : A -> bool) (g : A -> Z) (l : list A) : Z := zsum (map (fun x => if f x then g x else 0) l).
#[export] Instance sum_where_proper {A} (f : A -> bool) (g : A -> Z) : Proper ((≡ₚ) ==> (=)) (sum_where f g).
Proof. intros l l' Hl. unfold sum_where. by rewrite Hl. Qed.
Lemma sum_where_cons {A} (f : A -> bool) g x l : sum_where f g (x :: l) = (if f x then g x else 0) + sum_where f g l.
Proof. done. Qed.
Lemma sum_where_app {A} (f : A -> bool) g l l' : sum_where f g (l ++ l') = sum_where f g l + sum_where f g l'.
Proof. unfold sum_where. by rewrite map_app, zsum_app. Qed.
Lemma sum_where_ext {A} (f f' : A -> bool) g g' l : (forall x, x ∈ l -> f x = f' x /\ g x = g' x) -> sum_where f g l = sum_where f' g' l.
Proof.
  induction l as [|x l IH]; intros H; [done|]. rewrite !sum_where_cons. destruct (H x) as [-> ->]; [left|]. f_equal. apply IH.
  intros y Hy. apply H. by right.
Qed.
Lemma sum_where_mono {A} (f : A -> bool) g l : Forall (fun x => 0 <= g x) l -> 0 <= sum_where f g l <= sum_where (fun _ => true) g l.
Proof. induction 1 as [|x l Hx Hl IH]; [done|]. rewrite !sum_where_cons. destruct (f x); lia. Qed.

(** ** Rows. *)
Definition row_of (r : PermissionRecord) : Row := list_to_map
  [(FIELD_TOKEN_ID, VInt (i32 (pr_tokenId r))); (FIELD_OP_CODE, VInt (pr_opCode r)); (FIELD_STATUS, VInt (pr_status r));
   (FIELD_TIMESTAMP, VInt (pr_timestamp r)); (FIELD_ACCESS_DURATION, VInt (pr_accessDuration r)); (FIELD_ACCESS_COUNT, VInt (pr_accessCount r));
   (FIELD_REJECT_COUNT, VInt (pr_rejectCount r)); (FIELD_LOCKSCREEN_STATUS, VInt (pr_lockScreenStatus r)); (FIELD_USED_TYPE, VInt (pr_type r));
   (FIELD_ENHANCED_IDENTITY, VString (pr_enhancedIdentity r))].

(** The primary key. *)
Definition pk (r : PermissionRecord) : Z * Z * Z * Z * Z * string :=
  (pr_tokenId r, pr_opCode r, pr_status r, pr_timestamp r, pr_type r, pr_enhancedIdentity r).

Record record_valid (r : PermissionRecord) : Prop := {
  rv_token : is_u32 (pr_tokenId r);
  rv_op : is_i32 (pr_opCode r);
  rv_known : (TransferOpcodeToPermission (pr_opCode r) "").1 = true;
  rv_status : is_i32 (pr_status r);
  rv_type : is_i32 (pr_type r);
  rv_access : 0 <= pr_accessCount r < 2 ^ 31;
  rv_reject : 0 <= pr_rejectCount r < 2 ^ 31;
}.

Lemma i32_inj x y : is_u32 x -> is_u32 y -> i32 x = i32 y -> x = y.
Proof. intros Hx Hy E. rewrite <- (u32_small x), <- (u32_small y) by done. rewrite <- (u32_i32 x), <- (u32_i32 y). by rewrite E. Qed.

Lemma insert_row r : bound_row (Bind (TranslationIntoGenericValues r) ∅) (tableColumnNames_ (dataTypeToSqlTable_ PERMISSION_RECORD)) = Some (row_of r).
Proof. reflexivity. Qed.
Lemma update_row r c : omap bind_value (update_values c) ∪ row_of r = row_of (set_counts (pr_accessCount c) (pr_rejectCount c) r).
Proof. reflexivity. Qed.

(** The key columns of a row tell the key of its record. *)
Lemma row_key r r' : is_u32 (pr_tokenId r) -> is_u32 (pr_tokenId r') ->
  (map (fun c => row_of r !! c) (td_key CreatePermissionRecordTable) = map (fun c => row_of r' !! c) (td_key CreatePermissionRecordTable) <-> pk r = pk r').
Proof.
  intros H1 H2. change (map (fun c => row_of r !! c) _) with
    [Some (VInt (i32 (pr_tokenId r))); Some (VInt (pr_opCode r)); Some (VInt (pr_status r)); Some (VInt (pr_timestamp r)); Some (VInt (pr_type r));
     Some (VString (pr_enhancedIdentity r))].
  change (map (fun c => row_of r' !! c) _) with
    [Some (VInt (i32 (pr_tokenId r'))); Some (VInt (pr_opCode r')); Some (VInt (pr_status r')); Some (VInt (pr_timestamp r')); Some (VInt (pr_type r'));
     Some (VString (pr_enhancedIdentity r'))].
  unfold pk. split; [|congruence]. intros [= E1 E2 E3 E4 E5 E6]. apply i32_inj in E1; [|done..]. congruence.
Qed.
Lemma same_key_pk r r' : is_u32 (pr_tokenId r) -> is_u32 (pr_tokenId r') ->
  same_key (td_key CreatePermissionRecordTable) (row_of r) (row_of r') = bool_decide (pk r = pk r').
Proof.
  intros H1 H2. apply eq_true_iff_eq. rewrite bool_decide_eq_true, <- row_key by done. unfold same_key. generalize (td_key CreatePermissionRecordTable).
  generalize (row_of r), (row_of r'). clear. intros m m' key. induction key as [|c key IH]; cbn; [done|].
  rewrite andb_true_iff, bool_decide_eq_true, IH. split; [intros [E1 E2]; congruence|by intros [= E1 E2]].
Qed.

Lemma update_hits r c : is_u32 (pr_tokenId r) -> is_u32 (pr_tokenId c) ->
  conds_hold (Bind (update_condition c) (Bind (update_values c) ∅)) (map (fun k => ColumnEq k k) (GetAllKeys (update_condition c))) (row_of r) =
  bool_decide (pk r = pk c).
Proof.
  intros H1 H2. apply eq_true_iff_eq. rewrite bool_decide_eq_true, conds_hold_keys.
  - unfold update_condition. rewrite !map_Forall_Put by reflexivity. split.
    + intros (E1 & E2 & E3 & E4 & E5 & E6 & _). change (Some (VString (pr_enhancedIdentity r)) = Some (VString (pr_enhancedIdentity c))) in E1.
      change (Some (VInt (pr_type r)) = Some (VInt (pr_type c))) in E2. change (Some (VInt (pr_timestamp r)) = Some (VInt (pr_timestamp c))) in E3.
      change (Some (VInt (pr_status r)) = Some (VInt (pr_status c))) in E4. change (Some (VInt (pr_opCode r)) = Some (VInt (pr_opCode c))) in E5.
      change (Some (VInt (i32 (pr_tokenId r))) = Some (VInt (i32 (pr_tokenId c)))) in E6. injection E6 as E6. apply i32_inj in E6; [|done..].
      unfold pk. congruence.
    + unfold pk. intros [= E1 E2 E3 E4 E5 E6].
      assert (row_of r !! FIELD_ENHANCED_IDENTITY = Some (VString (pr_enhancedIdentity r)) /\ row_of r !! FIELD_USED_TYPE = Some (VInt (pr_type r)) /\
        row_of r !! FIELD_TIMESTAMP = Some (VInt (pr_timestamp r)) /\ row_of r !! FIELD_STATUS = Some (VInt (pr_status r)) /\
        row_of r !! FIELD_OP_CODE = Some (VInt (pr_opCode r)) /\ row_of r !! FIELD_TOKEN_ID = Some (VInt (i32 (pr_tokenId r))))
        as (-> & -> & -> & -> & -> & ->) by (split_and!; reflexivity).
      cbn [bind_value]. split_and!; try congruence. apply map_Forall_empty.
  - unfold update_condition. intros k x. rewrite !Put_lookup. repeat (destruct (String.eqb _ k); [intros [= <-]; cbn; eauto; fail|]).
    by rewrite lookup_empty.
Qed.

(** ** The table. *)
Lemma existsb_perm {A} (f : A -> bool) (l l' : list A) : l ≡ₚ l' -> existsb f l = existsb f l'.
Proof.
  intros Hp. apply eq_true_iff_eq. rewrite !existsb_exists. split; intros (x & Hx & Hf); exists x; (split; [|done]); apply list_elem_of_In.
  - rewrite <- Hp. by apply list_elem_of_In.
  - rewrite Hp. by apply list_elem_of_In.
Qed.
Lemma set_counts_pk a b r : pk (set_counts a b r) = pk r.
Proof. done. Qed.

(** [r], with the counts of [c] if they have the same key. *)
Definition with_counts_of (c r : PermissionRecord) : PermissionRecord :=
  if bool_decide (pk r = pk c) then set_counts (pr_accessCount c) (pr_rejectCount c) r else r.
Lemma with_counts_pk c r : pk (with_counts_of c r) = pk r.
Proof. unfold with_counts_of. by case_bool_decide. Qed.
Lemma with_counts_pks c recs : map pk (map (with_counts_of c) recs) = map pk recs.
Proof. rewrite map_map. apply map_ext. apply with_counts_pk. Qed.

Lemma NoDup_map_of {A B C} (g : A -> B) (h : A -> C) (l : list A) : NoDup (map g l) ->
  (forall x y, x ∈ l -> y ∈ l -> h x = h y -> g x = g y) -> NoDup (map h l).
Proof.
  intros Hg Hh. induction l as [|x l IH]; cbn in *; [constructor|]. apply NoDup_cons in Hg as [Hx Hg]. constructor.
  - intros (y & E & Hy)%list_elem_of_fmap. apply Hx. apply list_elem_of_fmap. exists y. split; [|done]. apply Hh; [left|by right|done].
  - apply IH; [done|]. intros y z Hy Hz. apply Hh; by right.
Qed.

Section Table.
Context {St : Type} `{!SqlStore St, !SqlStoreLaws St, !SqlReliable St}.
Implicit Types (s : St).

Definition records_are s (recs : list PermissionRecord) : Prop := sql_rows s PERMISSION_RECORD_TABLE ≡ₚ map row_of recs.
Definition tokens_fit (recs : list PermissionRecord) : Prop := Forall (fun r => is_u32 (pr_tokenId r)) recs.

Lemma key_taken r recs : is_u32 (pr_tokenId r) -> tokens_fit recs ->
  existsb (same_key (td_key CreatePermissionRecordTable) (row_of r)) (map row_of recs) = bool_decide (pk r ∈ map pk recs).
Proof.
  intros Hr Hf. apply eq_true_iff_eq. rewrite bool_decide_eq_true, existsb_exists. unfold tokens_fit in Hf. rewrite Forall_forall in Hf. split.
  - intros (x & (r' & <- & Hin%list_elem_of_In)%in_map_iff & Hk). rewrite same_key_pk in Hk by auto. apply bool_decide_eq_true in Hk.
    apply list_elem_of_fmap. by exists r'.
  - intros (r' & Hk & Hin)%list_elem_of_fmap. exists (row_of r'). split; [apply in_map; by apply list_elem_of_In|].
    rewrite same_key_pk by auto. by apply bool_decide_eq_true.
Qed.

Lemma insert_record r s recs : records_are s recs -> tokens_fit (r :: recs) ->
  exists ret s', Add (dataTypeToSqlTable_ PERMISSION_RECORD) [TranslationIntoGenericValues r] s = (ret, s') /\
    (ret = SUCCESS /\ pk r ∉ map pk recs /\ records_are s' (recs ++ [r]) \/ ret <> SUCCESS /\ pk r ∈ map pk recs /\ records_are s' recs).
Proof.
  intros Hs [Hr Hf]%Forall_cons. pose proof (Add_one (dataTypeToSqlTable_ PERMISSION_RECORD) (TranslationIntoGenericValues r) s) as H.
  assert (run_sql (CreateInsertPrepareSqlCmd (dataTypeToSqlTable_ PERMISSION_RECORD)) (Bind (TranslationIntoGenericValues r) ∅) (sql_rows s) =
    if bool_decide (pk r ∈ map pk recs) then None
    else Some ([], set_rows PERMISSION_RECORD_TABLE (sql_rows s PERMISSION_RECORD_TABLE ++ [row_of r]) (sql_rows s))) as E.
  { rewrite <- (key_taken r recs Hr Hf), <- (existsb_perm _ _ _ Hs). unfold CreateInsertPrepareSqlCmd, run_sql. cbn [tableName_ dataTypeToSqlTable_ InitPermRecordTableInfo].
    change (find_table PERMISSION_RECORD_TABLE) with (Some CreatePermissionRecordTable). cbv beta iota.
    change (known_columns CreatePermissionRecordTable _) with true. cbv iota. by rewrite insert_row. }
  rewrite E in H. case_bool_decide as Hk.
  - destruct H as (ret & s' & Ea & Hne & Hsame). exists ret, s'. split; [done|]. right. split_and!; [done|done|]. unfold records_are. by rewrite (Hsame PERMISSION_RECORD_TABLE).
  - destruct H as (s' & Ea & Hsame). exists SUCCESS, s'. split; [done|]. left. split_and!; [done|done|]. unfold records_are.
    rewrite (Hsame PERMISSION_RECORD_TABLE), set_rows_eq, map_app. by rewrite Hs.
Qed.

Lemma write_back c s recs : records_are s recs -> tokens_fit (c :: recs) -> NoDup (map pk recs) ->
  exists s', UpdatePermissionUsedRecordToDb c s = (SUCCESS, s') /\ records_are s' (map (with_counts_of c) recs).
Proof.
  intros Hs [Hc Hf]%Forall_cons Hnd. unfold UpdatePermissionUsedRecordToDb.
  set (rows := map (fun r => if conds_hold (Bind (update_condition c) (Bind (update_values c) ∅)) (map (fun k => ColumnEq k k) (GetAllKeys (update_condition c))) r
    then omap bind_value (update_values c) ∪ r else r) (sql_rows s PERMISSION_RECORD_TABLE)).
  assert (rows ≡ₚ map row_of (map (with_counts_of c) recs)) as Hrows.
  { subst rows. rewrite Hs. rewrite !map_map. apply reflexive_eq. apply map_ext_in. intros r Hr%list_elem_of_In.
    unfold tokens_fit in Hf. rewrite Forall_forall in Hf. rewrite update_hits by auto. unfold with_counts_of. case_bool_decide; [apply update_row|done]. }
  destruct (Update_done (dataTypeToSqlTable_ PERMISSION_RECORD) (update_values c) (update_condition c) s
    (SqlUpdate PERMISSION_RECORD_TABLE (GetAllKeys (update_values c)) (map (fun k => ColumnEq k k) (GetAllKeys (update_condition c)))) []
    (set_rows PERMISSION_RECORD_TABLE rows (sql_rows s))) as (s' & E & Hs').
  - reflexivity.
  - unfold run_sql. change (find_table PERMISSION_RECORD_TABLE) with (Some CreatePermissionRecordTable). cbv beta iota.
    change (known_columns CreatePermissionRecordTable _) with true. cbv iota.
    change (bound_row _ _) with (Some (omap bind_value (update_values c))). cbv iota zeta. fold rows. rewrite bool_decide_eq_true_2; [done|].
    rewrite Hrows, map_map. apply (NoDup_map_of pk); [by rewrite with_counts_pks|]. intros r r' Hr Hr' Hk. apply row_key; [| |done].
    + apply list_elem_of_fmap in Hr as (r0 & -> & Hr0). unfold tokens_fit in Hf. rewrite Forall_forall in Hf. specialize (Hf r0 Hr0). unfold with_counts_of. by case_bool_decide.
    + apply list_elem_of_fmap in Hr' as (r0 & -> & Hr0). unfold tokens_fit in Hf. rewrite Forall_forall in Hf. specialize (Hf r0 Hr0). unfold with_counts_of. by case_bool_decide.
  - exists s'. split; [done|]. unfold records_are. by rewrite (Hs' PERMISSION_RECORD_TABLE), set_rows_eq.
Qed.
End Table.

(** ** The ledger: what a query should see, the rows with the counts that the cache still holds. *)
Definition same_pk (r : PermissionRecord) (it : PermissionRecordCache) : bool := bool_decide (pk r = pk (ch_record it)).
Definition cached (cache : list PermissionRecordCache) (r : PermissionRecord) : PermissionRecord :=
  match find_if (same_pk r) cache with Some it => ch_record it | None => r end.
Definition ledger (cache : list PermissionRecordCache) (recs : list PermissionRecord) : list PermissionRecord := map (cached cache) recs.

(** The row that a cached record was inserted as. *)
Definition entry_of (recs : list PermissionRecord) (it : PermissionRecordCache) : Prop :=
  record_valid (ch_record it) /\
  exists r, r ∈ recs /\ pk r = pk (ch_record it) /\ with_counts_of (ch_record it) r = ch_record it /\ (ch_needUpdateToDb it = false -> ch_record it = r).
Record cache_ok (cache : list PermissionRecordCache) (recs : list PermissionRecord) : Prop := {
  co_valid : Forall record_valid recs;
  co_rows : NoDup (map pk recs);
  co_keys : NoDup (map (fun it => pk (ch_record it)) cache);
  co_entries : Forall (entry_of recs) cache;
}.

Lemma cached_hit kept it rest r : NoDup (map (fun it => pk (ch_record it)) (kept ++ it :: rest)) -> pk r = pk (ch_record it) ->
  cached (kept ++ it :: rest) r = ch_record it /\ find_if (same_pk r) (kept ++ rest) = None.
Proof.
  rewrite map_app, map_cons. intros (_ & Hd & [Hr _]%NoDup_cons)%NoDup_app Hk.
  assert (find_if (same_pk r) kept = None) as H1.
  { apply find_if_None. intros x Hx. apply bool_decide_eq_false. rewrite Hk. intros E. apply (Hd (pk (ch_record it))); [|left].
    apply list_elem_of_fmap. by exists x. }
  assert (find_if (same_pk r) rest = None) as H2.
  { apply find_if_None. intros x Hx. apply bool_decide_eq_false. rewrite Hk. intros E. apply Hr. apply list_elem_of_fmap. by exists x. }
  unfold cached. rewrite !find_if_app, H1, H2. cbn. unfold same_pk at 1. by rewrite bool_decide_eq_true_2.
Qed.
Lemma find_miss kept it rest r : pk r <> pk (ch_record it) -> find_if (same_pk r) (kept ++ it :: rest) = find_if (same_pk r) (kept ++ rest).
Proof. intros Hk. rewrite !find_if_app. cbn. unfold same_pk at 2. by rewrite bool_decide_eq_false_2. Qed.

Lemma record_of_key recs r r' : NoDup (map pk recs) -> r ∈ recs -> r' ∈ recs -> pk r = pk r' -> r = r'.
Proof. intros Hnd H1 H2 E. by apply (NoDup_map_inj pk recs). Qed.

(** Writing a cached record back and forgetting it. *)
Lemma cached_written kept it rest recs r : cache_ok (kept ++ it :: rest) recs -> r ∈ recs ->
  cached (kept ++ rest) (with_counts_of (ch_record it) r) = cached (kept ++ it :: rest) r.
Proof.
  intros Hok Hr. pose proof (co_entries _ _ Hok) as He. apply Forall_app in He as [_ [(Hv & r0 & Hr0 & Hk0 & Hw & _) _]%Forall_cons].
  destruct (decide (pk r = pk (ch_record it))) as [Hk|Hk].
  - destruct (cached_hit kept it rest r (co_keys _ _ Hok) Hk) as [-> Hn]. assert (r = r0) as <- by (eapply record_of_key; [apply Hok|done..|congruence]).
    rewrite Hw. unfold cached, same_pk in *. rewrite Hk in Hn. by rewrite Hn.
  - unfold with_counts_of. rewrite bool_decide_eq_false_2 by done. unfold cached. by rewrite find_miss.
Qed.
Lemma valid_with_counts c r : record_valid c -> record_valid r -> record_valid (with_counts_of c r).
Proof. intros [] []. unfold with_counts_of. case_bool_decide; by constructor. Qed.
Lemma unmerged_written it recs : entry_of recs it -> NoDup (map pk recs) -> ch_needUpdateToDb it = false -> map (with_counts_of (ch_record it)) recs = recs.
Proof.
  intros (Hv & r0 & Hr0 & Hk0 & Hw & Hn) Hnd Hf. rewrite <- (map_id recs) at 2. apply map_ext_in. intros r Hr%list_elem_of_In. unfold with_counts_of.
  case_bool_decide as Hk; [|done]. assert (r = r0) as -> by (eapply record_of_key; [done..|congruence]). rewrite (Hn Hf). by destruct r0.
Qed.
(** The other entries keep their rows. *)
Lemma entry_written c recs it : pk (ch_record it) <> pk c -> entry_of recs it -> entry_of (map (with_counts_of c) recs) it.
Proof.
  intros Hk (Hv & r & Hr & Hrest). split; [done|]. exists r. split; [|done]. apply list_elem_of_fmap. exists r. split; [|done].
  unfold with_counts_of. rewrite bool_decide_eq_false_2; [done|]. intros E. apply Hk. rewrite <- E. symmetry. apply Hrest.
Qed.
Lemma drop_written kept it rest recs : cache_ok (kept ++ it :: rest) recs -> cache_ok (kept ++ rest) (map (with_counts_of (ch_record it)) recs) /\
  ledger (kept ++ rest) (map (with_counts_of (ch_record it)) recs) = ledger (kept ++ it :: rest) recs.
Proof.
  intros Hok. split.
  - destruct Hok as [Hv Hr Hk He]. pose proof He as He'. apply Forall_app in He' as [He1 [[Hvi _] He2]%Forall_cons].
    assert (forall x, x ∈ kept ++ rest -> pk (ch_record x) <> pk (ch_record it)) as Hne.
    { rewrite map_app, map_cons in Hk. apply NoDup_app in Hk as (_ & Hd & [Hr2 _]%NoDup_cons).
      intros x [Hx|Hx]%elem_of_app E; [apply (Hd (pk (ch_record x))); [|rewrite E; left]|apply Hr2; rewrite <- E]; apply list_elem_of_fmap; by exists x. }
    split.
    + apply Forall_fmap. eapply Forall_impl; [exact Hv|]. intros r Hr'. by apply valid_with_counts.
    + by rewrite with_counts_pks.
    + eapply NoDup_map_sublist; [|exact Hk]. apply sublist_app; [done|by apply sublist_cons].
    + apply Forall_forall. intros x Hx. apply entry_written; [by apply Hne|]. eapply Forall_forall; [|exact Hx]. by apply Forall_app.
  - unfold ledger. rewrite map_map. apply map_ext_in. intros r Hr%list_elem_of_In. by apply (cached_written _ _ _ recs).
Qed.

(** ** Adding a record, on the ledger. *)
Definition merged_with (r c : PermissionRecord) : PermissionRecord :=
  set_counts (pr_accessCount c + pr_accessCount r) (pr_rejectCount c + pr_rejectCount r) c.
Inductive ledger_add (r : PermissionRecord) : list PermissionRecord -> list PermissionRecord -> Prop :=
  | add_new L : pk r ∉ map pk L -> ledger_add r L (L ++ [r])
  | add_merged L1 c L2 : RecordMergeCheck c r = true -> ledger_add r (L1 ++ c :: L2) (L1 ++ merged_with r c :: L2).

Definition tot (g : PermissionRecord -> Z) (L : list PermissionRecord) : Z := zsum (map g L).
(** The counts of [r] can be added to any record of [L]. *)
Definition counts_fit (r : PermissionRecord) (L : list PermissionRecord) : Prop :=
  Forall (fun c => pr_accessCount c + pr_accessCount r < 2 ^ 31 /\ pr_rejectCount c + pr_rejectCount r < 2 ^ 31) L.

Lemma cached_pk cache r : pk (cached cache r) = pk r.
Proof. unfold cached. destruct (find_if _ _) as [it|] eqn:E; [|done]. apply find_if_Some in E as [_ E%bool_decide_eq_true]. done. Qed.
Lemma ledger_pks cache recs : map pk (ledger cache recs) = map pk recs.
Proof. unfold ledger. rewrite map_map. apply map_ext. apply cached_pk. Qed.
Lemma merge_loop_split r l l' : merge_loop r l = Some l' -> exists kept it rest, l = kept ++ it :: rest /\ RecordMergeCheck (ch_record it) r = true /\
  l' = kept ++ mkPermissionRecordCache (set_counts (i32 (pr_accessCount (ch_record it) + pr_accessCount r))
         (i32 (pr_rejectCount (ch_record it) + pr_rejectCount r)) (ch_record it)) true :: rest.
Proof.
  revert l'. induction l as [|it l IH]; intros l'; [done|]. cbn [merge_loop]. destruct (RecordMergeCheck _ _) eqn:E.
  - intros [= <-]. by exists [], it, l.
  - destruct (merge_loop r l) as [l1|]; [|done]. intros [= <-]. destruct (IH l1 eq_refl) as (kept & it' & rest & -> & ? & ->). by exists (it :: kept), it', rest.
Qed.

Lemma valid_nonneg r : record_valid r -> 0 <= pr_accessCount r /\ 0 <= pr_rejectCount r.
Proof. intros []. lia. Qed.
Lemma valid_merged r c : record_valid r -> record_valid c -> pr_accessCount c + pr_accessCount r < 2 ^ 31 -> pr_rejectCount c + pr_rejectCount r < 2 ^ 31 ->
  record_valid (merged_with r c).
Proof. intros [] [] ? ?. constructor; cbn; try done; lia. Qed.

Lemma cache_change kept it it' rest recs : cache_ok (kept ++ it :: rest) recs -> record_valid (ch_record it') -> ch_needUpdateToDb it' = true ->
  (exists a b, ch_record it' = set_counts a b (ch_record it)) ->
  cache_ok (kept ++ it' :: rest) recs /\ exists L1 L2, ledger (kept ++ it :: rest) recs = L1 ++ ch_record it :: L2 /\ ledger (kept ++ it' :: rest) recs = L1 ++ ch_record it' :: L2.
Proof.
  intros Hok Hv Hn (a & b & Hc). assert (pk (ch_record it') = pk (ch_record it)) as Hpk by (by rewrite Hc).
  assert (map (fun it => pk (ch_record it)) (kept ++ it' :: rest) = map (fun it => pk (ch_record it)) (kept ++ it :: rest)) as Hks.
  { rewrite !map_app. cbn. by rewrite Hpk. }
  pose proof (co_entries _ _ Hok) as He. apply Forall_app in He as [He1 [(Hvi & r0 & Hr0 & Hk0 & Hw & _) He2]%Forall_cons].
  split.
  - split; [apply Hok..| |].
    + rewrite Hks. apply Hok.
    + apply Forall_app. split; [done|]. constructor; [|done]. split; [done|]. exists r0. split_and!; [done|congruence| |congruence].
      unfold with_counts_of in *. rewrite Hpk. rewrite bool_decide_eq_true_2 in * by done. rewrite Hc. rewrite <- Hw. done.
  - destruct (list_elem_of_split _ _ Hr0) as (R1 & R2 & ->). exists (ledger (kept ++ it :: rest) R1), (ledger (kept ++ it :: rest) R2).
    assert (forall r, pk r <> pk (ch_record it) -> cached (kept ++ it' :: rest) r = cached (kept ++ it :: rest) r) as Hne.
    { intros r Hr. unfold cached. rewrite !find_miss; congruence. }
    assert (cached (kept ++ it' :: rest) r0 = ch_record it') as Hn0 by (apply cached_hit; [rewrite Hks; apply Hok|congruence]).
    assert (cached (kept ++ it :: rest) r0 = ch_record it) as Ho0 by (apply cached_hit; [apply Hok|congruence]).
    pose proof (co_rows _ _ Hok) as Hnd. rewrite map_app, map_cons in Hnd. apply NoDup_app in Hnd as (_ & Hd & [Hr2 _]%NoDup_cons).
    unfold ledger. rewrite !map_app, !map_cons, Hn0, Ho0. split; [done|]. f_equal; [|f_equal]; apply map_ext_in; intros r Hr%list_elem_of_In; apply Hne; rewrite <- Hk0; intros E.
    + apply (Hd (pk r)); [|rewrite E; left]. apply list_elem_of_fmap. by exists r.
    + apply Hr2. rewrite <- E. apply list_elem_of_fmap. by exists r.
Qed.
Lemma cache_append cache recs r : cache_ok cache recs -> record_valid r -> pk r ∉ map pk recs ->
  cache_ok (cache ++ [mkPermissionRecordCache r false]) (recs ++ [r]) /\ ledger (cache ++ [mkPermissionRecordCache r false]) (recs ++ [r]) = ledger cache recs ++ [r].
Proof.
  intros [Hv Hr Hk He] Hvr Hn. assert (pk r ∉ map (fun it => pk (ch_record it)) cache) as Hnc.
  { intros (it & E & Hit)%list_elem_of_fmap. rewrite Forall_forall in He. destruct (He it Hit) as (_ & r0 & Hr0 & Hk0 & _). apply Hn. apply list_elem_of_fmap.
    exists r0. split; [congruence|done]. }
  assert (forall a, NoDup a -> pk r ∉ a -> NoDup (a ++ [pk r])) as Hnd.
  { intros a H1 H2. apply NoDup_app. split_and!; [done| |apply NoDup_singleton]. by intros x Hx ->%list_elem_of_singleton. }
  split.
  - split.
    + apply Forall_app. split; [done|]. by constructor.
    + rewrite map_app. by apply Hnd.
    + rewrite map_app. by apply Hnd.
    + apply Forall_app. split.
      * eapply Forall_impl; [exact He|]. intros it (Hvi & r0 & Hr0 & Hrest). split; [done|]. exists r0. split; [|done]. apply elem_of_app. by left.
      * constructor; [|done]. split; [done|]. exists r. cbn. split_and!; [apply elem_of_app; right; by left|done| |done].
        unfold with_counts_of. rewrite bool_decide_eq_true_2 by done. by destruct r.
  - unfold ledger. rewrite map_app. f_equal.
    + apply map_ext_in. intros x Hx%list_elem_of_In. unfold cached. rewrite find_if_app. destruct (find_if (same_pk x) cache); [done|]. cbn. unfold same_pk. cbn.
      rewrite bool_decide_eq_false_2; [done|]. intros E. apply Hn. rewrite <- E. apply list_elem_of_fmap. by exists x.
    + cbn. f_equal. unfold cached. rewrite find_if_app. assert (find_if (same_pk r) cache = None) as ->.
      { apply find_if_None. intros it Hit. apply bool_decide_eq_false. intros E. apply Hnc. apply list_elem_of_fmap. by exists it. }
      cbn. unfold same_pk. cbn. by rewrite bool_decide_eq_true_2.
Qed.

Section Refines.
Context {St : Type} `{!SqlStore St, !SqlStoreLaws St, !SqlReliable St}.
Implicit Types (s : St) (R : Records St).

Record rec_inv R (recs : list PermissionRecord) : Prop := {
  ri_rows : records_are (usedDb R) recs;
  ri_cache : cache_ok (permUsedRecList R) recs;
}.
Definition ledger_of R (recs : list PermissionRecord) : list PermissionRecord := ledger (permUsedRecList R) recs.

Lemma valid_tokens recs : Forall record_valid recs -> tokens_fit recs.
Proof. intros H. eapply Forall_impl; [exact H|]. intros r Hr. apply Hr. Qed.

(** Dropping from the cache, row by row. *)
Lemma evict_loop_ok stamp op : forall l kept s recs l' s', evict_loop stamp op l s = (l', s') -> records_are s recs -> cache_ok (kept ++ l) recs ->
  exists recs', records_are s' recs' /\ cache_ok (kept ++ l') recs' /\ ledger (kept ++ l') recs' = ledger (kept ++ l) recs.
Proof.
  induction l as [|it l IH]; intros kept s recs l' s'; cbn [evict_loop].
  - intros [= <- <-] Hs Hok. by exists recs.
  - split_if.
    + destruct (evict_loop stamp op l s) as [l1 s1] eqn:Ev. intros [= <- <-] Hs Hok. destruct (IH (kept ++ [it]) _ _ _ _ Ev Hs) as (recs' & H1 & H2 & H3).
      { by rewrite <- app_assoc. }
      rewrite <- (app_assoc kept [it]) in H2. rewrite <- !(app_assoc kept [it]) in H3. exists recs'. split_and!; [exact H1|exact H2|exact H3].
    + intros Ev Hs Hok. assert (exists s1, (if ch_needUpdateToDb it then (UpdatePermissionUsedRecordToDb (ch_record it) s).2 else s) = s1 /\
        records_are s1 (map (with_counts_of (ch_record it)) recs)) as (s1 & E1 & H1).
      { pose proof (co_entries _ _ Hok) as He. apply Forall_app in He as [_ [He _]%Forall_cons]. destruct (ch_needUpdateToDb it) eqn:En.
        - destruct (write_back (ch_record it) s recs) as (s1 & Eu & H1); [exact Hs| |apply Hok|rewrite Eu; exists s1; split; [reflexivity|exact H1]].
          apply valid_tokens. constructor; [apply He|apply Hok].
        - exists s. split; [reflexivity|]. rewrite unmerged_written; [exact Hs|exact He|apply Hok|exact En]. }
      rewrite E1 in Ev. destruct (drop_written _ _ _ _ Hok) as [Hok' Hl]. destruct (IH kept _ _ _ _ Ev H1 Hok') as (recs' & H2 & H3 & H4).
      exists recs'. split_and!; [exact H2|exact H3|]. rewrite H4. exact Hl.
Qed.

(** [AddRecord] adds to the ledger or, when the key of the new row is taken, fails. *)
Lemma AddRecord_refines r R recs ret R' : rec_inv R recs -> record_valid r -> counts_fit r (ledger_of R recs) -> AddRecord r R = (ret, R') ->
  (ret = SUCCESS /\ exists recs', rec_inv R' recs' /\ ledger_add r (ledger_of R recs) (ledger_of R' recs')) \/
  (ret <> SUCCESS /\ pk r ∈ map pk recs).
Proof.
  intros [Hrows Hok] Hv Hfit. unfold AddRecord, MergeOrInsertRecord. destruct (merge_loop r (permUsedRecList R)) as [l1|] eqn:Em.
  - change (SUCCESS =? SUCCESS) with true. cbn [negb permUsedRecList usedDb set_cache]. destruct (evict_loop _ _ _ _) as [l2 s2] eqn:Ev. intros [= <- <-]. left. split; [done|].
    apply merge_loop_split in Em as (kept & it & rest & Hl & Hm & ->).
    assert (exists c, c ∈ ledger_of R recs /\ c = ch_record it /\ record_valid c) as (c & Hc & -> & Hvc).
    { exists (ch_record it). pose proof (co_entries _ _ Hok) as He. rewrite Hl in He. apply Forall_app in He as [_ [(Hvi & r0 & Hr0 & Hk0 & _) _]%Forall_cons].
      split_and!; [|done|done]. apply list_elem_of_fmap. exists r0. split; [|done]. rewrite Hl. symmetry. apply cached_hit; [|done]. rewrite <- Hl. apply Hok. }
    unfold counts_fit in Hfit. rewrite Forall_forall in Hfit. destruct (Hfit _ Hc) as [Fa Fr].
    pose proof (valid_nonneg _ Hv). pose proof (valid_nonneg _ Hvc).
    rewrite (i32_small (pr_accessCount _ + _)), (i32_small (pr_rejectCount _ + _)) in Ev by (unfold is_i32; lia).
    fold (merged_with r (ch_record it)) in Ev. rewrite Hl in Hok.
    destruct (cache_change kept it (mkPermissionRecordCache (merged_with r (ch_record it)) true) rest recs) as (Hok' & L1 & L2 & El & El'); [done|by apply valid_merged|done| |].
    { cbn. unfold merged_with. eauto. }
    destruct (evict_loop_ok _ _ _ [] _ _ _ _ Ev Hrows Hok') as (recs' & H1 & H2 & H3). exists recs'. split; [by constructor|].
    unfold ledger_of. cbn [permUsedRecList set_db set_cache]. cbn [app] in H3. rewrite H3, Hl, El, El'. by constructor.
  - cbn [permUsedRecList usedDb set_cache]. unfold on_db. cbn [usedDb set_cache].
    destruct (insert_record r (usedDb R) recs) as (ret1 & s1 & Ea & Hcase); [done|apply valid_tokens; constructor; [done|apply Hok]|]. rewrite Ea.
    destruct Hcase as [(-> & Hnew & Hs1)|(Hne & Hin & Hs1)].
    + change (SUCCESS =? SUCCESS) with true. cbn [negb permUsedRecList usedDb set_db set_cache]. destruct (evict_loop _ _ _ _) as [l2 s2] eqn:Ev. intros [= <- <-]. left. split; [done|].
      destruct (cache_append _ _ _ Hok Hv Hnew) as [Hok' El]. destruct (evict_loop_ok _ _ _ [] _ _ _ _ Ev Hs1 Hok') as (recs' & H1 & H2 & H3).
      exists recs'. split; [by constructor|]. unfold ledger_of. cbn [permUsedRecList set_db set_cache]. cbn [app] in H3. rewrite H3, El. constructor.
      by rewrite ledger_pks.
    + rewrite (proj2 (Z.eqb_neq _ _) Hne). cbn [negb]. rewrite (proj2 (Z.eqb_neq _ _) Hne). cbn [negb]. intros [= <- <-]. by right.
Qed.
End Refines.
