(* ===== verification/PrivacyQueryTheory.v ===== *)
(** * What a query for used records reports

    The query selects rows, replaces the counts of those that the cache holds merged, and adds
    them up per bundle and permission.  Here: the values it reads are the records of the ledger,
    the conditions it builds are a predicate on records, and the sums it reports are sums over
    the ledger. *)

From stdpp Require Import base gmap list strings sorting.
From S2P Require Import Prelude AccessTokenTypes Validator Database InfoManagerTheory PrivacyTypes PrivacyRecordSet PrivacyUsage PrivacyDb PrivacyDbTheory PrivacyRecord PrivacyRecordTheory.
#[local] Open Scope string_scope.
#[local] Open Scope list_scope.
#[local] Open Scope Z_scope.

(** ** The value read for a record. *)
Definition value_of (r : PermissionRecord) : GenericValues := read_row (row_of r).

Lemma value_token r : is_u32 (pr_tokenId r) -> u32 (GetInt FIELD_TOKEN_ID (value_of r)) = pr_tokenId r.
Proof. intros H. change (u32 (i32 (i32 (pr_tokenId r))) = pr_tokenId r). by rewrite !u32_i32, u32_small. Qed.
Lemma value_op r : is_i32 (pr_opCode r) -> GetInt FIELD_OP_CODE (value_of r) = pr_opCode r.
Proof. intros H. change (i32 (pr_opCode r) = pr_opCode r). by apply i32_small. Qed.
Lemma value_status r : is_i32 (pr_status r) -> GetInt FIELD_STATUS (value_of r) = pr_status r.
Proof. intros H. change (i32 (pr_status r) = pr_status r). by apply i32_small. Qed.
Lemma value_type r : is_i32 (pr_type r) -> GetInt FIELD_USED_TYPE (value_of r) = pr_type r.
Proof. intros H. change (i32 (pr_type r) = pr_type r). by apply i32_small. Qed.
Lemma value_time r : GetInt64 FIELD_TIMESTAMP (value_of r) = pr_timestamp r.
Proof. reflexivity. Qed.
Lemma value_identity r : GetString FIELD_ENHANCED_IDENTITY (value_of r) = pr_enhancedIdentity r.
Proof. reflexivity. Qed.
Lemma value_access r : 0 <= pr_accessCount r < 2 ^ 31 -> GetInt FIELD_ACCESS_COUNT (value_of r) = pr_accessCount r.
Proof. intros H. change (i32 (pr_accessCount r) = pr_accessCount r). apply i32_small. unfold is_i32. lia. Qed.
Lemma value_reject r : 0 <= pr_rejectCount r < 2 ^ 31 -> GetInt FIELD_REJECT_COUNT (value_of r) = pr_rejectCount r.
Proof. intros H. change (i32 (pr_rejectCount r) = pr_rejectCount r). apply i32_small. unfold is_i32. lia. Qed.

Lemma value_row_of r c : record_valid r -> is_row_of (value_of r) c = bool_decide (pk r = pk c).
Proof.
  intros []. unfold is_row_of. rewrite value_token, value_op, value_status, value_type, value_time, value_identity by done.
  apply eq_true_iff_eq. rewrite bool_decide_eq_true, !andb_true_iff, !Z.eqb_eq, String.eqb_eq. unfold pk. split.
  - intros (((((-> & ->) & ->) & ->) & ->) & ->). done.
  - intros [= -> -> -> -> -> ->]. done.
Qed.
Lemma value_counts r a b : 0 <= a < 2 ^ 31 -> 0 <= b < 2 ^ 31 -> put_counts a b (value_of r) = value_of (set_counts a b r).
Proof.
  intros Ha Hb. assert (value_of (set_counts a b r) = put_counts (i32 a) (i32 b) (value_of r)) as -> by reflexivity.
  rewrite !i32_small by (unfold is_i32; lia). done.
Qed.

(** The values read, with the counts of the cache, are the records of the ledger. *)
Lemma value_instead cache recs r : cache_ok cache recs -> r ∈ recs ->
  InsteadMergedRecIfNecessary (map ch_record (filter (fun it => ch_needUpdateToDb it = true) cache)) (value_of r) = value_of (cached cache r).
Proof.
  intros Hok Hr. assert (record_valid r) as Hv by (pose proof (co_valid _ _ Hok) as Hv; rewrite Forall_forall in Hv; auto).
  unfold InsteadMergedRecIfNecessary, cached. destruct (find_if (same_pk r) cache) as [it|] eqn:E.
  - pose proof (find_if_Some _ _ _ E) as [Hit Hk%bool_decide_eq_true]. pose proof (co_entries _ _ Hok) as He. rewrite Forall_forall in He.
    destruct (He it Hit) as ([Hvi1 Hvi2 Hvk Hvi3 Hvi4 Hvi5 Hvi6] & r0 & Hr0 & Hk0 & Hw & Hn). assert (r0 = r) as -> by (eapply record_of_key; [apply Hok|done..|congruence]).
    destruct (find_if _ (map _ _)) as [c|] eqn:Ec.
    + apply find_if_Some in Ec as [(it' & -> & [Hm Hit']%list_elem_of_filter)%list_elem_of_fmap Hk']. rewrite value_row_of in Hk' by done. apply bool_decide_eq_true in Hk'.
      assert (it' = it) as -> by (eapply (NoDup_map_inj (fun it => pk (ch_record it)) cache); [apply Hok|done..|congruence]).
      rewrite value_counts by done. unfold with_counts_of in Hw. rewrite bool_decide_eq_true_2 in Hw by done. by rewrite Hw.
    + destruct (ch_needUpdateToDb it) eqn:En; [exfalso|by rewrite Hn]. rewrite find_if_None in Ec. specialize (Ec (ch_record it)).
      rewrite value_row_of, bool_decide_eq_true_2 in Ec by done. assert (true = false); [|done]. apply Ec. apply list_elem_of_fmap. exists it. split; [done|].
      by apply list_elem_of_filter.
  - rewrite find_if_None in E. assert (find_if (is_row_of (value_of r)) (map ch_record (filter (fun it => ch_needUpdateToDb it = true) cache)) = None) as ->; [|done].
    apply find_if_None. intros c (it & -> & [_ Hit]%list_elem_of_filter)%list_elem_of_fmap. rewrite value_row_of by done. by apply E.
Qed.

(** ** Counters. *)
Inductive counter := Accesses | PickerAccesses | Rejections.
Definition is_picker (type : Z) : bool := (type =? PICKER_TYPE) || (type =? SECURITY_COMPONENT_TYPE).
(** What a record counts, and what an entry of the answer shows. *)
Definition count_of (k : counter) (r : PermissionRecord) : Z :=
  match k with
  | Accesses => pr_accessCount r
  | PickerAccesses => if is_picker (pr_type r) then pr_accessCount r else 0
  | Rejections => pr_rejectCount r
  end.
Definition shown (k : counter) (p : PermissionUsedRecord) : Z :=
  match k with Accesses => pur_accessCount p | PickerAccesses => pur_secAccessCount p | Rejections => pur_rejectCount p end.
Definition name_of (opCode : Z) : string := (TransferOpcodeToPermission opCode "").2.

Lemma count_nonneg k r : record_valid r -> 0 <= count_of k r.
Proof. intros []. destruct k; cbn; [lia| |lia]. destruct (is_picker _); lia. Qed.

Lemma used_record flag r : record_valid r -> exists p, TranslationGenericValuesIntoPermissionUsedRecord flag (value_of r) = Some p /\
  pur_permissionName p = name_of (pr_opCode r) /\ pur_enhancedIdentity p = pr_enhancedIdentity r /\ forall k, shown k p = count_of k r.
Proof.
  intros [Ht Ho Hk Hs Hy Ha Hr]. unfold TranslationGenericValuesIntoPermissionUsedRecord, name_of.
  rewrite value_op, value_access, value_reject, value_type, value_identity by done.
  destruct (TransferOpcodeToPermission (pr_opCode r) "") as [known permission]. cbn in Hk. subst known. cbn [negb]. eexists. split; [reflexivity|]. cbn [pur_permissionName pur_enhancedIdentity].
  split_and!; [done|done|]. intros []; cbn [shown count_of pur_accessCount pur_secAccessCount pur_rejectCount]; fold (is_picker (pr_type r)).
  - destruct (Z.eqb_spec (pr_accessCount r) 0); cbn; lia.
  - destruct (Z.eqb_spec (pr_accessCount r) 0); cbn; destruct (is_picker _); lia.
  - destruct (Z.eqb_spec (pr_rejectCount r) 0); cbn; lia.
Qed.

(** ** Adding one record to the entries of a bundle. *)
Definition entry_is (name identity : string) (p : PermissionUsedRecord) : bool :=
  String.eqb (pur_permissionName p) name && String.eqb (pur_enhancedIdentity p) identity.
Definition shows_sum (x : PermissionUsedRecord) (p : PermissionUsedRecord) : Prop := forall k, 0 <= shown k p /\ shown k p + shown k x < 2 ^ 31.

Lemma merge_shown flag x p k : (forall k, 0 <= shown k x) -> shows_sum x p -> shown k (MergeSamePermission flag x p) = shown k p + shown k x.
Proof.
  intros Hx Hp. specialize (Hx k). specialize (Hp k). destruct k; cbn [shown MergeSamePermission pur_accessCount pur_secAccessCount pur_rejectCount] in *;
    apply i32_small; unfold is_i32; lia.
Qed.
Lemma merge_name flag x p : pur_permissionName (MergeSamePermission flag x p) = pur_permissionName p /\ pur_enhancedIdentity (MergeSamePermission flag x p) = pur_enhancedIdentity p.
Proof. done. Qed.
Opaque MergeSamePermission.

Lemma fill_sum flag x ps (f : PermissionUsedRecord -> bool) k : (forall k, 0 <= shown k x) -> Forall (shows_sum x) ps -> Forall (fun p => pur_enhancedIdentity p = pur_enhancedIdentity x) ps ->
  (forall p p', pur_permissionName p = pur_permissionName p' -> pur_enhancedIdentity p = pur_enhancedIdentity p' -> f p = f p') ->
  sum_where f (shown k) (FillPermissionUsedRecords x flag ps) = sum_where f (shown k) ps + (if f x then shown k x else 0).
Proof.
  intros Hx Hps Hid Hf. induction ps as [|p ps IH]; cbn [FillPermissionUsedRecords]; [by rewrite sum_where_cons, Z.add_comm|].
  apply Forall_cons in Hps as [Hp Hps]. apply Forall_cons in Hid as [Hi Hid].
  destruct (String.eqb_spec (pur_permissionName x) (pur_permissionName p)) as [E|E]; rewrite !sum_where_cons.
  - destruct (merge_name flag x p) as [N1 N2]. rewrite merge_shown by done. rewrite (Hf (MergeSamePermission flag x p) p), (Hf x p) by congruence. destruct (f p); lia.
  - rewrite IH by done. lia.
Qed.
Lemma fill_forall flag x ps (P : PermissionUsedRecord -> Prop) : (forall k, 0 <= shown k x) -> Forall (shows_sum x) ps -> Forall P ps -> P x ->
  (forall p q, P p -> pur_enhancedIdentity q = pur_enhancedIdentity p -> (forall k, shown k q = shown k p + shown k x) -> P q) -> Forall P (FillPermissionUsedRecords x flag ps).
Proof.
  intros Hx Hps HP HPx Hq. induction ps as [|p ps IH]; cbn [FillPermissionUsedRecords]; [by repeat constructor|]. apply Forall_cons in Hps as [Hp Hps]. apply Forall_cons in HP as [HP1 HP2].
  split_if; constructor; auto. apply (Hq p); [done|apply merge_name|]. intros k. by apply merge_shown.
Qed.
(** No two entries of a bundle are for one permission. *)
Lemma fill_names flag x ps : NoDup (map pur_permissionName ps) -> NoDup (map pur_permissionName (FillPermissionUsedRecords x flag ps)) /\
  (forall n, n ∈ map pur_permissionName (FillPermissionUsedRecords x flag ps) <-> n = pur_permissionName x \/ n ∈ map pur_permissionName ps).
Proof.
  induction ps as [|p ps IH]; cbn [FillPermissionUsedRecords map]; intros Hnd.
  - split; [apply NoDup_singleton|]. set_solver.
  - apply NoDup_cons in Hnd as [Hp Hnd]. destruct (IH Hnd) as [I1 I2]. destruct (String.eqb_spec (pur_permissionName x) (pur_permissionName p)) as [E|E]; cbn [map].
    + rewrite (proj1 (merge_name flag x p)). split; [by constructor|]. intros n. rewrite E. set_solver.
    + split; [|intros n; rewrite !elem_of_cons, I2; tauto]. constructor; [|done]. rewrite I2. intros [Hx|Hx]; [congruence|done].
Qed.

(** ** The keys of bundles. *)
Lemma first_separator_inj c s1 t1 s2 t2 : str_has c s1 = false -> str_has c s2 = false -> s1 +:+ String c t1 = s2 +:+ String c t2 -> s1 = s2 /\ t1 = t2.
Proof.
  revert s2. induction s1 as [|d s1 IH]; intros [|d2 s2] H1 H2 E; rewrite ?str_app_cons, ?str_app_nil in E; injection E.
  - by intros ->.
  - intros _ ->. cbn in H2. by rewrite Ascii.eqb_refl in H2.
  - intros _ ->. cbn in H1. by rewrite Ascii.eqb_refl in H1.
  - intros E' ->. cbn in H1, H2. apply orb_false_iff in H1 as [_ H1], H2 as [_ H2]. by destruct (IH s2 H1 H2 E') as [-> ->].
Qed.
Definition UNDERSCORE : Ascii.ascii := Ascii.ascii_of_nat 95.
Lemma number_no_underscore z : str_has UNDERSCORE (to_string z) = false.
Proof.
  assert (forall fuel n acc, str_has UNDERSCORE (print_digits fuel n acc) = str_has UNDERSCORE acc) as H.
  { induction fuel as [|fuel IH]; intros n acc; [done|]. cbn [print_digits].
    assert (str_has UNDERSCORE (String (digit_char (n mod 10)) acc) = str_has UNDERSCORE acc) as E.
    { cbn [str_has]. assert (Ascii.eqb (digit_char (n mod 10)) UNDERSCORE = false) as ->; [|done]. apply Ascii.eqb_neq. intros E.
      pose proof (digit_char_range (n mod 10) ltac:(apply N.mod_lt; lia)) as Hd. rewrite E in Hd. vm_compute in Hd. destruct Hd as [_ Hd]. by apply Hd. }
    split_if; [done|]. by rewrite IH. }
  unfold to_string, print_N. split_if; cbn [str_has]; by rewrite H.
Qed.
Lemma bundle_key_inj t i t' i' : BuildBundleMapKey t i = BuildBundleMapKey t' i' -> t = t' /\ i = i'.
Proof.
  change (to_string t +:+ String UNDERSCORE i = to_string t' +:+ String UNDERSCORE i' -> t = t' /\ i = i').
  intros [E ->]%first_separator_inj; [by apply to_string_inj in E|apply number_no_underscore..].
Qed.

(** ** Sums over an answer and over the ledger, of the entries that [h] selects by token,
    permission and identity. *)
Abbreviation selector := (Z -> string -> string -> bool).
Definition every : selector := fun _ _ _ => true.
Definition bundle_sum (h : selector) (k : counter) (b : BundleUsedRecord) : Z :=
  sum_where (fun p => h (bur_tokenId b) (pur_permissionName p) (pur_enhancedIdentity p)) (shown k) (bur_permissionRecords b).
Definition reported (h : selector) (k : counter) (bs : list BundleUsedRecord) : Z := zsum (map (bundle_sum h k) bs).
Definition selected_by (h : selector) (r : PermissionRecord) : bool := h (pr_tokenId r) (name_of (pr_opCode r)) (pr_enhancedIdentity r).
Definition recorded (h : selector) (k : counter) (L : list PermissionRecord) : Z := sum_where (selected_by h) (count_of k) L.

Definition map_reported (h : selector) (k : counter) (m : gmap string BundleUsedRecord) : Z := reported h k (map_to_list m).*2.
Lemma map_reported_insert h k m key b : map_reported h k (<[key := b]> m) = map_reported h k (delete key m) + bundle_sum h k b.
Proof.
  rewrite <- insert_delete_eq. unfold map_reported, reported. rewrite map_to_list_insert by apply lookup_delete_eq. rewrite fmap_cons. cbn [map]. rewrite zsum_cons. apply Z.add_comm.
Qed.
Lemma map_reported_at h k m key b : m !! key = Some b -> map_reported h k m = map_reported h k (delete key m) + bundle_sum h k b.
Proof. intros E. rewrite <- map_reported_insert. by rewrite insert_id. Qed.

Definition bundle_ok (key : string) (b : BundleUsedRecord) : Prop :=
  (exists identity, key = BuildBundleMapKey (bur_tokenId b) identity /\ Forall (fun p => pur_enhancedIdentity p = identity) (bur_permissionRecords b)) /\
  Forall (fun p => forall k, 0 <= shown k p) (bur_permissionRecords b) /\ NoDup (map pur_permissionName (bur_permissionRecords b)).
Record query_ok (q : QueryState) : Prop := {
  qo_keys : q_bundleKeySet q = dom (q_bundleMap q);
  qo_bundles : map_Forall bundle_ok (q_bundleMap q);
}.

Lemma bundle_sum_nonneg h k key b : bundle_ok key b -> 0 <= bundle_sum h k b.
Proof. intros (_ & Hs & _). apply sum_where_mono. eapply Forall_impl; [exact Hs|]. auto. Qed.
Lemma map_reported_nonneg h k m : map_Forall bundle_ok m -> 0 <= map_reported h k m.
Proof.
  intros Hm. unfold map_reported, reported. apply zsum_nonneg. apply Forall_fmap, Forall_fmap, Forall_forall. intros [key b] Hb%elem_of_map_to_list. cbn.
  eapply bundle_sum_nonneg. by apply Hm.
Qed.
(** An entry shows no more than the whole answer. *)
Lemma entry_le k m key b p : map_Forall bundle_ok m -> m !! key = Some b -> p ∈ bur_permissionRecords b -> shown k p <= map_reported every k m.
Proof.
  intros Hm Hb Hp. rewrite (map_reported_at _ _ _ _ _ Hb). pose proof (map_reported_nonneg every k (delete key m)) as H0.
  assert (map_Forall bundle_ok (delete key m)) as Hd by (by apply map_Forall_delete). specialize (H0 Hd).
  assert (shown k p <= bundle_sum every k b); [|lia]. unfold bundle_sum, sum_where. apply zsum_elem.
  - apply Forall_fmap. destruct (Hm _ _ Hb) as (_ & Hs & _). eapply Forall_impl; [exact Hs|]. cbn. auto.
  - apply list_elem_of_fmap. by exists p.
Qed.

Section Query.
Context {RS : RecordServices}.

Lemma create_bundle t identity q : query_ok q -> is_Some (GetHapTokenInfo t) ->
  exists q' b, CreateBundleUsedRecordIfNeeded t (BuildBundleMapKey t identity) q = (true, q') /\ query_ok q' /\ q_bundleMap q' !! BuildBundleMapKey t identity = Some b /\
    bur_tokenId b = t /\ forall h k, map_reported h k (q_bundleMap q') = map_reported h k (q_bundleMap q).
Proof.
  intros [Hk Hb] [info Hi]. unfold CreateBundleUsedRecordIfNeeded. case_bool_decide as Hin.
  - rewrite Hk in Hin. apply elem_of_dom in Hin as [b Eb]. exists q, b. split_and!; [done|done|done| |done].
    destruct (Hb _ _ Eb) as ((i & E & _) & _). by apply bundle_key_inj in E as [-> _].
  - rewrite Hk in Hin. apply not_elem_of_dom in Hin. unfold CreateBundleUsedRecord. rewrite Hi. eexists _, _. split; [reflexivity|]. cbn [q_bundleMap q_bundleKeySet]. split_and!.
    + split; cbn [q_bundleMap q_bundleKeySet].
      * rewrite dom_insert_L, Hk. done.
      * apply map_Forall_insert_2; [|done]. unfold bundle_ok. cbn. split_and!; [by exists identity|constructor|constructor].
    + apply lookup_insert_eq.
    + done.
    + intros h k. rewrite map_reported_insert, delete_id by done. change (bundle_sum h k _) with 0. lia.
Qed.

(** One record of the ledger. *)
Lemma query_step flag c q : query_ok q -> record_valid c -> is_Some (GetHapTokenInfo (pr_tokenId c)) ->
  (forall k, map_reported every k (q_bundleMap q) + count_of k c < 2 ^ 31) ->
  forall q', query_row [] flag q (value_of c) = q' ->
  query_ok q' /\ forall h k, map_reported h k (q_bundleMap q') = map_reported h k (q_bundleMap q) + (if selected_by h c then count_of k c else 0).
Proof.
  intros Hq Hv Hi Hfit q'. unfold query_row. cbn [InsteadMergedRecIfNecessary find_if]. rewrite value_token, value_identity by apply Hv.
  destruct (create_bundle (pr_tokenId c) (pr_enhancedIdentity c) q Hq Hi) as (q1 & b & -> & Hq1 & Eb & Etok & Hsame). cbn [negb]. unfold FillBundleUsedRecord.
  destruct (used_record flag c Hv) as (x & -> & Hname & Hid & Hshown). destruct (widen _ _ _) as [bg en]. intros <-. rewrite value_token, value_identity by apply Hv.
  rewrite Eb. change (default default_BundleUsedRecord (Some b)) with b. pose proof (qo_bundles _ Hq1) as Hm. destruct (Hm _ _ Eb) as ((i & Ek & Hids) & Hnn & Hnd). rewrite Etok in Ek. apply bundle_key_inj in Ek as [_ <-].
  assert (forall k, 0 <= shown k x) as Hx by (intros k; rewrite Hshown; by apply count_nonneg).
  assert (Forall (shows_sum x) (bur_permissionRecords b)) as Hss.
  { apply Forall_forall. intros p Hp k. rewrite Hshown. specialize (Hfit k). rewrite <- Hsame in Hfit. pose proof (entry_le k _ _ _ _ Hm Eb Hp).
    rewrite Forall_forall in Hnn. specialize (Hnn p Hp k). lia. }
  assert (Forall (fun p => pur_enhancedIdentity p = pur_enhancedIdentity x) (bur_permissionRecords b)) as Hids' by (rewrite Hid; exact Hids).
  split.
  - split; cbn [q_bundleKeySet q_bundleMap].
    + rewrite dom_insert_L, (qo_keys _ Hq1). apply elem_of_dom_2 in Eb. set_solver.
    + apply map_Forall_insert_2; [|done]. unfold bundle_ok. cbn [bur_tokenId bur_permissionRecords set_bur_records]. rewrite Etok. split_and!.
      * exists (pr_enhancedIdentity c). split; [done|]. apply fill_forall; [done|done|done|done|]. by intros p p' -> ->.
      * apply fill_forall; [done|done|done|done|]. intros p p' H1 _ H2 k. rewrite H2. specialize (H1 k). specialize (Hx k). lia.
      * by apply fill_names.
  - intros h k. cbn [q_bundleMap]. rewrite map_reported_insert, <- Hsame, (map_reported_at h k _ _ _ Eb).
    assert (bundle_sum h k (set_bur_records (FillPermissionUsedRecords x flag (bur_permissionRecords b)) b) =
      bundle_sum h k b + (if selected_by h c then count_of k c else 0)) as ->; [|lia].
    unfold bundle_sum. cbn [bur_tokenId bur_permissionRecords set_bur_records]. rewrite fill_sum; [|done|done|done|congruence].
    rewrite Hname, Hid, Etok, Hshown. done.
Qed.

Lemma query_fold flag L : forall q, query_ok q -> Forall record_valid L -> Forall (fun c => is_Some (GetHapTokenInfo (pr_tokenId c))) L ->
  (forall k, map_reported every k (q_bundleMap q) + recorded every k L < 2 ^ 31) ->
  query_ok (fold_left (query_row [] flag) (map value_of L) q) /\
  forall h k, map_reported h k (q_bundleMap (fold_left (query_row [] flag) (map value_of L) q)) = map_reported h k (q_bundleMap q) + recorded h k L.
Proof.
  induction L as [|c L IH]; intros q Hq Hv Hi Hfit; cbn [map fold_left].
  - split; [done|]. intros h k. change (recorded h k []) with 0. lia.
  - apply Forall_cons in Hv as [Hvc Hv], Hi as [Hic Hi]. assert (forall k, 0 <= recorded every k L) as Hnn.
    { intros k. unfold recorded. apply sum_where_mono. eapply Forall_impl; [exact Hv|]. intros r Hr. by apply count_nonneg. }
    assert (forall h k, recorded h k (c :: L) = (if selected_by h c then count_of k c else 0) + recorded h k L) as Hcons by done.
    destruct (query_step flag c q Hq Hvc Hic) with (q' := query_row [] flag q (value_of c)) as [Hq' Hs]; [|done|].
    + intros k. specialize (Hfit k). specialize (Hnn k). rewrite Hcons in Hfit. change (selected_by every c) with true in Hfit. cbv iota in Hfit. lia.
    + destruct (IH _ Hq' Hv Hi) as [H1 H2].
      * intros k. specialize (Hfit k). rewrite Hcons in Hfit. rewrite Hs. change (selected_by every c) with true in *. cbv iota in *. lia.
      * split; [done|]. intros h k. rewrite H2, Hs, Hcons. lia.
Qed.
End Query.

(** ** Which records a request selects. *)
Definition window (now now' : Z) (request : PermissionUsedRequest) : Z * Z :=
  if (rq_beginTimeMillis request =? 0) && (rq_endTimeMillis request =? 0) then (Z.max 0 (now - LATEST_RECORD_TIME), now')
  else (rq_beginTimeMillis request, rq_endTimeMillis request).
Definition flag_selects (flag : Z) (r : PermissionRecord) : bool :=
  if flag =? FLAG_PERMISSION_USAGE_SUMMARY_IN_SCREEN_LOCKED then pr_lockScreenStatus r =? PERM_ACTIVE_IN_LOCKED
  else if flag =? FLAG_PERMISSION_USAGE_SUMMARY_IN_SCREEN_UNLOCKED then pr_lockScreenStatus r =? PERM_ACTIVE_IN_UNLOCKED
  else if flag =? FLAG_PERMISSION_USAGE_SUMMARY_IN_APP_BACKGROUND then pr_status r =? PERM_ACTIVE_IN_BACKGROUND
  else if flag =? FLAG_PERMISSION_USAGE_SUMMARY_IN_APP_FOREGROUND then pr_status r =? PERM_ACTIVE_IN_FOREGROUND
  else if flag =? FLAG_PERMISSION_SECURITY_ACCESS_DETAIL then is_picker (pr_type r)
  else true.
Definition names_select (permissionList : list string) (opCode : Z) : bool :=
  match permissionList with [] => true | _ => existsb (fun p => bool_decide (TransferPermissionToOpcode p = Some opCode)) permissionList end.
Definition selects (now now' : Z) (request : PermissionUsedRequest) (r : PermissionRecord) : bool :=
  ((rq_tokenId request =? 0) || (pr_tokenId r =? rq_tokenId request)) &&
  (((window now now' request).1 =? 0) || ((window now now' request).1 <=? pr_timestamp r)) &&
  (((window now now' request).2 =? 0) || (pr_timestamp r <=? (window now now' request).2)) &&
  flag_selects (rq_flag request) r && names_select (rq_permissionList request) (pr_opCode r).

(** The fields of the translated request. *)
Definition flag_field (P : string -> VariantValue -> Prop) (flag : Z) : Prop :=
  if flag =? FLAG_PERMISSION_USAGE_SUMMARY_IN_SCREEN_LOCKED then P FIELD_LOCKSCREEN_STATUS (TYPE_INT PERM_ACTIVE_IN_LOCKED)
  else if flag =? FLAG_PERMISSION_USAGE_SUMMARY_IN_SCREEN_UNLOCKED then P FIELD_LOCKSCREEN_STATUS (TYPE_INT PERM_ACTIVE_IN_UNLOCKED)
  else if flag =? FLAG_PERMISSION_USAGE_SUMMARY_IN_APP_BACKGROUND then P FIELD_STATUS (TYPE_INT PERM_ACTIVE_IN_BACKGROUND)
  else if flag =? FLAG_PERMISSION_USAGE_SUMMARY_IN_APP_FOREGROUND then P FIELD_STATUS (TYPE_INT PERM_ACTIVE_IN_FOREGROUND)
  else if flag =? FLAG_PERMISSION_SECURITY_ACCESS_DETAIL then P FIELD_USED_TYPE (TYPE_INT NORMAL_TYPE)
  else True.
Lemma times_fields (P : string -> VariantValue -> Prop) now now' bg en v : v !! FIELD_TIMESTAMP_BEGIN = None -> v !! FIELD_TIMESTAMP_END = None ->
  let w := if (bg =? 0) && (en =? 0) then (Z.max 0 (now - LATEST_RECORD_TIME), now') else (bg, en) in
  map_Forall P (put_times now now' bg en v) <-> map_Forall P v /\ (w.1 <> 0 -> P FIELD_TIMESTAMP_BEGIN (TYPE_INT64 w.1)) /\ (w.2 <> 0 -> P FIELD_TIMESTAMP_END (TYPE_INT64 w.2)).
Proof.
  intros H1 H2. cbv zeta. unfold put_times. destruct (if (bg =? 0) && (en =? 0) then _ else _) as [x y]. cbn [fst snd].
  destruct (Z.eqb_spec x 0) as [->|Hx], (Z.eqb_spec y 0) as [->|Hy]; cbn [negb].
  - tauto.
  - rewrite map_Forall_Put by done. tauto.
  - rewrite map_Forall_Put by done. tauto.
  - rewrite !map_Forall_Put; [tauto|done|]. by rewrite Put_lookup_ne.
Qed.
Lemma put_times_lookup now now' bg en k v : k <> FIELD_TIMESTAMP_BEGIN -> k <> FIELD_TIMESTAMP_END -> put_times now now' bg en v !! k = v !! k.
Proof. intros H1 H2. unfold put_times. destruct (if (bg =? 0) && (en =? 0) then _ else _) as [x y]. destruct (negb (x =? 0)), (negb (y =? 0)); by rewrite ?Put_lookup_ne by done. Qed.
Lemma request_fields (P : string -> VariantValue -> Prop) now now' request v : Request_TranslationIntoGenericValues now now' request = Some v ->
  (map_Forall P v <-> P FIELD_TOKEN_ID (TYPE_INT (i32 (rq_tokenId request))) /\
    ((window now now' request).1 <> 0 -> P FIELD_TIMESTAMP_BEGIN (TYPE_INT64 (window now now' request).1)) /\
    ((window now now' request).2 <> 0 -> P FIELD_TIMESTAMP_END (TYPE_INT64 (window now now' request).2)) /\ flag_field P (rq_flag request)) /\
  v !! FIELD_TOKEN_ID = Some (TYPE_INT (i32 (rq_tokenId request))).
Proof.
  unfold Request_TranslationIntoGenericValues. split_if; [done|]. split_if; [done|]. intros [= <-].
  set (v0 := put_times _ _ _ _ _). assert (map_Forall P v0 <-> P FIELD_TOKEN_ID (TYPE_INT (i32 (rq_tokenId request))) /\
    ((window now now' request).1 <> 0 -> P FIELD_TIMESTAMP_BEGIN (TYPE_INT64 (window now now' request).1)) /\
    ((window now now' request).2 <> 0 -> P FIELD_TIMESTAMP_END (TYPE_INT64 (window now now' request).2))) as H0.
  { subst v0. rewrite times_fields by reflexivity. fold (window now now' request). rewrite map_Forall_Put by reflexivity.
    pose proof (map_Forall_empty P). tauto. }
  assert (forall k, k <> FIELD_TIMESTAMP_BEGIN -> k <> FIELD_TIMESTAMP_END -> k <> FIELD_TOKEN_ID -> v0 !! k = None) as Hf.
  { intros k H1 H2 H3. subst v0. rewrite put_times_lookup by done. by rewrite Put_lookup_ne. }
  assert (v0 !! FIELD_TOKEN_ID = Some (TYPE_INT (i32 (rq_tokenId request)))) as Ht.
  { subst v0. rewrite put_times_lookup by done. reflexivity. }
  unfold flag_field. repeat (split_if; [rewrite map_Forall_Put by (by apply Hf); rewrite H0, Put_lookup_ne by done; split; [tauto|done]|]).
  rewrite H0. split; [tauto|done].
Qed.

(** The condition on one field. *)
Definition field_cond (tokenId : Z) (name : string) : list Cond :=
  if String.eqb name FIELD_TIMESTAMP_BEGIN || String.eqb name FIELD_TIMESTAMP_END then [time_cond name]
  else if String.eqb name FIELD_TOKEN_ID then (if negb (tokenId =? 0) then [ColumnEq FIELD_TOKEN_ID name] else [])
  else if String.eqb name FIELD_USED_TYPE then [ColumnIn FIELD_USED_TYPE [PICKER_TYPE; SECURITY_COMPONENT_TYPE]]
  else [ColumnEq name name].
Lemma select_cmd tokenId t ops cols n : CreateSelectByConditionPrepareSqlCmd tokenId t ops cols n =
  SqlSelectLatest (tableName_ t) (concat (map (field_cond tokenId) cols) ++ opcode_cond ops) n.
Proof. done. Qed.

Definition field_binding (k : string) (x : VariantValue) : Bindings := match bind_value x with Some y => {[k := y]} | None => ∅ end.
Lemma field_cond_binding tokenId v k x r : v !! k = Some x ->
  conds_hold (Bind (delete FIELD_USED_TYPE v) ∅) (field_cond tokenId k) r = conds_hold (field_binding k x) (field_cond tokenId k) r.
Proof.
  intros Hk. destruct (String.eqb_spec k FIELD_USED_TYPE) as [->|Hn]; [reflexivity|].
  assert (Bind (delete FIELD_USED_TYPE v) ∅ !! k = field_binding k x !! k) as E.
  { unfold Bind, field_binding. rewrite map_union_empty, lookup_omap, lookup_delete_ne, Hk by done. cbn. destruct (bind_value x); [by rewrite lookup_singleton_eq|by rewrite lookup_empty]. }
  unfold field_cond, time_cond. repeat split_if; unfold conds_hold; cbn [forallb cond_holds]; rewrite ?E; done.
Qed.
Lemma forallb_concat {A B} (f : B -> bool) (g : A -> list B) l : forallb f (concat (map g l)) = forallb (fun x => forallb f (g x)) l.
Proof. induction l as [|x l IH]; [done|]. cbn. by rewrite forallb_app, IH. Qed.
Lemma forallb_map {A B} (f : B -> bool) (g : A -> B) l : forallb f (map g l) = forallb (fun x => f (g x)) l.
Proof. induction l as [|x l IH]; [done|]. cbn. by rewrite IH. Qed.
Lemma forallb_keys (p : string -> bool) v : forallb p (GetAllKeys v) = true <-> map_Forall (fun k _ => p k = true) v.
Proof.
  unfold GetAllKeys. rewrite forallb_forall, map_Forall_to_list, Forall_forall. split.
  - intros H [k x] Hk. apply H. apply list_elem_of_In, list_elem_of_fmap. by exists (k, x).
  - intros H k ((k' & x) & -> & Hk)%list_elem_of_In%list_elem_of_fmap. exact (H _ Hk).
Qed.
Lemma fields_hold tokenId v r : conds_hold (Bind (delete FIELD_USED_TYPE v) ∅) (concat (map (field_cond tokenId) (GetAllKeys v))) r = true <->
  map_Forall (fun k x => conds_hold (field_binding k x) (field_cond tokenId k) r = true) v.
Proof.
  unfold conds_hold at 1. rewrite forallb_concat. change (forallb (cond_holds ?b r) (field_cond tokenId ?k)) with (conds_hold b (field_cond tokenId k) r).
  rewrite forallb_keys. split; intros H k x Hk; specialize (H k x Hk); cbv beta in *; [rewrite <- (field_cond_binding _ v) by done; exact H|].
  fold (conds_hold (Bind (delete FIELD_USED_TYPE v) ∅) (field_cond tokenId k) r). by rewrite (field_cond_binding _ v k x).
Qed.

Lemma opcode_valid p op : TransferPermissionToOpcode p = Some op -> op <> OP_INVALID.
Proof.
  unfold TransferPermissionToOpcode. destruct (find_if _ _) as [it|] eqn:E; [|done]. intros [= <-]. apply find_if_Some in E as [Hin _].
  assert (Forall (fun x : string * Z => x.2 <> OP_INVALID) PERMISSION_OPCODE_MAP) as Hall by (apply (bool_decide_unpack _); vm_compute; exact I).
  rewrite Forall_forall in Hall. by apply Hall.
Qed.
Lemma names_hold b names r : conds_hold b (opcode_cond (TransferToOpcode names)) (row_of r) = names_select names (pr_opCode r).
Proof.
  set (codes := map (fun p => default OP_INVALID (TransferPermissionToOpcode p)) names). assert (forall z, z ∈ TransferToOpcode names <-> z ∈ codes) as He.
  { intros z. unfold TransferToOpcode. rewrite elem_of_elements, elem_of_list_to_set. done. }
  unfold opcode_cond, names_select. destruct names as [|p0 names].
  { destruct (TransferToOpcode []) as [|z l] eqn:E; [done|]. exfalso. assert (z ∈ codes) as Hz by (apply He; left). by apply elem_of_nil in Hz. }
  destruct (TransferToOpcode (p0 :: names)) as [|z0 l] eqn:E.
  { exfalso. assert (default OP_INVALID (TransferPermissionToOpcode p0) ∈ []) as Hz; [|by apply elem_of_nil in Hz]. apply He. subst codes. left. }
  rewrite <- E in *. clear E z0 l. unfold conds_hold. cbn [forallb cond_holds]. rewrite andb_true_r. change (row_of r !! FIELD_OP_CODE) with (Some (VInt (pr_opCode r))). cbv iota.
  apply eq_true_iff_eq. rewrite bool_decide_eq_true, list_elem_of_filter, He, existsb_exists. subst codes. split.
  - intros (Hn & (p & Hp & Hin)%list_elem_of_fmap). exists p. split; [by apply list_elem_of_In|]. apply bool_decide_eq_true. destruct (TransferPermissionToOpcode p); cbn in Hp; congruence.
  - intros (p & Hin%list_elem_of_In & Hp%bool_decide_eq_true). split; [by eapply opcode_valid|]. apply list_elem_of_fmap. exists p. by rewrite Hp.
Qed.

Lemma and4_iff (A B C D A' B' C' D' : Prop) : (A <-> A') -> (B <-> B') -> (C <-> C') -> (D <-> D') -> (A /\ B /\ C /\ D <-> ((A' /\ B') /\ C') /\ D').
Proof. tauto. Qed.
Lemma selects_row now now' request v r : Request_TranslationIntoGenericValues now now' request = Some v -> is_u32 (rq_tokenId request) -> is_u32 (pr_tokenId r) ->
  conds_hold (Bind (delete FIELD_USED_TYPE v) ∅) (concat (map (field_cond (i32 (rq_tokenId request))) (GetAllKeys v)) ++ opcode_cond (TransferToOpcode (rq_permissionList request))) (row_of r)
  = selects now now' request r.
Proof.
  intros Hv Hq Hr. unfold conds_hold at 1. rewrite forallb_app. fold (conds_hold (Bind (delete FIELD_USED_TYPE v) ∅) (opcode_cond (TransferToOpcode (rq_permissionList request))) (row_of r)).
  fold (conds_hold (Bind (delete FIELD_USED_TYPE v) ∅) (concat (map (field_cond (i32 (rq_tokenId request))) (GetAllKeys v))) (row_of r)).
  rewrite names_hold. unfold selects. f_equal. apply eq_true_iff_eq. rewrite fields_hold. rewrite (proj1 (request_fields _ _ _ _ _ Hv)).
  rewrite !andb_true_iff, !orb_true_iff, !Z.eqb_eq, !Z.leb_le. apply and4_iff.
  - change (conds_hold _ _ _) with (forallb (cond_holds {[FIELD_TOKEN_ID := VInt (i32 (rq_tokenId request))]} (row_of r))
      (if negb (i32 (rq_tokenId request) =? 0) then [ColumnEq FIELD_TOKEN_ID FIELD_TOKEN_ID] else [])).
    destruct (Z.eqb_spec (i32 (rq_tokenId request)) 0) as [E|E]; cbn [negb forallb cond_holds].
    + split; [intros _; left|done]. apply (i32_inj _ 0); [done|by split|done].
    + rewrite andb_true_r, lookup_singleton_eq. change (row_of r !! FIELD_TOKEN_ID) with (Some (VInt (i32 (pr_tokenId r)))). cbv iota. rewrite bool_decide_eq_true. split.
      * intros [= E']. right. by apply i32_inj.
      * intros [E0 | ->]; [rewrite E0 in E; by destruct E|done].
  - set (b := (window now now' request).1). change (conds_hold _ _ _ = true) with ((b <=? pr_timestamp r) && true = true). rewrite andb_true_r, Z.leb_le. lia.
  - set (b := (window now now' request).2). change (conds_hold _ _ _ = true) with ((pr_timestamp r <=? b) && true = true). rewrite andb_true_r, Z.leb_le. lia.
  - unfold flag_field, flag_selects.
    repeat (split_if; [change (conds_hold _ _ _ = true) with (bool_decide (Some (VInt (pr_lockScreenStatus r)) = Some (VInt PERM_ACTIVE_IN_LOCKED)) && true = true) ||
      change (conds_hold _ _ _ = true) with (bool_decide (Some (VInt (pr_lockScreenStatus r)) = Some (VInt PERM_ACTIVE_IN_UNLOCKED)) && true = true) ||
      change (conds_hold _ _ _ = true) with (bool_decide (Some (VInt (pr_status r)) = Some (VInt PERM_ACTIVE_IN_BACKGROUND)) && true = true) ||
      change (conds_hold _ _ _ = true) with (bool_decide (Some (VInt (pr_status r)) = Some (VInt PERM_ACTIVE_IN_FOREGROUND)) && true = true) ||
      change (conds_hold _ _ _ = true) with (bool_decide (pr_type r ∈ [PICKER_TYPE; SECURITY_COMPONENT_TYPE]) && true = true);
      rewrite andb_true_r, bool_decide_eq_true|]).
    + rewrite Z.eqb_eq. split; congruence.
    + rewrite Z.eqb_eq. split; congruence.
    + rewrite Z.eqb_eq. split; congruence.
    + rewrite Z.eqb_eq. split; congruence.
    + unfold is_picker. rewrite orb_true_iff, !Z.eqb_eq, elem_of_cons, list_elem_of_singleton. done.
    + done.
Qed.

(** ** The query. *)
Definition query_limit (recordSizeMaximum : Z) (request : PermissionUsedRequest) : Z :=
  if (rq_flag request =? FLAG_PERMISSION_USAGE_DETAIL) || (rq_flag request =? FLAG_PERMISSION_SECURITY_ACCESS_DETAIL) then MAX_ACCESS_RECORD_SIZE
  else recordSizeMaximum.

Lemma selects_cached now now' request cache recs r : cache_ok cache recs -> r ∈ recs -> selects now now' request (cached cache r) = selects now now' request r.
Proof.
  intros Hok Hr. unfold cached. destruct (find_if _ _) as [it|] eqn:E; [|done]. apply find_if_Some in E as [Hit Hk%bool_decide_eq_true].
  pose proof (co_entries _ _ Hok) as He. rewrite Forall_forall in He. destruct (He it Hit) as (_ & r0 & Hr0 & Hk0 & Hw & _).
  assert (r0 = r) as -> by (eapply record_of_key; [apply Hok|done..|congruence]). rewrite <- Hw. unfold with_counts_of. by case_bool_decide.
Qed.
Lemma filter_map_ext {A} (p q : A -> bool) (f : A -> A) l : (forall x, x ∈ l -> q (f x) = p x) ->
  filter (fun x => q x = true) (map f l) = map f (filter (fun x => p x = true) l).
Proof.
  intros H. induction l as [|x l IH]; [done|]. cbn [map]. rewrite !filter_cons, (H x), IH; [|intros y Hy; apply H; by right|left]. by destruct (decide (p x = true)).
Qed.
Lemma ledger_valid cache recs : cache_ok cache recs -> Forall record_valid (ledger cache recs).
Proof.
  intros Hok. apply Forall_fmap, Forall_forall. intros r Hr. cbn. unfold cached. pose proof (co_valid _ _ Hok) as Hv. rewrite Forall_forall in Hv.
  destruct (find_if _ _) as [it|] eqn:E; [|auto]. apply find_if_Some in E as [Hit _]. pose proof (co_entries _ _ Hok) as He. rewrite Forall_forall in He. apply (He it Hit).
Qed.
Lemma cached_token cache r : pr_tokenId (cached cache r) = pr_tokenId r.
Proof. unfold cached. destruct (find_if _ _) as [it|] eqn:E; [|done]. apply find_if_Some in E as [_ E%bool_decide_eq_true]. unfold pk in E. congruence. Qed.
Lemma Permutation_map_inv_l {A B} (f : A -> B) l1 l2 : l1 ≡ₚ map f l2 -> exists l3, l1 = map f l3 /\ l3 ≡ₚ l2.
Proof. intros H. destruct (Permutation_map_inv f l2 H) as (l3 & -> & Hp). exists l3. split; [done|by symmetry]. Qed.

Lemma reported_perm h k bs bs' : bs ≡ₚ bs' -> reported h k bs = reported h k bs'.
Proof. intros H. unfold reported. by rewrite H. Qed.
Lemma in_order_perm {A} (m : gmap string A) : in_order m ≡ₚ (map_to_list m).*2.
Proof. unfold in_order. by rewrite merge_sort_Permutation. Qed.

Section QueryRefines.
Context {RS : RecordServices} {St : Type} `{!SqlStore St, !SqlStoreLaws St, !SqlReliable St}.
Implicit Types (s : St) (R : Records St).

Lemma request_columns now now' request v t : Request_TranslationIntoGenericValues now now' request = Some v ->
  known_columns CreatePermissionRecordTable (map cond_column (concat (map (field_cond t) (GetAllKeys v)) ++ opcode_cond (TransferToOpcode (rq_permissionList request)))) = true.
Proof.
  intros Hv. unfold known_columns. rewrite forallb_map, forallb_app, forallb_concat. apply andb_true_iff. split.
  - rewrite forallb_keys, (proj1 (request_fields _ _ _ _ _ Hv)). split_and!; [|done|done|unfold flag_field; by repeat split_if].
    unfold field_cond. by destruct (t =? 0).
  - unfold opcode_cond. by destruct (TransferToOpcode _).
Qed.
Lemma find_records now now' request v limit s recs : Request_TranslationIntoGenericValues now now' request = Some v -> is_u32 (rq_tokenId request) ->
  records_are s recs -> tokens_fit recs -> Z.of_nat (length (filter (fun r => selects now now' request r = true) recs)) <= limit ->
  exists found s', FindByConditions (dataTypeToSqlTable_ PERMISSION_RECORD) (TransferToOpcode (rq_permissionList request)) v limit s = (SUCCESS, map value_of found, s') /\
    records_are s' recs /\ found ≡ₚ filter (fun r => selects now now' request r = true) recs.
Proof.
  intros Hv Hq Hs Hf Hl. unfold FindByConditions. assert (GetInt FIELD_TOKEN_ID v = i32 (rq_tokenId request)) as ->.
  { unfold GetInt. by rewrite (proj2 (request_fields (fun _ _ => True) _ _ _ _ Hv)). }
  rewrite select_cmd. set (conds := concat _ ++ _). set (b := Bind _ _).
  assert (forall T, run_sql (SqlSelectLatest PERMISSION_RECORD_TABLE conds limit) b T =
    Some (take (Z.to_nat limit) (merge_sort later (filter (fun r => conds_hold b conds r = true) (T PERMISSION_RECORD_TABLE))), T)) as Hr.
  { intros T. unfold run_sql. change (find_table PERMISSION_RECORD_TABLE) with (Some CreatePermissionRecordTable). cbv beta iota. subst conds. by rewrite (request_columns _ _ _ _ _ Hv). }
  destruct (read_done _ _ _ _ _ (Hr (sql_rows s)) eq_refl) as (rows & s' & T & Es & HT & (T2 & Hr2) & Hsame). rewrite Hr in Hr2. injection Hr2 as Hrows _.
  change (tableName_ _) with PERMISSION_RECORD_TABLE. rewrite Es. clear Es.
  assert (filter (fun r => conds_hold b conds r = true) (T PERMISSION_RECORD_TABLE) ≡ₚ map row_of (filter (fun r => selects now now' request r = true) recs)) as Hp.
  { rewrite (HT PERMISSION_RECORD_TABLE). unfold records_are in Hs. rewrite Hs. apply reflexive_eq. clear -Hv Hq Hf. unfold tokens_fit in Hf. induction recs as [|r recs IH]; [done|].
    apply Forall_cons in Hf as [Hr Hf]. cbn [map]. rewrite !filter_cons, IH by done. subst conds b. rewrite (selects_row _ _ _ _ _ Hv Hq Hr). by destruct (decide (selects now now' request r = true)). }
  rewrite take_ge in Hrows.
  - rewrite <- (merge_sort_Permutation later) in Hp. rewrite Hrows in Hp. apply Permutation_map_inv_l in Hp as (found & -> & Hp). exists found, s'. split_and!; [by rewrite map_map| |done].
    unfold records_are. rewrite (Hsame PERMISSION_RECORD_TABLE). exact Hs.
  - rewrite merge_sort_Permutation, Hp, length_map. lia.
Qed.

Lemma query_rows_cached merged flag cache recs found q : cache_ok cache recs -> merged = map ch_record (filter (fun it => ch_needUpdateToDb it = true) cache) ->
  (forall r, r ∈ found -> r ∈ recs) ->
  fold_left (query_row merged flag) (map value_of found) q = fold_left (query_row [] flag) (map value_of (map (cached cache) found)) q.
Proof.
  intros Hok -> Hin. revert q. induction found as [|r found IH]; intros q; [done|]. cbn [map fold_left]. rewrite <- IH by (intros x Hx; apply Hin; by right).
  f_equal. unfold query_row. rewrite (value_instead cache recs) by (done || apply Hin; left). done.
Qed.

Lemma query_refines now now' recordSizeMaximum request R recs v :
  rec_inv R recs -> Request_TranslationIntoGenericValues now now' request = Some v -> is_u32 (rq_tokenId request) -> rq_isRemote request = false ->
  let L := filter (fun r => selects now now' request r = true) (ledger_of R recs) in
  Z.of_nat (length L) <= query_limit recordSizeMaximum request ->
  Forall (fun c => is_Some (GetHapTokenInfo (pr_tokenId c))) L -> (forall k, recorded every k L < 2 ^ 31) ->
  exists result R', GetPermissionUsedRecords now now' recordSizeMaximum request R = (SUCCESS, result, R') /\ rec_inv R' recs /\ ledger_of R' recs = ledger_of R recs /\
    forall h k, reported h k (res_bundleRecords result) = recorded h k L.
Proof.
  intros [Hrows Hok] Hv Hq Hrem. cbv zeta. unfold ledger_of, ledger. rewrite (filter_map_ext (selects now now' request)) by (intros r Hr; by eapply selects_cached).
  intros Hl Hi Hfit. unfold GetPermissionUsedRecords, GetRecordsFromLocalDB. rewrite Hrem, Hv. cbn [negb]. fold (query_limit recordSizeMaximum request).
  destruct (find_records now now' request v (query_limit recordSizeMaximum request) (usedDb R) recs) as (found & s' & -> & Hs' & Hp); [done|done|done|apply valid_tokens, Hok| |].
  { by rewrite length_map in Hl. }
  eexists _, _. split; [reflexivity|]. cbn [permUsedRecList set_db res_bundleRecords]. split; [|split; [reflexivity|]].
  - split; [exact Hs'|exact Hok].
  - intros h k. rewrite (query_rows_cached _ _ (permUsedRecList R) recs); [|exact Hok|reflexivity|].
    2: { intros r Hr. rewrite Hp in Hr. by apply list_elem_of_filter in Hr as [_ ?]. }
    assert (map (cached (permUsedRecList R)) found ≡ₚ map (cached (permUsedRecList R)) (filter (fun r => selects now now' request r = true) recs)) as Hp' by (by rewrite Hp).
    destruct (query_fold (rq_flag request) (map (cached (permUsedRecList R)) found) (mkQueryState ∅ ∅ 0 0)) as [_ H].
    + split; [done|apply map_Forall_empty].
    + rewrite Hp'. pose proof (ledger_valid _ _ Hok) as Hlv. apply Forall_forall. intros c (r & -> & [_ Hr]%list_elem_of_filter)%list_elem_of_fmap.
      rewrite Forall_forall in Hlv. apply Hlv. apply list_elem_of_fmap. by exists r.
    + by rewrite Hp'.
    + intros k0. change (map_reported every k0 (q_bundleMap (mkQueryState ∅ ∅ 0 0))) with 0. rewrite Z.add_0_l. unfold recorded. rewrite Hp'. apply Hfit.
    + rewrite (reported_perm _ _ _ _ (in_order_perm _)). fold (map_reported h k). unfold map_reported at 1 in H. rewrite H. unfold recorded. by rewrite Hp'.
Qed.
End QueryRefines.
