(* ===== verification/PrivacyRecordProps.v ===== *)
(** * What holds of the records of used permissions

    Records that were added are reported, through merging, writing back and restarts; what a
    query reports; aging; and three ways in which a record is lost or reported under the wrong
    name. *)

From stdpp Require Import base gmap list strings sorting.
From S2P Require Import Prelude AccessTokenTypes TokenId Validator Database ToggleManager PrivacyTypes PrivacyRecordSet PrivacyUsage PrivacyDb PrivacyDbTheory PrivacyRecord PrivacyRecordTheory PrivacyQueryTheory.
#[local] Open Scope string_scope.
#[local] Open Scope list_scope.
#[local] Open Scope Z_scope.

(** ** Writing everything back. *)
Lemma ledger_nil recs : ledger [] recs = recs.
Proof. apply map_id. Qed.
Lemma ledger_again cache recs : cache_ok cache recs -> cache_ok cache (ledger cache recs) /\ ledger cache (ledger cache recs) = ledger cache recs.
Proof.
  intros Hok. split.
  - split.
    + by apply ledger_valid.
    + rewrite ledger_pks. apply Hok.
    + apply Hok.
    + apply Forall_forall. intros it Hit. pose proof (co_entries _ _ Hok) as He. rewrite Forall_forall in He. destruct (He it Hit) as (Hv & r & Hr & Hk & Hw & Hn).
      split; [done|]. exists (ch_record it). split_and!; [|done| |done].
      * apply list_elem_of_fmap. exists r. split; [|done]. destruct (list_elem_of_split _ _ Hit) as (kept & rest & Ec). rewrite Ec. symmetry. apply cached_hit; [|done].
        rewrite <- Ec. apply Hok.
      * unfold with_counts_of. rewrite bool_decide_eq_true_2 by done. by destruct (ch_record it).
  - unfold ledger at 1. rewrite <- (map_id (ledger cache recs)) at 2. apply map_ext_in. intros c (r & <- & _)%in_map_iff. unfold cached at 1.
    destruct (find_if (same_pk (cached cache r)) cache) as [it|] eqn:E; [|done]. assert (same_pk (cached cache r) = same_pk r) as Hs by (unfold same_pk; by rewrite cached_pk).
    rewrite Hs in E. unfold cached. by rewrite E.
Qed.

Section Flush.
Context {PC : PrivacyConfig} {RS : RecordServices} {St : Type} `{!SqlStore St, !SqlStoreLaws St, !SqlReliable St}.
Implicit Types (s : St) (R : Records St).

Lemma write_all l : forall s recs, records_are s recs -> cache_ok l recs ->
  records_are (fold_left (fun s it => if ch_needUpdateToDb it then (UpdatePermissionUsedRecordToDb (ch_record it) s).2 else s) l s) (ledger l recs).
Proof.
  induction l as [|it l IH]; intros s recs Hs Hok; cbn [fold_left].
  - rewrite ledger_nil. exact Hs.
  - destruct (drop_written [] it l recs Hok) as [Hok' Hl]. cbn [app] in Hok', Hl. rewrite <- Hl. apply IH; [|exact Hok']. pose proof (co_entries _ _ Hok) as He. apply Forall_cons in He as [He _].
    destruct (ch_needUpdateToDb it) eqn:En.
    + destruct (write_back (ch_record it) s recs) as (s1 & Eu & H1); [exact Hs| |apply Hok|rewrite Eu; exact H1]. apply valid_tokens. constructor; [apply He|apply Hok].
    + rewrite unmerged_written; [exact Hs|exact He|apply Hok|exact En].
Qed.
Lemma remote_flush_local l : forall R, let R' := fold_left (fun R it => if rch_needUpdateToDb it then (UpdateRemotePermissionUsedRecordToDb (rch_record it) R).2 else R) l R in
  usedDb R' = usedDb R /\ permUsedRecList R' = permUsedRecList R.
Proof.
  induction l as [|it l IH]; intros R; cbn [fold_left]; [done|]. cbv zeta in *. destruct (IH (if rch_needUpdateToDb it then (UpdateRemotePermissionUsedRecordToDb (rch_record it) R).2 else R)) as [-> ->].
  destruct (rch_needUpdateToDb it); [|done]. unfold UpdateRemotePermissionUsedRecordToDb, Remote_Update. split_if; [|done]. unfold on_remote_db.
  by destruct (RemoteDb_Update _ _ _) as [x s].
Qed.
Lemma flush_rows R recs : rec_inv R recs -> records_are (usedDb (UpdatePermRecImmediately R)) (ledger_of R recs) /\
  permUsedRecList (UpdatePermRecImmediately R) = permUsedRecList R.
Proof.
  intros [Hs Hok]. pose proof (write_all _ _ _ Hs Hok) as Hw. unfold UpdatePermRecImmediately. split_if; [|split; [exact Hw|reflexivity]].
  destruct (remote_flush_local (remotePermUsedRecList R) (set_db (fold_left (fun s it => if ch_needUpdateToDb it then (UpdatePermissionUsedRecordToDb (ch_record it) s).2 else s)
             (permUsedRecList R) (usedDb R)) R)) as [E1 E2]. cbn [remotePermUsedRecList set_db permUsedRecList usedDb] in *. rewrite E1, E2. split; [exact Hw|reflexivity].
Qed.
Lemma flush_inv R recs : rec_inv R recs -> rec_inv (UpdatePermRecImmediately R) (ledger_of R recs) /\ ledger_of (UpdatePermRecImmediately R) (ledger_of R recs) = ledger_of R recs.
Proof.
  intros HR. destruct (flush_rows R recs HR) as [H1 H2]. destruct (ledger_again _ _ (ri_cache _ _ HR)) as [H3 H4]. split; [split; [exact H1|by rewrite H2]|].
  unfold ledger_of. by rewrite H2.
Qed.

(** The service starts again: it has its database, and nothing in memory. *)
Definition restart R : Records St := mkRecords (usedDb R) [] ∅ (remoteDbs R) [].
Lemma restart_inv R recs : records_are (usedDb R) recs -> Forall record_valid recs -> NoDup (map pk recs) -> rec_inv (restart R) recs /\ ledger_of (restart R) recs = recs.
Proof.
  intros Hs Hv Hn. split; [|apply ledger_nil]. split; [exact Hs|]. split; [done|done|constructor|constructor].
Qed.
Lemma flush_restart R recs : rec_inv R recs -> rec_inv (restart (UpdatePermRecImmediately R)) (ledger_of R recs) /\
  ledger_of (restart (UpdatePermRecImmediately R)) (ledger_of R recs) = ledger_of R recs.
Proof.
  intros HR. destruct (flush_rows R recs HR) as [H1 _]. apply restart_inv; [exact H1|by apply ledger_valid, HR|]. unfold ledger_of. rewrite ledger_pks. apply HR.
Qed.
End Flush.

(** ** Operations on other tables. *)
Definition sql_table (q : Sql) : string :=
  match q with SqlInsert t _ | SqlDelete t _ | SqlDeleteByTime t _ | SqlDeleteOldest t _ | SqlUpdate t _ _ | SqlSelect t _ | SqlSelectLatest t _ _ | SqlCount t => t end.
Definition is_read (q : Sql) : bool := match q with SqlSelect _ _ | SqlSelectLatest _ _ _ | SqlCount _ => true | _ => false end.
Lemma run_sql_other q b T rows T' t : run_sql q b T = Some (rows, T') -> is_read q = true \/ t <> sql_table q -> T' t = T t.
Proof.
  intros H Hq. revert H. unfold run_sql. destruct q; cbn [is_read sql_table] in Hq; destruct (find_table _) as [d|]; try done; destruct (known_columns _ _); try done.
  5: destruct (bound_row _ _); [|done]; cbv zeta; case_bool_decide; [|done].
  1: destruct (bound_row _ _); [|done]; destruct (existsb _ _); [done|].
  all: intros [= _ <-]; first [done|destruct Hq as [Hq|Hq]; [done|apply set_rows_ne; congruence]].
Qed.

(** ** Adding to the ledger, counted. *)
Lemma recorded_app h k L L' : recorded h k (L ++ L') = recorded h k L + recorded h k L'.
Proof. apply sum_where_app. Qed.
Lemma recorded_cons h k r L : recorded h k (r :: L) = (if selected_by h r then count_of k r else 0) + recorded h k L.
Proof. done. Qed.
Lemma merge_same c r : RecordMergeCheck c r = true -> pr_tokenId c = pr_tokenId r /\ pr_opCode c = pr_opCode r /\ pr_type c = pr_type r /\ pr_enhancedIdentity c = pr_enhancedIdentity r.
Proof.
  unfold RecordMergeCheck. split_if; [done|]. split_if; [done|]. intros _. apply orb_false_iff in E0 as [E0 E6]. repeat (apply orb_false_iff in E0 as [E0 ?]).
  rewrite negb_false_iff in *. rewrite ?Z.eqb_eq, ?String.eqb_eq in *. done.
Qed.
Lemma ledger_add_recorded r L L' h k : ledger_add r L L' -> recorded h k L' = recorded h k (L ++ [r]).
Proof.
  intros [L0 Hn|L1 c L2 Hm]; [done|]. destruct (merge_same _ _ Hm) as (E1 & E2 & E3 & E4). rewrite !recorded_app, !recorded_cons.
  assert (selected_by h (merged_with r c) = selected_by h r) as -> by (unfold selected_by, merged_with; cbn; by rewrite E1, E2, E4).
  assert (selected_by h c = selected_by h r) as -> by (unfold selected_by; by rewrite E1, E2, E4).
  assert (count_of k (merged_with r c) = count_of k c + count_of k r) as ->; [|change (recorded h k []) with 0; destruct (selected_by h r); lia].
  unfold count_of, merged_with; cbn. rewrite E3. destruct k; [done| |done]. by destruct (is_picker _).
Qed.
(** What does not depend on the counts. *)
Definition count_free (P : PermissionRecord -> Prop) : Prop := forall a b r, P r -> P (set_counts a b r).
Lemma ledger_add_forall r L L' P : count_free P -> ledger_add r L L' -> Forall P (L ++ [r]) -> Forall P L' /\ (length L' <= length (L ++ [r]))%nat.
Proof.
  intros HP [L0 Hn|L1 c L2 Hm] [HL [Hr _]%Forall_cons]%Forall_app.
  - split; [apply Forall_app; split; [done|by constructor]|done].
  - apply Forall_app in HL as [H1 [Hc H2]%Forall_cons]. split; [apply Forall_app; split; [done|]; constructor; [by apply HP|done]|].
    rewrite !length_app. cbn. lia.
Qed.
Lemma fits_of_total r L : record_valid r -> Forall record_valid L -> (forall k, recorded every k (L ++ [r]) < 2 ^ 31) -> counts_fit r L.
Proof.
  intros Hr HL Hfit. apply Forall_forall. intros c Hc. assert (forall k, count_of k c <= recorded every k L) as Hle.
  { intros k. unfold recorded, sum_where. apply zsum_elem.
    - apply Forall_fmap. eapply Forall_impl; [exact HL|]. intros x Hx. cbn. by apply count_nonneg.
    - apply list_elem_of_fmap. by exists c. }
  pose proof (Hfit Accesses) as H1. pose proof (Hfit Rejections) as H2. rewrite recorded_app, recorded_cons in H1, H2.
  change (selected_by every r) with true in H1, H2. cbv iota in H1, H2. change (recorded every ?k []) with 0 in H1, H2.
  pose proof (Hle Accesses) as H3. pose proof (Hle Rejections) as H4. cbn [count_of] in H1, H2, H3, H4. lia.
Qed.

Section Runs.
Context {BC : BuildConfig} {PC : PrivacyConfig} {SV : Services} {OA : OsAccount} {RS : RecordServices} {St : Type} `{!SqlStore St, !SqlStoreLaws St, !SqlReliable St}.
Implicit Types (s : St) (R : Records St) (u : Using).

Lemma step_other s q b t : is_read q = true \/ t <> sql_table q -> sql_rows (sql_step s q b).2 t ≡ₚ sql_rows s t.
Proof.
  intros Hq. destruct (sql_step s q b) as [[[] rows] s'] eqn:E; cbn [snd].
  - destruct (law_step_done _ _ _ _ _ E) as (_ & T & T' & HT & Hr & Hs). rewrite (Hs t), (run_sql_other _ _ _ _ _ t Hr Hq). apply HT.
  - destruct (law_step_failed _ _ _ _ _ E) as [_ Hs]. apply Hs.
Qed.
Lemma statement_other s q b t : t <> sql_table q -> sql_rows (RetryOnCorrupt (run_statement q b) s).2 t ≡ₚ sql_rows s t.
Proof.
  intros Hq. destruct (run_sql q b (sql_rows s)) as [[x T']|] eqn:E.
  - destruct (statement_done _ _ _ _ _ E) as (s' & -> & Hs). cbn [snd]. rewrite (Hs t), (run_sql_other _ _ _ _ _ t E); [done|by right].
  - destruct (statement_fails _ _ _ E) as (ret & s' & -> & _ & Hs). apply Hs.
Qed.
Lemma Query_other t' c s t : sql_rows (Query t' c s).2 t ≡ₚ sql_rows s t.
Proof. unfold Query. pose proof (step_other s (CreateQueryPrepareSqlCmd t' (GetAllKeys c)) (Bind c ∅) t (or_introl eq_refl)) as H. by destruct (sql_step _ _ _) as [[? ?] ?]. Qed.
Lemma Add_other t' v s t : t <> tableName_ t' -> sql_rows (Add t' [v] s).2 t ≡ₚ sql_rows s t.
Proof.
  intros Ht. pose proof (Add_one t' v s) as H. destruct (run_sql _ _ _) as [[x T']|] eqn:E.
  - destruct H as (s' & -> & Hs). cbn [snd]. rewrite (Hs t), (run_sql_other _ _ _ _ _ t E); [done|by right].
  - destruct H as (ret & s' & -> & _ & Hs). apply Hs.
Qed.
Lemma Update_other t' m c s t : GetAllKeys m <> [] -> t <> tableName_ t' -> sql_rows (Update t' m c s).2 t ≡ₚ sql_rows s t.
Proof.
  intros Hm Ht. unfold Update, UpdateLocked, CreateUpdatePrepareSqlCmd. destruct (GetAllKeys m) as [|k0 ks]; [done|]. by apply statement_other.
Qed.

(** The used types do not touch the records. *)
Lemma used_type_other tokenId opCode type s : sql_rows (AddOrUpdateUsedTypeIfNeeded tokenId opCode type s).2 PERMISSION_RECORD_TABLE ≡ₚ sql_rows s PERMISSION_RECORD_TABLE.
Proof.
  unfold AddOrUpdateUsedTypeIfNeeded. pose proof (Query_other (dataTypeToSqlTable_ PERMISSION_USED_TYPE) (used_type_condition tokenId opCode) s PERMISSION_RECORD_TABLE) as Hq.
  destruct (Query _ _ s) as [[res results] s1]. cbn [snd] in Hq. split_if; [done|]. destruct results as [|result rest].
  - rewrite <- Hq. by apply Add_other.
  - split_if; [exact Hq|]. rewrite <- Hq. apply Update_other; [|done].
    assert (forall v, GetAllKeys (Put FIELD_USED_TYPE v ∅) = [FIELD_USED_TYPE]) as E' by reflexivity. by rewrite E'.
Qed.
Lemma query_keeps now now' maximum request R recs ret result R' : GetPermissionUsedRecords now now' maximum request R = (ret, result, R') -> rec_inv R recs ->
  rec_inv R' recs /\ ledger_of R' recs = ledger_of R recs.
Proof.
  unfold GetPermissionUsedRecords. split_if; [|by intros [= _ _ <-]]. unfold GetRecordsFromLocalDB. destruct (Request_TranslationIntoGenericValues _ _ _) as [v|]; [|by intros [= _ _ <-]].
  unfold FindByConditions. rewrite select_cmd. set (q := SqlSelectLatest _ _ _). set (b := Bind _ _).
  pose proof (step_other (usedDb R) q b PERMISSION_RECORD_TABLE (or_introl eq_refl)) as Hs. destruct (sql_step _ q b) as [[d rows] s']. cbn [snd] in Hs.
  intros [= _ _ <-] [Hr Hok]. split; [|reflexivity]. split; [|exact Hok]. unfold records_are in *. cbn [usedDb set_db]. by rewrite Hs.
Qed.

(** ** Histories: uses reported, queries, everything written back, restarts. *)

(** The record of a reported use that passes the checks of the service: the application is
    installed, recording is on for its user, the counts are not both zero, the permission is one
    that is recorded and its switch is on. *)
Definition use_record (now : Z) (info : AddPermParamInfo) u R : list PermissionRecord :=
  match GetHapTokenInfo (ai_tokenId info) with
  | None => []
  | Some tokenInfo =>
      match ResolveAddRecordSubProfileId tokenInfo R with
      | inl _ => []
      | inr sub =>
          if negb (CheckPermissionUsedRecordToggleStatus (hs_userID tokenInfo) sub R) then []
          else if (ai_successCount info =? 0) && (ai_failCount info =? 0) then []
          else match GetPermissionRecord now info u with
               | inl _ => []
               | inr r => if GetGlobalSwitchStatus (ai_permissionName info) u then [r] else []
               end
      end
  end.

(** A report is a step whatever it answers, unless its record cannot be added: a row with its key
    is there that it cannot be merged with.  The list holds the records of the uses. *)
Inductive records_step : list PermissionRecord -> Records St -> Records St -> Prop :=
  | step_report now info caller pid u R ret evs R' :
      AddPermissionUsedRecordInner now info caller pid u R = (ret, evs, R') ->
      Forall (fun r => record_valid r /\ (AddRecord r R).1 = SUCCESS) (use_record now info u R) ->
      records_step (use_record now info u R) R R'
  | step_query now now' maximum request R ret result R' :
      GetPermissionUsedRecords now now' maximum request R = (ret, result, R') -> records_step [] R R'
  | step_flush R : records_step [] R (UpdatePermRecImmediately R)
  | step_restart R : records_step [] R (restart (UpdatePermRecImmediately R)).
Inductive records_run : list PermissionRecord -> Records St -> Records St -> Prop :=
  | run_none R : records_run [] R R
  | run_more a b R R1 R2 : records_step a R R1 -> records_run b R1 R2 -> records_run (a ++ b) R R2.

(** What a report does to the records. *)
Lemma report_records now info caller pid u R ret evs R' : AddPermissionUsedRecordInner now info caller pid u R = (ret, evs, R') ->
  match use_record now info u R with
  | [] => R' = R
  | r :: _ => (AddRecord r R).1 = SUCCESS -> permUsedRecList R' = permUsedRecList (AddRecord r R).2 /\
      sql_rows (usedDb R') PERMISSION_RECORD_TABLE ≡ₚ sql_rows (usedDb (AddRecord r R).2) PERMISSION_RECORD_TABLE
  end.
Proof.
  unfold AddPermissionUsedRecordInner, use_record. destruct (GetHapTokenInfo _) as [info'|]; [|by intros [= _ _ <-]].
  destruct (ResolveAddRecordSubProfileId info' R); [by intros [= _ _ <-]|]. split_if; [by intros [= _ _ <-]|]. split_if; [by intros [= _ _ <-]|].
  destruct (GetPermissionRecord now info u) as [e|r]; [by intros [= _ _ <-]|]. destruct (GetGlobalSwitchStatus _ u); cbn [negb]; [|by intros [= _ _ <-]].
  destruct (AddRecord r R) as [res R1]. cbn [fst snd]. intros Hi ->. cbn in Hi. revert Hi. unfold on_db.
  pose proof (used_type_other (ai_tokenId info) (pr_opCode r) (ai_type info) (usedDb R1)) as Ho. destruct (AddOrUpdateUsedTypeIfNeeded _ _ _ _) as [res2 s2]. cbn [snd] in Ho.
  split_if; intros [= _ _ <-]; (split; [done|exact Ho]).
Qed.

Lemma run_valid log R R' : records_run log R R' -> Forall record_valid log.
Proof.
  induction 1 as [|a b R1 R2 R3 Hs _ IH]; [done|]. apply Forall_app. split; [|done]. destruct Hs as [? ? ? ? ? ? ? ? ? _ H| | |]; [|done..].
  eapply Forall_impl; [exact H|]. by intros r [? _].
Qed.

Lemma step_ledger a R R' recs : records_step a R R' -> rec_inv R recs -> (forall k, recorded every k (ledger_of R recs ++ a) < 2 ^ 31) ->
  exists recs', rec_inv R' recs' /\ (forall h k, recorded h k (ledger_of R' recs') = recorded h k (ledger_of R recs ++ a)) /\
    (forall P, count_free P -> Forall P (ledger_of R recs ++ a) -> Forall P (ledger_of R' recs') /\ (length (ledger_of R' recs') <= length (ledger_of R recs ++ a))%nat).
Proof.
  intros Hstep HR Hfit. assert (forall L, L = ledger_of R recs -> (forall h k, recorded h k L = recorded h k (ledger_of R recs ++ [])) /\
    (forall P, count_free P -> Forall P (ledger_of R recs ++ []) -> Forall P L /\ (length L <= length (ledger_of R recs ++ []))%nat)) as Hsame.
  { intros L ->. rewrite app_nil_r. done. }
  destruct Hstep as [now info caller pid u R ret evs R' Hin Hadd|now now' maximum request R ret result R' Hq|R|R].
  - pose proof (report_records _ _ _ _ _ _ _ _ _ Hin) as Hrep.
    assert (use_record now info u R = [] \/ exists r, use_record now info u R = [r]) as [Eu|(r & Eu)].
    { unfold use_record. repeat case_match; eauto. }
    { rewrite Eu in Hrep |- *. subst R'. exists recs. split; [exact HR|]. by apply Hsame. }
    rewrite Eu in *. apply Forall_cons in Hadd as [[Hv Hs] _]. destruct (Hrep Hs) as [Hc Ht]. destruct (AddRecord r R) as [res R1] eqn:Ha. cbn [fst snd] in *. subst res.
    destruct (AddRecord_refines r R recs SUCCESS R1 HR Hv) as [(_ & recs' & [Hs1 Hok1] & Hl)|[? _]]; [|exact Ha| |done].
    { apply fits_of_total; [done|apply ledger_valid, HR|done]. }
    exists recs'. assert (ledger_of R' recs' = ledger_of R1 recs') as -> by (unfold ledger_of; by rewrite Hc). split_and!.
    + split; [|by rewrite Hc]. unfold records_are in *. by rewrite Ht.
    + intros h k. by apply ledger_add_recorded.
    + intros P HP HF. by eapply ledger_add_forall.
  - destruct (query_keeps _ _ _ _ _ _ _ _ _ Hq HR) as [H1 H2]. exists recs. split; [exact H1|]. by apply Hsame.
  - destruct (flush_inv R recs HR) as [H1 H2]. exists (ledger_of R recs). split; [exact H1|]. by apply Hsame.
  - destruct (flush_restart R recs HR) as [H1 H2]. exists (ledger_of R recs). split; [exact H1|]. by apply Hsame.
Qed.

Lemma run_ledger log R R' : records_run log R R' -> forall recs, rec_inv R recs -> Forall record_valid log -> (forall k, recorded every k (ledger_of R recs ++ log) < 2 ^ 31) ->
  exists recs', rec_inv R' recs' /\ (forall h k, recorded h k (ledger_of R' recs') = recorded h k (ledger_of R recs ++ log)) /\
    (forall P, count_free P -> Forall P (ledger_of R recs ++ log) -> Forall P (ledger_of R' recs') /\ (length (ledger_of R' recs') <= length (ledger_of R recs ++ log))%nat).
Proof.
  induction 1 as [R|a b R R1 R2 Hstep Hrun IH]; intros recs HR Hlog Hfit.
  - exists recs. rewrite app_nil_r. split_and!; [exact HR|done|]. intros P _ HF. done.
  - apply Forall_app in Hlog as [Ha Hb]. assert (forall k, 0 <= recorded every k b) as Hnn.
    { intros k. apply sum_where_mono. eapply Forall_impl; [exact Hb|]. intros x Hx. by apply count_nonneg. }
    destruct (step_ledger a R R1 recs Hstep HR) as (recs1 & HR1 & Hc1 & Hp1).
    { intros k. specialize (Hfit k). rewrite app_assoc, recorded_app in Hfit. specialize (Hnn k). lia. }
    destruct (IH recs1 HR1 Hb) as (recs2 & HR2 & Hc2 & Hp2).
    { intros k. rewrite recorded_app, Hc1, <- recorded_app, <- app_assoc. apply Hfit. }
    exists recs2. rewrite app_assoc. split_and!; [exact HR2| |].
    + intros h k. rewrite Hc2, !recorded_app, Hc1, recorded_app. done.
    + intros P HP [H1 H2]%Forall_app. destruct (Hp1 P HP H1) as [H3 H4]. destruct (Hp2 P HP) as [H5 H6]; [by apply Forall_app|]. split; [exact H5|].
      rewrite !length_app in H4, H6. rewrite !length_app. lia.
Qed.

Lemma uses_reported log R0 recs R now now' maximum request v : rec_inv R0 recs -> records_run log R0 R ->
  let L := ledger_of R0 recs ++ log in
  (forall k, recorded every k L < 2 ^ 31) ->
  Request_TranslationIntoGenericValues now now' request = Some v -> is_u32 (rq_tokenId request) -> rq_isRemote request = false ->
  Forall (fun r => selects now now' request r = true /\ is_Some (GetHapTokenInfo (pr_tokenId r))) L -> Z.of_nat (length L) <= query_limit maximum request ->
  exists result R', GetPermissionUsedRecords now now' maximum request R = (SUCCESS, result, R') /\ forall h k, reported h k (res_bundleRecords result) = recorded h k L.
Proof.
  cbv zeta. intros HR Hrun Hfit Hv Hq Hrem Hall Hlen. destruct (run_ledger log R0 R Hrun recs HR (run_valid _ _ _ Hrun) Hfit) as (recs' & HR' & Hc & Hp).
  destruct (Hp (fun r => selects now now' request r = true /\ is_Some (GetHapTokenInfo (pr_tokenId r)))) as [HF Hle]; [intros a b r Hr; exact Hr|exact Hall|].
  assert (filter (fun r => selects now now' request r = true) (ledger_of R recs') = ledger_of R recs') as Hfl.
  { apply filter_all. eapply Forall_impl; [exact HF|]. by intros r [? _]. }
  destruct (query_refines now now' maximum request R recs' v HR' Hv Hq Hrem) as (result & R' & E & _ & _ & Hrep).
  - rewrite Hfl. lia.
  - rewrite Hfl. eapply Forall_impl; [exact HF|]. by intros r [_ ?].
  - intros k. rewrite Hfl, Hc. apply Hfit.
  - exists result, R'. split; [exact E|]. intros h k. rewrite Hrep, Hfl. apply Hc.
Qed.
End Runs.

(** ** Aging. *)
Section Aging.
Context {St : Type} `{!SqlStore St, !SqlStoreLaws St, !SqlReliable St}.
Implicit Types (s : St) (R : Records St).

Lemma row_time_of r : row_time (row_of r) = pr_timestamp r.
Proof. reflexivity. Qed.
Lemma filter_rows (P : Row -> Prop) (Q : PermissionRecord -> Prop) `{!forall x, Decision (P x), !forall x, Decision (Q x)} recs :
  (forall r, r ∈ recs -> P (row_of r) <-> Q r) -> filter P (map row_of recs) = map row_of (filter Q recs).
Proof.
  intros Hpq. induction recs as [|r recs IH]; [done|]. cbn [map]. rewrite !filter_cons, IH by (intros x Hx; apply Hpq; by right).
  specialize (Hpq r (list_elem_of_here _ _)). destruct (decide (P (row_of r))), (decide (Q r)); try done; tauto.
Qed.

Lemma count_records s recs : records_are s recs -> Z.of_nat (length recs) < 2 ^ 31 ->
  exists s', Count (dataTypeToSqlTable_ PERMISSION_RECORD) s = (Z.of_nat (length recs), s') /\ records_are s' recs.
Proof.
  intros Hs Hl. assert (forall T, run_sql (SqlCount PERMISSION_RECORD_TABLE) ∅ T = Some ([{["count" := VInt (Z.of_nat (length (T PERMISSION_RECORD_TABLE)))]}], T)) as Hr by reflexivity.
  destruct (read_done _ _ _ _ _ (Hr (sql_rows s)) eq_refl) as (rows & s' & T & Es & HT & (T2 & Hr2) & Hsame). rewrite Hr in Hr2. injection Hr2 as <- _.
  unfold Count. change (CreateCountPrepareSqlCmd _) with (SqlCount PERMISSION_RECORD_TABLE). rewrite Es. exists s'. split.
  - f_equal. unfold records_are in Hs. rewrite (HT PERMISSION_RECORD_TABLE), Hs, length_map. change (GetInt "count" _) with (i32 (Z.of_nat (length recs))). apply i32_small. unfold is_i32. lia.
  - unfold records_are. rewrite (Hsame PERMISSION_RECORD_TABLE). exact Hs.
Qed.

(** The oldest rows go, with all that have the time of one of them. *)
Definition oldest (n : nat) (recs : list PermissionRecord) : list Z := map row_time (take n (merge_sort earlier (map row_of recs))).
Lemma delete_oldest n s recs : records_are s recs ->
  exists s', DeleteExcessiveRecords (dataTypeToSqlTable_ PERMISSION_RECORD) (Z.of_nat n) s = (SUCCESS, s') /\ records_are s' (filter (fun r => pr_timestamp r ∉ oldest n recs) recs).
Proof.
  intros Hs. destruct (statement_done (SqlDeleteOldest PERMISSION_RECORD_TABLE (Z.of_nat n)) ∅ s [] (set_rows PERMISSION_RECORD_TABLE
    (filter (fun r => row_time r ∉ map row_time (take (Z.to_nat (Z.of_nat n)) (merge_sort earlier (sql_rows s PERMISSION_RECORD_TABLE)))) (sql_rows s PERMISSION_RECORD_TABLE)) (sql_rows s))) as (s' & E & Hs').
  - reflexivity.
  - exists s'. split; [exact E|]. unfold records_are in *. rewrite (Hs' PERMISSION_RECORD_TABLE), set_rows_eq, Nat2Z.id. rewrite (oldest_times n _ _ Hs), Hs.
    apply reflexive_eq. by apply filter_rows.
Qed.
Lemma delete_expired limit s recs : records_are s recs ->
  exists s', DeleteExpireRecords (dataTypeToSqlTable_ PERMISSION_RECORD) (Put FIELD_TIMESTAMP_END (TYPE_INT64 limit) ∅) s = (SUCCESS, s') /\
    records_are s' (filter (fun r => limit < pr_timestamp r) recs).
Proof.
  intros Hs. set (b := Bind (Put FIELD_TIMESTAMP_END (TYPE_INT64 limit) ∅) ∅). assert (forall r, conds_hold b [ColumnLe FIELD_TIMESTAMP FIELD_TIMESTAMP_END] (row_of r) = (pr_timestamp r <=? limit)) as Hc.
  { intros r. change (conds_hold b _ (row_of r)) with ((pr_timestamp r <=? limit) && true). apply andb_true_r. }
  destruct (statement_done (SqlDeleteByTime PERMISSION_RECORD_TABLE [ColumnLe FIELD_TIMESTAMP FIELD_TIMESTAMP_END]) b s [] (set_rows PERMISSION_RECORD_TABLE
    (filter (fun r => row_time r ∉ map row_time (filter (fun r => conds_hold b [ColumnLe FIELD_TIMESTAMP FIELD_TIMESTAMP_END] r = true) (sql_rows s PERMISSION_RECORD_TABLE)))
      (sql_rows s PERMISSION_RECORD_TABLE)) (sql_rows s))) as (s' & E & Hs').
  - reflexivity.
  - exists s'. split; [exact E|]. unfold records_are in *. rewrite (Hs' PERMISSION_RECORD_TABLE), set_rows_eq.
    rewrite (list_filter_iff_perm _ (fun r => row_time r ∉ map row_time (filter (fun r => conds_hold b [ColumnLe FIELD_TIMESTAMP FIELD_TIMESTAMP_END] r = true) (map row_of recs))))
      by (intros r; by rewrite Hs). rewrite Hs. apply reflexive_eq, filter_rows. intros r Hr.
    rewrite (filter_rows _ (fun r => pr_timestamp r <= limit)) by (intros x _; by rewrite Hc, Z.leb_le). rewrite map_map. rewrite row_time_of. split.
    + intros Hn. apply Z.nle_gt. intros Hle. apply Hn. apply list_elem_of_fmap. exists r. split; [done|]. by apply list_elem_of_filter.
    + intros Hlt (x & Hx & [Hle _]%list_elem_of_filter)%list_elem_of_fmap. rewrite row_time_of in Hx. lia.
Qed.

Lemma oldest_spec n recs : let kept := filter (fun r => pr_timestamp r ∉ oldest n recs) recs in
  (length kept <= length recs - n)%nat /\ (forall r r', pr_timestamp r ∈ oldest n recs -> r' ∈ kept -> pr_timestamp r < pr_timestamp r').
Proof.
  cbv zeta. set (l := merge_sort earlier (map row_of recs)). assert (l ≡ₚ map row_of recs) as Hl by apply merge_sort_Permutation.
  assert (StronglySorted earlier l) as Hsort.
  { assert (Total earlier) by (intros x y; unfold earlier; lia). assert (Transitive earlier) by (intros x y z; unfold earlier; lia). apply StronglySorted_merge_sort; apply _. }
  assert (forall x, x ∈ take n l -> row_time x ∈ oldest n recs) as Ht by (intros x Hx; apply list_elem_of_fmap; by exists x).
  split.
  - assert (length (filter (fun r => pr_timestamp r ∉ oldest n recs) recs) = length (filter (fun x => row_time x ∉ oldest n recs) l)) as ->.
    { rewrite Hl. rewrite (filter_rows _ (fun r => pr_timestamp r ∉ oldest n recs)) by done. by rewrite length_map. }
    rewrite <- (take_drop n l) at 1. rewrite filter_app. assert (filter (fun x => row_time x ∉ oldest n recs) (take n l) = []) as ->.
    { destruct (filter _ (take n l)) as [|x xs] eqn:Ex; [done|]. assert (x ∈ filter (fun x => row_time x ∉ oldest n recs) (take n l)) as [Hn Hx]%list_elem_of_filter by (rewrite Ex; left).
      exfalso. by apply Hn, Ht. }
    cbn [app]. etrans; [apply length_filter|]. rewrite length_drop, Hl, length_map. done.
  - intros r r' (x & E & Hx)%list_elem_of_fmap [Hn Hr']%list_elem_of_filter. assert (row_of r' ∈ drop n l) as Hd.
    { assert (row_of r' ∈ l) as Hin by (rewrite Hl; apply list_elem_of_fmap; by exists r'). rewrite <- (take_drop n l), elem_of_app in Hin. destruct Hin as [Hin|Hin]; [|done].
      exfalso. apply Hn. by apply Ht in Hin. }
    rewrite <- (take_drop n l) in Hsort. pose proof (StronglySorted_app_1_elem_of earlier _ _ _ _ Hsort Hx Hd) as Hle. unfold earlier in Hle. rewrite row_time_of in Hle.
    assert (pr_timestamp r' <> row_time x); [|lia]. intros E'. apply Hn. rewrite E'. by apply Ht.
Qed.

Lemma aging now maximum days R recs : records_are (usedDb R) recs -> Z.of_nat (length recs) < 2 ^ 31 -> 0 <= maximum ->
  exists R' kept, DeletePermissionRecord now maximum days R = (SUCCESS, R') /\ records_are (usedDb R') kept /\ kept `sublist_of` recs /\
    Z.of_nat (length kept) <= maximum /\ Forall (fun r => now - days * ONE_DAY_MILLISECONDS < pr_timestamp r) kept /\
    (forall r, r ∈ recs -> r ∉ kept -> now - days * ONE_DAY_MILLISECONDS < pr_timestamp r -> maximum < Z.of_nat (length recs) /\ forall r', r' ∈ kept -> pr_timestamp r < pr_timestamp r').
Proof.
  intros Hs Hl Hm. set (limit := now - days * ONE_DAY_MILLISECONDS). destruct (count_records _ _ Hs Hl) as (s1 & Ec & Hs1).
  assert (exists s2 recs2, (if maximum <? Z.of_nat (length recs) then on_db (DeleteExcessiveRecords (dataTypeToSqlTable_ PERMISSION_RECORD) (u32 (Z.of_nat (length recs) - maximum))) (set_db s1 R)
      else (SUCCESS, set_db s1 R)) = (SUCCESS, set_db s2 R) /\ records_are s2 recs2 /\ recs2 `sublist_of` recs /\ Z.of_nat (length recs2) <= maximum /\
    (forall r, r ∈ recs -> r ∉ recs2 -> maximum < Z.of_nat (length recs) /\ forall r', r' ∈ recs2 -> pr_timestamp r < pr_timestamp r')) as (s2 & recs2 & E2 & Hs2 & Hsub & Hlen & Hold).
  { destruct (Z.ltb_spec maximum (Z.of_nat (length recs))) as [Hlt|Hge].
    - rewrite u32_small by (unfold is_u32; lia). set (n := Z.to_nat (Z.of_nat (length recs) - maximum)). replace (Z.of_nat (length recs) - maximum) with (Z.of_nat n) by lia.
      destruct (delete_oldest n s1 recs Hs1) as (s2 & E & Hs2). destruct (oldest_spec n recs) as [Hk Ho]. unfold on_db. cbn [usedDb set_db]. rewrite E.
      exists s2, (filter (fun r => pr_timestamp r ∉ oldest n recs) recs). split_and!; [reflexivity|exact Hs2|apply sublist_filter|lia|]. intros r Hr Hn. split; [done|]. intros r' Hr'. apply Ho; [|done].
      destruct (decide (pr_timestamp r ∈ oldest n recs)) as [|Hd]; [done|]. exfalso. apply Hn. by apply list_elem_of_filter.
    - exists s1, recs. split; [reflexivity|]. split; [exact Hs1|]. split; [reflexivity|]. split; [exact Hge|]. intros r H1 H2. destruct (H2 H1). }
  destruct (delete_expired limit s2 recs2 Hs2) as (s3 & E3 & Hs3). unfold DeletePermissionRecord. unfold on_db at 1. rewrite Ec. rewrite E2. change (negb (SUCCESS =? SUCCESS)) with false. cbv iota.
  unfold on_db at 1. cbn [usedDb set_db]. fold limit. rewrite E3. change (negb (SUCCESS =? SUCCESS)) with false. cbv iota.
  exists (set_db s3 (set_db s2 R)), (filter (fun r => limit < pr_timestamp r) recs2). split_and!; [reflexivity|exact Hs3| | | |].
  - etrans; [apply sublist_filter|exact Hsub].
  - pose proof (length_filter (fun r => limit < pr_timestamp r) recs2). lia.
  - apply Forall_forall. intros r Hr. by apply list_elem_of_filter in Hr as [? _].
  - intros r Hr Hn Ht. assert (r ∉ recs2) as Hn2 by (intros H2; apply Hn; apply list_elem_of_filter; split; [exact Ht|exact H2]). destruct (Hold r Hr Hn2) as [H1 H2]. split; [exact H1|].
    intros r' [_ Hr']%list_elem_of_filter. by apply H2.
Qed.
End Aging.

(** ** Switching recording off. *)
Section Switch.
Context {BC : BuildConfig} {PC : PrivacyConfig} {SV : Services} {OA : OsAccount} {RS : RecordServices} {St : Type} `{!SqlStore St}.
Implicit Types (s : St) (R : Records St) (u : Using) (m : gmap string bool).

Lemma legacy_key_own userID : IsSubProfileToggleKey (BuildToggleStatusKey userID LEGACY_SUBPROFILE_ID) userID = false.
Proof. unfold IsSubProfileToggleKey. by rewrite String.eqb_refl. Qed.
Lemma has_sub_toggle m userID : HasSubProfileToggleStatus m userID = true <-> exists key b, m !! key = Some b /\ IsSubProfileToggleKey key userID = true.
Proof.
  unfold HasSubProfileToggleStatus. rewrite existsb_exists. split.
  - intros ((key & b) & Hin%list_elem_of_In%elem_of_map_to_list & Hk). by exists key, b.
  - intros (key & b & Hin & Hk). exists (key, b). split; [by apply list_elem_of_In, elem_of_map_to_list|done].
Qed.
(** Storing a status makes no conflict with itself. *)
Lemma conflict_after_set m userID sub status : HasToggleStorageModeConflict m userID sub = false -> sub = LEGACY_SUBPROFILE_ID ->
  HasToggleStorageModeConflict (<[BuildToggleStatusKey userID sub := status]> m) userID sub = false.
Proof.
  intros H ->. unfold HasToggleStorageModeConflict in *. rewrite Z.eqb_refl in *. apply not_true_iff_false. rewrite has_sub_toggle. intros (key & b & Hl & Hk).
  apply lookup_insert_Some in Hl as [[<- _]|[_ Hl]]; [by rewrite legacy_key_own in Hk|]. apply not_true_iff_false in H. apply H. rewrite has_sub_toggle. eauto.
Qed.

Lemma toggle_map_update userID sub R : permUsedRecToggleStatusMap (UpdatePermUsedRecToggleStatusMap userID sub false R).2 =
  <[BuildToggleStatusKey userID sub := false]> (permUsedRecToggleStatusMap R).
Proof.
  unfold UpdatePermUsedRecToggleStatusMap. destruct (permUsedRecToggleStatusMap R !! _) as [[]|] eqn:E; cbn; [done| |done]. by rewrite insert_id.
Qed.
Lemma history_toggles tokens R : permUsedRecToggleStatusMap (RemoveHistoryPermissionUsedRecords tokens R) = permUsedRecToggleStatusMap R.
Proof. unfold RemoveHistoryPermissionUsedRecords, on_db. by destruct (DeleteHistoryRecordsInTables _ _ _). Qed.
Lemma history_cache tokens R : Forall (fun it => pr_tokenId (ch_record it) ∉ tokens) (permUsedRecList (RemoveHistoryPermissionUsedRecords tokens R)).
Proof.
  unfold RemoveHistoryPermissionUsedRecords, on_db. destruct (DeleteHistoryRecordsInTables _ _ _). cbn. apply Forall_forall. intros it [H _]%list_elem_of_filter. done.
Qed.
Lemma remote_remove_local userId c R : usedDb (Remote_Remove userId c R).2 = usedDb R /\ permUsedRecList (Remote_Remove userId c R).2 = permUsedRecList R /\
  permUsedRecToggleStatusMap (Remote_Remove userId c R).2 = permUsedRecToggleStatusMap R.
Proof. unfold Remote_Remove. split_if; [|done]. unfold on_remote_db. by destruct (RemoteDb_Remove _ _). Qed.

(** What switching off does, step by step. *)
Lemma switch_off userID subProfileId R R' : SetPermissionUsedRecordToggleStatus userID false subProfileId R = (SUCCESS, R') ->
  let sub := NormalizeToggleSubProfileId subProfileId in
  IsUserIdValid userID = true /\ ValidateSubProfileIdForToggle userID sub = RET_SUCCESS /\
  (ACCESS_TOKEN_SUPPORT_SUBPROFILE = true -> HasToggleStorageModeConflict (permUsedRecToggleStatusMap R) userID sub = false) /\
  exists tokens R1, GetTokenIDByUserID userID sub = Some tokens /\ R1 = match tokens with [] => R | _ => RemoveHistoryPermissionUsedRecords tokens R end /\
    permUsedRecToggleStatusMap R' = <[BuildToggleStatusKey userID sub := false]> (permUsedRecToggleStatusMap R) /\ permUsedRecList R' = permUsedRecList R1 /\
    (usedDb R' = usedDb R1 \/ usedDb R' = (AddOrUpdateUsedStatusIfNeeded userID sub false (usedDb R1)).2).
Proof.
  cbv zeta. unfold SetPermissionUsedRecordToggleStatus. split_if; [done|]. cbv zeta. set (sub := NormalizeToggleSubProfileId subProfileId).
  destruct (Z.eqb_spec (ValidateSubProfileIdForToggle userID sub) RET_SUCCESS) as [Ev|Ev]; cbn [negb]; [|intros [= Ec _]; by destruct Ev]. split_if; [done|].
  destruct (GetTokenIDByUserID userID sub) as [tokens|]; [|done]. set (R1 := match tokens with [] => R | _ => _ end).
  set (R2 := if REMOTE_PRIVACY_ENABLE then _ else R1). assert (usedDb R2 = usedDb R1 /\ permUsedRecList R2 = permUsedRecList R1 /\ permUsedRecToggleStatusMap R2 = permUsedRecToggleStatusMap R1) as (H1 & H2 & H3).
  { subst R2. split_if; [|done]. destruct (remote_remove_local userID (Put FIELD_SUB_PROFILE_ID (TYPE_INT sub) ∅)
      (set_remote_cache (filter (fun it => remote_key (rch_record it) <> BuildToggleStatusKey userID sub) (remotePermUsedRecList R1)) R1)) as (-> & -> & ->). done. }
  pose proof (toggle_map_update userID sub R2) as Hm. assert (forall c R3, UpdatePermUsedRecToggleStatusMap userID sub false R2 = (c, R3) -> usedDb R3 = usedDb R2 /\ permUsedRecList R3 = permUsedRecList R2) as Hu.
  { intros c R3. unfold UpdatePermUsedRecToggleStatusMap. destruct (_ !! _) as [[]|]; cbn; intros [= _ <-]; done. }
  destruct (UpdatePermUsedRecToggleStatusMap userID sub false R2) as [changed R3] eqn:E3. destruct (Hu _ _ eq_refl) as [H4 H5]. cbn [snd] in Hm.
  assert (permUsedRecToggleStatusMap R1 = permUsedRecToggleStatusMap R) as Hr1 by (subst R1; destruct tokens; [done|apply history_toggles]).
  intros Hret. split; [by apply negb_false_iff|]. split; [done|]. split; [intros Hs; rewrite Hs in E0; exact E0|]. exists tokens, R1. split; [done|]. split; [done|].
  destruct (negb changed).
  - injection Hret as <-. split_and!; [by rewrite Hm, H3, Hr1|by rewrite H5|left; by rewrite H4].
  - unfold on_db in Hret. destruct (AddOrUpdateUsedStatusIfNeeded userID sub false (usedDb R3)) as [x s] eqn:Ea. injection Hret as -> <-. cbn [permUsedRecToggleStatusMap permUsedRecList usedDb set_db].
    split_and!; [by rewrite Hm, H3, Hr1|by rewrite H5|right]. rewrite <- H1, <- H4, Ea. done.
Qed.
End Switch.

Section History.
Context {St : Type} `{!SqlStore St, !SqlStoreLaws St, !SqlReliable St}.
Implicit Types (s : St) (R : Records St).

Lemma statement_step q b s x T' : run_sql q b (sql_rows s) = Some (x, T') -> exists s', run_statement q b s = (SUCCESS, s') /\ same_rows (sql_rows s') T'.
Proof.
  intros Hr. destruct (step_ok _ _ _ _ Hr) as (rows & s2 & T & T2 & Es & HT & Hr2 & H2). unfold run_statement. rewrite Es. exists s2. split; [done|].
  destruct (run_sql_same q b T (sql_rows s) rows T2 HT Hr2) as (x3 & T3 & Hr3 & HT3). rewrite Hr in Hr3. injection Hr3 as <- <-. by rewrite H2, <- HT3.
Qed.
Definition without (tokens : list Z) (rows : list Row) : list Row := filter (fun r => conds_hold ∅ [ColumnIn FIELD_TOKEN_ID tokens] r = false) rows.
Lemma history_step t tokens s d : find_table (tableName_ t) = Some d -> known_columns d [FIELD_TOKEN_ID] = true ->
  exists s', run_statement (CreateDeleteHistoryRecordsPrepareSqlCmd t tokens) ∅ s = (SUCCESS, s') /\ same_rows (sql_rows s') (set_rows (tableName_ t) (without tokens (sql_rows s (tableName_ t))) (sql_rows s)).
Proof. intros Hd Hk. eapply statement_step. unfold CreateDeleteHistoryRecordsPrepareSqlCmd, run_sql. rewrite Hd. cbn [map cond_column]. by rewrite Hk. Qed.

(** On a store that works the rows of the tokens go. *)
Lemma history_rows tokens R recs : records_are (usedDb R) recs ->
  records_are (usedDb (RemoveHistoryPermissionUsedRecords tokens R)) (filter (fun r => i32 (pr_tokenId r) ∉ tokens) recs).
Proof.
  intros Hs. unfold RemoveHistoryPermissionUsedRecords, on_db, DeleteHistoryRecordsInTables.
  set (T1 := set_rows PERMISSION_RECORD_TABLE (without tokens (sql_rows (usedDb R) PERMISSION_RECORD_TABLE)) (sql_rows (usedDb R))).
  destruct (Retry_done (DeleteHistoryRecordsInTablesLocked [dataTypeToSqlTable_ PERMISSION_RECORD; dataTypeToSqlTable_ PERMISSION_USED_TYPE] tokens) (usedDb R)
    (set_rows PERMISSION_USED_TYPE_TABLE (without tokens (T1 PERMISSION_USED_TYPE_TABLE)) T1)) as (s' & E & Hs').
  - intros s1 H1. cbn [DeleteHistoryRecordsInTablesLocked].
    destruct (history_step (dataTypeToSqlTable_ PERMISSION_RECORD) tokens s1 CreatePermissionRecordTable) as (s2 & -> & H2); [reflexivity|reflexivity|]. change (SUCCESS =? SUCCESS) with true. cbv iota.
    destruct (history_step (dataTypeToSqlTable_ PERMISSION_USED_TYPE) tokens s2 CreatePermissionUsedTypeTable) as (s3 & -> & H3); [reflexivity|reflexivity|]. change (SUCCESS =? SUCCESS) with true. cbv iota.
    assert (same_rows (sql_rows s2) T1) as H12.
    { rewrite H2. subst T1. apply set_rows_same; [|exact H1]. change (tableName_ _) with PERMISSION_RECORD_TABLE. unfold without. by rewrite (H1 PERMISSION_RECORD_TABLE). }
    exists s3. split; [reflexivity|]. rewrite H3. apply set_rows_same; [|exact H12]. change (tableName_ _) with PERMISSION_USED_TYPE_TABLE. unfold without.
    by rewrite (H12 PERMISSION_USED_TYPE_TABLE).
  - rewrite E. cbn [usedDb set_cache set_db]. unfold records_are in *. rewrite (Hs' PERMISSION_RECORD_TABLE), set_rows_ne by done. subst T1. rewrite set_rows_eq. unfold without. rewrite Hs.
    apply reflexive_eq, filter_rows. intros r _. change (conds_hold ∅ _ (row_of r)) with (bool_decide (i32 (pr_tokenId r) ∈ tokens) && true). rewrite andb_true_r. apply bool_decide_eq_false.
Qed.
Lemma used_status_other userID sub status s : sql_rows (AddOrUpdateUsedStatusIfNeeded userID sub status s).2 PERMISSION_RECORD_TABLE ≡ₚ sql_rows s PERMISSION_RECORD_TABLE.
Proof.
  unfold AddOrUpdateUsedStatusIfNeeded. pose proof (Query_other (dataTypeToSqlTable_ PERMISSION_USED_RECORD_TOGGLE_STATUS) (used_toggle_condition userID sub) s PERMISSION_RECORD_TABLE) as Hq.
  destruct (Query _ _ s) as [[res results] s1]. cbn [snd] in Hq. split_if; [exact Hq|]. destruct results as [|result rest].
  - rewrite <- Hq. by apply Add_other.
  - rewrite <- Hq. apply Update_other; [|done].
    assert (forall v, GetAllKeys (Put FIELD_STATUS v ∅) = [FIELD_STATUS]) as E' by reflexivity. by rewrite E'.
Qed.
End History.

(** ** What stays in the cache. *)
Section Due.
Context {St : Type} `{!SqlStore St}.
Implicit Types (s : St) (R : Records St).

Definition recent (stamp op : Z) (it : PermissionRecordCache) : Prop := pr_opCode (ch_record it) = op -> stamp < pr_timestamp (ch_record it).
Lemma evict_recent stamp op l : forall s, Forall (recent stamp op) (evict_loop stamp op l s).1.
Proof.
  induction l as [|it l IH]; intros s; cbn [evict_loop]; [constructor|]. split_if; [|apply IH].
  specialize (IH s). destruct (evict_loop stamp op l s) as [l' s']. constructor; [|done]. intros Hop. apply orb_true_iff in E as [E%Z.ltb_lt|E%negb_true_iff%Z.eqb_neq]; [done|congruence].
Qed.
Lemma AddRecord_recent r R R' : AddRecord r R = (SUCCESS, R') -> Forall (recent (pr_timestamp r - ONE_MINUTE_MILLISECONDS) (pr_opCode r)) (permUsedRecList R').
Proof.
  unfold AddRecord. destruct (MergeOrInsertRecord r R) as [res R1]. destruct (Z.eqb_spec res SUCCESS) as [->|Hn]; cbn [negb]; [|congruence]. pose proof (evict_recent (pr_timestamp r - ONE_MINUTE_MILLISECONDS) (pr_opCode r) (permUsedRecList R1) (usedDb R1)) as H.
  destruct (evict_loop _ _ _ _) as [l s]. intros [= <-]. exact H.
Qed.
Lemma not_cached cache stamp op recs c : Forall (recent stamp op) cache -> c ∈ ledger cache recs -> pr_opCode c = op -> pr_timestamp c <= stamp -> c ∈ recs.
Proof.
  intros Hf (r & -> & Hr)%list_elem_of_fmap Hop Ht. unfold cached in *. destruct (find_if _ _) as [it|] eqn:E; [|done]. apply find_if_Some in E as [Hit _].
  rewrite Forall_forall in Hf. specialize (Hf it Hit Hop). lia.
Qed.
End Due.
