(* ===== verification/PrivacyRecordSpecs.v ===== *)
(** * The records of used permissions: specifications

    What is used is reported; a merged use reaches the database; recording that is switched off
    stays off; aging keeps its bounds; and two ways in which a record is hidden or reported under
    the wrong token. *)

From stdpp Require Import base gmap list strings sorting.
From S2P Require Import Prelude AccessTokenTypes TokenId Validator Database ToggleManager PrivacyTypes PrivacyRecordSet PrivacyUsage PrivacyUsageProps PrivacyUseSpecs PrivacyDb PrivacyDbTheory PrivacyRecord PrivacyRecordTheory PrivacyQueryTheory PrivacyRecordProps.
#[local] Open Scope string_scope.
#[local] Open Scope list_scope.
#[local] Open Scope Z_scope.

(** ** A device and a database in memory. *)
Definition one_user : OsAccount := {|
  ERR_OS_ACCOUNT_SUBPROFILE_NOT_FOUND := 12300010;
  GetOsAccountLocalIdForSubProfile s := if s =? 7 then (ERR_OK, 100) else (12300010, -1) |}.
(** The application with token 536870913, if it is installed. *)
Definition device (installed : bool) : RecordServices := {|
  GetPermissionFlagEx := fun _ _ => None;
  GetHapTokenInfo := fun t => if installed && (t =? 536870913) then Some (mkHapSummary 100 0 "com.example.app") else None;
  GetTokenIDByUserID := fun _ _ => Some [536870913];
  GetOsAccountSubProfileId := fun _ _ => (ERR_OK, 7);
  GetForegroundOsAccountLocalId := (ERR_OK, 100);
  GetOsAccountForegroundSubProfileId := fun _ => (ERR_OK, 7);
  GetCallingPid := 5;
  IsDirExist := fun _ => false;
  IsDbFileExist := fun _ => false |}.
#[local] Existing Instances full_config phone phone_answers one_user device.
Definition new_device : Records MemSql := mkRecords (mkMemSql (fun _ => []) (fun _ => [])) [] ∅ (fun _ => mkMemSql (fun _ => []) (fun _ => [])) [].
Definition camera_info (success fail : Z) : AddPermParamInfo := mkAddPermParamInfo 536870913 CAMERA_PERMISSION_NAME success fail NORMAL_TYPE "" "".
Definition use_camera (now success fail : Z) (R : Records MemSql) : Z * Records MemSql :=
  let '(ret, _, R) := AddPermissionUsedRecordInner (RS := device true) now (camera_info success fail) 671088641 5 idle_phone R in (ret, R).
Definition all_records : PermissionUsedRequest := mkPermissionUsedRequest 0 false "" "" [] 1 1000000000 FLAG_PERMISSION_USAGE_SUMMARY.
Definition report (installed : bool) (R : Records MemSql) : list BundleUsedRecord :=
  res_bundleRecords (GetPermissionUsedRecords (RS := device installed) 0 0 500000 all_records R).1.2.


(** ** Specifications. *)
Section Specs.
Context {St : Type} `{!SqlStore St, !SqlStoreLaws St, !SqlReliable St}.
Implicit Types (R : Records St).

(** C7: what is used is reported.  Start from any state whose cache agrees with its table, on a
    database that works, and let uses be reported (in any order, with any clock), with queries,
    write-backs and restarts after a write-back in between.  A report counts whatever it answers:
    [log] holds the records of the uses that pass the checks of the service (installed
    application, recording on, permission recorded), whose fields fit their columns.  One kind of report is excluded: a use whose
    row the database refuses because a row with its key is there that it cannot be merged with.
    Then, as long as no sum exceeds the 32-bit range, a local query that covers all these records
    (none of its limits is reached, the applications are installed) succeeds, and for every choice
    of tokens, permissions and identities the accesses, the accesses through pickers and security
    components, and the rejections it shows are exactly those that were there and those of the
    log: merging, writing back, evicting and restarting neither lose nor duplicate a use. *)
Theorem used_records_reported (BC : BuildConfig) (PC : PrivacyConfig) (SV : Services) (OA : OsAccount) (RS : RecordServices)
    log R0 recs R now now' maximum request v :
  rec_inv R0 recs -> records_run log R0 R ->
  let L := ledger_of R0 recs ++ log in
  (forall k, recorded every k L < 2 ^ 31) ->
  Request_TranslationIntoGenericValues now now' request = Some v -> is_u32 (rq_tokenId request) -> rq_isRemote request = false ->
  Forall (fun r => selects now now' request r = true /\ is_Some (GetHapTokenInfo (pr_tokenId r))) L ->
  Z.of_nat (length L) <= query_limit maximum request ->
  exists result R', GetPermissionUsedRecords now now' maximum request R = (SUCCESS, result, R') /\
    forall h k, reported h k (res_bundleRecords result) = recorded h k L.
Proof. apply uses_reported. Qed.

(** C27: a merged use reaches the database.  On a database that works, from a state whose cache
    agrees with its table (each cached record stands for one row, and differs from it only when it
    is marked for writing back), and as long as no count exceeds the 32-bit range: a use that is
    accepted joins the records, whether it is merged in the cache or stored at once, and the state
    agrees again; the only way to refuse it is a row with its key.  After an accepted use, every
    record of its permission that is at least a minute older is in the table with the counts of
    all the uses merged into it. *)
Theorem merged_uses_written_back r R recs ret R' :
  rec_inv R recs -> record_valid r -> counts_fit r (ledger_of R recs) -> AddRecord r R = (ret, R') ->
  (ret <> SUCCESS -> pk r ∈ map pk recs) /\
  (ret = SUCCESS -> exists recs', rec_inv R' recs' /\ ledger_add r (ledger_of R recs) (ledger_of R' recs') /\
    forall c, c ∈ ledger_of R' recs' -> pr_opCode c = pr_opCode r -> pr_timestamp c <= pr_timestamp r - ONE_MINUTE_MILLISECONDS -> c ∈ recs').
Proof.
  intros HR Hv Hfit Ha. destruct (AddRecord_refines r R recs ret R' HR Hv Hfit Ha) as [(-> & recs' & HR' & Hl)|[Hn Hp]].
  - split; [done|]. intros _. exists recs'. split; [exact HR'|]. split; [exact Hl|]. intros c Hc Hop Ht. exact (not_cached _ _ _ _ _ (AddRecord_recent _ _ _ Ha) Hc Hop Ht).
  - split; [intros _; exact Hp|congruence].
Qed.

(** C30: aging.  On a database that works the clean-up succeeds, and the table then holds at most the
    maximal number of records, none of them older than the given number of days; it removes
    nothing else: a record that is not too old goes only when there were too many, and then all
    that stay are newer. *)
Theorem aging_bounds now maximum days R recs : records_are (usedDb R) recs -> Z.of_nat (length recs) < 2 ^ 31 -> 0 <= maximum ->
  exists R' kept, DeletePermissionRecord now maximum days R = (SUCCESS, R') /\ records_are (usedDb R') kept /\ kept `sublist_of` recs /\
    Z.of_nat (length kept) <= maximum /\ Forall (fun r => now - days * ONE_DAY_MILLISECONDS < pr_timestamp r) kept /\
    (forall r, r ∈ recs -> r ∉ kept -> now - days * ONE_DAY_MILLISECONDS < pr_timestamp r ->
       maximum < Z.of_nat (length recs) /\ forall r', r' ∈ kept -> pr_timestamp r < pr_timestamp r').
Proof. apply aging. Qed.

(** C14: switching the recording off for a user.  When it succeeds, the toggle reads as off; every
    later use by an application of that user (and sub-profile) is refused and changes nothing;
    and of the applications of the user no record is left in the cache nor, when the database
    works, in the table. *)
Theorem switched_off_not_recorded (BC : BuildConfig) (PC : PrivacyConfig) (SV : Services) (OA : OsAccount) (RS : RecordServices) userID subProfileId R R' recs :
  records_are (usedDb R) recs -> SetPermissionUsedRecordToggleStatus userID false subProfileId R = (SUCCESS, R') ->
  let sub := NormalizeToggleSubProfileId subProfileId in
  GetPermissionUsedRecordToggleStatus userID subProfileId R' = inr false /\
  (forall now info caller pid u app, GetHapTokenInfo (ai_tokenId info) = Some app -> hs_userID app = userID -> ResolveAddRecordSubProfileId app R' = inr sub ->
     AddPermissionUsedRecordInner now info caller pid u R' = (ERR_PRIVACY_TOGGELE_RESTRICTED, [], R')) /\
  exists tokens, GetTokenIDByUserID userID sub = Some tokens /\ Forall (fun it => pr_tokenId (ch_record it) ∉ tokens) (permUsedRecList R') /\
    records_are (usedDb R') (filter (fun r => i32 (pr_tokenId r) ∉ tokens) recs).
Proof.
  intros Hrows Hset. cbv zeta. destruct (switch_off _ _ _ _ Hset) as (Hu & Hv & Hconf & tokens & R1 & Ht & ER1 & Hm & Hc & Hdb). cbv zeta in *.
  set (sub := NormalizeToggleSubProfileId subProfileId) in *.
  assert (GetCachedToggleStatus (permUsedRecToggleStatusMap R') userID sub = false) as Hoff by (unfold GetCachedToggleStatus; by rewrite Hm, lookup_insert_eq).
  split; [|split].
  - unfold GetPermissionUsedRecordToggleStatus. rewrite Hu. cbv zeta. fold sub. rewrite Hv, Z.eqb_refl, Hoff. cbn [negb].
    destruct ACCESS_TOKEN_SUPPORT_SUBPROFILE; [|done]. destruct (Z.eqb_spec sub LEGACY_SUBPROFILE_ID) as [Es|]; [|done]. cbn [andb].
    rewrite Hm, (conflict_after_set _ _ _ _ (Hconf eq_refl) Es). done.
  - intros now info caller pid u app Hi Hus Hres. unfold AddPermissionUsedRecordInner. rewrite Hi, Hres. unfold CheckPermissionUsedRecordToggleStatus. by rewrite Hus, Hoff.
  - exists tokens. split; [done|]. assert (Forall (fun it => pr_tokenId (ch_record it) ∉ tokens) (permUsedRecList R1) /\ records_are (usedDb R1) (filter (fun r => i32 (pr_tokenId r) ∉ tokens) recs)) as [H1 H2].
    { subst R1. destruct tokens as [|t tokens]; [|split; [apply history_cache|by apply history_rows]]. split; [apply Forall_forall; by intros ? _ ?%elem_of_nil|].
      rewrite filter_all; [exact Hrows|]. apply Forall_forall. by intros ? _ ?%elem_of_nil. }
    rewrite Hc. split; [exact H1|]. destruct Hdb as [-> | ->]; [exact H2|]. unfold records_are in *. rewrite used_status_other. exact H2.
Qed.
End Specs.

(** A refused record hides a use.  A row's key does not tell a success from a failure, but a
    success and a failure are not merged.  When an application uses the camera and is refused
    it in the same millisecond, storing the refusal fails, yet its record stays in the cache; the
    next refusal is merged into it and accepted, and from then on it replaces the successful use:
    the query no longer shows it, and writing back erases it from the database. *)
Theorem refused_record_hides_use :
  let '(ret1, R1) := use_camera 100000 1 0 new_device in
  let '(ret2, R2) := use_camera 100000 0 1 R1 in
  let '(ret3, R3) := use_camera 100001 0 1 R2 in
  (ret1, ret2, ret3) = (SUCCESS, PrivacyTypes.ERR_DATABASE_OPERATE_FAILED, SUCCESS) /\
  reported every Accesses (report true R1) = 1 /\ reported every Accesses (report true R2) = 1 /\
  reported every Accesses (report true R3) = 0 /\ reported every Rejections (report true R3) = 2 /\
  reported every Accesses (report true (restart (UpdatePermRecImmediately (RS := device true) R3))) = 0.
Proof. vm_compute. split_and!; reflexivity. Qed.

(** Records of an application that is gone.  The query skips the first record of a token
    that is not installed, but it has then noted its key as known: from the second record on they
    are reported, under token 0 and without a bundle name. *)
Theorem uninstalled_reported_as_zero :
  let R1 := (use_camera 100000 1 0 new_device).2 in
  let R2 := (use_camera 200000 1 0 R1).2 in
  map bur_tokenId (report true R2) = [536870913] /\ reported every Accesses (report true R2) = 2 /\
  report false R1 = [] /\
  map (fun b => (bur_tokenId b, bur_bundleName b)) (report false R2) = [(0, "")] /\ reported every Accesses (report false R2) = 1.
Proof. vm_compute. split_and!; reflexivity. Qed.

(** ** Witnesses. *)
Definition camera_record (now success fail : Z) : PermissionRecord :=
  mkPermissionRecord 536870913 OP_CAMERA PERM_ACTIVE_IN_FOREGROUND now 0 NORMAL_TYPE success fail PERM_ACTIVE_IN_UNLOCKED "".
Lemma camera_record_valid : record_valid (camera_record 100000 1 0).
Proof. by constructor. Qed.
Lemma new_device_inv : rec_inv new_device [].
Proof. split; [apply Permutation_refl|]. split; constructor. Qed.

(** A use, and a report without any use, which is refused. *)
Definition no_use (R : Records MemSql) : Z * list UseEvent * Records MemSql :=
  AddPermissionUsedRecordInner (RS := device true) 100001 (camera_info 0 0) 671088641 5 idle_phone R.
Lemma used_records_reported_witness : (no_use (use_camera 100000 1 0 new_device).2).1.1 = PrivacyTypes.ERR_PARAM_INVALID /\ exists result R',
  GetPermissionUsedRecords (RS := device true) 0 0 500000 all_records (no_use (use_camera 100000 1 0 new_device).2).2 = (SUCCESS, result, R') /\
  reported every Accesses (res_bundleRecords result) = 1.
Proof.
  split; [vm_compute; reflexivity|]. destruct (Request_TranslationIntoGenericValues 0 0 all_records) as [v|] eqn:Ev; [|vm_compute in Ev; discriminate Ev].
  destruct (used_records_reported full_config phone phone_answers one_user (device true) ([camera_record 100000 1 0] ++ [] ++ []) new_device []
    (no_use (use_camera 100000 1 0 new_device).2).2 0 0 500000 all_records v) as (result & R' & E & H).
  - exact new_device_inv.
  - apply (run_more _ _ _ (use_camera 100000 1 0 new_device).2); [|apply (run_more _ _ _ (no_use (use_camera 100000 1 0 new_device).2).2); [|constructor]].
    + assert (use_record (RS := device true) 100000 (camera_info 1 0) idle_phone new_device = [camera_record 100000 1 0]) as Eu by (vm_compute; reflexivity).
      rewrite <- Eu. eapply (step_report 100000 (camera_info 1 0) 671088641 5 idle_phone new_device); [vm_compute; reflexivity|].
      rewrite Eu. apply Forall_cons. split; [|constructor]. split; [exact camera_record_valid|vm_compute; reflexivity].
    + assert (use_record (RS := device true) 100001 (camera_info 0 0) idle_phone (use_camera 100000 1 0 new_device).2 = []) as Eu by (vm_compute; reflexivity).
      rewrite <- Eu. set (x := no_use _). apply (step_report 100001 (camera_info 0 0) 671088641 5 idle_phone _ x.1.1 x.1.2); [|by rewrite Eu].
      unfold x, no_use. by destruct (AddPermissionUsedRecordInner _ _ _ _ _ _) as [[ret evs] R1].
  - intros []; vm_compute; reflexivity.
  - exact Ev.
  - by split.
  - reflexivity.
  - apply Forall_cons. split; [|constructor]. split; [vm_compute; reflexivity|eexists; reflexivity].
  - vm_compute. discriminate.
  - exists result, R'. split; [exact E|]. rewrite H. vm_compute. reflexivity.
Defined.

(** Two uses of the camera are merged in the cache; a third, a minute later, writes them back. *)
Definition merged_device : Records MemSql := (AddRecord (camera_record 100001 1 0) (AddRecord (camera_record 100000 1 0) new_device).2).2.
Lemma merged_device_inv : rec_inv merged_device [camera_record 100000 1 0].
Proof.
  split; [apply Permutation_refl|]. split.
  - apply Forall_cons. split; [exact camera_record_valid|constructor].
  - apply NoDup_singleton.
  - apply NoDup_singleton.
  - apply Forall_cons. split; [|constructor]. split; [by constructor|]. exists (camera_record 100000 1 0). split_and!; [left|reflexivity|reflexivity|discriminate].
Qed.
Lemma merged_ledger : ledger_of merged_device [camera_record 100000 1 0] = [camera_record 100000 2 0].
Proof. vm_compute. reflexivity. Qed.
Lemma merged_fits : counts_fit (camera_record 200000 1 0) (ledger_of merged_device [camera_record 100000 1 0]).
Proof. rewrite merged_ledger. apply Forall_cons. split; [|constructor]. split; vm_compute; reflexivity. Qed.
Lemma later_valid : record_valid (camera_record 200000 1 0).
Proof. by constructor. Qed.

Lemma merged_uses_written_back_witness : exists recs',
  rec_inv (AddRecord (camera_record 200000 1 0) merged_device).2 recs' /\ camera_record 100000 2 0 ∈ recs' /\ camera_record 100000 2 0 ∉ [camera_record 100000 1 0].
Proof.
  destruct (AddRecord (camera_record 200000 1 0) merged_device) as [ret R'] eqn:E.
  destruct (merged_uses_written_back (camera_record 200000 1 0) merged_device [camera_record 100000 1 0] ret R') as [_ H];
    [exact merged_device_inv|exact later_valid|exact merged_fits|exact E|].
  destruct H as (recs' & H1 & H2 & H3).
  - apply (f_equal fst) in E. vm_compute in E. symmetry. exact E.
  - exists recs'. split; [exact H1|]. split; [|intros Hin%list_elem_of_singleton; discriminate Hin]. apply H3; [|reflexivity|vm_compute; discriminate].
    rewrite merged_ledger in H2. inversion H2 as [L Hn E1 E2|L1 c L2 Hm E1 E2]; [left|]. exfalso. destruct L1 as [|x L1]; [|destruct L1; discriminate E1].
    injection E1 as -> ->. vm_compute in Hm. discriminate Hm.
Defined.

Definition stored (rs : list PermissionRecord) : Records MemSql :=
  mkRecords (mkMemSql (fun t => if String.eqb t PERMISSION_RECORD_TABLE then map row_of rs else []) (fun _ => [])) [] ∅ (fun _ => mkMemSql (fun _ => []) (fun _ => [])) [].

Lemma aging_bounds_witness : exists R' kept,
  DeletePermissionRecord 300000 1 7 (stored [camera_record 100000 1 0; camera_record 200000 1 0]) = (SUCCESS, R') /\ records_are (usedDb R') kept /\ Z.of_nat (length kept) <= 1.
Proof.
  destruct (aging_bounds 300000 1 7 (stored [camera_record 100000 1 0; camera_record 200000 1 0]) [camera_record 100000 1 0; camera_record 200000 1 0])
    as (R' & kept & E & H1 & _ & H2 & _); [apply Permutation_refl|vm_compute; reflexivity|lia|].
  exists R', kept. split; [exact E|]. split; [exact H1|exact H2].
Defined.

Lemma switched_off_not_recorded_witness :
  (SetPermissionUsedRecordToggleStatus (RS := device true) 100 false 7 (stored [camera_record 100000 1 0])).1 = SUCCESS /\
  GetPermissionUsedRecordToggleStatus 100 7 (SetPermissionUsedRecordToggleStatus (RS := device true) 100 false 7 (stored [camera_record 100000 1 0])).2 = inr false /\
  records_are (usedDb (SetPermissionUsedRecordToggleStatus (RS := device true) 100 false 7 (stored [camera_record 100000 1 0])).2) [].
Proof.
  destruct (SetPermissionUsedRecordToggleStatus 100 false 7 (stored [camera_record 100000 1 0])) as [ret R'] eqn:E.
  assert (ret = SUCCESS) as -> by (apply (f_equal fst) in E; vm_compute in E; exact (eq_sym E)). split; [reflexivity|].
  destruct (switched_off_not_recorded full_config phone phone_answers one_user (device true) 100 7 (stored [camera_record 100000 1 0]) R' [camera_record 100000 1 0])
    as (H1 & _ & tokens & Ht & _ & H2); [apply Permutation_refl|exact E|]. split; [exact H1|]. vm_compute in Ht. injection Ht as <-. exact H2.
Defined.
