(* ===== verification/PrivacyRemote.v ===== *)
(** * The query for remote records

    services/privacymanager/src/record/permission_record_manager.cpp,
    GetRemotePermissionUsedRecords: the records that other devices reported for a user, added up
    per device and permission, with database/data_translator.cpp and
    database/remote_permission_used_record_db.cpp. *)

From stdpp Require Import base gmap list strings sorting.
From S2P Require Import Prelude AccessTokenTypes Validator Database ToggleManager PrivacyTypes PrivacyRecordSet PrivacyUsage PrivacyUsageProps PrivacyUseSpecs PrivacyDb PrivacyRecord PrivacyRecordTheory PrivacyQueryTheory PrivacyRecordSpecs.
#[local] Open Scope string_scope.
#[local] Open Scope list_scope.
#[local] Open Scope Z_scope.

(** ** Requests and results (database/data_translator.cpp). *)
Definition TranslationRemoteRequestIntoGenericValues (now now' : Z) (request : PermissionUsedRequest) : option GenericValues :=
  let begin := rq_beginTimeMillis request in
  let end_ := rq_endTimeMillis request in
  if (begin <? 0) || (end_ <? 0) || (end_ <? begin) then None else Some (put_times now now' begin end_ ∅).
Definition TranslationGenericValuesIntoRemotePermissionRecord (flag : Z) (v : GenericValues) : option PermissionUsedRecord :=
  let '(known, permission) := TransferOpcodeToPermission (GetInt FIELD_OP_CODE v) "" in
  if negb known then None
  else
    let timestamp := GetInt64 FIELD_TIMESTAMP v in
    let accessCount := GetInt FIELD_ACCESS_COUNT v in
    let rejectCount := GetInt FIELD_REJECT_COUNT v in
    let accessed := negb (accessCount =? 0) in
    let rejected := negb (rejectCount =? 0) in
    let lastAccessTime := if accessed then timestamp else 0 in
    let lastRejectTime := if rejected then timestamp else 0 in
    let summary := flag =? FLAG_PERMISSION_USAGE_SUMMARY in
    let detail time count := mkUsedRecordDetail DEFAULT_VALUE PERM_ACTIVE_IN_UNLOCKED time 0 count DEFAULT_VALUE in
    Some (mkPermissionUsedRecord permission "" (if accessed then accessCount else 0) 0 (if rejected then rejectCount else 0)
      lastAccessTime lastRejectTime 0
      (if negb summary && (0 <? lastAccessTime) then [detail lastAccessTime accessCount] else [])
      (if negb summary && (0 <? lastRejectTime) then [detail lastRejectTime rejectCount] else [])).

Section Remote.
Context {BC : BuildConfig} {RS : RecordServices} {St : Type} `{!SqlStore St}.
Implicit Types (R : Records St).

Definition Remote_FindByConditions (userId : Z) (opCodeList : list Z) (andConditions : GenericValues) (databaseQueryCount : Z) R
    : Z * list GenericValues * Records St :=
  if GetDatabase userId false then
    let '(res, values, s) := RemoteDb_FindByConditions opCodeList andConditions databaseQueryCount (remoteDbs R userId) in
    (res, values, set_remote_db userId s R)
  else (SUCCESS, [], R).

(** Does the queried row stand for this cached record? *)
Definition is_remote_row_of (queryValue : GenericValues) (userId : Z) (record : RemotePermissionRecord) : bool :=
  String.eqb (GetString FIELD_DEVICE_ID queryValue) (rr_deviceId record) && String.eqb (GetString FIELD_DEVICE_NAME queryValue) (rr_deviceName record) &&
  (GetInt FIELD_OP_CODE queryValue =? rr_opCode record) && (GetInt64 FIELD_TIMESTAMP queryValue =? rr_timestamp record) &&
  String.eqb (BuildToggleStatusKey userId (GetInt FIELD_SUB_PROFILE_ID queryValue)) (remote_key record).
Definition InsteadMergedRemoteRecIfNecessary (userId : Z) (mergedRecords : list RemotePermissionRecord) (queryValue : GenericValues) : GenericValues :=
  match find_if (is_remote_row_of queryValue userId) mergedRecords with
  | None => queryValue
  | Some record => put_counts (rr_accessCount record) (rr_rejectCount record) queryValue
  end.

(** The bundles by device and the bounds of the times. *)
Record RemoteQuery := mkRemoteQuery { rq_bundles : gmap string BundleUsedRecord; rq_begin : Z; rq_end : Z }.
Definition remote_row (userId : Z) (mergedRecords : list RemotePermissionRecord) (flag : Z) (q : RemoteQuery) (recordValue : GenericValues) : RemoteQuery :=
  let recordValue := InsteadMergedRemoteRecIfNecessary userId mergedRecords recordValue in
  let '(begin, end_) := widen (GetInt64 FIELD_TIMESTAMP recordValue) (rq_begin q) (rq_end q) in
  let deviceId := GetString FIELD_DEVICE_ID recordValue in
  let deviceName := GetString FIELD_DEVICE_NAME recordValue in
  let uniqueStr := deviceId +:+ deviceName in
  let bundles :=
    match rq_bundles q !! uniqueStr with
    | Some _ => rq_bundles q
    | None => <[uniqueStr := mkBundleUsedRecord 0 true deviceId deviceName "" []]> (rq_bundles q)
    end in
  let bundles :=
    match TranslationGenericValuesIntoRemotePermissionRecord flag recordValue with
    | None => bundles
    | Some record => alter (fun b => set_bur_records (FillPermissionUsedRecords record flag (bur_permissionRecords b)) b) uniqueStr bundles
    end in
  mkRemoteQuery bundles begin end_.
Definition BuildBundleUsedRecordsFromRemoteResults (findRecordsValues : list GenericValues) (userId : Z) (mergedRecords : list RemotePermissionRecord) (flag : Z) : RemoteQuery :=
  fold_left (remote_row userId mergedRecords flag) findRecordsValues (mkRemoteQuery ∅ 0 0).

Definition GetRemotePermissionUsedRecords (now now' recordSizeMaximum : Z) (request : PermissionUsedRequest) (userId : Z) R
    : Z * PermissionUsedResult * Records St :=
  let nothing := mkPermissionUsedResult 0 0 [] in
  if negb (rq_isRemote request) || negb (IsUserIdValid userId) || negb (IsRemotePermissionUsedFlagValid (rq_flag request))
  then (PrivacyTypes.ERR_PARAM_INVALID, nothing, R)
  else
    match TranslationRemoteRequestIntoGenericValues now now' request with
    | None => (PrivacyTypes.ERR_PARAM_INVALID, nothing, R)
    | Some andConditionValues =>
        let '(ret, subProfileId) :=
          if ACCESS_TOKEN_SUPPORT_SUBPROFILE then GetOsAccountForegroundSubProfileId userId else (ERR_OK, LEGACY_SUBPROFILE_ID) in
        if negb (ret =? ERR_OK) then (PrivacyTypes.ERR_SERVICE_ABNORMAL, nothing, R)
        else
          let andConditionValues :=
            if ACCESS_TOKEN_SUPPORT_SUBPROFILE then Put FIELD_SUB_PROFILE_ID (TYPE_INT subProfileId) andConditionValues else andConditionValues in
          let dataLimitNum := if rq_flag request =? FLAG_PERMISSION_USAGE_DETAIL then MAX_ACCESS_RECORD_SIZE else recordSizeMaximum in
          let '(_, findRecordsValues, R) := Remote_FindByConditions userId (TransferToOpcode (rq_permissionList request)) andConditionValues dataLimitNum R in
          match findRecordsValues with
          | [] => (SUCCESS, nothing, R)
          | _ =>
              let targetToggleKey := BuildToggleStatusKey userId subProfileId in
              let mergedRecords :=
                map rch_record (filter (fun c => rch_needUpdateToDb c = true /\ remote_key (rch_record c) = targetToggleKey) (remotePermUsedRecList R)) in
              let q := BuildBundleUsedRecordsFromRemoteResults findRecordsValues userId mergedRecords (rq_flag request) in
              (SUCCESS, mkPermissionUsedResult (rq_begin q) (rq_end q) (in_order (rq_bundles q)), R)
          end
    end.
End Remote.

(** ** Devices are told apart by their id and name written one after the other. *)
Definition shared_device : RecordServices := {|
  GetPermissionFlagEx := fun _ _ => None;
  GetHapTokenInfo := fun _ => None;
  GetTokenIDByUserID := fun _ _ => Some [];
  GetOsAccountSubProfileId := fun _ _ => (ERR_OK, 7);
  GetForegroundOsAccountLocalId := (ERR_OK, 100);
  GetOsAccountForegroundSubProfileId := fun _ => (ERR_OK, 7);
  GetCallingPid := 5;
  IsDirExist := fun _ => true;
  IsDbFileExist := fun _ => true |}.
#[local] Existing Instances full_config phone phone_answers one_user shared_device.
Definition remote_camera (now : Z) (deviceId deviceName : string) (R : Records MemSql) : Records MemSql :=
  (AddRemotePermissionUsedRecord now (mkRemoteAddPermParamInfo deviceId deviceName CAMERA_PERMISSION_NAME 1 0) idle_phone R).2.
Definition remote_report (R : Records MemSql) : list BundleUsedRecord :=
  res_bundleRecords (GetRemotePermissionUsedRecords 0 0 500000 (mkPermissionUsedRequest 0 true "" "" [] 1 1000000000 FLAG_PERMISSION_USAGE_SUMMARY) 100 R).1.2.

(** Uses are reported for each device and merged within a minute; but a device "tv" called "10" and
    a device "tv1" called "0" are taken for one, and its name is that of the latest. *)
Example remote_report_merges :
  map (fun b => (bur_deviceId b, map pur_accessCount (bur_permissionRecords b)))
    (remote_report (remote_camera 100002 "tv" "Den" (remote_camera 100001 "tv" "Den" (remote_camera 100000 "car" "My car" new_device)))) =
  [("car", [1]); ("tv", [2])].
Proof. vm_compute. reflexivity. Qed.

Example remote_devices_confused :
  map (fun b => (bur_deviceId b, bur_deviceName b, map pur_accessCount (bur_permissionRecords b)))
    (remote_report (remote_camera 100001 "tv1" "0" (remote_camera 100000 "tv" "10" new_device))) =
  [("tv1", "0", [2])].
Proof. vm_compute. reflexivity. Qed.
